(* ===== verification/_CoqProject ===== *)
-Q . S2P
Prelude.v
Config.v
PrioBitmap.v
Msgtag.v
Cap.v
Lists.v
ListSpec.v
ListRefine.v
ListProps.v
Heap4.v
Heap4List.v
Heap4Spec.v
Alloc.v
Heap4Props.v
Heap1.v
Heap3.v
Tasks.v
TasksInv.v
TasksSpec.v
TasksCreate.v
TasksSafe.v
TasksFrame.v
TasksDemo.v
TasksProps.v
TasksWitness.v
Libc.v
Queue.v
QueueSpec.v
QueueSafe.v
QueueProps.v
QueueWitness.v
CInt.v
PtpTime.v
PtpMsg.v
PtpClock.v
PtpServo.v
Decimal.v
PtpUtil.v
PtpCore.v
PtpBmc.v
PtpInv.v
PtpProps.v
CStr.v
Jsonw.v
LwipLibc.v
MqttNet.v
MqttNetProps.v
Mqtt.v
MqttProps.v
Mmio.v
Uart.v
UartProps.v
Mailbox.v
MailboxProps.v
PortIrq.v
PortIrqProps.v
GenetRegs.v
Genet.v
GenetRx.v
GenetProps.v
GenetInit.v
NetIf.v
NetIfProps.v
SysArch.v
SysArchProps.v
Boot.v
BootProps.v
PtpRaw.v
PtpRawProps.v
Sockets.v
MqttPlat.v
MqttPlatProps.v
NetDemo.v
NetDemoProps.v
NetDemoOs.v
MainDemo.v
MainDemoSafe.v
MainDemoProps.v
