(* ===== verification/Prelude.v ===== *)
(** * FlintRTOS: a verification development

    FlintRTOS is a small real-time operating system for AArch64 (Raspberry
    Pi 4) with a FreeRTOS-style kernel, a capability and message-tag layer, a
    memory allocator, and on top of them a network stack port (lwIP), an IEEE
    1588 (PTP) slave clock and an MQTT device application.  This library
    translates the C sources under src/ into Rocq definitions, one definition
    per C function, and proves what makes them correct.

    ** How C is modelled

    - An integer of width w is a [Z]; unsigned operations reduce modulo 2^w
      ([u8] ... [u64] below), conversions to signed types take the
      two's-complement representative ([i8] ... [i64]).  Signed overflow is
      undefined: from CInt on it makes the computation fail ([s32], [s64]).
    - Stateful code is a state monad with failure, [M S A], over the record of
      the file's static variables (and, for the kernel, of the memory they point
      into).  Failure is undefined behaviour: a null or dangling pointer, an
      index outside an array, a signed overflow, an exhausted loop bound.  [wp]
      is total correctness: the code returns and does not fail.
    - Loops that are not structural carry fuel; each file says why its fuel is
      enough, and the theorems are stated so that running out of fuel would
      refute them.
    - Code outside the repository's own sources (lwIP, coreMQTT, the counter
      and network hardware, the transmit callback) is a type class of operations
      with the results or laws the code relies on.

    ** Files

    Prelude (this file): machine integers, bit operations, the monad and its
    program logic, list lemmas, hint databases.  Config: the constants of
    include/FlintRTOS/projdefs.h, include/flint/config.h, status.h, portmacro.h
    and the rpi4 FlintRTOSConfig.h.  CInt, Decimal, CStr: checked arithmetic and
    arrays, numerals, C strings, shared by everything from the PTP port on.

    Kernel primitives.
    - PrioBitmap (kernel/prio_bitmap.c): two-level priority bitmap; the highest
      set priority is the maximum of the set it represents.
    - Msgtag (kernel/msgtag.c): packing and unpacking are inverse; errors.
    - Cap (kernel/cap.c): capability nodes in a memory where nodes may alias;
      no sequence of operations creates authority, errors change nothing.
    - Lists, ListSpec, ListRefine, ListProps (kernel/list.c): intrusive doubly
      linked lists refine sequences; sorted insertion, removal, round robin.
    - Heap4, Heap4List, Heap4Spec, Heap4Props (portable/MemMang/heap_4.c): the
      pool, a map from addresses to block headers, refines a set of disjoint
      allocations; first fit, coalescing, clients that store into their blocks
      only; Alloc
      is the allocator interface, which Heap1 (heap_1.c) implements too, and Heap3
      (heap_3.c) over the host's allocator.
    - Libc (kernel/flint_libc.c): memcpy, memmove, memset, strlen.

    Scheduler and queues.
    - Tasks (kernel/tasks.c and the critical sections and initial frame of
      portable/LLVM_AArch64/port.c), TasksInv (the invariant), TasksSpec and
      TasksCreate (each operation meets it, with its effect), TasksSafe (any
      sequence of operations), TasksFrame (what operations leave alone),
      TasksDemo, TasksProps and TasksWitness (the properties): the highest ready
      priority runs, delays last exactly their ticks, wake-ups, priority
      inheritance, creation.  A switch away from a task that has overrun its
      stack does not return, as the hook of demo/rpi4/main.c halts; theorems in
      which a switch returns say that the outgoing task's stack is intact.
    - Queue (kernel/queue.c, semphr.h), QueueSpec, QueueSafe, QueueProps,
      QueueWitness: queues refine bounded sequences, mutexes exclude, and any
      interleaving of the steps of blocking calls of several tasks with the tick
      is safe.  A call is split at its critical sections and at its yields
      ([phase]), so an interrupt can fall between a critical section and the
      yield that follows it.  Creation of tasks and queues is one step, since
      the allocator it calls has no critical section: it is proved for a caller
      that nothing interrupts, and is not among the interleaved operations.

    PTP (port/ptp).
    - PtpTime, PtpMsg, PtpClock, PtpServo: ptp_time.c, ptp_msg.c, ptp_clock.c,
      ptp_servo.c.  The clock reads the hardware counter through [PtpHw]; it
      never runs backwards between adjustments and is continuous across them.
    - PtpUtil, PtpCore: ptp_core.c; the log is a list of structured events, the
      transmit callback is [PtpTx].  PtpBmc: master selection and the median
      filter against reference definitions.  PtpInv: an invariant of every
      state reached without signed overflow, by rule induction over messages and
      polls.  PtpProps:
      wire timestamps, two-step against one-step, the path delay.

    MQTT and the lwIP port (port/mqtt, port/lwip).
    - Jsonw: jsonw.c, exactly the part of a document's text that fits.
    - LwipLibc: lwip_libc.c, formatted output against the meaning of the C
      directives it implements, number reading, searching.
    - MqttNet, MqttNetProps: transport_raw.c over [Lwip]; the receive ring is a
      FIFO stream, opening always settles.
    - Mqtt, MqttProps: flint_mqtt.c over [MqttEnv]; the service loop is total,
      reconnection backs off, commands are answered.

    Board (bsp/rpi4, boot/rpi4 and the rest of port.c).  Mmio is a bus of
    registers with an arbitrary device behind it, which may answer any read from
    the writes and reads so far.
    - Boot, BootProps: boot.c; the address space main starts in, against the
      architecture's table walk through either base register, and a boot that
      reaches main on any hardware.
    - Uart, UartProps: uart.c; messages are whole, masked and never hang.
    - Mailbox, MailboxProps: mailbox.c, against any GPU and against a firmware
      that answers under one of the two bus addresses.
    - PortIrq, PortIrqProps: interrupt table, GIC, generic timer and interrupt
      handler of port.c over the kernel of Tasks; the tick interrupt runs the
      highest ready task, installed handlers are served.
    - GenetRegs, Genet (genet.c), GenetRx, GenetProps, GenetInit: the Ethernet
      driver; reception against the ring, stamps taken by the interrupt, the
      transmit ring, and a bring-up that returns whatever the controller answers.
      The receive ring does not change while one call of the driver runs
      ([rx_hw]); it may between the interrupt and the poll.

    The network (port/lwip and the bindings of port/ptp and port/mqtt).
    - NetIf, NetIfProps: flint_netif.c and the two pbuf functions it calls, over
      Genet; lwIP is the interface [Stack].  A poll drains the ring in order,
      losing a frame only where lwIP has no pbuf for it.
    - SysArch, SysArchProps: sys_arch.c over Queue; mailboxes are FIFOs, waits
      end, and where dropped results lose messages or exclusion.
    - PtpRaw, PtpRawProps: ptp_lwip_raw.c, the engine over NetIf and Genet; the
      interface [Udp] is lwIP's.  Messages carry the stamps of their own frames.
    - Sockets: transport_lwip.c and ptp_slave.c over an interface of sockets.
    - MqttPlat, MqttPlatProps: demo/rpi4/mqtt_platform.c; the published documents
      are whole, the LED follows its commands.

    The demonstration (demo/rpi4).
    - NetDemo, NetDemoProps: net_demo.c, the task that owns the stack; its calls
      against an automaton of the order they have to come in.
    - NetDemoOs: net_demo_os.c over Sockets and an interface of coreMQTT; one
      session, no socket left behind.
    - MainDemo, MainDemoSafe, MainDemoProps: main.c; the three tasks of the
      priority-inversion build over Queue and Tasks, safe from the boot state on
      under every interleaving with the timer, who runs while the highest task
      waits, and the console of the first 2.3 seconds.

    ** Bounds

    The theorems hold for all inputs of the C types unless a hypothesis says
    otherwise.  The hypotheses on ranges are: the PTP clock's anchor within 142
    years of its epoch and samples within 2^32 s of it; path-delay exchanges
    with times below 2^62 ns; timeouts below 2^31 ms for the transport, whose
    waiting loops take at most timeout + 1 rounds on a clock that advances by a
    millisecond over a pump that gives the CPU away; formatted texts below 2^31
    characters.
    The loops of the drivers carry their own bounds as fuel (262144 polls of a
    UART, 100000 of the MDIO interface) or one more than the descriptors that are
    complete, of which the ring has 256.  Table walks are modelled for the 4 KB
    granule and one level through TTBR0, which is what the board configures;
    any other walk is an outcome of its own.

    ** Not modelled

    Assembly (start-up, vectors, register save and restore) and the host tests
    are not modelled; neither are third-party sources but for two functions of
    pbuf.c.  The network task of net_demo.c is modelled by its calls; what the
    stack does inside a call is the answer of an arbitrary world.
    Two calls of the allocator that overlap in time, which its lack of a critical
    section allows, and frames that arrive while a call of the Ethernet driver
    runs are not modelled.  Skeleton kernel files (timers.c, event_groups.c, stream_buffer.c,
    croutine.c, heap_2.c, heap_5.c) contain no operations.  Timing of instructions, cache and memory-barrier
    effects are outside the model. *)

From Stdlib Require Export ZArith Lia.
From stdpp Require Export prelude gmap strings.

#[global] Open Scope Z_scope.

(** ** Machine integers

    A C integer of width [w] is a [Z].  Unsigned operations reduce modulo
    [2^w]; a conversion to a signed type takes the two's-complement
    representative. *)

Definition wrapu (w x : Z) : Z := x mod 2 ^ w.
Definition wraps (w x : Z) : Z := (x + 2 ^ (w - 1)) mod 2 ^ w - 2 ^ (w - 1).

Abbreviation u8 := (wrapu 8).
Abbreviation u16 := (wrapu 16).
Abbreviation u32 := (wrapu 32).
Abbreviation u64 := (wrapu 64).
Abbreviation i8 := (wraps 8).
Abbreviation i16 := (wraps 16).
Abbreviation i32 := (wraps 32).
Abbreviation i64 := (wraps 64).

(** The C complement [~x] at width [w]. *)
Definition notu (w x : Z) : Z := wrapu w (Z.lnot x).

Definition in_u (w x : Z) : Prop := 0 <= x < 2 ^ w.
Definition in_s (w x : Z) : Prop := - 2 ^ (w - 1) <= x < 2 ^ (w - 1).

Lemma wrapu_range w x : 0 <= w -> in_u w (wrapu w x).
Proof. intros. apply Z.mod_pos_bound. lia. Qed.

Lemma wrapu_small w x : in_u w x -> wrapu w x = x.
Proof. apply Z.mod_small. Qed.

Lemma wrapu_wrapu w x : 0 <= w -> wrapu w (wrapu w x) = wrapu w x.
Proof. intros. apply wrapu_small, wrapu_range. done. Qed.

Lemma wraps_range w x : 0 < w -> in_s w (wraps w x).
Proof.
  intros. unfold in_s, wraps.
  pose proof (Z.mod_pos_bound (x + 2 ^ (w - 1)) (2 ^ w) ltac:(lia)).
  replace (2 ^ w) with (2 * 2 ^ (w - 1)) in *; [lia|].
  rewrite <- Z.pow_succ_r by lia. f_equal. lia.
Qed.

Lemma wraps_small w x : 0 < w -> in_s w x -> wraps w x = x.
Proof.
  unfold in_s, wraps. intros Hw Hx. rewrite Z.mod_small; [lia|].
  replace (2 ^ w) with (2 * 2 ^ (w - 1)); [lia|].
  rewrite <- Z.pow_succ_r by lia. f_equal. lia.
Qed.

Lemma wrapu_wraps w x : 0 < w -> wrapu w (wraps w x) = wrapu w x.
Proof.
  intros Hw. unfold wrapu, wraps. rewrite Zminus_mod_idemp_l. f_equal. lia.
Qed.

Lemma testbit_wrapu w x i :
  0 <= w -> 0 <= i -> Z.testbit (wrapu w x) i = (i <? w) && Z.testbit x i.
Proof.
  intros. unfold wrapu. destruct (Z.ltb_spec i w).
  - by rewrite Z.mod_pow2_bits_low.
  - by rewrite Z.mod_pow2_bits_high.
Qed.

Lemma testbit_notu w x i :
  0 <= w -> 0 <= i -> Z.testbit (notu w x) i = (i <? w) && negb (Z.testbit x i).
Proof. intros. unfold notu. by rewrite testbit_wrapu, Z.lnot_spec by lia. Qed.

Lemma testbit_high w x i : in_u w x -> 0 <= w <= i -> Z.testbit x i = false.
Proof.
  intros Hx ?. rewrite <- (wrapu_small w x Hx). unfold wrapu.
  apply Z.mod_pow2_bits_high. lia.
Qed.

(** Range of the bitwise operations on unsigned words. *)
Lemma in_u_testbit w x :
  0 <= w -> 0 <= x -> (forall i, w <= i -> Z.testbit x i = false) -> in_u w x.
Proof.
  intros Hw Hx Hb. destruct (decide (x = 0)) as [->|]; [split; [lia|]; apply Z.pow_pos_nonneg; lia|].
  split; [done|]. apply Z.log2_lt_pow2; [lia|].
  destruct (Z.lt_ge_cases (Z.log2 x) w) as [|Hge]; [done|].
  specialize (Hb _ Hge). rewrite Z.bit_log2 in Hb by lia. done.
Qed.

Lemma in_u_lor w x y : 0 <= w -> in_u w x -> in_u w y -> in_u w (Z.lor x y).
Proof.
  intros Hw Hx Hy. apply in_u_testbit; [done|apply Z.lor_nonneg; unfold in_u in *; lia|].
  intros i Hi. rewrite Z.lor_spec, (testbit_high w x), (testbit_high w y) by (done || lia). done.
Qed.

Lemma in_u_land_l w x y : 0 <= w -> in_u w x -> in_u w (Z.land x y).
Proof.
  intros Hw Hx. apply in_u_testbit; [done|apply Z.land_nonneg; unfold in_u in *; lia|].
  intros i Hi. rewrite Z.land_spec, (testbit_high w x) by (done || lia). done.
Qed.

(** [1 << b] on a [w]-bit word. *)
Definition bitu (w b : Z) : Z := wrapu w (Z.shiftl 1 b).

Lemma testbit_bitu w b i :
  0 <= b < w -> 0 <= i -> Z.testbit (bitu w b) i = bool_decide (i = b).
Proof.
  intros. unfold bitu. rewrite testbit_wrapu, Z.shiftl_spec by lia.
  case_bool_decide; subst.
  - rewrite Z.sub_diag. destruct (Z.ltb_spec b w); [done|lia].
  - destruct (Z.ltb_spec i b).
    + rewrite Z.testbit_neg_r by lia. by rewrite andb_false_r.
    + rewrite (testbit_high 1 1) by (unfold in_u; lia). by rewrite andb_false_r.
Qed.

(** Disjoint bit fields add up. *)
Lemma lor_shiftl_add a b k : 0 <= k -> in_u k a -> Z.lor a (Z.shiftl b k) = a + b * 2 ^ k.
Proof.
  intros Hk Ha. rewrite <- (Z.shiftl_mul_pow2 b k) by done.
  rewrite <- Z.add_lor_land.
  assert (Z.land a (Z.shiftl b k) = 0) as ->; [|lia].
  apply Z.bits_inj'. intros i Hi. rewrite Z.land_spec, Z.testbit_0_l, Z.shiftl_spec by done.
  destruct (Z.lt_ge_cases i k).
  - rewrite (Z.testbit_neg_r b) by lia. apply andb_false_r.
  - by rewrite (testbit_high k a) by (done || lia).
Qed.

Lemma land_mask k x m : 0 <= k -> m = 2 ^ k - 1 -> Z.land x m = x mod 2 ^ k.
Proof. intros ? ->. by rewrite <- Z.land_ones, Z.ones_equiv by done. Qed.

Create HintDb words.
#[export] Hint Resolve wrapu_range wraps_range in_u_lor in_u_land_l : words.
#[export] Hint Extern 1 (_ <= _) => lia : words.
#[export] Hint Extern 1 (_ < _) => lia : words.

(** Reduces a bit-level identity to its bits. *)
Ltac bitwise i Hi :=
  apply Z.bits_inj'; intros i Hi;
  repeat first
    [ rewrite Z.lor_spec | rewrite Z.land_spec | rewrite Z.lxor_spec
    | rewrite Z.shiftr_spec by lia | rewrite Z.shiftl_spec by lia
    | rewrite testbit_wrapu by lia | rewrite testbit_notu by lia
    | rewrite testbit_bitu by lia ].

(** ** A state monad with failure

    Imperative code over a state [S].  [None] is a behaviour the C standard
    leaves undefined (a null or dangling dereference) or an exhausted loop
    bound; the total-correctness judgement [wp] below excludes both. *)

Definition M (S A : Type) : Type := S -> option (A * S).

#[global] Instance M_ret S : MRet (M S) := fun A a s => Some (a, s).
#[global] Instance M_bind S : MBind (M S) := fun A B f c s =>
  match c s with Some (a, s') => f a s' | None => None end.

Definition gets {S A} (f : S -> A) : M S A := fun s => Some (f s, s).
Definition modify {S} (f : S -> S) : M S unit := fun s => Some (tt, f s).
Definition fails {S A} : M S A := fun _ => None.
Definition get_opt {S A} (f : S -> option A) : M S A := fun s => (fun a => (a, s)) <$> f s.
Definition of_opt {S A} (o : option A) : M S A := get_opt (fun _ => o).

(** Runs a computation on a component of a larger state. *)
Definition zoom {S T A} (get : S -> T) (put : T -> S -> S) (c : M T A) : M S A := fun s =>
  match c (get s) with Some (a, t) => Some (a, put t s) | None => None end.

(** [wp c Q s]: started in [s], [c] terminates without undefined behaviour
    and its result and final state satisfy [Q]. *)
Definition wp {S A} (c : M S A) (Q : A -> S -> Prop) (s : S) : Prop :=
  exists a s', c s = Some (a, s') /\ Q a s'.

Section wp.
Context {S : Type}.
Implicit Types s : S.

Lemma wp_ret {A} (a : A) Q s : Q a s -> wp (mret a) Q s.
Proof. intros. eexists _, _. split; [reflexivity|done]. Qed.

Lemma wp_bind {A B} (c : M S A) (k : A -> M S B) Q s :
  wp c (fun a => wp (k a) Q) s -> wp (c ≫= k) Q s.
Proof.
  intros (a & s' & Hc & b & s'' & Hk & HQ). exists b, s''.
  split; [|done]. unfold mbind, M_bind. by rewrite Hc.
Qed.

Lemma wp_mono {A} (c : M S A) (P Q : A -> S -> Prop) s :
  wp c P s -> (forall a s', P a s' -> Q a s') -> wp c Q s.
Proof. intros (a & s' & ? & ?) HPQ. exists a, s'. auto. Qed.

Lemma wp_gets {A} (f : S -> A) Q s : Q (f s) s -> wp (gets f) Q s.
Proof. intros. by eexists _, _. Qed.

Lemma wp_modify (f : S -> S) Q s : Q tt (f s) -> wp (modify f) Q s.
Proof. intros. by eexists _, _. Qed.

Lemma wp_get_opt {A} (f : S -> option A) (Q : A -> S -> Prop) s a :
  f s = Some a -> Q a s -> wp (get_opt f) Q s.
Proof. intros Hf ?. exists a, s. unfold get_opt. by rewrite Hf. Qed.

Lemma wp_of_opt {A} (a : A) Q s : Q a s -> wp (of_opt (Some a)) Q s.
Proof. by apply wp_get_opt. Qed.

Lemma wp_zoom {T A} (get : S -> T) (put : T -> S -> S) (c : M T A) (Q : A -> S -> Prop) s :
  wp c (fun a t => Q a (put t s)) (get s) -> wp (zoom get put c) Q s.
Proof. intros (a & t & Hc & HQ). exists a, (put t s). unfold zoom. by rewrite Hc. Qed.

Lemma wp_inv {A} (c : M S A) Q s a s' : wp c Q s -> c s = Some (a, s') -> Q a s'.
Proof. intros (? & ? & ? & ?) ?. by simplify_eq. Qed.
End wp.

(** Sequencing over a known first step. *)
Lemma bind_eq {S A B} (c : M S A) (k : A -> M S B) s a s' :
  c s = Some (a, s') -> (c ≫= k) s = k a s'.
Proof. intros H. unfold mbind, M_bind. by rewrite H. Qed.

(** One symbolic-execution step on a [wp] goal. *)
Ltac wp_step :=
  lazymatch goal with
  | |- wp (mbind _ _) _ _ => apply wp_bind
  | |- wp (mret _) _ _ => apply wp_ret
  | |- wp (gets _) _ _ => apply wp_gets
  | |- wp (modify _) _ _ => apply wp_modify
  | |- wp (of_opt (Some _)) _ _ => apply wp_of_opt
  | |- wp (get_opt _) _ _ => eapply wp_get_opt; [eassumption|]
  | |- wp (zoom _ _ _) _ _ => apply wp_zoom
  end.
Ltac wp_steps := repeat (wp_step; cbn beta).
