(* ===== verification/Config.v ===== *)
(** * Build constants and status codes

    src/include/flint/{config,status}.h (security-layer primitives),
    src/include/FlintRTOS/projdefs.h (kernel return codes),
    src/portable/LLVM_AArch64/portmacro.h (port types: 64-bit
    [BaseType_t], [UBaseType_t] and [StackType_t], 32-bit [TickType_t]) and
    src/demo/rpi4/FlintRTOSConfig.h (the firmware configuration). *)

From S2P Require Import Prelude.

(** ** config.h *)
Definition FLINT_CFG_MR_MAX : Z := 64.
Definition FLINT_CFG_MSG_MAX_CAPS : Z := 4.
Definition FLINT_CFG_CNODE_SLOTS : Z := 64.

(** ** status.h *)
Inductive flint_status_t :=
  | FLINT_OK
  | FLINT_ERR_CAP_INVALID
  | FLINT_ERR_CAP_TYPE
  | FLINT_ERR_CAP_RIGHTS
  | FLINT_ERR_MSG_TOO_LONG
  | FLINT_ERR_WOULD_BLOCK
  | FLINT_ERR_NO_MEMORY
  | FLINT_ERR_RANGE
  | FLINT_ERR_STATE
  | FLINT_ERR_EXISTS
  | FLINT_ERR_EMPTY.

#[global] Instance flint_status_eq_dec : EqDecision flint_status_t.
Proof. solve_decision. Defined.

(** ** projdefs.h *)
Definition pdFALSE : Z := 0.
Definition pdTRUE : Z := 1.
Definition pdPASS : Z := pdTRUE.
Definition pdFAIL : Z := pdFALSE.
Definition errQUEUE_EMPTY : Z := 0.
Definition errQUEUE_FULL : Z := 0.
Definition errCOULD_NOT_ALLOCATE_REQUIRED_MEMORY : Z := -1.

(** ** portmacro.h *)
Definition portMAX_DELAY : Z := 0xFFFFFFFF.
Definition portBYTE_ALIGNMENT : Z := 16.
Definition portBYTE_ALIGNMENT_MASK : Z := 0x0F.

(** ** FlintRTOSConfig.h *)
Definition configMAX_PRIORITIES : Z := 32.
Definition configMINIMAL_STACK_SIZE : Z := 1024.
Definition configMAX_TASK_NAME_LEN : Z := 16.
Definition configTICK_RATE_HZ : Z := 1000.
Definition configTOTAL_HEAP_SIZE : Z := 1024 * 1024.
