(* ===== verification/PrioBitmap.v ===== *)
(** * The two-level priority bitmap (src/kernel/prio_bitmap.c)

    [flint_prio_bitmap_t] keeps one bit per priority level in eight 32-bit
    words and a summary word with one bit per non-zero level-1 word.  The
    model keeps both as unsigned 32-bit words and indexes the array the way C
    does: an index outside the array is undefined ([None]).

    The specification is a finite set of priorities, [bm_rep bm X]; the
    theorems show that every operation refines the set operation it stands
    for and that [flint_prio_bitmap_highest] returns the maximum. *)

From S2P Require Import Prelude.

Definition FLINT_WORD_BITS : Z := 32.
Definition FLINT_CFG_PRIO_COUNT : Z := 256.
Definition FLINT_PRIO_WORDS : Z := FLINT_CFG_PRIO_COUNT / FLINT_WORD_BITS.

Record flint_prio_bitmap_t := Bitmap { summary : Z; level1 : list Z }.

(** Binary search for the highest set bit; [pos] is a [uint8_t]. *)
Definition word_highest_bit (w : Z) : Z :=
  let pos := 0 in
  let '(pos, w) := if negb (Z.land w 0xFFFF0000 =? 0) then (u8 (pos + 16), Z.shiftr w 16) else (pos, w) in
  let '(pos, w) := if negb (Z.land w 0x0000FF00 =? 0) then (u8 (pos + 8), Z.shiftr w 8) else (pos, w) in
  let '(pos, w) := if negb (Z.land w 0x000000F0 =? 0) then (u8 (pos + 4), Z.shiftr w 4) else (pos, w) in
  let '(pos, w) := if negb (Z.land w 0x0000000C =? 0) then (u8 (pos + 2), Z.shiftr w 2) else (pos, w) in
  let pos := if negb (Z.land w 0x00000002 =? 0) then u8 (pos + 1) else pos in
  pos.

Definition flint_prio_bitmap_init : flint_prio_bitmap_t :=
  Bitmap 0 (replicate (Z.to_nat FLINT_PRIO_WORDS) 0).

Definition flint_prio_bitmap_set (bm : flint_prio_bitmap_t) (prio : Z) : option flint_prio_bitmap_t :=
  let word := prio / FLINT_WORD_BITS in
  let bit := prio mod FLINT_WORD_BITS in
  w ← level1 bm !! Z.to_nat word;
  Some (Bitmap (Z.lor (summary bm) (bitu 32 word))
               (<[Z.to_nat word := Z.lor w (bitu 32 bit)]> (level1 bm))).

Definition flint_prio_bitmap_clear (bm : flint_prio_bitmap_t) (prio : Z) : option flint_prio_bitmap_t :=
  let word := prio / FLINT_WORD_BITS in
  let bit := prio mod FLINT_WORD_BITS in
  w ← level1 bm !! Z.to_nat word;
  let w' := Z.land w (notu 32 (bitu 32 bit)) in
  let l1 := <[Z.to_nat word := w']> (level1 bm) in
  if w' =? 0 then Some (Bitmap (Z.land (summary bm) (notu 32 (bitu 32 word))) l1)
  else Some (Bitmap (summary bm) l1).

Definition flint_prio_bitmap_empty (bm : flint_prio_bitmap_t) : bool := summary bm =? 0.

Definition flint_prio_bitmap_highest (bm : flint_prio_bitmap_t) : option Z :=
  let top_word := word_highest_bit (summary bm) in
  w ← level1 bm !! Z.to_nat top_word;
  let top_bit := word_highest_bit w in
  Some (u16 (u32 (top_word * FLINT_WORD_BITS + top_bit))).

(** ** [word_highest_bit] is the integer logarithm *)

(** The mask test of one search step decides [w >= 2^k]. *)
Lemma high_half_test k w :
  0 <= k -> in_u (2 * k) w ->
  (Z.land w (Z.shiftl (Z.ones k) k) =? 0) = (w <? 2 ^ k).
Proof.
  intros Hk Hw.
  assert (Z.land w (Z.shiftl (Z.ones k) k) = Z.shiftl (Z.shiftr w k) k) as ->.
  { bitwise i Hi. destruct (Z.ltb_spec i k).
    - rewrite !(Z.testbit_neg_r _ (i - k)) by lia. by rewrite andb_false_r.
    - rewrite Z.shiftr_spec by lia. replace (i - k + k) with i by lia.
      destruct (Z.lt_ge_cases i (2 * k)).
      + rewrite Z.ones_spec_low by lia. by rewrite andb_true_r.
      + by rewrite (testbit_high (2 * k) w i) by (done || lia). }
  rewrite Z.shiftl_mul_pow2, Z.shiftr_div_pow2 by lia. unfold in_u in Hw.
  assert (0 < 2 ^ k) by (apply Z.pow_pos_nonneg; lia).
  destruct (Z.ltb_spec w (2 ^ k)).
  - by rewrite Z.div_small by lia.
  - apply Z.eqb_neq. assert (1 <= w / 2 ^ k); [|nia].
    apply Z.div_le_lower_bound; lia.
Qed.

Lemma log2_shiftr k w : 0 <= k -> 2 ^ k <= w -> Z.log2 w = k + Z.log2 (Z.shiftr w k).
Proof.
  intros. rewrite Z.log2_shiftr by lia.
  assert (k <= Z.log2 w) by (apply Z.log2_le_pow2; lia). lia.
Qed.

(** One step keeps [pos + log2 w] and halves the range of [w]. *)
Lemma highest_step k pos w :
  0 <= k <= 16 -> 0 <= pos -> pos + k < 256 -> 0 < w -> in_u (2 * k) w ->
  exists pos' w',
    (if negb (Z.land w (Z.shiftl (Z.ones k) k) =? 0) then (u8 (pos + k), Z.shiftr w k) else (pos, w))
      = (pos', w') /\
    pos <= pos' <= pos + k /\ 0 < w' /\ in_u k w' /\ pos' + Z.log2 w' = pos + Z.log2 w.
Proof.
  intros Hk Hp Hp' Hw Hr. rewrite high_half_test by (done || lia).
  assert (0 < 2 ^ k) by (apply Z.pow_pos_nonneg; lia).
  destruct (Z.ltb_spec w (2 ^ k)) as [Hlt|Hge]; simpl.
  - eexists _, _. repeat split; try done; lia.
  - eexists _, _. split; [done|]. rewrite wrapu_small by (unfold in_u; lia).
    rewrite (log2_shiftr k w) by lia. rewrite Z.shiftr_div_pow2 by lia.
    unfold in_u in *. replace (2 * k) with (k + k) in Hr by lia. rewrite Z.pow_add_r in Hr by lia.
    repeat split; try lia.
    + assert (1 <= w / 2 ^ k) by (apply Z.div_le_lower_bound; lia). lia.
    + apply Z.div_pos; lia.
    + apply Z.div_lt_upper_bound; lia.
Qed.

Lemma word_highest_bit_log2 w : 0 < w < 2 ^ 32 -> word_highest_bit w = Z.log2 w.
Proof.
  intros Hw. unfold word_highest_bit.
  destruct (highest_step 16 0 w) as (p1 & w1 & E1 & ? & ? & R1 & L1);
    [lia..|unfold in_u; lia|].
  change (Z.shiftl (Z.ones 16) 16) with 0xFFFF0000 in E1. rewrite E1. clear E1.
  destruct (highest_step 8 p1 w1) as (p2 & w2 & E2 & ? & ? & R2 & L2); [lia..|done|].
  change (Z.shiftl (Z.ones 8) 8) with 0x0000FF00 in E2. rewrite E2. clear E2.
  destruct (highest_step 4 p2 w2) as (p3 & w3 & E3 & ? & ? & R3 & L3); [lia..|done|].
  change (Z.shiftl (Z.ones 4) 4) with 0x000000F0 in E3. rewrite E3. clear E3.
  destruct (highest_step 2 p3 w3) as (p4 & w4 & E4 & ? & ? & R4 & L4); [lia..|done|].
  change (Z.shiftl (Z.ones 2) 2) with 0x0000000C in E4. rewrite E4. clear E4.
  assert (w4 = 1 \/ w4 = 2 \/ w4 = 3) as [->| [->| ->] ] by (unfold in_u in R4; lia); simpl;
    rewrite ?wrapu_small by (unfold in_u; lia); simpl in L4; lia.
Qed.

(** ** Refinement of a set of priorities *)

(** [bm] represents the set [X]: level-1 bits are membership, the summary
    marks the non-zero words. *)
Record bm_rep (bm : flint_prio_bitmap_t) (X : gset Z) : Prop := {
  rep_len : length (level1 bm) = Z.to_nat FLINT_PRIO_WORDS;
  rep_range : Forall (in_u 32) (level1 bm);
  rep_sum_range : in_u 32 (summary bm);
  rep_bit i w b : level1 bm !! i = Some w -> 0 <= b < 32 ->
    Z.testbit w b = bool_decide (Z.of_nat i * 32 + b ∈ X);
  rep_sum b : 0 <= b ->
    Z.testbit (summary bm) b = true <-> exists w, level1 bm !! Z.to_nat b = Some w /\ w <> 0;
  rep_dom p : p ∈ X -> 0 <= p < FLINT_CFG_PRIO_COUNT
}.

(** Word and bit of a priority, and back. *)
Lemma prio_split p :
  0 <= p < FLINT_CFG_PRIO_COUNT ->
  (Z.to_nat (p / 32) < 8)%nat /\ 0 <= p / 32 < 8 /\ 0 <= p mod 32 < 32 /\
  p = Z.of_nat (Z.to_nat (p / 32)) * 32 + p mod 32.
Proof.
  unfold FLINT_CFG_PRIO_COUNT. intros.
  pose proof (Z.div_mod p 32 ltac:(lia)). pose proof (Z.mod_pos_bound p 32 ltac:(lia)). lia.
Qed.

Lemma word_of_prio i b (j : nat) c :
  0 <= b < 32 -> 0 <= c < 32 ->
  Z.of_nat i * 32 + b = Z.of_nat j * 32 + c -> i = j /\ b = c.
Proof. lia. Qed.

Lemma rep_lookup bm X p :
  bm_rep bm X -> 0 <= p < FLINT_CFG_PRIO_COUNT ->
  exists w, level1 bm !! Z.to_nat (p / 32) = Some w /\ in_u 32 w.
Proof.
  intros Hr Hp. destruct (prio_split p Hp) as (Hi & _).
  destruct (lookup_lt_is_Some_2 (level1 bm) (Z.to_nat (p / 32))) as [w Hw].
  { rewrite (rep_len _ _ Hr). exact Hi. }
  exists w. split; [done|]. eapply Forall_lookup_1; [apply Hr|done].
Qed.

Lemma nonzero_bit w : in_u 32 w -> w <> 0 -> exists b, 0 <= b < 32 /\ Z.testbit w b = true.
Proof.
  intros Hw Hz. exists (Z.log2 w). unfold in_u in Hw. split.
  - split; [apply Z.log2_nonneg|]. apply Z.log2_lt_pow2; lia.
  - apply Z.bit_log2. lia.
Qed.

Lemma bit_nonzero w b : 0 <= b -> Z.testbit w b = true -> w <> 0.
Proof. intros ? H ->. by rewrite Z.testbit_0_l in H. Qed.

Lemma init_rep : bm_rep flint_prio_bitmap_init ∅.
Proof.
  unfold flint_prio_bitmap_init. split; cbn [summary level1].
  - done.
  - repeat constructor; unfold in_u; lia.
  - unfold in_u; lia.
  - intros i w b Hi _. apply lookup_replicate in Hi as [-> _].
    rewrite Z.testbit_0_l. symmetry. apply bool_decide_eq_false. set_solver.
  - intros b ?. rewrite Z.testbit_0_l. split; [done|]. intros (w & Hw & Hn).
    apply lookup_replicate in Hw as [-> _]. done.
  - set_solver.
Qed.

Lemma set_rep bm X p :
  bm_rep bm X -> 0 <= p < FLINT_CFG_PRIO_COUNT ->
  exists bm', flint_prio_bitmap_set bm p = Some bm' /\ bm_rep bm' ({[p]} ∪ X).
Proof.
  intros Hr Hp. destruct (rep_lookup _ _ _ Hr Hp) as (w & Hw & Hwr).
  destruct (prio_split p Hp) as (Hi & Hwd & Hb & Hpe).
  unfold flint_prio_bitmap_set. unfold FLINT_WORD_BITS. rewrite Hw. simpl.
  eexists. split; [done|].
  assert (Hbit : in_u 32 (bitu 32 (p mod 32))) by (unfold bitu; auto with words).
  assert (Hsbit : in_u 32 (bitu 32 (p / 32))) by (unfold bitu; auto with words).
  assert (Hlt : (Z.to_nat (p / 32) < length (level1 bm))%nat) by (rewrite (rep_len _ _ Hr); exact Hi).
  split; simpl.
  - rewrite length_insert. apply Hr.
  - apply Forall_insert; [apply Hr|]. auto with words.
  - apply in_u_lor; [lia|apply Hr|done].
  - intros i v b Hv Hbr. destruct (decide (i = Z.to_nat (p / 32))) as [->|Hne].
    + rewrite list_lookup_insert_eq in Hv by done. simplify_eq.
      rewrite Z.lor_spec, testbit_bitu by lia.
      rewrite (rep_bit _ _ Hr _ _ _ Hw Hbr). apply Bool.eq_iff_eq_true.
      rewrite orb_true_iff, !bool_decide_eq_true, elem_of_union, elem_of_singleton. split.
      * intros [|]; [by right|left]. lia.
      * intros [Heq|]; [right|by left]. rewrite Hpe in Heq at 2. by apply word_of_prio in Heq as [_ ?].
    + rewrite list_lookup_insert_ne in Hv by done.
      rewrite (rep_bit _ _ Hr _ _ _ Hv Hbr). apply bool_decide_ext.
      rewrite elem_of_union, elem_of_singleton. split; [by right|]. intros [Heq|]; [|done].
      rewrite Hpe in Heq. apply word_of_prio in Heq as [? _]; [done|lia..].
  - intros b Hb0. rewrite Z.lor_spec, orb_true_iff, (rep_sum _ _ Hr b Hb0), testbit_bitu, bool_decide_eq_true by lia.
    destruct (decide (b = p / 32)) as [->|Hne].
    + split; [intros _|by right]. eexists. rewrite list_lookup_insert_eq by done. split; [done|].
      apply (bit_nonzero _ (p mod 32)); [lia|].
      rewrite Z.lor_spec, testbit_bitu by lia. rewrite bool_decide_true by done. by rewrite orb_true_r.
    + rewrite list_lookup_insert_ne by lia. split; [by intros [?|?]|by left].
  - intros q [->%elem_of_singleton|Hq]%elem_of_union; [done|]. by apply Hr.
Qed.

Lemma clear_rep bm X p :
  bm_rep bm X -> 0 <= p < FLINT_CFG_PRIO_COUNT ->
  exists bm', flint_prio_bitmap_clear bm p = Some bm' /\ bm_rep bm' (X ∖ {[p]}).
Proof.
  intros Hr Hp. destruct (rep_lookup _ _ _ Hr Hp) as (w & Hw & Hwr).
  destruct (prio_split p Hp) as (Hi & Hwd & Hb & Hpe).
  assert (Hlt : (Z.to_nat (p / 32) < length (level1 bm))%nat) by (rewrite (rep_len _ _ Hr); exact Hi).
  set (w' := Z.land w (notu 32 (bitu 32 (p mod 32)))).
  set (l1 := <[Z.to_nat (p / 32) := w']> (level1 bm)).
  set (sum' := if w' =? 0 then Z.land (summary bm) (notu 32 (bitu 32 (p / 32))) else summary bm).
  exists (Bitmap sum' l1). split.
  { unfold flint_prio_bitmap_clear, FLINT_WORD_BITS. rewrite Hw. simpl. fold w' l1.
    unfold sum'. by destruct (w' =? 0). }
  assert (Hw'r : in_u 32 w') by (unfold w'; auto with words).
  split; cbn [summary level1].
  - unfold l1. rewrite length_insert. apply Hr.
  - apply Forall_insert; [apply Hr|done].
  - unfold sum'. destruct (w' =? 0); [apply in_u_land_l; [lia|apply Hr]|apply Hr].
  - intros i v b Hv Hbr. unfold l1 in Hv. destruct (decide (i = Z.to_nat (p / 32))) as [->|Hne].
    + rewrite list_lookup_insert_eq in Hv by done. injection Hv as <-. unfold w'.
      rewrite Z.land_spec, testbit_notu, testbit_bitu, (rep_bit _ _ Hr _ _ _ Hw Hbr) by lia.
      destruct (Z.ltb_spec b 32); [simpl|lia]. apply Bool.eq_iff_eq_true.
      rewrite andb_true_iff, negb_true_iff, bool_decide_eq_false, !bool_decide_eq_true,
        elem_of_difference, elem_of_singleton.
      split; intros [? Hn]; (split; [done|]); contradict Hn; [|lia].
      rewrite Hpe in Hn at 2. by apply word_of_prio in Hn as [_ ?].
    + rewrite list_lookup_insert_ne in Hv by done.
      rewrite (rep_bit _ _ Hr _ _ _ Hv Hbr). apply bool_decide_ext.
      rewrite elem_of_difference, elem_of_singleton. split; [|by intros [? _] ].
      intros HX. split; [done|]. intros Heq. rewrite Hpe in Heq.
      apply word_of_prio in Heq as [? _]; [done|lia..].
  - intros b Hb0. unfold l1, sum'. destruct (Z.eqb_spec w' 0) as [Hz|Hnz].
    + rewrite Z.land_spec, testbit_notu, testbit_bitu, !andb_true_iff, (rep_sum _ _ Hr b Hb0) by lia.
      destruct (decide (b = p / 32)) as [->|Hne].
      * rewrite bool_decide_true by done. rewrite list_lookup_insert_eq by done.
        split; [by intros (_ & _ & ?)|]. by intros (? & [= <-] & ?).
      * rewrite bool_decide_false by done. rewrite list_lookup_insert_ne by lia.
        split; [by intros [? _] |]. intros (v & Hv & Hn). split; [by eauto|]. split; [|done].
        apply Z.ltb_lt. apply lookup_lt_Some in Hv. rewrite (rep_len _ _ Hr) in Hv.
        change (Z.to_nat FLINT_PRIO_WORDS) with 8%nat in Hv. lia.
    + rewrite (rep_sum _ _ Hr b Hb0). destruct (decide (b = p / 32)) as [->|Hne].
      * rewrite list_lookup_insert_eq by done. split; intros _; [by eauto|].
        exists w. split; [done|]. intros ->. apply Hnz. apply Z.land_0_l.
      * by rewrite list_lookup_insert_ne by lia.
  - intros q [Hq _]%elem_of_difference. by apply Hr.
Qed.

Lemma empty_rep bm X : bm_rep bm X -> flint_prio_bitmap_empty bm = true <-> X = ∅.
Proof.
  intros Hr. unfold flint_prio_bitmap_empty. rewrite Z.eqb_eq. split.
  - intros Hs. apply set_eq. intros p. split; [|set_solver]. intros HX. exfalso.
    pose proof (rep_dom _ _ Hr p HX) as Hp.
    destruct (rep_lookup _ _ _ Hr Hp) as (w & Hw & Hwr). destruct (prio_split p Hp) as (Hi & Hwd & Hb & Hpe).
    assert (Z.testbit (summary bm) (p / 32) = true) as Ht.
    { apply (rep_sum _ _ Hr); [lia|]. exists w. split; [done|]. apply (bit_nonzero _ (p mod 32)); [lia|].
      rewrite (rep_bit _ _ Hr _ _ _ Hw) by lia. apply bool_decide_eq_true. by rewrite <- Hpe. }
    by rewrite Hs, Z.testbit_0_l in Ht.
  - intros ->. destruct (decide (summary bm = 0)) as [|Hn]; [done|exfalso].
    destruct (nonzero_bit _ (rep_sum_range _ _ Hr) Hn) as (b & Hb & Ht).
    apply (rep_sum _ _ Hr) in Ht as (w & Hw & Hwn); [|lia].
    destruct (nonzero_bit w) as (c & Hc & Htc); [by eapply Forall_lookup_1; [apply Hr|]|done|].
    rewrite (rep_bit _ _ Hr _ _ _ Hw Hc), bool_decide_eq_true in Htc. set_solver.
Qed.

(** The highest priority is the maximum of the set. *)
Lemma highest_rep bm X :
  bm_rep bm X -> X <> ∅ ->
  exists p, flint_prio_bitmap_highest bm = Some p /\ p ∈ X /\ forall q, q ∈ X -> q <= p.
Proof.
  intros Hr HX.
  assert (Hs0 : summary bm <> 0).
  { intros Hs. apply HX, (empty_rep bm); [done|]. unfold flint_prio_bitmap_empty. by apply Z.eqb_eq. }
  pose proof (rep_sum_range _ _ Hr) as Hsr. unfold in_u in Hsr.
  set (t := Z.log2 (summary bm)). assert (0 <= t) by apply Z.log2_nonneg.
  assert (Z.testbit (summary bm) t = true) as Ht by (apply Z.bit_log2; lia).
  apply (rep_sum _ _ Hr) in Ht as (w & Hw & Hwn); [|done].
  assert (Hwr : in_u 32 w) by (eapply Forall_lookup_1; [apply Hr|done]).
  pose proof (lookup_lt_Some _ _ _ Hw) as Hlt. rewrite (rep_len _ _ Hr) in Hlt.
  change (Z.to_nat FLINT_PRIO_WORDS) with 8%nat in Hlt.
  unfold in_u in Hwr. set (b := Z.log2 w).
  assert (0 <= b < 32) as Hb by (split; [apply Z.log2_nonneg|apply Z.log2_lt_pow2; lia]).
  exists (t * 32 + b). split; [|split].
  - unfold flint_prio_bitmap_highest. rewrite word_highest_bit_log2 by lia. fold t. rewrite Hw. simpl.
    rewrite word_highest_bit_log2 by lia. fold b. unfold FLINT_WORD_BITS.
    by rewrite (wrapu_small 32), (wrapu_small 16) by (unfold in_u; lia).
  - assert (Z.testbit w b = true) as Hbt by (apply Z.bit_log2; lia).
    rewrite (rep_bit _ _ Hr _ _ _ Hw Hb), bool_decide_eq_true in Hbt.
    by rewrite Z2Nat.id in Hbt by lia.
  - intros q Hq. pose proof (rep_dom _ _ Hr q Hq) as Hqd.
    destruct (rep_lookup _ _ _ Hr Hqd) as (v & Hv & Hvr). destruct (prio_split q Hqd) as (Hqi & Hqw & Hqb & Hqe).
    assert (Hvb : Z.testbit v (q mod 32) = true).
    { rewrite (rep_bit _ _ Hr _ _ _ Hv) by lia. apply bool_decide_eq_true. by rewrite <- Hqe. }
    assert (q / 32 <= t).
    { apply Z.log2_le_pow2; [lia|]. apply Z.nlt_ge. intros Hlt'.
      assert (Z.testbit (summary bm) (q / 32) = true) as Hst.
      { apply (rep_sum _ _ Hr); [lia|]. exists v. split; [done|]. by eapply bit_nonzero, Hvb; lia. }
      rewrite (testbit_high (q / 32)) in Hst by (unfold in_u; lia). done. }
    destruct (decide (q / 32 = t)) as [Heq|]; [|lia].
    rewrite Heq in Hv. simplify_eq.
    assert (q mod 32 <= b); [|lia].
    apply Z.log2_le_pow2; [lia|]. apply Z.nlt_ge. intros Hlt'.
    rewrite (testbit_high (q mod 32)) in Hvb by (unfold in_u; lia). done.
Qed.

(** ** Sequences of operations *)

Inductive bm_op := BmSet (p : Z) | BmClear (p : Z).

Definition bm_run1 (bm : flint_prio_bitmap_t) (o : bm_op) : option flint_prio_bitmap_t :=
  match o with
  | BmSet p => flint_prio_bitmap_set bm p
  | BmClear p => flint_prio_bitmap_clear bm p
  end.

Fixpoint bm_run (bm : flint_prio_bitmap_t) (os : list bm_op) : option flint_prio_bitmap_t :=
  match os with
  | [] => Some bm
  | o :: os => bm' ← bm_run1 bm o; bm_run bm' os
  end.

Definition bm_spec1 (X : gset Z) (o : bm_op) : gset Z :=
  match o with BmSet p => {[p]} ∪ X | BmClear p => X ∖ {[p]} end.

Definition bm_op_ok (o : bm_op) : Prop :=
  match o with BmSet p | BmClear p => 0 <= p < FLINT_CFG_PRIO_COUNT end.

Lemma bm_run_rep bm X os :
  bm_rep bm X -> Forall bm_op_ok os ->
  exists bm', bm_run bm os = Some bm' /\ bm_rep bm' (foldl bm_spec1 X os).
Proof.
  intros Hr Hos. revert bm X Hr. induction Hos as [|o os Ho _ IH]; intros bm X Hr; simpl.
  - by exists bm.
  - assert (exists bm', bm_run1 bm o = Some bm' /\ bm_rep bm' (bm_spec1 X o)) as (bm' & E & Hr').
    { destruct o; simpl in *; [by apply set_rep|by apply clear_rep]. }
    rewrite E. simpl. by apply IH.
Qed.

(** C18: Every sequence of set and clear operations on valid priorities, from
    the initialised bitmap, runs without an out-of-range access; the bitmap is
    reported empty exactly when the set of marked priorities is empty, and
    otherwise the highest priority returned is the maximum of that set. *)
Theorem prio_bitmap_selects_maximum (os : list bm_op) :
  Forall bm_op_ok os ->
  exists bm, bm_run flint_prio_bitmap_init os = Some bm /\
    let X := foldl bm_spec1 ∅ os in
    (flint_prio_bitmap_empty bm = true <-> X = ∅) /\
    (X <> ∅ -> exists p, flint_prio_bitmap_highest bm = Some p /\ p ∈ X /\ forall q, q ∈ X -> q <= p).
Proof.
  intros Hos. destruct (bm_run_rep _ _ os init_rep Hos) as (bm & E & Hr).
  exists bm. split; [done|]. split; [by apply empty_rep|by apply highest_rep].
Qed.

Lemma prio_bitmap_selects_maximum_witness :
  exists bm, bm_run flint_prio_bitmap_init [BmSet 3; BmSet 200; BmSet 77; BmClear 200] = Some bm /\
    flint_prio_bitmap_highest bm = Some 77.
Proof.
  destruct (prio_bitmap_selects_maximum [BmSet 3; BmSet 200; BmSet 77; BmClear 200]) as (bm & E & _).
  - repeat constructor; vm_compute; discriminate || reflexivity.
  - exists bm. split; [exact E|]. vm_compute in E. injection E as <-. reflexivity.
Defined.

(** The branch-only binary search returns the integer logarithm (the index
    of the highest set bit) of every non-zero 32-bit word. *)
Theorem word_highest_bit_is_log2 (w : Z) :
  0 < w < 2 ^ 32 -> word_highest_bit w = Z.log2 w.
Proof. apply word_highest_bit_log2. Qed.

Lemma word_highest_bit_is_log2_witness :
  0 < 0x80010000 < 2 ^ 32 /\ word_highest_bit 0x80010000 = 31.
Proof. split; [lia|]. rewrite word_highest_bit_is_log2; [reflexivity|lia]. Defined.
