(* ===== verification/Msgtag.v ===== *)
(** * IPC message tags (src/kernel/msgtag.c)

    [flint_msgtag_pack] validates the four fields and packs them into one
    32-bit word; the accessors extract them.  The output pointer is modelled
    by its pointee: [None] is a null pointer, [Some v] a word holding [v]. *)

From S2P Require Import Prelude Config.

Definition FLINT_MSGTAG_LABEL_MAX : Z := 0xFFFF.
Definition FLINT_MSGTAG_LENGTH_MAX : Z := 0x7F.
Definition FLINT_MSGTAG_NCAPS_MAX : Z := 0x07.
Definition FLINT_MSGTAG_FLAGS_MAX : Z := 0x3F.

Definition FLAGS_SHIFT : Z := 0.
Definition NCAPS_SHIFT : Z := 6.
Definition LENGTH_SHIFT : Z := 9.
Definition LABEL_SHIFT : Z := 16.

Definition flint_msgtag_pack (label length n_caps flags : Z) (out_tag : option Z)
    : flint_status_t * option Z :=
  match out_tag with
  | None => (FLINT_ERR_RANGE, None)
  | Some old =>
      if (length >? u8 FLINT_MSGTAG_LENGTH_MAX) || (u32 length >? FLINT_CFG_MR_MAX)
      then (FLINT_ERR_MSG_TOO_LONG, Some old)
      else if (n_caps >? u8 FLINT_MSGTAG_NCAPS_MAX) || (u32 n_caps >? FLINT_CFG_MSG_MAX_CAPS)
      then (FLINT_ERR_MSG_TOO_LONG, Some old)
      else if flags >? u8 FLINT_MSGTAG_FLAGS_MAX then (FLINT_ERR_RANGE, Some old)
      else
        let tag := 0 in
        let tag := Z.lor tag (u32 (Z.shiftl (Z.land (u32 flags) FLINT_MSGTAG_FLAGS_MAX) FLAGS_SHIFT)) in
        let tag := Z.lor tag (u32 (Z.shiftl (Z.land (u32 n_caps) FLINT_MSGTAG_NCAPS_MAX) NCAPS_SHIFT)) in
        let tag := Z.lor tag (u32 (Z.shiftl (Z.land (u32 length) FLINT_MSGTAG_LENGTH_MAX) LENGTH_SHIFT)) in
        let tag := Z.lor tag (u32 (Z.shiftl (Z.land (u32 label) FLINT_MSGTAG_LABEL_MAX) LABEL_SHIFT)) in
        (FLINT_OK, Some tag)
  end.

Definition flint_msgtag_label (tag : Z) : Z := u16 (Z.land (Z.shiftr tag LABEL_SHIFT) FLINT_MSGTAG_LABEL_MAX).
Definition flint_msgtag_length (tag : Z) : Z := u8 (Z.land (Z.shiftr tag LENGTH_SHIFT) FLINT_MSGTAG_LENGTH_MAX).
Definition flint_msgtag_ncaps (tag : Z) : Z := u8 (Z.land (Z.shiftr tag NCAPS_SHIFT) FLINT_MSGTAG_NCAPS_MAX).
Definition flint_msgtag_flags (tag : Z) : Z := u8 (Z.land (Z.shiftr tag FLAGS_SHIFT) FLINT_MSGTAG_FLAGS_MAX).

(** The tag as the mixed-radix number its layout describes. *)
Definition tag_of (label length n_caps flags : Z) : Z :=
  flags + n_caps * 2 ^ 6 + length * 2 ^ 9 + label * 2 ^ 16.

(** What the code accepts. *)
Definition fields_ok (length n_caps flags : Z) : Prop := length <= 64 /\ n_caps <= 4 /\ flags <= 63.

Section arguments.
(** The C types of the arguments. *)
Context (label length n_caps flags : Z).
Hypothesis (Hlabel : in_u 16 label) (Hlength : in_u 8 length)
  (Hncaps : in_u 8 n_caps) (Hflags : in_u 8 flags).

Lemma pack_cases old :
  flint_msgtag_pack label length n_caps flags (Some old) =
    if decide (64 < length) then (FLINT_ERR_MSG_TOO_LONG, Some old)
    else if decide (4 < n_caps) then (FLINT_ERR_MSG_TOO_LONG, Some old)
    else if decide (63 < flags) then (FLINT_ERR_RANGE, Some old)
    else (FLINT_OK, Some (tag_of label length n_caps flags)).
Proof.
  unfold in_u in *. unfold flint_msgtag_pack. rewrite !(wrapu_small 32 length), !(wrapu_small 32 n_caps),
    !(wrapu_small 32 flags), !(wrapu_small 32 label) by (unfold in_u; lia).
  unfold FLINT_CFG_MR_MAX, FLINT_CFG_MSG_MAX_CAPS.
  change (u8 FLINT_MSGTAG_LENGTH_MAX) with 127. change (u8 FLINT_MSGTAG_NCAPS_MAX) with 7.
  change (u8 FLINT_MSGTAG_FLAGS_MAX) with 63.
  case_decide; [by rewrite (proj2 (orb_true_iff _ _)) by lia|].
  rewrite (proj2 (orb_false_iff (length >? 127) _)) by lia.
  case_decide; [by rewrite (proj2 (orb_true_iff _ _)) by lia|].
  rewrite (proj2 (orb_false_iff (n_caps >? 7) _)) by lia.
  case_decide as Hf; [by rewrite (proj2 (Z.gtb_gt _ _)) by lia|].
  destruct (Z.gtb_spec flags 63); [lia|]. f_equal. f_equal.
  rewrite (land_mask 6 flags), (land_mask 3 n_caps), (land_mask 7 length), (land_mask 16 label) by done.
  rewrite !Z.mod_small by lia.
  unfold FLAGS_SHIFT, NCAPS_SHIFT, LENGTH_SHIFT, LABEL_SHIFT.
  rewrite !Z.shiftl_mul_pow2, !wrapu_small by (unfold in_u; lia).
  rewrite <- !(Z.shiftl_mul_pow2 n_caps), <- !(Z.shiftl_mul_pow2 length), <- !(Z.shiftl_mul_pow2 label) by lia.
  rewrite Z.lor_0_l, Z.pow_0_r, Z.mul_1_r.
  rewrite (lor_shiftl_add flags n_caps 6) by (unfold in_u; lia).
  rewrite (lor_shiftl_add _ length 9) by (unfold in_u; lia).
  rewrite (lor_shiftl_add _ label 16) by (unfold in_u; lia). done.
Qed.

Lemma tag_of_fields :
  fields_ok length n_caps flags ->
  let tag := tag_of label length n_caps flags in
  in_u 32 tag /\ flint_msgtag_label tag = label /\ flint_msgtag_length tag = length /\
  flint_msgtag_ncaps tag = n_caps /\ flint_msgtag_flags tag = flags.
Proof.
  intros (? & ? & ?). unfold in_u in *. cbn zeta. unfold tag_of.
  unfold flint_msgtag_label, flint_msgtag_length, flint_msgtag_ncaps, flint_msgtag_flags.
  rewrite (land_mask 6 _ FLINT_MSGTAG_FLAGS_MAX), (land_mask 3 _ FLINT_MSGTAG_NCAPS_MAX),
    (land_mask 7 _ FLINT_MSGTAG_LENGTH_MAX), (land_mask 16 _ FLINT_MSGTAG_LABEL_MAX) by done.
  unfold FLAGS_SHIFT, NCAPS_SHIFT, LENGTH_SHIFT, LABEL_SHIFT.
  rewrite !Z.shiftr_div_pow2 by lia.
  rewrite !wrapu_small by (unfold in_u; Z.div_mod_to_equations; lia).
  repeat split; Z.div_mod_to_equations; lia.
Qed.
End arguments.

(** Packing then unpacking: when the arguments have their C types and
    [flint_msgtag_pack] reports success, the output is a 32-bit word from which
    the accessors recover all four fields. *)
Theorem msgtag_pack_unpack label length n_caps flags old tag :
  in_u 16 label -> in_u 8 length -> in_u 8 n_caps -> in_u 8 flags ->
  flint_msgtag_pack label length n_caps flags (Some old) = (FLINT_OK, Some tag) ->
  in_u 32 tag /\ flint_msgtag_label tag = label /\ flint_msgtag_length tag = length /\
  flint_msgtag_ncaps tag = n_caps /\ flint_msgtag_flags tag = flags.
Proof.
  intros ? ? ? ?. rewrite pack_cases by done. repeat case_decide; intros; simplify_eq.
  apply tag_of_fields; try done. unfold fields_ok. lia.
Qed.

Lemma msgtag_pack_unpack_witness :
  exists tag, flint_msgtag_pack 0xBEEF 64 4 3 (Some 0) = (FLINT_OK, Some tag) /\
    flint_msgtag_label tag = 0xBEEF /\ flint_msgtag_length tag = 64.
Proof.
  exists (tag_of 0xBEEF 64 4 3). split; [vm_compute; reflexivity|].
  destruct (msgtag_pack_unpack 0xBEEF 64 4 3 0 (tag_of 0xBEEF 64 4 3)) as (_ & Hl & Hn & _);
    [unfold in_u; lia..|vm_compute; reflexivity|].
  split; [exact Hl|exact Hn].
Defined.

(** The error behaviour of packing on every branch: a null output pointer
    and too-wide flags give [FLINT_ERR_RANGE], a length above 64 words or more
    than 4 capabilities give [FLINT_ERR_MSG_TOO_LONG], and no error writes the
    output word. *)
Theorem msgtag_pack_errors label length n_caps flags out st out' :
  in_u 16 label -> in_u 8 length -> in_u 8 n_caps -> in_u 8 flags ->
  flint_msgtag_pack label length n_caps flags out = (st, out') ->
  (st = FLINT_OK <-> out <> None /\ fields_ok length n_caps flags) /\
  (st = FLINT_ERR_MSG_TOO_LONG <-> out <> None /\ (64 < length \/ 4 < n_caps)) /\
  (st = FLINT_ERR_RANGE <-> out = None \/ (length <= 64 /\ n_caps <= 4 /\ 63 < flags)) /\
  (st <> FLINT_OK -> out' = out).
Proof.
  intros ? ? ? ?. destruct out as [old|].
  - rewrite pack_cases by done. unfold fields_ok.
    repeat case_decide; intros [= <- <-]; (split_and!; [split..|done]); intros ?;
      destruct_and?; destruct_or?; first [done | lia | split; [done|lia] | right; lia].
  - intros [= <- <-]. split_and!; [split..|done]; intros ?; destruct_and?; try done. by left.
Qed.

Lemma msgtag_pack_errors_witness :
  (FLINT_ERR_MSG_TOO_LONG <> FLINT_OK -> Some 7 = Some 7) /\
  flint_msgtag_pack 1 65 0 0 (Some 7) = (FLINT_ERR_MSG_TOO_LONG, Some 7).
Proof.
  assert (E : flint_msgtag_pack 1 65 0 0 (Some 7) = (FLINT_ERR_MSG_TOO_LONG, Some 7)) by (vm_compute; reflexivity).
  split; [|exact E].
  refine (proj2 (proj2 (proj2 (msgtag_pack_errors 1 65 0 0 (Some 7) _ _ _ _ _ _ E)))); unfold in_u; lia.
Defined.

(** Unpacking then packing: every 32-bit tag whose length and capability
    count are within the configured limits is reproduced exactly, so the
    encoding loses no bit and the four fields are disjoint. *)
Theorem msgtag_unpack_pack tag old :
  in_u 32 tag -> flint_msgtag_length tag <= 64 -> flint_msgtag_ncaps tag <= 4 ->
  flint_msgtag_pack (flint_msgtag_label tag) (flint_msgtag_length tag) (flint_msgtag_ncaps tag)
    (flint_msgtag_flags tag) (Some old) = (FLINT_OK, Some tag).
Proof.
  unfold flint_msgtag_label, flint_msgtag_length, flint_msgtag_ncaps, flint_msgtag_flags.
  rewrite (land_mask 6 _ FLINT_MSGTAG_FLAGS_MAX), (land_mask 3 _ FLINT_MSGTAG_NCAPS_MAX),
      (land_mask 7 _ FLINT_MSGTAG_LENGTH_MAX), (land_mask 16 _ FLINT_MSGTAG_LABEL_MAX) by done.
  unfold FLAGS_SHIFT, NCAPS_SHIFT, LENGTH_SHIFT, LABEL_SHIFT.
  rewrite !Z.shiftr_div_pow2 by lia.
  rewrite !wrapu_small by (unfold in_u; Z.div_mod_to_equations; lia).
  intros Htag Hl Hn. unfold in_u in Htag.
  rewrite pack_cases by (unfold in_u; Z.div_mod_to_equations; lia).
  repeat case_decide; [Z.div_mod_to_equations; lia..|].
  unfold tag_of. do 2 f_equal. Z.div_mod_to_equations; lia.
Qed.

Lemma msgtag_unpack_pack_witness :
  flint_msgtag_pack 0x1234 5 2 1 (Some 0) = (FLINT_OK, Some (tag_of 0x1234 5 2 1)).
Proof.
  refine (msgtag_unpack_pack (tag_of 0x1234 5 2 1) 0 _ _ _); [unfold in_u; vm_compute; split; congruence|vm_compute; congruence..].
Defined.
