(* ===== verification/Cap.v ===== *)
(** * Capabilities and the flat CNode (src/kernel/cap.c)

    The memory holds the CNodes by address, so that the source and destination
    node of an operation may be the same object, as in the code.  A
    [flint_cap_t *] is a node address and a slot index; [flint_cnode_lookup]
    leaves the out pointer unset ([None], the callers' NULL) on error.  Every
    operation returns the status the code returns and stores field by field.

    The theorems show the complete branch behaviour, that no error changes the
    memory (fail-closed, K1.3), and that over any sequence of operations every
    capability held descends from an installed one with no more rights. *)

From S2P Require Import Prelude Config.

Inductive flint_cap_type_t :=
  | FLINT_CAP_NULL | FLINT_CAP_UNTYPED | FLINT_CAP_DOMAIN | FLINT_CAP_THREAD
  | FLINT_CAP_CNODE | FLINT_CAP_ENDPOINT | FLINT_CAP_NOTIFICATION | FLINT_CAP_REPLY
  | FLINT_CAP_SCHEDCONTEXT | FLINT_CAP_IRQHANDLER | FLINT_CAP_MEMREGION.

#[global] Instance flint_cap_type_eq_dec : EqDecision flint_cap_type_t.
Proof. solve_decision. Defined.

Definition FLINT_RIGHT_ALL : Z := 0xF.
Definition FLINT_CAP_NO_PARENT : Z := 0xFFFFFFFF.

Record flint_cap_t := Cap {
  type : flint_cap_type_t; rights : Z; badge : Z; object : Z; parent : Z }.

Definition set_type v c := Cap v (rights c) (badge c) (object c) (parent c).
Definition set_rights v c := Cap (type c) v (badge c) (object c) (parent c).
Definition set_badge v c := Cap (type c) (rights c) v (object c) (parent c).
Definition set_object v c := Cap (type c) (rights c) (badge c) v (parent c).
Definition set_parent v c := Cap (type c) (rights c) (badge c) (object c) v.

(** The CNodes in memory, by address; [slotp] is a [flint_cap_t *]. *)
Abbreviation cspace := (gmap Z (list flint_cap_t)).
Abbreviation slotp := (Z * Z)%type.

Definition ld_slot (p : slotp) : M cspace flint_cap_t :=
  get_opt (fun s => l ← s !! p.1; l !! Z.to_nat p.2).
Definition st_slot (p : slotp) (f : flint_cap_t -> flint_cap_t) : M cspace unit :=
  _ ← ld_slot p; modify (alter (alter f (Z.to_nat p.2)) p.1).

Definition cap_clear (p : slotp) : M cspace unit :=
  st_slot p (set_type FLINT_CAP_NULL);;
  st_slot p (set_rights 0);;
  st_slot p (set_badge 0);;
  st_slot p (set_object 0);;
  st_slot p (set_parent FLINT_CAP_NO_PARENT).

Fixpoint clear_from (cn : Z) (i : Z) (n : nat) : M cspace unit :=
  match n with
  | O => mret tt
  | S n => cap_clear (cn, i);; clear_from cn (i + 1) n
  end.
Definition flint_cnode_init (cn : Z) : M cspace unit :=
  clear_from cn 0 (Z.to_nat FLINT_CFG_CNODE_SLOTS).

Definition flint_cap_type_is_badged (t : flint_cap_type_t) : bool :=
  bool_decide (t = FLINT_CAP_ENDPOINT) || bool_decide (t = FLINT_CAP_NOTIFICATION).

Definition flint_cnode_lookup (cn cptr : Z) : flint_status_t * option slotp :=
  if cptr >=? FLINT_CFG_CNODE_SLOTS then (FLINT_ERR_CAP_INVALID, None)
  else (FLINT_OK, Some (cn, cptr)).

Definition flint_cnode_install (cn slot : Z) (cap : flint_cap_t) : M cspace flint_status_t :=
  let '(st, out) := flint_cnode_lookup cn slot in
  if decide (st = FLINT_OK) then
    dst ← of_opt out;
    d ← ld_slot dst;
    if negb (bool_decide (type d = FLINT_CAP_NULL)) then mret FLINT_ERR_EXISTS
    else st_slot dst (fun _ => cap);; mret st
  else mret st.

(** Result: the status and the two out pointers. *)
Definition derive_check (dst_cn dst src_cn src : Z)
    : M cspace (flint_status_t * option slotp * option slotp) :=
  let '(st, out_src) := flint_cnode_lookup src_cn src in
  let '(st, out_dst) := if decide (st = FLINT_OK) then flint_cnode_lookup dst_cn dst else (st, None) in
  if decide (st = FLINT_OK) then
    ps ← of_opt out_src;
    s ← ld_slot ps;
    if bool_decide (type s = FLINT_CAP_NULL) then mret (FLINT_ERR_EMPTY, out_dst, out_src)
    else
      pd ← of_opt out_dst;
      d ← ld_slot pd;
      if negb (bool_decide (type d = FLINT_CAP_NULL)) then mret (FLINT_ERR_EXISTS, out_dst, out_src)
      else mret (st, out_dst, out_src)
  else mret (st, out_dst, out_src).

Definition flint_cnode_copy (dst_cn dst src_cn src rights_mask : Z) : M cspace flint_status_t :=
  r ← derive_check dst_cn dst src_cn src;
  let '(st, opd, ops) := r in
  if decide (st = FLINT_OK) then
    pd ← of_opt opd; ps ← of_opt ops;
    s ← ld_slot ps; st_slot pd (set_type (type s));;
    s ← ld_slot ps; st_slot pd (set_object (object s));;
    s ← ld_slot ps; st_slot pd (set_badge (badge s));;
    s ← ld_slot ps;
    st_slot pd (set_rights (u8 (Z.land (Z.land (rights s) rights_mask) FLINT_RIGHT_ALL)));;
    st_slot pd (set_parent src);;
    mret st
  else mret st.

Definition flint_cnode_mint (dst_cn dst src_cn src rights_mask new_badge : Z) : M cspace flint_status_t :=
  r ← derive_check dst_cn dst src_cn src;
  let '(st, opd, ops) := r in
  if decide (st = FLINT_OK) then
    ps ← of_opt ops;
    s ← ld_slot ps;
    if negb (flint_cap_type_is_badged (type s)) then mret FLINT_ERR_CAP_TYPE
    else if negb (badge s =? 0) then mret FLINT_ERR_STATE
    else
      pd ← of_opt opd;
      s ← ld_slot ps; st_slot pd (set_type (type s));;
      s ← ld_slot ps; st_slot pd (set_object (object s));;
      st_slot pd (set_badge new_badge);;
      s ← ld_slot ps;
      st_slot pd (set_rights (u8 (Z.land (Z.land (rights s) rights_mask) FLINT_RIGHT_ALL)));;
      st_slot pd (set_parent src);;
      mret st
  else mret st.

Definition flint_cnode_move (dst_cn dst src_cn src : Z) : M cspace flint_status_t :=
  r ← derive_check dst_cn dst src_cn src;
  let '(st, opd, ops) := r in
  if decide (st = FLINT_OK) then
    pd ← of_opt opd; ps ← of_opt ops;
    s ← ld_slot ps; st_slot pd (fun _ => s);;
    cap_clear ps;;
    mret st
  else mret st.

Definition flint_cnode_delete (cn slot : Z) : M cspace flint_status_t :=
  let '(st, out) := flint_cnode_lookup cn slot in
  if decide (st = FLINT_OK) then
    p ← of_opt out;
    c ← ld_slot p;
    if bool_decide (type c = FLINT_CAP_NULL) then mret FLINT_ERR_EMPTY
    else cap_clear p;; mret st
  else mret st.

(** ** Slots as a flat address space *)

Definition slot_at (s : cspace) (p : slotp) : option flint_cap_t := l ← s !! p.1; l !! Z.to_nat p.2.
Definition put (p : slotp) (c : flint_cap_t) (s : cspace) : cspace :=
  alter (alter (fun _ => c) (Z.to_nat p.2)) p.1 s.
Definition null_cap : flint_cap_t := Cap FLINT_CAP_NULL 0 0 0 FLINT_CAP_NO_PARENT.

(** Every CNode is a whole slot array. *)
Definition cspace_wf (s : cspace) : Prop :=
  forall cn l, s !! cn = Some l -> length l = Z.to_nat FLINT_CFG_CNODE_SLOTS.

Definition slot_ok (s : cspace) (p : slotp) : Prop :=
  is_Some (s !! p.1) /\ 0 <= p.2 < FLINT_CFG_CNODE_SLOTS.

Lemma slot_at_put_eq s p c c0 : slot_at s p = Some c0 -> slot_at (put p c s) p = Some c.
Proof.
  unfold slot_at, put. intros Hs. rewrite lookup_alter_eq.
  destruct (s !! p.1) as [l|]; [|done]. simpl in *. by rewrite list_lookup_alter_eq, Hs.
Qed.

Lemma slot_at_put_ne s p q c :
  0 <= p.2 -> 0 <= q.2 -> p <> q -> slot_at (put p c s) q = slot_at s q.
Proof.
  unfold slot_at, put. intros Hp Hq Hne. destruct (decide (p.1 = q.1)) as [E|E].
  - rewrite <- E, lookup_alter_eq. destruct (s !! p.1) as [l|]; [|done]. simpl.
    rewrite list_lookup_alter_ne; [done|]. intros E2. apply Hne. destruct p, q; simpl in *.
    f_equal; [done|lia].
  - by rewrite lookup_alter_ne.
Qed.

Lemma put_put s p c c' : put p c' (put p c s) = put p c' s.
Proof.
  unfold put. rewrite alter_alter_eq. apply alter_ext. intros l _. unfold compose.
  apply list_eq. intros i. destruct (decide (i = Z.to_nat p.2)) as [->|].
  - rewrite !list_lookup_alter_eq. by destruct (l !! Z.to_nat p.2).
  - by rewrite !list_lookup_alter_ne.
Qed.

Lemma put_wf s p c : cspace_wf s -> cspace_wf (put p c s).
Proof.
  intros Hwf cn l. unfold put. rewrite lookup_alter. case_decide; [|apply Hwf].
  intros (l0 & Hl & ->)%fmap_Some. rewrite length_alter. by eapply Hwf.
Qed.

Lemma put_dom s p c cn : is_Some (put p c s !! cn) <-> is_Some (s !! cn).
Proof. unfold put. apply lookup_alter_is_Some. Qed.

Lemma slot_ok_at s p : cspace_wf s -> slot_ok s p -> exists c, slot_at s p = Some c.
Proof.
  intros Hwf [ [l Hl] Hp]. unfold slot_at. rewrite Hl. simpl. apply lookup_lt_is_Some_2.
  rewrite (Hwf _ _ Hl). unfold FLINT_CFG_CNODE_SLOTS in *. lia.
Qed.

(** ** The memory primitives on known slots *)

Lemma ld_slot_eq s p c : slot_at s p = Some c -> ld_slot p s = Some (c, s).
Proof. intros H. unfold ld_slot, get_opt. fold (slot_at s p). by rewrite H. Qed.

Lemma st_slot_eq s p f c : slot_at s p = Some c -> st_slot p f s = Some (tt, put p (f c) s).
Proof.
  intros H. unfold st_slot, mbind, M_bind. rewrite (ld_slot_eq _ _ _ H). unfold modify. do 2 f_equal.
  unfold put. unfold slot_at in H. apply alter_ext. intros l Hl. rewrite Hl in H. simpl in H.
  apply list_eq. intros i. destruct (decide (i = Z.to_nat p.2)) as [->|].
  - by rewrite !list_lookup_alter_eq, H.
  - by rewrite !list_lookup_alter_ne.
Qed.

Lemma cap_clear_eq s p c : slot_at s p = Some c -> cap_clear p s = Some (tt, put p null_cap s).
Proof.
  intros H0. unfold cap_clear.
  erewrite bind_eq; [|by apply st_slot_eq]. pose proof (slot_at_put_eq _ _ (set_type FLINT_CAP_NULL c) _ H0) as H1.
  erewrite bind_eq; [|by apply st_slot_eq]. rewrite put_put in *.
  erewrite bind_eq; [|apply st_slot_eq; by eapply slot_at_put_eq]. rewrite put_put.
  erewrite bind_eq; [|apply st_slot_eq; by eapply slot_at_put_eq]. rewrite put_put.
  erewrite st_slot_eq; [|by eapply slot_at_put_eq]. by rewrite put_put.
Qed.

(** ** Branch behaviour of the operations *)

Section derive.
Context (s : cspace) (dst_cn dst src_cn src : Z).
Let pd : slotp := (dst_cn, dst).
Let ps : slotp := (src_cn, src).

(** The status [derive_check] gives, in the order the code tests. *)
Definition derive_status : flint_status_t :=
  if decide (FLINT_CFG_CNODE_SLOTS <= src) then FLINT_ERR_CAP_INVALID
  else if decide (FLINT_CFG_CNODE_SLOTS <= dst) then FLINT_ERR_CAP_INVALID
  else match slot_at s ps, slot_at s pd with
       | Some cs, Some cd =>
           if decide (type cs = FLINT_CAP_NULL) then FLINT_ERR_EMPTY
           else if decide (type cd = FLINT_CAP_NULL) then FLINT_OK
           else FLINT_ERR_EXISTS
       | _, _ => FLINT_ERR_STATE
       end.

Hypothesis (Hwf : cspace_wf s) (Hd : is_Some (s !! dst_cn)) (Hs : is_Some (s !! src_cn))
  (Hdst : 0 <= dst) (Hsrc : 0 <= src).

(** What success of the checks gives. *)
Definition derivable (cs cd : flint_cap_t) : Prop :=
  slot_at s ps = Some cs /\ slot_at s pd = Some cd /\ type cs <> FLINT_CAP_NULL /\
  type cd = FLINT_CAP_NULL /\ pd <> ps.

Lemma derive_check_eq :
  exists opd ops, derive_check dst_cn dst src_cn src s = Some ((derive_status, opd, ops), s) /\
    (derive_status = FLINT_OK ->
       opd = Some pd /\ ops = Some ps /\ exists cs cd, derivable cs cd).
Proof.
  unfold derive_check, flint_cnode_lookup, derive_status.
  destruct (Z.geb_spec src FLINT_CFG_CNODE_SLOTS) as [Hge|Hlt]; simpl.
  { rewrite decide_True by done. eexists _, _. by split. }
  rewrite (decide_False (P := FLINT_CFG_CNODE_SLOTS <= src)) by lia.
  destruct (Z.geb_spec dst FLINT_CFG_CNODE_SLOTS) as [Hge'|Hlt']; simpl.
  { rewrite decide_True by done. eexists _, _. by split. }
  rewrite (decide_False (P := FLINT_CFG_CNODE_SLOTS <= dst)) by lia.
  destruct (slot_ok_at s ps) as [cs Hcs]; [done|by split|].
  destruct (slot_ok_at s pd) as [cd Hcd]; [done|by split|].
  erewrite bind_eq by reflexivity.
  erewrite bind_eq by (by apply ld_slot_eq). fold pd ps. rewrite Hcs, Hcd.
  case_bool_decide as Hn.
  { rewrite decide_True by done. eexists _, _. by split. }
  rewrite (decide_False (P := type cs = _)) by done.
  erewrite bind_eq by reflexivity.
  erewrite bind_eq by (by apply ld_slot_eq).
  case_bool_decide as Hn'; simpl.
  - rewrite decide_True by done. eexists _, _. split; [done|]. intros _. repeat split.
    exists cs, cd. repeat split; try done. intros E. rewrite E in Hcd. congruence.
  - rewrite decide_False by done. eexists _, _. by split.
Qed.

(** A derived capability (copy, mint) of [cs]. *)
Definition derived (cs : flint_cap_t) (mask b : Z) : flint_cap_t :=
  Cap (type cs) (u8 (Z.land (Z.land (rights cs) mask) FLINT_RIGHT_ALL)) b (object cs) src.

Lemma copy_eq mask :
  flint_cnode_copy dst_cn dst src_cn src mask s =
    Some (derive_status,
          if decide (derive_status = FLINT_OK)
          then match slot_at s ps with Some cs => put pd (derived cs mask (badge cs)) s | None => s end
          else s).
Proof.
  destruct derive_check_eq as (opd & ops & E & HOK). unfold flint_cnode_copy.
  erewrite bind_eq by exact E; cbn beta iota. case_decide as Hst; [|done].
  destruct (HOK Hst) as (-> & -> & cs & cd & Hcs & Hcd & Hn & Hn' & Hne). rewrite Hcs.
  pose proof (slot_at_put_eq s pd) as Hput.
  assert (Hsrc' : forall c, slot_at (put pd c s) ps = Some cs) 
    by (intros; rewrite slot_at_put_ne by (exact Hdst || exact Hsrc || exact Hne); exact Hcs).
  erewrite bind_eq by reflexivity. erewrite bind_eq by reflexivity.
  erewrite bind_eq by (by apply ld_slot_eq).
  erewrite bind_eq by (by apply st_slot_eq).
  erewrite bind_eq by (apply ld_slot_eq, Hsrc').
  erewrite bind_eq by (apply st_slot_eq; by eapply Hput). rewrite put_put.
  erewrite bind_eq by (apply ld_slot_eq, Hsrc').
  erewrite bind_eq by (apply st_slot_eq; by eapply Hput). rewrite put_put.
  erewrite bind_eq by (apply ld_slot_eq, Hsrc').
  erewrite bind_eq by (apply st_slot_eq; by eapply Hput). rewrite put_put.
  erewrite bind_eq by (apply st_slot_eq; by eapply Hput). rewrite put_put.
  done.
Qed.

(** The status of [flint_cnode_mint]: the badge rules come after the checks. *)
Definition mint_status : flint_status_t :=
  if decide (derive_status = FLINT_OK) then
    match slot_at s ps with
    | Some cs => if negb (flint_cap_type_is_badged (type cs)) then FLINT_ERR_CAP_TYPE
                 else if decide (badge cs = 0) then FLINT_OK else FLINT_ERR_STATE
    | None => FLINT_ERR_STATE
    end
  else derive_status.

Lemma mint_eq mask b :
  flint_cnode_mint dst_cn dst src_cn src mask b s =
    Some (mint_status,
          if decide (mint_status = FLINT_OK)
          then match slot_at s ps with Some cs => put pd (derived cs mask b) s | None => s end
          else s).
Proof.
  destruct derive_check_eq as (opd & ops & E & HOK). unfold flint_cnode_mint.
  erewrite bind_eq by exact E; cbn beta iota. unfold mint_status.
  case_decide as Hst; [|by rewrite decide_False].
  destruct (HOK Hst) as (-> & -> & cs & cd & Hcs & Hcd & Hn & Hn' & Hne). rewrite Hcs.
  pose proof (slot_at_put_eq s pd) as Hput.
  assert (Hsrc' : forall c, slot_at (put pd c s) ps = Some cs) 
    by (intros; rewrite slot_at_put_ne by (exact Hdst || exact Hsrc || exact Hne); exact Hcs).
  erewrite bind_eq by reflexivity.
  erewrite bind_eq by (by apply ld_slot_eq).
  destruct (flint_cap_type_is_badged (type cs)); [simpl|done].
  destruct (Z.eqb_spec (badge cs) 0) as [Hb|Hb]; simpl;
    [rewrite (decide_True (P := badge cs = 0)) by done|by rewrite (decide_False (P := badge cs = 0)) by done].
  erewrite bind_eq by reflexivity.
  erewrite bind_eq by (by apply ld_slot_eq).
  erewrite bind_eq by (by apply st_slot_eq).
  erewrite bind_eq by (apply ld_slot_eq, Hsrc').
  erewrite bind_eq by (apply st_slot_eq; by eapply Hput). rewrite put_put.
  erewrite bind_eq by (apply st_slot_eq; by eapply Hput). rewrite put_put.
  erewrite bind_eq by (apply ld_slot_eq, Hsrc').
  erewrite bind_eq by (apply st_slot_eq; by eapply Hput). rewrite put_put.
  erewrite bind_eq by (apply st_slot_eq; by eapply Hput). rewrite put_put.
  by rewrite Hst.
Qed.

Lemma move_eq :
  flint_cnode_move dst_cn dst src_cn src s =
    Some (derive_status,
          if decide (derive_status = FLINT_OK)
          then match slot_at s ps with Some cs => put ps null_cap (put pd cs s) | None => s end
          else s).
Proof.
  destruct derive_check_eq as (opd & ops & E & HOK). unfold flint_cnode_move.
  erewrite bind_eq by exact E; cbn beta iota. case_decide as Hst; [|done].
  destruct (HOK Hst) as (-> & -> & cs & cd & Hcs & Hcd & Hn & Hn' & Hne). rewrite Hcs.
  erewrite bind_eq by reflexivity. erewrite bind_eq by reflexivity.
  erewrite bind_eq by (by apply ld_slot_eq).
  erewrite bind_eq by (by apply st_slot_eq).
  erewrite bind_eq 
    by (eapply cap_clear_eq; rewrite slot_at_put_ne by (exact Hdst || exact Hsrc || exact Hne); exact Hcs). done.
Qed.
End derive.

Section single.
Context (s : cspace) (cn slot : Z).
Hypothesis (Hwf : cspace_wf s) (Hcn : is_Some (s !! cn)) (Hslot : 0 <= slot).

Definition install_status : flint_status_t :=
  if decide (FLINT_CFG_CNODE_SLOTS <= slot) then FLINT_ERR_CAP_INVALID
  else match slot_at s (cn, slot) with
       | Some c => if decide (type c = FLINT_CAP_NULL) then FLINT_OK else FLINT_ERR_EXISTS
       | None => FLINT_ERR_STATE
       end.

Lemma install_eq cap :
  flint_cnode_install cn slot cap s =
    Some (install_status, if decide (install_status = FLINT_OK) then put (cn, slot) cap s else s).
Proof.
  unfold flint_cnode_install, flint_cnode_lookup, install_status.
  destruct (Z.geb_spec slot FLINT_CFG_CNODE_SLOTS); simpl; [by rewrite decide_True|].
  rewrite (decide_False (P := _ <= slot)) by lia.
  destruct (slot_ok_at s (cn, slot)) as [c Hc]; [done|by split|]. rewrite Hc.
  erewrite bind_eq by reflexivity. erewrite bind_eq by (by apply ld_slot_eq).
  case_bool_decide as Hn; simpl.
  - rewrite decide_True by done. by erewrite bind_eq by (by apply st_slot_eq).
  - by rewrite decide_False by done.
Qed.

Definition delete_status : flint_status_t :=
  if decide (FLINT_CFG_CNODE_SLOTS <= slot) then FLINT_ERR_CAP_INVALID
  else match slot_at s (cn, slot) with
       | Some c => if decide (type c = FLINT_CAP_NULL) then FLINT_ERR_EMPTY else FLINT_OK
       | None => FLINT_ERR_STATE
       end.

Lemma delete_eq :
  flint_cnode_delete cn slot s =
    Some (delete_status, if decide (delete_status = FLINT_OK) then put (cn, slot) null_cap s else s).
Proof.
  unfold flint_cnode_delete, flint_cnode_lookup, delete_status.
  destruct (Z.geb_spec slot FLINT_CFG_CNODE_SLOTS); simpl; [by rewrite decide_True|].
  rewrite (decide_False (P := _ <= slot)) by lia.
  destruct (slot_ok_at s (cn, slot)) as [c Hc]; [done|by split|]. rewrite Hc.
  erewrite bind_eq by reflexivity. erewrite bind_eq by (by apply ld_slot_eq).
  case_bool_decide as Hn; simpl.
  - by rewrite decide_True by done.
  - rewrite decide_False by done. by erewrite bind_eq by (by eapply cap_clear_eq).
Qed.
End single.

(** [flint_cnode_init] empties every slot of its node and touches no other. *)
Lemma clear_from_spec cn n i s :
  cspace_wf s -> is_Some (s !! cn) -> 0 <= i -> i + Z.of_nat n <= FLINT_CFG_CNODE_SLOTS ->
  wp (clear_from cn i n) (fun _ s' => cspace_wf s' /\ (forall c, is_Some (s' !! c) <-> is_Some (s !! c)) /\
    forall p, 0 <= p.2 -> slot_at s' p =
      if decide (p.1 = cn /\ i <= p.2 < i + Z.of_nat n) then Some null_cap else slot_at s p) s.
Proof.
  revert i s. induction n as [|n IH]; intros i s Hwf Hcn Hi Hn; simpl.
  - wp_steps. split; [done|]. split; [done|]. intros p Hp. rewrite decide_False; [done|lia].
  - destruct (slot_ok_at s (cn, i)) as [c Hc]; [done|split; [done|simpl; lia]|].
    apply wp_bind. exists tt, (put (cn, i) null_cap s). split; [by eapply cap_clear_eq|].
    eapply wp_mono; [apply IH; [by apply put_wf|by apply put_dom|lia..]|].
    intros _ s' (? & Hdom & Hsl). split; [done|]. split; [intros; by rewrite Hdom, put_dom|].
    intros p Hp. rewrite (Hsl p Hp). destruct (decide (p = (cn, i))) as [->|Hne]; simpl.
    + rewrite decide_False, decide_True by lia. by eapply slot_at_put_eq.
    + rewrite slot_at_put_ne by done. apply decide_ext. destruct p as [q j]; simpl in *.
      assert (q = cn -> j <> i) by (intros -> ->; done). intuition lia.
Qed.

(** ** Histories of operations *)

Inductive cap_op :=
  | OpInstall (cn slot : Z) (cap : flint_cap_t)
  | OpCopy (dst_cn dst src_cn src mask : Z)
  | OpMint (dst_cn dst src_cn src mask b : Z)
  | OpMove (dst_cn dst src_cn src : Z)
  | OpDelete (cn slot : Z).

Definition cap_exec (o : cap_op) : M cspace flint_status_t :=
  match o with
  | OpInstall cn slot cap => flint_cnode_install cn slot cap
  | OpCopy dc d sc s m => flint_cnode_copy dc d sc s m
  | OpMint dc d sc s m b => flint_cnode_mint dc d sc s m b
  | OpMove dc d sc s => flint_cnode_move dc d sc s
  | OpDelete cn slot => flint_cnode_delete cn slot
  end.

Fixpoint cap_run (os : list cap_op) : M cspace (list flint_status_t) :=
  match os with
  | [] => mret []
  | o :: os => st ← cap_exec o; sts ← cap_run os; mret (st :: sts)
  end.

(** Arguments as the C types allow: existing nodes, unsigned slot numbers. *)
Definition op_ok (s : cspace) (o : cap_op) : Prop :=
  match o with
  | OpInstall cn slot _ | OpDelete cn slot => is_Some (s !! cn) /\ 0 <= slot
  | OpCopy dc d sc i _ | OpMint dc d sc i _ _ | OpMove dc d sc i =>
      is_Some (s !! dc) /\ is_Some (s !! sc) /\ 0 <= d /\ 0 <= i
  end.

(** [c] carries no more authority than [c0]: same object, a subset of the
    rights, and the same badge unless an unbadged one was minted. *)
Definition cap_le (c c0 : flint_cap_t) : Prop :=
  type c = type c0 /\ object c = object c0 /\
  (forall i, 0 <= i -> Z.testbit (rights c) i = true -> Z.testbit (rights c0) i = true) /\
  (badge c = badge c0 \/ (badge c0 = 0 /\ flint_cap_type_is_badged (type c0) = true)).

#[global] Instance cap_le_preorder : PreOrder cap_le.
Proof.
  split.
  - intros c. repeat split; try done. by left.
  - intros c c1 c0 (T1 & O1 & R1 & B1) (T0 & O0 & R0 & B0). split; [congruence|]. split; [congruence|].
    split; [by eauto|]. destruct B0 as [B0|B0]; [|by right]. rewrite <- B0, <- T0. exact B1.
Qed.

(** The capabilities the boot code installs in a history. *)
Definition installed (os : list cap_op) : list flint_cap_t :=
  omap (fun o => match o with OpInstall _ _ c => Some c | _ => None end) os.

(** Every capability held is bounded by one of [roots]. *)
Definition confined (roots : list flint_cap_t) (s : cspace) : Prop :=
  forall p c, 0 <= p.2 -> slot_at s p = Some c -> type c <> FLINT_CAP_NULL ->
    exists c0, c0 ∈ roots /\ cap_le c c0.

Lemma confined_put roots s p c :
  0 <= p.2 -> confined roots s ->
  (type c <> FLINT_CAP_NULL -> exists c0, c0 ∈ roots /\ cap_le c c0) ->
  confined roots (put p c s).
Proof.
  intros Hp Hs Hc q d Hq Hd Hn. destruct (decide (p = q)) as [<-|Hne].
  - assert (d = c) as ->; [|by apply Hc].
    destruct (slot_at s p) as [c0|] eqn:E.
    + rewrite (slot_at_put_eq _ _ _ _ E) in Hd. by simplify_eq.
    + unfold slot_at, put in Hd, E. rewrite lookup_alter_eq in Hd.
      destruct (s !! p.1); simpl in *; [|done]. by rewrite list_lookup_alter_eq, E in Hd.
  - rewrite slot_at_put_ne in Hd by done. by eapply Hs.
Qed.

Lemma confined_mono roots roots' s : roots ⊆ roots' -> confined roots s -> confined roots' s.
Proof. intros Hsub Hs p c ? ? ?. destruct (Hs p c) as (c0 & ? & ?); [done..|]. eauto. Qed.

Lemma derived_le src cs mask b :
  b = badge cs \/ (badge cs = 0 /\ flint_cap_type_is_badged (type cs) = true) ->
  cap_le (derived src cs mask b) cs.
Proof.
  intros Hb. split; [done|]. split; [done|]. split; [|done]. intros i Hi. simpl.
  rewrite testbit_wrapu, !Z.land_spec by lia. by intros [_ [ [? _]%andb_true_iff _]%andb_true_iff]%andb_true_iff.
Qed.

(** One operation: total, keeps the memory well formed, changes nothing on
    error, and keeps the memory confined. *)
Lemma cap_exec_spec s o :
  cspace_wf s -> op_ok s o ->
  wp (cap_exec o) (fun st s' =>
    cspace_wf s' /\ (forall c, is_Some (s' !! c) <-> is_Some (s !! c)) /\ (st <> FLINT_OK -> s' = s) /\
    forall roots, confined roots s -> confined (roots ++ installed [o]) s') s.
Proof.
  intros Hwf Hok.
  assert (Hmono : forall roots, confined roots s -> confined (roots ++ installed [o]) s).
  { intros roots. apply confined_mono. set_solver. }
  assert (Hle : forall roots p c c', confined roots s -> 0 <= p.2 -> slot_at s p = Some c ->
    type c' <> FLINT_CAP_NULL -> cap_le c' c -> exists c0, c0 ∈ roots ++ installed [o] /\ cap_le c' c0).
  { intros roots p c c' Hs Hp Hpc Hn Hcc. destruct (Hs p c) as (c0 & ? & ?); [done..|by destruct Hcc as [<- _] |].
    exists c0. split; [set_solver|by etrans]. }
  destruct o as [cn slot cap|dc d sc i m|dc d sc i m b|dc d sc i|cn slot]; simpl in Hok.
  - destruct Hok. eexists _, _. split; [by apply install_eq|]. case_decide as E; [|by auto].
    split; [by apply put_wf|]. split; [intros; apply put_dom|]. split; [done|].
    intros roots Hs. apply confined_put; [done|by apply Hmono|]. intros _. exists cap. set_solver.
  - destruct Hok as (? & ? & ? & ?). eexists _, _. split; [by apply copy_eq|]. case_decide as E; [|by auto].
    destruct (slot_at s (sc, i)) as [cs|] eqn:Ec; [|by auto].
    split; [by apply put_wf|]. split; [intros; apply put_dom|]. split; [done|].
    intros roots Hs. apply confined_put; [done|by apply Hmono|]. intros Hn.
    eapply (Hle roots (sc, i)); [done..|]. apply derived_le. by left.
  - destruct Hok as (? & ? & ? & ?). eexists _, _. split; [by apply mint_eq|]. case_decide as E; [|by auto].
    destruct (slot_at s (sc, i)) as [cs|] eqn:Ec; [|by auto].
    split; [by apply put_wf|]. split; [intros; apply put_dom|]. split; [done|].
    intros roots Hs. apply confined_put; [done|by apply Hmono|]. intros Hn.
    eapply (Hle roots (sc, i)); [done..|]. apply derived_le. right.
    unfold mint_status in E. rewrite Ec in E. case_decide; [|done]. destruct (flint_cap_type_is_badged (type cs)); [simpl in E|done].
    by case_decide.
  - destruct Hok as (? & ? & ? & ?). eexists _, _. split; [by apply move_eq|]. case_decide as E; [|by auto].
    destruct (slot_at s (sc, i)) as [cs|] eqn:Ec; [|by auto].
    split; [by apply put_wf, put_wf|]. split; [intros; by rewrite put_dom, put_dom|]. split; [done|].
    intros roots Hs. apply confined_put; [done| |done]. apply confined_put; [done|by apply Hmono|]. intros Hn.
    by eapply (Hle roots (sc, i)).
  - destruct Hok. eexists _, _. split; [by apply delete_eq|]. case_decide as E; [|by auto].
    split; [by apply put_wf|]. split; [intros; apply put_dom|]. split; [done|].
    intros roots Hs. apply confined_put; [done|by apply Hmono|done].
Qed.

Lemma op_ok_ext s s' o : (forall c : Z, is_Some (s' !! c) <-> is_Some (s !! c)) -> op_ok s o -> op_ok s' o.
Proof. intros Hd. destruct o; simpl; by rewrite !Hd. Qed.

Lemma cap_run_spec os s roots :
  cspace_wf s -> Forall (op_ok s) os -> confined roots s ->
  wp (cap_run os) (fun _ s' => cspace_wf s' /\ confined (roots ++ installed os) s') s.
Proof.
  intros Hwf Hos. revert s roots Hwf Hos. induction os as [|o os IH]; intros s roots Hwf Hos Hc; cbn [cap_run].
  - apply wp_ret. by rewrite app_nil_r.
  - apply Forall_cons_1 in Hos as [Ho Hos]. apply wp_bind.
    eapply wp_mono; [by apply cap_exec_spec|]. intros st s' (Hwf' & Hd & _ & Hc').
    apply wp_bind. eapply wp_mono.
    { apply (IH s' (roots ++ installed [o])); [done| |by apply Hc'].
      eapply Forall_impl; [exact Hos|]. intros o1 ?. by apply (op_ok_ext s). }
    intros sts s'' [? ?]. apply wp_ret. split; [done|].
    replace (installed (o :: os)) with (installed [o] ++ installed os); [by rewrite app_assoc|].
    by destruct o.
Qed.

(** Boot initialises every CNode. *)
Fixpoint init_nodes (cns : list Z) : M cspace unit :=
  match cns with
  | [] => mret tt
  | cn :: cns => flint_cnode_init cn;; init_nodes cns
  end.

Lemma init_nodes_spec cns s :
  cspace_wf s -> Forall (fun cn => is_Some (s !! cn)) cns ->
  wp (init_nodes cns) (fun _ s' => cspace_wf s' /\ (forall c, is_Some (s' !! c) <-> is_Some (s !! c)) /\
    forall p c, 0 <= p.2 -> slot_at s' p = Some c -> p.1 ∈ cns \/ slot_at s p = Some null_cap -> c = null_cap) s.
Proof.
  revert s. induction cns as [|cn cns IH]; intros s Hwf Hcns; cbn [init_nodes].
  - apply wp_ret. split; [done|]. split; [done|]. intros p c _ Hc [?%elem_of_nil|Hn]; [done|]. by simplify_eq.
  - apply Forall_cons_1 in Hcns as [Hcn Hcns]. apply wp_bind.
    eapply wp_mono; [apply clear_from_spec; [done..|lia|reflexivity]|].
    intros _ s1 (Hwf1 & Hd1 & Hs1). eapply wp_mono.
    { apply IH; [done|]. eapply Forall_impl; [exact Hcns|]. intros. by rewrite Hd1. }
    intros _ s2 (Hwf2 & Hd2 & Hs2). split; [done|]. split; [intros; by rewrite Hd2|].
    intros p c Hp Hc Hor. apply (Hs2 p c Hp Hc). rewrite (Hs1 p Hp). case_decide; [by right|].
    destruct Hor as [ [E|?]%elem_of_cons|?]; [|by left|by right]. subst.
    right. unfold slot_at in Hc. apply bind_Some in Hc as (l & Hl & Hi).
    assert (Z.to_nat p.2 < length l)%nat as Hlt by (by apply lookup_lt_Some in Hi).
    rewrite (Hwf2 _ _ Hl) in Hlt. unfold FLINT_CFG_CNODE_SLOTS in *. lia.
Qed.

(** C3: Authority confinement.  Initialise the CNodes of an arbitrary memory
    with [flint_cnode_init]; then any sequence of install, copy, mint, move and
    delete operations (with the source and destination node possibly the same)
    runs to completion, and every capability then held names the same object,
    with a subset of the rights and an unforged badge, as some capability that
    was installed. *)
Theorem cap_authority_confinement (s : cspace) (cns : list Z) (os : list cap_op) :
  cspace_wf s -> (forall cn, cn ∈ cns <-> is_Some (s !! cn)) -> Forall (op_ok s) os ->
  exists sts s', (init_nodes cns;; cap_run os) s = Some (sts, s') /\
    forall p c, 0 <= p.2 -> slot_at s' p = Some c -> type c <> FLINT_CAP_NULL ->
      exists c0, c0 ∈ installed os /\ cap_le c c0.
Proof.
  intros Hwf Hcns Hos.
  destruct (init_nodes_spec cns s Hwf) as ([] & s0 & E0 & Hwf0 & Hd0 & Hs0).
  { apply Forall_forall. intros cn Hin. by apply Hcns. }
  destruct (cap_run_spec os s0 []) as (sts & s' & E & _ & Hc); [done| | |].
  - eapply Forall_impl; [exact Hos|]. intros o ?. by apply (op_ok_ext s).
  - intros p c Hp Hpc Hn. rewrite (Hs0 p c Hp Hpc) in Hn; [done|left].
    apply Hcns, Hd0. unfold slot_at in Hpc. by destruct (s0 !! p.1).
  - exists sts, s'. split; [by rewrite (bind_eq _ _ _ _ _ E0)|done].
Qed.

Definition demo_nodes : cspace := {[ 1 := replicate 64 null_cap; 2 := replicate 64 null_cap ]}.
Definition demo_endpoint : flint_cap_t := Cap FLINT_CAP_ENDPOINT 0x7 0 42 FLINT_CAP_NO_PARENT.

Lemma demo_nodes_lookup cn l : demo_nodes !! cn = Some l -> l = replicate 64 null_cap.
Proof.
  unfold demo_nodes. rewrite lookup_insert, lookup_singleton. repeat case_decide; by intros [= <-].
Qed.

Lemma demo_nodes_wf : cspace_wf demo_nodes.
Proof. intros cn l ->%demo_nodes_lookup. reflexivity. Qed.

Lemma cap_authority_confinement_witness :
  exists sts s',
    (init_nodes [1; 2];;
     cap_run [OpInstall 1 0 demo_endpoint; OpMint 2 5 1 0 0x3 9; OpCopy 1 6 2 5 0xFF]) demo_nodes = Some (sts, s') /\
    sts = [FLINT_OK; FLINT_OK; FLINT_OK] /\
    slot_at s' (1, 6) = Some (Cap FLINT_CAP_ENDPOINT 0x3 9 42 5).
Proof.
  destruct (cap_authority_confinement demo_nodes [1; 2]
    [OpInstall 1 0 demo_endpoint; OpMint 2 5 1 0 0x3 9; OpCopy 1 6 2 5 0xFF]) as (sts & s' & E & _).
  - apply demo_nodes_wf.
  - intros cn. unfold demo_nodes. rewrite lookup_insert, lookup_singleton, !elem_of_cons.
    split.
    + by intros [->| [->|?%elem_of_nil] ].
    + repeat case_decide; [by left|by right; left|]. by intros [? ?].
  - repeat constructor; simpl; try lia; by eexists.
  - exists sts, s'. split; [exact E|]. vm_compute in E. injection E as <- <-. by split.
Defined.

(** C19: Fail-closed errors: an operation that returns any status other than
    [FLINT_OK] leaves the whole capability memory as it was (K1.3). *)
Theorem cap_errors_have_no_effect (s s' : cspace) (o : cap_op) st :
  cspace_wf s -> op_ok s o -> cap_exec o s = Some (st, s') -> st <> FLINT_OK -> s' = s.
Proof.
  intros Hwf Hok E. by pose proof (wp_inv _ _ _ _ _ (cap_exec_spec s o Hwf Hok) E) as (_ & _ & ? & _).
Qed.

Lemma cap_errors_have_no_effect_witness :
  exists s', cap_exec (OpDelete 1 3) demo_nodes = Some (FLINT_ERR_EMPTY, s') /\ s' = demo_nodes.
Proof.
  eexists. split; [vm_compute; reflexivity|].
  apply (cap_errors_have_no_effect demo_nodes _ (OpDelete 1 3) FLINT_ERR_EMPTY).
  - apply demo_nodes_wf.
  - split; [by eexists|lia].
  - vm_compute. reflexivity.
  - discriminate.
Defined.

(** The branches of mint: the status is decided in the order range, empty
    source, occupied destination, badge-bearing type, badge not yet set; on
    success exactly the destination slot changes and receives the source's type
    and object, the masked rights, the new badge and the source slot as parent. *)
Theorem cap_mint_behaviour (s : cspace) dst_cn dst src_cn src mask b :
  cspace_wf s -> is_Some (s !! dst_cn) -> is_Some (s !! src_cn) -> 0 <= dst -> 0 <= src ->
  flint_cnode_mint dst_cn dst src_cn src mask b s =
    Some (match decide (64 <= src \/ 64 <= dst) with
          | left _ => (FLINT_ERR_CAP_INVALID, s)
          | right _ =>
              match slot_at s (src_cn, src), slot_at s (dst_cn, dst) with
              | Some cs, Some cd =>
                  if decide (type cs = FLINT_CAP_NULL) then (FLINT_ERR_EMPTY, s)
                  else if decide (type cd <> FLINT_CAP_NULL) then (FLINT_ERR_EXISTS, s)
                  else if decide (type cs <> FLINT_CAP_ENDPOINT /\ type cs <> FLINT_CAP_NOTIFICATION)
                  then (FLINT_ERR_CAP_TYPE, s)
                  else if decide (badge cs <> 0) then (FLINT_ERR_STATE, s)
                  else (FLINT_OK, put (dst_cn, dst)
                          (Cap (type cs) (u8 (Z.land (Z.land (rights cs) mask) 0xF)) b (object cs) src) s)
              | _, _ => (FLINT_ERR_STATE, s)
              end
          end).
Proof.
  intros. rewrite mint_eq by done. unfold mint_status, derive_status, FLINT_CFG_CNODE_SLOTS. f_equal.
  destruct (decide (64 <= src)); [by rewrite (decide_True (P := _ \/ _)) by lia|].
  destruct (decide (64 <= dst)); [by rewrite (decide_True (P := _ \/ _)) by lia|].
  rewrite (decide_False (P := 64 <= src \/ _)) by lia.
  destruct (slot_at s (src_cn, src)) as [cs|]; [|done]. destruct (slot_at s (dst_cn, dst)) as [cd|]; [|done].
  destruct (decide (type cs = FLINT_CAP_NULL)); [done|].
  destruct (decide (type cd = FLINT_CAP_NULL)) as [?|?];
    [rewrite (decide_False (P := type cd <> _)) by auto|by rewrite (decide_True (P := type cd <> _))].
  simpl. unfold flint_cap_type_is_badged.
  repeat case_bool_decide; simpl; repeat case_decide; try done; naive_solver.
Qed.

Lemma cap_mint_behaviour_witness :
  exists r, flint_cnode_mint 2 5 1 0 0x3 9 (put (1, 0) demo_endpoint demo_nodes) = Some r /\ r.1 = FLINT_OK.
Proof.
  eexists. split.
  - apply cap_mint_behaviour; [|by eexists|by eexists|lia|lia].
    apply put_wf, demo_nodes_wf.
  - vm_compute. reflexivity.
Defined.
