(* ===== verification/Lists.v ===== *)
(** * List management (src/kernel/list.c, src/include/FlintRTOS/list.h)

    The kernel's circular doubly-linked lists, at the level of their pointers.
    A [ListItem_t *] is either a real item or the sentinel of a list cast to an
    item pointer ([PEnd]), as in the code, which relies on the common initial
    members of [ListItem_t] and [MiniListItem_t].  Items and lists are named by
    abstract addresses [I] and [L] chosen by the client.  A read through a null
    or unknown pointer, and a read of [pvOwner] through a sentinel (which has
    no such member), is undefined ([None]).

    This file has the data, the operations and the pointer accessors; ListSpec.v
    has the sequence specification and the refinement proof. *)

From S2P Require Import Prelude Config.

Section lists.
Context {I L : Type} `{Countable I} `{Countable L}.

(** [ListItem_t *] *)
Inductive ptr := PItem (i : I) | PEnd (l : L).

#[global] Instance ptr_eq_dec : EqDecision ptr.
Proof. solve_decision. Defined.

Record ListItem_t := ListItem {
  xItemValue : Z; pxNext : option ptr; pxPrevious : option ptr; pvOwner : Z; pxContainer : option L }.

Record MiniListItem_t := MiniListItem {
  m_xItemValue : Z; m_pxNext : option ptr; m_pxPrevious : option ptr }.

Record List_t := MkList { uxNumberOfItems : Z; pxIndex : option ptr; xListEnd : MiniListItem_t }.

(** The memory that holds the items and lists. *)
Record lmem := LMem { items : gmap I ListItem_t; lists : gmap L List_t }.

(** ** Field access through pointers *)

Definition on_item (i : I) (f : ListItem_t -> ListItem_t) (m : lmem) : lmem :=
  LMem (alter f i (items m)) (lists m).
Definition on_list (l : L) (f : List_t -> List_t) (m : lmem) : lmem :=
  LMem (items m) (alter f l (lists m)).
Definition on_end (l : L) (f : MiniListItem_t -> MiniListItem_t) : lmem -> lmem :=
  on_list l (fun t => MkList (uxNumberOfItems t) (pxIndex t) (f (xListEnd t))).

Definition value_of (m : lmem) (p : ptr) : option Z :=
  match p with
  | PItem i => xItemValue <$> items m !! i
  | PEnd l => m_xItemValue ∘ xListEnd <$> lists m !! l
  end.
Definition next_of (m : lmem) (p : ptr) : option (option ptr) :=
  match p with
  | PItem i => pxNext <$> items m !! i
  | PEnd l => m_pxNext ∘ xListEnd <$> lists m !! l
  end.
Definition prev_of (m : lmem) (p : ptr) : option (option ptr) :=
  match p with
  | PItem i => pxPrevious <$> items m !! i
  | PEnd l => m_pxPrevious ∘ xListEnd <$> lists m !! l
  end.
Definition owner_of (m : lmem) (p : ptr) : option Z :=
  match p with PItem i => pvOwner <$> items m !! i | PEnd _ => None end.
Definition container_of (m : lmem) (i : I) : option (option L) := pxContainer <$> items m !! i.
Definition index_of (m : lmem) (l : L) : option (option ptr) := pxIndex <$> lists m !! l.
Definition count_of (m : lmem) (l : L) : option Z := uxNumberOfItems <$> lists m !! l.

Definition put_next (p : ptr) (v : option ptr) : lmem -> lmem :=
  match p with
  | PItem i => on_item i (fun t => ListItem (xItemValue t) v (pxPrevious t) (pvOwner t) (pxContainer t))
  | PEnd l => on_end l (fun t => MiniListItem (m_xItemValue t) v (m_pxPrevious t))
  end.
Definition put_prev (p : ptr) (v : option ptr) : lmem -> lmem :=
  match p with
  | PItem i => on_item i (fun t => ListItem (xItemValue t) (pxNext t) v (pvOwner t) (pxContainer t))
  | PEnd l => on_end l (fun t => MiniListItem (m_xItemValue t) (m_pxNext t) v)
  end.
Definition put_value (i : I) (v : Z) : lmem -> lmem :=
  on_item i (fun t => ListItem v (pxNext t) (pxPrevious t) (pvOwner t) (pxContainer t)).
Definition put_owner (i : I) (v : Z) : lmem -> lmem :=
  on_item i (fun t => ListItem (xItemValue t) (pxNext t) (pxPrevious t) v (pxContainer t)).
Definition put_container (i : I) (v : option L) : lmem -> lmem :=
  on_item i (fun t => ListItem (xItemValue t) (pxNext t) (pxPrevious t) (pvOwner t) v).
Definition put_index (l : L) (v : option ptr) : lmem -> lmem :=
  on_list l (fun t => MkList (uxNumberOfItems t) v (xListEnd t)).
Definition put_count (l : L) (v : Z) : lmem -> lmem :=
  on_list l (fun t => MkList v (pxIndex t) (xListEnd t)).

(** Loads and stores; a store needs the object to exist. *)
Definition ld_value (p : ptr) : M lmem Z := get_opt (fun m => value_of m p).
Definition ld_next (p : ptr) : M lmem (option ptr) := get_opt (fun m => next_of m p).
Definition ld_prev (p : ptr) : M lmem (option ptr) := get_opt (fun m => prev_of m p).
Definition ld_owner (p : ptr) : M lmem Z := get_opt (fun m => owner_of m p).
Definition ld_container (i : I) : M lmem (option L) := get_opt (fun m => container_of m i).
Definition ld_index (l : L) : M lmem (option ptr) := get_opt (fun m => index_of m l).
Definition ld_count (l : L) : M lmem Z := get_opt (fun m => count_of m l).
Definition st_next (p : ptr) (v : option ptr) : M lmem unit := _ ← ld_next p; modify (put_next p v).
Definition st_prev (p : ptr) (v : option ptr) : M lmem unit := _ ← ld_prev p; modify (put_prev p v).
Definition st_value (i : I) (v : Z) : M lmem unit := _ ← ld_container i; modify (put_value i v).
Definition st_owner (i : I) (v : Z) : M lmem unit := _ ← ld_container i; modify (put_owner i v).
Definition st_container (i : I) (v : option L) : M lmem unit := _ ← ld_container i; modify (put_container i v).
Definition st_index (l : L) (v : option ptr) : M lmem unit := _ ← ld_index l; modify (put_index l v).
Definition st_count (l : L) (v : Z) : M lmem unit := _ ← ld_count l; modify (put_count l v).

(** ** Operations (list.c) *)

(** Initialisation writes every member of the caller's storage. *)
Definition vListInitialise (pxList : L) : M lmem unit :=
  modify (fun m => LMem (items m)
    (<[pxList := MkList 0 (Some (PEnd pxList))
                   (MiniListItem portMAX_DELAY (Some (PEnd pxList)) (Some (PEnd pxList)))]> (lists m))).

Definition vListInitialiseItem (pxItem : I) : M lmem unit :=
  modify (fun m => LMem (<[pxItem := ListItem 0 None None 0 None]> (items m)) (lists m)).

Definition vListInsertEnd (pxList : L) (pxNewListItem : I) : M lmem unit :=
  let new := PItem pxNewListItem in
  idx ← ld_index pxList;
  pxIndex ← of_opt idx;
  st_next new (Some pxIndex);;
  pv ← ld_prev pxIndex;
  st_prev new pv;;
  pv ← ld_prev pxIndex;
  before ← of_opt pv;
  st_next before (Some new);;
  st_prev pxIndex (Some new);;
  st_container pxNewListItem (Some pxList);;
  n ← ld_count pxList;
  st_count pxList (u64 (n + 1)).

(** The walk of [vListInsert]: stops at the first successor with a larger value. *)
Fixpoint insert_walk (fuel : nat) (pxIterator : ptr) (xValueOfInsertion : Z) : M lmem ptr :=
  match fuel with
  | O => fails
  | S fuel =>
      nx ← ld_next pxIterator;
      nextp ← of_opt nx;
      v ← ld_value nextp;
      if v <=? xValueOfInsertion then insert_walk fuel nextp xValueOfInsertion
      else mret pxIterator
  end.

Definition vListInsert (pxList : L) (pxNewListItem : I) : M lmem unit :=
  let new := PItem pxNewListItem in
  xValueOfInsertion ← ld_value new;
  fuel ← gets (fun m => S (size (items m)));
  pxIterator ←
    (if xValueOfInsertion =? portMAX_DELAY then pv ← ld_prev (PEnd pxList); of_opt pv
     else insert_walk fuel (PEnd pxList) xValueOfInsertion);
  nx ← ld_next pxIterator;
  st_next new nx;;
  nx ← ld_next new;
  nextp ← of_opt nx;
  st_prev nextp (Some new);;
  st_prev new (Some pxIterator);;
  st_next pxIterator (Some new);;
  st_container pxNewListItem (Some pxList);;
  n ← ld_count pxList;
  st_count pxList (u64 (n + 1)).

Definition uxListRemove (pxItemToRemove : I) : M lmem Z :=
  let it := PItem pxItemToRemove in
  c ← ld_container pxItemToRemove;
  pxList ← of_opt c;
  nx ← ld_next it; pv ← ld_prev it;
  nextp ← of_opt nx; st_prev nextp pv;;
  nx ← ld_next it; pv ← ld_prev it;
  prevp ← of_opt pv; st_next prevp nx;;
  idx ← ld_index pxList;
  (if bool_decide (idx = Some it)
   then pv ← ld_prev it; st_index pxList pv
   else mret tt);;
  st_container pxItemToRemove None;;
  n ← ld_count pxList;
  st_count pxList (u64 (n - 1));;
  ld_count pxList.

(** ** Accessor macros (list.h) *)

Definition listSET_LIST_ITEM_OWNER (pxItem : I) (pxOwner : Z) : M lmem unit := st_owner pxItem pxOwner.
Definition listGET_LIST_ITEM_OWNER (p : ptr) : M lmem Z := ld_owner p.
Definition listSET_LIST_ITEM_VALUE (pxItem : I) (xValue : Z) : M lmem unit := st_value pxItem xValue.
Definition listGET_LIST_ITEM_VALUE (p : ptr) : M lmem Z := ld_value p.
Definition listGET_HEAD_ENTRY (pxList : L) : M lmem ptr := nx ← ld_next (PEnd pxList); of_opt nx.
Definition listGET_ITEM_VALUE_OF_HEAD_ENTRY (pxList : L) : M lmem Z :=
  h ← listGET_HEAD_ENTRY pxList; ld_value h.
Definition listLIST_IS_EMPTY (pxList : L) : M lmem Z :=
  n ← ld_count pxList; mret (if n =? 0 then pdTRUE else pdFALSE).
Definition listCURRENT_LIST_LENGTH (pxList : L) : M lmem Z := ld_count pxList.
Definition listGET_LIST_ITEM_CONTAINER (pxItem : I) : M lmem (option L) := ld_container pxItem.
Definition listIS_CONTAINED_WITHIN (pxList : L) (pxItem : I) : M lmem Z :=
  c ← ld_container pxItem; mret (if bool_decide (c = Some pxList) then pdTRUE else pdFALSE).

Definition listGET_OWNER_OF_NEXT_ENTRY (pxList : L) : M lmem Z :=
  idx ← ld_index pxList;
  p ← of_opt idx;
  nx ← ld_next p;
  st_index pxList nx;;
  idx ← ld_index pxList;
  (if bool_decide (idx = Some (PEnd pxList))
   then p ← of_opt idx; nx ← ld_next p; st_index pxList nx
   else mret tt);;
  idx ← ld_index pxList;
  p ← of_opt idx;
  ld_owner p.

End lists.

Arguments ptr : clear implicits.
Arguments ListItem_t : clear implicits.
Arguments List_t : clear implicits.
Arguments lmem I L {_ _ _ _}.
#[global] Arguments value_of : simpl never.
#[global] Arguments next_of : simpl never.
#[global] Arguments prev_of : simpl never.
#[global] Arguments owner_of : simpl never.
#[global] Arguments container_of : simpl never.
#[global] Arguments index_of : simpl never.
#[global] Arguments count_of : simpl never.
#[global] Arguments put_next : simpl never.
#[global] Arguments put_prev : simpl never.
#[global] Arguments put_value : simpl never.
#[global] Arguments put_owner : simpl never.
#[global] Arguments put_container : simpl never.
#[global] Arguments put_index : simpl never.
#[global] Arguments put_count : simpl never.
