(* ===== verification/ListSpec.v ===== *)
(** * Specification and refinement of the kernel lists

    A list is specified by a sequence of items and a cursor ([None] is the
    sentinel); an item by its value, its owner and the list that contains it.
    [lrep m A] says the pointer memory [m] represents the abstract memory [A]:
    each ring is linked in both directions through its items in order, the
    stored count is the length, and the cursor points into the ring.

    [ListImpl] is the interface list.c offers the rest of the kernel; the
    scheduler is written and verified against it, and this file discharges it
    for the pointer implementation. *)

From S2P Require Import Prelude Config Lists.

(** ** Abstract memory *)

Record aitem (L : Type) := AItem { a_value : Z; a_owner : Z; a_container : option L }.
Arguments AItem {_} _ _ _.
Arguments a_value {_} _.
Arguments a_owner {_} _.
Arguments a_container {_} _.

Record amem (I L : Type) `{Countable I} `{Countable L} :=
  AMem { am_items : gmap I (aitem L); am_lists : gmap L (list I * option I) }.
Arguments AMem {_ _ _ _ _ _} _ _.
Arguments am_items {_ _ _ _ _ _} _.
Arguments am_lists {_ _ _ _ _ _} _.

(** ** Sequence operations *)

Section sequences.
Context {I : Type} `{EqDecision I}.
Implicit Types (i j : I) (xs ys zs : list I).

(** Insert before [j], at the end when there is no [j]. *)
Fixpoint insert_before (j i : I) (xs : list I) : list I :=
  match xs with
  | [] => [i]
  | x :: xs => if decide (x = j) then i :: x :: xs else x :: insert_before j i xs
  end.

Definition insert_end (cur : option I) (i : I) (xs : list I) : list I :=
  match cur with None => xs ++ [i] | Some j => insert_before j i xs end.

(** Ordered insert: after the leading items whose value is at most [v]. *)
Fixpoint insert_sorted (val : I -> Z) (v : Z) (i : I) (xs : list I) : list I :=
  match xs with
  | [] => [i]
  | x :: xs => if val x <=? v then x :: insert_sorted val v i xs else i :: x :: xs
  end.

Fixpoint remove1 (i : I) (xs : list I) : list I :=
  match xs with
  | [] => []
  | x :: xs => if decide (x = i) then xs else x :: remove1 i xs
  end.

(** The item before [i], [None] when [i] is first. *)
Fixpoint pred_from (p : option I) (i : I) (xs : list I) : option I :=
  match xs with
  | [] => None
  | x :: xs => if decide (x = i) then p else pred_from (Some x) i xs
  end.
Definition pred_in (i : I) (xs : list I) : option I := pred_from None i xs.

(** The item after [i], [None] when [i] is last. *)
Fixpoint succ_in (i : I) (xs : list I) : option I :=
  match xs with
  | [] => None
  | x :: xs => if decide (x = i) then head xs else succ_in i xs
  end.

(** Advance the cursor, skipping the sentinel. *)
Definition next_cursor (cur : option I) (xs : list I) : option I :=
  match cur with
  | None => head xs
  | Some j => match succ_in j xs with Some k => Some k | None => head xs end
  end.

Lemma insert_before_split j i ys zs :
  j ∉ ys -> insert_before j i (ys ++ j :: zs) = ys ++ i :: j :: zs.
Proof.
  induction ys as [|y ys IH]; simpl; intros Hj; [by rewrite decide_True|].
  apply not_elem_of_cons in Hj as [? ?]. rewrite decide_False by done. by rewrite IH.
Qed.

Lemma remove1_split i ys zs : i ∉ ys -> remove1 i (ys ++ i :: zs) = ys ++ zs.
Proof.
  induction ys as [|y ys IH]; simpl; intros Hi; [by rewrite decide_True|].
  apply not_elem_of_cons in Hi as [? ?]. rewrite decide_False by done. by rewrite IH.
Qed.

Lemma pred_from_split p i ys zs :
  i ∉ ys -> pred_from p i (ys ++ i :: zs) = match last ys with Some y => Some y | None => p end.
Proof.
  revert p. induction ys as [|y ys IH]; simpl; intros p Hi; [by rewrite decide_True|].
  apply not_elem_of_cons in Hi as [? ?]. rewrite decide_False by done. rewrite IH by done.
  destruct ys; [done|]. by destruct (last (_ :: _)) eqn:E; [|apply last_None in E].
Qed.

Lemma pred_in_split i ys zs : i ∉ ys -> pred_in i (ys ++ i :: zs) = last ys.
Proof. intros. unfold pred_in. rewrite pred_from_split by done. by destruct (last ys). Qed.

Lemma succ_in_split i ys zs : i ∉ ys -> succ_in i (ys ++ i :: zs) = head zs.
Proof.
  induction ys as [|y ys IH]; simpl; intros Hi; [by rewrite decide_True|].
  apply not_elem_of_cons in Hi as [? ?]. rewrite decide_False by done. by apply IH.
Qed.

Lemma elem_of_split_first i xs : i ∈ xs -> exists ys zs, xs = ys ++ i :: zs /\ i ∉ ys.
Proof. intros Hi. by apply list_elem_of_split_l in Hi. Qed.

Lemma insert_before_perm j i xs : insert_before j i xs ≡ₚ i :: xs.
Proof.
  induction xs as [|x xs IH]; simpl; [done|]. case_decide; [done|]. rewrite IH. by constructor.
Qed.
Lemma insert_end_perm cur i xs : insert_end cur i xs ≡ₚ i :: xs.
Proof. destruct cur; simpl; [apply insert_before_perm|]. by rewrite Permutation_app_comm. Qed.
Lemma insert_sorted_perm val v i xs : insert_sorted val v i xs ≡ₚ i :: xs.
Proof.
  induction xs as [|x xs IH]; simpl; [done|]. destruct (_ <=? _); [|done]. rewrite IH. by constructor.
Qed.
Lemma remove1_perm i xs : i ∈ xs -> xs ≡ₚ i :: remove1 i xs.
Proof.
  intros (ys & zs & -> & Hi)%elem_of_split_first. rewrite remove1_split by done.
  by rewrite Permutation_middle.
Qed.
Lemma remove1_not_in i xs : i ∉ xs -> remove1 i xs = xs.
Proof.
  induction xs as [|x xs IH]; simpl; [done|]. intros [? ?]%not_elem_of_cons.
  rewrite decide_False by done. by rewrite IH.
Qed.
Lemma elem_of_remove1 i j xs : NoDup xs -> j ∈ remove1 i xs <-> j ∈ xs /\ j <> i.
Proof.
  intros Hnd. destruct (decide (i ∈ xs)) as [Hi|Hi].
  - pose proof (remove1_perm i xs Hi) as Hp. rewrite Hp in Hnd.
    apply NoDup_cons in Hnd as [Hn _]. rewrite Hp at 2. rewrite elem_of_cons. split.
    + intros Hj. split; [by right|]. by intros ->.
    + by intros [ [->|?] ?].
  - rewrite remove1_not_in by done. split; [|by intros [? _]]. intros Hj. split; [done|]. by intros ->.
Qed.

(** Where the ordered insert goes: after exactly the leading items at most [v]. *)
Lemma insert_sorted_split val v i xs :
  exists ys zs, xs = ys ++ zs /\ insert_sorted val v i xs = ys ++ i :: zs /\
    Forall (fun y => val y <= v) ys /\ (forall z, head zs = Some z -> v < val z).
Proof.
  induction xs as [|x xs IH]; simpl.
  - exists [], []. by repeat constructor.
  - destruct (Z.leb_spec (val x) v).
    + destruct IH as (ys & zs & -> & -> & Hys & Hzs). exists (x :: ys), zs. repeat split; try done. by constructor.
    + exists [], (x :: xs). repeat split; [constructor|]. intros z [= <-]. done.
Qed.
End sequences.

(** ** Field access laws *)

Section access.
Context {I L : Type} `{Countable I} `{Countable L}.
Implicit Types (m : lmem I L).

Ltac acc :=
  intros;
  repeat match goal with p : ptr _ _ |- _ => destruct p end;
  unfold next_of, prev_of, value_of, owner_of, container_of, index_of, count_of,
    put_next, put_prev, put_value, put_owner, put_container, put_index, put_count, on_end, on_item, on_list;
  simpl; rewrite ?lookup_alter; repeat case_decide; simplify_eq; try done;
  repeat match goal with |- context [?m !! ?k] => destruct (m !! k); simpl end; done.

Lemma next_put_next p v m q : next_of (put_next p v m) q =
  if decide (q = p) then (fun _ => v) <$> next_of m q else next_of m q.
Proof. acc. Qed.
Lemma prev_put_next p v m q : prev_of (put_next p v m) q = prev_of m q.
Proof. acc. Qed.
Lemma value_put_next p v m q : value_of (put_next p v m) q = value_of m q.
Proof. acc. Qed.
Lemma owner_put_next p v m q : owner_of (put_next p v m) q = owner_of m q.
Proof. acc. Qed.
Lemma container_put_next p v m q : container_of (put_next p v m) q = container_of m q.
Proof. acc. Qed.
Lemma index_put_next p v m q : index_of (put_next p v m) q = index_of m q.
Proof. acc. Qed.
Lemma count_put_next p v m q : count_of (put_next p v m) q = count_of m q.
Proof. acc. Qed.
Lemma next_put_prev p v m q : next_of (put_prev p v m) q = next_of m q.
Proof. acc. Qed.
Lemma prev_put_prev p v m q : prev_of (put_prev p v m) q =
  if decide (q = p) then (fun _ => v) <$> prev_of m q else prev_of m q.
Proof. acc. Qed.
Lemma value_put_prev p v m q : value_of (put_prev p v m) q = value_of m q.
Proof. acc. Qed.
Lemma owner_put_prev p v m q : owner_of (put_prev p v m) q = owner_of m q.
Proof. acc. Qed.
Lemma container_put_prev p v m q : container_of (put_prev p v m) q = container_of m q.
Proof. acc. Qed.
Lemma index_put_prev p v m q : index_of (put_prev p v m) q = index_of m q.
Proof. acc. Qed.
Lemma count_put_prev p v m q : count_of (put_prev p v m) q = count_of m q.
Proof. acc. Qed.
Lemma next_put_value p v m q : next_of (put_value p v m) q = next_of m q.
Proof. acc. Qed.
Lemma prev_put_value p v m q : prev_of (put_value p v m) q = prev_of m q.
Proof. acc. Qed.
Lemma value_put_value p v m q : value_of (put_value p v m) q =
  if decide (q = PItem p) then (fun _ => v) <$> value_of m q else value_of m q.
Proof. acc. Qed.
Lemma owner_put_value p v m q : owner_of (put_value p v m) q = owner_of m q.
Proof. acc. Qed.
Lemma container_put_value p v m q : container_of (put_value p v m) q = container_of m q.
Proof. acc. Qed.
Lemma index_put_value p v m q : index_of (put_value p v m) q = index_of m q.
Proof. acc. Qed.
Lemma count_put_value p v m q : count_of (put_value p v m) q = count_of m q.
Proof. acc. Qed.
Lemma next_put_owner p v m q : next_of (put_owner p v m) q = next_of m q.
Proof. acc. Qed.
Lemma prev_put_owner p v m q : prev_of (put_owner p v m) q = prev_of m q.
Proof. acc. Qed.
Lemma value_put_owner p v m q : value_of (put_owner p v m) q = value_of m q.
Proof. acc. Qed.
Lemma owner_put_owner p v m q : owner_of (put_owner p v m) q =
  if decide (q = PItem p) then (fun _ => v) <$> owner_of m q else owner_of m q.
Proof. acc. Qed.
Lemma container_put_owner p v m q : container_of (put_owner p v m) q = container_of m q.
Proof. acc. Qed.
Lemma index_put_owner p v m q : index_of (put_owner p v m) q = index_of m q.
Proof. acc. Qed.
Lemma count_put_owner p v m q : count_of (put_owner p v m) q = count_of m q.
Proof. acc. Qed.
Lemma next_put_container p v m q : next_of (put_container p v m) q = next_of m q.
Proof. acc. Qed.
Lemma prev_put_container p v m q : prev_of (put_container p v m) q = prev_of m q.
Proof. acc. Qed.
Lemma value_put_container p v m q : value_of (put_container p v m) q = value_of m q.
Proof. acc. Qed.
Lemma owner_put_container p v m q : owner_of (put_container p v m) q = owner_of m q.
Proof. acc. Qed.
Lemma container_put_container p v m q : container_of (put_container p v m) q =
  if decide (q = p) then (fun _ => v) <$> container_of m q else container_of m q.
Proof. acc. Qed.
Lemma index_put_container p v m q : index_of (put_container p v m) q = index_of m q.
Proof. acc. Qed.
Lemma count_put_container p v m q : count_of (put_container p v m) q = count_of m q.
Proof. acc. Qed.
Lemma next_put_index p v m q : next_of (put_index p v m) q = next_of m q.
Proof. acc. Qed.
Lemma prev_put_index p v m q : prev_of (put_index p v m) q = prev_of m q.
Proof. acc. Qed.
Lemma value_put_index p v m q : value_of (put_index p v m) q = value_of m q.
Proof. acc. Qed.
Lemma owner_put_index p v m q : owner_of (put_index p v m) q = owner_of m q.
Proof. acc. Qed.
Lemma container_put_index p v m q : container_of (put_index p v m) q = container_of m q.
Proof. acc. Qed.
Lemma index_put_index p v m q : index_of (put_index p v m) q =
  if decide (q = p) then (fun _ => v) <$> index_of m q else index_of m q.
Proof. acc. Qed.
Lemma count_put_index p v m q : count_of (put_index p v m) q = count_of m q.
Proof. acc. Qed.
Lemma next_put_count p v m q : next_of (put_count p v m) q = next_of m q.
Proof. acc. Qed.
Lemma prev_put_count p v m q : prev_of (put_count p v m) q = prev_of m q.
Proof. acc. Qed.
Lemma value_put_count p v m q : value_of (put_count p v m) q = value_of m q.
Proof. acc. Qed.
Lemma owner_put_count p v m q : owner_of (put_count p v m) q = owner_of m q.
Proof. acc. Qed.
Lemma container_put_count p v m q : container_of (put_count p v m) q = container_of m q.
Proof. acc. Qed.
Lemma index_put_count p v m q : index_of (put_count p v m) q = index_of m q.
Proof. acc. Qed.
Lemma count_put_count p v m q : count_of (put_count p v m) q =
  if decide (q = p) then (fun _ => v) <$> count_of m q else count_of m q.
Proof. acc. Qed.

End access.

Create Rewrite HintDb lmem.
#[export] Hint Rewrite
  @next_put_next @prev_put_next @value_put_next @owner_put_next @container_put_next @index_put_next @count_put_next
  @next_put_prev @prev_put_prev @value_put_prev @owner_put_prev @container_put_prev @index_put_prev @count_put_prev
  @next_put_value @prev_put_value @value_put_value @owner_put_value @container_put_value @index_put_value @count_put_value
  @next_put_owner @prev_put_owner @value_put_owner @owner_put_owner @container_put_owner @index_put_owner @count_put_owner
  @next_put_container @prev_put_container @value_put_container @owner_put_container @container_put_container @index_put_container @count_put_container
  @next_put_index @prev_put_index @value_put_index @owner_put_index @container_put_index @index_put_index @count_put_index
  @next_put_count @prev_put_count @value_put_count @owner_put_count @container_put_count @index_put_count @count_put_count : lmem.

(** ** Rings *)

Section links.
Context {A : Type}.
Implicit Types (ps qs : list A).

(** The consecutive pairs of a sequence. *)
Fixpoint links (ps : list A) : list (A * A) :=
  match ps with
  | a :: ((b :: _) as r) => (a, b) :: links r
  | _ => []
  end.

Lemma links_app ps qs a b :
  last ps = Some a -> head qs = Some b -> links (ps ++ qs) = links ps ++ (a, b) :: links qs.
Proof.
  intros Ha Hb. destruct qs as [|b' qs]; simplify_eq/=.
  induction ps as [|p ps IH]; [done|]. destruct ps as [|p' ps]; simplify_eq/=; [done|].
  f_equal. by apply IH.
Qed.

Lemma links_elem ps a b : (a, b) ∈ links ps -> a ∈ ps /\ b ∈ tail ps.
Proof.
  induction ps as [|p ps IH]; simpl; [by intros ?%elem_of_nil|].
  destruct ps as [|q ps]; [by intros ?%elem_of_nil|].
  intros [ [= -> ->] |Hin]%elem_of_cons; [split; by left|].
  apply IH in Hin as [? ?]. simpl in *. split; by right.
Qed.

(** Without repetitions, the last element starts no link and the first ends none. *)
Lemma links_nodup ps a b :
  NoDup ps -> (a, b) ∈ links ps -> a ∈ ps /\ b ∈ ps /\ last ps <> Some a /\ head ps <> Some b.
Proof.
  intros Hnd Hin. pose proof (links_elem _ _ _ Hin) as [Ha Hb].
  repeat split; [done|destruct ps; [by apply elem_of_nil in Hb|by right]| |].
  - clear Ha Hb. induction ps as [|p ps IH]; [by apply elem_of_nil in Hin|].
    destruct ps as [|q ps]; [by apply elem_of_nil in Hin|].
    apply NoDup_cons in Hnd as [Hp Hnd].
    intros Hl. change (last (q :: ps) = Some a) in Hl.
    simpl in Hin. apply elem_of_cons in Hin as [ [= -> ->] |Hin].
    + apply Hp. by apply last_Some_elem_of.
    + by apply IH.
  - destruct ps as [|p ps]; [done|]. apply NoDup_cons in Hnd as [Hp _]. simpl in *. by intros [= ->].
Qed.
End links.

Section rings.
Context {I L : Type} `{Countable I} `{Countable L}.
Implicit Types (m : lmem I L) (ps : list (ptr I L)) (l : L) (i : I) (xs ys zs : list I) (cur : option I).

(** [a] and [b] are adjacent, seen from both sides. *)
Definition lk m (ab : ptr I L * ptr I L) : Prop :=
  next_of m ab.1 = Some (Some ab.2) /\ prev_of m ab.2 = Some (Some ab.1).

Definition linked m ps : Prop := Forall (lk m) (links ps).

Definition curp l cur : ptr I L := match cur with Some i => PItem i | None => PEnd l end.

Definition leftp l ys : list (ptr I L) := PEnd l :: (PItem <$> ys).
Definition rightp l zs : list (ptr I L) := (PItem <$> zs) ++ [PEnd l].

(** The ring of list [l] through the items [xs], opened at the sentinel. *)
Definition ring l xs : list (ptr I L) := leftp l xs ++ [PEnd l].

Lemma ring_app l ys zs : ring l (ys ++ zs) = leftp l ys ++ rightp l zs.
Proof. unfold ring, leftp, rightp. by rewrite fmap_app, <- app_comm_cons, <- app_assoc. Qed.

Lemma last_leftp l ys : last (leftp l ys) = Some (curp l (last ys)).
Proof.
  unfold leftp. induction ys as [|y ys _] using rev_ind; [done|].
  rewrite fmap_app. cbn [fmap list_fmap]. by rewrite app_comm_cons, !last_snoc.
Qed.
Lemma head_rightp l zs : head (rightp l zs) = Some (curp l (head zs)).
Proof. by destruct zs. Qed.

Lemma elem_of_items i xs : PItem i ∈ (PItem <$> xs : list (ptr I L)) <-> i ∈ xs.
Proof. rewrite list_elem_of_fmap. naive_solver. Qed.
Lemma end_not_item l xs : PEnd l ∉ (PItem <$> xs : list (ptr I L)).
Proof. rewrite list_elem_of_fmap. naive_solver. Qed.

Lemma elem_of_ring l xs p :
  p ∈ ring l xs <-> p = PEnd l \/ exists i, p = PItem i /\ i ∈ xs.
Proof.
  unfold ring, leftp. rewrite elem_of_app, elem_of_cons, list_elem_of_fmap, list_elem_of_singleton.
  naive_solver.
Qed.
Lemma elem_of_leftp l xs p :
  p ∈ leftp l xs <-> p = PEnd l \/ exists i, p = PItem i /\ i ∈ xs.
Proof. unfold leftp. rewrite elem_of_cons, list_elem_of_fmap. naive_solver. Qed.
Lemma elem_of_rightp l xs p :
  p ∈ rightp l xs <-> p = PEnd l \/ exists i, p = PItem i /\ i ∈ xs.
Proof. unfold rightp. rewrite elem_of_app, list_elem_of_fmap, list_elem_of_singleton. naive_solver. Qed.

Lemma nodup_items xs : NoDup xs -> NoDup (PItem <$> xs : list (ptr I L)).
Proof. apply NoDup_fmap_2. congruence. Qed.
Lemma nodup_leftp l ys : NoDup ys -> NoDup (leftp l ys).
Proof. intros. constructor; [apply end_not_item|by apply nodup_items]. Qed.
Lemma nodup_rightp l zs : NoDup zs -> NoDup (rightp l zs).
Proof.
  intros. apply NoDup_app. split; [by apply nodup_items|]. split.
  - intros p Hp ->%list_elem_of_singleton. by apply end_not_item in Hp.
  - apply NoDup_singleton.
Qed.

Lemma linked_app m ps qs a b :
  last ps = Some a -> head qs = Some b ->
  linked m (ps ++ qs) <-> linked m ps /\ lk m (a, b) /\ linked m qs.
Proof. intros. unfold linked. by erewrite links_app, Forall_app, Forall_cons by done. Qed.

(** A ring is unaffected by writes to the fields it does not use. *)
Lemma linked_frame m m' ps :
  (forall a b, (a, b) ∈ links ps -> next_of m' a = next_of m a /\ prev_of m' b = prev_of m b) ->
  linked m ps -> linked m' ps.
Proof.
  unfold linked. rewrite !Forall_forall. intros Hf Hl [a b] Hin.
  destruct (Hf a b Hin) as [Hn Hp]. destruct (Hl _ Hin). unfold lk. simpl. by rewrite Hn, Hp.
Qed.

Lemma linked_frame_ring m m' l xs :
  (forall p, p ∈ ring l xs -> next_of m' p = next_of m p /\ prev_of m' p = prev_of m p) ->
  linked m (ring l xs) -> linked m' (ring l xs).
Proof.
  intros Hf. apply linked_frame. intros a b [Ha Hb]%links_elem.
  split; apply Hf; [done|]. destruct (ring l xs); [by apply elem_of_nil in Hb|by right].
Qed.

(** Cutting a ring: the halves survive writes to the two fields at the cut. *)
Lemma ring_cut m m' l ys zs :
  NoDup (ys ++ zs) ->
  (forall p, p ∈ ring l (ys ++ zs) -> p <> curp l (last ys) -> next_of m' p = next_of m p) ->
  (forall p, p ∈ ring l (ys ++ zs) -> p <> curp l (head zs) -> prev_of m' p = prev_of m p) ->
  (linked m (leftp l ys) -> linked m' (leftp l ys)) /\
  (linked m (rightp l zs) -> linked m' (rightp l zs)).
Proof.
  intros (Hy & Hyz & Hz)%NoDup_app Hn Hp.
  assert (Hlast : forall i, last ys = Some i -> i ∈ ys) by (intros; by apply last_Some_elem_of).
  assert (Hhead : forall i, head zs = Some i -> i ∈ zs) by (intros i; destruct zs; [done|intros [= ->]; by left]).
  split; apply linked_frame; intros a b Hab.
  - apply links_nodup in Hab as (Ha & Hb & Hna & Hnb); [|by apply nodup_leftp].
    rewrite last_leftp in Hna. apply elem_of_leftp in Ha, Hb.
    split; [apply Hn|apply Hp]; rewrite ?elem_of_ring; [set_solver|congruence|set_solver|].
    destruct Hb as [->|(j & -> & Hj)]; [by destruct Hnb|]. unfold curp.
    destruct (head zs) eqn:E; [|done]. intros [= ->]. by eapply Hyz, Hhead.
  - apply links_nodup in Hab as (Ha & Hb & Hna & Hnb); [|by apply nodup_rightp].
    rewrite head_rightp in Hnb. unfold rightp in Hna. rewrite last_snoc in Hna.
    apply elem_of_rightp in Ha, Hb.
    split; [apply Hn|apply Hp]; rewrite ?elem_of_ring; [set_solver| |set_solver|congruence].
    destruct Ha as [->|(j & -> & Hj)]; [by destruct Hna|]. unfold curp.
    destruct (last ys) eqn:E; [|done]. intros [= ->]. by eapply Hyz; [apply Hlast|].
Qed.

Lemma linked_ring_app m l ys zs :
  linked m (ring l (ys ++ zs)) <->
  linked m (leftp l ys) /\ lk m (curp l (last ys), curp l (head zs)) /\ linked m (rightp l zs).
Proof. rewrite ring_app. apply linked_app; [apply last_leftp|apply head_rightp]. Qed.

Lemma linked_ring_mid m l ys i zs :
  linked m (ring l (ys ++ i :: zs)) <->
  linked m (leftp l ys) /\ lk m (curp l (last ys), PItem i) /\
  lk m (PItem i, curp l (head zs)) /\ linked m (rightp l zs).
Proof.
  rewrite linked_ring_app. change (rightp l (i :: zs)) with ([PItem i] ++ rightp l zs).
  rewrite (linked_app m [PItem i] (rightp l zs) (PItem i) _) by (done || apply head_rightp).
  unfold linked at 2. simpl. rewrite Forall_nil. tauto.
Qed.

(** Linking [i] between two halves of a ring. *)
Lemma ring_insert m m' l ys zs i :
  NoDup (ys ++ zs) -> i ∉ ys ++ zs ->
  (forall p, next_of m' p = if decide (p = PItem i) then Some (Some (curp l (head zs)))
     else if decide (p = curp l (last ys)) then Some (Some (PItem i)) else next_of m p) ->
  (forall p, prev_of m' p = if decide (p = PItem i) then Some (Some (curp l (last ys)))
     else if decide (p = curp l (head zs)) then Some (Some (PItem i)) else prev_of m p) ->
  linked m (ring l (ys ++ zs)) -> linked m' (ring l (ys ++ i :: zs)).
Proof.
  intros Hnd Hi Hn Hp (Hl & _ & Hr)%linked_ring_app.
  assert (Hne : forall p, p ∈ ring l (ys ++ zs) -> p <> PItem i) by (intros p [->|(j & -> & ?)]%elem_of_ring; congruence).
  destruct (ring_cut m m' l ys zs) as [Hl' Hr']; [done| | |].
  - intros p ?%Hne ?. by rewrite Hn, !decide_False by done.
  - intros p ?%Hne ?. by rewrite Hp, !decide_False by done.
  - assert (Hx : curp l (last ys) <> PItem i).
    { apply Hne. rewrite ring_app. apply elem_of_app. left. apply last_Some_elem_of, last_leftp. }
    assert (Hy : curp l (head zs) <> PItem i).
    { apply Hne. rewrite ring_app. apply elem_of_app. right. pose proof (head_rightp l zs).
      destruct (rightp l zs); simplify_eq/=. by left. }
    apply linked_ring_mid. unfold lk; simpl. rewrite !Hn, !Hp.
    repeat (case_decide; try congruence). split_and!; auto.
Qed.

(** Unlinking [i]. *)
Lemma ring_remove m m' l ys zs i :
  NoDup (ys ++ zs) ->
  (forall p, next_of m' p = if decide (p = curp l (last ys)) then Some (Some (curp l (head zs))) else next_of m p) ->
  (forall p, prev_of m' p = if decide (p = curp l (head zs)) then Some (Some (curp l (last ys))) else prev_of m p) ->
  linked m (ring l (ys ++ i :: zs)) -> linked m' (ring l (ys ++ zs)).
Proof.
  intros Hnd Hn Hp (Hl & _ & _ & Hr)%linked_ring_mid.
  destruct (ring_cut m m' l ys zs) as [Hl' Hr']; [done| | |].
  - intros p _ ?. by rewrite Hn, decide_False by done.
  - intros p _ ?. by rewrite Hp, decide_False by done.
  - apply linked_ring_app. unfold lk; simpl. rewrite Hn, Hp, !decide_True by done. auto.
Qed.
End rings.
