(* ===== verification/ListRefine.v ===== *)
(** * list.c refines the sequence specification

    [lrep m A]: the pointer memory [m] represents the abstract memory [A].
    One lemma per operation of list.c and per accessor macro of list.h, each a
    total-correctness statement: from a represented state, under the C
    contract, the operation runs without undefined behaviour and ends in a
    state that represents the specified abstract memory. *)

From S2P Require Import Prelude Config Lists ListSpec.

Section rep.
Context {I L : Type} `{Countable I} `{Countable L}.
Implicit Types (m : lmem I L) (A : amem I L) (l : L) (i : I) (xs ys zs : list I) (cur : option I).

Record list_rep m l xs cur : Prop := {
  lr_count : count_of m l = Some (Z.of_nat (length xs));
  lr_index : index_of m l = Some (Some (curp l cur));
  lr_end : value_of m (PEnd l) = Some portMAX_DELAY;
  lr_ring : linked m (ring l xs) }.

(** Well-formed abstract memories: lists have no repetitions, the cursor is in
    its list, an item is in a list exactly when its container says so, and the
    stored values are 32-bit. *)
Record am_wf A : Prop := {
  wf_nodup : forall l xs cur, am_lists A !! l = Some (xs, cur) -> NoDup xs;
  wf_cur : forall l xs j, am_lists A !! l = Some (xs, Some j) -> j ∈ xs;
  wf_mem : forall l xs cur i, am_lists A !! l = Some (xs, cur) ->
    i ∈ xs <-> exists t, am_items A !! i = Some t /\ a_container t = Some l;
  wf_cont : forall i t l, am_items A !! i = Some t -> a_container t = Some l -> is_Some (am_lists A !! l);
  wf_val : forall i t, am_items A !! i = Some t -> in_u 32 (a_value t);
  wf_size : Z.of_nat (size (am_items A)) < 2 ^ 64 }.

Record lrep m A : Prop := {
  rep_value : forall i, value_of m (PItem i) = a_value <$> am_items A !! i;
  rep_owner : forall i, owner_of m (PItem i) = a_owner <$> am_items A !! i;
  rep_container : forall i, container_of m i = a_container <$> am_items A !! i;
  rep_lists : forall l xs cur, am_lists A !! l = Some (xs, cur) -> list_rep m l xs cur;
  rep_wf : am_wf A }.

(** ** Abstract operations *)

Definition set_container (c : option L) (t : aitem L) : aitem L := AItem (a_value t) (a_owner t) c.
Definition set_value (v : Z) (t : aitem L) : aitem L := AItem v (a_owner t) (a_container t).
Definition set_owner (o : Z) (t : aitem L) : aitem L := AItem (a_value t) o (a_container t).

(** Item [i] enters or leaves list [l], whose sequence becomes [xs]. *)
Definition a_move (c : option L) (l : L) (xs : list I) (cur : option I) (i : I) (A : amem I L) : amem I L :=
  AMem (alter (set_container c) i (am_items A)) (<[l := (xs, cur)]> (am_lists A)).
Definition a_set_value (i : I) (v : Z) (A : amem I L) : amem I L :=
  AMem (alter (set_value v) i (am_items A)) (am_lists A).
Definition a_set_owner (i : I) (o : Z) (A : amem I L) : amem I L :=
  AMem (alter (set_owner o) i (am_items A)) (am_lists A).
Definition a_init_list (l : L) (A : amem I L) : amem I L :=
  AMem (am_items A) (<[l := ([], None)]> (am_lists A)).
Definition a_init_item (i : I) (A : amem I L) : amem I L :=
  AMem (<[i := AItem 0 0 None]> (am_items A)) (am_lists A).
Definition a_set_cursor (l : L) (xs : list I) (cur : option I) (A : amem I L) : amem I L :=
  AMem (am_items A) (<[l := (xs, cur)]> (am_lists A)).

Definition a_val A (i : I) : Z := match am_items A !! i with Some t => a_value t | None => 0 end.

(** ** Well-formedness is preserved *)

Lemma wf_length A l xs cur :
  am_wf A -> am_lists A !! l = Some (xs, cur) -> (length xs <= size (am_items A))%nat.
Proof.
  intros Hwf Hl. rewrite <- size_dom, <- (size_list_to_set (C := gset I) xs) by (by eapply wf_nodup).
  apply subseteq_size. intros j. rewrite elem_of_list_to_set, elem_of_dom.
  intros (t & ? & ?)%(wf_mem A Hwf _ _ _ j Hl). eauto.
Qed.

Lemma wf_length_free A l xs cur i t :
  am_wf A -> am_lists A !! l = Some (xs, cur) -> am_items A !! i = Some t -> i ∉ xs ->
  (S (length xs) <= size (am_items A))%nat.
Proof.
  intros Hwf Hl Hi Hn.
  assert (NoDup (i :: xs)) as Hnd by (constructor; [done|by eapply wf_nodup]).
  rewrite <- size_dom. change (S (length xs)) with (length (i :: xs)).
  rewrite <- (size_list_to_set (C := gset I) (i :: xs)) by done.
  apply subseteq_size. intros j. rewrite elem_of_list_to_set, elem_of_dom, elem_of_cons.
  intros [->|(t' & ? & ?)%(wf_mem A Hwf _ _ _ j Hl)]; eauto.
Qed.

Lemma size_alter_same (f : aitem L -> aitem L) i (g : gmap I (aitem L)) : size (alter f i g) = size g.
Proof. by rewrite <- !size_dom, dom_alter_L. Qed.

Lemma a_move_in_wf A l xs xs' cur cur' i t :
  am_wf A -> am_lists A !! l = Some (xs, cur) -> am_items A !! i = Some t -> a_container t = None ->
  xs' ≡ₚ i :: xs -> (forall j, cur' = Some j -> j ∈ xs') -> am_wf (a_move (Some l) l xs' cur' i A).
Proof.
  intros Hwf Hl Hi Hc Hp Hcur.
  assert (i ∉ xs) as Hn. { intros (t' & ? & ?)%(wf_mem A Hwf _ _ _ i Hl). congruence. }
  constructor; simpl.
  - intros l' xs'' c'. rewrite lookup_insert. case_decide; [|by eapply wf_nodup].
    intros [= <- <-]. rewrite Hp. constructor; [done|by eapply wf_nodup].
  - intros l' xs'' j. rewrite lookup_insert. case_decide; [|by eapply wf_cur].
    intros [= <- ->]. eauto.
  - intros l' xs'' c' j. rewrite lookup_insert, lookup_alter. case_decide; subst.
    + intros [= <- <-]. rewrite Hp, elem_of_cons, (wf_mem A Hwf _ _ _ j Hl). case_decide; subst.
      * rewrite Hi. split; [|intros _; by left]. intros _. by exists (set_container (Some l') t).
      * split; [|intros ?; by right]. by intros [->|].
    + intros Hl'. rewrite (wf_mem A Hwf _ _ _ j Hl'). case_decide; subst; [|done].
      rewrite Hi. simpl. split; [intros (? & ? & ?)|intros (? & [= <-] & [= ?])]; congruence.
  - intros j t' l'. rewrite lookup_insert, lookup_alter. destruct (decide (l = l')); subst; [by eexists|].
    case_decide; subst.
    + rewrite Hi. intros [= <-] [= ?]. congruence.
    + by apply wf_cont.
  - intros j t'. rewrite lookup_alter. case_decide; subst; [|by apply wf_val].
    rewrite Hi. intros [= <-]. simpl. by eapply wf_val.
  - rewrite size_alter_same. by apply wf_size.
Qed.

Lemma a_move_out_wf A l xs xs' cur cur' i t :
  am_wf A -> am_lists A !! l = Some (xs, cur) -> am_items A !! i = Some t -> a_container t = Some l ->
  xs ≡ₚ i :: xs' -> (forall j, cur' = Some j -> j ∈ xs') -> am_wf (a_move None l xs' cur' i A).
Proof.
  intros Hwf Hl Hi Hc Hp Hcur.
  assert (NoDup xs) as Hnd by by eapply wf_nodup. rewrite Hp in Hnd. apply NoDup_cons in Hnd as [Hn Hnd].
  constructor; simpl.
  - intros l' xs'' c'. rewrite lookup_insert. case_decide; [|by eapply wf_nodup]. by intros [= <- <-].
  - intros l' xs'' j. rewrite lookup_insert. case_decide; [|by eapply wf_cur].
    intros [= <- ->]. eauto.
  - intros l' xs'' c' j. rewrite lookup_insert, lookup_alter. case_decide; subst.
    + intros [= <- <-]. pose proof (wf_mem A Hwf _ _ _ j Hl) as Hm. rewrite Hp, elem_of_cons in Hm.
      case_decide; subst.
      * rewrite Hi. split; [done|]. by intros (? & [= <-] & ?).
      * rewrite <- Hm. split; [intros ?; by right|by intros [->|] ].
    + intros Hl'. rewrite (wf_mem A Hwf _ _ _ j Hl'). case_decide; subst; [|done].
      rewrite Hi. simpl. split; [intros (? & ? & ?)|intros (? & [= <-] & [= ?])]; congruence.
  - intros j t' l'. rewrite lookup_insert, lookup_alter. destruct (decide (l = l')); subst; [by eexists|].
    case_decide; subst.
    + rewrite Hi. by intros [= <-] [= ?].
    + by apply wf_cont.
  - intros j t'. rewrite lookup_alter. case_decide; subst; [|by apply wf_val].
    rewrite Hi. intros [= <-]. simpl. by eapply wf_val.
  - rewrite size_alter_same. by apply wf_size.
Qed.

(** Writes that keep every container keep the shape. *)
Lemma a_alter_wf A i (f : aitem L -> aitem L) :
  am_wf A -> (forall t, a_container (f t) = a_container t) ->
  (forall t, am_items A !! i = Some t -> in_u 32 (a_value (f t))) ->
  am_wf (AMem (alter f i (am_items A)) (am_lists A)).
Proof.
  intros Hwf Hc Hv. constructor; simpl.
  - by eapply wf_nodup.
  - by eapply wf_cur.
  - intros l xs cur j Hl. rewrite (wf_mem A Hwf _ _ _ j Hl), lookup_alter. case_decide; subst; [|done].
    destruct (am_items A !! j) as [t|]; simpl; [|naive_solver]. split.
    + intros (? & [= <-] & <-). eauto.
    + intros (? & [= <-] & <-). exists t. by rewrite Hc.
  - intros j t l. rewrite lookup_alter. case_decide; subst; [|by apply wf_cont].
    intros (t' & Ht & ->)%fmap_Some. rewrite Hc. by apply wf_cont with j.
  - intros j t. rewrite lookup_alter. case_decide; subst; [|by apply wf_val].
    intros (t' & Ht & ->)%fmap_Some. by apply Hv.
  - rewrite size_alter_same. by apply wf_size.
Qed.

(** ** Representation lemmas *)

Lemma rep_size m A : lrep m A -> size (items m) = size (am_items A).
Proof.
  intros Hr. rewrite <- !size_dom. f_equal. apply set_eq. intros i. rewrite !elem_of_dom.
  pose proof (rep_container m A Hr i) as Hc. unfold container_of in Hc.
  destruct (items m !! i), (am_items A !! i); simplify_eq/=; split; intros []; by eauto.
Qed.

Lemma rep_nodup m A l xs cur : lrep m A -> am_lists A !! l = Some (xs, cur) -> NoDup xs.
Proof. intros Hr. apply wf_nodup, Hr. Qed.

Lemma rep_fresh m A l xs cur i t :
  lrep m A -> am_lists A !! l = Some (xs, cur) -> am_items A !! i = Some t ->
  a_container t <> Some l -> i ∉ xs.
Proof. intros Hr Hl Hi Hc (t' & ? & ?)%(wf_mem A (rep_wf m A Hr) _ _ _ i Hl). congruence. Qed.

(** Two lists share no node. *)
Lemma rep_disjoint m A l l' xs xs' cur cur' p :
  lrep m A -> am_lists A !! l = Some (xs, cur) -> am_lists A !! l' = Some (xs', cur') -> l <> l' ->
  p ∈ ring l xs -> p ∉ ring l' xs'.
Proof.
  intros Hr Hl Hl' Hne [->|(j & -> & Hj)]%elem_of_ring [|(k & ? & Hk)]%elem_of_ring; simplify_eq.
  apply (wf_mem A (rep_wf m A Hr) _ _ _ _ Hl) in Hj as (? & ? & ?).
  apply (wf_mem A (rep_wf m A Hr) _ _ _ _ Hl') in Hk as (? & ? & ?). congruence.
Qed.

Lemma list_rep_frame m m' l xs cur :
  count_of m' l = count_of m l -> index_of m' l = index_of m l ->
  value_of m' (PEnd l) = value_of m (PEnd l) ->
  (forall p, p ∈ ring l xs -> next_of m' p = next_of m p /\ prev_of m' p = prev_of m p) ->
  list_rep m l xs cur -> list_rep m' l xs cur.
Proof.
  intros Hc Hi Hv Hf []. constructor; [by rewrite Hc|by rewrite Hi|by rewrite Hv|].
  by eapply linked_frame_ring.
Qed.

(** A new item between two halves of a list. *)
Lemma lrep_insert m m' A l ys zs cur i t :
  lrep m A -> am_lists A !! l = Some (ys ++ zs, cur) ->
  am_items A !! i = Some t -> a_container t = None ->
  (forall p, next_of m' p = if decide (p = PItem i) then Some (Some (curp l (head zs)))
     else if decide (p = curp l (last ys)) then Some (Some (PItem i)) else next_of m p) ->
  (forall p, prev_of m' p = if decide (p = PItem i) then Some (Some (curp l (last ys)))
     else if decide (p = curp l (head zs)) then Some (Some (PItem i)) else prev_of m p) ->
  (forall p, value_of m' p = value_of m p) -> (forall p, owner_of m' p = owner_of m p) ->
  (forall j, container_of m' j = if decide (j = i) then Some (Some l) else container_of m j) ->
  (forall k, index_of m' k = index_of m k) ->
  (forall k, count_of m' k = if decide (k = l) then Some (Z.of_nat (S (length (ys ++ zs)))) else count_of m k) ->
  lrep m' (a_move (Some l) l (ys ++ i :: zs) cur i A).
Proof.
  intros Hr Hl Hi Hc Hn Hp Hv Ho Hcont Hidx Hcnt.
  assert (i ∉ ys ++ zs) as Hnot by (by eapply rep_fresh; [..|rewrite Hc]).
  assert (Hx : curp l (last ys) ∈ ring l (ys ++ zs)).
  { rewrite ring_app. apply elem_of_app. left. apply last_Some_elem_of, last_leftp. }
  assert (Hy : curp l (head zs) ∈ ring l (ys ++ zs)).
  { rewrite ring_app. apply elem_of_app. right. by apply head_Some_elem_of, head_rightp. }
  constructor; simpl.
  - intros j. rewrite Hv, (rep_value m A Hr), lookup_alter. case_decide; subst; [|done].
    by destruct (am_items A !! _).
  - intros j. rewrite Ho, (rep_owner m A Hr), lookup_alter. case_decide; subst; [|done].
    by destruct (am_items A !! _).
  - intros j. rewrite Hcont, lookup_alter. repeat case_decide; simplify_eq; [by rewrite Hi|].
    apply (rep_container m A Hr).
  - intros k xs' cur'. rewrite lookup_insert. case_decide; subst.
    + intros [= <- <-]. destruct (rep_lists m A Hr _ _ _ Hl). constructor.
      * rewrite Hcnt, decide_True, !length_app by done. simpl. by rewrite Nat.add_succ_r.
      * by rewrite Hidx.
      * by rewrite Hv.
      * eapply ring_insert; [by eapply rep_nodup|done..].
    + intros Hk. eapply list_rep_frame; [| | | |by eapply rep_lists].
      * by rewrite Hcnt, decide_False by done.
      * done.
      * done.
      * intros p Hpk. assert (p ∉ ring l (ys ++ zs)) by (eapply rep_disjoint; [..|exact Hpk]; done).
        assert (p <> PItem i).
        { intros ->. apply elem_of_ring in Hpk as [|(? & [= <-] & Hin)]; [done|].
          eapply rep_fresh in Hin; [done|done..|]. congruence. }
        rewrite Hn, Hp. repeat case_decide; simplify_eq; done.
  - eapply a_move_in_wf; [apply Hr|done..| |].
    + by rewrite Permutation_middle.
    + intros j ->. rewrite <- Permutation_middle. right. by eapply wf_cur; [apply Hr|].
Qed.

(** An item leaves its list. *)
Lemma lrep_remove m m' A l ys zs cur cur' i t :
  lrep m A -> am_lists A !! l = Some (ys ++ i :: zs, cur) ->
  am_items A !! i = Some t -> a_container t = Some l ->
  (forall p, next_of m' p = if decide (p = curp l (last ys)) then Some (Some (curp l (head zs))) else next_of m p) ->
  (forall p, prev_of m' p = if decide (p = curp l (head zs)) then Some (Some (curp l (last ys))) else prev_of m p) ->
  (forall p, value_of m' p = value_of m p) -> (forall p, owner_of m' p = owner_of m p) ->
  (forall j, container_of m' j = if decide (j = i) then Some None else container_of m j) ->
  (forall k, index_of m' k = if decide (k = l) then Some (Some (curp l cur')) else index_of m k) ->
  (forall k, count_of m' k = if decide (k = l) then Some (Z.of_nat (length (ys ++ zs))) else count_of m k) ->
  (forall j, cur' = Some j -> j ∈ ys ++ zs) ->
  lrep m' (a_move None l (ys ++ zs) cur' i A).
Proof.
  intros Hr Hl Hi Hc Hn Hp Hv Ho Hcont Hidx Hcnt Hcur.
  assert (Hnd : NoDup (i :: ys ++ zs)) by (rewrite Permutation_middle; by eapply rep_nodup).
  apply NoDup_cons in Hnd as [Hnot Hnd].
  assert (Hsub : forall p, p ∈ ring l (ys ++ zs) -> p ∈ ring l (ys ++ i :: zs)).
  { intros p. rewrite !elem_of_ring. intros [|(j & -> & Hj)]; [by left|right].
    exists j. split; [done|]. rewrite <- Permutation_middle. by right. }
  assert (Hx : curp l (last ys) ∈ ring l (ys ++ i :: zs)).
  { apply Hsub. rewrite ring_app. apply elem_of_app. left. apply last_Some_elem_of, last_leftp. }
  assert (Hy : curp l (head zs) ∈ ring l (ys ++ i :: zs)).
  { apply Hsub. rewrite ring_app. apply elem_of_app. right. by apply head_Some_elem_of, head_rightp. }
  constructor; simpl.
  - intros j. rewrite Hv, (rep_value m A Hr), lookup_alter. case_decide; subst; [|done].
    by destruct (am_items A !! _).
  - intros j. rewrite Ho, (rep_owner m A Hr), lookup_alter. case_decide; subst; [|done].
    by destruct (am_items A !! _).
  - intros j. rewrite Hcont, lookup_alter. repeat case_decide; simplify_eq; [by rewrite Hi|].
    apply (rep_container m A Hr).
  - intros k xs' c'. rewrite lookup_insert. case_decide; subst.
    + intros [= <- <-]. destruct (rep_lists m A Hr _ _ _ Hl). constructor.
      * by rewrite Hcnt, decide_True by done.
      * by rewrite Hidx, decide_True by done.
      * by rewrite Hv.
      * by eapply ring_remove.
    + intros Hk. eapply list_rep_frame; [| | | |by eapply rep_lists].
      * by rewrite Hcnt, decide_False by done.
      * by rewrite Hidx, decide_False by done.
      * done.
      * intros p Hpk. assert (p ∉ ring l (ys ++ i :: zs)) by (eapply rep_disjoint; [..|exact Hpk]; done).
        rewrite Hn, Hp. repeat case_decide; simplify_eq; done.
  - eapply a_move_out_wf; [apply Hr|done..| |done]. by rewrite Permutation_middle.
Qed.
End rep.

(** ** Symbolic execution of the pointer code *)

Section exec.
Context {I L : Type} `{Countable I} `{Countable L}.
Implicit Types (m : lmem I L) (A : amem I L) (l : L) (i : I) (xs ys zs : list I) (cur : option I).

Lemma wp_st_next p v (Q : unit -> lmem I L -> Prop) m :
  is_Some (next_of m p) -> Q tt (put_next p v m) -> wp (st_next p v) Q m.
Proof. intros [? ?] ?. apply wp_bind. by eapply wp_get_opt; [|apply wp_modify]. Qed.
Lemma wp_st_prev p v (Q : unit -> lmem I L -> Prop) m :
  is_Some (prev_of m p) -> Q tt (put_prev p v m) -> wp (st_prev p v) Q m.
Proof. intros [? ?] ?. apply wp_bind. by eapply wp_get_opt; [|apply wp_modify]. Qed.
Lemma wp_st_value i v (Q : unit -> lmem I L -> Prop) m :
  is_Some (container_of m i) -> Q tt (put_value i v m) -> wp (st_value i v) Q m.
Proof. intros [? ?] ?. apply wp_bind. by eapply wp_get_opt; [|apply wp_modify]. Qed.
Lemma wp_st_owner i v (Q : unit -> lmem I L -> Prop) m :
  is_Some (container_of m i) -> Q tt (put_owner i v m) -> wp (st_owner i v) Q m.
Proof. intros [? ?] ?. apply wp_bind. by eapply wp_get_opt; [|apply wp_modify]. Qed.
Lemma wp_st_container i v (Q : unit -> lmem I L -> Prop) m :
  is_Some (container_of m i) -> Q tt (put_container i v m) -> wp (st_container i v) Q m.
Proof. intros [? ?] ?. apply wp_bind. by eapply wp_get_opt; [|apply wp_modify]. Qed.
Lemma wp_st_index l v (Q : unit -> lmem I L -> Prop) m :
  is_Some (index_of m l) -> Q tt (put_index l v m) -> wp (st_index l v) Q m.
Proof. intros [? ?] ?. apply wp_bind. by eapply wp_get_opt; [|apply wp_modify]. Qed.
Lemma wp_st_count l v (Q : unit -> lmem I L -> Prop) m :
  is_Some (count_of m l) -> Q tt (put_count l v m) -> wp (st_count l v) Q m.
Proof. intros [? ?] ?. apply wp_bind. by eapply wp_get_opt; [|apply wp_modify]. Qed.

(** Every field of an item that exists can be read and written. *)
Lemma rep_item_fields m A i t :
  lrep m A -> am_items A !! i = Some t ->
  is_Some (next_of m (PItem i)) /\ is_Some (prev_of m (PItem i)) /\ is_Some (container_of m i).
Proof.
  intros Hr Hi. pose proof (rep_container m A Hr i) as Hc. rewrite Hi in Hc.
  unfold next_of, prev_of, container_of in *. destruct (items m !! i); [|done]. simpl. eauto.
Qed.
End exec.

(** Reads the fields of the current memory: pushes the accessor through the
    stores, decides the pointer comparisons, and uses the known fields. *)
Ltac lm_read :=
  autorewrite with lmem; repeat (case_decide; try congruence);
  repeat match goal with
    | H : ?f ?m ?p = Some _ |- context [?f ?m ?p] => rewrite H
    end; cbn [fmap option_fmap option_map is_Some]; eauto.

Ltac lm_step :=
  lazymatch goal with
  | |- wp (ld_value _) _ _ => eapply wp_get_opt; [solve [lm_read]|]
  | |- wp (ld_next _) _ _ => eapply wp_get_opt; [solve [lm_read]|]
  | |- wp (ld_prev _) _ _ => eapply wp_get_opt; [solve [lm_read]|]
  | |- wp (ld_owner _) _ _ => eapply wp_get_opt; [solve [lm_read]|]
  | |- wp (ld_container _) _ _ => eapply wp_get_opt; [solve [lm_read]|]
  | |- wp (ld_index _) _ _ => eapply wp_get_opt; [solve [lm_read]|]
  | |- wp (ld_count _) _ _ => eapply wp_get_opt; [solve [lm_read]|]
  | |- wp (st_value _ _) _ _ => apply wp_st_value; [solve [lm_read]|]
  | |- wp (st_next _ _) _ _ => apply wp_st_next; [solve [lm_read]|]
  | |- wp (st_prev _ _) _ _ => apply wp_st_prev; [solve [lm_read]|]
  | |- wp (st_owner _ _) _ _ => apply wp_st_owner; [solve [lm_read]|]
  | |- wp (st_container _ _) _ _ => apply wp_st_container; [solve [lm_read]|]
  | |- wp (st_index _ _) _ _ => apply wp_st_index; [solve [lm_read]|]
  | |- wp (st_count _ _) _ _ => apply wp_st_count; [solve [lm_read]|]
  | _ => wp_step
  end.
Ltac lm_steps := repeat (lm_step; cbn beta).

Section ops.
Context {I L : Type} `{Countable I} `{Countable L}.
Implicit Types (m : lmem I L) (A : amem I L) (l : L) (i : I) (xs ys zs : list I) (cur : option I).

Lemma insert_end_split cur i xs :
  (forall j, cur = Some j -> j ∈ xs) ->
  exists ys zs, xs = ys ++ zs /\ cur = head zs /\ insert_end cur i xs = ys ++ i :: zs.
Proof.
  intros Hc. destruct cur as [j|].
  - destruct (elem_of_split_first j xs) as (ys & zs & -> & Hj); [by apply Hc|].
    exists ys, (j :: zs). simpl. by rewrite insert_before_split.
  - exists xs, []. by rewrite app_nil_r.
Qed.

Lemma cut_not_item l ys zs i :
  i ∉ ys ++ zs -> curp l (last ys) <> PItem i /\ curp l (head zs) <> PItem i.
Proof.
  rewrite not_elem_of_app. intros [Hy Hz]. unfold curp. split.
  - destruct (last ys) eqn:E; [|done]. apply last_Some_elem_of in E. congruence.
  - destruct (head zs) eqn:E; [|done]. apply head_Some_elem_of in E. congruence.
Qed.

Lemma rep_count_succ m A l xs cur i t :
  lrep m A -> am_lists A !! l = Some (xs, cur) -> am_items A !! i = Some t -> i ∉ xs ->
  u64 (Z.of_nat (length xs) + 1) = Z.of_nat (S (length xs)).
Proof.
  intros Hr Hl Hi Hn. pose proof (wf_length_free A l xs cur i t (rep_wf _ _ Hr) Hl Hi Hn).
  pose proof (wf_size A (rep_wf _ _ Hr)). rewrite wrapu_small; unfold in_u; lia.
Qed.

Ltac lm_final := intros; autorewrite with lmem; repeat (case_decide; simplify_eq); lm_read; try done.

Lemma wp_vListInsertEnd m A l xs cur i t :
  lrep m A -> am_lists A !! l = Some (xs, cur) -> am_items A !! i = Some t -> a_container t = None ->
  wp (vListInsertEnd l i) (fun _ m' => lrep m' (a_move (Some l) l (insert_end cur i xs) cur i A)) m.
Proof.
  intros Hr Hl Hi Hc.
  destruct (insert_end_split cur i xs) as (ys & zs & -> & Hcur & ->).
  { intros j ->. by eapply wf_cur; [apply Hr|]. }
  pose proof (rep_lists m A Hr _ _ _ Hl) as [Hcnt Hidx _ Hring].
  apply linked_ring_app in Hring as (_ & [Hxy Hyx] & _). cbn in Hxy, Hyx. rewrite Hcur in Hidx.
  destruct (rep_item_fields m A i t Hr Hi) as ([? Hin] & [? Hip] & [? Hic]).
  assert (i ∉ ys ++ zs) as Hnot by (by eapply rep_fresh; [..|rewrite Hc]).
  destruct (cut_not_item l ys zs i Hnot) as [Hxi Hyi].
  pose proof (rep_count_succ m A _ _ _ i t Hr Hl Hi Hnot) as Hs.
  unfold vListInsertEnd. lm_steps. rewrite Hs. eapply lrep_insert; [done..| | | | | | |]; lm_final.
Qed.

(** The walk stops where the specification inserts. *)
Lemma wp_insert_walk m A l xs cur i v fuel ys zs :
  lrep m A -> am_lists A !! l = Some (xs, cur) -> v < portMAX_DELAY ->
  xs = ys ++ zs -> (length zs < fuel)%nat ->
  wp (insert_walk fuel (curp l (last ys)) v) (fun p m' => m' = m /\
    exists ys' zs', xs = ys' ++ zs' /\ p = curp l (last ys') /\
      ys ++ insert_sorted (a_val A) v i zs = ys' ++ i :: zs') m.
Proof.
  intros Hr Hl Hv. revert ys fuel.
  induction zs as [|z zs IH]; intros ys [|fuel] Hxs Hf; simpl in Hf; try lia;
    pose proof (rep_lists m A Hr _ _ _ Hl) as [_ _ Hend Hring]; rewrite Hxs in Hring;
    apply linked_ring_app in Hring as (_ & [Hxy _] & _); cbn in Hxy; cbn [insert_walk]; lm_steps.
  - destruct (Z.leb_spec portMAX_DELAY v); [lia|]. lm_steps. split; [done|].
    by exists ys, [].
  - assert (Hz : value_of m (PItem z) = Some (a_val A z)).
    { assert (z ∈ xs) as (tz & Htz & _)%(wf_mem A (rep_wf _ _ Hr) _ _ _ z Hl).
      { rewrite Hxs. apply elem_of_app. right. by left. }
      rewrite (rep_value m A Hr). unfold a_val. by rewrite Htz. }
    lm_steps. cbn [insert_sorted]. destruct (Z.leb_spec (a_val A z) v).
    + replace (PItem z) with (curp (I:=I) l (last (ys ++ [z]))) by by rewrite last_snoc.
      specialize (IH (ys ++ [z]) fuel). rewrite <- !app_assoc in IH. apply IH; [done|lia].
    + lm_steps. split; [done|]. by exists ys, (z :: zs).
Qed.

Lemma insert_sorted_top m A l xs cur i :
  lrep m A -> am_lists A !! l = Some (xs, cur) ->
  insert_sorted (a_val A) portMAX_DELAY i xs = xs ++ [i].
Proof.
  intros Hr Hl.
  assert (Hall : Forall (fun x => a_val A x <= portMAX_DELAY) xs).
  { apply Forall_forall. intros x (t & Ht & _)%(wf_mem A (rep_wf _ _ Hr) _ _ _ x Hl).
    unfold a_val. rewrite Ht. pose proof (wf_val A (rep_wf _ _ Hr) _ _ Ht).
    unfold in_u, portMAX_DELAY in *. lia. }
  clear Hl. induction Hall as [|x xs Hx _ IH]; simpl; [done|].
  destruct (Z.leb_spec (a_val A x) portMAX_DELAY); [by rewrite IH|lia].
Qed.

Lemma wp_vListInsert m A l xs cur i t :
  lrep m A -> am_lists A !! l = Some (xs, cur) -> am_items A !! i = Some t -> a_container t = None ->
  wp (vListInsert l i) (fun _ m' =>
    lrep m' (a_move (Some l) l (insert_sorted (a_val A) (a_value t) i xs) cur i A)) m.
Proof.
  intros Hr Hl Hi Hc.
  assert (i ∉ xs) as Hnot by (by eapply rep_fresh; [..|rewrite Hc]).
  pose proof (rep_count_succ m A _ _ _ i t Hr Hl Hi Hnot) as Hs.
  pose proof (rep_lists m A Hr _ _ _ Hl) as [Hcnt Hidx Hend Hring].
  destruct (rep_item_fields m A i t Hr Hi) as ([? Hin] & [? Hip] & [? Hic]).
  pose proof (rep_value m A Hr i) as Hv. rewrite Hi in Hv. cbn in Hv.
  unfold vListInsert. lm_steps.
  apply wp_mono with (P := fun p m' => m' = m /\ exists ys zs, xs = ys ++ zs /\ p = curp l (last ys) /\
    insert_sorted (a_val A) (a_value t) i xs = ys ++ i :: zs).
  - destruct (Z.eqb_spec (a_value t) portMAX_DELAY) as [Heq|Hne].
    + pose proof Hring as Hr'. rewrite <- (app_nil_r xs) in Hr'.
      apply linked_ring_app in Hr' as (_ & [_ Hyx] & _). cbn in Hyx.
      lm_steps. split; [done|]. exists xs, []. rewrite app_nil_r, Heq. split; [done|]. split; [done|].
      by eapply insert_sorted_top.
    + apply (wp_insert_walk m A l xs cur i (a_value t) _ [] xs); [done|done| |done|].
      * pose proof (wf_val A (rep_wf _ _ Hr) _ _ Hi). unfold in_u, portMAX_DELAY in *. lia.
      * rewrite (rep_size m A Hr). pose proof (wf_length A l xs cur (rep_wf _ _ Hr) Hl). lia.
  - intros p m' (-> & ys & zs & -> & -> & ->).
    apply linked_ring_app in Hring as (_ & [Hxy Hyx] & _). cbn in Hxy, Hyx.
    destruct (cut_not_item l ys zs i Hnot) as [Hxi Hyi].
    lm_steps. rewrite Hs. eapply lrep_insert; [done..| | | | | | |]; lm_final.
Qed.

Lemma curp_item l cur i : curp l cur = PItem i <-> cur = Some i.
Proof. destruct cur; simpl; naive_solver. Qed.

(** The cursor steps back when its item leaves. *)
Definition cursor_after_remove (i : I) xs cur : option I :=
  if decide (cur = Some i) then pred_in i xs else cur.

Lemma wp_uxListRemove m A l xs cur i t :
  lrep m A -> am_items A !! i = Some t -> a_container t = Some l -> am_lists A !! l = Some (xs, cur) ->
  wp (uxListRemove i) (fun r m' => r = Z.of_nat (length xs) - 1 /\
    lrep m' (a_move None l (remove1 i xs) (cursor_after_remove i xs cur) i A)) m.
Proof.
  intros Hr Hi Hc Hl.
  assert (i ∈ xs) as (ys & zs & -> & Hy)%elem_of_split_first.
  { apply (wf_mem A (rep_wf _ _ Hr) _ _ _ i Hl). eauto. }
  rewrite remove1_split by done. unfold cursor_after_remove. rewrite pred_in_split by done.
  assert (Hnd : NoDup (i :: ys ++ zs)) by (rewrite Permutation_middle; by eapply rep_nodup).
  apply NoDup_cons in Hnd as [Hnot Hnd].
  pose proof (rep_lists m A Hr _ _ _ Hl) as [Hcnt Hidx _ Hring].
  apply linked_ring_mid in Hring as (_ & [Hxi Hix] & [Hiy Hyi] & _). cbn in Hxi, Hix, Hiy, Hyi.
  destruct (rep_item_fields m A i t Hr Hi) as (_ & _ & Hic).
  pose proof (rep_container m A Hr i) as Hcon. rewrite Hi in Hcon. cbn in Hcon. rewrite Hc in Hcon.
  destruct (cut_not_item l ys zs i Hnot) as [Hxn Hyn].
  assert (Hlen : u64 (Z.of_nat (length (ys ++ i :: zs)) - 1) = Z.of_nat (length (ys ++ zs))).
  { pose proof (wf_length A l _ cur (rep_wf _ _ Hr) Hl) as Hle. pose proof (wf_size A (rep_wf _ _ Hr)).
    rewrite length_app in *. simpl in *. rewrite length_app. rewrite wrapu_small; unfold in_u; lia. }
  assert (Hcur' : forall j, (if decide (cur = Some i) then last ys else cur) = Some j -> j ∈ ys ++ zs).
  { intros j. case_decide; [intros ?%last_Some_elem_of; apply elem_of_app; by left|].
    intros ->. pose proof (wf_cur A (rep_wf _ _ Hr) _ _ _ Hl) as Hj.
    rewrite <- Permutation_middle in Hj. apply elem_of_cons in Hj as [->|]; congruence. }
  unfold uxListRemove. lm_steps.
  rewrite (bool_decide_ext _ (cur = Some i)) by (rewrite (inj_iff Some); apply curp_item).
  rewrite bool_decide_decide. destruct (decide (cur = Some i)) as [->|Hne]; lm_steps; rewrite Hlen.
  all: split; [rewrite !length_app; simpl; lia|].
  all: eapply lrep_remove; [done..| | | | | | | |done]; lm_final.
Qed.

(** ** The remaining operations and accessor macros *)

Lemma wp_vListInitialise m A l :
  lrep m A -> (forall i t, am_items A !! i = Some t -> a_container t <> Some l) ->
  wp (vListInitialise l) (fun _ m' => lrep m' (a_init_list l A)) m.
Proof.
  intros Hr Hfree. apply wp_modify. constructor; simpl.
  - apply (rep_value m A Hr).
  - apply (rep_owner m A Hr).
  - apply (rep_container m A Hr).
  - intros k xs cur. rewrite lookup_insert. case_decide; subst.
    + intros [= <- <-]. unfold count_of, index_of, value_of.
      constructor; unfold count_of, index_of, value_of; simpl; rewrite ?lookup_insert_eq; try done.
      unfold linked, ring, leftp. simpl. constructor; [|done].
      unfold lk, next_of, prev_of; simpl. by rewrite !lookup_insert_eq.
    + intros Hk. eapply list_rep_frame; [| | | |by eapply rep_lists];
        unfold count_of, index_of, value_of, next_of, prev_of; simpl; rewrite ?lookup_insert_ne by done; try done.
      intros p Hp. destruct p as [j|k']; [done|].
      apply elem_of_ring in Hp as [ [= ->]|(? & ? & ?)]; [|done]. by rewrite lookup_insert_ne by done.
  - destruct Hr as [_ _ _ _ Hwf]. constructor; simpl; try apply Hwf.
    + intros k xs cur. rewrite lookup_insert. case_decide; [|by eapply wf_nodup].
      intros [= <- _]. constructor.
    + intros k xs j. rewrite lookup_insert. case_decide; [done|by eapply wf_cur].
    + intros k xs cur i. rewrite lookup_insert. case_decide; subst; [|by apply wf_mem].
      intros [= <- <-]. split; [by intros ?%elem_of_nil|]. intros (t & Ht & Hc). by edestruct Hfree.
    + intros i t k Hi Hk. rewrite lookup_insert. case_decide; [by eexists|]. by eapply wf_cont.
Qed.

Lemma wp_vListInitialiseItem m A i :
  lrep m A -> (forall t, am_items A !! i = Some t -> a_container t = None) ->
  Z.of_nat (size (am_items A)) + 1 < 2 ^ 64 ->
  wp (vListInitialiseItem i) (fun _ m' => lrep m' (a_init_item i A)) m.
Proof.
  intros Hr Hfree Hsz. apply wp_modify.
  assert (Hnot : forall l xs cur, am_lists A !! l = Some (xs, cur) -> i ∉ xs).
  { intros l xs cur Hl (t & Ht & Hc)%(wf_mem A (rep_wf _ _ Hr) _ _ _ i Hl). apply Hfree in Ht. congruence. }
  constructor; simpl.
  - intros j. pose proof (rep_value m A Hr j). unfold value_of in *. simpl in *. rewrite !lookup_insert.
    by case_decide.
  - intros j. pose proof (rep_owner m A Hr j). unfold owner_of in *. simpl in *. rewrite !lookup_insert.
    by case_decide.
  - intros j. pose proof (rep_container m A Hr j). unfold container_of in *. simpl in *. rewrite !lookup_insert.
    by case_decide.
  - intros k xs cur Hk. eapply list_rep_frame; [| | | |by eapply rep_lists]; try done.
    intros p Hp. destruct p as [j|k']; [|done]. apply elem_of_ring in Hp as [|(? & [= <-] & ?)]; [done|].
    assert (i <> j) by (intros ->; by eapply Hnot).
    unfold next_of, prev_of; simpl. by rewrite lookup_insert_ne by done.
  - destruct Hr as [_ _ _ _ Hwf]. constructor; simpl; try apply Hwf.
    + intros k xs cur j Hk. rewrite (wf_mem A Hwf _ _ _ j Hk), lookup_insert. case_decide; subst; [|done].
      split; [intros (? & Ht & Hc); apply Hfree in Ht; congruence|]. by intros (? & [= <-] & ?).
    + intros j t k. rewrite lookup_insert. case_decide; [by intros [= <-]|by apply wf_cont].
    + intros j t. rewrite lookup_insert. case_decide; [|by apply wf_val].
      intros [= <-]. unfold in_u; simpl; lia.
    + apply Z.le_lt_trans with (Z.of_nat (size (am_items A)) + 1); [|done].
      destruct (am_items A !! i) eqn:E.
      * rewrite map_size_insert_Some by eauto. lia.
      * rewrite map_size_insert_None by done. lia.
Qed.

Lemma lrep_alter m m' A i (f : aitem L -> aitem L) :
  lrep m A ->
  (forall t, a_container (f t) = a_container t) ->
  (forall t, am_items A !! i = Some t -> in_u 32 (a_value (f t))) ->
  (forall j, value_of m' (PItem j) = a_value <$> alter f i (am_items A) !! j) ->
  (forall j, owner_of m' (PItem j) = a_owner <$> alter f i (am_items A) !! j) ->
  (forall j, container_of m' j = container_of m j) ->
  (forall k, index_of m' k = index_of m k) -> (forall k, count_of m' k = count_of m k) ->
  (forall l, value_of m' (PEnd l) = value_of m (PEnd l)) ->
  (forall p, next_of m' p = next_of m p) -> (forall p, prev_of m' p = prev_of m p) ->
  lrep m' (AMem (alter f i (am_items A)) (am_lists A)).
Proof.
  intros Hr Hfc Hfv Hv Ho Hc Hi Hn He Hnx Hpv. constructor; simpl; [done..| | |].
  - intros j. rewrite Hc, (rep_container m A Hr), lookup_alter. case_decide; subst; [|done].
    destruct (am_items A !! j); simpl; [by rewrite Hfc|done].
  - intros l xs cur Hl. apply (list_rep_frame m); [done..|]. by eapply rep_lists.
  - apply a_alter_wf; [apply Hr|done..].
Qed.

Lemma wp_listSET_LIST_ITEM_VALUE m A i t v :
  lrep m A -> am_items A !! i = Some t -> in_u 32 v ->
  wp (listSET_LIST_ITEM_VALUE i v) (fun _ m' => lrep m' (a_set_value i v A)) m.
Proof.
  intros Hr Hi Hv. destruct (rep_item_fields m A i t Hr Hi) as (_ & _ & Hc).
  apply wp_st_value; [done|]. eapply lrep_alter; try done; intros; autorewrite with lmem; try done.
  - rewrite (rep_value m A Hr), lookup_alter. repeat case_decide; simplify_eq; try done.
    by destruct (am_items A !! _).
  - rewrite (rep_owner m A Hr), lookup_alter. repeat case_decide; simplify_eq; try done.
    by destruct (am_items A !! _).
Qed.

Lemma wp_listSET_LIST_ITEM_OWNER m A i t o :
  lrep m A -> am_items A !! i = Some t ->
  wp (listSET_LIST_ITEM_OWNER i o) (fun _ m' => lrep m' (a_set_owner i o A)) m.
Proof.
  intros Hr Hi. destruct (rep_item_fields m A i t Hr Hi) as (_ & _ & Hc).
  apply wp_st_owner; [done|].
  eapply lrep_alter; try done; intros; autorewrite with lmem; try done.
  - simpl. by eapply wf_val; [apply Hr|].
  - rewrite (rep_value m A Hr), lookup_alter. repeat case_decide; simplify_eq; try done.
    by destruct (am_items A !! _).
  - rewrite (rep_owner m A Hr), lookup_alter. repeat case_decide; simplify_eq; try done.
    by destruct (am_items A !! _).
Qed.

Lemma wp_listLIST_IS_EMPTY m A l xs cur :
  lrep m A -> am_lists A !! l = Some (xs, cur) ->
  wp (listLIST_IS_EMPTY l) (fun r m' => m' = m /\ r = if decide (xs = []) then pdTRUE else pdFALSE) m.
Proof.
  intros Hr Hl. pose proof (rep_lists m A Hr _ _ _ Hl) as [Hcnt _ _ _].
  unfold listLIST_IS_EMPTY. lm_steps. split; [done|].
  destruct (Z.eqb_spec (Z.of_nat (length xs)) 0); case_decide; try done; destruct xs; simpl in *; try done; lia.
Qed.

Lemma wp_listCURRENT_LIST_LENGTH m A l xs cur :
  lrep m A -> am_lists A !! l = Some (xs, cur) ->
  wp (listCURRENT_LIST_LENGTH l) (fun r m' => m' = m /\ r = Z.of_nat (length xs)) m.
Proof.
  intros Hr Hl. pose proof (rep_lists m A Hr _ _ _ Hl) as [Hcnt _ _ _].
  unfold listCURRENT_LIST_LENGTH. by lm_steps.
Qed.

(** The node after the cursor. *)
Definition step_cursor xs cur : option I :=
  match cur with None => head xs | Some j => succ_in j xs end.

Lemma next_of_cur m A l xs cur cur' :
  lrep m A -> am_lists A !! l = Some (xs, cur') -> (forall j, cur = Some j -> j ∈ xs) ->
  next_of m (curp l cur) = Some (Some (curp l (step_cursor xs cur))).
Proof.
  intros Hr Hl Hcur. pose proof (rep_lists m A Hr _ _ _ Hl) as [_ _ _ Hring].
  destruct cur as [j|]; simpl.
  - destruct (elem_of_split_first j xs) as (ys & zs & -> & Hj); [by apply Hcur|].
    rewrite succ_in_split by done. by apply linked_ring_mid in Hring as (_ & _ & [Hn _] & _).
  - by apply (linked_ring_app m l [] xs) in Hring as (_ & [Hn _] & _).
Qed.

Lemma wp_listGET_HEAD_ENTRY m A l xs cur :
  lrep m A -> am_lists A !! l = Some (xs, cur) ->
  wp (listGET_HEAD_ENTRY l) (fun p m' => m' = m /\ p = curp l (head xs)) m.
Proof.
  intros Hr Hl. pose proof (next_of_cur m A l xs None cur Hr Hl) as Hn. simpl in Hn.
  specialize (Hn ltac:(done)). unfold listGET_HEAD_ENTRY. by lm_steps.
Qed.

Lemma wp_listGET_LIST_ITEM_VALUE m A i t :
  lrep m A -> am_items A !! i = Some t ->
  wp (listGET_LIST_ITEM_VALUE (PItem i)) (fun v m' => m' = m /\ v = a_value t) m.
Proof.
  intros Hr Hi. pose proof (rep_value m A Hr i) as Hv. rewrite Hi in Hv. cbn in Hv.
  unfold listGET_LIST_ITEM_VALUE. by lm_steps.
Qed.

Lemma wp_listGET_LIST_ITEM_OWNER m A i t :
  lrep m A -> am_items A !! i = Some t ->
  wp (listGET_LIST_ITEM_OWNER (PItem i)) (fun v m' => m' = m /\ v = a_owner t) m.
Proof.
  intros Hr Hi. pose proof (rep_owner m A Hr i) as Hv. rewrite Hi in Hv. cbn in Hv.
  unfold listGET_LIST_ITEM_OWNER. by lm_steps.
Qed.

Lemma wp_listGET_LIST_ITEM_CONTAINER m A i t :
  lrep m A -> am_items A !! i = Some t ->
  wp (listGET_LIST_ITEM_CONTAINER i) (fun c m' => m' = m /\ c = a_container t) m.
Proof.
  intros Hr Hi. pose proof (rep_container m A Hr i) as Hv. rewrite Hi in Hv. cbn in Hv.
  unfold listGET_LIST_ITEM_CONTAINER. by lm_steps.
Qed.

Lemma wp_listIS_CONTAINED_WITHIN m A l i t :
  lrep m A -> am_items A !! i = Some t ->
  wp (listIS_CONTAINED_WITHIN l i) (fun r m' => m' = m /\
    r = if decide (a_container t = Some l) then pdTRUE else pdFALSE) m.
Proof.
  intros Hr Hi. pose proof (rep_container m A Hr i) as Hv. rewrite Hi in Hv. cbn in Hv.
  unfold listIS_CONTAINED_WITHIN. lm_steps. split; [done|]. by rewrite bool_decide_decide; case_decide.
Qed.

Lemma next_cursor_step cur xs :
  next_cursor cur xs = match step_cursor xs cur with Some j => Some j | None => head xs end.
Proof. destruct cur; simpl; [done|]. by destruct (head xs). Qed.

Lemma succ_in_elem j k xs : succ_in j xs = Some k -> k ∈ xs.
Proof.
  induction xs as [|x xs IH]; simpl; [done|]. case_decide.
  - intros ?%head_Some_elem_of. by right.
  - intros ?. right. auto.
Qed.
Lemma step_cursor_elem cur k xs : step_cursor xs cur = Some k -> k ∈ xs.
Proof. destruct cur; simpl; [apply succ_in_elem|apply head_Some_elem_of]. Qed.
Lemma next_cursor_elem cur xs : xs <> [] -> exists k, next_cursor cur xs = Some k /\ k ∈ xs.
Proof.
  intros Hne. rewrite next_cursor_step. destruct (step_cursor xs cur) eqn:E.
  - apply step_cursor_elem in E. eauto.
  - destruct xs as [|x xs]; [done|]. exists x. split; [done|by left].
Qed.

Lemma lrep_set_index m A l xs cur cur' :
  lrep m A -> am_lists A !! l = Some (xs, cur) -> (forall j, cur' = Some j -> j ∈ xs) ->
  lrep (put_index l (Some (curp l cur')) m) (a_set_cursor l xs cur' A).
Proof.
  intros Hr Hl Hcur. constructor; simpl; intros; autorewrite with lmem.
  - apply (rep_value m A Hr).
  - apply (rep_owner m A Hr).
  - apply (rep_container m A Hr).
  - match goal with Hk : <[_ := _]> _ !! _ = _ |- _ => revert Hk; rewrite lookup_insert end.
    case_decide; simplify_eq.
    + intros [= <- <-]. destruct (rep_lists m A Hr _ _ _ Hl) as [? Hidx ? ?].
      constructor; autorewrite with lmem; try done.
      * rewrite decide_True by done. by rewrite Hidx.
      * eapply linked_frame_ring; [|done]. intros. by autorewrite with lmem.
    + intros Hk. eapply list_rep_frame; [..|by eapply rep_lists]; intros; autorewrite with lmem; try done.
      by rewrite decide_False by done.
  - destruct Hr as [_ _ _ _ Hwf]. constructor; simpl; try apply Hwf.
    + intros k ys c. rewrite lookup_insert. case_decide; [|by eapply wf_nodup].
      intros [= <- _]. by eapply wf_nodup.
    + intros k ys j. rewrite lookup_insert. case_decide; [|by eapply wf_cur]. intros [= <- ->]. auto.
    + intros k ys c i. rewrite lookup_insert. case_decide; subst; [|by apply wf_mem].
      intros [= <- <-]. by eapply wf_mem.
    + intros i t k Hi Hk. rewrite lookup_insert. case_decide; [by eexists|]. by eapply wf_cont.
Qed.

Lemma wp_listGET_OWNER_OF_NEXT_ENTRY m A l xs cur :
  lrep m A -> am_lists A !! l = Some (xs, cur) -> xs <> [] ->
  wp (listGET_OWNER_OF_NEXT_ENTRY l) (fun o m' => exists i t,
    next_cursor cur xs = Some i /\ am_items A !! i = Some t /\ o = a_owner t /\
    lrep m' (a_set_cursor l xs (Some i) A)) m.
Proof.
  intros Hr Hl Hne.
  pose proof (rep_lists m A Hr _ _ _ Hl) as [_ Hidx _ _].
  destruct (next_cursor_elem cur xs Hne) as (k & Hk & Hkin).
  pose proof Hkin as (t & Ht & _)%(wf_mem A (rep_wf _ _ Hr) _ _ _ k Hl).
  pose proof (rep_owner m A Hr k) as Ho. rewrite Ht in Ho. cbn in Ho.
  assert (Hn : next_of m (curp l cur) = Some (Some (curp l (step_cursor xs cur)))).
  { eapply next_of_cur; [done..|]. intros j ->. by eapply wf_cur; [apply Hr|]. }
  assert (Hn0 : next_of m (PEnd l) = Some (Some (curp l (head xs)))).
  { by apply (next_of_cur m A l xs None cur). }
  rewrite next_cursor_step in Hk. unfold listGET_OWNER_OF_NEXT_ENTRY. lm_steps.
  destruct (step_cursor xs cur) as [j|] eqn:E; rewrite bool_decide_decide; case_decide; simplify_eq/=; lm_steps.
  - exists k, t. rewrite next_cursor_step, E. split_and!; try done.
    apply (lrep_set_index m A l xs cur (Some k)); [done..|]. congruence.
  - exists k, t. rewrite next_cursor_step, E. split_and!; try done.
    replace (a_set_cursor l xs (Some k) A) with (a_set_cursor l xs (Some k) (a_set_cursor l xs None A)).
    + eapply lrep_set_index; [by apply (lrep_set_index m A l xs cur None)| |congruence].
      simpl. apply lookup_insert_eq.
    + unfold a_set_cursor. simpl. by rewrite insert_insert_eq.
Qed.
End ops.

(** ** The interface list.c offers the kernel *)

(** The operations of list.c and the macros of list.h, over a memory [S]. *)
Class ListOps (I L S : Type) := {
  ls_Initialise : L -> M S unit;
  ls_InitialiseItem : I -> M S unit;
  ls_InsertEnd : L -> I -> M S unit;
  ls_Insert : L -> I -> M S unit;
  ls_Remove : I -> M S Z;
  ls_SET_OWNER : I -> Z -> M S unit;
  ls_GET_OWNER : ptr I L -> M S Z;
  ls_SET_VALUE : I -> Z -> M S unit;
  ls_GET_VALUE : ptr I L -> M S Z;
  ls_HEAD_ENTRY : L -> M S (ptr I L);
  ls_IS_EMPTY : L -> M S Z;
  ls_CONTAINER : I -> M S (option L);
  ls_IS_CONTAINED_WITHIN : L -> I -> M S Z;
  ls_OWNER_OF_NEXT_ENTRY : L -> M S Z }.

(** What a client may rely on: each operation realises the sequence
    specification in every represented state. *)
Class ListLaws (I L S : Type) `{Countable I} `{Countable L} `{!ListOps I L S} := {
  ls_rep : S -> amem I L -> Prop;
  ls_rep_wf m A : ls_rep m A -> am_wf A;
  ls_init_spec m A l : ls_rep m A ->
    (forall i t, am_items A !! i = Some t -> a_container t <> Some l) ->
    wp (ls_Initialise l) (fun _ m' => ls_rep m' (a_init_list l A)) m;
  ls_init_item_spec m A i : ls_rep m A ->
    (forall t, am_items A !! i = Some t -> a_container t = None) ->
    Z.of_nat (size (am_items A)) + 1 < 2 ^ 64 ->
    wp (ls_InitialiseItem i) (fun _ m' => ls_rep m' (a_init_item i A)) m;
  ls_insert_end_spec m A l xs cur i t : ls_rep m A ->
    am_lists A !! l = Some (xs, cur) -> am_items A !! i = Some t -> a_container t = None ->
    wp (ls_InsertEnd l i) (fun _ m' => ls_rep m' (a_move (Some l) l (insert_end cur i xs) cur i A)) m;
  ls_insert_spec m A l xs cur i t : ls_rep m A ->
    am_lists A !! l = Some (xs, cur) -> am_items A !! i = Some t -> a_container t = None ->
    wp (ls_Insert l i) (fun _ m' =>
      ls_rep m' (a_move (Some l) l (insert_sorted (a_val A) (a_value t) i xs) cur i A)) m;
  ls_remove_spec m A l xs cur i t : ls_rep m A ->
    am_items A !! i = Some t -> a_container t = Some l -> am_lists A !! l = Some (xs, cur) ->
    wp (ls_Remove i) (fun r m' => r = Z.of_nat (length xs) - 1 /\
      ls_rep m' (a_move None l (remove1 i xs) (cursor_after_remove i xs cur) i A)) m;
  ls_set_owner_spec m A i t o : ls_rep m A -> am_items A !! i = Some t ->
    wp (ls_SET_OWNER i o) (fun _ m' => ls_rep m' (a_set_owner i o A)) m;
  ls_get_owner_spec m A i t : ls_rep m A -> am_items A !! i = Some t ->
    wp (ls_GET_OWNER (PItem i)) (fun v m' => m' = m /\ v = a_owner t) m;
  ls_set_value_spec m A i t v : ls_rep m A -> am_items A !! i = Some t -> in_u 32 v ->
    wp (ls_SET_VALUE i v) (fun _ m' => ls_rep m' (a_set_value i v A)) m;
  ls_get_value_spec m A i t : ls_rep m A -> am_items A !! i = Some t ->
    wp (ls_GET_VALUE (PItem i)) (fun v m' => m' = m /\ v = a_value t) m;
  ls_head_entry_spec m A l xs cur : ls_rep m A -> am_lists A !! l = Some (xs, cur) ->
    wp (ls_HEAD_ENTRY l) (fun p m' => m' = m /\ p = curp l (head xs)) m;
  ls_is_empty_spec m A l xs cur : ls_rep m A -> am_lists A !! l = Some (xs, cur) ->
    wp (ls_IS_EMPTY l) (fun r m' => m' = m /\ r = if decide (xs = []) then pdTRUE else pdFALSE) m;
  ls_container_spec m A i t : ls_rep m A -> am_items A !! i = Some t ->
    wp (ls_CONTAINER i) (fun c m' => m' = m /\ c = a_container t) m;
  ls_is_contained_spec m A l i t : ls_rep m A -> am_items A !! i = Some t ->
    wp (ls_IS_CONTAINED_WITHIN l i) (fun r m' => m' = m /\
      r = if decide (a_container t = Some l) then pdTRUE else pdFALSE) m;
  ls_owner_of_next_spec m A l xs cur : ls_rep m A -> am_lists A !! l = Some (xs, cur) -> xs <> [] ->
    wp (ls_OWNER_OF_NEXT_ENTRY l) (fun o m' => exists i t,
      next_cursor cur xs = Some i /\ am_items A !! i = Some t /\ o = a_owner t /\
      ls_rep m' (a_set_cursor l xs (Some i) A)) m }.

Section instance.
Context {I L : Type} `{Countable I} `{Countable L}.

#[global] Instance lmem_ops : ListOps I L (lmem I L) := {
  ls_Initialise := vListInitialise;
  ls_InitialiseItem := vListInitialiseItem;
  ls_InsertEnd := vListInsertEnd;
  ls_Insert := vListInsert;
  ls_Remove := uxListRemove;
  ls_SET_OWNER := listSET_LIST_ITEM_OWNER;
  ls_GET_OWNER := listGET_LIST_ITEM_OWNER;
  ls_SET_VALUE := listSET_LIST_ITEM_VALUE;
  ls_GET_VALUE := listGET_LIST_ITEM_VALUE;
  ls_HEAD_ENTRY := listGET_HEAD_ENTRY;
  ls_IS_EMPTY := listLIST_IS_EMPTY;
  ls_CONTAINER := listGET_LIST_ITEM_CONTAINER;
  ls_IS_CONTAINED_WITHIN := listIS_CONTAINED_WITHIN;
  ls_OWNER_OF_NEXT_ENTRY := listGET_OWNER_OF_NEXT_ENTRY }.

#[global] Instance lmem_laws : ListLaws I L (lmem I L) := {
  ls_rep := lrep;
  ls_rep_wf := rep_wf;
  ls_init_spec := wp_vListInitialise;
  ls_init_item_spec := wp_vListInitialiseItem;
  ls_insert_end_spec := wp_vListInsertEnd;
  ls_insert_spec := wp_vListInsert;
  ls_remove_spec := wp_uxListRemove;
  ls_set_owner_spec := wp_listSET_LIST_ITEM_OWNER;
  ls_get_owner_spec := wp_listGET_LIST_ITEM_OWNER;
  ls_set_value_spec := wp_listSET_LIST_ITEM_VALUE;
  ls_get_value_spec := wp_listGET_LIST_ITEM_VALUE;
  ls_head_entry_spec := wp_listGET_HEAD_ENTRY;
  ls_is_empty_spec := wp_listLIST_IS_EMPTY;
  ls_container_spec := wp_listGET_LIST_ITEM_CONTAINER;
  ls_is_contained_spec := wp_listIS_CONTAINED_WITHIN;
  ls_owner_of_next_spec := wp_listGET_OWNER_OF_NEXT_ENTRY }.
End instance.
