(* ===== verification/ListProps.v ===== *)
(** * Properties of the kernel lists

    What list.c promises the scheduler, proved over the pointer
    implementation: ordered insertion keeps the list sorted and is stable,
    removal undoes insertion, and the round-robin cursor visits every item of
    a list exactly once per round. *)

From stdpp Require Import sorting.
From S2P Require Import Prelude Config Lists ListSpec ListRefine.

(** ** A concrete memory: list 0 holds items 1 and 2, item 3 is free. *)

Lemma lrep_empty {I L} `{Countable I} `{Countable L} : lrep (LMem ∅ ∅ : lmem I L) (AMem ∅ ∅).
Proof.
  by constructor.
Qed.

Definition demo_list : M (lmem nat nat) unit :=
  vListInitialise 0%nat;;
  vListInitialiseItem 1%nat;; vListInitialiseItem 2%nat;; vListInitialiseItem 3%nat;;
  listSET_LIST_ITEM_VALUE 1%nat 10;; listSET_LIST_ITEM_VALUE 2%nat 20;; listSET_LIST_ITEM_VALUE 3%nat 10;;
  listSET_LIST_ITEM_OWNER 1%nat 101;; listSET_LIST_ITEM_OWNER 2%nat 102;; listSET_LIST_ITEM_OWNER 3%nat 103;;
  vListInsert 0%nat 2%nat;; vListInsert 0%nat 1%nat.

Definition demo_mem : lmem nat nat :=
  match demo_list (LMem ∅ ∅) with Some (_, m) => m | None => LMem ∅ ∅ end.
Definition demo_abs : amem nat nat :=
  AMem {[1%nat := AItem 10 101 (Some 0%nat); 2%nat := AItem 20 102 (Some 0%nat); 3%nat := AItem 10 103 None]}
       {[0%nat := ([1%nat; 2%nat], None)]}.

(** Runs one specified list operation against the current representation. *)
Ltac rep_step lem :=
  lazymatch goal with |- wp (mbind _ _) _ _ => apply wp_bind | _ => idtac end; eapply wp_mono; [eapply lem; [eassumption|..]|cbn beta; intros ? ? ?].

Lemma demo_rep : lrep demo_mem demo_abs.
Proof.
  assert (Hw : wp demo_list (fun _ m => lrep m demo_abs) (LMem ∅ ∅)).
  { pose proof (lrep_empty (I := nat) (L := nat)) as Hr. unfold demo_list.
    rep_step (@wp_vListInitialise nat nat); [set_solver|].
    rep_step (@wp_vListInitialiseItem nat nat); [done|done|].
    rep_step (@wp_vListInitialiseItem nat nat); [done|done|].
    rep_step (@wp_vListInitialiseItem nat nat); [done|done|].
    do 3 (rep_step (@wp_listSET_LIST_ITEM_VALUE nat nat); [done|done|]).
    do 3 (rep_step (@wp_listSET_LIST_ITEM_OWNER nat nat); [done|]).
    do 2 (rep_step (@wp_vListInsert nat nat); [done|done|done|]).
    match goal with Hl : lrep ?m ?A |- lrep ?m ?B =>
      replace B with A; [exact Hl|by vm_compute] end. }
  destruct Hw as (? & m & Hrun & Hm). unfold demo_mem. by rewrite Hrun.
Qed.

Section properties.
Context {I L : Type} `{Countable I} `{Countable L}.
Implicit Types (m : lmem I L) (A : amem I L) (l : L) (i : I) (xs ys zs : list I) (cur : option I).

Definition sorted_by (val : I -> Z) : list I -> Prop := StronglySorted (fun x y => val x <= val y).

Lemma sorted_by_middle val v i ys zs :
  val i = v -> sorted_by val (ys ++ zs) -> Forall (fun y => val y <= v) ys ->
  (forall z, head zs = Some z -> v < val z) ->
  Forall (fun z => v < val z) zs /\ sorted_by val (ys ++ i :: zs).
Proof.
  intros Hv Hs Hys Hz.
  assert (Hall : Forall (fun z => v < val z) zs).
  { destruct zs as [|z zs]; [done|]. specialize (Hz z eq_refl).
    apply StronglySorted_app in Hs as (_ & _ & Hs). inversion Hs as [|? ? _ Hf]; subst.
    constructor; [done|]. eapply Forall_impl; [done|]. simpl. lia. }
  split; [done|]. apply StronglySorted_app in Hs as (Hyz & Hsy & Hsz).
  apply StronglySorted_app. split_and!; [|done|].
  - intros y z Hy [->|Hin]%elem_of_cons; [|by apply Hyz].
    rewrite Forall_forall in Hys. rewrite Hv. by apply Hys.
  - constructor; [done|]. eapply Forall_impl; [done|]. simpl. lia.
Qed.

(** C17: [vListInsert] terminates without undefined behaviour and places the
    item after every item of smaller or equal value and before every item of
    larger value, so that a sorted list stays sorted and items of equal value
    keep their order of insertion; nothing else changes. *)
Theorem vListInsert_sorted m A l xs cur i t :
  lrep m A -> am_lists A !! l = Some (xs, cur) ->
  am_items A !! i = Some t -> a_container t = None ->
  sorted_by (a_val A) xs ->
  exists m' ys zs, vListInsert l i m = Some (tt, m') /\ xs = ys ++ zs /\
    lrep m' (a_move (Some l) l (ys ++ i :: zs) cur i A) /\
    Forall (fun y => a_val A y <= a_value t) ys /\ Forall (fun z => a_value t < a_val A z) zs /\
    sorted_by (a_val A) (ys ++ i :: zs).
Proof.
  intros Hr Hl Hi Hc Hs. destruct (wp_vListInsert m A l xs cur i t Hr Hl Hi Hc) as ([] & m' & Hrun & Hm).
  destruct (insert_sorted_split (a_val A) (a_value t) i xs) as (ys & zs & -> & Heq & Hys & Hzs).
  rewrite Heq in Hm. exists m', ys, zs.
  destruct (sorted_by_middle (a_val A) (a_value t) i ys zs); [unfold a_val; by rewrite Hi|done..|].
  done.
Qed.

(** Insertion followed by removal, as the scheduler moves a task item in and
    out of a list. *)
Definition insert_then_remove (l : L) (i : I) : M (lmem I L) Z := vListInsert l i;; uxListRemove i.

Lemma remove1_insert_sorted val v i xs : i ∉ xs -> remove1 i (insert_sorted val v i xs) = xs.
Proof.
  intros Hi. destruct (insert_sorted_split val v i xs) as (ys & zs & -> & -> & _ & _).
  apply remove1_split. set_solver.
Qed.

Lemma a_move_undo A l xs xs' cur i t :
  am_lists A !! l = Some (xs, cur) -> am_items A !! i = Some t -> a_container t = None ->
  a_move None l xs cur i (a_move (Some l) l xs' cur i A) = A.
Proof.
  intros Hl Hi Hc. unfold a_move. simpl. destruct A as [its ls]; simpl in *. f_equal.
  - apply map_eq. intros j. rewrite !lookup_alter. repeat case_decide; simplify_eq; try done.
    rewrite Hi. simpl. unfold set_container. destruct t; simpl in *. by rewrite Hc.
  - rewrite insert_insert_eq. by apply insert_id.
Qed.

(** Removing an item right after inserting it restores the lists: the
    memory represents the same abstract memory as before, and the count
    returned is the list's length before the insertion. *)
Theorem list_insert_remove m A l xs cur i t :
  lrep m A -> am_lists A !! l = Some (xs, cur) ->
  am_items A !! i = Some t -> a_container t = None ->
  exists m', insert_then_remove l i m = Some (Z.of_nat (length xs), m') /\ lrep m' A.
Proof.
  intros Hr Hl Hi Hc. assert (i ∉ xs) as Hnot by (by eapply rep_fresh; [..|rewrite Hc]).
  cut (wp (insert_then_remove l i) (fun r m' => r = Z.of_nat (length xs) /\ lrep m' A) m).
  { intros (r & m' & Hrun & -> & Hm). eauto. }
  unfold insert_then_remove. apply wp_bind. eapply wp_mono; [by apply (wp_vListInsert m A l xs cur i t)|].
  cbn beta. intros ? m' Hm'. eapply wp_mono.
  - eapply (wp_uxListRemove m' _ l (insert_sorted (a_val A) (a_value t) i xs) cur i (set_container (Some l) t)); [done|..];
      simpl; [by rewrite lookup_alter_eq, Hi|done|by rewrite lookup_insert_eq].
  - intros r m'' [-> Hm'']. rewrite (Permutation_length (insert_sorted_perm _ _ _ _)). split; [simpl; lia|].
    rewrite remove1_insert_sorted in Hm'' by done. unfold cursor_after_remove in Hm''.
    rewrite decide_False in Hm''.
    + by erewrite a_move_undo in Hm''.
    + intros ->. by eapply Hnot, wf_cur; [apply Hr|].
Qed.

(** [n] consecutive expansions of the round-robin macro. *)
Fixpoint next_owners (n : nat) (l : L) : M (lmem I L) (list Z) :=
  match n with
  | O => mret []
  | S n => o ← listGET_OWNER_OF_NEXT_ENTRY l; os ← next_owners n l; mret (o :: os)
  end.

(** The items visited by [n] advances of the cursor. *)
Fixpoint visits (n : nat) (cur : option I) (xs : list I) : list I :=
  match n with
  | O => []
  | S n => match next_cursor cur xs with Some i => i :: visits n (Some i) xs | None => [] end
  end.

(** One round from the cursor: the items after it, then those up to it. *)
Definition round (cur : option I) (xs : list I) : list I := visits (length xs) cur xs.

Lemma next_cursor_last_app ys z zs : NoDup (ys ++ z :: zs) -> next_cursor (last ys) (ys ++ z :: zs) = Some z.
Proof.
  intros Hnd. induction ys as [|y ys _] using rev_ind; [done|].
  rewrite last_snoc. simpl. rewrite <- app_assoc. simpl.
  rewrite <- app_assoc in Hnd. apply NoDup_app in Hnd as (_ & Hd & Hnd).
  rewrite succ_in_split; [done|]. intros Hy. eapply Hd; [done|]. by left.
Qed.

Lemma visits_run k ys zs :
  NoDup (ys ++ zs) -> visits (length zs + k) (last ys) (ys ++ zs) = zs ++ visits k (last (ys ++ zs)) (ys ++ zs).
Proof.
  revert ys. induction zs as [|z zs IH]; intros ys Hnd; [by rewrite app_nil_r|].
  cbn [length Nat.add visits]. rewrite next_cursor_last_app by done. simpl. f_equal.
  specialize (IH (ys ++ [z])). rewrite last_snoc, <- app_assoc in IH. by apply IH.
Qed.

Lemma next_cursor_wrap xs : NoDup xs -> next_cursor (last xs) xs = next_cursor None xs.
Proof.
  induction xs as [|x xs _] using rev_ind; [done|]. intros Hnd. rewrite last_snoc. simpl.
  rewrite succ_in_split; [done|]. apply NoDup_app in Hnd as (_ & Hd & _). intros Hx.
  eapply Hd; [done|]. by left.
Qed.
Lemma visits_wrap k xs : NoDup xs -> visits k (last xs) xs = visits k None xs.
Proof. intros. destruct k; [done|]. cbn [visits]. by rewrite next_cursor_wrap. Qed.

Lemma visits_prefix k zs ys : NoDup (ys ++ zs) -> k = length ys -> visits k None (ys ++ zs) = ys.
Proof.
  intros Hnd ->.
  assert (Hgen : forall ws us, ys = ws ++ us -> visits (length us) (last ws) (ys ++ zs) = us).
  { intros ws us. revert ws. induction us as [|u us IH]; intros ws ->; [done|].
    cbn [length visits]. rewrite <- app_assoc in *. cbn [app] in *.
    rewrite next_cursor_last_app by done. f_equal. specialize (IH (ws ++ [u])).
    rewrite last_snoc in IH. apply IH. by rewrite <- app_assoc. }
  by apply (Hgen []).
Qed.

Lemma round_split ys zs : NoDup (ys ++ zs) -> round (last ys) (ys ++ zs) = zs ++ ys.
Proof.
  intros Hnd. unfold round. rewrite length_app, Nat.add_comm, visits_run by done. f_equal.
  rewrite visits_wrap by done. by apply visits_prefix.
Qed.

Lemma round_perm cur xs : NoDup xs -> (forall j, cur = Some j -> j ∈ xs) -> round cur xs ≡ₚ xs.
Proof.
  intros Hnd Hc. destruct cur as [j|].
  - destruct (elem_of_split_first j xs) as (ys & zs & -> & Hj); [by apply Hc|].
    pose proof (round_split (ys ++ [j]) zs) as Hr. rewrite last_snoc, <- app_assoc in Hr.
    cbn [app] in Hr. rewrite Hr by done. rewrite Permutation_app_comm. by rewrite <- app_assoc.
  - pose proof (round_split [] xs Hnd) as Hr. cbn [last app] in Hr. by rewrite Hr, app_nil_r.
Qed.

Definition owner_in A (i : I) : Z := match am_items A !! i with Some t => a_owner t | None => 0 end.

Lemma wp_next_owners n m A l xs cur :
  lrep m A -> am_lists A !! l = Some (xs, cur) -> xs <> [] ->
  wp (next_owners n l) (fun os m' => os = owner_in A <$> visits n cur xs /\
    exists cur', lrep m' (a_set_cursor l xs cur' A) /\
      cur' = match last (visits n cur xs) with Some i => Some i | None => cur end) m.
Proof.
  revert m A cur. induction n as [|n IH]; intros m A cur Hr Hl Hne; cbn [next_owners visits].
  - apply wp_ret. split; [done|]. exists cur. split; [|done].
    unfold a_set_cursor. rewrite insert_id by done. by destruct A.
  - apply wp_bind. eapply wp_mono; [by eapply wp_listGET_OWNER_OF_NEXT_ENTRY|].
    intros o m' (i & t & Hn & Hi & -> & Hr'). rewrite Hn. apply wp_bind.
    eapply wp_mono; [apply (IH _ _ (Some i) Hr'); [|done]; simpl; by rewrite lookup_insert_eq|].
    intros os m'' (-> & cur' & Hr'' & Hcur). apply wp_ret. split.
    { cbn. f_equal. unfold owner_in at 1. by rewrite Hi. }
    exists cur'. unfold a_set_cursor in *. simpl in *. rewrite insert_insert_eq in Hr''. split; [done|].
    rewrite Hcur. destruct (visits n (Some i) xs) as [|y ys] eqn:E; [done|].
    change (last (i :: y :: ys)) with (last (y :: ys)).
    by destruct (last (y :: ys)) eqn:El; [|apply last_None in El].
Qed.

(** The round-robin macro is fair: [length xs] consecutive expansions of
    [listGET_OWNER_OF_NEXT_ENTRY] return the owner of every item of the list
    exactly once, starting after the cursor, skip the sentinel, and leave the
    items and their order unchanged with the cursor on the last one visited. *)
Theorem list_round_robin m A l ys zs :
  lrep m A -> am_lists A !! l = Some (ys ++ zs, last ys) -> ys ++ zs <> [] ->
  exists m', next_owners (length (ys ++ zs)) l m = Some (owner_in A <$> (zs ++ ys), m') /\
    lrep m' (a_set_cursor l (ys ++ zs) (last (zs ++ ys)) A).
Proof.
  intros Hr Hl Hne. pose proof (rep_nodup _ _ _ _ _ Hr Hl) as Hnd.
  destruct (wp_next_owners (length (ys ++ zs)) m A l _ _ Hr Hl Hne) as (os & m' & Hrun & -> & cur' & Hm & ->).
  change (visits _ _ _) with (round (last ys) (ys ++ zs)) in *. rewrite round_split in * by done.
  exists m'. split; [done|]. destruct (last (zs ++ ys)) eqn:E; [done|].
  apply last_None in E. by destruct zs, ys.
Qed.
End properties.

(** ** Witnesses *)

Lemma vListInsert_sorted_witness :
  exists m' ys zs, vListInsert 0%nat 3%nat demo_mem = Some (tt, m') /\ [1%nat; 2%nat] = ys ++ zs /\
    lrep m' (a_move (Some 0%nat) 0%nat (ys ++ 3%nat :: zs) None 3%nat demo_abs) /\
    Forall (fun y => a_val demo_abs y <= 10) ys /\ Forall (fun z => 10 < a_val demo_abs z) zs /\
    sorted_by (a_val demo_abs) (ys ++ 3%nat :: zs).
Proof.
  apply (vListInsert_sorted demo_mem demo_abs 0%nat [1%nat; 2%nat] None 3%nat (AItem 10 103 None));
    [exact demo_rep|reflexivity|reflexivity|reflexivity|].
  repeat constructor. vm_compute. discriminate.
Defined.

Lemma list_insert_remove_witness :
  exists m', insert_then_remove 0%nat 3%nat demo_mem = Some (2, m') /\ lrep m' demo_abs.
Proof.
  exact (list_insert_remove demo_mem demo_abs 0%nat [1%nat; 2%nat] None 3%nat (AItem 10 103 None)
    demo_rep eq_refl eq_refl eq_refl).
Defined.

Lemma list_round_robin_witness :
  exists m', next_owners 2 0%nat demo_mem = Some ([101; 102], m') /\
    lrep m' (a_set_cursor 0%nat [1%nat; 2%nat] (Some 2%nat) demo_abs).
Proof.
  exact (list_round_robin demo_mem demo_abs 0%nat [] [1%nat; 2%nat] demo_rep eq_refl ltac:(discriminate)).
Defined.
