(* ===== verification/Heap4.v ===== *)
(** * heap_4: first-fit allocator with coalescing (src/portable/MemMang/heap_4.c)

    The pool is a static byte array at address [ucHeap]; [xStart] is the
    address of the list head, a static object outside the pool.  Block headers
    are read and written through addresses; an access that is neither to
    [xStart] nor inside the pool is undefined ([None]), so the theorems of
    Heap4Spec.v also show that the allocator stays inside its own memory.
    The pool is kept as a map from addresses to the header that stands there,
    not as bytes: two headers that overlap partly, or a header inside a
    payload, are not seen by a read; that neither happens is what the
    invariant says (blocks tile the pool, each at least a header long).
    The file has no critical section: each call is one step here, and two
    calls that overlap in time are not modelled.
    Static storage starts zeroed.  [size_t] and addresses are 64-bit. *)

From S2P Require Import Prelude Config.

(** The static objects the linker places. *)
Record layout := Layout { ucHeap : Z; xStart : Z }.

Record BlockLink_t := BlockLink { pxNextFreeBlock : Z; xBlockSize : Z }.

Record heap := Heap {
  hdr : gmap Z BlockLink_t; pxEnd : Z; xFreeBytesRemaining : Z; xMinimumEverFreeBytes : Z }.

(** Static initialisers: zeroed pool, no end marker yet. *)
Definition heap_boot : heap := Heap ∅ 0 0 0.

Definition NULL : Z := 0.
Definition sizeof_BlockLink_t : Z := 16.
Definition heapBYTE_ALIGNMENT : Z := portBYTE_ALIGNMENT.
Definition heapALIGN_MASK : Z := portBYTE_ALIGNMENT - 1.
Definition heapALLOC_BIT : Z := Z.shiftl 1 63.
Definition xHeapStructSize : Z := Z.land (sizeof_BlockLink_t + heapALIGN_MASK) (notu 64 heapALIGN_MASK).

Section heap4.
Context (lay : layout).

Definition valid_addr (a : Z) : bool :=
  (a =? xStart lay) || ((ucHeap lay <=? a) && (a + sizeof_BlockLink_t <=? ucHeap lay + configTOTAL_HEAP_SIZE)).

Definition hget (h : heap) (a : Z) : BlockLink_t := default (BlockLink 0 0) (hdr h !! a).
Definition hset (a : Z) (b : BlockLink_t) (h : heap) : heap :=
  Heap (<[a := b]> (hdr h)) (pxEnd h) (xFreeBytesRemaining h) (xMinimumEverFreeBytes h).

Definition ld_next (a : Z) : M heap Z :=
  if valid_addr a then gets (fun h => pxNextFreeBlock (hget h a)) else fails.
Definition ld_size (a : Z) : M heap Z :=
  if valid_addr a then gets (fun h => xBlockSize (hget h a)) else fails.
Definition st_next (a v : Z) : M heap unit :=
  if valid_addr a then modify (fun h => hset a (BlockLink v (xBlockSize (hget h a))) h) else fails.
Definition st_size (a v : Z) : M heap unit :=
  if valid_addr a then modify (fun h => hset a (BlockLink (pxNextFreeBlock (hget h a)) v) h) else fails.
Definition put_end (v : Z) (h : heap) : heap := Heap (hdr h) v (xFreeBytesRemaining h) (xMinimumEverFreeBytes h).
Definition put_free (v : Z) (h : heap) : heap := Heap (hdr h) (pxEnd h) v (xMinimumEverFreeBytes h).
Definition put_min (v : Z) (h : heap) : heap := Heap (hdr h) (pxEnd h) (xFreeBytesRemaining h) v.
Definition set_pxEnd (v : Z) : M heap unit := modify (put_end v).
Definition set_free (v : Z) : M heap unit := modify (put_free v).
Definition set_min (v : Z) : M heap unit := modify (put_min v).

(** A bound on the length of any free list: one header per block. *)
Definition list_fuel (h : heap) : nat := S (size (hdr h)).

Definition prvBlockIsAllocated (b : Z) : M heap bool :=
  s ← ld_size b; mret (negb (Z.land s heapALLOC_BIT =? 0)).

(** The insertion point: the last free block below the one to insert. *)
Fixpoint find_position (fuel : nat) (pxIterator pxBlockToInsert : Z) : M heap Z :=
  match fuel with
  | O => fails
  | S fuel =>
      nx ← ld_next pxIterator;
      if nx <? pxBlockToInsert then find_position fuel nx pxBlockToInsert else mret pxIterator
  end.

Definition prvInsertBlockIntoFreeList (pxBlock : Z) : M heap unit :=
  fuel ← gets list_fuel;
  pxIterator ← find_position fuel (xStart lay) pxBlock;
  itSize ← ld_size pxIterator;
  pxBlockToInsert ←
    (if u64 (pxIterator + itSize) =? pxBlock then
       s ← ld_size pxIterator; bs ← ld_size pxBlock;
       st_size pxIterator (u64 (s + bs));; mret pxIterator
     else mret pxBlock);
  bSize ← ld_size pxBlockToInsert;
  nx ← ld_next pxIterator;
  (if u64 (pxBlockToInsert + bSize) =? nx then
     nx ← ld_next pxIterator; e ← gets pxEnd;
     if negb (nx =? e) then
       bs ← ld_size pxBlockToInsert; nx ← ld_next pxIterator; ns ← ld_size nx;
       st_size pxBlockToInsert (u64 (bs + ns));;
       nx ← ld_next pxIterator; nn ← ld_next nx;
       st_next pxBlockToInsert nn
     else st_next pxBlockToInsert e
   else nx ← ld_next pxIterator; st_next pxBlockToInsert nx);;
  if negb (pxIterator =? pxBlockToInsert) then st_next pxIterator pxBlockToInsert else mret tt.

Definition vPortInitialiseBlocks : M heap unit :=
  let uxAddress0 := ucHeap lay in
  let '(uxAddress, xTotalHeapSize) :=
    if negb (Z.land uxAddress0 heapALIGN_MASK =? 0) then
      let a := Z.land (u64 (uxAddress0 + heapALIGN_MASK)) (notu 64 heapALIGN_MASK) in
      (a, u64 (configTOTAL_HEAP_SIZE - u64 (a - ucHeap lay)))
    else (uxAddress0, configTOTAL_HEAP_SIZE) in
  let pucAlignedHeap := uxAddress in
  st_next (xStart lay) pucAlignedHeap;;
  st_size (xStart lay) 0;;
  let endAddress :=
    Z.land (u64 (u64 (pucAlignedHeap + xTotalHeapSize) - xHeapStructSize)) (notu 64 heapALIGN_MASK) in
  set_pxEnd endAddress;;
  st_size endAddress 0;;
  st_next endAddress NULL;;
  st_size pucAlignedHeap (u64 (endAddress - pucAlignedHeap));;
  st_next pucAlignedHeap endAddress;;
  s ← ld_size pucAlignedHeap;
  set_free s;;
  f ← gets xFreeBytesRemaining;
  set_min f.

Definition init_if_needed : M heap unit :=
  e ← gets pxEnd; if e =? NULL then vPortInitialiseBlocks else mret tt.

(** The first-fit search: the previous block and the block it stopped at. *)
Fixpoint first_fit (fuel : nat) (pxPreviousBlock pxBlock xWantedSize : Z) : M heap (Z * Z) :=
  match fuel with
  | O => fails
  | S fuel =>
      s ← ld_size pxBlock;
      if s <? xWantedSize then
        nx ← ld_next pxBlock;
        if negb (nx =? NULL) then first_fit fuel pxBlock nx xWantedSize else mret (pxPreviousBlock, pxBlock)
      else mret (pxPreviousBlock, pxBlock)
  end.

(** The header and the rounding up to the alignment. *)
Definition wanted_size (xWantedSize : Z) : Z :=
  let w := u64 (xWantedSize + xHeapStructSize) in
  if negb (Z.land w heapALIGN_MASK =? 0)
  then u64 (w + (heapBYTE_ALIGNMENT - Z.land w heapALIGN_MASK)) else w.

Definition pvPortMalloc (xWanted : Z) : M heap Z :=
  init_if_needed;;
  if (xWanted =? 0) || negb (Z.land xWanted heapALLOC_BIT =? 0) then mret NULL
  else
    let xWantedSize := wanted_size xWanted in
    free ← gets xFreeBytesRemaining;
    if free <? xWantedSize then mret NULL
    else
      first ← ld_next (xStart lay);
      fuel ← gets list_fuel;
      '(pxPreviousBlock, pxBlock) ← first_fit fuel (xStart lay) first xWantedSize;
      e ← gets pxEnd;
      if negb (pxBlock =? e) then
        pn ← ld_next pxPreviousBlock;
        let pvReturn := u64 (pn + xHeapStructSize) in
        nx ← ld_next pxBlock;
        st_next pxPreviousBlock nx;;
        bs ← ld_size pxBlock;
        (if xHeapStructSize * 2 <? u64 (bs - xWantedSize) then
           let pxNewBlockLink := u64 (pxBlock + xWantedSize) in
           bs ← ld_size pxBlock;
           st_size pxNewBlockLink (u64 (bs - xWantedSize));;
           st_size pxBlock xWantedSize;;
           prvInsertBlockIntoFreeList pxNewBlockLink
         else mret tt);;
        f ← gets xFreeBytesRemaining;
        bs ← ld_size pxBlock;
        set_free (u64 (f - bs));;
        f ← gets xFreeBytesRemaining;
        mn ← gets xMinimumEverFreeBytes;
        (if f <? mn then set_min f else mret tt);;
        bs ← ld_size pxBlock;
        st_size pxBlock (Z.lor bs heapALLOC_BIT);;
        st_next pxBlock NULL;;
        mret pvReturn
      else mret NULL.

Definition vPortFree (pv : Z) : M heap unit :=
  if pv =? NULL then mret tt
  else
    let pxLink := u64 (pv - xHeapStructSize) in
    allocated ← prvBlockIsAllocated pxLink;
    if negb allocated then mret tt
    else
      s ← ld_size pxLink;
      st_size pxLink (Z.land s (notu 64 heapALLOC_BIT));;
      st_next pxLink NULL;;
      f ← gets xFreeBytesRemaining;
      s ← ld_size pxLink;
      set_free (u64 (f + s));;
      prvInsertBlockIntoFreeList pxLink.

Definition xPortGetFreeHeapSize : M heap Z := init_if_needed;; gets xFreeBytesRemaining.
Definition xPortGetMinimumEverFreeHeapSize : M heap Z := init_if_needed;; gets xMinimumEverFreeBytes.
End heap4.
