(* ===== verification/Heap4List.v ===== *)
(** * heap_4: the free list

    The address-ordered free list as a chain of headers from [xStart] to
    [pxEnd], and the refinement of [prvInsertBlockIntoFreeList] and of the
    first-fit search to operations on the sequence of free blocks. *)

From S2P Require Import Prelude Config Heap4.

Definition nx (h : heap) (a : Z) : Z := pxNextFreeBlock (hget h a).
Definition sz (h : heap) (a : Z) : Z := xBlockSize (hget h a).
Definition put_nx (a v : Z) (h : heap) : heap := hset a (BlockLink v (sz h a)) h.
Definition put_sz (a v : Z) (h : heap) : heap := hset a (BlockLink (nx h a) v) h.

Section fields.
Implicit Types (h : heap) (a v c : Z).

Lemma hget_hset a b h c : hget (hset a b h) c = if decide (c = a) then b else hget h c.
Proof. unfold hget, hset. simpl. rewrite lookup_insert. repeat case_decide; congruence || done. Qed.

Lemma nx_put_nx a v h c : nx (put_nx a v h) c = if decide (c = a) then v else nx h c.
Proof. unfold nx, put_nx. rewrite hget_hset. by case_decide. Qed.
Lemma sz_put_nx a v h c : sz (put_nx a v h) c = sz h c.
Proof. unfold sz, put_nx. rewrite hget_hset. case_decide; by subst. Qed.
Lemma nx_put_sz a v h c : nx (put_sz a v h) c = nx h c.
Proof. unfold nx, put_sz. rewrite hget_hset. case_decide; by subst. Qed.
Lemma sz_put_sz a v h c : sz (put_sz a v h) c = if decide (c = a) then v else sz h c.
Proof. unfold sz, put_sz. rewrite hget_hset. by case_decide. Qed.
Lemma dom_put_nx a v h : dom (hdr (put_nx a v h)) = {[a]} ∪ dom (hdr h).
Proof. unfold put_nx, hset. simpl. apply dom_insert_L. Qed.
Lemma dom_put_sz a v h : dom (hdr (put_sz a v h)) = {[a]} ∪ dom (hdr h).
Proof. unfold put_sz, hset. simpl. apply dom_insert_L. Qed.
Lemma dom_sub_nx a v h (D : gset Z) : D ⊆ dom (hdr h) -> D ⊆ dom (hdr (put_nx a v h)).
Proof. intros. rewrite dom_put_nx. by apply union_subseteq_r'. Qed.
Lemma dom_sub_sz a v h (D : gset Z) : D ⊆ dom (hdr h) -> D ⊆ dom (hdr (put_sz a v h)).
Proof. intros. rewrite dom_put_sz. by apply union_subseteq_r'. Qed.
Lemma dom_in_nx a v h : a ∈ dom (hdr (put_nx a v h)).
Proof. rewrite dom_put_nx. by apply elem_of_union_l, elem_of_singleton. Qed.
Lemma end_put_nx a v h : pxEnd (put_nx a v h) = pxEnd h.
Proof. done. Qed.
Lemma end_put_sz a v h : pxEnd (put_sz a v h) = pxEnd h.
Proof. done. Qed.
Lemma nx_put_end v h c : nx (put_end v h) c = nx h c.
Proof. done. Qed.
Lemma sz_put_end v h c : sz (put_end v h) c = sz h c.
Proof. done. Qed.
Lemma nx_put_free v h c : nx (put_free v h) c = nx h c.
Proof. done. Qed.
Lemma sz_put_free v h c : sz (put_free v h) c = sz h c.
Proof. done. Qed.
Lemma nx_put_min v h c : nx (put_min v h) c = nx h c.
Proof. done. Qed.
Lemma sz_put_min v h c : sz (put_min v h) c = sz h c.
Proof. done. Qed.
End fields.

Create Rewrite HintDb hp.
Create HintDb hpdom.
#[export] Hint Resolve dom_sub_nx dom_sub_sz dom_in_nx : hpdom.
#[export] Hint Rewrite nx_put_nx sz_put_nx nx_put_sz sz_put_sz dom_put_nx dom_put_sz end_put_nx end_put_sz
  nx_put_end sz_put_end nx_put_free sz_put_free nx_put_min sz_put_min : hp.

(** Decides the comparisons left after pushing field reads through writes. *)
Ltac hp_simpl := autorewrite with hp; repeat (case_decide; try lia; subst).

Section access.
Context (lay : layout).
Implicit Types (h : heap) (a p t : Z).

Lemma wp_ld_next a (Q : Z -> heap -> Prop) h :
  valid_addr lay a = true -> Q (nx h a) h -> wp (ld_next lay a) Q h.
Proof. intros Hv ?. unfold ld_next. rewrite Hv. by apply wp_gets. Qed.
Lemma wp_ld_size a (Q : Z -> heap -> Prop) h :
  valid_addr lay a = true -> Q (sz h a) h -> wp (ld_size lay a) Q h.
Proof. intros Hv ?. unfold ld_size. rewrite Hv. by apply wp_gets. Qed.
Lemma wp_hst_next a v (Q : unit -> heap -> Prop) h :
  valid_addr lay a = true -> Q tt (put_nx a v h) -> wp (st_next lay a v) Q h.
Proof. intros Hv ?. unfold st_next. rewrite Hv. by apply wp_modify. Qed.
Lemma wp_st_size a v (Q : unit -> heap -> Prop) h :
  valid_addr lay a = true -> Q tt (put_sz a v h) -> wp (st_size lay a v) Q h.
Proof. intros Hv ?. unfold st_size. rewrite Hv. by apply wp_modify. Qed.
End access.

(** Steps over the header accesses at valid addresses. *)
Ltac hp_step :=
  lazymatch goal with
  | |- wp (ld_next _ _) _ _ => apply wp_ld_next; [done|]
  | |- wp (ld_size _ _) _ _ => apply wp_ld_size; [done|]
  | |- wp (st_next _ _ _) _ _ => apply wp_hst_next; [done|]
  | |- wp (st_size _ _ _) _ _ => apply wp_st_size; [done|]
  | _ => wp_step
  end.
Ltac hp_steps := repeat (hp_step; cbn beta).

Section freelist.
Context (lay : layout).
Implicit Types (h : heap) (a p t : Z) (L : list Z) (fs F : list (Z * Z)).

(** [L] is the chain of headers from [p] (excluded) to [t] (excluded). *)
Fixpoint seg h p L t : Prop :=
  match L with
  | [] => nx h p = t
  | a :: L => nx h p = a /\ seg h a L t
  end.

Definition lasta p L : Z := match last L with Some a => a | None => p end.
Definition heada t L : Z := match head L with Some a => a | None => t end.

Lemma lasta_snoc p L a : lasta p (L ++ [a]) = a.
Proof. unfold lasta. by rewrite last_snoc. Qed.
Lemma lasta_cons p a L : lasta p (a :: L) = lasta a L.
Proof.
  unfold lasta. destruct L as [|b L]; [done|]. change (last (a :: b :: L)) with (last (b :: L)).
  by destruct (last (b :: L)) eqn:E; [|apply last_None in E].
Qed.

Lemma seg_app h p L1 L2 t : seg h p (L1 ++ L2) t <-> seg h p L1 (heada t L2) /\ seg h (lasta p L1) L2 t.
Proof.
  revert p. induction L1 as [|a L1 IH]; intros p.
  - simpl. destruct L2; simpl; tauto.
  - rewrite lasta_cons. simpl. rewrite IH. tauto.
Qed.

Lemma seg_nx h p L1 L2 t : seg h p (L1 ++ L2) t -> nx h (lasta p L1) = heada t L2.
Proof.
  intros [_ Hs]%seg_app. destruct L2; [done|]. by destruct Hs.
Qed.

Lemma seg_frame h h' p L t :
  (forall a, a ∈ p :: L -> nx h' a = nx h a) -> seg h p L t -> seg h' p L t.
Proof.
  revert p. induction L as [|a L IH]; intros p Hf; simpl.
  - intros <-. apply Hf. by left.
  - intros [<- Hs]. split; [apply Hf; by left|]. apply IH; [|done].
    intros b Hb. apply Hf. by right.
Qed.

(** Redirecting the last link. *)
Lemma seg_retarget h h' p L t t' :
  NoDup (p :: L) -> (forall a, a ∈ p :: L -> a <> lasta p L -> nx h' a = nx h a) ->
  nx h' (lasta p L) = t' -> seg h p L t -> seg h' p L t'.
Proof.
  revert p. induction L as [|a L IH]; intros p Hnd Hf Hl; simpl; [done|].
  rewrite lasta_cons in *. apply NoDup_cons in Hnd as [Hp Hnd].
  intros [Hn Hs]. split.
  - rewrite <- Hn. apply Hf; [by left|]. intros Heq. apply Hp. rewrite Heq. unfold lasta. destruct (last L) eqn:E; [|by left].
    right. by apply last_Some_elem_of.
  - apply IH; try done. intros b Hb. apply Hf. by right.
Qed.

(** Ascending, disjoint blocks between [lo] and [e]. *)
Fixpoint ordered (lo : Z) fs (e : Z) : Prop :=
  match fs with
  | [] => lo <= e
  | (a, s) :: fs => lo <= a /\ 0 < s /\ ordered (a + s) fs e
  end.

Lemma ordered_le lo fs e : ordered lo fs e -> lo <= e.
Proof. revert lo. induction fs as [|[a s] fs IH]; simpl; intros lo; [done|]. intros (? & ? & ?%IH). lia. Qed.

Lemma ordered_app lo F1 F2 e :
  ordered lo (F1 ++ F2) e <-> exists c, ordered lo F1 c /\ ordered c F2 e.
Proof.
  revert lo. induction F1 as [|[a s] F1 IH]; intros lo; simpl.
  - split; [intros ?; exists lo; by split|]. intros (c & Hc & Ho). destruct F2 as [|[b s] F2]; simpl in *; lia || intuition lia.
  - rewrite IH. naive_solver.
Qed.

Lemma ordered_elem lo fs e a s : ordered lo fs e -> (a, s) ∈ fs -> lo <= a /\ 0 < s /\ a + s <= e.
Proof.
  revert lo. induction fs as [|[b r] fs IH]; intros lo; simpl; [by intros _ ?%elem_of_nil|].
  intros (? & ? & Ho) [ [= -> ->]|Hin]%elem_of_cons.
  - apply ordered_le in Ho. lia.
  - destruct (IH _ Ho Hin). lia.
Qed.

Lemma ordered_nodup lo fs e : ordered lo fs e -> NoDup (fst <$> fs).
Proof.
  revert lo. induction fs as [|[b r] fs IH]; intros lo; simpl; [constructor|].
  intros (? & ? & Ho). constructor; [|by eapply IH].
  rewrite list_elem_of_fmap. intros ([c q] & Heq & Hin). simpl in Heq. subst.
  pose proof (ordered_elem _ _ _ _ _ Ho Hin). lia.
Qed.

Lemma ordered_weaken lo lo' fs e e' : lo' <= lo -> e <= e' -> ordered lo fs e -> ordered lo' fs e'.
Proof.
  revert lo lo'. induction fs as [|[b r] fs IH]; intros lo lo' ? ?; simpl; [lia|].
  intros (? & ? & Ho). split_and!; [lia..|]. by eapply IH; [..|exact Ho].
Qed.

(** ** Where the pool lies *)

(** First and last header addresses of the pool. *)
Definition pool_lo : Z := (ucHeap lay + 15) / 16 * 16.
Definition pool_end : Z := (ucHeap lay + configTOTAL_HEAP_SIZE - 16) / 16 * 16.

(** The linker's contract: the pool and [xStart] are non-null, below the top
    half of the address space, and disjoint. *)
Definition layout_ok : Prop :=
  0 < ucHeap lay /\ ucHeap lay + configTOTAL_HEAP_SIZE < 2 ^ 63 /\ 0 < xStart lay < 2 ^ 63 /\
  (xStart lay + 16 <= ucHeap lay \/ ucHeap lay + configTOTAL_HEAP_SIZE <= xStart lay).

Context (Hlay : layout_ok).

Lemma pool_bounds :
  0 < pool_lo /\ ucHeap lay <= pool_lo /\ pool_lo < pool_end /\
  pool_end + 16 <= ucHeap lay + configTOTAL_HEAP_SIZE /\ pool_end + 16 < 2 ^ 63.
Proof.
  destruct Hlay as (? & ? & ? & ?). unfold pool_lo, pool_end, configTOTAL_HEAP_SIZE in *.
  Z.to_euclidean_division_equations. lia.
Qed.

Lemma valid_pool a : pool_lo <= a <= pool_end -> valid_addr lay a = true.
Proof.
  pose proof pool_bounds. intros. unfold valid_addr, sizeof_BlockLink_t.
  apply orb_true_iff. right. apply andb_true_iff. split; apply Z.leb_le; lia.
Qed.
Lemma valid_start : valid_addr lay (xStart lay) = true.
Proof. unfold valid_addr. by rewrite Z.eqb_refl. Qed.
Lemma start_outside a : pool_lo <= a <= pool_end -> a <> xStart lay.
Proof. pose proof pool_bounds. destruct Hlay as (? & ? & ? & ?). lia. Qed.

Record frep h fs : Prop := {
  fr_seg : seg h (xStart lay) (fst <$> fs) pool_end;
  fr_sz : forall a s, (a, s) ∈ fs -> sz h a = s;
  fr_dom : forall a s, (a, s) ∈ fs -> a ∈ dom (hdr h);
  fr_ord : ordered pool_lo fs pool_end;
  fr_start : sz h (xStart lay) = 0;
  fr_end_nx : nx h pool_end = 0;
  fr_end_sz : sz h pool_end = 0;
  fr_end : pxEnd h = pool_end }.

Lemma frep_elem h fs a s : frep h fs -> (a, s) ∈ fs -> pool_lo <= a /\ 0 < s /\ a + s <= pool_end.
Proof. intros Hr. eapply ordered_elem, Hr. Qed.

Lemma frep_length h fs : frep h fs -> (length fs <= size (hdr h))%nat.
Proof.
  intros Hr. rewrite <- size_dom, <- (length_fmap fst fs).
  rewrite <- (size_list_to_set (C := gset Z)) by (eapply ordered_nodup, Hr).
  apply subseteq_size. intros a. rewrite elem_of_list_to_set, list_elem_of_fmap.
  intros ([b s] & -> & Hin). by eapply fr_dom.
Qed.

(** The free blocks before an insertion point, as addresses. *)
Definition before F : Z := lasta (xStart lay) (fst <$> F).

Lemma before_elem F : before F = xStart lay \/ exists s, (before F, s) ∈ F.
Proof.
  unfold before. induction F as [|[a s] F _] using rev_ind; [by left|].
  right. rewrite fmap_app. cbn [fmap list_fmap fst]. rewrite lasta_snoc. exists s. apply elem_of_app. right. by left.
Qed.

Lemma valid_before h F F' : frep h (F ++ F') -> valid_addr lay (before F) = true.
Proof.
  intros Hr. destruct (before_elem F) as [->|[s Hin] ]; [apply valid_start|].
  apply valid_pool. destruct (frep_elem h _ (before F) s Hr); [apply elem_of_app; by left|]. lia.
Qed.

(** Linking a block in place of the blocks [G] between [F1] and [F2]. *)
Lemma frep_link h h' F1 G F2 b s :
  frep h (F1 ++ G ++ F2) -> ordered pool_lo F1 b -> 0 < s -> ordered (b + s) F2 pool_end ->
  nx h' (before F1) = b -> nx h' b = heada pool_end (fst <$> F2) -> sz h' b = s ->
  (forall a, a <> b -> a <> before F1 -> nx h' a = nx h a) -> (forall a, a <> b -> sz h' a = sz h a) ->
  pxEnd h' = pxEnd h -> b ∈ dom (hdr h') -> dom (hdr h) ⊆ dom (hdr h') ->
  frep h' (F1 ++ (b, s) :: F2).
Proof.
  intros Hr H1 Hs H2 Hp Hb Hsz Hnx Hszs Hend Hdb Hdom.
  pose proof (ordered_le _ _ _ H1) as Hlo. pose proof (ordered_le _ _ _ H2) as Hhi.
  pose proof (start_outside b ltac:(lia)) as Hbs.
  assert (Hin1 : forall a q, (a, q) ∈ F1 -> pool_lo <= a /\ 0 < q /\ a + q <= b) by (intros; by eapply ordered_elem).
  assert (Hin2 : forall a q, (a, q) ∈ F2 -> b + s <= a /\ 0 < q /\ a + q <= pool_end) by (intros; by eapply ordered_elem).
  assert (Hbef : forall a, b < a <= pool_end -> a <> before F1).
  { intros a Ha. destruct (before_elem F1) as [->|[q Hq%Hin1] ]; [|lia]. apply start_outside. lia. }
  destruct Hr as [Hseg Hsizes Hdoms Hord Hst Hen Hes Hpe].
  assert (Hnd : NoDup (xStart lay :: (fst <$> F1))).
  { constructor; [|by eapply ordered_nodup]. rewrite list_elem_of_fmap. intros ([a q] & Heq & Hq%Hin1).
    simpl in Heq. subst a. eapply start_outside; [|done]. lia. }
  assert (forall a, a ∈ fst <$> F1 -> a <> b).
  { intros a. rewrite list_elem_of_fmap. intros ([c q] & -> & Hq%Hin1). simpl. lia. }
  constructor.
  - rewrite fmap_app in *. cbn [fmap list_fmap fst]. apply seg_app. split.
    + apply seg_app in Hseg as [Hseg _]. simpl. eapply seg_retarget; [done| |exact Hp|exact Hseg].
      intros a Ha Hne. apply Hnx; [|done]. apply elem_of_cons in Ha as [->|Ha]; [done|auto].
    + cbn [seg]. split; [done|]. rewrite fmap_app, app_assoc in Hseg. apply seg_app in Hseg as [_ Hseg].
      destruct F2 as [|[a2 s2] F2]; [exact Hb|]. cbn [fmap list_fmap fst seg] in Hseg |- *.
      split; [by rewrite Hb|]. destruct Hseg as [_ Hseg]. eapply seg_frame; [|exact Hseg].
      intros a Ha. assert (exists q, (a, q) ∈ (a2, s2) :: F2) as [q Hq%Hin2].
      { change (a2 :: (fst <$> F2)) with (fst <$> (a2, s2) :: F2) in Ha.
        apply list_elem_of_fmap in Ha as ([c q] & -> & ?). by exists q. }
      apply Hnx; [lia|]. apply Hbef. lia.
  - intros a q. rewrite elem_of_app, elem_of_cons. intros Hq.
    destruct (decide (a = b)) as [->|Hne].
    + destruct Hq as [?%Hin1|[ [= ->]|?%Hin2] ]; [lia|done|lia].
    + rewrite Hszs by done. destruct Hq as [Hq|[ [= -> ->]|Hq] ]; [..|done|]; apply Hsizes; set_solver.
  - intros a q. rewrite elem_of_app, elem_of_cons. intros [Hq|[ [= -> ->]|Hq] ]; [|done|]; apply Hdom, (Hdoms a q); set_solver.
  - apply ordered_app. exists b. split; [done|]. simpl. split_and!; [lia..|done].
  - by rewrite Hszs.
  - rewrite Hnx; [done|lia|]. apply Hbef. lia.
  - rewrite Hszs; [done|lia].
  - by rewrite Hend.
Qed.

(** ** Inserting a block *)

Lemma wp_find_position h F1 F2 x fuel :
  frep h (F1 ++ F2) -> ordered pool_lo F1 x -> x <= heada pool_end (fst <$> F2) ->
  forall G1 G2, F1 = G1 ++ G2 -> (length G2 < fuel)%nat ->
  wp (find_position lay fuel (before G1) x) (fun p h' => h' = h /\ p = before F1) h.
Proof.
  intros Hr Ho Hx G1 G2. revert G1 fuel. induction G2 as [|[a s] G2 IH]; intros G1 [|fuel] HF Hf; simpl in Hf; try lia.
  all: assert (Hv : valid_addr lay (before G1) = true) by
    (eapply (valid_before h G1); rewrite HF, <- app_assoc in Hr; exact Hr).
  all: pose proof (fr_seg _ _ Hr) as Hs; rewrite HF, <- app_assoc, fmap_app in Hs;
    apply seg_nx in Hs; fold (before G1) in Hs.
  all: cbn [find_position]; apply wp_bind, wp_ld_next; [done|]; rewrite Hs.
  - cbn [app]. destruct (Z.ltb_spec (heada pool_end (fst <$> F2)) x); [lia|].
    apply wp_ret. split; [done|]. by rewrite HF, app_nil_r.
  - cbn [app fmap list_fmap fst heada head].
    assert (a < x) by (destruct (ordered_elem _ _ _ a s Ho); [rewrite HF; set_solver|lia]).
    unfold heada; cbn. destruct (Z.ltb_spec a x); [|lia].
    specialize (IH (G1 ++ [(a, s)]) fuel). unfold before at 1 in IH.
    rewrite fmap_app in IH. cbn [fmap list_fmap fst] in IH. rewrite lasta_snoc in IH.
    apply IH; [by rewrite HF, <- app_assoc|lia].
Qed.

(** A block joins the one that follows it. *)
Definition join (b : Z * Z) fs : list (Z * Z) :=
  match fs with
  | (n, r) :: fs' => if b.1 + b.2 =? n then (b.1, b.2 + r) :: fs' else b :: fs
  | [] => [b]
  end.

(** Insertion of [(x, s)] between [F1] and [F2], coalescing on both sides. *)
Definition fs_insert F1 (x s : Z) F2 : list (Z * Z) :=
  match last F1 with
  | Some (a, r) => if a + r =? x then removelast F1 ++ join (a, r + s) F2 else F1 ++ join (x, s) F2
  | None => join (x, s) F2
  end.

(** What insertion leaves alone. *)
Definition hframe h h' (fs : list (Z * Z)) (x : Z) : Prop :=
  (forall a, a <> xStart lay -> a ∉ (fst <$> fs) -> a <> x -> nx h' a = nx h a /\ sz h' a = sz h a) /\
  dom (hdr h) ⊆ dom (hdr h') /\
  xFreeBytesRemaining h' = xFreeBytesRemaining h /\ xMinimumEverFreeBytes h' = xMinimumEverFreeBytes h.

(** The second half of the routine, once [pxIterator] and the block to insert
    are known: join with the successor and set the block's link. *)
Definition join_next (pxIterator pxBlockToInsert : Z) : M heap unit :=
  bSize ← ld_size lay pxBlockToInsert;
  nx ← ld_next lay pxIterator;
  (if u64 (pxBlockToInsert + bSize) =? nx then
     nx ← ld_next lay pxIterator; e ← gets pxEnd;
     if negb (nx =? e) then
       bs ← ld_size lay pxBlockToInsert; nx ← ld_next lay pxIterator; ns ← ld_size lay nx;
       st_size lay pxBlockToInsert (u64 (bs + ns));;
       nx ← ld_next lay pxIterator; nn ← ld_next lay nx;
       st_next lay pxBlockToInsert nn
     else st_next lay pxBlockToInsert e
   else nx ← ld_next lay pxIterator; st_next lay pxBlockToInsert nx);;
  if negb (pxIterator =? pxBlockToInsert) then st_next lay pxIterator pxBlockToInsert else mret tt.

Lemma hframe_trans h1 h2 h3 fs x : hframe h1 h2 fs x -> hframe h2 h3 fs x -> hframe h1 h3 fs x.
Proof.
  intros (Ha & Hd & Hf & Hm) (Ha' & Hd' & Hf' & Hm'). split_and!; try congruence; [|set_solver].
  intros a ? ? ?. destruct (Ha a), (Ha' a); try done. split; congruence.
Qed.
Lemma hframe_put_nx v h fs x : hframe h (put_nx x v h) fs x.
Proof.
  split_and!; try done; [|auto with hpdom].
  intros a _ _ ?. autorewrite with hp. by rewrite decide_False.
Qed.
Lemma hframe_put_sz v h fs x : hframe h (put_sz x v h) fs x.
Proof.
  split_and!; try done; [|auto with hpdom].
  intros a _ _ ?. autorewrite with hp. by rewrite decide_False.
Qed.

Lemma wp_join_link h0 h F1 G F2 x b s fs :
  frep h0 (F1 ++ G ++ F2) -> ordered pool_lo F1 b -> 0 < s -> ordered (b + s) F2 pool_end ->
  valid_addr lay x = true ->
  (x = before F1 /\ x <> b \/ x = b /\ nx h0 (before F1) = b /\ before F1 <> b) ->
  nx h b = heada pool_end (fst <$> F2) -> sz h b = s ->
  (forall a, a <> b -> sz h a = sz h0 a) -> (forall a, a <> b -> nx h a = nx h0 a) ->
  pxEnd h = pxEnd h0 -> b ∈ dom (hdr h) -> dom (hdr h0) ⊆ dom (hdr h) ->
  (x = xStart lay \/ x ∈ fst <$> fs \/ x = b) ->
  wp (if negb (x =? b) then st_next lay x b else mret tt) (fun _ h' =>
    frep h' (F1 ++ (b, s) :: F2) /\ hframe h h' fs b) h.
Proof.
  intros Hr H1 Hs H2 Hv Hx Hnb Hsb Hsz Hnx Hend Hdb Hdom Hfs.
  destruct (Z.eqb_spec x b) as [->|Hne]; simpl.
  - destruct Hx as [ [_ ?]|(_ & Hbf & Hne)]; [done|]. apply wp_ret. split; [|done].
    eapply frep_link; try done.
    + by rewrite Hnx.
    + intros a ? _. by apply Hnx.
  - destruct Hx as [ [-> _]|(-> & _)]; [|done]. apply wp_hst_next; [done|]. split.
    + eapply frep_link; try done; intros; autorewrite with hp; repeat case_decide; subst; try done; auto; set_solver.
    + split_and!; try done; [|auto with hpdom].
      intros a Ha1 Ha2 Ha3. autorewrite with hp. rewrite decide_False; [done|].
      intros ->. naive_solver.
Qed.

(** The block whose link is set is the one before [b], or [b] itself when it grew. *)
Lemma join_place h0 F1 G F2 b (x := before (F1 ++ G)) :
  frep h0 (F1 ++ G ++ F2) -> ordered pool_lo F1 b -> b <= pool_end -> (G = [] \/ exists r, G = [(b, r)]) ->
  (x = before F1 /\ x <> b \/ x = b /\ nx h0 (before F1) = b /\ before F1 <> b) /\ (x = xStart lay \/ x ∈ fst <$> (F1 ++ G ++ F2) \/ x = b).
Proof.
  intros Hr H1 Hb HG. pose proof (ordered_le _ _ _ H1).
  assert (before F1 <> b) as Hbf.
  { destruct (before_elem F1) as [->|[q Hq] ]; [intros Heq; symmetry in Heq; revert Heq; apply start_outside; lia|].
    pose proof (ordered_elem _ _ _ _ _ H1 Hq). lia. }
  assert (x = before F1 /\ x <> b \/ x = b /\ nx h0 (before F1) = b /\ before F1 <> b) as Hcase.
  { subst x. destruct HG as [->|[r ->] ]; [left; by rewrite app_nil_r|]. right.
    split_and!; [unfold before; rewrite fmap_app; apply lasta_snoc|pose proof (fr_seg _ _ Hr) as Hseg; rewrite fmap_app in Hseg; by apply seg_nx in Hseg|done]. }
  split; [done|]. destruct Hcase as [ [-> _]|[-> _] ]; [|auto]. destruct (before_elem F1) as [|[q Hq] ]; [auto|].
  right; left. apply list_elem_of_fmap. exists (before F1, q). split; [done|]. set_solver.
Qed.
(** The link of a listed block. *)
Lemma frep_next h F n r F2 : frep h (F ++ (n, r) :: F2) -> nx h n = heada pool_end (fst <$> F2).
Proof.
  intros Hr. pose proof (fr_seg _ _ Hr) as Hseg. replace (F ++ (n, r) :: F2) with ((F ++ [(n, r)]) ++ F2) in Hseg by (by rewrite <- app_assoc).
  rewrite fmap_app in Hseg. apply seg_nx in Hseg. rewrite fmap_app in Hseg. cbn [fmap list_fmap fst] in Hseg. by rewrite lasta_snoc in Hseg.
Qed.

Lemma wp_join_next h0 h F1 G F2 x b s :
  (** [G] is empty, or the single block [b] that grew to size [s] *)
  frep h0 (F1 ++ G ++ F2) -> ordered pool_lo F1 b -> 0 < s -> ordered (b + s) F2 pool_end ->
  (G = [] \/ exists r, G = [(b, r)]) ->
  before (F1 ++ G) = x ->
  sz h b = s -> (forall a, a <> b -> sz h a = sz h0 a) -> (forall a, nx h a = nx h0 a) ->
  pxEnd h = pxEnd h0 -> dom (hdr h0) ⊆ dom (hdr h) ->
  wp (join_next x b) (fun _ h' => frep h' (F1 ++ join (b, s) F2) /\
    hframe h h' (F1 ++ G ++ F2) b) h.
Proof.
  intros Hr H1 Hs H2 HG Hx Hsb Hsz Hnx Hend Hdom.
  pose proof (ordered_le _ _ _ H1). pose proof (ordered_le _ _ _ H2). pose proof pool_bounds.
  assert (Hvb : valid_addr lay b = true) by (apply valid_pool; lia).
  assert (Hvx : valid_addr lay x = true).
  { rewrite <- Hx. rewrite app_assoc in Hr. by eapply valid_before. }
  assert (Hnxx : nx h x = heada pool_end (fst <$> F2)).
  { rewrite Hnx, <- Hx. pose proof (fr_seg _ _ Hr) as Hseg. rewrite app_assoc, fmap_app in Hseg.
    by apply seg_nx in Hseg. }
  destruct (join_place h0 F1 G F2 b Hr H1 ltac:(lia) HG) as [Hcase Hxfs]. rewrite Hx in Hcase, Hxfs.
  unfold join_next. hp_steps. rewrite Hnxx, Hsb.
  rewrite (wrapu_small 64) by (unfold in_u; lia).
  destruct F2 as [|[n r] F2].
  - assert (Hput : wp (if negb (x =? b) then st_next lay x b else mret tt) (fun _ h' =>
      frep h' (F1 ++ [(b, s)]) /\ hframe h h' (F1 ++ G ++ []) b) (put_nx b pool_end h)).
    { eapply wp_mono.
      - eapply (wp_join_link h0 (put_nx b pool_end h) F1 G []); try done; try (by auto with hpdom); intros; hp_simpl; auto.
      - intros ? h' [? ?]. split; [done|]. eapply hframe_trans; [apply hframe_put_nx|done]. }
    cbn [fmap list_fmap heada head join]. unfold heada; cbn.
    destruct (Z.eqb_spec (b + s) pool_end); hp_steps; rewrite ?Hnxx, ?Hend, ?(fr_end _ _ Hr); [|done].
    unfold heada; cbn. rewrite Z.eqb_refl. cbn. by hp_steps.
  - pose proof H2 as (Hbn & Hr0 & Ho). pose proof (ordered_le _ _ _ Ho).
    unfold heada; cbn [fmap list_fmap head fst join]. cbn [fst snd].
    assert (Hvn : valid_addr lay n = true) by (apply valid_pool; lia).
    destruct (Z.eqb_spec (b + s) n) as [Heq|Hne].
    + assert (Hszn : sz h0 n = r) by (eapply fr_sz; [exact Hr|set_solver]).
      assert (Hnn : nx h0 n = heada pool_end (fst <$> F2)) by (eapply (frep_next h0 (F1 ++ G)); rewrite <- app_assoc; exact Hr).
      cbn [fmap list_fmap fst] in Hnxx. unfold heada in Hnxx; cbn in Hnxx.
      hp_steps. rewrite Hnxx, Hend, (fr_end _ _ Hr). destruct (Z.eqb_spec n pool_end); [lia|]. cbn.
      hp_steps. rewrite Hnxx. hp_steps. autorewrite with hp. rewrite Hnxx. hp_steps. autorewrite with hp.
      rewrite Hsb, (Hsz n), Hszn, (wrapu_small 64), Hnx, Hnn by (unfold in_u; lia).
      eapply wp_mono.
      * eapply (wp_join_link h0 _ F1 (G ++ [(n, r)]) F2 x b (s + r)); try done; try lia; try (by auto with hpdom);
          try (by intros; hp_simpl; auto); [by rewrite <- !app_assoc|by replace (b + (s + r)) with (n + r) by lia].
      * intros ? h' [? ?]. split; [done|].
        eapply hframe_trans; [|done]. eapply hframe_trans; [apply hframe_put_sz|apply hframe_put_nx].
    + hp_steps. rewrite Hnxx. eapply wp_mono.
      * eapply (wp_join_link h0 _ F1 G ((n, r) :: F2) x b s); try done; try (by auto with hpdom); intros; hp_simpl; auto.
      * intros ? h' [? ?]. split; [done|]. eapply hframe_trans; [apply hframe_put_nx|done].
Qed.

Lemma join_listed h F1 x s F2 : frep h (F1 ++ join (x, s) F2) -> in_u 63 (sz h x).
Proof.
  intros Hr. pose proof pool_bounds as (? & ? & ? & ? & ?).
  assert (exists r, (x, r) ∈ F1 ++ join (x, s) F2) as [r Hin].
  { unfold join. destruct F2 as [|[n q] F2]; simpl; [exists s|destruct (_ =? _); [exists (s + q)|exists s] ];
      apply elem_of_app; right; by left. }
  rewrite (fr_sz _ _ Hr x r Hin). pose proof (frep_elem _ _ _ _ Hr Hin). unfold in_u. lia.
Qed.

(** A block between two parts of the list is not on it. *)
Lemma between_off F1 F2 x s : ordered pool_lo F1 x -> 0 < s -> ordered (x + s) F2 pool_end -> x ∉ fst <$> F1 ++ F2.
Proof.
  intros H1 Hs H2. rewrite list_elem_of_fmap. intros ([c q] & -> & [Hin1|Hin2]%elem_of_app); simpl in *.
  - pose proof (ordered_elem _ _ _ _ _ H1 Hin1). lia.
  - pose proof (ordered_elem _ _ _ _ _ H2 Hin2). lia.
Qed.
(** Growing a listed block [a] instead of inserting [x] touches less. *)
Lemma hframe_grown h h' fs a x v : a ∈ fst <$> fs -> x ∉ fst <$> fs -> x <> xStart lay -> hframe (put_sz a v h) h' fs a -> hframe h h' fs x /\ sz h' x = sz h x.
Proof.
  intros Ha Hx Hx0 (Hfa & Hfd & Hff & Hfm).
  assert (forall c, c <> xStart lay -> c ∉ fst <$> fs -> nx h' c = nx h c /\ sz h' c = sz h c) as Hc.
  { intros c Hc1 Hc2. assert (c <> a) by (by intros ->). destruct (Hfa c Hc1 Hc2) as [Hn Hz]; [done|]. revert Hn Hz. autorewrite with hp. by rewrite decide_False by done. }
  split; [|by apply Hc]. split_and!; try done; [intros c ? ? _; by apply Hc|]. etrans; [|exact Hfd]. auto with hpdom.
Qed.

(** The block before [x] ends where [x] begins: it grows by [x]. *)
Lemma wp_join_grown h F1 F2 a r x s :
  frep h ((F1 ++ [(a, r)]) ++ F2) -> ordered pool_lo (F1 ++ [(a, r)]) x -> ordered pool_lo F1 a -> 0 < r -> 0 < s -> a + r = x -> ordered (x + s) F2 pool_end -> sz h x = s ->
  wp (join_next a a) (fun _ h' => frep h' (F1 ++ join (a, r + s) F2) /\ hframe h h' ((F1 ++ [(a, r)]) ++ F2) x /\ in_u 63 (sz h' x)) (put_sz a (r + s) h).
Proof.
  intros Hr H1 Ho1 Hr0 Hs Hax H2 Hsz. pose proof (ordered_le _ _ _ H1). pose proof (ordered_le _ _ _ H2). pose proof pool_bounds. eapply wp_mono.
  - eapply (wp_join_next h _ F1 [(a, r)] F2 a a (r + s)); try done; try (by intros; hp_simpl); try (by auto with hpdom); [by rewrite app_assoc|lia| |right; by exists r|].
    + by replace (a + (r + s)) with (x + s) by lia.
    + unfold before. rewrite fmap_app. apply lasta_snoc.
  - intros ? h' [? Hf]. split; [done|]. rewrite app_assoc in Hf. eapply (hframe_grown _ _ _ _ x) in Hf as [Hf Hz].
    + split; [done|]. rewrite Hz, Hsz. unfold in_u; lia.
    + rewrite !fmap_app. set_solver.
    + by eapply between_off.
    + apply start_outside. lia.
Qed.

(** [prvInsertBlockIntoFreeList] inserts in address order and coalesces. *)
Lemma wp_prvInsert h F1 F2 x s :
  frep h (F1 ++ F2) -> ordered pool_lo F1 x -> 0 < s -> ordered (x + s) F2 pool_end ->
  sz h x = s ->
  wp (prvInsertBlockIntoFreeList lay x) (fun _ h' => frep h' (fs_insert F1 x s F2) /\
    hframe h h' (F1 ++ F2) x /\ in_u 63 (sz h' x)) h.
Proof.
  intros Hr H1 Hs H2 Hsz.
  (** the routine, with its second half named *)
  change (wp (fuel ← gets list_fuel;
   pxIterator ← find_position lay fuel (xStart lay) x;
   itSize ← ld_size lay pxIterator;
   b ← (if u64 (pxIterator + itSize) =? x then
       s ← ld_size lay pxIterator; bs ← ld_size lay x;
       st_size lay pxIterator (u64 (s + bs));; mret pxIterator
     else mret x);
   join_next pxIterator b)
   (fun _ h' => frep h' (fs_insert F1 x s F2) /\ hframe h h' (F1 ++ F2) x /\ in_u 63 (sz h' x)) h).
  pose proof (ordered_le _ _ _ H1). pose proof (ordered_le _ _ _ H2). pose proof pool_bounds.
  assert (Hvx : valid_addr lay x = true) by (apply valid_pool; lia).
  hp_steps. eapply wp_mono.
  { apply (wp_find_position h F1 F2 x _ Hr H1) with (G1 := []) (G2 := F1); [|done|].
    - destruct F2 as [|[n r] F2]; unfold heada; cbn; [lia|]. destruct H2 as (? & ? & ?). lia.
    - unfold list_fuel. pose proof (frep_length _ _ Hr) as Hlen. rewrite length_app in Hlen. lia. }
  intros ? ? [-> ->]. cbn beta.
  pose proof (valid_before _ _ _ Hr) as Hvb. hp_steps.
  unfold fs_insert. induction F1 as [|[a r] F1 _] using rev_ind.
  - cbn [last]. unfold before at 1 2 3. cbn [fmap list_fmap lasta last]. unfold lasta; cbn.
    rewrite (fr_start _ _ Hr), Z.add_0_r, (wrapu_small 64) by (destruct Hlay as (? & ? & ? & ?); unfold in_u; lia).
    destruct (Z.eqb_spec (xStart lay) x) as [Heq|_]; [exfalso; eapply (start_outside x); [lia|done]|].
    hp_steps. eapply wp_mono; [by eapply (wp_join_next h h [] [] F2 (xStart lay) x s); try done; left|].
    intros ? h' [? ?]. split_and!; [done|done|]. by eapply (join_listed h' []).
  - rewrite last_snoc. unfold before in *. rewrite fmap_app in *. cbn [fmap list_fmap fst] in *. rewrite lasta_snoc in *.
    assert (Hin : (a, r) ∈ (F1 ++ [(a, r)]) ++ F2) by set_solver.
    rewrite (fr_sz _ _ Hr a r Hin). destruct (frep_elem _ _ _ _ Hr Hin) as (? & ? & ?).
    rewrite (wrapu_small 64) by (unfold in_u; lia).
    assert (Hra : ordered pool_lo F1 a /\ 0 < r /\ a + r <= x).
    { apply ordered_app in H1 as (c & Ho1 & (? & ? & ?)). split; [|split; done]. eapply ordered_weaken; [| |exact Ho1]; lia. }
    destruct Hra as (Ho1 & Hr0 & Hax).
    destruct (Z.eqb_spec (a + r) x) as [Heq|Hne]; hp_steps.
    + rewrite (fr_sz _ _ Hr a r Hin), Hsz, (wrapu_small 64) by (unfold in_u; lia).
      rewrite removelast_last. by apply wp_join_grown.
    + eapply wp_mono.
      * eapply (wp_join_next h h (F1 ++ [(a, r)]) [] F2 a x s); try done; [by left|].
        rewrite app_nil_r. unfold before. rewrite fmap_app. apply lasta_snoc.
      * intros ? h' [? ?]. split_and!; [done|done|]. by eapply join_listed.
Qed.

(** ** Unlinking, framing and searching *)

Lemma frep_frame h h' fs :
  (forall a, a = xStart lay \/ a ∈ fst <$> fs \/ a = pool_end -> nx h' a = nx h a /\ sz h' a = sz h a) ->
  dom (hdr h) ⊆ dom (hdr h') -> pxEnd h' = pxEnd h -> frep h fs -> frep h' fs.
Proof.
  intros Hf Hd He [Hseg Hsz Hdom Hord Hst Hen Hes Hpe].
  assert (Hel : forall a s, (a, s) ∈ fs -> a ∈ fst <$> fs) by (intros a s ?; apply list_elem_of_fmap; by exists (a, s)).
  constructor; try done.
  - eapply seg_frame; [|done]. intros a [->|Ha]%elem_of_cons; apply Hf; auto.
  - intros a s Hin. rewrite (proj2 (Hf a ltac:(eauto))). by apply Hsz.
  - intros a s Hin. eapply Hd, Hdom, Hin.
  - by rewrite (proj2 (Hf (xStart lay) ltac:(auto))).
  - by rewrite (proj1 (Hf pool_end ltac:(auto))).
  - by rewrite (proj2 (Hf pool_end ltac:(auto))).
  - by rewrite He.
Qed.

Lemma frep_before_ne h F1 a s F2 : frep h (F1 ++ (a, s) :: F2) ->
  forall c, a <= c <= pool_end -> c <> before F1.
Proof.
  intros Hr c Hc. pose proof (fr_ord _ _ Hr) as (d & Ho & Hd & ? & ?)%ordered_app.
  destruct (before_elem F1) as [->|[q Hq] ].
  - apply start_outside. pose proof (ordered_le _ _ _ Ho). lia.
  - pose proof (ordered_elem _ _ _ _ _ Ho Hq). lia.
Qed.

Lemma frep_unlink h F1 a s F2 :
  frep h (F1 ++ (a, s) :: F2) -> frep (put_nx (before F1) (nx h a) h) (F1 ++ F2).
Proof.
  intros Hr. pose proof (frep_before_ne _ _ _ _ _ Hr) as Hbe.
  destruct (frep_elem _ _ a s Hr) as (? & ? & ?); [set_solver|].
  destruct Hr as [Hseg Hsz Hdom Hord Hst Hen Hes Hpe].
  assert (Hnx : nx h a = heada pool_end (fst <$> F2)).
  { replace (F1 ++ (a, s) :: F2) with ((F1 ++ [(a, s)]) ++ F2) in Hseg by (by rewrite <- app_assoc).
    rewrite fmap_app in Hseg. apply seg_nx in Hseg. rewrite fmap_app in Hseg.
    cbn [fmap list_fmap fst] in Hseg. by rewrite lasta_snoc in Hseg. }
  assert (Hnd : NoDup (xStart lay :: (fst <$> F1))).
  { constructor.
    - rewrite list_elem_of_fmap. intros ([c q] & Heq & Hq). simpl in Heq. subst c.
      destruct (ordered_elem _ _ _ (xStart lay) q Hord); [set_solver|]. eapply start_outside; [|done]. lia.
    - apply ordered_app in Hord as (? & Ho & _). by eapply ordered_nodup. }
  constructor; autorewrite with hp; try done.
  - rewrite fmap_app in *. apply seg_app in Hseg as [Hs1 Hs2]. cbn [fmap list_fmap fst seg] in Hs2.
    destruct Hs2 as [_ Hs2]. apply seg_app. split.
    + eapply seg_retarget; [done| | |exact Hs1].
      * intros c _ Hne. autorewrite with hp. by rewrite decide_False.
      * fold (before F1). autorewrite with hp. by rewrite decide_True.
    + destruct F2 as [|[a2 s2] F2]; cbn [fmap list_fmap fst seg] in *.
      * fold (before F1). autorewrite with hp. by rewrite decide_True.
      * split; [fold (before F1); autorewrite with hp; by rewrite decide_True|].
        destruct Hs2 as [Ha2 Hs2]. eapply seg_frame; [|exact Hs2]. intros c Hc. autorewrite with hp.
        rewrite decide_False; [done|]. apply Hbe.
        apply ordered_app in Hord as (d & _ & Hd & ? & Ho2).
        assert (exists q, (c, q) ∈ (a2, s2) :: F2) as [q Hq].
        { change (a2 :: (fst <$> F2)) with (fst <$> (a2, s2) :: F2) in Hc.
          apply list_elem_of_fmap in Hc as ([c' q] & -> & ?). by exists q. }
        pose proof (ordered_elem _ _ _ _ _ Ho2 Hq). lia.
  - intros c q Hq. autorewrite with hp. apply Hsz. set_solver.
  - intros c q Hq. apply elem_of_union_r, (Hdom c q). set_solver.
  - apply ordered_app in Hord as (d & Ho1 & Hd & ? & Ho2). apply ordered_app. exists d. split; [done|].
    eapply ordered_weaken; [| |exact Ho2]; lia.
  - rewrite decide_False; [done|]. apply Hbe. lia.
Qed.

Lemma wp_first_fit h fs w :
  frep h fs -> 0 < w ->
  forall G2 G1 fuel, fs = G1 ++ G2 -> Forall (fun b => b.2 < w) G1 -> (length G2 < fuel)%nat ->
  wp (first_fit lay fuel (before G1) (heada pool_end (fst <$> G2)) w) (fun r h' => h' = h /\
    ((exists F1 a s F2, fs = F1 ++ (a, s) :: F2 /\ Forall (fun b => b.2 < w) F1 /\ w <= s /\ r = (before F1, a)) \/
     (Forall (fun b => b.2 < w) fs /\ r.2 = pool_end))) h.
Proof.
  intros Hr Hw. pose proof pool_bounds. induction G2 as [|[a s] G2 IH]; intros G1 [|fuel] Hfs Hall Hf; simpl in Hf; try lia.
  - cbn [fmap list_fmap heada head first_fit]. unfold heada; cbn.
    assert (valid_addr lay pool_end = true) by (apply valid_pool; lia).
    hp_steps. rewrite (fr_end_sz _ _ Hr). destruct (Z.ltb_spec 0 w); [|lia]. hp_steps.
    rewrite (fr_end_nx _ _ Hr). cbn. hp_steps. split; [done|]. right.
    rewrite Hfs, app_nil_r. done.
  - assert (Hin : (a, s) ∈ fs) by (rewrite Hfs; set_solver).
    destruct (frep_elem _ _ a s Hr Hin) as (? & ? & ?).
    assert (valid_addr lay a = true) by (apply valid_pool; lia).
    cbn [fmap list_fmap fst first_fit]. unfold heada; cbn [head].
    hp_steps. rewrite (fr_sz _ _ Hr a s Hin). destruct (Z.ltb_spec s w).
    + assert (Hnx : nx h a = heada pool_end (fst <$> G2)).
      { pose proof (fr_seg _ _ Hr) as Hseg. rewrite Hfs in Hseg.
        replace (G1 ++ (a, s) :: G2) with ((G1 ++ [(a, s)]) ++ G2) in Hseg by (by rewrite <- app_assoc).
        rewrite fmap_app in Hseg. apply seg_nx in Hseg. rewrite fmap_app in Hseg.
        cbn [fmap list_fmap fst] in Hseg. by rewrite lasta_snoc in Hseg. }
      assert (0 < heada pool_end (fst <$> G2)).
      { destruct G2 as [|[c q] G2]; unfold heada; cbn; [lia|].
        destruct (frep_elem _ _ c q Hr); [rewrite Hfs; set_solver|]. lia. }
      hp_steps. rewrite Hnx. destruct (Z.eqb_spec (heada pool_end (fst <$> G2)) NULL) as [Hz|_]; [unfold NULL in *; lia|]. cbn.
      specialize (IH (G1 ++ [(a, s)]) fuel). unfold before at 1 in IH. rewrite fmap_app in IH.
      cbn [fmap list_fmap fst] in IH. rewrite lasta_snoc in IH. apply IH; [by rewrite <- app_assoc| |lia].
      apply Forall_app. split; [done|]. by repeat constructor.
    + hp_steps. split; [done|]. left. exists G1, a, s, G2. done.
Qed.
End freelist.
