(* ===== verification/Heap4Spec.v ===== *)
(** * heap_4: specification and refinement

    The pool as a sequence of adjacent blocks, each free or in use.
    [heap_rep h bs] says the headers in [h] describe the tiling [bs]; the
    refinement lemmas show that [pvPortMalloc] is first fit with splitting on
    [bs] and that [vPortFree] returns a block and merges it with both free
    neighbours. *)

From S2P Require Import Prelude Config Heap4 Heap4List.

Record blk := Blk { b_addr : Z; b_size : Z; b_used : bool }.

(** ** The specification *)

(** First fit; a remainder of more than two headers becomes a free block. *)
Fixpoint b_malloc (w : Z) (bs : list blk) : option (Z * list blk) :=
  match bs with
  | [] => None
  | b :: rest =>
      if negb (b_used b) && (w <=? b_size b) then
        Some (b_addr b + 16,
          if 32 <? b_size b - w
          then Blk (b_addr b) w true :: Blk (b_addr b + w) (b_size b - w) false :: rest
          else Blk (b_addr b) (b_size b) true :: rest)
      else match b_malloc w rest with Some (p, r) => Some (p, b :: r) | None => None end
  end.

Definition merge_right (b : blk) (bs : list blk) : list blk :=
  match bs with
  | n :: bs' => if b_used n then b :: bs else Blk (b_addr b) (b_size b + b_size n) false :: bs'
  | [] => [b]
  end.

(** Releases the block at [a], merging it with free neighbours. *)
Fixpoint b_free (a : Z) (bs : list blk) : list blk :=
  match bs with
  | [] => []
  | b :: rest =>
      if b_addr b =? a then merge_right (Blk (b_addr b) (b_size b) false) rest
      else match rest with
           | b' :: rest' =>
               if (b_addr b' =? a) && negb (b_used b)
               then merge_right (Blk (b_addr b) (b_size b + b_size b') false) rest'
               else b :: b_free a rest
           | [] => [b]
           end
  end.

(** ** Tilings *)

Fixpoint tiled (a : Z) (bs : list blk) (e : Z) : Prop :=
  match bs with
  | [] => a = e
  | b :: bs => b_addr b = a /\ 32 <= b_size b /\ (16 | b_size b) /\ tiled (a + b_size b) bs e
  end.

(** No two adjacent free blocks; [pf] says whether the block before is free. *)
Fixpoint coalesced (pf : bool) (bs : list blk) : Prop :=
  match bs with
  | [] => True
  | b :: bs => (pf = true -> b_used b = true) /\ coalesced (negb (b_used b)) bs
  end.

Definition frees (bs : list blk) : list (Z * Z) :=
  (fun b => (b_addr b, b_size b)) <$> filter (fun b => b_used b = false) bs.

Fixpoint free_bytes (bs : list blk) : Z :=
  match bs with [] => 0 | b :: bs => (if b_used b then 0 else b_size b) + free_bytes bs end.

Section tiling.
Implicit Types (bs B : list blk) (b : blk) (a e : Z).

Lemma frees_app B1 B2 : frees (B1 ++ B2) = frees B1 ++ frees B2.
Proof. unfold frees. by rewrite filter_app, fmap_app. Qed.
Lemma frees_cons b bs : frees (b :: bs) = if b_used b then frees bs else (b_addr b, b_size b) :: frees bs.
Proof. unfold frees. rewrite filter_cons. case_decide as Hb; [by rewrite Hb|]. by destruct (b_used b). Qed.

Lemma free_bytes_app B1 B2 : free_bytes (B1 ++ B2) = free_bytes B1 + free_bytes B2.
Proof. induction B1; simpl; lia. Qed.

Lemma tiled_app a B1 B2 e : tiled a (B1 ++ B2) e <-> exists c, tiled a B1 c /\ tiled c B2 e.
Proof. revert a. induction B1 as [|b B1 IH]; intros a; simpl; naive_solver. Qed.

Lemma tiled_le a bs e : tiled a bs e -> a <= e.
Proof. revert a. induction bs as [|b bs IH]; intros a; simpl; [lia|]. intros (? & ? & ? & ?%IH). lia. Qed.

Lemma tiled_elem a bs e b : tiled a bs e -> b ∈ bs -> a <= b_addr b /\ b_addr b + b_size b <= e /\ 32 <= b_size b.
Proof.
  revert a. induction bs as [|c bs IH]; intros a; simpl; [by intros _ ?%elem_of_nil|].
  intros (<- & ? & ? & Ht) [->|Hin]%elem_of_cons.
  - apply tiled_le in Ht. lia.
  - destruct (IH _ Ht Hin). lia.
Qed.

Lemma tiled_aligned a bs e b : (16 | a) -> tiled a bs e -> b ∈ bs -> (16 | b_addr b) /\ (16 | b_size b).
Proof.
  revert a. induction bs as [|c bs IH]; intros a Ha; simpl; [by intros _ ?%elem_of_nil|].
  intros (<- & ? & ? & Ht) [->|Hin]%elem_of_cons; [done|].
  eapply (IH _ _ Ht Hin). Unshelve. by apply Z.divide_add_r.
Qed.

Lemma tiled_ordered a bs e : tiled a bs e -> ordered a (frees bs) e.
Proof.
  revert a. induction bs as [|c bs IH]; intros a; simpl; [intros ->; simpl; lia|].
  intros (<- & ? & ? & Ht%IH). rewrite frees_cons. destruct (b_used c).
  - eapply ordered_weaken; [| |exact Ht]; lia.
  - simpl. split_and!; [lia..|done].
Qed.

Lemma free_bytes_bound a bs e : tiled a bs e -> 0 <= free_bytes bs <= e - a.
Proof.
  revert a. induction bs as [|c bs IH]; intros a; simpl; [lia|].
  intros (<- & ? & ? & Ht%IH). destruct (b_used c); lia.
Qed.

Lemma free_bytes_elem lo bs e a s : tiled lo bs e -> (a, s) ∈ frees bs -> s <= free_bytes bs.
Proof.
  revert lo. induction bs as [|c bs IH]; intros lo; simpl; [by intros _ ?%elem_of_nil|].
  intros (<- & ? & ? & Ht). pose proof (free_bytes_bound _ _ _ Ht). rewrite frees_cons.
  destruct (b_used c).
  - intros Hin. pose proof (IH _ Ht Hin). lia.
  - intros [ [= -> ->]|Hin]%elem_of_cons; [lia|]. pose proof (IH _ Ht Hin). lia.
Qed.

(** Distinct blocks of a tiling are disjoint. *)
Lemma tiled_disjoint a bs e b c :
  tiled a bs e -> b ∈ bs -> c ∈ bs -> b = c \/ b_addr b + b_size b <= b_addr c \/ b_addr c + b_size c <= b_addr b.
Proof.
  revert a. induction bs as [|d bs IH]; intros a; simpl; [by intros _ ?%elem_of_nil|].
  intros (<- & ? & ? & Ht) [->|Hb]%elem_of_cons [->|Hc]%elem_of_cons; [by left|..|by eapply IH].
  - destruct (tiled_elem _ _ _ _ Ht Hc). lia.
  - destruct (tiled_elem _ _ _ _ Ht Hb). lia.
Qed.

Lemma coalesced_app pf B1 B2 :
  coalesced pf (B1 ++ B2) <->
  coalesced pf B1 /\ coalesced (match last B1 with Some b => negb (b_used b) | None => pf end) B2.
Proof.
  revert pf. induction B1 as [|b B1 IH]; intros pf; simpl; [tauto|]. rewrite IH.
  destruct B1 as [|c B1]; simpl; [tauto|].
  change (last (b :: c :: B1)) with (last (c :: B1)).
  destruct (last (c :: B1)) eqn:E; [|by apply last_None in E]. tauto.
Qed.
Lemma coalesced_weaken pf bs : coalesced true bs -> coalesced pf bs.
Proof. destruct bs; simpl; [done|]. intros [Hu ?]. split; auto. Qed.

(** The free block after a given end, seen from the tiling. *)
Lemma heada_frees a bs e : tiled a bs e ->
  forall n r F, frees bs = (n, r) :: F -> a <= n.
Proof.
  intros Ht n r F HF. apply tiled_ordered in Ht. rewrite HF in Ht. by destruct Ht.
Qed.

(** Joining on the free list agrees with merging on the tiling. *)
Lemma join_merge a s B e :
  tiled (a + s) B e -> join (a, s) (frees B) = frees (merge_right (Blk a s false) B).
Proof.
  destruct B as [|n B]; [done|]. simpl. intros (Hn & ? & ? & Ht). rewrite frees_cons.
  destruct (b_used n) eqn:Hu.
  - rewrite !frees_cons. simpl. rewrite Hu. unfold join. simpl.
    destruct (frees B) as [|[c r] F] eqn:HF; [done|].
    pose proof (heada_frees _ _ _ Ht _ _ _ HF). destruct (Z.eqb_spec (a + s) c); [lia|done].
  - rewrite frees_cons. simpl. unfold join. simpl. rewrite Hn, Z.eqb_refl. done.
Qed.

Lemma merge_right_tiled a s B e :
  32 <= s -> (16 | s) -> tiled (a + s) B e -> tiled a (merge_right (Blk a s false) B) e.
Proof.
  intros Hs Hd. destruct B as [|n B]; simpl; [done|]. intros (Hn & Hsn & Hdn & Ht).
  destruct (b_used n); simpl; [done|]. split_and!; [done|lia|by apply Z.divide_add_r|].
  by rewrite Z.add_assoc.
Qed.

Lemma merge_right_coalesced a s B pf :
  coalesced pf B -> coalesced false (merge_right (Blk a s false) B).
Proof.
  destruct B as [|n B]; simpl; [done|]. intros [Hn Hc]. destruct (b_used n) eqn:E; simpl.
  - by rewrite E.
  - done.
Qed.

Lemma merge_right_bytes a s B : free_bytes (merge_right (Blk a s false) B) = s + free_bytes B.
Proof. destruct B as [|n B]; simpl; [done|]. destruct (b_used n) eqn:E; simpl; rewrite ?E; lia. Qed.
End tiling.

Lemma b_free_split B1 b B2 :
  Forall (fun c => b_addr c <> b_addr b) B1 ->
  b_free (b_addr b) (B1 ++ b :: B2) =
  match last B1 with
  | Some p => if b_used p then B1 ++ merge_right (Blk (b_addr b) (b_size b) false) B2
              else removelast B1 ++ merge_right (Blk (b_addr p) (b_size p + b_size b) false) B2
  | None => merge_right (Blk (b_addr b) (b_size b) false) B2
  end.
Proof.
  induction B1 as [|p B1 IH]; intros Hf; [simpl; by rewrite Z.eqb_refl|].
  apply Forall_cons in Hf as [Hp Hf]. destruct B1 as [|q B1].
  - cbn [b_free app last removelast]. rewrite !Z.eqb_refl. destruct (Z.eqb_spec (b_addr p) (b_addr b)); [done|].
    by destruct (b_used p); cbn [andb negb].
  - pose proof Hf as [Hq _]%Forall_cons. specialize (IH Hf).
    change (last (p :: q :: B1)) with (last (q :: B1)).
    change (removelast (p :: q :: B1)) with (p :: removelast (q :: B1)).
    cbn [b_free app]. cbn [b_free app] in IH.
    destruct (Z.eqb_spec (b_addr p) (b_addr b)); [done|].
    destruct (Z.eqb_spec (b_addr q) (b_addr b)); [done|]. cbn [andb]. rewrite IH.
    destruct (last (q :: B1)) as [d|] eqn:El; [|by apply last_None in El]. by destruct (b_used d).
Qed.

(** The blocks in use after a release are the others. *)
Lemma b_free_used lo B1 b B2 e d :
  tiled lo (B1 ++ b :: B2) e -> d ∈ b_free (b_addr b) (B1 ++ b :: B2) -> b_used d = true ->
  d ∈ B1 ++ b :: B2 /\ b_addr d <> b_addr b.
Proof.
  intros Ht. pose proof Ht as (c & H1 & Hb & Hsb & Hdb & H2)%tiled_app. rewrite <- Hb in *. clear c Hb.
  assert (Hm : forall x, b_used x = false -> d ∈ merge_right x B2 -> b_used d = true -> d ∈ B2).
  { intros x Hx. destruct B2 as [|n B2]; simpl; [intros ->%list_elem_of_singleton; congruence|].
    destruct (b_used n) eqn:E; intros [->|Hin]%elem_of_cons Hu; simpl in *; try congruence; auto.
    by right. }
  rewrite b_free_split.
  2:{ apply Forall_forall. intros y Hy. destruct (tiled_elem _ _ _ _ H1 Hy). lia. }
  intros Hd Hu. assert (d ∈ B1 \/ d ∈ B2) as Hdin.
  { induction B1 as [|p B1 _] using rev_ind; [right; by eapply Hm; [|exact Hd|]|].
    rewrite last_snoc in Hd. destruct (b_used p).
    - apply elem_of_app in Hd as [|]; [by left|right; by eapply Hm; [|done|]].
    - rewrite removelast_last in Hd. apply elem_of_app in Hd as [|]; [left; apply elem_of_app; by left|].
      right; by eapply Hm; [|done|]. }
  rewrite elem_of_app, elem_of_cons. split; [tauto|]. destruct Hdin as [Hin|Hin].
  - destruct (tiled_elem _ _ _ _ H1 Hin). lia.
  - destruct (tiled_elem _ _ _ _ H2 Hin). lia.
Qed.

Lemma b_free_keeps lo bs e b d :
  tiled lo bs e -> b ∈ bs -> d ∈ bs -> b_used d = true -> b_addr d <> b_addr b -> d ∈ b_free (b_addr b) bs.
Proof.
  intros Ht (B1 & B2 & ->)%list_elem_of_split Hd Hu Hne.
  pose proof Ht as (c & H1 & Hb & Hsb & Hdb & H2)%tiled_app. rewrite <- Hb in *. clear c Hb.
  assert (Hdin : d ∈ B1 \/ d ∈ B2).
  { rewrite elem_of_app, elem_of_cons in Hd. destruct Hd as [|[->|] ]; [tauto|done|tauto]. }
  assert (Hm : forall x, d ∈ B2 -> d ∈ merge_right x B2).
  { intros x Hin. destruct B2 as [|n B2]; [by apply elem_of_nil in Hin|]. simpl.
    destruct (b_used n) eqn:E; [by right|]. apply elem_of_cons in Hin as [->|]; [congruence|by right]. }
  rewrite b_free_split.
  2:{ apply Forall_forall. intros y Hy. destruct (tiled_elem _ _ _ _ H1 Hy). lia. }
  induction B1 as [|p B1 _] using rev_ind.
  { destruct Hdin as [?%elem_of_nil|]; [done|]. by apply Hm. }
  rewrite last_snoc. destruct (b_used p) eqn:Hp; [apply elem_of_app; destruct Hdin; auto|].
  rewrite removelast_last. apply elem_of_app. destruct Hdin as [Hin|]; [|auto].
  apply elem_of_app in Hin as [?| ->%list_elem_of_singleton]; [by left|congruence].
Qed.

Lemma b_free_used_iff lo bs e b x :
  tiled lo bs e -> b ∈ bs ->
  (exists d, d ∈ bs /\ b_used d = true /\ x = b_addr d + 16) /\ x <> b_addr b + 16 <->
  exists d, d ∈ b_free (b_addr b) bs /\ b_used d = true /\ x = b_addr d + 16.
Proof.
  intros Ht Hin. split.
  - intros [(d & Hd & Hu & ->) Hne]. exists d. split; [|done]. eapply b_free_keeps; try done. lia.
  - intros (d & Hd & Hu & ->). apply list_elem_of_split in Hin as (B1 & B2 & ->).
    destruct (b_free_used _ _ _ _ _ _ Ht Hd Hu) as [Hdin Hne]. split; [by exists d|lia].
Qed.

(** Inserting the released block in the free list is [b_free] on the tiling. *)
Lemma b_free_frees lo B1 b B2 e :
  tiled lo (B1 ++ b :: B2) e -> b_used b = true ->
  frees (b_free (b_addr b) (B1 ++ b :: B2)) = fs_insert (frees B1) (b_addr b) (b_size b) (frees B2) /\
  tiled lo (b_free (b_addr b) (B1 ++ b :: B2)) e /\
  (forall pf, coalesced pf (B1 ++ b :: B2) -> coalesced false (b_free (b_addr b) (B1 ++ b :: B2))) /\
  free_bytes (b_free (b_addr b) (B1 ++ b :: B2)) = free_bytes (B1 ++ b :: B2) + b_size b.
Proof.
  intros Ht Hu. pose proof Ht as (c & H1 & Hb & Hsb & Hdb & H2)%tiled_app. rewrite <- Hb in *. clear c Hb.
  rewrite b_free_split.
  2:{ apply Forall_forall. intros d Hd. destruct (tiled_elem _ _ _ _ H1 Hd). lia. }
  rewrite free_bytes_app. cbn [free_bytes]. rewrite Hu.
  assert (Hco : forall pf, coalesced pf (B1 ++ b :: B2) -> coalesced pf B1 /\ coalesced false B2).
  { intros pf [Hc1 [_ Hc2] ]%coalesced_app. by rewrite Hu in Hc2. }
  induction B1 as [|p B1 _] using rev_ind.
  - cbn [last frees]. unfold fs_insert. simpl last. split_and!.
    + symmetry. by eapply join_merge.
    + simpl in H1. subst. by apply merge_right_tiled.
    + intros pf [_ ?]%Hco. by eapply merge_right_coalesced.
    + rewrite merge_right_bytes. simpl. lia.
  - rewrite last_snoc. pose proof H1 as (c & H1' & Hp & Hsp & Hdp & Hpe)%tiled_app. cbn in Hpe. subst c.
    assert (Hfp : frees (B1 ++ [p]) = frees B1 ++ (if b_used p then [] else [(b_addr p, b_size p)])).
    { rewrite frees_app, frees_cons. by destruct (b_used p). }
    rewrite (free_bytes_app B1 [p]). cbn [free_bytes].
    destruct (b_used p) eqn:Hup.
    + (* the block before is in use *)
      rewrite (frees_app (B1 ++ [p])), Hfp, app_nil_r. unfold fs_insert. split_and!.
      * destruct (last (frees B1)) as [ [d r]|] eqn:El.
        -- apply last_Some_elem_of in El. pose proof (ordered_elem _ _ _ _ _ (tiled_ordered _ _ _ H1') El).
           destruct (Z.eqb_spec (d + r) (b_addr b)); [lia|]. f_equal. symmetry. by eapply join_merge.
        -- apply last_None in El. rewrite El. simpl. symmetry. by eapply join_merge.
      * apply tiled_app. exists (b_addr b). split; [done|]. by apply merge_right_tiled.
      * intros pf Hc. pose proof Hc as [Hc1 Hc2]%Hco. apply coalesced_app. rewrite last_snoc, Hup. split.
        -- apply coalesced_app in Hc1 as [Hc1 ?]. apply coalesced_app. split; [|by destruct (last B1)].
           destruct B1; [done|]. by destruct Hc1.
        -- by eapply merge_right_coalesced.
      * rewrite !free_bytes_app, merge_right_bytes. cbn. rewrite Hup. lia.
    + (* the block before is free *)
      rewrite removelast_last. unfold fs_insert. rewrite Hfp, last_snoc.
      rewrite <- Hpe. rewrite Z.eqb_refl, removelast_last. split_and!.
      * rewrite frees_app. f_equal. symmetry. eapply join_merge. rewrite Z.add_assoc, Hpe. done.
      * apply tiled_app. exists (b_addr p). split; [done|].
        apply merge_right_tiled; [lia|by apply Z.divide_add_r|]. rewrite Z.add_assoc, Hpe. done.
      * intros pf Hc. pose proof Hc as [Hc1 Hc2]%Hco. apply coalesced_app in Hc1 as [Hc1 Hcp].
        cbn in Hcp. destruct Hcp as [Hcp _]. apply coalesced_app. split.
        -- destruct B1; [done|]. by destruct Hc1.
        -- destruct (last B1) as [q|] eqn:El.
           ++ destruct (b_used q) eqn:Huq; [|specialize (Hcp eq_refl); congruence]. by eapply merge_right_coalesced.
           ++ by eapply merge_right_coalesced.
      * rewrite free_bytes_app, merge_right_bytes. lia.
Qed.

(** ** Refinement *)

Lemma xHeapStructSize_16 : xHeapStructSize = 16.
Proof. reflexivity. Qed.
Lemma heapALLOC_BIT_eq : heapALLOC_BIT = 2 ^ 63.
Proof. reflexivity. Qed.

Lemma land_align_mask x : Z.land x heapALIGN_MASK = x mod 16.
Proof. exact (land_mask 4 x 15 ltac:(lia) eq_refl). Qed.

(** The block size for a request: header plus the request rounded up to 16. *)
Lemma wanted_size_eq n : 0 < n < 2 ^ 63 -> wanted_size n = (n + 15) / 16 * 16 + 16.
Proof.
  intros Hn. unfold wanted_size. rewrite xHeapStructSize_16, (wrapu_small 64) by (unfold in_u; lia).
  rewrite !land_align_mask. unfold heapBYTE_ALIGNMENT, portBYTE_ALIGNMENT.
  destruct (Z.eqb_spec ((n + 16) mod 16) 0) as [He|He]; cbn [negb];
    [|rewrite (wrapu_small 64) by (unfold in_u; pose proof (Z.mod_pos_bound (n + 16) 16); lia)];
    Z.to_euclidean_division_equations; lia.
Qed.

Lemma alloc_bit_test n : in_u 64 n -> (Z.land n heapALLOC_BIT =? 0) = (n <? 2 ^ 63).
Proof.
  intros Hn. rewrite heapALLOC_BIT_eq. apply Bool.eq_iff_eq_true. rewrite Z.eqb_eq, Z.ltb_lt.
  assert (Hb : Z.testbit n 63 = (2 ^ 63 <=? n)).
  { rewrite Z.testbit_eqb by lia. unfold in_u in Hn.
    destruct (Z.leb_spec (2 ^ 63) n); [apply Z.eqb_eq|apply Z.eqb_neq]; Z.to_euclidean_division_equations; lia. }
  split.
  - intros Hl. apply (f_equal (fun z => Z.testbit z 63)) in Hl.
    rewrite Z.land_spec, Z.bits_0, Hb in Hl. change (Z.testbit (2 ^ 63) 63) with true in Hl.
    rewrite andb_true_r in Hl. apply Z.leb_gt in Hl. lia.
  - intros Hlt. apply Z.bits_inj'. intros i Hi. rewrite Z.land_spec, Z.bits_0.
    destruct (decide (i = 63)) as [->|]; [|rewrite Z.pow2_bits_false by lia; apply andb_false_r].
    rewrite Hb. destruct (Z.leb_spec (2 ^ 63) n); [lia|done].
Qed.

Lemma lor_alloc s : 0 <= s < 2 ^ 63 -> Z.lor s heapALLOC_BIT = s + 2 ^ 63.
Proof. intros Hs. pose proof (lor_shiftl_add s 1 63 ltac:(lia) Hs) as Hl. rewrite Z.mul_1_l in Hl. exact Hl. Qed.

Lemma land_unalloc s : 0 <= s < 2 ^ 63 -> Z.land (s + 2 ^ 63) (notu 64 heapALLOC_BIT) = s.
Proof.
  intros Hs. replace (notu 64 heapALLOC_BIT) with (Z.ones 63) by reflexivity.
  rewrite Z.land_ones by lia. Z.to_euclidean_division_equations; lia.
Qed.

Lemma b_malloc_none w bs : Forall (fun b => b.2 < w) (frees bs) -> b_malloc w bs = None.
Proof.
  induction bs as [|b bs IH]; [done|]. rewrite frees_cons. simpl.
  destruct (b_used b); simpl; [intros Hf; by rewrite IH|].
  intros [Hb Hf]%Forall_cons. simpl in Hb. destruct (Z.leb_spec w (b_size b)); [lia|]. by rewrite IH.
Qed.

(** What first fit does to the chosen block. *)
Definition split_block (w a s : Z) : list blk :=
  if 32 <? s - w then [Blk a w true; Blk (a + w) (s - w) false] else [Blk a s true].

Lemma b_malloc_some w bs F1 a s F2 :
  frees bs = F1 ++ (a, s) :: F2 -> Forall (fun b => b.2 < w) F1 -> w <= s ->
  exists B1 B2, bs = B1 ++ Blk a s false :: B2 /\ frees B1 = F1 /\ frees B2 = F2 /\
    b_malloc w bs = Some (a + 16, B1 ++ split_block w a s ++ B2).
Proof.
  intros Hfs Hall Hw. revert F1 Hfs Hall. induction bs as [|b bs IH]; intros F1.
  { intros Hfs. symmetry in Hfs. by apply app_eq_nil in Hfs as [_ ?]. }
  rewrite frees_cons. simpl. destruct (b_used b) eqn:Hu; simpl.
  - intros Hfs Hall. destruct (IH F1 Hfs Hall) as (B1 & B2 & -> & HF1 & HF2 & ->).
    exists (b :: B1), B2. split_and!; try done. by rewrite frees_cons, Hu.
  - destruct F1 as [|[c r] F1]; simpl; intros [= Ha Hs HF] Hall.
    + subst. destruct (Z.leb_spec w (b_size b)); [|lia]. exists [], bs. destruct b; simpl in *; subst.
      split_and!; try done. unfold split_block. by destruct (32 <? _).
    + apply Forall_cons in Hall as [Hc Hall]. simpl in Hc. destruct (Z.leb_spec w (b_size b)); [lia|].
      destruct (IH F1 HF Hall) as (B1 & B2 & -> & HF1 & HF2 & ->).
      exists (b :: B1), B2. split_and!; try done. rewrite frees_cons, Hu. congruence.
Qed.

Section refine.
Context (lay : layout) (Hlay : layout_ok lay).
Implicit Types (h : heap) (bs B : list blk) (b : blk).

Record heap_rep h bs : Prop := {
  hr_list : frep lay h (frees bs);
  hr_tiled : tiled (pool_lo lay) bs (pool_end lay);
  hr_coalesced : coalesced false bs;
  hr_used : forall b, b ∈ bs -> b_used b = true -> nx h (b_addr b) = 0 /\ sz h (b_addr b) = b_size b + 2 ^ 63;
  hr_bytes : xFreeBytesRemaining h = free_bytes bs;
  hr_min : 0 <= xMinimumEverFreeBytes h <= xFreeBytesRemaining h }.

Lemma pool_lo_aligned : (16 | pool_lo lay).
Proof. exists ((ucHeap lay + 15) / 16). reflexivity. Qed.

(** A block in use is not on the free list. *)
Lemma used_not_listed lo bs e b :
  tiled lo bs e -> b ∈ bs -> b_used b = true -> b_addr b ∉ fst <$> frees bs.
Proof.
  intros Ht Hb Hu. unfold frees. rewrite <- list_fmap_compose. rewrite list_elem_of_fmap.
  intros (c & Heq & Hc). apply list_elem_of_filter in Hc as [Hcu Hc]. simpl in Heq.
  pose proof (tiled_elem _ _ _ _ Ht Hb). pose proof (tiled_elem _ _ _ _ Ht Hc).
  destruct (tiled_disjoint _ _ _ b c Ht Hb Hc) as [->|]; [congruence|lia].
Qed.

Lemma fields_hdr h h' c : hdr h' = hdr h -> nx h' c = nx h c /\ sz h' c = sz h c.
Proof. intros He. unfold nx, sz, hget. by rewrite He. Qed.

(** The end of [pvPortMalloc]: accounting and marking the block [a]. *)
Definition commit (a ret : Z) : M heap Z :=
  f ← gets xFreeBytesRemaining;
  bs ← ld_size lay a;
  set_free (u64 (f - bs));;
  f ← gets xFreeBytesRemaining;
  mn ← gets xMinimumEverFreeBytes;
  (if f <? mn then set_min f else mret tt);;
  bs ← ld_size lay a;
  st_size lay a (Z.lor bs heapALLOC_BIT);;
  st_next lay a NULL;;
  mret ret.

Lemma wp_commit h fs a s ret :
  frep lay h fs -> pool_lo lay <= a < pool_end lay -> a ∉ fst <$> fs -> sz h a = s ->
  0 <= s < 2 ^ 63 -> s <= xFreeBytesRemaining h < 2 ^ 64 -> 0 <= xMinimumEverFreeBytes h ->
  wp (commit a ret) (fun r h' => r = ret /\ frep lay h' fs /\ nx h' a = 0 /\ sz h' a = s + 2 ^ 63 /\
    (forall c, c <> a -> nx h' c = nx h c /\ sz h' c = sz h c) /\
    xFreeBytesRemaining h' = xFreeBytesRemaining h - s /\
    0 <= xMinimumEverFreeBytes h' <= xFreeBytesRemaining h') h.
Proof.
  intros Hr Ha Hnot Hs Hsb Hfb Hmb.
  assert (Hv : valid_addr lay a = true) by (apply valid_pool; [done|lia]).
  unfold commit, set_free, set_min. hp_steps.
  cbn [xFreeBytesRemaining xMinimumEverFreeBytes put_free].
  rewrite Hs. rewrite (wrapu_small 64) by (unfold in_u; lia).
  apply wp_mono with (P := fun _ h1 => hdr h1 = hdr h /\ pxEnd h1 = pxEnd h /\
    xFreeBytesRemaining h1 = xFreeBytesRemaining h - s /\
    0 <= xMinimumEverFreeBytes h1 <= xFreeBytesRemaining h1).
  { destruct (Z.ltb_spec (xFreeBytesRemaining h - s) (xMinimumEverFreeBytes h)); hp_steps; simpl; split_and!; first [done | lia]. }
  intros _ h1 (Hh & He & Hf & Hm). cbn beta. hp_steps.
  destruct (fields_hdr h h1 a Hh) as [_ ->]. rewrite Hs, lor_alloc by lia.
  assert (Hfr : forall c, c <> a -> nx (put_nx a NULL (put_sz a (s + 2 ^ 63) h1)) c = nx h c /\
    sz (put_nx a NULL (put_sz a (s + 2 ^ 63) h1)) c = sz h c).
  { intros c Hc. destruct (fields_hdr h h1 c Hh). hp_simpl; done. }
  split_and!; try done; try (hp_simpl; done); try exact (proj1 Hm); try exact (proj2 Hm).
  eapply frep_frame; [| | |exact Hr].
  - intros c Hc. apply Hfr. destruct Hc as [->|[Hc| ->] ]; [|by intros ->|lia].
    intros Heq. eapply (start_outside lay Hlay a); [lia|done].
  - do 2 (apply dom_sub_nx || apply dom_sub_sz). by rewrite Hh.
  - done.
Qed.

(** ** Initialisation *)

Lemma land_align_down x : in_u 64 x -> Z.land x (notu 64 heapALIGN_MASK) = x / 16 * 16.
Proof.
  intros Hx. replace (notu 64 heapALIGN_MASK) with (Z.shiftl (Z.ones 60) 4) by reflexivity.
  change (x / 16 * 16) with (x / 2 ^ 4 * 2 ^ 4).
  rewrite <- Z.shiftr_div_pow2, <- Z.shiftl_mul_pow2 by lia.
  apply Z.bits_inj'. intros i Hi. rewrite Z.land_spec, !Z.shiftl_spec by done.
  destruct (Z.lt_ge_cases i 4).
  - rewrite !(Z.testbit_neg_r _ (i - 4)) by lia. apply andb_false_r.
  - rewrite Z.shiftr_spec by lia. replace (i - 4 + 4) with i by lia.
    destruct (Z.lt_ge_cases i 64).
    + rewrite Z.ones_spec_low by lia. apply andb_true_r.
    + rewrite (testbit_high 64 x) by (done || lia). done.
Qed.

Definition initial_blocks : list blk := [Blk (pool_lo lay) (pool_end lay - pool_lo lay) false].

Lemma pool_room : 32 <= pool_end lay - pool_lo lay < 2 ^ 63 /\ (16 | pool_end lay - pool_lo lay).
Proof.
  destruct Hlay as (? & ? & ? & ?). unfold pool_lo, pool_end, configTOTAL_HEAP_SIZE in *. split.
  - Z.to_euclidean_division_equations. lia.
  - apply Z.divide_sub_r; eexists; reflexivity.
Qed.

Lemma aligned_start :
  (if negb (Z.land (ucHeap lay) heapALIGN_MASK =? 0) then
     let a := Z.land (u64 (ucHeap lay + heapALIGN_MASK)) (notu 64 heapALIGN_MASK) in
     (a, u64 (configTOTAL_HEAP_SIZE - u64 (a - ucHeap lay)))
   else (ucHeap lay, configTOTAL_HEAP_SIZE)) =
  (pool_lo lay, configTOTAL_HEAP_SIZE - (pool_lo lay - ucHeap lay)).
Proof.
  destruct Hlay as (? & ? & ? & ?). pose proof (pool_bounds lay Hlay) as (? & ? & ? & ? & ?).
  rewrite land_align_mask. replace (ucHeap lay + heapALIGN_MASK) with (ucHeap lay + 15) by reflexivity.
  rewrite (wrapu_small 64 (ucHeap lay + 15)) by (unfold in_u, configTOTAL_HEAP_SIZE in *; lia).
  rewrite land_align_down by (unfold in_u, configTOTAL_HEAP_SIZE in *; lia). fold (pool_lo lay).
  destruct (Z.eqb_spec (ucHeap lay mod 16) 0); cbn [negb].
  - assert (pool_lo lay = ucHeap lay) as Heq by (unfold pool_lo; Z.to_euclidean_division_equations; lia).
    rewrite Heq. f_equal. lia.
  - cbn zeta. unfold configTOTAL_HEAP_SIZE in *.
    assert (pool_lo lay - ucHeap lay < 16) by (unfold pool_lo; Z.to_euclidean_division_equations; lia).
    rewrite (wrapu_small 64 (pool_lo lay - _)) by (unfold in_u; lia).
    rewrite wrapu_small by (unfold in_u; lia). done.
Qed.

Lemma wp_vPortInitialiseBlocks :
  wp (vPortInitialiseBlocks lay) (fun _ h => heap_rep h initial_blocks) heap_boot.
Proof.
  pose proof (pool_bounds lay Hlay) as (? & ? & ? & ? & ?). pose proof pool_room as [? ?].
  pose proof (start_outside lay Hlay) as Hso.
  assert (Hvs : valid_addr lay (xStart lay) = true) by apply valid_start.
  assert (Hvl : valid_addr lay (pool_lo lay) = true) by (apply valid_pool; [done|lia]).
  assert (Hve : valid_addr lay (pool_end lay) = true) by (apply valid_pool; [done|lia]).
  pose proof (Hso (pool_lo lay) ltac:(lia)). pose proof (Hso (pool_end lay) ltac:(lia)).
  unfold vPortInitialiseBlocks. pose proof aligned_start as Has. cbv zeta in Has |- *. rewrite Has, xHeapStructSize_16.
  assert (Hend : Z.land (u64 (u64 (pool_lo lay + (configTOTAL_HEAP_SIZE - (pool_lo lay - ucHeap lay))) - 16))
    (notu 64 heapALIGN_MASK) = pool_end lay).
  { destruct Hlay as (? & ? & ? & ?). unfold configTOTAL_HEAP_SIZE in *.
    rewrite (wrapu_small 64 (pool_lo lay + _)) by (unfold in_u; lia).
    rewrite wrapu_small by (unfold in_u; lia). rewrite land_align_down by (unfold in_u; lia).
    unfold pool_end, configTOTAL_HEAP_SIZE. f_equal. f_equal. lia. }
  rewrite Hend. unfold set_pxEnd, set_free, set_min. cbn zeta.
  hp_steps. rewrite (wrapu_small 64) by (unfold in_u; lia).
  set (h1 := put_nx (pool_lo lay) _ _).
  assert (Hn1 : nx h1 (xStart lay) = pool_lo lay) by (subst h1; unfold NULL; hp_simpl; try done).
  assert (Hn2 : nx h1 (pool_lo lay) = pool_end lay) by (subst h1; hp_simpl; done).
  assert (Hn3 : nx h1 (pool_end lay) = 0) by (subst h1; unfold NULL; hp_simpl; done).
  assert (Hs1 : sz h1 (xStart lay) = 0) by (subst h1; hp_simpl; done).
  assert (Hs2 : sz h1 (pool_lo lay) = pool_end lay - pool_lo lay) by (subst h1; hp_simpl; done).
  assert (Hs3 : sz h1 (pool_end lay) = 0) by (subst h1; hp_simpl; done).
  assert (Hd : pool_lo lay ∈ dom (hdr h1)) by (subst h1; autorewrite with hp; set_solver).
  rewrite Hs2. constructor; autorewrite with hp.
  - unfold initial_blocks, frees. cbn. constructor; autorewrite with hp; try done.
    + by intros a s [= -> ->]%list_elem_of_singleton.
    + by intros a s [= -> ->]%list_elem_of_singleton.
    + simpl. lia.
  - simpl. split_and!; done || lia.
  - done.
  - by intros b ->%list_elem_of_singleton.
  - simpl. lia.
  - simpl. lia.
Qed.

(** ** Allocation *)

(** The state after boot, or any initialised state. *)
Definition heap_abs h bs : Prop := h = heap_boot /\ bs = initial_blocks \/ heap_rep h bs.

Lemma wp_init_if_needed h bs :
  heap_abs h bs -> wp (init_if_needed lay) (fun _ h' => heap_rep h' bs) h.
Proof.
  intros Ha. unfold init_if_needed. hp_steps. destruct Ha as [ [-> ->]|Hr].
  - apply wp_vPortInitialiseBlocks.
  - pose proof (pool_bounds lay Hlay). rewrite (fr_end _ _ _ (hr_list _ _ Hr)).
    destruct (Z.eqb_spec (pool_end lay) NULL) as [He|_]; [unfold NULL in He; lia|]. by hp_steps.
Qed.

(** The allocation of the block [a], found after [F1] on the free list. *)
Definition take_block (xWantedSize pxPreviousBlock pxBlock : Z) : M heap Z :=
  pn ← ld_next lay pxPreviousBlock;
  let pvReturn := u64 (pn + xHeapStructSize) in
  nx ← ld_next lay pxBlock;
  st_next lay pxPreviousBlock nx;;
  bs ← ld_size lay pxBlock;
  (if xHeapStructSize * 2 <? u64 (bs - xWantedSize) then
     let pxNewBlockLink := u64 (pxBlock + xWantedSize) in
     bs ← ld_size lay pxBlock;
     st_size lay pxNewBlockLink (u64 (bs - xWantedSize));;
     st_size lay pxBlock xWantedSize;;
     prvInsertBlockIntoFreeList lay pxNewBlockLink
   else mret tt);;
  commit pxBlock pvReturn.

Lemma fs_insert_apart F1 x s F2 :
  (forall a r, (a, r) ∈ F1 -> a + r < x) -> (forall n r F, F2 = (n, r) :: F -> x + s < n) ->
  fs_insert F1 x s F2 = F1 ++ (x, s) :: F2.
Proof.
  intros H1 H2. unfold fs_insert.
  assert (Hj : join (x, s) F2 = (x, s) :: F2).
  { destruct F2 as [|[n r] F2]; [done|]. simpl. specialize (H2 n r F2 eq_refl).
    destruct (Z.eqb_spec (x + s) n); [lia|done]. }
  destruct (last F1) as [ [a r]|] eqn:El.
  - apply last_Some_elem_of, H1 in El. destruct (Z.eqb_spec (a + r) x); [lia|]. by rewrite Hj.
  - apply last_None in El. by rewrite El, Hj.
Qed.

(** After a free block of a coalesced tiling comes a used one. *)
Lemma next_free_apart c B e pf n r F :
  tiled c B e -> coalesced pf B -> pf = true -> frees B = (n, r) :: F -> c < n.
Proof.
  intros Ht Hc ->. destruct B as [|b B]; [done|]. destruct Hc as [Hu _]. destruct Ht as (<- & ? & ? & Ht).
  rewrite frees_cons, Hu by done. intros HF. pose proof (heada_frees _ _ _ Ht _ _ _ HF). lia.
Qed.

(** The surroundings of a free block [a] of size [s]. *)
Record around h B1 a s B2 : Prop := {
  ar_list : frep lay h (frees B1 ++ (a, s) :: frees B2);
  ar_lo : tiled (pool_lo lay) B1 a;
  ar_hi : tiled (a + s) B2 (pool_end lay);
  ar_size : 32 <= s /\ (16 | s);
  ar_range : pool_lo lay <= a /\ a + s <= pool_end lay;
  ar_after : coalesced true B2;
  ar_link : nx h (before lay (frees B1)) = a;
  ar_sz : sz h a = s;
  ar_below : forall d q, (d, q) ∈ frees B1 -> d + q <= a;
  ar_off : forall c, a <= c < a + s -> c ∉ fst <$> frees B1 ++ frees B2 }.

Lemma around_block h bs B1 a s B2 :
  heap_rep h bs -> bs = B1 ++ Blk a s false :: B2 -> around h B1 a s B2.
Proof.
  intros [Hl Ht Hc _ _ _] ->. rewrite frees_app, frees_cons in Hl. cbn [b_used b_addr b_size] in Hl.
  pose proof Ht as (c & Ht1 & Hca & Hs & Hds & Ht2)%tiled_app. cbn in Hca, Hs, Hds, Ht2. subst c.
  pose proof (tiled_le _ _ _ Ht1). pose proof (tiled_le _ _ _ Ht2).
  apply coalesced_app in Hc as [_ [_ Hc] ].
  assert (Hb1 : forall d q, (d, q) ∈ frees B1 -> 0 < q /\ d + q <= a).
  { intros d q Hin. pose proof (ordered_elem _ _ _ _ _ (tiled_ordered _ _ _ Ht1) Hin). lia. }
  constructor; try done.
  - pose proof (fr_seg _ _ _ Hl) as Hseg. rewrite fmap_app in Hseg. by apply seg_nx in Hseg.
  - eapply fr_sz; [exact Hl|set_solver].
  - intros d q [_ ?]%Hb1. done.
  - intros c Hcc. rewrite list_elem_of_fmap. intros ([d q] & -> & [Hin|Hin]%elem_of_app); simpl in *.
    + apply Hb1 in Hin. lia.
    + pose proof (ordered_elem _ _ _ _ _ (tiled_ordered _ _ _ Ht2) Hin). lia.
Qed.

(** The split, on the heap from which the block was just unlinked. *)
Lemma wp_split h B1 a s B2 w :
  around h B1 a s B2 -> 32 <= w <= s ->
  wp (if xHeapStructSize * 2 <? u64 (s - w) then
        bs ← ld_size lay a;
        st_size lay (u64 (a + w)) (u64 (bs - w));;
        st_size lay a w;;
        prvInsertBlockIntoFreeList lay (u64 (a + w))
      else mret tt)
    (fun _ h3 => frep lay h3 (frees B1 ++ frees (split_block w a s) ++ frees B2) /\
      sz h3 a = (if 32 <? s - w then w else s) /\
      (forall c, c <> xStart lay -> c ∉ fst <$> frees B1 ++ frees B2 -> c < a \/ a + s <= c ->
         nx h3 c = nx h c /\ sz h3 c = sz h c) /\
      xFreeBytesRemaining h3 = xFreeBytesRemaining h /\ xMinimumEverFreeBytes h3 = xMinimumEverFreeBytes h)
    (put_nx (before lay (frees B1)) (nx h a) h).
Proof.
  intros [Hl Ht1 Ht2 [Hs _] [Hlo Hhi] Hco Hlk Hsa Hb1 Hoff] Hw.
  pose proof (pool_bounds lay Hlay) as (? & ? & ? & ? & ?).
  pose proof (frep_unlink lay Hlay _ _ _ _ _ Hl) as Hl1.
  pose proof (frep_before_ne lay Hlay _ _ _ _ _ Hl) as Hbe.
  assert (Hframe1 : forall c, c <> xStart lay -> c ∉ fst <$> frees B1 ++ frees B2 -> c <> before lay (frees B1)).
  { intros c Hc1 Hc2 ->. destruct (before_elem lay (frees B1)) as [|[q Hq] ]; [done|].
    apply Hc2, list_elem_of_fmap. exists (before lay (frees B1), q).
    split; [done|]. apply elem_of_app. by left. }
  assert (Hva : valid_addr lay a = true) by (apply valid_pool; [done|lia]).
  set (h1 := put_nx _ _ _) in *.
  assert (Hs1 : sz h1 a = s) by (subst h1; by autorewrite with hp).
  rewrite xHeapStructSize_16, !(wrapu_small 64 (s - w)) by (unfold in_u; lia).
  unfold split_block. change (16 * 2) with 32. destruct (Z.ltb_spec 32 (s - w)).
  - rewrite (wrapu_small 64 (a + w)) by (unfold in_u; lia).
    assert (Hvn : valid_addr lay (a + w) = true) by (apply valid_pool; [done|lia]).
    hp_steps. rewrite Hs1, (wrapu_small 64 (s - w)) by (unfold in_u; lia).
    set (h2 := put_sz a w _).
    assert (Hl2 : frep lay h2 (frees B1 ++ frees B2)).
    { eapply frep_frame; [| | |exact Hl1]; subst h2; [|auto with hpdom|done].
      intros c Hc. autorewrite with hp. split; [done|].
      assert (c < a \/ a + s <= c) as Hout.
      { destruct Hc as [->|[Hc| ->] ].
        - pose proof (start_outside lay Hlay). destruct (decide (a <= xStart lay <= pool_end lay)); [|lia].
          edestruct H5; [|done]. lia.
        - destruct (decide (a <= c < a + s)) as [Hin|]; [|lia]. by apply Hoff in Hin.
        - lia. }
      rewrite !decide_False by lia. done. }
    eapply wp_mono.
    { apply (wp_prvInsert lay Hlay h2 (frees B1) (frees B2) (a + w) (s - w)); try done; try lia.
      - eapply ordered_weaken; [| |exact (tiled_ordered _ _ _ Ht1)]; lia.
      - replace (a + w + (s - w)) with (a + s) by lia. by apply tiled_ordered.
      - subst h2. autorewrite with hp. by rewrite decide_False, decide_True by lia. }
    intros _ h3 [Hl3 [(Hf & _ & Hfb & Hfm) _] ].
    rewrite fs_insert_apart in Hl3.
    2:{ intros d q ?%Hb1. lia. }
    2:{ intros n r F HF. pose proof (next_free_apart _ _ _ _ _ _ _ Ht2 Hco eq_refl HF). lia. }
    split_and!; try done.
    + destruct (Hf a) as [_ ->]; [intros Heq; eapply (start_outside lay Hlay a); [lia|done]|apply Hoff; lia|lia|].
      subst h2. autorewrite with hp. by rewrite decide_True.
    + intros c Hc1 Hc2 Hc3. destruct (Hf c Hc1 Hc2) as [-> ->]; [lia|]. subst h2 h1. autorewrite with hp.
      rewrite !decide_False by (lia || auto). done.
  - hp_steps. split_and!; try done.
    intros c Hc1 Hc2 Hc3. subst h1. autorewrite with hp. rewrite decide_False by auto. done.
Qed.

Lemma split_block_off w a s : 0 < w -> a ∉ fst <$> frees (split_block w a s).
Proof.
  intros Hw. unfold split_block. destruct (32 <? s - w); rewrite !frees_cons; cbn; [|by intros ?%elem_of_nil].
  intros Heq%list_elem_of_singleton. lia.
Qed.

Lemma wp_take_block h bs w B1 a s B2 :
  heap_rep h bs -> bs = B1 ++ Blk a s false :: B2 -> 32 <= w <= s -> (16 | w) ->
  wp (take_block w (before lay (frees B1)) a) (fun r h' => r = a + 16 /\
    heap_rep h' (B1 ++ split_block w a s ++ B2)) h.
Proof.
  intros Hr Hbs Hw Hdw. pose proof (around_block _ _ _ _ _ _ Hr Hbs) as Har.
  pose proof Har as [Hl Ht1 Ht2 [Hs Hds] [Hlo Hhi] Hco Hlk Hsa _ Hoff].
  pose proof (pool_bounds lay Hlay) as (? & ? & ? & ? & ?).
  destruct Hr as [_ Ht Hc Hu Hb Hm]. subst bs.
  pose proof (free_bytes_bound _ _ _ Ht) as Hfb. rewrite free_bytes_app in Hfb, Hb. cbn in Hfb, Hb.
  pose proof (free_bytes_bound _ _ _ Ht1). pose proof (free_bytes_bound _ _ _ Ht2).
  assert (Hva : valid_addr lay a = true) by (apply valid_pool; [done|lia]).
  pose proof (valid_before lay Hlay _ _ _ Hl) as Hvb.
  unfold take_block. hp_steps. rewrite Hlk. autorewrite with hp. rewrite Hsa.
  eapply wp_mono; [by apply (wp_split h B1 a s B2 w)|].
  intros _ h3 (Hl3 & Hs3 & Hf3 & Hfr3 & Hm3). cbn beta.
  eapply wp_mono.
  { eapply (wp_commit h3 _ a _ _ Hl3); [lia| |exact Hs3|destruct (32 <? s - w); lia|destruct (32 <? s - w); lia|lia].
    assert (a ∉ fst <$> frees B1 ++ frees B2) as Hn by (apply Hoff; lia).
    rewrite !fmap_app, !elem_of_app in *. pose proof (split_block_off w a s ltac:(lia)). tauto. }
  intros r h' (-> & Hl' & Hn' & Hs' & Hf' & Hfr' & Hm').
  rewrite xHeapStructSize_16, (wrapu_small 64) by (unfold in_u; lia). split; [done|].
  constructor.
  - by rewrite !frees_app.
  - apply tiled_app. exists a. split; [done|]. unfold split_block.
    destruct (Z.ltb_spec 32 (s - w)); simpl; [|done]. split_and!; try done; try lia; [by apply Z.divide_sub_r|].
    by replace (a + w + (s - w)) with (a + s) by lia.
  - apply coalesced_app. apply coalesced_app in Hc as [Hc1 _]. split; [done|].
    unfold split_block. destruct (32 <? s - w); simpl; split; try done. by apply coalesced_weaken.
  - intros b Hin Hub.
    assert (b ∈ B1 ++ B2 \/ b = Blk a (if 32 <? s - w then w else s) true) as [Hold| ->].
    { rewrite !elem_of_app in *. unfold split_block in Hin. destruct (32 <? s - w);
        rewrite ?elem_of_cons, ?elem_of_nil in Hin; naive_solver. }
    + assert (Hout : b_addr b < a \/ a + s <= b_addr b).
      { apply elem_of_app in Hold as [Hb'|Hb'].
        - pose proof (tiled_elem _ _ _ _ Ht1 Hb'). lia.
        - pose proof (tiled_elem _ _ _ _ Ht2 Hb'). lia. }
      assert (Hbs : b ∈ B1 ++ Blk a s false :: B2).
      { rewrite elem_of_app, elem_of_cons. apply elem_of_app in Hold. tauto. }
      pose proof (tiled_elem _ _ _ _ Ht Hbs). destruct (Hf' (b_addr b)) as [-> ->]; [lia|].
      destruct (Hf3 (b_addr b)) as [-> ->]; [apply start_outside; [done|lia]| |done|by apply Hu].
      intros Hin'. apply (used_not_listed _ _ _ _ Ht Hbs Hub). rewrite frees_app, frees_cons. cbn.
      rewrite fmap_app, elem_of_app in *. cbn. rewrite elem_of_cons. tauto.
    + split; done.
  - rewrite Hfr', Hfr3, Hb, !free_bytes_app. unfold split_block. destruct (32 <? s - w); cbn; lia.
  - done.
Qed.

(** [pvPortMalloc] is first fit on the tiling; requests of 0 or at least
    [2^63] bytes, and requests no free block can hold, return [NULL]. *)
Lemma wp_pvPortMalloc h bs n :
  heap_abs h bs -> in_u 64 n ->
  wp (pvPortMalloc lay n) (fun p h' =>
    match (if (0 <? n) && (n <? 2 ^ 63) then b_malloc ((n + 15) / 16 * 16 + 16) bs else None) with
    | Some (q, bs') => p = q /\ heap_rep h' bs'
    | None => p = NULL /\ heap_rep h' bs
    end) h.
Proof.
  intros Ha Hn. unfold pvPortMalloc. apply wp_bind. eapply wp_mono; [by apply wp_init_if_needed|].
  clear h Ha. cbn beta. intros _ h Hr. rewrite alloc_bit_test by done. unfold in_u in Hn.
  destruct (Z.eqb_spec n 0) as [->|Hn0]; cbn [orb].
  { hp_steps. done. }
  destruct (Z.ltb_spec 0 n); [|lia]. destruct (Z.ltb_spec n (2 ^ 63)); cbn [negb andb].
  2:{ hp_steps. done. }
  cbn zeta. rewrite wanted_size_eq by lia. set (w := (n + 15) / 16 * 16 + 16).
  assert (Hw : 32 <= w /\ (16 | w)).
  { subst w. split; [Z.to_euclidean_division_equations; lia|]. exists ((n + 15) / 16 + 1). lia. }
  pose proof Hr as [Hl Ht _ _ Hb _]. hp_steps. rewrite Hb.
  destruct (Z.ltb_spec (free_bytes bs) w) as [Hlt|Hge].
  - hp_steps. rewrite b_malloc_none; [done|]. apply Forall_forall. intros [a s] Hin. simpl.
    apply Z.le_lt_trans with (free_bytes bs); [|done]. by eapply free_bytes_elem.
  - pose proof (valid_start lay). hp_steps.
    assert (Hfirst : nx h (xStart lay) = heada (pool_end lay) (fst <$> frees bs)).
    { pose proof (fr_seg _ _ _ Hl) as Hseg. by apply (seg_nx _ _ [] _ _) in Hseg. }
    rewrite Hfirst. eapply wp_mono.
    { apply (wp_first_fit lay Hlay h (frees bs) w Hl ltac:(lia) (frees bs) []); [done|constructor|].
      unfold list_fuel. pose proof (frep_length _ _ _ Hl). lia. }
    intros r ? [-> [(F1 & a & s & F2 & Hfs & Hall & Hws & ->)|[Hall Hend] ] ]; cbn beta iota.
    + destruct (b_malloc_some w bs F1 a s F2 Hfs Hall Hws) as (B1 & B2 & Hbs & <- & <- & ->).
      destruct (frep_elem _ _ _ a s Hl) as (? & ? & ?); [rewrite Hfs; apply elem_of_app; right; by left|].
      hp_steps. rewrite (fr_end _ _ _ Hl). destruct (Z.eqb_spec a (pool_end lay)); [lia|]. cbn [negb].
      apply (wp_take_block h bs w B1 a s B2); [done|done|lia|apply Hw].
    + rewrite b_malloc_none by done. destruct r as [q e]. simpl in Hend. subst e. hp_steps.
      rewrite (fr_end _ _ _ Hl), Z.eqb_refl. cbn. by hp_steps.
Qed.

(** ** Release *)

(** [vPortFree] of a block in use returns it to the free list. *)
Lemma wp_vPortFree h bs b :
  heap_rep h bs -> b ∈ bs -> b_used b = true ->
  wp (vPortFree lay (b_addr b + 16)) (fun _ h' => heap_rep h' (b_free (b_addr b) bs) /\
    in_u 63 (sz h' (b_addr b))) h.
Proof.
  intros Hr Hin Hu. destruct Hr as [Hl Ht Hc Hus Hb Hm].
  pose proof (pool_bounds lay Hlay) as (? & ? & ? & ? & ?).
  pose proof (tiled_elem _ _ _ _ Ht Hin) as (? & ? & ?).
  destruct (Hus b Hin Hu) as [_ Hsb]. pose proof (used_not_listed _ _ _ _ Ht Hin Hu) as Hoff.
  apply list_elem_of_split in Hin as (B1 & B2 & ->).
  pose proof Ht as (c & Ht1 & Hca & Hs & Hds & Ht2)%tiled_app. subst c.
  pose proof (free_bytes_bound _ _ _ Ht1). pose proof (free_bytes_bound _ _ _ Ht2).
  destruct (b_free_frees _ _ _ _ _ Ht Hu) as (Hfr' & Ht' & Hc' & Hb').
  assert (Hva : valid_addr lay (b_addr b) = true) by (apply valid_pool; [done|lia]).
  rewrite frees_app, frees_cons, Hu in Hl, Hoff. rewrite free_bytes_app in Hb, Hb'. cbn [free_bytes] in Hb, Hb'.
  rewrite Hu in Hb, Hb'.
  unfold vPortFree, prvBlockIsAllocated. destruct (Z.eqb_spec (b_addr b + 16) NULL) as [He|_]; [unfold NULL in He; lia|].
  rewrite xHeapStructSize_16. replace (b_addr b + 16 - 16) with (b_addr b) by lia.
  cbn zeta. rewrite (wrapu_small 64) by (unfold in_u; lia). hp_steps.
  rewrite Hsb, alloc_bit_test by (unfold in_u; lia).
  destruct (Z.ltb_spec (b_size b + 2 ^ 63) (2 ^ 63)); [lia|]. cbn [negb].
  unfold set_free. hp_steps. rewrite Hsb, land_unalloc by lia.
  autorewrite with hp. rewrite decide_True by done.
  rewrite (wrapu_small 64) by (cbn; unfold in_u; lia).
  set (h1 := put_free _ _).
  assert (Hf1 : forall d, d <> b_addr b -> nx h1 d = nx h d /\ sz h1 d = sz h d).
  { intros d Hd. subst h1. autorewrite with hp. by rewrite !decide_False. }
  eapply wp_mono.
  { apply (wp_prvInsert lay Hlay h1 (frees B1) (frees B2) (b_addr b) (b_size b)).
    - eapply frep_frame; [| | |exact Hl]; [|subst h1; by apply (dom_sub_nx _ _ (put_sz _ _ _)), dom_sub_sz|done].
      intros d Hd. apply Hf1. destruct Hd as [->|[Hd| ->] ]; [|by intros ->|lia].
      intros Heq. eapply (start_outside lay Hlay (b_addr b)); [lia|done].
    - by apply tiled_ordered.
    - lia.
    - by apply tiled_ordered.
    - subst h1. autorewrite with hp. by rewrite decide_True. }
  intros _ h' [Hl' [(Hf & _ & Hfb & Hfm) ?] ]. split; [|done]. rewrite <- Hfr' in Hl'. constructor; try done.
  - by eapply Hc'.
  - intros d Hd Hud. destruct (b_free_used _ _ _ _ _ _ Ht Hd Hud) as [Hdin Hne].
    pose proof (tiled_elem _ _ _ _ Ht Hdin). destruct (Hf (b_addr d)) as [-> ->]; [|  |done|].
    + apply start_outside; [done|lia].
    + pose proof (used_not_listed _ _ _ _ Ht Hdin Hud) as Hn. by rewrite frees_app, frees_cons, Hu in Hn.
    + destruct (Hf1 (b_addr d) Hne) as [-> ->]. by apply Hus.
  - rewrite Hfb, Hb'. subst h1. cbn. lia.
  - rewrite Hfb, Hfm. subst h1. cbn. lia.
Qed.

(** Releasing the null pointer, or a block whose header is not marked
    allocated (a second release), changes nothing. *)
Lemma vPortFree_ignored h p :
  p = NULL \/ (valid_addr lay (p - 16) = true /\ 16 <= p < 2 ^ 64 /\ in_u 63 (sz h (p - 16))) ->
  vPortFree lay p h = Some (tt, h).
Proof.
  intros [->|(Hv & Hp & Hs)]; [done|]. unfold vPortFree, NULL.
  destruct (Z.eqb_spec p 0) as [|_]; [lia|]. rewrite xHeapStructSize_16. cbn zeta.
  rewrite (wrapu_small 64) by (unfold in_u; lia).
  unfold prvBlockIsAllocated, ld_size. rewrite Hv.
  unfold mbind, M_bind, gets. unfold sz in Hs. rewrite alloc_bit_test by (unfold in_u in *; lia).
  destruct (Z.ltb_spec (xBlockSize (hget h (p - 16))) (2 ^ 63)); [done|unfold in_u in *; lia].
Qed.
End refine.
