(* ===== verification/Alloc.v ===== *)
(** * The allocator interface (src/include/FlintRTOS/portable.h)

    What pvPortMalloc and vPortFree promise their callers, whichever MemMang
    file is linked.  [hp_rep s live]: in allocator state [s], the map [live]
    gives allocated addresses and the sizes their owners asked for.  Regions
    handed out are non-null, aligned, inside the address space and pairwise
    disjoint.  heap_1, heap_3 and heap_4 implement it; tasks.c and queue.c are
    verified against it. *)

From S2P Require Import Prelude Config.

Class HeapOps (S : Type) := {
  hp_malloc : Z -> M S Z;
  hp_free : Z -> M S unit }.

Class HeapLaws (S : Type) `{!HeapOps S} := {
  hp_rep : S -> gmap Z Z -> Prop;
  hp_region s live p n : hp_rep s live -> live !! p = Some n ->
    0 < p /\ 0 < n /\ p + n <= 2 ^ 64 /\ (16 | p);
  hp_disjoint s live p n q k : hp_rep s live -> live !! p = Some n -> live !! q = Some k -> p <> q ->
    p + n <= q \/ q + k <= p;
  hp_malloc_spec s live n : hp_rep s live -> 0 < n < 2 ^ 63 ->
    wp (hp_malloc n) (fun p s' => p = 0 /\ hp_rep s' live \/
      p <> 0 /\ live !! p = None /\ hp_rep s' (<[p := n]> live)) s;
  hp_free_spec s live p : hp_rep s live -> p = 0 \/ is_Some (live !! p) ->
    wp (hp_free p) (fun _ s' => hp_rep s' (delete p live)) s }.
