(* ===== verification/Heap4Props.v ===== *)
(** * Properties of heap_4 *)

From S2P Require Import Prelude Config Heap4 Heap4List Heap4Spec Alloc.

(** A layout: the pool at 512 KiB, [xStart] below it. *)
Definition demo_layout : layout := Layout 0x80008 0x1000.
Lemma demo_layout_ok : layout_ok demo_layout.
Proof. unfold layout_ok, configTOTAL_HEAP_SIZE. simpl. lia. Qed.

Section properties.
Context (lay : layout) (Hlay : layout_ok lay).
Implicit Types (h : heap) (bs : list blk) (b : blk).

(** ** First fit on the tiling *)

Lemma b_malloc_inv w bs p bs' :
  b_malloc w bs = Some (p, bs') ->
  exists B1 a s B2, bs = B1 ++ Blk a s false :: B2 /\ w <= s /\ p = a + 16 /\
    bs' = B1 ++ split_block w a s ++ B2 /\ Forall (fun b => b_used b = false -> b_size b < w) B1.
Proof.
  revert p bs'. induction bs as [|b bs IH]; intros p bs'; [done|]. cbn [b_malloc].
  destruct (b_used b) eqn:Hu; cbn [negb andb].
  2: destruct (Z.leb_spec w (b_size b)).
  2:{ intros [= <- <-]. exists [], (b_addr b), (b_size b), bs. split_and!; try done.
      - destruct b; simpl in *; congruence.
      - unfold split_block. by destruct (32 <? _). }
  all: destruct (b_malloc w bs) as [ [q r]|] eqn:E; [|done]; intros [= <- <-].
  all: destruct (IH _ _ eq_refl) as (B1 & a & s & B2 & -> & Hw & -> & -> & Hall).
  all: exists (b :: B1), a, s, B2; split_and!; try done; constructor; [congruence || lia|done].
Qed.

Lemma b_malloc_none_inv w bs : b_malloc w bs = None -> Forall (fun b => b_used b = false -> b_size b < w) bs.
Proof.
  induction bs as [|b bs IH]; [done|]. cbn [b_malloc]. destruct (b_used b) eqn:Hu; cbn [negb andb].
  - destruct (b_malloc w bs) as [ [? ?]|]; [done|]. intros _. constructor; [congruence|auto].
  - destruct (Z.leb_spec w (b_size b)); [done|]. destruct (b_malloc w bs) as [ [? ?]|]; [done|].
    intros _. constructor; [lia|auto].
Qed.

(** The used block the split leaves, with room for the request. *)
Lemma split_block_used w a s n :
  w <= s -> n + 16 <= w -> exists b, b ∈ split_block w a s /\ b_used b = true /\ b_addr b = a /\ n <= b_size b - 16.
Proof.
  intros. unfold split_block. destruct (32 <? s - w).
  - exists (Blk a w true). split_and!; try done; [by left|simpl; lia].
  - exists (Blk a s true). split_and!; try done; [by left|simpl; lia].
Qed.
Lemma split_block_elem w a s b : b ∈ split_block w a s -> b_used b = true -> b_addr b = a.
Proof.
  unfold split_block. destruct (32 <? s - w); rewrite ?elem_of_cons, ?elem_of_nil; naive_solver.
Qed.

(** What a request of [n] bytes takes from the pool: its bytes rounded up to
    the alignment, and a header. *)
Definition wanted (n : Z) : Z := (n + 15) / 16 * 16 + 16.

(** C7: [pvPortMalloc] is first fit, sound and complete.  A non-null result is
    the payload of the free block of lowest address that is large enough for
    the request and its header; the block is taken whole, or cut to the
    request when more than 32 bytes remain, the rest becoming a free block in
    its place; every other block keeps its header and position.  The payload is
    16-aligned, holds at least the requested bytes inside the pool, and
    overlaps no block in use.  A null result leaves the tiling as it was and
    means the request was 0 or had the top bit set, or every free block is too
    small for it and its header.  The call returns, only accesses the
    allocator's own memory, and keeps the free list address-ordered, disjoint
    and coalesced ([heap_rep]). *)
Theorem heap4_malloc_sound h bs n :
  heap_abs lay h bs -> in_u 64 n ->
  exists p h' bs', pvPortMalloc lay n h = Some (p, h') /\ heap_rep lay h' bs' /\
    if p =? NULL then
      bs' = bs /\ (n = 0 \/ 2 ^ 63 <= n \/
        Forall (fun b => b_used b = false -> b_size b < wanted n) bs)
    else
      (exists B1 s B2, bs = B1 ++ Blk (p - 16) s false :: B2 /\
        Forall (fun b => b_used b = false -> b_size b < wanted n) B1 /\ wanted n <= s /\
        bs' = B1 ++ (if 32 <? s - wanted n then
                       [Blk (p - 16) (wanted n) true; Blk (p - 16 + wanted n) (s - wanted n) false]
                     else [Blk (p - 16) s true]) ++ B2) /\
      (16 | p) /\
      (exists b, b ∈ bs' /\ b_used b = true /\ p = b_addr b + 16 /\ n <= b_size b - 16 /\
        pool_lo lay <= b_addr b /\ b_addr b + b_size b <= pool_end lay /\
        (forall c, c ∈ bs -> b_used c = true -> b_addr b + b_size b <= b_addr c \/ b_addr c + b_size c <= b_addr b)).
Proof.
  intros Ha Hn. destruct (wp_pvPortMalloc lay Hlay h bs n Ha Hn) as (p & h' & Hrun & Hpost).
  pose proof (pool_bounds lay Hlay) as (? & ? & ? & ? & ?).
  assert (Ht : tiled (pool_lo lay) bs (pool_end lay)).
  { destruct Ha as [ [_ ->]|Hr]; [|by apply hr_tiled in Hr]. pose proof (pool_room lay Hlay) as [? ?]. simpl. split_and!; done || lia. }
  destruct (_ && _) eqn:En; [destruct (b_malloc _ bs) as [ [q bs']|] eqn:Em|].
  - destruct Hpost as [-> Hr]. exists q, h', bs'. split; [done|]. split; [done|].
    destruct (b_malloc_inv _ _ _ _ Em) as (B1 & a & s & B2 & Hbs & Hw & -> & Hbs' & Hfit).
    pose proof (hr_tiled _ _ _ Hr) as Ht'.
    destruct (split_block_used _ a s n Hw) as (b & Hb & Hu & Hba & Hsz); [Z.to_euclidean_division_equations; lia|].
    assert (Hbin : b ∈ bs') by (rewrite Hbs', !elem_of_app; tauto).
    pose proof (tiled_elem _ _ _ _ Ht' Hbin) as (? & ? & ?).
    pose proof (tiled_aligned _ _ _ _ (pool_lo_aligned lay) Ht' Hbin) as [Hda _].
    assert (Hkeep : forall c, b_used c = true -> c ∈ bs -> c ∈ bs').
    { intros c Hcu. rewrite Hbs, Hbs', !elem_of_app, elem_of_cons. intros [|[->|] ]; [tauto|done|tauto]. }
    destruct (Z.eqb_spec (a + 16) NULL) as [He|_]; [unfold NULL in He; lia|].
    split; [exists B1, s, B2; replace (a + 16 - 16) with a by lia; done|].
    split; [rewrite <- Hba; apply Z.divide_add_r; [done|by exists 1]|].
    exists b. split_and!; try done; [congruence|]. intros c Hc Hcu.
    destruct (tiled_disjoint _ _ _ b c Ht' Hbin (Hkeep c Hcu Hc)) as [<-|]; [|done].
    assert (Hold : Blk a s false ∈ bs) by (rewrite Hbs; apply elem_of_app; right; by left).
    pose proof (tiled_elem _ _ _ _ Ht Hold) as Hs. pose proof (tiled_disjoint _ _ _ _ _ Ht Hc Hold) as Hd.
    simpl in Hd, Hs. destruct Hd as [->|Hd]; [done|]. lia.
  - destruct Hpost as [-> Hr]. exists NULL, h', bs. split_and!; try done. cbn. split; [done|].
    right; right. by apply b_malloc_none_inv.
  - destruct Hpost as [-> Hr]. exists NULL, h', bs. split_and!; try done. cbn. split; [done|].
    apply andb_false_iff in En as [?%Z.ltb_ge|?%Z.ltb_ge]; unfold in_u in Hn; [left; lia|tauto].
Qed.
(** ** Release *)

Lemma merge_right_apart a s B :
  (forall n B', B = n :: B' -> b_used n = true) -> merge_right (Blk a s false) B = Blk a s false :: B.
Proof. intros Hn. destruct B as [|n B]; [done|]. simpl. by rewrite (Hn n B eq_refl). Qed.

(** Freeing the block just taken from a coalesced tiling restores it. *)
Lemma b_free_split_block lo B1 a s B2 e w :
  tiled lo (B1 ++ Blk a s false :: B2) e -> coalesced false (B1 ++ Blk a s false :: B2) -> 0 < w <= s ->
  b_free a (B1 ++ split_block w a s ++ B2) = B1 ++ Blk a s false :: B2.
Proof.
  intros Ht Hc Hw. apply tiled_app in Ht as (c & Ht1 & Hca & Hs & _ & Ht2). cbn in Hca. subst c.
  apply coalesced_app in Hc as [Hc1 [Hp Hc2] ]. cbn in Hp, Hc2.
  assert (Hapart : forall n B', B2 = n :: B' -> b_used n = true) by (intros n B' ->; by destruct Hc2 as [-> _]).
  assert (Hne : Forall (fun c => b_addr c <> a) B1).
  { apply Forall_forall. intros d Hd. destruct (tiled_elem _ _ _ _ Ht1 Hd). lia. }
  assert (Hleft : forall x u Bs, b_free a (B1 ++ Blk a x u :: Bs) = B1 ++ merge_right (Blk a x false) Bs).
  { intros x u Bs. pose proof (b_free_split B1 (Blk a x u) Bs Hne) as Hsp. cbn [b_addr b_size] in Hsp. rewrite Hsp.
    destruct (last B1) as [p|] eqn:El; [|by apply last_None in El; subst].
    destruct (b_used p) eqn:Hup; [done|]. cbn in Hp. specialize (Hp eq_refl). done. }
  unfold split_block. destruct (32 <? s - w); cbn [app]; rewrite Hleft; f_equal.
  - cbn [merge_right b_used b_addr b_size]. f_equal. f_equal. lia.
  - by apply merge_right_apart.
Qed.

Definition malloc_then_free (n : Z) : M heap unit := p ← pvPortMalloc lay n; vPortFree lay p.

(** C16: releasing an allocation right after making it restores the pool: the
    heap again represents the tiling it had before, so the free-byte count is
    what it was and no fragment is left behind by the split. *)
Theorem heap4_malloc_free h bs n :
  heap_rep lay h bs -> in_u 64 n ->
  exists h', malloc_then_free n h = Some (tt, h') /\ heap_rep lay h' bs /\
    xFreeBytesRemaining h' = xFreeBytesRemaining h.
Proof.
  intros Hr Hn. pose proof (hr_bytes _ _ _ Hr) as Hby.
  cut (wp (malloc_then_free n) (fun _ h' => heap_rep lay h' bs) h).
  { intros ([] & h' & Hrun & Hr'). exists h'. split_and!; try done. rewrite Hby. by eapply hr_bytes. }
  unfold malloc_then_free. apply wp_bind. eapply wp_mono; [by apply wp_pvPortMalloc; [done|right|]|].
  intros p h' Hp. destruct (_ && _) eqn:En; [destruct (b_malloc _ bs) as [ [q bs']|] eqn:Em|].
  - destruct Hp as [-> Hr']. destruct (b_malloc_inv _ _ _ _ Em) as (B1 & a & s & B2 & -> & Hw & -> & -> & _).
    destruct (split_block_used _ a s n Hw) as (b & Hb & Hu & <- & Hsz); [Z.to_euclidean_division_equations; lia|].
    eapply wp_mono; [apply (wp_vPortFree lay Hlay _ _ b Hr'); [rewrite !elem_of_app; tauto|done]|].
    intros ? h'' [Hr'' _]. rewrite (b_free_split_block (pool_lo lay) _ _ _ _ (pool_end lay)) in Hr''; [done|..].
    + apply Hr.
    + apply Hr.
    + apply andb_true_iff in En as [?%Z.ltb_lt _]. Z.to_euclidean_division_equations; lia.
  - destruct Hp as [-> Hr']. by apply wp_ret.
  - destruct Hp as [-> Hr']. by apply wp_ret.
Qed.

Lemma all_free_single lo bs e :
  tiled lo bs e -> coalesced false bs -> Forall (fun b => b_used b = false) bs -> lo < e ->
  bs = [Blk lo (e - lo) false].
Proof.
  intros Ht Hc Hf Hlt. destruct bs as [|b bs]; simpl in Ht; [lia|]. apply Forall_cons in Hf as [Hb Hf].
  destruct Ht as (Ha & ? & ? & Ht). destruct Hc as [_ Hc]. rewrite Hb in Hc.
  destruct bs as [|b' bs].
  - simpl in Ht. destruct b as [a s u]; simpl in *. subst. do 2 f_equal. lia.
  - apply Forall_cons in Hf as [Hb' _]. destruct Hc as [Hc _]. specialize (Hc eq_refl). congruence.
Qed.

(** The pool never fragments permanently: whenever every block has been
    released, the pool is again one free block spanning it, and the reported
    free bytes are those of a fresh heap. *)
Theorem heap4_no_leak h bs :
  heap_rep lay h bs -> Forall (fun b => b_used b = false) bs ->
  bs = initial_blocks lay /\ xFreeBytesRemaining h = pool_end lay - pool_lo lay.
Proof.
  intros Hr Hf. pose proof (pool_bounds lay Hlay) as (_ & _ & Hlt & _).
  assert (bs = initial_blocks lay) as -> by (apply all_free_single; [apply Hr|apply Hr|done|done]).
  split; [done|]. rewrite (hr_bytes _ _ _ Hr). simpl. lia.
Qed.

(** A second release of the same pointer is ignored: the first clears the
    allocated bit of the block's header, whether the header stays a free-list
    node or is left stale inside a merged block, so the repeat finds it clear
    and returns without touching the heap. *)
Theorem heap4_double_free h bs b :
  heap_rep lay h bs -> b ∈ bs -> b_used b = true ->
  exists h', vPortFree lay (b_addr b + 16) h = Some (tt, h') /\
    heap_rep lay h' (b_free (b_addr b) bs) /\
    vPortFree lay (b_addr b + 16) h' = Some (tt, h').
Proof.
  intros Hr Hin Hu. destruct (wp_vPortFree lay Hlay h bs b Hr Hin Hu) as ([] & h' & Hrun & Hr' & Hs).
  exists h'. split_and!; try done. apply vPortFree_ignored. right.
  pose proof (tiled_elem _ _ _ _ (hr_tiled _ _ _ Hr) Hin). pose proof (pool_bounds lay Hlay).
  replace (b_addr b + 16 - 16) with (b_addr b) by lia.
  split_and!; [apply valid_pool; [done|lia]|lia|lia|done].
Qed.

(** ** Clients *)

(** A client's interaction with the allocator.  [live] holds the pointers it
    has not released; between calls it may store anything in the bytes of its
    blocks, here a 16-byte record at a time. *)
Definition payload_end h (p : Z) : Z := p - 16 + (sz h (p - 16) - 2 ^ 63).

Inductive client_step : heap * gset Z -> heap * gset Z -> Prop :=
  | step_malloc h live n p h' :
      in_u 64 n -> pvPortMalloc lay n h = Some (p, h') ->
      client_step (h, live) (h', if p =? NULL then live else {[p]} ∪ live)
  | step_free h live p h' :
      p ∈ live -> vPortFree lay p h = Some (tt, h') -> client_step (h, live) (h', live ∖ {[p]})
  | step_free_null h live h' :
      vPortFree lay NULL h = Some (tt, h') -> client_step (h, live) (h', live)
  | step_write h live p a v :
      p ∈ live -> p <= a -> a + 16 <= payload_end h p -> client_step (h, live) (hset a v h, live).

Definition used_ptrs bs : list Z := (fun b => b_addr b + 16) <$> filter (fun b => b_used b = true) bs.

Definition client_inv (s : heap * gset Z) : Prop :=
  exists bs, heap_abs lay s.1 bs /\ forall p, p ∈ s.2 <-> p ∈ used_ptrs bs.

Lemma elem_of_used_ptrs p bs : p ∈ used_ptrs bs <-> exists b, b ∈ bs /\ b_used b = true /\ p = b_addr b + 16.
Proof.
  unfold used_ptrs. rewrite list_elem_of_fmap. setoid_rewrite list_elem_of_filter. naive_solver.
Qed.
Lemma heap_abs_tiled h bs : heap_abs lay h bs -> tiled (pool_lo lay) bs (pool_end lay).
Proof.
  intros [ [_ ->]|Hr]; [|apply Hr]. pose proof (pool_room lay Hlay) as [? ?]. simpl. split_and!; done || lia.
Qed.

(** Stores outside the headers do not concern the allocator. *)
Lemma heap_rep_write h bs a v :
  heap_rep lay h bs -> a <> xStart lay -> a <> pool_end lay -> (forall b, b ∈ bs -> a <> b_addr b) ->
  heap_rep lay (hset a v h) bs.
Proof.
  intros [Hl Ht Hc Hu Hb Hm] Hx He Ha.
  assert (Hf : forall c, c <> a -> nx (hset a v h) c = nx h c /\ sz (hset a v h) c = sz h c).
  { intros c Hne. unfold nx, sz. rewrite hget_hset, decide_False by done. done. }
  constructor; try done.
  - eapply frep_frame; [| | |exact Hl]; [|unfold hset; simpl; rewrite dom_insert_L; set_solver|done].
    intros c Hc'. apply Hf. destruct Hc' as [->|[Hc'| ->] ]; [done| |done].
    apply list_elem_of_fmap in Hc' as ([c' q] & -> & Hin). unfold frees in Hin.
    apply list_elem_of_fmap in Hin as (b & [= -> ->] & [_ Hin]%list_elem_of_filter). simpl. naive_solver.
  - intros b Hin Hub. destruct (Hf (b_addr b)) as [-> ->]; [naive_solver|]. by apply Hu.
Qed.

Lemma client_step_inv s s' : client_inv s -> client_step s s' -> client_inv s'.
Proof.
  intros (bs & Ha & Hlive) Hstep. pose proof (heap_abs_tiled _ _ Ha) as Ht.
  pose proof (pool_bounds lay Hlay) as (? & ? & ? & ? & ?).
  destruct Hstep as [h live n p h' Hn Hrun|h live p h' Hp Hrun|h live h' Hrun|h live p a v Hp Hlo Hhi]; simpl in *.
  - pose proof (wp_inv _ _ _ _ _ (wp_pvPortMalloc lay Hlay h bs n Ha Hn) Hrun) as Hpost.
    destruct (_ && _) eqn:En; [destruct (b_malloc _ bs) as [ [q bs']|] eqn:Em|].
    + destruct Hpost as [-> Hr]. exists bs'. split; [by right|]. intros x. simpl.
      destruct (b_malloc_inv _ _ _ _ Em) as (B1 & a & s & B2 & -> & Hw & -> & -> & _).
      assert (pool_lo lay <= a) by (eapply (tiled_elem _ _ _ (Blk a s false) Ht), elem_of_app; right; by left).
      destruct (Z.eqb_spec (a + 16) NULL) as [He|_]; [unfold NULL in He; lia|].
      rewrite elem_of_union, elem_of_singleton, Hlive, !elem_of_used_ptrs.
      setoid_rewrite elem_of_app. setoid_rewrite elem_of_app. setoid_rewrite elem_of_cons. split.
      * intros [->|(b & Hin & Hu & ->)].
        -- destruct (split_block_used _ a s n Hw) as (b & ? & ? & <- & _); [Z.to_euclidean_division_equations; lia|].
           exists b. tauto.
        -- exists b. split; [|done]. destruct Hin as [|[->|] ]; [tauto|done|tauto].
      * intros (b & [Hin|[Hin|Hin] ] & Hu & ->); [right; exists b; tauto| |right; exists b; tauto].
        left. by rewrite (split_block_elem _ _ _ _ Hin Hu).
    + destruct Hpost as [-> Hr]. exists bs. split; [by right|done].
    + destruct Hpost as [-> Hr]. exists bs. split; [by right|done].
  - apply Hlive, elem_of_used_ptrs in Hp as (b & Hin & Hu & ->).
    assert (Hr : heap_rep lay h bs).
    { destruct Ha as [ [_ ->]|]; [|done]. apply list_elem_of_singleton in Hin. by subst. }
    pose proof (wp_inv _ _ _ _ _ (wp_vPortFree lay Hlay h bs b Hr Hin Hu) Hrun) as [Hr' _].
    exists (b_free (b_addr b) bs). split; [by right|]. intros x. simpl.
    rewrite elem_of_difference, elem_of_singleton, Hlive, !elem_of_used_ptrs. by eapply b_free_used_iff.
  - exists bs. simpl in Hrun. injection Hrun as <-. done.
  - apply Hlive, elem_of_used_ptrs in Hp as (b & Hin & Hu & ->).
    assert (Hr : heap_rep lay h bs).
    { destruct Ha as [ [_ ->]|]; [|done]. apply list_elem_of_singleton in Hin. by subst. }
    exists bs. split; [|done]. right. simpl. unfold payload_end in Hhi.
    replace (b_addr b + 16 - 16) with (b_addr b) in Hhi by lia.
    destruct (hr_used _ _ _ Hr b Hin Hu) as [_ Hs]. rewrite Hs in Hhi.
    pose proof (tiled_elem _ _ _ _ Ht Hin). apply heap_rep_write; [done|apply start_outside; [done|lia]|lia|].
    intros c Hc. pose proof (tiled_elem _ _ _ _ Ht Hc).
    destruct (tiled_disjoint _ _ _ b c Ht Hin Hc) as [<-|]; lia.
Qed.

Lemma client_reach_inv s : rtc client_step (heap_boot, ∅) s -> client_inv s.
Proof.
  intros Hr. remember (heap_boot, ∅) as s0 eqn:E.
  assert (Hi : client_inv s0).
  { subst. exists (initial_blocks lay). split; [by left|]. intros p. simpl. rewrite elem_of_used_ptrs.
    split; [set_solver|]. by intros (b & ->%list_elem_of_singleton & ? & _). }
  clear E. induction Hr; [done|]. apply IHHr. by eapply client_step_inv.
Qed.

(** C4: whatever a client does with allocations, releases, null releases and
    stores inside its own blocks, in any order and number from boot, the
    allocator never misbehaves: every further call terminates inside the
    allocator's memory, and the blocks of distinct live pointers, headers
    included, stay disjoint and inside the pool. *)
Theorem heap4_client_safe s :
  rtc client_step (heap_boot, ∅) s ->
  (forall n, in_u 64 n -> is_Some (pvPortMalloc lay n s.1)) /\
  (forall p, p ∈ s.2 -> is_Some (vPortFree lay p s.1)) /\
  (forall p, p ∈ s.2 -> pool_lo lay + 16 <= p /\ p < payload_end s.1 p <= pool_end lay) /\
  (forall p q, p ∈ s.2 -> q ∈ s.2 -> p <> q -> payload_end s.1 p <= q - 16 \/ payload_end s.1 q <= p - 16).
Proof.
  intros (bs & Ha & Hlive)%client_reach_inv. pose proof (heap_abs_tiled _ _ Ha) as Ht.
  assert (Hblk : forall p, p ∈ s.2 -> exists b, b ∈ bs /\ b_used b = true /\ p = b_addr b + 16 /\
    payload_end s.1 p = b_addr b + b_size b /\ heap_rep lay s.1 bs).
  { intros p (b & Hin & Hu & ->)%Hlive%elem_of_used_ptrs.
    assert (Hr : heap_rep lay s.1 bs).
    { destruct Ha as [ [_ ->]|]; [|done]. apply list_elem_of_singleton in Hin. by subst. }
    exists b. destruct (hr_used _ _ _ Hr b Hin Hu) as [_ Hs]. unfold payload_end.
    replace (b_addr b + 16 - 16) with (b_addr b) by lia. rewrite Hs. split_and!; try done. lia. }
  split_and!.
  - intros n Hn. destruct (wp_pvPortMalloc lay Hlay _ _ n Ha Hn) as (? & ? & -> & _). by eexists.
  - intros p (b & Hin & Hu & -> & _ & Hr)%Hblk.
    destruct (wp_vPortFree lay Hlay _ _ b Hr Hin Hu) as (? & ? & -> & _). by eexists.
  - intros p (b & Hin & Hu & -> & -> & _)%Hblk. pose proof (tiled_elem _ _ _ _ Ht Hin). lia.
  - intros p q (b & Hb & _ & -> & -> & _)%Hblk (c & Hc & _ & -> & -> & _)%Hblk Hne.
    destruct (tiled_disjoint _ _ _ b c Ht Hb Hc) as [->|]; [done|lia].
Qed.

(** ** heap_4 implements the allocator interface *)

Definition heap4_ops : HeapOps heap := {| hp_malloc := pvPortMalloc lay; hp_free := vPortFree lay |}.

Definition heap4_rep h (live : gmap Z Z) : Prop :=
  exists bs, heap_abs lay h bs /\ forall p n, live !! p = Some n ->
    0 < n /\ exists b, b ∈ bs /\ b_used b = true /\ p = b_addr b + 16 /\ n <= b_size b - 16.

Lemma heap4_rep_block h live p n :
  heap4_rep h live -> live !! p = Some n -> exists bs b, heap_rep lay h bs /\ b ∈ bs /\ b_used b = true /\
    p = b_addr b + 16 /\ n <= b_size b - 16.
Proof.
  intros (bs & Ha & Hlive) Hp. destruct (Hlive p n Hp) as (_ & b & Hin & Hu & -> & Hn). exists bs, b.
  split_and!; try done. destruct Ha as [ [_ ->]|]; [|done]. apply list_elem_of_singleton in Hin. by subst.
Qed.

Lemma heap4_region_ok s live p n :
  heap4_rep s live -> live !! p = Some n -> 0 < p /\ 0 < n /\ p + n <= 2 ^ 64 /\ (16 | p).
Proof.
  intros (bs & Ha & Hlive) Hp. destruct (Hlive p n Hp) as (Hn0 & b & Hin & Hu & -> & Hn).
  pose proof (heap_abs_tiled _ _ Ha) as Ht. pose proof (pool_bounds lay Hlay).
  pose proof (tiled_elem _ _ _ _ Ht Hin). split_and!; try lia.
  apply Z.divide_add_r; [|by exists 1]. by apply (tiled_aligned _ _ _ _ (pool_lo_aligned lay) Ht Hin).
Qed.

Lemma heap4_disjoint_ok s live p n q k :
  heap4_rep s live -> live !! p = Some n -> live !! q = Some k -> p <> q -> p + n <= q \/ q + k <= p.
Proof.
  intros (bs & Ha & Hlive) Hp Hq Hne. pose proof (heap_abs_tiled _ _ Ha) as Ht.
  destruct (Hlive p n Hp) as (_ & b & Hb & _ & -> & ?). destruct (Hlive q k Hq) as (_ & c & Hc & _ & -> & ?).
  destruct (tiled_disjoint _ _ _ b c Ht Hb Hc) as [->|]; [done|lia].
Qed.

Lemma heap4_malloc_ok s live n :
  heap4_rep s live -> 0 < n < 2 ^ 63 ->
  wp (pvPortMalloc lay n) (fun p s' => p = 0 /\ heap4_rep s' live \/
    p <> 0 /\ live !! p = None /\ heap4_rep s' (<[p := n]> live)) s.
Proof.
  intros (bs & Ha & Hlive) Hn. pose proof (heap_abs_tiled _ _ Ha) as Ht. pose proof (pool_bounds lay Hlay).
  eapply wp_mono; [apply (wp_pvPortMalloc lay Hlay s bs n Ha); unfold in_u; lia|].
  intros p s'. destruct (Z.ltb_spec 0 n); [|lia]. destruct (Z.ltb_spec n (2 ^ 63)); [|lia]. cbn [andb].
  destruct (b_malloc _ bs) as [ [q bs']|] eqn:Em; intros [-> Hr].
  2:{ left. split; [done|]. exists bs. split; [by right|done]. }
  destruct (b_malloc_inv _ _ _ _ Em) as (B1 & a & sz & B2 & -> & Hw & -> & -> & _).
  assert (Hold : Blk a sz false ∈ B1 ++ Blk a sz false :: B2) by (apply elem_of_app; right; by left).
  pose proof (tiled_elem _ _ _ _ Ht Hold) as Hra. simpl in Hra. right. split; [lia|]. split.
  - destruct (live !! (a + 16)) as [k|] eqn:El; [|done]. exfalso.
    destruct (Hlive _ _ El) as (_ & b & Hb & Hu & Heq & _).
    destruct (tiled_disjoint _ _ _ b _ Ht Hb Hold) as [->|Hd]; [done|]. simpl in Hd.
    pose proof (tiled_elem _ _ _ _ Ht Hb). lia.
  - exists (B1 ++ split_block ((n + 15) / 16 * 16 + 16) a sz ++ B2). split; [by right|]. intros p k.
    rewrite lookup_insert. case_decide; subst.
    + intros [= <-]. split; [lia|].
      destruct (split_block_used _ a sz n Hw) as (b & Hb & Hu & Hba & Hs); [Z.to_euclidean_division_equations; lia|].
      exists b. rewrite !elem_of_app. split_and!; try done; [tauto|congruence].
    + intros Hp. destruct (Hlive _ _ Hp) as (? & b & Hb & Hu & -> & ?). split; [done|]. exists b.
      split_and!; try done. rewrite !elem_of_app. rewrite elem_of_app, elem_of_cons in Hb.
      destruct Hb as [|[->|] ]; [tauto|done|tauto].
Qed.

Lemma heap4_free_ok s live p :
  heap4_rep s live -> p = 0 \/ is_Some (live !! p) ->
  wp (vPortFree lay p) (fun _ s' => heap4_rep s' (delete p live)) s.
Proof.
  intros Hrep [->|[n Hp] ].
  - apply wp_ret. destruct Hrep as (bs & Ha & Hlive). exists bs. split; [done|].
    intros p n [_ Hp]%lookup_delete_Some. by apply Hlive.
  - destruct (heap4_rep_block _ _ _ _ Hrep Hp) as (bs0 & b & Hr & Hin & Hu & -> & _).
    destruct Hrep as (bs & Ha & Hlive).
    assert (Hsame : exists b', b' ∈ bs /\ b_used b' = true /\ b_addr b' = b_addr b /\ heap_rep lay s bs).
    { destruct (Hlive _ _ Hp) as (_ & b' & Hin' & Hu' & Heq & _). exists b'. split_and!; try done; [lia|].
      destruct Ha as [ [_ ->]|]; [|done]. apply list_elem_of_singleton in Hin'. by subst. }
    destruct Hsame as (b' & Hin' & Hu' & <- & Hr').
    eapply wp_mono; [by apply (wp_vPortFree lay Hlay s bs b')|]. intros ? s' [Hrs _].
    exists (b_free (b_addr b') bs). split; [by right|]. intros p k [Hne Hk]%lookup_delete_Some.
    destruct (Hlive _ _ Hk) as (? & d & Hd & Hud & -> & ?). split; [done|]. exists d. split_and!; try done.
    eapply (b_free_keeps _ _ _ _ _ (hr_tiled _ _ _ Hr')); try done. lia.
Qed.

Definition heap4_laws : @HeapLaws heap heap4_ops := {|
  hp_rep := heap4_rep;
  hp_region := heap4_region_ok;
  hp_disjoint := heap4_disjoint_ok;
  hp_malloc_spec := heap4_malloc_ok : forall s live n, _ -> _ -> wp (@hp_malloc _ heap4_ops n) _ s;
  hp_free_spec := heap4_free_ok : forall s live p, _ -> _ -> wp (@hp_free _ heap4_ops p) _ s |}.
End properties.

(** ** Witnesses *)

Definition run_or {A} (c : M heap A) (h : heap) : heap := match c h with Some (_, h') => h' | None => h end.

Definition demo_heap0 : heap := run_or (vPortInitialiseBlocks demo_layout) heap_boot.
Lemma demo_heap0_rep : heap_rep demo_layout demo_heap0 (initial_blocks demo_layout).
Proof.
  destruct (wp_vPortInitialiseBlocks demo_layout demo_layout_ok) as (? & h & Hrun & Hr).
  unfold demo_heap0, run_or. by rewrite Hrun.
Qed.

(** After one allocation of 100 bytes. *)
Definition demo_heap1 : heap := run_or (pvPortMalloc demo_layout 100) demo_heap0.
Definition demo_blocks1 : list blk :=
  [Blk 0x80010 128 true; Blk 0x80090 (pool_end demo_layout - 0x80090) false].
Lemma demo_heap1_rep : heap_rep demo_layout demo_heap1 demo_blocks1.
Proof.
  destruct (wp_pvPortMalloc demo_layout demo_layout_ok demo_heap0 (initial_blocks demo_layout) 100
    (or_intror demo_heap0_rep) ltac:(unfold in_u; lia)) as (p & h & Hrun & Hpost).
  unfold demo_heap1, run_or. rewrite Hrun. vm_compute in Hpost. destruct Hpost as [_ Hr]. exact Hr.
Qed.

Lemma heap4_malloc_sound_witness :
  exists p h' bs', pvPortMalloc demo_layout 100 heap_boot = Some (p, h') /\ heap_rep demo_layout h' bs' /\
    if p =? NULL then
      bs' = initial_blocks demo_layout /\ (100 = 0 \/ 2 ^ 63 <= 100 \/
        Forall (fun b => b_used b = false -> b_size b < wanted 100) (initial_blocks demo_layout))
    else
      (exists B1 s B2, initial_blocks demo_layout = B1 ++ Blk (p - 16) s false :: B2 /\
        Forall (fun b => b_used b = false -> b_size b < wanted 100) B1 /\ wanted 100 <= s /\
        bs' = B1 ++ (if 32 <? s - wanted 100 then
                       [Blk (p - 16) (wanted 100) true; Blk (p - 16 + wanted 100) (s - wanted 100) false]
                     else [Blk (p - 16) s true]) ++ B2) /\
      (16 | p) /\
      (exists b, b ∈ bs' /\ b_used b = true /\ p = b_addr b + 16 /\ 100 <= b_size b - 16 /\
        pool_lo demo_layout <= b_addr b /\ b_addr b + b_size b <= pool_end demo_layout /\
        (forall c, c ∈ initial_blocks demo_layout -> b_used c = true ->
           b_addr b + b_size b <= b_addr c \/ b_addr c + b_size c <= b_addr b)).
Proof.
  exact (heap4_malloc_sound demo_layout demo_layout_ok heap_boot (initial_blocks demo_layout) 100
    (or_introl (conj eq_refl eq_refl)) ltac:(unfold in_u; lia)).
Defined.

Lemma heap4_malloc_free_witness :
  exists h', malloc_then_free demo_layout 100 demo_heap0 = Some (tt, h') /\
    heap_rep demo_layout h' (initial_blocks demo_layout) /\
    xFreeBytesRemaining h' = xFreeBytesRemaining demo_heap0.
Proof.
  exact (heap4_malloc_free demo_layout demo_layout_ok demo_heap0 _ 100 demo_heap0_rep ltac:(unfold in_u; lia)).
Defined.

Lemma heap4_no_leak_witness :
  initial_blocks demo_layout = initial_blocks demo_layout /\
  xFreeBytesRemaining demo_heap0 = pool_end demo_layout - pool_lo demo_layout.
Proof.
  apply (heap4_no_leak demo_layout demo_layout_ok demo_heap0 (initial_blocks demo_layout) demo_heap0_rep).
  repeat constructor.
Defined.

Lemma heap4_double_free_witness :
  exists h', vPortFree demo_layout 0x80020 demo_heap1 = Some (tt, h') /\
    heap_rep demo_layout h' (b_free 0x80010 demo_blocks1) /\
    vPortFree demo_layout 0x80020 h' = Some (tt, h').
Proof.
  apply (heap4_double_free demo_layout demo_layout_ok demo_heap1 demo_blocks1 (Blk 0x80010 128 true) demo_heap1_rep).
  - apply elem_of_cons. by left.
  - reflexivity.
Defined.

Lemma heap4_client_safe_witness :
  is_Some (vPortFree demo_layout 0x80020 (run_or (pvPortMalloc demo_layout 100) heap_boot)).
Proof.
  refine (proj1 (proj2 (heap4_client_safe demo_layout demo_layout_ok
    (run_or (pvPortMalloc demo_layout 100) heap_boot, {[0x80020]} ∪ ∅) _)) 0x80020 _).
  - eapply rtc_l; [|apply rtc_refl].
    apply (step_malloc demo_layout heap_boot ∅ 100 0x80020); [unfold in_u; lia|]. vm_compute. reflexivity.
  - simpl. set_solver.
Defined.
