(* ===== verification/Heap1.v ===== *)
(** * heap_1: allocate-only heap (src/portable/MemMang/heap_1.c)

    A bump allocator over a static pool at [ucHeap]; release does nothing.
    [xNextFreeByte] is the only state.  Arithmetic on [size_t] wraps at 64
    bits, which the code does not guard against: see [heap1_wraps]. *)

From S2P Require Import Prelude Config Alloc.

Definition heapALIGN_MASK : Z := portBYTE_ALIGNMENT - 1.

Section heap1.
Context (ucHeap : Z).

Definition pvPortMalloc (xWanted : Z) : M Z Z :=
  let xWantedSize :=
    if negb (Z.land xWanted heapALIGN_MASK =? 0)
    then u64 (xWanted + (portBYTE_ALIGNMENT - Z.land xWanted heapALIGN_MASK)) else xWanted in
  xNextFreeByte ← gets id;
  if u64 (xNextFreeByte + xWantedSize) <=? configTOTAL_HEAP_SIZE then
    modify (fun _ => u64 (xNextFreeByte + xWantedSize));;
    mret (ucHeap + xNextFreeByte)
  else mret 0.

Definition vPortFree (pv : Z) : M Z unit := mret tt.
Definition xPortGetFreeHeapSize : M Z Z := gets (fun n => u64 (configTOTAL_HEAP_SIZE - n)).
Definition xPortGetMinimumEverFreeHeapSize : M Z Z := gets (fun n => u64 (configTOTAL_HEAP_SIZE - n)).
Definition vPortInitialiseBlocks : M Z unit := modify (fun _ => 0).

(** ** The allocator interface, for requests below [2^63] *)

(** The pool is aligned and inside the address space. *)
Definition pool_ok : Prop := 0 < ucHeap /\ ucHeap + configTOTAL_HEAP_SIZE <= 2 ^ 64 /\ (16 | ucHeap).
Context (Hpool : pool_ok).

Definition round16 (n : Z) : Z := (n + 15) / 16 * 16.

Lemma round16_ge n : n <= round16 n < n + 16.
Proof. unfold round16. Z.to_euclidean_division_equations; lia. Qed.

Lemma heap1_round n :
  0 < n < 2 ^ 63 ->
  (if negb (Z.land n heapALIGN_MASK =? 0)
   then u64 (n + (portBYTE_ALIGNMENT - Z.land n heapALIGN_MASK)) else n) = round16 n.
Proof.
  intros Hn. replace (Z.land n heapALIGN_MASK) with (n mod 16)
    by (symmetry; exact (land_mask 4 n 15 ltac:(lia) eq_refl)).
  unfold portBYTE_ALIGNMENT, round16. destruct (Z.eqb_spec (n mod 16) 0); cbn [negb].
  - Z.to_euclidean_division_equations; lia.
  - pose proof (Z.mod_pos_bound n 16). rewrite wrapu_small by (unfold in_u; lia).
    Z.to_euclidean_division_equations; lia.
Qed.

(** Everything handed out lies below the next free byte. *)
Definition heap1_rep (next : Z) (live : gmap Z Z) : Prop :=
  0 <= next <= configTOTAL_HEAP_SIZE /\ (16 | next) /\
  (forall p n, live !! p = Some n -> 0 < n /\ ucHeap <= p /\ p + n <= ucHeap + next /\ (16 | p)) /\
  (forall p n q k, live !! p = Some n -> live !! q = Some k -> p <> q -> p + n <= q \/ q + k <= p).

Lemma heap1_malloc_ok next live n :
  heap1_rep next live -> 0 < n < 2 ^ 63 ->
  wp (pvPortMalloc n) (fun p next' => p = 0 /\ heap1_rep next' live \/
    p <> 0 /\ live !! p = None /\ heap1_rep next' (<[p := n]> live)) next.
Proof.
  intros (Hnx & Hd & Hl & Hdis) Hn. destruct Hpool as (? & ? & ?). pose proof (round16_ge n).
  unfold pvPortMalloc. cbn zeta. rewrite heap1_round by done. wp_steps. unfold id.
  unfold configTOTAL_HEAP_SIZE in *. rewrite wrapu_small by (unfold in_u; lia).
  destruct (Z.leb_spec (next + round16 n) (1024 * 1024)).
  2:{ wp_steps. left. done. }
  wp_steps. right. split; [lia|]. split.
  - destruct (live !! (ucHeap + next)) eqn:E; [|done]. apply Hl in E. lia.
  - split_and!; [unfold configTOTAL_HEAP_SIZE; lia|unfold configTOTAL_HEAP_SIZE; lia| | |].
    + apply Z.divide_add_r; [done|]. eexists. reflexivity.
    + intros p k. rewrite lookup_insert. case_decide; subst.
      * intros [= <-]. split_and!; try lia. by apply Z.divide_add_r.
      * intros Hp%Hl. split_and!; try apply Hp. lia.
    + intros p k q j. rewrite !lookup_insert. repeat case_decide; subst; intros Hp Hq Hne; simplify_eq.
      * apply Hl in Hq. lia.
      * apply Hl in Hp. lia.
      * by eapply Hdis.
Qed.

Definition heap1_ops : HeapOps Z := {| hp_malloc := pvPortMalloc; hp_free := vPortFree |}.

Lemma heap1_region_ok s live p n :
  heap1_rep s live -> live !! p = Some n -> 0 < p /\ 0 < n /\ p + n <= 2 ^ 64 /\ (16 | p).
Proof.
  intros (Hnx & _ & Hl & _) Hp%Hl. destruct Hpool as (? & ? & ?). unfold configTOTAL_HEAP_SIZE in *.
  split_and!; lia || apply Hp.
Qed.

Lemma heap1_disjoint_ok s live p n q k :
  heap1_rep s live -> live !! p = Some n -> live !! q = Some k -> p <> q -> p + n <= q \/ q + k <= p.
Proof. intros (_ & _ & _ & Hd). by apply Hd. Qed.

Lemma heap1_free_ok s live p :
  heap1_rep s live -> p = 0 \/ is_Some (live !! p) -> wp (vPortFree p) (fun _ s' => heap1_rep s' (delete p live)) s.
Proof.
  intros (Hnx & Hal & Hl & Hd) _. apply wp_ret. split_and!; try apply Hnx; try done.
  - intros q n [_ Hq]%lookup_delete_Some. by apply Hl.
  - intros a n b k [_ Ha]%lookup_delete_Some [_ Hb]%lookup_delete_Some. by apply Hd.
Qed.

Definition heap1_laws : @HeapLaws Z heap1_ops := {|
  hp_rep := heap1_rep;
  hp_region := heap1_region_ok;
  hp_disjoint := heap1_disjoint_ok;
  hp_malloc_spec := heap1_malloc_ok : forall s live n, _ -> _ -> wp (@hp_malloc _ heap1_ops n) _ s;
  hp_free_spec := heap1_free_ok : forall s live p, _ -> _ -> wp (@hp_free _ heap1_ops p) _ s |}.
End heap1.

(** Heap_1 hands out aligned, non-null, pairwise disjoint regions inside
    its pool, and reports as free exactly the bytes it has not handed out; a
    request that does not fit returns null and changes nothing.  Requests are
    below [2^63] bytes. *)
Theorem heap1_malloc_sound ucHeap next live n :
  pool_ok ucHeap -> heap1_rep ucHeap next live -> 0 < n < 2 ^ 63 ->
  exists p next', pvPortMalloc ucHeap n next = Some (p, next') /\
    if decide (next + round16 n <= configTOTAL_HEAP_SIZE) then
      p = ucHeap + next /\ next' = next + round16 n /\ heap1_rep ucHeap next' (<[p := n]> live)
    else p = 0 /\ next' = next.
Proof.
  intros Hp Hr Hn. destruct (heap1_malloc_ok ucHeap Hp next live n Hr Hn) as (p & next' & Hrun & Hpost).
  exists p, next'. split; [done|]. revert Hrun. unfold pvPortMalloc. cbn zeta. rewrite heap1_round by done.
  destruct Hr as (Hnx & _). pose proof (round16_ge n). destruct Hp as (? & ? & ?).
  unfold configTOTAL_HEAP_SIZE in *. unfold mbind, M_bind, gets, modify, mret, M_ret, id.
  rewrite wrapu_small by (unfold in_u; lia).
  destruct (Z.leb_spec (next + round16 n) (1024 * 1024)); intros [= <- <-]; case_decide; try lia; try done.
  destruct Hpost as [ [? _]|(_ & _ & ?)]; [lia|done].
Qed.

(** The rounding and the bound check wrap: after 32 bytes have been handed
    out, a request of [2^64 - 16] bytes succeeds and moves the next free byte
    back, so that the following request overlaps the first region. *)
Theorem heap1_wraps :
  (p ← pvPortMalloc 0x80000 32; q ← pvPortMalloc 0x80000 (2 ^ 64 - 16); r ← pvPortMalloc 0x80000 16; mret (p, q, r)) 0
  = Some ((0x80000, 0x80020, 0x80010), 32).
Proof. reflexivity. Qed.

Lemma heap1_malloc_sound_witness :
  exists p next', pvPortMalloc 0x80000 100 0 = Some (p, next') /\
    p = 0x80000 /\ next' = 112 /\ heap1_rep 0x80000 112 {[0x80000 := 100]}.
Proof.
  destruct (heap1_malloc_sound 0x80000 0 ∅ 100) as (p & next' & Hrun & Hpost).
  - split_and!; [lia|unfold configTOTAL_HEAP_SIZE; lia|by exists 0x8000].
  - split_and!; [lia|unfold configTOTAL_HEAP_SIZE; lia|by exists 0| |]; intros *; by rewrite ?lookup_empty.
  - lia.
  - exists p, next'. split; [exact Hrun|]. rewrite decide_True in Hpost by (vm_compute; discriminate).
    destruct Hpost as (-> & -> & Hr). split; [reflexivity|]. split; [reflexivity|exact Hr].
Defined.
