(* ===== verification/Heap3.v ===== *)
(** * heap_3: the C library's heap in critical sections (src/portable/MemMang/heap_3.c)

    malloc and free of the host C library are a parameter; they are not
    reentrant, so their contract holds only for calls made with interrupts
    masked.  The state adds the critical-section counter of the port. *)

From S2P Require Import Prelude Config Alloc.

(** The host's heap; [masked]: interrupts are off during the call. *)
Class HostHeap (S : Type) := {
  host_malloc (masked : bool) : Z -> M S Z;
  host_free (masked : bool) : Z -> M S unit }.

Section heap3.
Context {S : Type} {HH : HostHeap S}.

Record heap3 := MkHeap3 { host : S; h3_nesting : Z; h3_masked : bool }.
Definition onHost {A} (c : bool -> M S A) : M heap3 A :=
  m ← gets h3_masked; zoom host (fun h s => MkHeap3 h (h3_nesting s) (h3_masked s)) (c m).

Definition portENTER_CRITICAL : M heap3 unit := modify (fun s => MkHeap3 (host s) (u64 (h3_nesting s + 1)) true).
Definition portEXIT_CRITICAL : M heap3 unit := modify (fun s =>
  if 0 <? h3_nesting s then
    let n := h3_nesting s - 1 in
    if n =? 0 then MkHeap3 (host s) n false else MkHeap3 (host s) n (h3_masked s)
  else s).

Definition pvPortMalloc (xWantedSize : Z) : M heap3 Z :=
  portENTER_CRITICAL;;
  pvReturn ← onHost (fun m => host_malloc m xWantedSize);
  portEXIT_CRITICAL;;
  mret pvReturn.
Definition vPortFree (pv : Z) : M heap3 unit :=
  if negb (pv =? 0) then
    portENTER_CRITICAL;;
    onHost (fun m => host_free m pv);;
    portEXIT_CRITICAL
  else mret tt.
Definition xPortGetFreeHeapSize : M heap3 Z := mret 0.
Definition xPortGetMinimumEverFreeHeapSize : M heap3 Z := mret 0.
Definition vPortInitialiseBlocks : M heap3 unit := mret tt.
End heap3.
Arguments heap3 : clear implicits.

(** ** The allocator interface *)

(** The C library's contract, for calls that nothing interrupts: malloc returns
    null or a fresh region aligned for any type, free releases it. *)
Class HostLaws (S : Type) `{!HostHeap S} := {
  host_rep : S -> gmap Z Z -> Prop;
  host_region h live p n : host_rep h live -> live !! p = Some n -> 0 < p /\ 0 < n /\ p + n <= 2 ^ 64 /\ (16 | p);
  host_disjoint h live p n q k : host_rep h live -> live !! p = Some n -> live !! q = Some k -> p <> q -> p + n <= q \/ q + k <= p;
  host_malloc_law h live n : host_rep h live -> 0 < n < 2 ^ 63 ->
    wp (host_malloc true n) (fun p h' => p = 0 /\ host_rep h' live \/ p <> 0 /\ live !! p = None /\ host_rep h' (<[p := n]> live)) h;
  host_free_law h live p : host_rep h live -> is_Some (live !! p) -> wp (host_free true p) (fun _ h' => host_rep h' (delete p live)) h }.

Section heap3_laws.
Context {S : Type} `{!HostHeap S} `{!HostLaws S}.
Implicit Types (s : heap3 S).

Definition nest_ok s : Prop := 0 <= h3_nesting s < 2 ^ 64 - 1.
(** The counter as it was; interrupts are on again outside critical sections. *)
Definition restored s s' : Prop := h3_nesting s' = h3_nesting s /\ h3_masked s' = negb (h3_nesting s =? 0).

(** A bracketed call of the host runs masked and leaves the counter alone. *)
Lemma wp_bracket {A B} (c : bool -> M S A) (k : A -> M (heap3 S) B) (P : A -> S -> Prop) Q s :
  nest_ok s -> wp (c true) P (host s) -> (forall a s', P a (host s') -> restored s s' -> wp (k a) Q s') ->
  wp (portENTER_CRITICAL;; a ← onHost c; portEXIT_CRITICAL;; k a) Q s.
Proof.
  intros Hn (a & h & Hrun & HP) Hk. apply wp_bind, wp_modify, wp_bind, wp_bind, wp_gets. cbn [h3_masked]. eexists a, _. unfold zoom. cbn [host]. rewrite Hrun.
  split; [reflexivity|]. apply wp_bind, wp_modify. unfold nest_ok in Hn. cbn [host h3_nesting h3_masked].
  rewrite wrapu_small by (unfold in_u; lia). rewrite (proj2 (Z.ltb_lt _ _)) by lia. replace (h3_nesting s + 1 - 1) with (h3_nesting s) by lia. apply Hk.
  - by destruct (h3_nesting s =? 0).
  - unfold restored. by destruct (h3_nesting s =? 0).
Qed.

Lemma heap3_malloc_ok s live n : nest_ok s -> host_rep (host s) live -> 0 < n < 2 ^ 63 ->
  wp (pvPortMalloc n) (fun p s' => (p = 0 /\ host_rep (host s') live \/ p <> 0 /\ live !! p = None /\ host_rep (host s') (<[p := n]> live)) /\ restored s s') s.
Proof.
  intros Hn Hr Hs. unfold pvPortMalloc. eapply (wp_bracket (fun m => host_malloc m n)); [done|by apply host_malloc_law|]. cbn beta.
  intros p s' HP Hres. by apply wp_ret.
Qed.
Lemma heap3_free_ok s live p : nest_ok s -> host_rep (host s) live -> p = 0 \/ is_Some (live !! p) ->
  wp (vPortFree p) (fun _ s' => host_rep (host s') (delete p live) /\ (p = 0 /\ s' = s \/ p <> 0 /\ restored s s')) s.
Proof.
  intros Hn Hr Hp. unfold vPortFree. destruct (Z.eqb_spec p 0) as [->|Hp0]; cbn [negb].
  - apply wp_ret. split; [|by left]. rewrite delete_id; [done|]. destruct (live !! 0) as [n|] eqn:E; [|done]. destruct (host_region _ _ _ _ Hr E). lia.
  - destruct Hp as [?|Hp]; [done|]. pose proof (host_free_law _ _ _ Hr Hp) as ([] & h & Hrun & HP). apply wp_bind, wp_modify, wp_bind, wp_bind, wp_gets. cbn [h3_masked].
    eexists tt, _. unfold zoom. cbn [host]. rewrite Hrun. split; [reflexivity|]. apply wp_modify. unfold nest_ok in Hn. cbn [host h3_nesting h3_masked].
    rewrite wrapu_small by (unfold in_u; lia). rewrite (proj2 (Z.ltb_lt _ _)) by lia. replace (h3_nesting s + 1 - 1) with (h3_nesting s) by lia.
    destruct (h3_nesting s =? 0) eqn:E; (split; [exact HP|]; right; split; [done|]; unfold restored; cbn; by rewrite E).
Qed.

#[export] Instance heap3_ops : HeapOps (heap3 S) := {| hp_malloc := pvPortMalloc; hp_free := vPortFree |}.
#[export] Instance heap3_laws : HeapLaws (heap3 S).
Proof.
  refine {| hp_rep s live := nest_ok s /\ host_rep (host s) live |}.
  - intros s live p n [_ Hr]. by apply (host_region (host s)).
  - intros s live p n q k [_ Hr]. by apply (host_disjoint (host s)).
  - intros s live n [Hn Hr] Hs. eapply wp_mono; [by apply heap3_malloc_ok|]. cbn beta. unfold nest_ok, restored. intros p s' [HP [E _] ]. rewrite E.
    destruct HP as [ [-> ?]|(? & ? & ?)]; [by left|by right].
  - intros s live p [Hn Hr] Hp. eapply wp_mono; [by apply heap3_free_ok|]. cbn beta. unfold nest_ok, restored. intros _ s' [HP [ [_ ->]|(_ & E & _)] ]; [done|]. by rewrite E.
Defined.
End heap3_laws.

(** Heap_3 gives its callers the allocator interface although the host's heap
    only keeps its promises uninterrupted: every call is made masked, and the
    critical-section counter is what it was. *)
Theorem heap3_brackets {S} `{!HostHeap S} `{!HostLaws S} (s : heap3 S) live n :
  nest_ok s -> host_rep (host s) live -> 0 < n < 2 ^ 63 ->
  wp (p ← pvPortMalloc n; vPortFree p;; mret p) (fun p s' => host_rep (host s') live /\ restored s s') s.
Proof.
  intros Hn Hr Hs. apply wp_bind. eapply wp_mono; [by apply heap3_malloc_ok|]. cbn beta. intros p s1 [HP Hres].
  assert (nest_ok s1) as Hn1 by (unfold nest_ok; destruct Hres as [-> _]; exact Hn). apply wp_bind. destruct HP as [ [-> Hr1]|(Hp & Hl & Hr1)].
  - eapply wp_mono; [by apply (heap3_free_ok s1 live 0 Hn1 Hr1); left|]. cbn beta. intros _ s2 [_ [ [_ ->]|[? _] ] ]; [|done]. by apply wp_ret.
  - eapply wp_mono; [apply (heap3_free_ok s1 _ p Hn1 Hr1); right; rewrite lookup_insert_eq; by eexists|]. cbn beta. intros _ s2 [Hr2 [ [? _]|(_ & E1 & E2)] ]; [done|].
    apply wp_ret. rewrite delete_insert_id in Hr2 by done. split; [done|]. destruct Hres as [F1 F2]. unfold restored. rewrite E1, E2, F1. done.
Qed.

(** Any allocator with the interface can be the host: the contract is that of
    Alloc restricted to uninterrupted calls. *)
Definition host_of_heap {S} `{!HeapOps S} : HostHeap S := {| host_malloc _ := hp_malloc; host_free _ := hp_free |}.
Lemma host_of_heap_laws {S} `{!HeapOps S} `{!HeapLaws S} : @HostLaws S host_of_heap.
Proof.
  refine (@Build_HostLaws S host_of_heap hp_rep hp_region hp_disjoint hp_malloc_spec _). intros h live p Hr Hp. apply (hp_free_spec h live p Hr). by right.
Qed.
