(* ===== verification/Tasks.v ===== *)
(** * Tasks and the scheduler (src/kernel/tasks.c, src/include/FlintRTOS/task.h)

    The scheduler's state is one record: the TCBs by address, the list memory
    (through the interface of list.c), the heap (through the allocator
    interface), the words of the task stacks, and the static variables of
    tasks.c.  A list item is named by the TCB that embeds it, a list by the
    variable or queue member it is.  Every function of tasks.c is one
    definition; a null or unknown TCB pointer, an access outside a stack or
    the registry, and a read of an unset list are undefined ([None]).

    The firmware build has SCHED_TRACE=0 (Makefile), so the trace blocks are
    compiled out, and configCHECK_FOR_STACK_OVERFLOW=2 (FlintRTOSConfig.h), so
    the stack check is compiled in: a switch away from a task that has overrun
    its stack never returns.  [xTaskCreate] is one uninterrupted step: the
    allocator it calls has no critical section, so its theorems are about a
    caller that no other task interrupts.  The critical-section nesting of port.c
    ([vPortEnterCritical], [vPortExitCritical]) and its initial stack frame
    ([pxPortInitialiseStack]) are part of the model; a context switch through
    [taskYIELD] stores the stack pointer of the outgoing task, an argument
    here, as portASM.S does. *)

From S2P Require Import Prelude Config Lists ListSpec ListRefine Alloc.

(** ** Names *)

(** [&pxTCB->xStateListItem] and [&pxTCB->xEventListItem]. *)
Inductive item := StateItem (t : Z) | EventItem (t : Z).

(** The scheduler's lists and the two wait lists of a queue at address [q]. *)
Inductive lst := Ready (p : Z) | Delayed | Suspended | WaitSend (q : Z) | WaitRecv (q : Z).

#[global] Instance item_eq_dec : EqDecision item.
Proof. solve_decision. Defined.
#[global] Instance item_countable : Countable item.
Proof.
  refine (inj_countable' (fun i => match i with StateItem t => inl t | EventItem t => inr t end)
    (fun s => match s with inl t => StateItem t | inr t => EventItem t end) _).
  by intros [].
Defined.

#[global] Instance lst_eq_dec : EqDecision lst.
Proof. solve_decision. Defined.
#[global] Instance lst_countable : Countable lst.
Proof.
  refine (inj_countable' (fun l => match l with
      | Ready p => inl (inl p) | Delayed => inl (inr true) | Suspended => inl (inr false)
      | WaitSend q => inr (inl q) | WaitRecv q => inr (inr q) end)
    (fun s => match s with
      | inl (inl p) => Ready p | inl (inr true) => Delayed | inl (inr false) => Suspended
      | inr (inl q) => WaitSend q | inr (inr q) => WaitRecv q end) _).
  by intros [].
Defined.

(** ** Data *)

(** [struct tskTaskControlBlock] without its embedded list items.  A byte of
    the name that was never written is [None]. *)
Record TCB_t := TCB {
  pxTopOfStack : Z; uxPriority : Z; uxBasePriority : Z;
  pxStack : Z; uxStackDepth : Z; pcTaskName : list (option Z) }.

Definition sizeof_TCB_t : Z := 136.
Definition sizeof_StackType_t : Z := 8.
Definition configMAX_TASKS : Z := 16.
Definition FLINT_STACK_FILL : Z := 0xA5A5A5A5A5A5A5A5.
Definition CTX_SLOTS : Z := 34.
Definition CTX_SPSR : Z := 31.
Definition CTX_ELR : Z := 32.
Definition INITIAL_SPSR : Z := 0x345.

Record TaskSnapshot_t := Snapshot {
  sn_pcName : list (option Z); sn_uxPriority : Z; sn_uxBasePriority : Z;
  sn_ulStackDepth : Z; sn_ulStackFree : Z }.

(** Symbols the linker resolves. *)
Record symbols := Symbols { prvIdleTask_addr : Z; vPortTaskExit_addr : Z }.

Section tasks.
Context {LS HS : Type} `{!ListOps item lst LS} `{!HeapOps HS}.
Context (sym : symbols).

Record kernel := Kernel {
  k_lists : LS; k_heap : HS;
  k_tcbs : gmap Z TCB_t;
  k_stack : gmap Z Z;
  pxCurrentTCB : Z;
  uxTopReadyPriority : Z; xTickCount : Z; uxCurrentNumberOfTasks : Z;
  xSchedulerRunning : Z; xListsInitialised : Z; xInheritEnabled : Z;
  pxTaskRegistry : list Z; uxRegisteredTasks : Z;
  uxCriticalNesting : Z; irq_masked : bool }.

Definition set_lists v s := Kernel v (k_heap s) (k_tcbs s) (k_stack s) (pxCurrentTCB s)
  (uxTopReadyPriority s) (xTickCount s) (uxCurrentNumberOfTasks s) (xSchedulerRunning s)
  (xListsInitialised s) (xInheritEnabled s) (pxTaskRegistry s) (uxRegisteredTasks s)
  (uxCriticalNesting s) (irq_masked s).
Definition set_heap v s := Kernel (k_lists s) v (k_tcbs s) (k_stack s) (pxCurrentTCB s)
  (uxTopReadyPriority s) (xTickCount s) (uxCurrentNumberOfTasks s) (xSchedulerRunning s)
  (xListsInitialised s) (xInheritEnabled s) (pxTaskRegistry s) (uxRegisteredTasks s)
  (uxCriticalNesting s) (irq_masked s).
Definition set_tcbs v s := Kernel (k_lists s) (k_heap s) v (k_stack s) (pxCurrentTCB s)
  (uxTopReadyPriority s) (xTickCount s) (uxCurrentNumberOfTasks s) (xSchedulerRunning s)
  (xListsInitialised s) (xInheritEnabled s) (pxTaskRegistry s) (uxRegisteredTasks s)
  (uxCriticalNesting s) (irq_masked s).
Definition set_stack v s := Kernel (k_lists s) (k_heap s) (k_tcbs s) v (pxCurrentTCB s)
  (uxTopReadyPriority s) (xTickCount s) (uxCurrentNumberOfTasks s) (xSchedulerRunning s)
  (xListsInitialised s) (xInheritEnabled s) (pxTaskRegistry s) (uxRegisteredTasks s)
  (uxCriticalNesting s) (irq_masked s).
Definition set_current v s := Kernel (k_lists s) (k_heap s) (k_tcbs s) (k_stack s) v
  (uxTopReadyPriority s) (xTickCount s) (uxCurrentNumberOfTasks s) (xSchedulerRunning s)
  (xListsInitialised s) (xInheritEnabled s) (pxTaskRegistry s) (uxRegisteredTasks s)
  (uxCriticalNesting s) (irq_masked s).
Definition set_top v s := Kernel (k_lists s) (k_heap s) (k_tcbs s) (k_stack s) (pxCurrentTCB s)
  v (xTickCount s) (uxCurrentNumberOfTasks s) (xSchedulerRunning s)
  (xListsInitialised s) (xInheritEnabled s) (pxTaskRegistry s) (uxRegisteredTasks s)
  (uxCriticalNesting s) (irq_masked s).
Definition set_tick v s := Kernel (k_lists s) (k_heap s) (k_tcbs s) (k_stack s) (pxCurrentTCB s)
  (uxTopReadyPriority s) v (uxCurrentNumberOfTasks s) (xSchedulerRunning s)
  (xListsInitialised s) (xInheritEnabled s) (pxTaskRegistry s) (uxRegisteredTasks s)
  (uxCriticalNesting s) (irq_masked s).
Definition set_count v s := Kernel (k_lists s) (k_heap s) (k_tcbs s) (k_stack s) (pxCurrentTCB s)
  (uxTopReadyPriority s) (xTickCount s) v (xSchedulerRunning s)
  (xListsInitialised s) (xInheritEnabled s) (pxTaskRegistry s) (uxRegisteredTasks s)
  (uxCriticalNesting s) (irq_masked s).
Definition set_running v s := Kernel (k_lists s) (k_heap s) (k_tcbs s) (k_stack s) (pxCurrentTCB s)
  (uxTopReadyPriority s) (xTickCount s) (uxCurrentNumberOfTasks s) v
  (xListsInitialised s) (xInheritEnabled s) (pxTaskRegistry s) (uxRegisteredTasks s)
  (uxCriticalNesting s) (irq_masked s).
Definition set_lists_init v s := Kernel (k_lists s) (k_heap s) (k_tcbs s) (k_stack s) (pxCurrentTCB s)
  (uxTopReadyPriority s) (xTickCount s) (uxCurrentNumberOfTasks s) (xSchedulerRunning s)
  v (xInheritEnabled s) (pxTaskRegistry s) (uxRegisteredTasks s)
  (uxCriticalNesting s) (irq_masked s).
Definition set_inherit v s := Kernel (k_lists s) (k_heap s) (k_tcbs s) (k_stack s) (pxCurrentTCB s)
  (uxTopReadyPriority s) (xTickCount s) (uxCurrentNumberOfTasks s) (xSchedulerRunning s)
  (xListsInitialised s) v (pxTaskRegistry s) (uxRegisteredTasks s)
  (uxCriticalNesting s) (irq_masked s).
Definition set_registry r n s := Kernel (k_lists s) (k_heap s) (k_tcbs s) (k_stack s) (pxCurrentTCB s)
  (uxTopReadyPriority s) (xTickCount s) (uxCurrentNumberOfTasks s) (xSchedulerRunning s)
  (xListsInitialised s) (xInheritEnabled s) r n
  (uxCriticalNesting s) (irq_masked s).
Definition set_critical n b s := Kernel (k_lists s) (k_heap s) (k_tcbs s) (k_stack s) (pxCurrentTCB s)
  (uxTopReadyPriority s) (xTickCount s) (uxCurrentNumberOfTasks s) (xSchedulerRunning s)
  (xListsInitialised s) (xInheritEnabled s) (pxTaskRegistry s) (uxRegisteredTasks s)
  n b.
Abbreviation K := (M kernel).

Definition onL {A} (c : M LS A) : K A := zoom k_lists set_lists c.
Definition onH {A} (c : M HS A) : K A := zoom k_heap set_heap c.

Definition ld_tcb (t : Z) : K TCB_t := get_opt (fun s => k_tcbs s !! t).
Definition st_tcb (t : Z) (f : TCB_t -> TCB_t) : K unit :=
  _ ← ld_tcb t; modify (fun s => set_tcbs (alter f t (k_tcbs s)) s).
Definition with_priority p T := TCB (pxTopOfStack T) p (uxBasePriority T) (pxStack T) (uxStackDepth T) (pcTaskName T).
Definition with_sp sp T := TCB sp (uxPriority T) (uxBasePriority T) (pxStack T) (uxStackDepth T) (pcTaskName T).

Definition ld_word (a : Z) : K Z := get_opt (fun s => k_stack s !! a).
Definition st_word (a v : Z) : K unit := _ ← ld_word a; modify (fun s => set_stack (<[a := v]> (k_stack s)) s).

(** ** Critical sections (port.c) *)

Definition vPortEnterCritical : K unit := modify (fun s => set_critical (u64 (uxCriticalNesting s + 1)) true s).
Definition vPortExitCritical : K unit := modify (fun s =>
  if 0 <? uxCriticalNesting s then
    let n := uxCriticalNesting s - 1 in
    if n =? 0 then set_critical n false s else set_critical n (irq_masked s) s
  else s).
Definition taskENTER_CRITICAL : K unit := vPortEnterCritical.
Definition taskEXIT_CRITICAL : K unit := vPortExitCritical.

(** ** Stack overflow check *)

(** The application's [vApplicationStackOverflowHook] (demo/rpi4/main.c)
    reports, masks interrupts and waits for ever: a call has no result. *)
Definition stack_overflow_halt : K unit := fails.

Definition prvCheckStackOverflow (pxTCB : Z) : K unit :=
  T ← ld_tcb pxTCB;
  bad ← (if pxTopOfStack T <? pxStack T then mret true
         else w0 ← ld_word (pxStack T);
              if negb (w0 =? FLINT_STACK_FILL) then mret true
              else w1 ← ld_word (pxStack T + sizeof_StackType_t); mret (negb (w1 =? FLINT_STACK_FILL)));
  if (bad : bool) then stack_overflow_halt else mret tt.

(** ** Ready lists *)

Definition prvAddTaskToReadyList (pxTCB : Z) : K unit :=
  T ← ld_tcb pxTCB;
  top ← gets uxTopReadyPriority;
  (if top <? uxPriority T then modify (set_top (uxPriority T)) else mret tt);;
  onL (ls_SET_VALUE (StateItem pxTCB) (u32 (uxPriority T)));;
  onL (ls_SET_OWNER (StateItem pxTCB) pxTCB);;
  onL (ls_InsertEnd (Ready (uxPriority T)) (StateItem pxTCB)).

Fixpoint init_ready_lists (ux : Z) (n : nat) : K unit :=
  match n with
  | O => mret tt
  | S n => onL (ls_Initialise (Ready ux));; init_ready_lists (ux + 1) n
  end.
Definition prvInitialiseTaskLists : K unit :=
  init_ready_lists 0 (Z.to_nat configMAX_PRIORITIES);;
  onL (ls_Initialise Delayed);;
  onL (ls_Initialise Suspended).

(** ** Task creation *)

(** The painting loop: [pxStack[uxWord] = FLINT_STACK_FILL]. *)
Fixpoint paint_stack (pxStack uxWord : Z) (n : nat) : K unit :=
  match n with
  | O => mret tt
  | S n => st_word (pxStack + 8 * uxWord) FLINT_STACK_FILL;; paint_stack pxStack (uxWord + 1) n
  end.

(** The name loop: copies up to and including the terminator, at most 16. *)
Fixpoint copy_name (pcName : option (list Z)) (ux : nat) (n : nat) (name : list (option Z)) : option (list (option Z)) :=
  match n with
  | O => Some name
  | S n =>
      c ← (match pcName with Some cs => cs !! ux | None => Some 0 end);
      let name := <[ux := Some c]> name in
      if c =? 0 then Some name else copy_name pcName (S ux) n name
  end.

(** port.c: the context frame below the top of a fresh stack. *)
Fixpoint zero_slots (sp i : Z) (n : nat) : K unit :=
  match n with
  | O => mret tt
  | S n => st_word (sp + 8 * i) 0;; zero_slots sp (i + 1) n
  end.
Definition pxPortInitialiseStack (pxTopOfStack pxCode pvParameters : Z) : K Z :=
  let sp := u64 (pxTopOfStack - 8 * CTX_SLOTS) in
  zero_slots sp 0 (Z.to_nat CTX_SLOTS);;
  st_word (sp + 8 * 0) pvParameters;;
  st_word (sp + 8 * 30) (vPortTaskExit_addr sym);;
  st_word (sp + 8 * CTX_SPSR) INITIAL_SPSR;;
  st_word (sp + 8 * CTX_ELR) pxCode;;
  mret sp.

(** The allocated stack is memory with unspecified contents, here 0. *)
Fixpoint fresh_words (a : Z) (n : nat) (m : gmap Z Z) : gmap Z Z :=
  match n with O => m | S n => fresh_words (a + 8) n (<[a := 0]> m) end.

Definition xTaskCreate (pxTaskCode : Z) (pcName : option (list Z)) (usStackDepth pvParameters uxPrio : Z)
    : K (Z * option Z) :=
  let uxPriority := if configMAX_PRIORITIES <=? uxPrio then configMAX_PRIORITIES - 1 else uxPrio in
  li ← gets xListsInitialised;
  (if li =? pdFALSE then prvInitialiseTaskLists;; modify (set_lists_init pdTRUE) else mret tt);;
  pxStack ← onH (hp_malloc (u64 (usStackDepth * sizeof_StackType_t)));
  if pxStack =? 0 then mret (errCOULD_NOT_ALLOCATE_REQUIRED_MEMORY, None)
  else
    pxNewTCB ← onH (hp_malloc sizeof_TCB_t);
    if pxNewTCB =? 0 then
      onH (hp_free pxStack);; mret (errCOULD_NOT_ALLOCATE_REQUIRED_MEMORY, None)
    else
      modify (fun s => set_stack (fresh_words pxStack (Z.to_nat usStackDepth) (k_stack s)) s);;
      paint_stack pxStack 0 (Z.to_nat usStackDepth);;
      name ← of_opt (copy_name pcName 0 (Z.to_nat configMAX_TASK_NAME_LEN) (replicate 16 None));
      let name := <[15%nat := Some 0]> name in
      onL (ls_InitialiseItem (StateItem pxNewTCB));;
      onL (ls_InitialiseItem (EventItem pxNewTCB));;
      onL (ls_SET_OWNER (StateItem pxNewTCB) pxNewTCB);;
      onL (ls_SET_OWNER (EventItem pxNewTCB) pxNewTCB);;
      onL (ls_SET_VALUE (EventItem pxNewTCB) (u32 (configMAX_PRIORITIES - uxPriority)));;
      let top := Z.land (u64 (pxStack + 8 * u32 (usStackDepth - 1))) (notu 64 portBYTE_ALIGNMENT_MASK) in
      sp ← pxPortInitialiseStack top pxTaskCode pvParameters;
      modify (fun s => set_tcbs (<[pxNewTCB := TCB sp uxPriority uxPriority pxStack usStackDepth name]> (k_tcbs s)) s);;
      taskENTER_CRITICAL;;
      modify (fun s => set_count (u64 (uxCurrentNumberOfTasks s + 1)) s);;
      n ← gets uxRegisteredTasks;
      (if n <? configMAX_TASKS then
         modify (fun s => set_registry (<[Z.to_nat n := pxNewTCB]> (pxTaskRegistry s)) (n + 1) s)
       else mret tt);;
      cur ← gets pxCurrentTCB;
      (if cur =? 0 then modify (set_current pxNewTCB) else mret tt);;
      prvAddTaskToReadyList pxNewTCB;;
      taskEXIT_CRITICAL;;
      mret (pdPASS, Some pxNewTCB).

Definition uxTaskPriorityGet (xTask : Z) : K Z :=
  cur ← gets pxCurrentTCB;
  let pxTCB := if negb (xTask =? 0) then xTask else cur in
  if negb (pxTCB =? 0) then T ← ld_tcb pxTCB; mret (uxPriority T) else mret 0.

(** ** Mutex priority inheritance *)

Definition vTaskSetMutexInheritance (xEnable : Z) : K unit := modify (set_inherit xEnable).
Definition xTaskGetMutexInheritance : K Z := gets xInheritEnabled.

Definition prvReprioritise (pxTCB uxNewPriority : Z) : K unit :=
  T ← ld_tcb pxTCB;
  c ← onL (ls_IS_CONTAINED_WITHIN (Ready (uxPriority T)) (StateItem pxTCB));
  if negb (c =? pdFALSE) then
    onL (ls_Remove (StateItem pxTCB));;
    st_tcb pxTCB (with_priority uxNewPriority);;
    prvAddTaskToReadyList pxTCB
  else st_tcb pxTCB (with_priority uxNewPriority).

Definition vTaskPriorityInherit (xMutexHolder : Z) : K unit :=
  cur ← gets pxCurrentTCB;
  if (xMutexHolder =? 0) || (cur =? 0) then mret tt
  else
    en ← gets xInheritEnabled;
    if en =? pdFALSE then mret tt
    else
      H ← ld_tcb xMutexHolder; C ← ld_tcb cur;
      if uxPriority H <? uxPriority C then prvReprioritise xMutexHolder (uxPriority C) else mret tt.

Definition vTaskPriorityDisinherit (xMutexHolder : Z) : K Z :=
  if xMutexHolder =? 0 then mret pdFALSE
  else
    H ← ld_tcb xMutexHolder;
    if negb (uxPriority H =? uxBasePriority H) then
      prvReprioritise xMutexHolder (uxBasePriority H);; mret pdTRUE
    else mret pdFALSE.

(** ** Selecting the next task *)

(** [while (listLIST_IS_EMPTY(...)) { if (uxPriority == 0) break; uxPriority--; }] *)
Fixpoint find_ready (fuel : nat) (uxPriority : Z) : K Z :=
  match fuel with
  | O => fails
  | S fuel =>
      e ← onL (ls_IS_EMPTY (Ready uxPriority));
      if negb (e =? pdFALSE) then
        if uxPriority =? 0 then mret uxPriority else find_ready fuel (uxPriority - 1)
      else mret uxPriority
  end.

Definition vTaskSwitchContext : K unit :=
  top ← gets uxTopReadyPriority;
  cur ← gets pxCurrentTCB;
  (if negb (cur =? 0) then prvCheckStackOverflow cur else mret tt);;
  uxPriority ← find_ready (Z.to_nat configMAX_PRIORITIES) top;
  modify (set_top uxPriority);;
  pxOwner ← onL (ls_OWNER_OF_NEXT_ENTRY (Ready uxPriority));
  modify (set_current pxOwner).

(** portASM.S: save the stack pointer in the outgoing TCB, then switch. *)
Definition taskYIELD (sp : Z) : K unit :=
  cur ← gets pxCurrentTCB;
  st_tcb cur (with_sp sp);;
  vTaskSwitchContext.

(** ** Blocking and waking *)

Definition vTaskPlaceOnEventList (pxEventList : lst) (xTicksToWait : Z) : K unit :=
  pxTCB ← gets pxCurrentTCB;
  onL (ls_Remove (StateItem pxTCB));;
  onL (ls_Insert pxEventList (EventItem pxTCB));;
  if xTicksToWait =? portMAX_DELAY then onL (ls_InsertEnd Suspended (StateItem pxTCB))
  else
    now ← gets xTickCount;
    onL (ls_SET_VALUE (StateItem pxTCB) (u32 (now + xTicksToWait)));;
    onL (ls_Insert Delayed (StateItem pxTCB)).

Definition xTaskRemoveFromEventList (pxEventList : lst) : K Z :=
  e ← onL (ls_IS_EMPTY pxEventList);
  if negb (e =? pdFALSE) then mret pdFALSE
  else
    h ← onL (ls_HEAD_ENTRY pxEventList);
    pxTCB ← onL (ls_GET_OWNER h);
    onL (ls_Remove (EventItem pxTCB));;
    onL (ls_Remove (StateItem pxTCB));;
    prvAddTaskToReadyList pxTCB;;
    T ← ld_tcb pxTCB;
    cur ← gets pxCurrentTCB;
    C ← ld_tcb cur;
    mret (if uxPriority C <? uxPriority T then pdTRUE else pdFALSE).

(** The wake loop of the tick; one iteration per delayed task. *)
Fixpoint wake_expired (fuel : nat) : K unit :=
  match fuel with
  | O => fails
  | S fuel =>
      e ← onL (ls_IS_EMPTY Delayed);
      if negb (e =? pdFALSE) then mret tt
      else
        pxItem ← onL (ls_HEAD_ENTRY Delayed);
        xItemVal ← onL (ls_GET_VALUE pxItem);
        now ← gets xTickCount;
        if now <? xItemVal then mret tt
        else
          pxTCB ← onL (ls_GET_OWNER pxItem);
          onL (ls_Remove (StateItem pxTCB));;
          c ← onL (ls_CONTAINER (EventItem pxTCB));
          (if bool_decide (c = None) then mret tt else onL (ls_Remove (EventItem pxTCB));; mret tt);;
          prvAddTaskToReadyList pxTCB;;
          wake_expired fuel
  end.

Definition xTaskIncrementTick : K unit :=
  modify (fun s => set_tick (u32 (xTickCount s + 1)) s);;
  fuel ← gets (fun s => S (size (k_tcbs s)));
  wake_expired fuel.

(** The critical section of [vTaskDelay]; the yield that follows it is a step
    of its own where calls interleave. *)
Definition vTaskDelay_park (xTicksToDelay : Z) : K unit :=
  pxTCB ← gets pxCurrentTCB;
  taskENTER_CRITICAL;;
  onL (ls_Remove (StateItem pxTCB));;
  now ← gets xTickCount;
  onL (ls_SET_VALUE (StateItem pxTCB) (u32 (now + xTicksToDelay)));;
  onL (ls_Insert Delayed (StateItem pxTCB));;
  taskEXIT_CRITICAL.
Definition vTaskDelay (xTicksToDelay sp : Z) : K unit :=
  if 0 <? xTicksToDelay then vTaskDelay_park xTicksToDelay;; taskYIELD sp else mret tt.

(** ** Starting, and queries *)

(** [vPortSetupTimerInterrupt] masks interrupts before arming the timer; the
    first task then starts from its saved frame and does not return here. *)
Definition vTaskStartScheduler : K unit :=
  xTaskCreate (prvIdleTask_addr sym) (Some [73; 68; 76; 69; 0]) configMINIMAL_STACK_SIZE 0 0;;
  modify (set_running pdTRUE);;
  modify (set_tick 0);;
  modify (fun s => set_critical (uxCriticalNesting s) true s).

Definition uxTaskGetNumberOfTasks : K Z := gets uxCurrentNumberOfTasks.
Definition xTaskGetTickCount : K Z := gets xTickCount.
Definition xTaskGetCurrentTaskHandle : K Z := gets pxCurrentTCB.

Fixpoint high_water (pxStack n : Z) (k : nat) : K Z :=
  match k with
  | O => mret n
  | S k =>
      w ← ld_word (pxStack + 8 * n);
      if w =? FLINT_STACK_FILL then high_water pxStack (n + 1) k else mret n
  end.
Definition prvStackHighWater (pxTCB : Z) : K Z :=
  T ← ld_tcb pxTCB; high_water (pxStack T) 0 (Z.to_nat (uxStackDepth T)).

Fixpoint snapshot_from (uxMax : Z) (i : Z) (k : nat) (out : list TaskSnapshot_t) : K (list TaskSnapshot_t) :=
  match k with
  | O => mret out
  | S k =>
      r ← gets uxRegisteredTasks;
      if (i <? r) && (Z.of_nat (length out) <? uxMax) then
        t ← get_opt (fun s => pxTaskRegistry s !! Z.to_nat i);
        T ← ld_tcb t;
        free ← prvStackHighWater t;
        snapshot_from uxMax (i + 1) k
          (out ++ [Snapshot (pcTaskName T) (uxPriority T) (uxBasePriority T) (uxStackDepth T) free])
      else mret out
  end.
(** The entries written to [pxArray]; their number is the result. *)
Definition uxTaskGetSnapshot (uxMax : Z) : K (list TaskSnapshot_t) :=
  snapshot_from uxMax 0 (S (Z.to_nat configMAX_TASKS)) [].

End tasks.

Arguments kernel : clear implicits.
