(* ===== verification/TasksInv.v ===== *)
(** * The scheduler invariant

    [ainv] relates the TCBs to the abstract list memory: each task's state
    item is in exactly one of the ready list of its priority, the delayed list
    and the suspended list; its event item is in a wait list only while it is
    blocked; timed and event lists are sorted; no ready list above
    [uxTopReadyPriority] is occupied.  [hole] names a task whose items are in
    transit inside an operation.  The lemmas here are the moves of list items
    the operations of tasks.c are made of. *)

From stdpp Require Import sorting.
From S2P Require Import Prelude Config Lists ListSpec ListRefine Alloc Tasks.

Definition task_of (i : item) : Z := match i with StateItem t | EventItem t => t end.

(** State items live in the scheduler's lists, event items in wait lists. *)
Definition kind_ok (i : item) (l : lst) : Prop :=
  match i, l with
  | StateItem _, (Ready _ | Delayed | Suspended) => True
  | EventItem _, (WaitSend _ | WaitRecv _) => True
  | _, _ => False
  end.

(** Where a task's items may be between operations. *)
Definition placed (T : TCB_t) (sc ec : option lst) : Prop :=
  match sc with
  | Some (Ready p) => p = uxPriority T /\ ec = None
  | Some Delayed => True
  | Some Suspended => ec <> None
  | _ => False
  end.

(** The queues whose wait lists are initialised, fixed inside a lemma. *)
Class Queues := queues : gset Z.

(** The initialised lists. *)
Definition core_list `{Queues} (l : lst) : Prop :=
  match l with Ready p => 0 <= p < 32 | Delayed | Suspended => True | WaitSend q | WaitRecv q => q ∈ queues end.
Definition sorted_list (l : lst) : Prop :=
  match l with Delayed | WaitSend _ | WaitRecv _ => True | _ => False end.

Definition sorted_by {I} (val : I -> Z) : list I -> Prop := StronglySorted (fun x y => val x <= val y).

Record ainv `{Queues} (hole : option Z) (tcbs : gmap Z TCB_t) (top : Z) (A : amem item lst) : Prop := {
  ai_wf : am_wf A;
  ai_item : forall i it, am_items A !! i = Some it -> exists T, tcbs !! task_of i = Some T /\
    a_owner it = task_of i /\ (forall l, a_container it = Some l -> kind_ok i l) /\
    (forall t, i = EventItem t -> a_value it = 32 - uxBasePriority T);
  ai_task : forall t T, tcbs !! t = Some T -> exists si ei,
    am_items A !! StateItem t = Some si /\ am_items A !! EventItem t = Some ei /\
    (hole <> Some t -> placed T (a_container si) (a_container ei));
  ai_core : forall l, core_list l <-> is_Some (am_lists A !! l);
  ai_sorted : forall l xs cur, am_lists A !! l = Some (xs, cur) -> sorted_list l -> sorted_by (a_val A) xs;
  ai_top : forall t it p, am_items A !! StateItem t = Some it -> a_container it = Some (Ready p) -> p <= top }.

(** ** Moves on the abstract memory *)

Section moves.
Context `{Qs : Queues}.
Implicit Types (A : amem item lst) (i j : item) (l : lst) (xs : list item).

Lemma update_is_Some {X} (m : gmap lst X) l x y k : m !! l = Some x -> is_Some (<[l := y]> m !! k) <-> is_Some (m !! k).
Proof. intros Hl. rewrite lookup_insert. case_decide; subst; [|done]. split; by eexists. Qed.

Lemma a_val_move c l xs cur i A j : a_val (a_move c l xs cur i A) j = a_val A j.
Proof.
  unfold a_val, a_move. simpl. rewrite lookup_alter. case_decide; subst; [|done].
  by destruct (am_items A !! _).
Qed.
Lemma a_val_alter (f : aitem lst -> aitem lst) i A j :
  j <> i -> a_val (AMem (alter f i (am_items A)) (am_lists A)) j = a_val A j.
Proof. intros Hne. unfold a_val. simpl. by rewrite lookup_alter_ne. Qed.

Lemma sorted_by_ext (f g : item -> Z) xs :
  (forall x, x ∈ xs -> f x = g x) -> sorted_by f xs -> sorted_by g xs.
Proof.
  unfold sorted_by. intros Hfg Hs. induction Hs as [|x xs _ IH Hf]; constructor.
  - apply IH. intros y Hy. apply Hfg. by right.
  - apply Forall_forall. intros y Hy. rewrite Forall_forall in Hf. specialize (Hf y Hy).
    rewrite <- (Hfg x), <- (Hfg y); [done|by right|by left].
Qed.

Lemma sorted_by_remove1 (f : item -> Z) i xs : sorted_by f xs -> sorted_by f (remove1 i xs).
Proof.
  unfold sorted_by. induction 1 as [|x xs Hs IH Hf]; simpl; [constructor|]. case_decide; [done|].
  constructor; [done|]. apply Forall_forall. intros y Hy. rewrite Forall_forall in Hf. apply Hf.
  destruct (decide (i ∈ xs)) as [Hi|Hi].
  - rewrite (remove1_perm i xs Hi). by right.
  - by rewrite remove1_not_in in Hy.
Qed.

Lemma sorted_by_insert (f : item -> Z) i xs : sorted_by f xs -> sorted_by f (insert_sorted f (f i) i xs).
Proof.
  intros Hs. destruct (insert_sorted_split f (f i) i xs) as (ys & zs & -> & -> & Hys & Hz).
  unfold sorted_by in *. apply StronglySorted_app in Hs as (Hyz & Hsy & Hsz).
  rewrite Forall_forall in Hys.
  assert (Hall : Forall (fun z => f i <= f z) zs).
  { destruct zs as [|z zs]; [done|]. specialize (Hz z eq_refl). constructor; [lia|].
    inversion Hsz as [|? ? _ Hf]; subst. eapply Forall_impl; [done|]. simpl. lia. }
  apply StronglySorted_app. split_and!; [|done|by constructor].
  intros y z Hy [->|Hin]%elem_of_cons; [by apply Hys|by apply Hyz].
Qed.

(** The container of the other items. *)
Lemma move_item_ne c l xs cur i A j : j <> i -> am_items (a_move c l xs cur i A) !! j = am_items A !! j.
Proof. intros. unfold a_move. simpl. by rewrite lookup_alter_ne. Qed.
Lemma move_item_eq c l xs cur i A it :
  am_items A !! i = Some it -> am_items (a_move c l xs cur i A) !! i = Some (set_container c it).
Proof. intros Hi. unfold a_move. simpl. by rewrite lookup_alter_eq, Hi. Qed.

(** Taking an item of the task in transit out of its list. *)
Lemma ainv_remove t tcbs top A i it l xs cur :
  ainv (Some t) tcbs top A -> am_wf (a_move None l (remove1 i xs) (cursor_after_remove i xs cur) i A) ->
  task_of i = t -> am_items A !! i = Some it -> am_lists A !! l = Some (xs, cur) ->
  ainv (Some t) tcbs top (a_move None l (remove1 i xs) (cursor_after_remove i xs cur) i A).
Proof.
  intros [Hwf Hit Htk Hco Hso Htop] Hwf' Ht Hi Hl. constructor; [done|..].
  - intros j jt. destruct (decide (j = i)) as [->|Hne].
    + rewrite (move_item_eq _ _ _ _ _ _ it) by done. intros [= <-].
      destruct (Hit i it Hi) as (T & HT & Ho & Hk & Hv). exists T. by split_and!.
    + rewrite move_item_ne by done. apply Hit.
  - intros t' T HT. destruct (Htk t' T HT) as (si & ei & Hsi & Hei & Hp).
    destruct (decide (t' = t)) as [->|Hne].
    + assert (forall j jt, am_items A !! j = Some jt -> is_Some (am_items (a_move None l (remove1 i xs) (cursor_after_remove i xs cur) i A) !! j)) as Hex.
      { intros j jt Hj. destruct (decide (j = i)) as [->|]; [rewrite (move_item_eq _ _ _ _ _ _ it) by done; by eexists|].
        rewrite move_item_ne, Hj by done. by eexists. }
      destruct (Hex _ _ Hsi) as [si' Hsi']. destruct (Hex _ _ Hei) as [ei' Hei']. exists si', ei'. by split_and!.
    + exists si, ei. rewrite !move_item_ne by (intros <-; simpl in Ht; congruence). by split_and!.
  - intros l'. rewrite Hco. symmetry. by eapply update_is_Some.
  - intros l' ys c. simpl. rewrite lookup_insert. intros Hys Hs.
    eapply (sorted_by_ext (a_val A)); [intros; by rewrite a_val_move|].
    case_decide; subst; simplify_eq; [apply sorted_by_remove1|]; by eapply Hso.
  - intros t' jt p. destruct (decide (StateItem t' = i)) as [Heq|Hne].
    + rewrite <- Heq in Hi |- *. rewrite (move_item_eq _ _ _ _ _ _ it) by done. by intros [= <-].
    + rewrite move_item_ne by done. apply Htop.
Qed.

(** Putting an item of the task in transit in a list of its kind. *)
Lemma ainv_insert t tcbs top A i it l xs xs' cur :
  ainv (Some t) tcbs top A -> am_wf (a_move (Some l) l xs' cur i A) ->
  task_of i = t -> am_items A !! i = Some it -> am_lists A !! l = Some (xs, cur) ->
  kind_ok i l -> (sorted_list l -> sorted_by (a_val A) xs -> sorted_by (a_val A) xs') ->
  (forall p, l = Ready p -> p <= top) ->
  ainv (Some t) tcbs top (a_move (Some l) l xs' cur i A).
Proof.
  intros [Hwf Hit Htk Hco Hso Htop] Hwf' Ht Hi Hl Hk Hs' Hp. constructor; [done|..].
  - intros j jt. destruct (decide (j = i)) as [->|Hne].
    + rewrite (move_item_eq _ _ _ _ _ _ it) by done. intros [= <-].
      destruct (Hit i it Hi) as (T & HT & Ho & _ & Hv). exists T. split_and!; try done. by intros l' [= <-].
    + rewrite move_item_ne by done. apply Hit.
  - intros t' T HT. destruct (Htk t' T HT) as (si & ei & Hsi & Hei & Hpl).
    destruct (decide (t' = t)) as [->|Hne].
    + assert (forall j jt, am_items A !! j = Some jt -> is_Some (am_items (a_move (Some l) l xs' cur i A) !! j)) as Hex.
      { intros j jt Hj. destruct (decide (j = i)) as [->|]; [rewrite (move_item_eq _ _ _ _ _ _ it) by done; by eexists|].
        rewrite move_item_ne, Hj by done. by eexists. }
      destruct (Hex _ _ Hsi) as [si' Hsi']. destruct (Hex _ _ Hei) as [ei' Hei']. exists si', ei'. by split_and!.
    + exists si, ei. rewrite !move_item_ne by (intros <-; simpl in Ht; congruence). by split_and!.
  - intros l'. rewrite Hco. symmetry. by eapply update_is_Some.
  - intros l' ys c. simpl. rewrite lookup_insert. intros Hys Hs.
    eapply (sorted_by_ext (a_val A)); [intros; by rewrite a_val_move|].
    case_decide; subst; simplify_eq; [apply Hs'; [done|]|]; by eapply Hso.
  - intros t' jt p. destruct (decide (StateItem t' = i)) as [Heq|Hne].
    + rewrite <- Heq in Hi |- *. rewrite (move_item_eq _ _ _ _ _ _ it) by done. intros [= <-]. simpl. intros [= ->]. auto.
    + rewrite move_item_ne by done. apply Htop.
Qed.

(** Rewriting the value or the owner of an unlinked state item. *)
Lemma ainv_alter t tcbs top A f it :
  ainv (Some t) tcbs top A -> am_wf (AMem (alter f (StateItem t) (am_items A)) (am_lists A)) ->
  am_items A !! StateItem t = Some it -> a_container it = None ->
  a_container (f it) = None -> a_owner (f it) = t ->
  ainv (Some t) tcbs top (AMem (alter f (StateItem t) (am_items A)) (am_lists A)).
Proof.
  intros [Hwf Hit Htk Hco Hso Htop] Hwf' Hi Hc Hfc Hfo. constructor; simpl; [done|..]; try done.
  - intros j jt. destruct (decide (j = StateItem t)) as [->|Hne].
    + rewrite lookup_alter_eq, Hi. intros [= <-]. destruct (Hit _ _ Hi) as (T & HT & _ & _ & _).
      exists T. split_and!; try done; congruence.
    + rewrite lookup_alter_ne by done. apply Hit.
  - intros t' T HT. destruct (Htk t' T HT) as (si & ei & Hsi & Hei & Hpl).
    rewrite (lookup_alter_ne f (am_items A) (StateItem t) (EventItem t')) by done. destruct (decide (t' = t)) as [->|Hne].
    + rewrite lookup_alter_eq, Hsi. simpl. exists (f si), ei. by split_and!.
    + rewrite lookup_alter_ne by congruence. exists si, ei. by split_and!.
  - intros l xs cur Hl Hs. eapply sorted_by_ext; [|by eapply Hso].
    intros x Hx. symmetry. apply a_val_alter. intros ->.
    apply (wf_mem A Hwf _ _ _ _ Hl) in Hx as (? & ? & ?). congruence.
  - intros t' jt p. destruct (decide (t' = t)) as [->|Hne].
    + rewrite lookup_alter_eq, Hi. intros [= <-]. congruence.
    + rewrite lookup_alter_ne by congruence. apply Htop.
Qed.

(** Opening and closing the hole. *)
Lemma ainv_open t tcbs top A : ainv None tcbs top A -> ainv (Some t) tcbs top A.
Proof.
  intros [Hwf Hit Htk Hco Hso Htop]. constructor; try done.
  intros t' T HT. destruct (Htk t' T HT) as (si & ei & Hsi & Hei & Hp). exists si, ei. split_and!; auto.
Qed.
Lemma ainv_close t tcbs top A T si ei :
  ainv (Some t) tcbs top A -> tcbs !! t = Some T ->
  am_items A !! StateItem t = Some si -> am_items A !! EventItem t = Some ei ->
  placed T (a_container si) (a_container ei) -> ainv None tcbs top A.
Proof.
  intros [Hwf Hit Htk Hco Hso Htop] HT Hsi Hei Hp. constructor; try done.
  intros t' T' HT'. destruct (Htk t' T' HT') as (si' & ei' & Hsi' & Hei' & Hp').
  exists si', ei'. split_and!; try done. intros _.
  destruct (decide (t' = t)) as [->|]; [by simplify_eq|]. apply Hp'. congruence.
Qed.

(** A new priority for the task in transit; a new top priority. *)
Lemma ainv_tcb t tcbs top A f :
  ainv (Some t) tcbs top A -> (forall T, uxBasePriority (f T) = uxBasePriority T) ->
  ainv (Some t) (alter f t tcbs) top A.
Proof.
  intros [Hwf Hit Htk Hco Hso Htop] Hf. constructor; try done.
  - intros i it Hi. destruct (Hit i it Hi) as (T & HT & Ho & Hk & Hv). rewrite lookup_alter. case_decide; subst.
    + rewrite HT. exists (f T). split_and!; try done. intros t' ->. rewrite Hf. by eapply Hv.
    + exists T. by split_and!.
  - intros t' T. rewrite lookup_alter. case_decide; subst; [|by apply Htk].
    intros (T' & HT' & ->)%fmap_Some. destruct (Htk _ _ HT') as (si & ei & ? & ? & _). exists si, ei. by split_and!.
Qed.
Lemma ainv_raise_top h tcbs top top' A : top <= top' -> ainv h tcbs top A -> ainv h tcbs top' A.
Proof.
  intros Hle [Hwf Hit Htk Hco Hso Htop]. constructor; try done.
  intros t it p Hi Hc. pose proof (Htop t it p Hi Hc). lia.
Qed.
End moves.

(** ** The kernel invariant *)

(** A task's memory: its TCB and stack are live heap blocks, every stack word
    is addressable, and its priorities index the ready lists. *)
Record tcb_ok (stack : gmap Z Z) (live : gmap Z Z) (t : Z) (T : TCB_t) : Prop := {
  to_addr : live !! t = Some sizeof_TCB_t;
  to_stack : live !! pxStack T = Some (8 * uxStackDepth T);
  to_depth : 2 <= uxStackDepth T < 2 ^ 32;
  to_words : forall i, 0 <= i < uxStackDepth T -> is_Some (stack !! (pxStack T + 8 * i));
  to_prio : 0 <= uxPriority T < 32;
  to_base : 0 <= uxBasePriority T < 32 }.

Record registry_ok (reg : list Z) (n : Z) (tcbs : gmap Z TCB_t) : Prop := {
  rg_len : length reg = Z.to_nat configMAX_TASKS;
  rg_range : 0 <= n <= configMAX_TASKS;
  rg_entry : forall i, 0 <= i < n -> exists t, reg !! Z.to_nat i = Some t /\ is_Some (tcbs !! t) }.

Section kinv.
Context `{Qs : Queues} {LS HS : Type} `{!ListOps item lst LS} `{!ListLaws item lst LS} `{!HeapOps HS} `{!HeapLaws HS}.
Implicit Types (s : kernel LS HS) (A : amem item lst) (live : gmap Z Z).

Record kinv (hole : option Z) s A live : Prop := {
  ki_rep : ls_rep (k_lists s) A;
  ki_heap : hp_rep (k_heap s) live;
  ki_ainv : ainv hole (k_tcbs s) (uxTopReadyPriority s) A;
  ki_tcb : forall t T, k_tcbs s !! t = Some T -> tcb_ok (k_stack s) live t T;
  ki_init : xListsInitialised s = pdTRUE;
  ki_top : 0 <= uxTopReadyPriority s < 32;
  ki_tick : in_u 32 (xTickCount s);
  ki_cur : k_tcbs s = ∅ /\ pxCurrentTCB s = 0 \/ is_Some (k_tcbs s !! pxCurrentTCB s);
  ki_reg : registry_ok (pxTaskRegistry s) (uxRegisteredTasks s) (k_tcbs s) }.

Lemma kinv_lists h h' s A A' live m :
  kinv h s A live -> ls_rep m A' -> ainv h' (k_tcbs s) (uxTopReadyPriority s) A' ->
  kinv h' (set_lists m s) A' live.
Proof. intros [] ? ?. by constructor. Qed.

Lemma tcb_nonnull h s A live t T : kinv h s A live -> k_tcbs s !! t = Some T -> t <> 0.
Proof.
  intros Hk HT ->. destruct (ki_tcb _ _ _ _ Hk _ _ HT) as [Ha _ _ _ _ _].
  pose proof (hp_region _ _ _ _ (ki_heap _ _ _ _ Hk) Ha). lia.
Qed.

(** ** The moves, as steps of the code *)

Lemma wp_onL {B} (c : M LS B) (Q : B -> kernel LS HS -> Prop) s :
  wp c (fun a m => Q a (set_lists m s)) (k_lists s) -> wp (onL c) Q s.
Proof. apply wp_zoom. Qed.

(** The memory after a removal. *)
Definition a_out l xs cur (i : item) A : amem item lst :=
  a_move None l (remove1 i xs) (cursor_after_remove i xs cur) i A.

Lemma wp_remove t s A live i it l xs cur :
  kinv (Some t) s A live -> task_of i = t -> am_items A !! i = Some it -> a_container it = Some l ->
  am_lists A !! l = Some (xs, cur) ->
  wp (onL (ls_Remove i)) (fun _ s' => exists m, s' = set_lists m s /\ kinv (Some t) s' (a_out l xs cur i A) live) s.
Proof.
  intros Hk Ht Hi Hc Hl. apply wp_onL. eapply wp_mono; [by eapply ls_remove_spec; [apply Hk|..]|].
  intros r m [_ Hr]. exists m. split; [done|]. eapply kinv_lists; [done|done|].
  eapply ainv_remove; [apply Hk|exact (ls_rep_wf _ _ Hr)|done..].
Qed.

Lemma wp_insert_end t s A live i it l xs cur :
  kinv (Some t) s A live -> task_of i = t -> am_items A !! i = Some it -> a_container it = None ->
  am_lists A !! l = Some (xs, cur) -> kind_ok i l -> ~ sorted_list l ->
  (forall p, l = Ready p -> p <= uxTopReadyPriority s) ->
  wp (onL (ls_InsertEnd l i)) (fun _ s' => exists m, s' = set_lists m s /\
    kinv (Some t) s' (a_move (Some l) l (insert_end cur i xs) cur i A) live) s.
Proof.
  intros Hk Ht Hi Hc Hl Hkd Hns Hp. apply wp_onL. eapply wp_mono; [by eapply ls_insert_end_spec; [apply Hk|..]|].
  intros ? m Hr. exists m. split; [done|]. eapply kinv_lists; [done|done|].
  eapply ainv_insert; [apply Hk|exact (ls_rep_wf _ _ Hr)|done..].
Qed.

Lemma wp_insert t s A live i it l xs cur :
  kinv (Some t) s A live -> task_of i = t -> am_items A !! i = Some it -> a_container it = None ->
  am_lists A !! l = Some (xs, cur) -> kind_ok i l -> (forall p, l <> Ready p) ->
  wp (onL (ls_Insert l i)) (fun _ s' => exists m, s' = set_lists m s /\
    kinv (Some t) s' (a_move (Some l) l (insert_sorted (a_val A) (a_value it) i xs) cur i A) live) s.
Proof.
  intros Hk Ht Hi Hc Hl Hkd Hp. apply wp_onL. eapply wp_mono; [by eapply ls_insert_spec; [apply Hk|..]|].
  intros ? m Hr. exists m. split; [done|]. eapply kinv_lists; [done|done|].
  eapply ainv_insert; [apply Hk|exact (ls_rep_wf _ _ Hr)|done|done|done|done| |by intros p ->; destruct (Hp p)].
  intros _ Hs. replace (a_value it) with (a_val A i) by (unfold a_val; by rewrite Hi). by apply sorted_by_insert.
Qed.

Lemma wp_set_value t s A live it v :
  kinv (Some t) s A live -> am_items A !! StateItem t = Some it -> a_container it = None -> in_u 32 v ->
  wp (onL (ls_SET_VALUE (StateItem t) v)) (fun _ s' => exists m, s' = set_lists m s /\
    kinv (Some t) s' (a_set_value (StateItem t) v A) live) s.
Proof.
  intros Hk Hi Hc Hv. apply wp_onL. eapply wp_mono; [by eapply ls_set_value_spec; [apply Hk|..]|].
  intros ? m Hr. exists m. split; [done|]. eapply kinv_lists; [done|done|].
  destruct (ai_item _ _ _ _ (ki_ainv _ _ _ _ Hk) _ _ Hi) as (? & _ & Ho & _).
  eapply ainv_alter; [apply Hk|exact (ls_rep_wf _ _ Hr)|done..].
Qed.

Lemma wp_set_owner t s A live it :
  kinv (Some t) s A live -> am_items A !! StateItem t = Some it -> a_container it = None ->
  wp (onL (ls_SET_OWNER (StateItem t) t)) (fun _ s' => exists m, s' = set_lists m s /\
    kinv (Some t) s' (a_set_owner (StateItem t) t A) live) s.
Proof.
  intros Hk Hi Hc. apply wp_onL. eapply wp_mono; [by eapply ls_set_owner_spec; [apply Hk|..]|].
  intros ? m Hr. exists m. split; [done|]. eapply kinv_lists; [done|done|].
  eapply ainv_alter; [apply Hk|exact (ls_rep_wf _ _ Hr)|done..].
Qed.

Lemma kinv_set_top h s A live top :
  kinv h s A live -> uxTopReadyPriority s <= top < 32 -> kinv h (set_top top s) A live.
Proof.
  intros Hk Ht. pose proof (ki_top _ _ _ _ Hk). destruct Hk. constructor; try done; simpl; [|lia].
  eapply ainv_raise_top; [|done]. lia.
Qed.

Lemma set_top_same s : set_top (uxTopReadyPriority s) s = s.
Proof. by destruct s. Qed.
Lemma set_lists_lists s m m' : set_lists m (set_lists m' s) = set_lists m s.
Proof. done. Qed.

(** The memory once [t] is ready at priority [p]. *)
Definition a_ready t p xs cur A : amem item lst :=
  a_move (Some (Ready p)) (Ready p) (insert_end cur (StateItem t) xs) cur (StateItem t)
    (a_set_owner (StateItem t) t (a_set_value (StateItem t) p A)).

Lemma a_ready_state t p xs cur A it :
  am_items A !! StateItem t = Some it -> am_items (a_ready t p xs cur A) !! StateItem t = Some (AItem p t (Some (Ready p))).
Proof.
  intros Hi. unfold a_ready, a_move, a_set_owner, a_set_value; simpl.
  by rewrite !lookup_alter_eq, Hi.
Qed.
Lemma a_ready_other t p xs cur A i : i <> StateItem t -> am_items (a_ready t p xs cur A) !! i = am_items A !! i.
Proof. intros. unfold a_ready, a_move, a_set_owner, a_set_value; simpl. by rewrite !lookup_alter_ne. Qed.
Lemma a_ready_list t p xs cur A : am_lists (a_ready t p xs cur A) !! Ready p = Some (insert_end cur (StateItem t) xs, cur).
Proof. unfold a_ready, a_move; simpl. by rewrite lookup_insert_eq. Qed.
Lemma a_ready_list_ne t p xs cur A l : l <> Ready p -> am_lists (a_ready t p xs cur A) !! l = am_lists A !! l.
Proof. intros. unfold a_ready, a_move; simpl. by rewrite lookup_insert_ne. Qed.

Lemma wp_prvAddTaskToReadyList t T s A live si ei xs cur :
  kinv (Some t) s A live -> k_tcbs s !! t = Some T ->
  am_items A !! StateItem t = Some si -> a_container si = None ->
  am_items A !! EventItem t = Some ei -> a_container ei = None ->
  am_lists A !! Ready (uxPriority T) = Some (xs, cur) ->
  wp (prvAddTaskToReadyList t) (fun _ s' => exists m,
    s' = set_lists m (set_top (Z.max (uxTopReadyPriority s) (uxPriority T)) s) /\
    kinv None s' (a_ready t (uxPriority T) xs cur A) live) s.
Proof.
  intros Hk HT Hsi Hsc Hei Hec Hl. pose proof (to_prio _ _ _ _ (ki_tcb _ _ _ _ Hk _ _ HT)) as Hp.
  unfold prvAddTaskToReadyList, ld_tcb. apply wp_bind. eapply wp_get_opt; [done|]. apply wp_bind, wp_gets, wp_bind.
  set (s1 := set_top (Z.max (uxTopReadyPriority s) (uxPriority T)) s).
  assert (Hk1 : kinv (Some t) s1 A live).
  { apply kinv_set_top; [done|]. pose proof (ki_top _ _ _ _ Hk). lia. }
  apply wp_mono with (P := fun _ s' => s' = s1).
  { destruct (Z.ltb_spec (uxTopReadyPriority s) (uxPriority T)).
    - apply wp_modify. subst s1. f_equal. lia.
    - apply wp_ret. subst s1. rewrite Z.max_l by lia. by rewrite set_top_same. }
  intros _ ? ->. rewrite (wrapu_small 32) by (unfold in_u; lia).
  apply wp_bind. eapply wp_mono; [eapply wp_set_value; [exact Hk1|done|done|unfold in_u; lia]|].
  cbn beta. intros _ ? (m1 & -> & Hk2). apply wp_bind.
  eapply wp_mono; [eapply wp_set_owner; [exact Hk2|simpl; by rewrite lookup_alter_eq, Hsi|done]|].
  cbn beta. intros _ ? (m2 & -> & Hk3).
  eapply wp_mono.
  { eapply (wp_insert_end t _ _ _ (StateItem t)); [exact Hk3|done|simpl; by rewrite !lookup_alter_eq, Hsi|done|exact Hl|done|by intros []|].
    intros p [= <-]. subst s1. simpl. lia. }
  cbn beta. intros _ ? (m3 & -> & Hk4). exists m3. split; [done|].
  change (a_move _ _ _ _ _ _) with (a_ready t (uxPriority T) xs cur A) in Hk4.
  destruct Hk4 as [? ? Ha]. constructor; try done.
  eapply (ainv_close t); [exact Ha|exact HT|by eapply a_ready_state| |done].
  by rewrite a_ready_other.
Qed.
End kinv.
