(* ===== verification/TasksSpec.v ===== *)
(** * Total correctness of the scheduler's operations

    One lemma per operation of tasks.c: from a state that satisfies the
    invariant, the operation runs to completion without undefined behaviour,
    re-establishes the invariant, and has the stated effect. *)

From stdpp Require Import sorting.
From S2P Require Import Prelude Config Lists ListSpec ListRefine Alloc Tasks TasksInv.

(** Continuing after a block of the code. *)
Lemma wp_then {S X Y Z : Type} (a : M S X) (b : M S Y) (f : Y -> M S unit) (d : M S unit) (k : M S Z) Q s0 :
  wp (a;; x ← b; f x;; d) (fun _ => wp k Q) s0 -> wp (a;; x ← b; f x;; d;; k) Q s0.
Proof.
  intros ([] & s' & Hrun & z & s'' & Hk & HQ). exists z, s''. split; [|done].
  unfold mbind, M_bind in *. destruct (a s0) as [ [? s1]|]; [|done]. destruct (b s1) as [ [y s2]|]; [|done].
  destruct (f y s2) as [ [? s3]|]; [|done]. destruct (d s3) as [ [? s4]|]; [|done]. by simplify_eq.
Qed.

Section spec.
Context `{Qs : Queues} {LS HS : Type} `{!ListOps item lst LS} `{!ListLaws item lst LS} `{!HeapOps HS} `{!HeapLaws HS}.
Implicit Types (s : kernel LS HS) (A : amem item lst) (live : gmap Z Z) (t : Z) (T : TCB_t).

(** ** Reading the invariant *)

Lemma inv_task s A live t T :
  kinv None s A live -> k_tcbs s !! t = Some T ->
  exists sv sc ec, am_items A !! StateItem t = Some (AItem sv t sc) /\
    am_items A !! EventItem t = Some (AItem (32 - uxBasePriority T) t ec) /\ placed T sc ec.
Proof.
  intros Hk HT. destruct (ai_task _ _ _ _ (ki_ainv _ _ _ _ Hk) t T HT) as (si & ei & Hsi & Hei & Hp).
  destruct (ai_item _ _ _ _ (ki_ainv _ _ _ _ Hk) _ _ Hsi) as (? & HT1 & Hso & _ & _).
  destruct (ai_item _ _ _ _ (ki_ainv _ _ _ _ Hk) _ _ Hei) as (? & HT2 & Heo & _ & Hev). simpl in *.
  destruct si as [sv so sc], ei as [ev eo ec]. simpl in *. simplify_eq.
  exists sv, sc, ec. rewrite <- (Hev t eq_refl). split_and!; try done. by apply Hp.
Qed.

Lemma inv_list h s A live l : kinv h s A live -> core_list l -> exists xs cur, am_lists A !! l = Some (xs, cur).
Proof. intros Hk Hc. destruct (proj1 (ai_core _ _ _ _ (ki_ainv _ _ _ _ Hk) l) Hc) as [ [xs cur] ?]. eauto. Qed.

Lemma inv_wf h s A live : kinv h s A live -> am_wf A.
Proof. intros Hk. exact (ls_rep_wf _ _ (ki_rep _ _ _ _ Hk)). Qed.

(** An item in a list is a task's, with that list as container. *)
Lemma inv_member h s A live l xs cur i :
  kinv h s A live -> am_lists A !! l = Some (xs, cur) -> i ∈ xs ->
  exists it T, am_items A !! i = Some it /\ a_container it = Some l /\ a_owner it = task_of i /\
    kind_ok i l /\ k_tcbs s !! task_of i = Some T.
Proof.
  intros Hk Hl Hin. destruct (proj1 (wf_mem A (inv_wf _ _ _ _ Hk) l xs cur i Hl) Hin) as (it & Hi & Hc).
  destruct (ai_item _ _ _ _ (ki_ainv _ _ _ _ Hk) _ _ Hi) as (T & HT & Ho & Hkd & _).
  exists it, T. split_and!; auto.
Qed.

(** ** Choosing the next task *)

Lemma wp_is_empty h s A live l xs cur :
  kinv h s A live -> am_lists A !! l = Some (xs, cur) ->
  wp (onL (ls_IS_EMPTY l)) (fun r s' => s' = s /\ r = if decide (xs = []) then pdTRUE else pdFALSE) s.
Proof.
  intros Hk Hl. apply wp_onL. eapply wp_mono; [eapply ls_is_empty_spec; [apply Hk|done]|].
  intros r m [-> ->]. split; [by destruct s|done].
Qed.

Definition occupied A (p : Z) : Prop := exists xs cur, am_lists A !! Ready p = Some (xs, cur) /\ xs <> [].

Lemma wp_find_ready s A live fuel top :
  kinv None s A live -> 0 <= top < 32 -> top < Z.of_nat fuel ->
  (exists q, 0 <= q <= top /\ occupied A q) ->
  wp (find_ready fuel top) (fun p s' => s' = s /\ 0 <= p <= top /\ occupied A p /\
    forall q, p < q <= top -> ~ occupied A q) s.
Proof.
  intros Hk. revert top. induction fuel as [|fuel IH]; intros top Ht Hf [q [Hq Ho] ]; [lia|]. cbn [find_ready].
  destruct (inv_list _ _ _ _ (Ready top) Hk Ht) as (xs & cur & Hl).
  apply wp_bind. eapply wp_mono; [by eapply wp_is_empty|]. cbn beta. intros r ? [-> ->].
  destruct (decide (xs = [])) as [->|Hne].
  - cbn. assert (Hno : ~ occupied A top).
    { intros (ys & c & Hys & Hn). by simplify_eq. }
    destruct (Z.eqb_spec top 0) as [->|].
    + exfalso. apply Hno. by replace 0 with q by lia.
    + assert (q <> top) by (intros ->; done). eapply wp_mono; [apply IH; [lia|lia|exists q; split; [lia|done] ]|].
      intros p ? (-> & Hp & Hop & Hall). split_and!; try done; try lia. intros r Hr.
      destruct (decide (r = top)) as [->|]; [done|]. apply Hall. lia.
  - cbn. apply wp_ret. split_and!; try done; try lia. by exists xs, cur.
Qed.

Lemma ainv_set_cursor tcbs top top' A l xs cur i :
  ainv None tcbs top A -> am_wf (a_set_cursor l xs (Some i) A) -> am_lists A !! l = Some (xs, cur) ->
  (forall q, top' < q -> ~ occupied A q) ->
  ainv None tcbs top' (a_set_cursor l xs (Some i) A).
Proof.
  intros [Hwf Hit Htk Hco Hso Htop] Hwf' Hl Hq. constructor; try done.
  - intros l'. rewrite Hco. symmetry. by eapply update_is_Some.
  - intros l' ys c. simpl. rewrite lookup_insert. case_decide; subst; [|by apply Hso].
    intros [= <- <-]. by eapply Hso.
  - intros t it p Hi Hc. destruct (Z.le_gt_cases p top') as [|Hgt]; [done|]. exfalso. apply (Hq p); [lia|].
    destruct (wf_cont A Hwf _ _ _ Hi Hc) as [ [ys c] Hys]. exists ys, c. split; [done|].
    intros ->. assert (StateItem t ∈ []) as ?%elem_of_nil; [|done].
    apply (wf_mem A Hwf _ _ _ _ Hys). eauto.
Qed.

(** The task has not overrun its stack: the saved stack pointer is not below
    the stack, and the two guard words at its bottom keep the painting. *)
Definition stack_ok (stack : gmap Z Z) (T : TCB_t) : Prop :=
  pxStack T <= pxTopOfStack T /\ stack !! pxStack T = Some FLINT_STACK_FILL /\
  stack !! (pxStack T + sizeof_StackType_t) = Some FLINT_STACK_FILL.
(** The current task has not when it yields with stack pointer [sp]. *)
Definition yields_ok (sp : Z) s : Prop :=
  forall T, k_tcbs s !! pxCurrentTCB s = Some T -> stack_ok (k_stack s) (with_sp sp T).
Definition current_ok s : Prop := forall T, k_tcbs s !! pxCurrentTCB s = Some T -> stack_ok (k_stack s) T.

Lemma yields_of sp s T : k_tcbs s !! pxCurrentTCB s = Some T -> stack_ok (k_stack s) (with_sp sp T) -> yields_ok sp s.
Proof. intros HT Hs T' HT'. congruence. Qed.
Lemma current_of s T : k_tcbs s !! pxCurrentTCB s = Some T -> stack_ok (k_stack s) T -> current_ok s.
Proof. intros HT Hs T' HT'. congruence. Qed.

Lemma wp_prvCheckStackOverflow s t T :
  k_tcbs s !! t = Some T -> stack_ok (k_stack s) T -> wp (prvCheckStackOverflow t) (fun _ s' => s' = s) s.
Proof.
  intros HT (Hsp & Hw0 & Hw1).
  unfold prvCheckStackOverflow, ld_tcb, ld_word. apply wp_bind. eapply wp_get_opt; [done|]. apply wp_bind.
  rewrite (proj2 (Z.ltb_ge _ _) Hsp). apply wp_bind. eapply wp_get_opt; [done|].
  apply wp_bind. eapply wp_get_opt; [done|]. by apply wp_ret, wp_ret.
Qed.

(** A switch away from a task that has overrun its stack does not return. *)
Lemma overflow_no_return s T :
  k_tcbs s !! pxCurrentTCB s = Some T -> pxCurrentTCB s <> 0 -> ~ stack_ok (k_stack s) T -> vTaskSwitchContext s = None.
Proof.
  intros HT Hn Hbad.
  assert (Hhalt : prvCheckStackOverflow (pxCurrentTCB s) s = None).
  { unfold prvCheckStackOverflow, ld_tcb, ld_word, get_opt, mbind, M_bind. rewrite HT. cbn [fmap option_fmap option_map].
    destruct (Z.ltb_spec (pxTopOfStack T) (pxStack T)) as [|Hle]; [done|].
    destruct (k_stack s !! pxStack T) as [w0|] eqn:E0; [|done]. cbn [fmap option_fmap option_map].
    destruct (Z.eqb_spec w0 FLINT_STACK_FILL) as [->|]; [|done]. cbn [negb].
    destruct (k_stack s !! (pxStack T + sizeof_StackType_t)) as [w1|] eqn:E1; [|done]. cbn [fmap option_fmap option_map].
    unfold mret, M_ret. destruct (Z.eqb_spec w1 FLINT_STACK_FILL) as [->|]; [|done]. by destruct Hbad. }
  unfold vTaskSwitchContext, mbind, M_bind, gets. rewrite (proj2 (Z.eqb_neq _ _) Hn). cbn [negb]. by rewrite Hhalt.
Qed.

Lemma kinv_critical h s A live n b : kinv h s A live -> kinv h (set_critical n b s) A live.
Proof. intros []. by constructor. Qed.

(** The state after a switch: only the top priority, the cursor of the chosen
    ready list and the current task change. *)
Definition switched s s' A A' : Prop :=
  exists m p xs cur t T, s' = set_current t (set_lists m (set_top p s)) /\
    0 <= p < 32 /\ am_lists A !! Ready p = Some (xs, cur) /\ next_cursor cur xs = Some (StateItem t) /\
    A' = a_set_cursor (Ready p) xs (Some (StateItem t)) A /\
    k_tcbs s !! t = Some T /\ uxPriority T = p /\ (forall q, p < q -> ~ occupied A q).

Lemma ready_occupied s A live p : kinv None s A live -> occupied A p -> p <= uxTopReadyPriority s.
Proof.
  intros Hk (xs & cur & Hl & Hne). destruct xs as [|i xs]; [done|].
  destruct (inv_member _ _ _ _ _ _ _ i Hk Hl ltac:(by left)) as (it & T & Hi & Hc & _ & Hkd & _).
  destruct i as [t|t]; [|done]. by eapply (ai_top _ _ _ _ (ki_ainv _ _ _ _ Hk)).
Qed.

(** A member of a ready list has that list's priority. *)
Lemma ready_member s A live p xs cur i :
  kinv None s A live -> am_lists A !! Ready p = Some (xs, cur) -> i ∈ xs ->
  exists t T it, i = StateItem t /\ k_tcbs s !! t = Some T /\ uxPriority T = p /\
    am_items A !! StateItem t = Some it /\ a_owner it = t /\ a_container it = Some (Ready p).
Proof.
  intros Hk Hl Hin. destruct (inv_member _ _ _ _ _ _ _ i Hk Hl Hin) as (it & T & Hi & Hc & Ho & Hkd & HT).
  destruct i as [t|t]; [|done]. simpl in *. exists t, T, it. split_and!; try done.
  destruct (inv_task _ _ _ _ _ Hk HT) as (sv & sc & ec & Hs & _ & Hp).
  destruct it as [v o c]. simpl in *. simplify_eq. cbn in Hp. by destruct Hp.
Qed.

Lemma wp_vTaskSwitchContext s A live :
  kinv None s A live -> current_ok s -> (exists q, 0 <= q /\ occupied A q) ->
  wp vTaskSwitchContext (fun _ s' => exists A', switched s s' A A' /\ kinv None s' A' live) s.
Proof.
  intros Hk Hsk [q [Hq Ho] ]. pose proof (ready_occupied _ _ _ _ Hk Ho). pose proof (ki_top _ _ _ _ Hk).
  unfold vTaskSwitchContext. apply wp_bind, wp_gets, wp_bind, wp_gets, wp_bind.
  apply wp_mono with (P := fun _ s' => s' = s).
  { destruct (ki_cur _ _ _ _ Hk) as [ [_ ->]|[C HC] ]; [by apply wp_ret|].
    rewrite (proj2 (Z.eqb_neq _ _)) by (by eapply tcb_nonnull). eapply wp_prvCheckStackOverflow; [exact HC|by apply Hsk]. }
  cbn beta. intros _ ? ->.
  apply wp_bind. eapply wp_mono.
  { apply (wp_find_ready _ _ _ _ _ Hk); [done|unfold configMAX_PRIORITIES; lia|]. exists q. split; [lia|done]. }
  cbn beta. intros p ? (-> & Hp & (xs & cur & Hl & Hne) & Hall). apply wp_bind, wp_modify, wp_bind, wp_onL.
  eapply wp_mono; [eapply ls_owner_of_next_spec; [apply Hk|done|done]|].
  cbn beta. intros o m (i & it & Hnc & Hi & -> & Hrep). apply wp_modify.
  assert (Hin : i ∈ xs) by (destruct (next_cursor_elem cur xs Hne) as (k & Hk' & ?); by simplify_eq).
  destruct (ready_member _ _ _ _ _ _ _ Hk Hl Hin) as (t & T & it' & -> & HT & Hpr & Hi' & Hown & _). simplify_eq.
  assert (Hmax : forall r, uxPriority T < r -> ~ occupied A r).
  { intros r Hr Hocc. pose proof (ready_occupied _ _ _ _ Hk Hocc). apply (Hall r); [lia|done]. }
  exists (a_set_cursor (Ready (uxPriority T)) xs (Some (StateItem (a_owner it))) A). split.
  - exists m, (uxPriority T), xs, cur, (a_owner it), T. split_and!; try done; lia.
  - destruct Hk. constructor; try done; simpl; [|lia|right; by eexists].
    eapply ainv_set_cursor; [done|exact (ls_rep_wf _ _ Hrep)|done|done].
Qed.

(** ** Priority changes *)

(** The list a given item is in. *)
Definition cont A (i : item) : option (option lst) := a_container <$> am_items A !! i.

Lemma kinv_set_tcb h s A live t f :
  kinv h s A live -> h = Some t ->
  (forall T, uxBasePriority (f T) = uxBasePriority T /\ pxStack (f T) = pxStack T /\ uxStackDepth (f T) = uxStackDepth T) ->
  (forall T, k_tcbs s !! t = Some T -> 0 <= uxPriority (f T) < 32) ->
  kinv h (set_tcbs (alter f t (k_tcbs s)) s) A live.
Proof.
  intros Hk -> Hf Hp. destruct Hk as [? ? Ha Ht ? ? ? Hc Hr]. constructor; try done; simpl.
  - apply ainv_tcb; [done|]. intros T. apply Hf.
  - intros t' T'. rewrite lookup_alter. case_decide; subst; [|by apply Ht].
    intros (T & HT & ->)%fmap_Some. destruct (Ht _ _ HT), (Hf T) as (Hb & Hs & Hd).
    constructor; rewrite ?Hb, ?Hs, ?Hd; try done. by apply Hp.
  - destruct Hc as [ [-> ->]|[C HC] ]; [left; split; [by apply alter_empty|done]|right].
    rewrite lookup_alter. case_decide; subst; rewrite HC; by eexists.
  - destruct Hr as [? ? He]. constructor; try done. intros i Hi. destruct (He i Hi) as (t' & ? & [T' HT']).
    exists t'. split; [done|]. rewrite lookup_alter. case_decide; subst; rewrite HT'; by eexists.
Qed.

Lemma kinv_open s A live t : kinv None s A live -> kinv (Some t) s A live.
Proof. intros []. constructor; try done. by apply ainv_open. Qed.

Lemma kinv_close s A live t T si ei :
  kinv (Some t) s A live -> k_tcbs s !! t = Some T ->
  am_items A !! StateItem t = Some si -> am_items A !! EventItem t = Some ei ->
  placed T (a_container si) (a_container ei) -> kinv None s A live.
Proof. intros [] HT Hs He Hp. constructor; try done. by eapply ainv_close. Qed.

(** After taking an item out, the rest of the memory. *)
Lemma a_out_item l xs cur i A it :
  am_items A !! i = Some it -> am_items (a_out l xs cur i A) !! i = Some (set_container None it).
Proof. apply move_item_eq. Qed.
Lemma a_out_other l xs cur i A j : j <> i -> am_items (a_out l xs cur i A) !! j = am_items A !! j.
Proof. apply move_item_ne. Qed.

(** The spec shared by the two inheritance operations. *)
Definition reprioritised s s' A A' t p : Prop :=
  exists m v, s' = set_lists m (set_top v (set_tcbs (alter (with_priority p) t (k_tcbs s)) s)) /\
    (forall i, i <> StateItem t -> am_items A' !! i = am_items A !! i) /\
    cont A' (StateItem t) = match cont A (StateItem t) with
                            | Some (Some (Ready _)) => Some (Some (Ready p))
                            | c => c
                            end.

Lemma wp_prvReprioritise s A live t T p :
  kinv None s A live -> k_tcbs s !! t = Some T -> 0 <= p < 32 ->
  wp (prvReprioritise t p) (fun _ s' => exists A', reprioritised s s' A A' t p /\ kinv None s' A' live) s.
Proof.
  intros Hk HT Hp. destruct (inv_task _ _ _ _ _ Hk HT) as (sv & sc & ec & Hs & He & Hpl).
  pose proof (kinv_open _ _ _ t Hk) as Hk0.
  assert (Hset : forall s0, k_tcbs s0 = k_tcbs s -> forall Q, Q tt (set_tcbs (alter (with_priority p) t (k_tcbs s0)) s0) ->
    wp (st_tcb t (with_priority p)) Q s0).
  { intros s0 Hs0 Q HQ. unfold st_tcb, ld_tcb. apply wp_bind. eapply wp_get_opt; [by rewrite Hs0|]. by apply wp_modify. }
  unfold prvReprioritise. apply wp_bind. eapply wp_get_opt; [done|]. apply wp_bind, wp_onL.
  eapply wp_mono; [eapply ls_is_contained_spec; [apply Hk|done]|]. cbn beta. intros r m [-> ->].
  replace (set_lists (k_lists s) s) with s by by destruct s. cbn [a_container].
  destruct (decide (sc = Some (Ready (uxPriority T)))) as [->|Hnr]; cbn -[a_move].
  - destruct Hpl as [_ ->]. destruct (inv_list _ _ _ _ (Ready (uxPriority T)) Hk) as (xs & cur & Hl).
    { exact (to_prio _ _ _ _ (ki_tcb _ _ _ _ Hk _ _ HT)). }
    apply wp_bind. eapply wp_mono; [by eapply (wp_remove t); [exact Hk0|..]|]. cbn beta. intros _ ? (m1 & -> & Hk1).
    apply wp_bind. apply Hset; [done|]. eapply kinv_set_tcb with (f := with_priority p) in Hk1; [|done|done|done].
    destruct (inv_list _ _ _ _ (Ready p) Hk1 Hp) as (ys & cur' & Hl').
    eapply wp_mono.
    { eapply (wp_prvAddTaskToReadyList t (with_priority p T) _ _ _ _ _ ys cur' Hk1);
        [simpl; by rewrite lookup_alter_eq, HT|by apply a_out_item|done|by rewrite a_out_other|done|done]. }
    cbn beta. intros _ ? (m2 & -> & Hk2). eexists. split; [|exact Hk2]. eexists m2, _. split_and!; [reflexivity| |].
    + intros i Hi. by rewrite a_ready_other, a_out_other.
    + unfold cont. rewrite Hs. erewrite a_ready_state by (by apply a_out_item). done.
  - apply Hset; [done|]. exists A. split.
    + exists (k_lists s), (uxTopReadyPriority s). split_and!; [by destruct s|done|].
      unfold cont. rewrite Hs. simpl. destruct sc as [ [q| | | | ]|]; try done. cbn in Hpl. destruct Hpl as [-> _]. done.
    + eapply kinv_set_tcb with (f := with_priority p) in Hk0; [|done|done|done].
      eapply kinv_close; [exact Hk0|simpl; by rewrite lookup_alter_eq, HT|done|done|].
      simpl. destruct sc as [ [q| | | | ]|]; try done. cbn in Hpl. destruct Hpl as [-> _]. done.
Qed.

(** [vTaskPriorityInherit]: the holder runs at least as high as the caller. *)
Lemma wp_vTaskPriorityInherit s A live h H C :
  kinv None s A live -> k_tcbs s !! h = Some H -> k_tcbs s !! pxCurrentTCB s = Some C ->
  wp (vTaskPriorityInherit h) (fun _ s' =>
    if negb (xInheritEnabled s =? pdFALSE) && (uxPriority H <? uxPriority C)
    then exists A', reprioritised s s' A A' h (uxPriority C) /\ kinv None s' A' live
    else s' = s) s.
Proof.
  intros Hk HH HC. unfold vTaskPriorityInherit, ld_tcb. apply wp_bind, wp_gets.
  rewrite !(proj2 (Z.eqb_neq _ _)) by (by eapply tcb_nonnull). cbn [orb]. apply wp_bind, wp_gets.
  destruct (xInheritEnabled s =? pdFALSE); cbn [negb andb]; [by apply wp_ret|].
  apply wp_bind. eapply wp_get_opt; [done|]. apply wp_bind. eapply wp_get_opt; [done|].
  destruct (uxPriority H <? uxPriority C); [|by apply wp_ret].
  eapply wp_prvReprioritise; [done|done|]. exact (to_prio _ _ _ _ (ki_tcb _ _ _ _ Hk _ _ HC)).
Qed.

Lemma wp_vTaskPriorityDisinherit s A live h H :
  kinv None s A live -> k_tcbs s !! h = Some H ->
  wp (vTaskPriorityDisinherit h) (fun r s' =>
    if uxPriority H =? uxBasePriority H then r = pdFALSE /\ s' = s
    else r = pdTRUE /\ exists A', reprioritised s s' A A' h (uxBasePriority H) /\ kinv None s' A' live) s.
Proof.
  intros Hk HH. unfold vTaskPriorityDisinherit, ld_tcb.
  rewrite (proj2 (Z.eqb_neq _ _)) by (by eapply tcb_nonnull). apply wp_bind. eapply wp_get_opt; [done|].
  destruct (uxPriority H =? uxBasePriority H); cbn [negb]; [by apply wp_ret|].
  apply wp_bind. eapply wp_mono; [eapply wp_prvReprioritise; [done|done|exact (to_base _ _ _ _ (ki_tcb _ _ _ _ Hk _ _ HH))]|].
  cbn beta. intros ? s' Hs'. by apply wp_ret.
Qed.

(** ** Blocking *)

Lemma insert_sorted_ext (f g : item -> Z) v i xs :
  (forall x, x ∈ xs -> f x = g x) -> insert_sorted f v i xs = insert_sorted g v i xs.
Proof.
  induction xs as [|x xs IH]; intros Hfg; [done|]. simpl. rewrite (Hfg x) by by left.
  destruct (g x <=? v); [|done]. f_equal. apply IH. intros y Hy. apply Hfg. by right.
Qed.

(** The memory once [t] is on the delayed list until [v]. *)
Definition a_delay t v ds dc A : amem item lst :=
  a_move (Some Delayed) Delayed (insert_sorted (a_val A) v (StateItem t) ds) dc (StateItem t)
    (a_set_value (StateItem t) v A).

Lemma a_delay_state t v ds dc A it :
  am_items A !! StateItem t = Some it -> a_owner it = t ->
  am_items (a_delay t v ds dc A) !! StateItem t = Some (AItem v t (Some Delayed)).
Proof.
  intros Hi <-. unfold a_delay, a_move, a_set_value; simpl. by rewrite !lookup_alter_eq, Hi.
Qed.
Lemma a_delay_other t v ds dc A i : i <> StateItem t -> am_items (a_delay t v ds dc A) !! i = am_items A !! i.
Proof. intros. unfold a_delay, a_move, a_set_value; simpl. by rewrite !lookup_alter_ne. Qed.
Lemma a_delay_list t v ds dc A :
  am_lists (a_delay t v ds dc A) !! Delayed = Some (insert_sorted (a_val A) v (StateItem t) ds, dc).
Proof. unfold a_delay, a_move; simpl. by rewrite lookup_insert_eq. Qed.
Lemma a_delay_list_ne t v ds dc A l : l <> Delayed -> am_lists (a_delay t v ds dc A) !! l = am_lists A !! l.
Proof. intros. unfold a_delay, a_move; simpl. by rewrite lookup_insert_ne. Qed.

(** Setting the wake time of an unlinked task and inserting it. *)
Lemma wp_delay_until t T s A live si ei v ds dc :
  kinv (Some t) s A live -> k_tcbs s !! t = Some T ->
  am_items A !! StateItem t = Some si -> a_container si = None ->
  am_items A !! EventItem t = Some ei -> am_lists A !! Delayed = Some (ds, dc) -> in_u 32 v ->
  wp (onL (ls_SET_VALUE (StateItem t) v);; onL (ls_Insert Delayed (StateItem t)))
    (fun _ s' => exists m, s' = set_lists m s /\ kinv None s' (a_delay t v ds dc A) live) s.
Proof.
  intros Hk HT Hsi Hsc Hei Hd Hv. apply wp_bind.
  eapply wp_mono; [by eapply wp_set_value|]. cbn beta. intros _ ? (m1 & -> & Hk1).
  assert (Hsi1 : am_items (a_set_value (StateItem t) v A) !! StateItem t = Some (set_value v si)).
  { simpl. by rewrite lookup_alter_eq, Hsi. }
  eapply wp_mono; [by eapply (wp_insert t _ _ _ _ _ Delayed); [exact Hk1|done|exact Hsi1|done|done|..]|].
  cbn beta. intros _ ? (m2 & -> & Hk2). exists m2. split; [done|].
  assert (Heq : insert_sorted (a_val (a_set_value (StateItem t) v A)) (a_value (set_value v si)) (StateItem t) ds =
    insert_sorted (a_val A) v (StateItem t) ds).
  { apply insert_sorted_ext. intros x Hx. apply a_val_alter. intros ->.
    destruct (inv_member _ _ _ _ _ _ _ _ Hk Hd Hx) as (? & ? & ? & ? & _). congruence. }
  rewrite Heq in Hk2. eapply kinv_close; [exact Hk2|exact HT| | |].
  - eapply a_delay_state; [done|]. by destruct (ai_item _ _ _ _ (ki_ainv _ _ _ _ Hk) _ _ Hsi) as (? & _ & ? & _).
  - by rewrite (a_delay_other t v ds dc A).
  - done.
Qed.

(** The running task: current, and on the ready list of its priority. *)
Record running s A (t : Z) (T : TCB_t) : Prop := {
  rn_cur : pxCurrentTCB s = t;
  rn_tcb : k_tcbs s !! t = Some T;
  rn_ready : cont A (StateItem t) = Some (Some (Ready (uxPriority T))) }.

Lemma running_items s A live t T :
  kinv None s A live -> running s A t T ->
  exists sv xs cur, am_items A !! StateItem t = Some (AItem sv t (Some (Ready (uxPriority T)))) /\
    am_items A !! EventItem t = Some (AItem (32 - uxBasePriority T) t None) /\
    am_lists A !! Ready (uxPriority T) = Some (xs, cur) /\ StateItem t ∈ xs.
Proof.
  intros Hk [_ HT Hr]. destruct (inv_task _ _ _ _ _ Hk HT) as (sv & sc & ec & Hs & He & Hp).
  unfold cont in Hr. rewrite Hs in Hr. cbn in Hr. injection Hr as ->. destruct Hp as [_ ->].
  destruct (wf_cont A (inv_wf _ _ _ _ Hk) _ _ _ Hs eq_refl) as [ [xs cur] Hl]. exists sv, xs, cur.
  split_and!; try done. apply (wf_mem A (inv_wf _ _ _ _ Hk) _ _ _ _ Hl). eauto.
Qed.

(** Removing the running task from its ready list. *)
Lemma wp_unready s A live t T :
  kinv None s A live -> running s A t T ->
  exists sv xs cur, am_lists A !! Ready (uxPriority T) = Some (xs, cur) /\
    wp (onL (ls_Remove (StateItem t))) (fun _ s' => exists m, s' = set_lists m s /\
      let A' := a_out (Ready (uxPriority T)) xs cur (StateItem t) A in
      kinv (Some t) s' A' live /\
      am_items A' !! StateItem t = Some (AItem sv t None) /\
      am_items A' !! EventItem t = Some (AItem (32 - uxBasePriority T) t None)) s.
Proof.
  intros Hk Hrun. destruct (running_items _ _ _ _ _ Hk Hrun) as (sv & xs & cur & Hs & He & Hl & _).
  exists sv, xs, cur. split; [done|]. eapply wp_mono; [by eapply (wp_remove t); [by apply kinv_open|..]|].
  cbn beta. intros _ ? (m & -> & Hk'). exists m. split; [done|]. cbn zeta. split; [done|].
  rewrite (a_out_item _ _ _ _ _ _ Hs), a_out_other by done. done.
Qed.

(** [vTaskDelay] up to the yield: the caller leaves its ready list and is on
    the delayed list with wake time [xTickCount + n] (mod 2^32). *)
Definition slept s s' A A' live t p v : Prop :=
  exists m xs cur ds dc, s' = set_lists m s /\ kinv None s' A' live /\
    am_lists A !! Ready p = Some (xs, cur) /\ am_lists A !! Delayed = Some (ds, dc) /\
    A' = a_delay t v ds dc (a_out (Ready p) xs cur (StateItem t) A).

Lemma wp_sleep s A live t T n :
  kinv None s A live -> running s A t T -> in_u 32 n ->
  wp (onL (ls_Remove (StateItem t));; now ← gets xTickCount;
      onL (ls_SET_VALUE (StateItem t) (u32 (now + n)));; onL (ls_Insert Delayed (StateItem t)))
    (fun _ s' => exists A', slept s s' A A' live t (uxPriority T) (u32 (xTickCount s + n))) s.
Proof.
  intros Hk Hrun Hn. destruct (wp_unready _ _ _ _ _ Hk Hrun) as (sv & xs & cur & Hl & Hrm).
  destruct (inv_list _ _ _ _ Delayed Hk I) as (ds & dc & Hd).
  apply wp_bind. eapply wp_mono; [exact Hrm|]. cbn beta zeta. intros _ ? (m & -> & Hk1 & Hs1 & He1).
  apply wp_bind, wp_gets. eapply wp_mono.
  { eapply (wp_delay_until t T _ _ _ _ _ _ ds dc Hk1); [apply Hrun|done|done|done| |by apply wrapu_range].
    unfold a_out, a_move. simpl. by rewrite lookup_insert_ne. }
  cbn beta. intros _ ? (m' & -> & Hk2). eexists. exists m', xs, cur, ds, dc. split_and!; done.
Qed.

Definition wait_list (l : lst) : Prop := match l with WaitSend _ | WaitRecv _ => True | _ => False end.

(** [vTaskPlaceOnEventList]: the caller waits on [l], in priority order, and
    on the delayed list (or the suspended list, for [portMAX_DELAY]). *)
Record blocked_on s s' A A' t T l n : Prop := {
  bk_lists : exists m, s' = set_lists m s;
  bk_event : cont A' (EventItem t) = Some (Some l);
  bk_state : cont A' (StateItem t) = Some (Some (if n =? portMAX_DELAY then Suspended else Delayed));
  bk_wake : n <> portMAX_DELAY -> a_val A' (StateItem t) = u32 (xTickCount s + n);
  bk_queue : exists ws wc, am_lists A !! l = Some (ws, wc) /\
    am_lists A' !! l = Some (insert_sorted (a_val A) (32 - uxBasePriority T) (EventItem t) ws, wc);
  bk_other : forall i, task_of i <> t -> am_items A' !! i = am_items A !! i }.

Lemma wp_vTaskPlaceOnEventList s A live t T l n :
  kinv None s A live -> running s A t T -> wait_list l -> is_Some (am_lists A !! l) -> in_u 32 n ->
  wp (vTaskPlaceOnEventList l n) (fun _ s' => exists A', blocked_on s s' A A' t T l n /\ kinv None s' A' live) s.
Proof.
  intros Hk Hrun Hw [ [ws wc] Hl] Hn. destruct (wp_unready _ _ _ _ _ Hk Hrun) as (sv & xs & cur & Hlr & Hrm).
  destruct (inv_list _ _ _ _ Delayed Hk I) as (ds & dc & Hd). destruct (inv_list _ _ _ _ Suspended Hk I) as (us & uc & Hu).
  pose proof Hrun as [Hcur HT _].
  unfold vTaskPlaceOnEventList. apply wp_bind, wp_gets. rewrite Hcur.
  apply wp_bind. eapply wp_mono; [exact Hrm|]. cbn beta zeta. intros _ ? (m & -> & Hk1 & Hs1 & He1).
  set (A1 := a_out _ _ _ _ A) in *.
  assert (Hl1 : forall k, (forall p, k <> Ready p) -> am_lists A1 !! k = am_lists A !! k).
  { intros k Hkr. subst A1. unfold a_out, a_move. simpl. rewrite lookup_insert_ne; [done|]. intros <-. by eapply Hkr. }
  assert (Hlw : am_lists A1 !! l = Some (ws, wc)) by (rewrite Hl1; [done|by intros p ->]).
  apply wp_bind. eapply wp_mono.
  { eapply (wp_insert t _ _ _ (EventItem t) _ l ws wc Hk1); [done|done|done|done| |by intros p ->]. by destruct l. }
  cbn beta. intros _ ? (m2 & -> & Hk2). set (A2 := a_move _ l _ _ _ A1) in *.
  assert (Hins : insert_sorted (a_val A1) (32 - uxBasePriority T) (EventItem t) ws =
    insert_sorted (a_val A) (32 - uxBasePriority T) (EventItem t) ws).
  { apply insert_sorted_ext. intros x Hx. subst A1. apply a_val_move. }
  assert (Hs2 : am_items A2 !! StateItem t = Some (AItem sv t None)) by (subst A2; by rewrite move_item_ne).
  assert (He2 : am_items A2 !! EventItem t = Some (AItem (32 - uxBasePriority T) t (Some l))).
  { subst A2. by erewrite move_item_eq by done. }
  assert (Hl2 : forall k, k <> l -> am_lists A2 !! k = am_lists A1 !! k).
  { intros k Hne. subst A2. unfold a_move. simpl. by rewrite lookup_insert_ne. }
  assert (Hother : forall i, task_of i <> t -> am_items A2 !! i = am_items A !! i).
  { intros i Hi. subst A2 A1. rewrite move_item_ne, a_out_other; [done|..]; intros ->; by apply Hi. }
  assert (HlA2 : am_lists A2 !! l = Some (insert_sorted (a_val A) (32 - uxBasePriority T) (EventItem t) ws, wc)).
  { subst A2. unfold a_move. simpl. rewrite lookup_insert_eq. simpl. by rewrite Hins. }
  destruct (Z.eqb_spec n portMAX_DELAY) as [->|Hne].
  - assert (Hsusp : am_lists A2 !! Suspended = Some (us, uc)) by (rewrite Hl2, Hl1; [done|done|by intros <-]).
    eapply wp_mono; [by eapply (wp_insert_end t _ _ _ (StateItem t) _ Suspended us uc Hk2); [..|intros []|]|].
    cbn beta. intros _ ? (m3 & -> & Hk3). eexists. split; cycle 1.
    + eapply kinv_close; [exact Hk3|exact HT|by erewrite move_item_eq by done|by rewrite move_item_ne|]. done.
    + constructor; try done.
      * by exists m3.
      * unfold cont. by rewrite move_item_ne, He2.
      * unfold cont. by erewrite move_item_eq by done.
      * exists ws, wc. split; [done|]. unfold a_move. simpl. rewrite lookup_insert_ne; [done|by intros <-].
      * intros i Hi. rewrite move_item_ne; [by apply Hother|]. intros ->. by apply Hi.
  - apply wp_bind, wp_gets. eapply wp_mono.
    { eapply (wp_delay_until t T _ _ _ _ _ _ ds dc Hk2); [exact HT|done|done|done| |by apply wrapu_range].
      rewrite Hl2, Hl1; [done|done|by intros <-]. }
    cbn beta. intros _ ? (m3 & -> & Hk3). eexists. split; [|exact Hk3].
    rewrite <- Z.eqb_neq in Hne. constructor; rewrite ?Hne; try done.
    + by exists m3.
    + unfold cont. by rewrite a_delay_other, He2.
    + unfold cont. by erewrite a_delay_state by done.
    + intros _. unfold a_val. by erewrite a_delay_state by done.
    + exists ws, wc. split; [done|]. rewrite a_delay_list_ne; [done|by intros ->].
    + intros i Hi. rewrite a_delay_other; [by apply Hother|]. intros ->. by apply Hi.
Qed.

(** ** Waking *)

(** Task [t] went from blocked to ready; nothing else moved. *)
Record made_ready A A' t T : Prop := {
  mr_state : cont A' (StateItem t) = Some (Some (Ready (uxPriority T)));
  mr_event : cont A' (EventItem t) = Some None;
  mr_other : forall i, task_of i <> t -> am_items A' !! i = am_items A !! i }.

Lemma a_out_head l i xs cur A : am_lists (a_out l (i :: xs) cur i A) !! l = Some (xs, cursor_after_remove i (i :: xs) cur).
Proof. unfold a_out, a_move. simpl. rewrite lookup_insert_eq. by rewrite decide_True. Qed.
Lemma a_out_list_ne l xs cur i A k : k <> l -> am_lists (a_out l xs cur i A) !! k = am_lists A !! k.
Proof. intros. unfold a_out, a_move. simpl. by rewrite lookup_insert_ne. Qed.

(** The tail of both wake operations. *)
Lemma wp_add_ready t T s A live si ei :
  kinv (Some t) s A live -> k_tcbs s !! t = Some T ->
  am_items A !! StateItem t = Some si -> a_container si = None ->
  am_items A !! EventItem t = Some ei -> a_container ei = None ->
  wp (prvAddTaskToReadyList t) (fun _ s' => exists m v A', s' = set_lists m (set_top v s) /\
    kinv None s' A' live /\ made_ready A A' t T /\
    (forall l, l <> Ready (uxPriority T) -> am_lists A' !! l = am_lists A !! l)) s.
Proof.
  intros Hk HT Hs Hsc He Hec. destruct (inv_list _ _ _ _ (Ready (uxPriority T)) Hk) as (xs & cur & Hl).
  { exact (to_prio _ _ _ _ (ki_tcb _ _ _ _ Hk _ _ HT)). }
  eapply wp_mono; [by eapply (wp_prvAddTaskToReadyList t T)|]. cbn beta. intros _ ? (m & -> & Hk').
  eexists m, _, _. split; [reflexivity|]. split; [exact Hk'|]. split; [constructor|].
  - unfold cont. by erewrite a_ready_state by done.
  - unfold cont. rewrite a_ready_other, He by done. by rewrite <- Hec.
  - intros i Hi. apply a_ready_other. intros ->. by apply Hi.
  - intros l Hne. by apply a_ready_list_ne.
Qed.

Lemma wp_xTaskRemoveFromEventList s A live l ws wc C :
  kinv None s A live -> wait_list l -> am_lists A !! l = Some (ws, wc) ->
  k_tcbs s !! pxCurrentTCB s = Some C ->
  wp (xTaskRemoveFromEventList l) (fun r s' =>
    match ws with
    | [] => r = pdFALSE /\ s' = s
    | i :: ws' => exists t T m v A', i = EventItem t /\ k_tcbs s !! t = Some T /\
        s' = set_lists m (set_top v s) /\ kinv None s' A' live /\ made_ready A A' t T /\
        am_lists A' !! l = Some (ws', cursor_after_remove i ws wc) /\
        r = (if uxPriority C <? uxPriority T then pdTRUE else pdFALSE)
    end) s.
Proof.
  intros Hk Hw Hl HC. unfold xTaskRemoveFromEventList. apply wp_bind.
  eapply wp_mono; [by eapply wp_is_empty|]. cbn beta. intros r ? [-> ->].
  destruct ws as [|i ws]; [by apply wp_ret|]. cbn [negb]. rewrite decide_False by done. cbn.
  destruct (inv_member _ _ _ _ _ _ _ i Hk Hl ltac:(by left)) as (it & T & Hi & Hc & Ho & Hkd & HT).
  destruct i as [t|t]; [by destruct l|]. simpl in Ho, HT.
  destruct (inv_task _ _ _ _ _ Hk HT) as (sv & sc & ec & Hs & He & Hp).
  rewrite Hi in He. injection He as ->. simpl in Hc. subst ec.
  apply wp_bind, wp_onL. eapply wp_mono; [eapply ls_head_entry_spec; [apply Hk|done]|]. cbn beta. intros h m [-> ->].
  replace (set_lists (k_lists s) s) with s by by destruct s. cbn [curp head].
  apply wp_bind, wp_onL. eapply wp_mono; [eapply ls_get_owner_spec; [apply Hk|done]|]. cbn beta. intros o m [-> ->].
  replace (set_lists (k_lists s) s) with s by by destruct s. cbn [a_owner].
  pose proof (kinv_open _ _ _ t Hk) as Hk0.
  apply wp_bind. eapply wp_mono; [by eapply (wp_remove t); [exact Hk0|..]|]. cbn beta. intros _ ? (m1 & -> & Hk1).
  assert (exists ls, sc = Some ls /\ (ls = Delayed \/ ls = Suspended)) as (ls & -> & Hls).
  { destruct sc as [ [q| | | | ]|]; try by destruct Hp. all: eexists; split; [done|]; auto. }
  destruct (inv_list _ _ _ _ ls Hk) as (ys & yc & Hy); [by destruct Hls as [->| ->]|].
  assert (Hll : ls <> l) by (intros <-; by destruct Hls as [->| ->]).
  apply wp_bind. eapply wp_mono.
  { eapply (wp_remove t _ _ _ (StateItem t) _ ls ys yc Hk1);
      [done|by rewrite a_out_other|done|by rewrite a_out_list_ne]. }
  cbn beta. intros _ ? (m2 & -> & Hk2).
  apply wp_bind. eapply wp_mono.
  { eapply (wp_add_ready t T _ _ _ _ _ Hk2); [done|by eapply a_out_item; rewrite a_out_other|done| |].
    - rewrite a_out_other by done. by apply a_out_item.
    - done. }
  cbn beta. intros _ ? (m3 & v & A' & -> & Hk3 & [Hms Hme Hmo] & Hml).
  unfold ld_tcb. apply wp_bind. eapply wp_get_opt; [exact HT|]. apply wp_bind, wp_gets. apply wp_bind.
  eapply wp_get_opt; [exact HC|]. apply wp_ret. exists t, T, m3, v, A'. split_and!; try done.
  - constructor; try done. intros i Hi'. rewrite Hmo by done.
    rewrite !a_out_other; [done|..]; intros ->; by apply Hi'.
  - rewrite Hml by (intros ->; done). rewrite a_out_list_ne by done. apply a_out_head.
Qed.

(** One iteration of the tick's wake loop on a delayed task that is due. *)
Lemma wp_wake_one s A live t ds dc :
  kinv None s A live -> am_lists A !! Delayed = Some (StateItem t :: ds, dc) ->
  wp (onL (ls_Remove (StateItem t));; c ← onL (ls_CONTAINER (EventItem t));
      (if bool_decide (c = None) then mret tt else onL (ls_Remove (EventItem t));; mret tt);;
      prvAddTaskToReadyList t)
    (fun _ s' => exists T m v A' dc', k_tcbs s !! t = Some T /\ s' = set_lists m (set_top v s) /\
      kinv None s' A' live /\ made_ready A A' t T /\ am_lists A' !! Delayed = Some (ds, dc')) s.
Proof.
  intros Hk Hl. destruct (inv_member _ _ _ _ _ _ _ (StateItem t) Hk Hl ltac:(by left)) as (it & T & Hi & Hc & Ho & Hkd & HT).
  simpl in Ho, HT. destruct (inv_task _ _ _ _ _ Hk HT) as (sv & sc & ec & Hs & He & Hp).
  rewrite Hi in Hs. injection Hs as ->. simpl in Hc. subst sc.
  pose proof (kinv_open _ _ _ t Hk) as Hk0.
  apply wp_bind. eapply wp_mono; [by eapply (wp_remove t); [exact Hk0|..]|]. cbn beta. intros _ ? (m1 & -> & Hk1).
  set (A1 := a_out Delayed _ dc _ A) in *.
  assert (He1 : am_items A1 !! EventItem t = Some (AItem (32 - uxBasePriority T) t ec)) by (subst A1; by rewrite a_out_other).
  assert (Hs1 : am_items A1 !! StateItem t = Some (AItem sv t None)) by (subst A1; by erewrite a_out_item by done).
  assert (Hd1 : am_lists A1 !! Delayed = Some (ds, cursor_after_remove (StateItem t) (StateItem t :: ds) dc)) by apply a_out_head.
  apply wp_bind, wp_onL. eapply wp_mono; [eapply ls_container_spec; [apply Hk1|done]|]. cbn beta. intros c m [-> ->].
  cbn [a_container]. apply wp_bind.
  apply wp_mono with (P := fun _ s' => exists m A2, s' = set_lists m s /\ kinv (Some t) s' A2 live /\
    am_items A2 !! StateItem t = Some (AItem sv t None) /\
    am_items A2 !! EventItem t = Some (AItem (32 - uxBasePriority T) t None) /\
    (forall i, task_of i <> t -> am_items A2 !! i = am_items A1 !! i) /\ am_lists A2 !! Delayed = am_lists A1 !! Delayed).
  { destruct ec as [l|].
    - rewrite bool_decide_false by done.
      destruct (ai_item _ _ _ _ (ki_ainv _ _ _ _ Hk1) _ _ He1) as (? & _ & _ & Hkl & _). specialize (Hkl l eq_refl).
      destruct (wf_cont A1 (inv_wf _ _ _ _ Hk1) _ _ l He1 eq_refl) as [ [ws wc] Hw].
      apply wp_bind. eapply wp_mono; [by eapply (wp_remove t); [exact Hk1|..]|]. cbn beta. intros _ ? (m2 & -> & Hk2).
      apply wp_ret. eexists m2, _. split; [done|]. split; [exact Hk2|]. split_and!.
      + by rewrite a_out_other.
      + by erewrite a_out_item by done.
      + intros i Hi'. apply a_out_other. intros ->. by apply Hi'.
      + apply a_out_list_ne. intros <-. done.
    - rewrite bool_decide_true by done. apply wp_ret. exists m1, A1. split; [by destruct s|]. split_and!; done. }
  cbn beta. intros _ ? (m2 & A2 & -> & Hk2 & Hs2 & He2 & Hoth & Hd2).
  eapply wp_mono; [by eapply (wp_add_ready t T _ _ _ _ _ Hk2)|].
  cbn beta. intros _ ? (m3 & v & A' & -> & Hk3 & [Hms Hme Hmo] & Hml).
  eexists T, m3, v, A', _. split; [done|]. split; [done|]. split; [done|]. split.
  - constructor; try done. intros i Hi'. rewrite Hmo, Hoth by done. subst A1. apply a_out_other. intros ->. by apply Hi'.
  - rewrite Hml, Hd2 by done. exact Hd1.
Qed.

Lemma sorted_head_lt (f : item -> Z) v i xs : sorted_by f (i :: xs) -> v < f i -> Forall (fun x => v < f x) (i :: xs).
Proof.
  intros Hs Hv. inversion Hs as [|? ? _ Hf]; subst. constructor; [done|].
  eapply Forall_impl; [done|]. simpl. lia.
Qed.

(** The effect of the wake loop: the due prefix of the delayed list is made
    ready, the rest stays. *)
Record woke s s' A A' (ds wk rest : list item) : Prop := {
  wk_split : ds = wk ++ rest;
  wk_state : exists m v, s' = set_lists m (set_top v s);
  wk_list : exists dc', am_lists A' !! Delayed = Some (rest, dc');
  wk_due : Forall (fun i => a_val A i <= xTickCount s) wk;
  wk_not_due : Forall (fun i => xTickCount s < a_val A i) rest;
  wk_ready : forall t, StateItem t ∈ wk -> exists T, k_tcbs s !! t = Some T /\
    cont A' (StateItem t) = Some (Some (Ready (uxPriority T))) /\ cont A' (EventItem t) = Some None;
  wk_other : forall i, StateItem (task_of i) ∉ wk -> am_items A' !! i = am_items A !! i }.

Lemma wp_wake_expired fuel s A live ds dc :
  kinv None s A live -> am_lists A !! Delayed = Some (ds, dc) -> (length ds < fuel)%nat ->
  wp (wake_expired fuel) (fun _ s' => exists A' wk rest, woke s s' A A' ds wk rest /\ kinv None s' A' live) s.
Proof.
  revert s A ds dc. induction fuel as [|fuel IH]; intros s A ds dc Hk Hl Hf; [lia|]. cbn [wake_expired].
  apply wp_bind. eapply wp_mono; [by eapply wp_is_empty|]. cbn beta. intros r ? [-> ->].
  destruct ds as [|i ds].
  { apply wp_ret. exists A, [], []. split; [|done]. constructor; try done; [|by eexists|set_solver].
    exists (k_lists s), (uxTopReadyPriority s). by destruct s. }
  rewrite decide_False by done. cbn.
  destruct (inv_member _ _ _ _ _ _ _ i Hk Hl ltac:(by left)) as (it & T & Hi & Hc & Ho & Hkd & HT).
  destruct i as [t|t]; [|done]. simpl in Ho, HT.
  assert (Hval : a_val A (StateItem t) = a_value it) by (unfold a_val; by rewrite Hi).
  apply wp_bind, wp_onL. eapply wp_mono; [eapply ls_head_entry_spec; [apply Hk|done]|]. cbn beta. intros h m [-> ->].
  replace (set_lists (k_lists s) s) with s by by destruct s. cbn [curp head].
  apply wp_bind, wp_onL. eapply wp_mono; [eapply ls_get_value_spec; [apply Hk|done]|]. cbn beta. intros o m [-> ->].
  replace (set_lists (k_lists s) s) with s by by destruct s. apply wp_bind, wp_gets.
  pose proof (ai_sorted _ _ _ _ (ki_ainv _ _ _ _ Hk) _ _ _ Hl I) as Hsorted.
  destruct (Z.ltb_spec (xTickCount s) (a_value it)).
  { apply wp_ret. exists A, [], (StateItem t :: ds). split; [|done]. constructor; try done.
    - exists (k_lists s), (uxTopReadyPriority s). by destruct s.
    - by eexists.
    - apply sorted_head_lt; [done|lia].
    - set_solver. }
  apply wp_bind, wp_onL. eapply wp_mono; [eapply ls_get_owner_spec; [apply Hk|done]|]. cbn beta. intros o m [-> ->].
  replace (set_lists (k_lists s) s) with s by by destruct s. rewrite Ho.
  apply wp_then. eapply wp_mono; [by eapply wp_wake_one|]. cbn beta.
  intros _ ? (T' & m & v & A1 & dc1 & HT' & -> & Hk1 & [Hms Hme Hmo] & Hd1). rewrite HT in HT'. injection HT' as <-.
  assert (Hnd : NoDup (StateItem t :: ds)) by (eapply wf_nodup; [eapply inv_wf; exact Hk|exact Hl]).
  apply NoDup_cons in Hnd as [Hnt Hnd].
  assert (Hkind : forall x, x ∈ ds -> exists t', x = StateItem t' /\ t' <> t).
  { intros x Hx. destruct (inv_member _ _ _ _ _ _ _ x Hk Hl ltac:(by right)) as (_ & _ & _ & _ & _ & Hkx & _).
    destruct x as [t'|t']; [|done]. exists t'. split; [done|]. intros ->. done. }
  assert (Hvals : forall x, x ∈ ds -> a_val A1 x = a_val A x).
  { intros x Hx. destruct (Hkind x Hx) as (t' & -> & Hne). unfold a_val. by rewrite Hmo. }
  eapply wp_mono; [eapply (IH _ A1 ds dc1 Hk1 Hd1); simpl in Hf; lia|]. cbn beta.
  intros _ s' (A' & wk & rest & [Hsp Hst Hli Hdue Hnd' Hrd Hot] & Hk'). simpl in Hdue, Hnd', Hrd.
  assert (Hwk : forall x, x ∈ wk -> x ∈ ds) by (intros x Hx; rewrite Hsp; apply elem_of_app; by left).
  exists A', (StateItem t :: wk), rest. split; [|done]. constructor; try done.
  - by rewrite Hsp.
  - constructor; [lia|]. rewrite Forall_forall in *. intros x Hx. rewrite <- Hvals by auto. by apply Hdue.
  - rewrite Forall_forall in *. intros x Hx. rewrite <- Hvals by (rewrite Hsp; apply elem_of_app; by right). by apply Hnd'.
  - intros t' [ [= ->]|Hin]%elem_of_cons; [|by apply Hrd]. exists T. unfold cont in *.
    assert (StateItem t ∉ wk) by (intros ?; by apply Hnt, Hwk).
    split_and!; [exact HT|rewrite Hot by done; exact Hms|rewrite Hot by done; exact Hme].
  - intros i Hni. assert (StateItem (task_of i) ∉ wk) by (intros ?; apply Hni; by right).
    rewrite Hot by done. apply Hmo. intros Heq. apply Hni. rewrite Heq. by left.
Qed.

(** Delayed tasks are distinct tasks, so the loop's bound is enough. *)
Lemma delayed_length s A live ds dc :
  kinv None s A live -> am_lists A !! Delayed = Some (ds, dc) -> (length ds <= size (k_tcbs s))%nat.
Proof.
  intros Hk Hl. rewrite <- size_dom, <- (length_fmap task_of ds).
  assert (Hmem : forall i, i ∈ ds -> exists t, i = StateItem t /\ t ∈ dom (k_tcbs s)).
  { intros i Hi. destruct (inv_member _ _ _ _ _ _ _ i Hk Hl Hi) as (_ & T & _ & _ & _ & Hkd & HT).
    destruct i as [t|t]; [|done]. exists t. split; [done|]. by apply elem_of_dom_2 in HT. }
  rewrite <- (size_list_to_set (C := gset Z)).
  - apply subseteq_size. intros t. rewrite elem_of_list_to_set, list_elem_of_fmap. intros (i & -> & Hi).
    by destruct (Hmem i Hi) as (t & -> & ?).
  - assert (Hnd : NoDup ds) by (eapply wf_nodup; [eapply inv_wf; exact Hk|exact Hl]).
    clear Hl. induction Hnd as [|i ds Hn Hnd IH]; [constructor|]. simpl. constructor.
    + rewrite list_elem_of_fmap. intros (j & Heq & Hj).
      destruct (Hmem i ltac:(by left)) as (t & -> & _). destruct (Hmem j ltac:(by right)) as (t' & -> & _).
      simpl in Heq. congruence.
    + apply IH. intros j Hj. apply Hmem. by right.
Qed.

(** The tick after the count has been incremented. *)
Definition ticked s : kernel LS HS := set_tick (u32 (xTickCount s + 1)) s.

Lemma kinv_tick h s A live v : kinv h s A live -> in_u 32 v -> kinv h (set_tick v s) A live.
Proof. intros [] ?. by constructor. Qed.

Lemma wp_xTaskIncrementTick s A live ds dc :
  kinv None s A live -> am_lists A !! Delayed = Some (ds, dc) ->
  wp xTaskIncrementTick (fun _ s' => exists A' wk rest,
    woke (ticked s) s' A A' ds wk rest /\ kinv None s' A' live) s.
Proof.
  intros Hk Hl. unfold xTaskIncrementTick. apply wp_bind, wp_modify, wp_bind, wp_gets.
  eapply wp_wake_expired; [by apply kinv_tick; [|apply wrapu_range]|done|].
  simpl. pose proof (delayed_length _ _ _ _ _ Hk Hl). lia.
Qed.

(** ** Yielding and sleeping *)

Definition saved sp s : kernel LS HS := set_tcbs (alter (with_sp sp) (pxCurrentTCB s) (k_tcbs s)) s.

Lemma kinv_saved sp s A live : kinv None s A live -> kinv None (saved sp s) A live.
Proof.
  intros Hk. destruct (k_tcbs s !! pxCurrentTCB s) as [T|] eqn:HT; cycle 1.
  { unfold saved. rewrite alter_id by (intros ? HX; congruence). by destruct s. }
  destruct (inv_task _ _ _ _ _ Hk HT) as (sv & sc & ec & Hs & He & Hp).
  eapply (kinv_close _ _ _ (pxCurrentTCB s)); [apply kinv_set_tcb; [by apply kinv_open|done|done|]|simpl; by rewrite lookup_alter_eq, HT|done|done|done].
  intros T' HT'. exact (to_prio _ _ _ _ (ki_tcb _ _ _ _ Hk _ _ HT')).
Qed.

Lemma saved_current_ok sp s : yields_ok sp s -> current_ok (saved sp s).
Proof. intros Hy T. cbn. rewrite lookup_alter_eq. intros (C & HC & ->)%fmap_Some. by apply Hy. Qed.

Lemma wp_taskYIELD sp s A live C :
  kinv None s A live -> k_tcbs s !! pxCurrentTCB s = Some C -> yields_ok sp s -> (exists q, 0 <= q /\ occupied A q) ->
  wp (taskYIELD sp) (fun _ s' => exists A', switched (saved sp s) s' A A' /\ kinv None s' A' live) s.
Proof.
  intros Hk HC Hy Ho. unfold taskYIELD, st_tcb, ld_tcb. apply wp_bind, wp_gets, wp_bind, wp_bind.
  eapply wp_get_opt; [done|]. apply wp_modify. apply (wp_vTaskSwitchContext (saved sp s)); [by apply kinv_saved|by apply saved_current_ok|done].
Qed.

(** Leaving the ready list empties only the caller's own level. *)
Lemma unready_occupied s A live t T u U sv xs cur :
  kinv None s A live -> running s A t T -> u <> t -> k_tcbs s !! u = Some U ->
  am_items A !! StateItem u = Some (AItem sv u (Some (Ready (uxPriority U)))) ->
  am_lists A !! Ready (uxPriority T) = Some (xs, cur) ->
  occupied (a_out (Ready (uxPriority T)) xs cur (StateItem t) A) (uxPriority U).
Proof.
  intros Hk Hrun Hne HU Hu Hl. unfold occupied.
  assert (Hin : forall ys c, am_lists A !! Ready (uxPriority U) = Some (ys, c) -> StateItem u ∈ ys).
  { intros ys c Hys. apply (wf_mem A (inv_wf _ _ _ _ Hk) _ _ _ _ Hys). eauto. }
  destruct (wf_cont A (inv_wf _ _ _ _ Hk) _ _ _ Hu eq_refl) as [ [ys c] Hys]. specialize (Hin _ _ Hys).
  destruct (decide (uxPriority U = uxPriority T)) as [Heq|Hne'].
  - rewrite Heq in *. rewrite Hl in Hys. injection Hys as <- <-.
    destruct (running_items _ _ _ _ _ Hk Hrun) as (_ & xs' & cur' & _ & _ & Hl' & Hin'). rewrite Hl in Hl'. injection Hl' as <- <-.
    exists (remove1 (StateItem t) xs), (cursor_after_remove (StateItem t) xs cur).
    split; [unfold a_out, a_move; simpl; by rewrite lookup_insert_eq|]. intros Hnil.
    rewrite (remove1_perm _ _ Hin'), Hnil in Hin. apply list_elem_of_singleton in Hin. congruence.
  - exists ys, c. rewrite a_out_list_ne by congruence. split; [done|]. intros ->. by apply elem_of_nil in Hin.
Qed.

(** The effect of [vTaskDelay] on the caller and the choice of its successor. *)
Record delayed_by s s' A A' t T n sp : Prop := {
  db_tcbs : k_tcbs s' = alter (with_sp sp) t (k_tcbs s);
  db_state : am_items A' !! StateItem t = Some (AItem (u32 (xTickCount s + n)) t (Some Delayed));
  db_other : forall i, i <> StateItem t -> am_items A' !! i = am_items A !! i;
  db_current : exists u U, pxCurrentTCB s' = u /\ u <> t /\ k_tcbs s !! u = Some U /\
    cont A' (StateItem u) = Some (Some (Ready (uxPriority U))) /\
    forall q, uxPriority U < q -> ~ occupied A' q;
  db_tick : xTickCount s' = xTickCount s;
  db_nesting : uxCriticalNesting s' = uxCriticalNesting s }.

Lemma switched_next s A A' s' live :
  kinv None s A live -> switched s s' A A' -> exists u U, pxCurrentTCB s' = u /\ k_tcbs s !! u = Some U /\
    cont A (StateItem u) = Some (Some (Ready (uxPriority U))) /\ (forall q, uxPriority U < q -> ~ occupied A q) /\
    am_items A' = am_items A /\ (forall q, occupied A' q -> occupied A q).
Proof.
  intros Hk (m & p & xs & cur & u & U & -> & Hp & Hl & Hnc & -> & HU & Hpr & Hmax). exists u, U. split; [done|]. split; [done|].
  assert (Hin : StateItem u ∈ xs).
  { assert (xs <> []) as Hne by (intros ->; by destruct cur). destruct (next_cursor_elem cur xs Hne) as (k & Hk' & ?). by simplify_eq. }
  destruct (ready_member _ _ _ _ _ _ _ Hk Hl Hin) as (u' & U' & it & [= <-] & HU' & _ & Hi & _ & Hc).
  rewrite HU in HU'. injection HU' as <-. split; [unfold cont; rewrite Hi; simpl; by rewrite Hc, Hpr|].
  split; [by rewrite Hpr|]. split; [done|]. intros q (ys & c & Hys & Hne). simpl in Hys. rewrite lookup_insert in Hys.
  case_decide; simplify_eq; [by exists ys, cur|by exists ys, c].
Qed.

Lemma exit_critical n : 0 <= n < 2 ^ 64 - 1 -> (0 <? u64 (n + 1)) = true /\ u64 (n + 1) - 1 = n.
Proof. intros Hn. rewrite (wrapu_small 64) by (unfold in_u; lia). split; [apply Z.ltb_lt; lia|lia]. Qed.

(** The caller is off its ready list and delayed; it still runs. *)
Record parked_by s s' A A' t n : Prop := {
  pb_state : am_items A' !! StateItem t = Some (AItem (u32 (xTickCount s + n)) t (Some Delayed));
  pb_other : forall i, i <> StateItem t -> am_items A' !! i = am_items A !! i;
  pb_kernel : exists m b, s' = set_critical (uxCriticalNesting s) b (set_lists m s);
  pb_ready : forall u U, u <> t -> k_tcbs s !! u = Some U -> cont A (StateItem u) = Some (Some (Ready (uxPriority U))) -> occupied A' (uxPriority U) }.

Lemma wp_vTaskDelay_park s A live t T n :
  kinv None s A live -> running s A t T -> 0 < n < 2 ^ 32 -> 0 <= uxCriticalNesting s < 2 ^ 64 - 1 ->
  wp (vTaskDelay_park n) (fun _ s' => exists A', parked_by s s' A A' t n /\ kinv None s' A' live) s.
Proof.
  intros Hk Hrun Hn Hcn. unfold vTaskDelay_park.
  apply wp_bind, wp_gets. rewrite (rn_cur _ _ _ _ Hrun). apply wp_bind, wp_modify.
  set (s0 := set_critical _ true s). assert (Hk0 : kinv None s0 A live) by by apply kinv_critical.
  assert (Hrun0 : running s0 A t T) by (destruct Hrun; by constructor).
  apply wp_then. eapply wp_mono; [eapply (wp_sleep s0 A live t T n Hk0 Hrun0); unfold in_u; lia|].
  cbn beta. intros _ s1 (A1 & m & xs & cur & ds & dc & -> & Hk1 & Hl & Hd & HA1).
  destruct (running_items _ _ _ _ _ Hk Hrun) as (sv & xs' & cur' & Hs & _).
  assert (Hout : am_items (a_out (Ready (uxPriority T)) xs cur (StateItem t) A) !! StateItem t = Some (AItem sv t None)) by by erewrite a_out_item by done.
  destruct (exit_critical _ Hcn) as [Hx1 Hx2]. apply wp_modify. cbn [uxCriticalNesting set_lists].
  change (uxCriticalNesting s0) with (u64 (uxCriticalNesting s + 1)). rewrite Hx1, Hx2.
  match goal with |- context [kinv _ ?x] => assert (exists b, x = set_critical (uxCriticalNesting s) b (set_lists m s)) as [b ->] end.
  { destruct (uxCriticalNesting s =? 0); by eexists. }
  exists A1. split; [|exact (kinv_critical _ _ _ _ (uxCriticalNesting s) b Hk1)]. constructor.
  - rewrite HA1. by erewrite a_delay_state by done.
  - intros i Hi. rewrite HA1, a_delay_other, a_out_other by done. done.
  - by eexists m, b.
  - intros u U Hne HU Hu. destruct (inv_task _ _ _ _ _ Hk HU) as (uv & sc & ec & Hsu & _). unfold cont in Hu. rewrite Hsu in Hu. injection Hu as ->.
    destruct (unready_occupied _ _ _ _ _ _ _ _ _ _ Hk Hrun Hne HU Hsu Hl) as (ys & c & Hys & Hnn).
    exists ys, c. rewrite HA1, a_delay_list_ne by done. done.
Qed.

Lemma wp_vTaskDelay s A live t T u U n sp :
  kinv None s A live -> running s A t T -> 0 < n < 2 ^ 32 -> 0 <= uxCriticalNesting s < 2 ^ 64 - 1 -> yields_ok sp s ->
  u <> t -> k_tcbs s !! u = Some U -> cont A (StateItem u) = Some (Some (Ready (uxPriority U))) ->
  wp (vTaskDelay n sp) (fun _ s' => exists A', delayed_by s s' A A' t T n sp /\ kinv None s' A' live) s.
Proof.
  intros Hk Hrun Hn Hcn Hy Hne HU Hu. unfold vTaskDelay. rewrite (proj2 (Z.ltb_lt 0 n)) by lia.
  apply wp_bind. eapply wp_mono; [by eapply wp_vTaskDelay_park|]. cbn beta. intros _ ? (A1 & [Hst Hoth (m & b & ->) Hocc] & Hk2).
  eapply wp_mono.
  { eapply (wp_taskYIELD sp _ A1 live T); [exact Hk2|simpl; rewrite (rn_cur _ _ _ _ Hrun); apply Hrun|exact Hy|].
    exists (uxPriority U). split; [|by apply (Hocc u)]. apply (to_prio _ _ _ _ (ki_tcb _ _ _ _ Hk _ _ HU)). }
  cbn beta. intros _ s' (A' & Hsw & Hk'). exists A'. split; [|done].
  destruct (switched_next _ _ _ _ live (kinv_saved sp _ _ _ Hk2) Hsw) as (w & W & Hw & HW & Hcw & Hmax & Hit & Ho).
  destruct Hsw as (? & ? & ? & ? & ? & ? & -> & _). simpl in Hw. subst.
  constructor; simpl; try done; rewrite ?Hit; try done; [by rewrite (rn_cur _ _ _ _ Hrun)|].
  simpl in HW. rewrite (rn_cur _ _ _ _ Hrun) in HW.
  assert (Hwt : w <> t) by (intros ->; unfold cont in Hcw; rewrite Hst in Hcw; done).
  rewrite lookup_alter_ne in HW by done. exists w, W. split_and!; try done.
  - unfold cont in *. by rewrite Hit.
  - intros q Hq Hoq. by apply (Hmax q), Ho.
Qed.
End spec.
