(* ===== verification/TasksCreate.v ===== *)
(** * Task creation, start-up and the diagnostic queries

    [xTaskCreate] from either the boot state or a state satisfying the
    invariant: its allocation failures leave no block behind, and on success
    the new task is ready at its clamped priority with a painted stack, the
    port's context frame and a terminated name.  [uxTaskGetSnapshot] walks the
    registry and the stacks without leaving them. *)

From stdpp Require Import sorting.
From S2P Require Import Prelude Config Lists ListSpec ListRefine Alloc Tasks TasksInv TasksSpec.

(** ** Stack memory *)

Fixpoint fill_words (v p w : Z) (n : nat) (m : gmap Z Z) : gmap Z Z :=
  match n with O => m | S n => fill_words v p (w + 1) n (<[p + 8 * w := v]> m) end.

Lemma fill_words_out v p w n m a :
  (forall i, w <= i < w + Z.of_nat n -> a <> p + 8 * i) -> fill_words v p w n m !! a = m !! a.
Proof.
  revert w m. induction n as [|n IH]; intros w m Ha; [done|]. cbn [fill_words].
  rewrite IH by (intros i Hi; apply Ha; lia). rewrite lookup_insert_ne; [done|].
  intros Heq. apply (Ha w); lia.
Qed.

Lemma fill_words_in v p w n m i : w <= i < w + Z.of_nat n -> fill_words v p w n m !! (p + 8 * i) = Some v.
Proof.
  revert w m. induction n as [|n IH]; intros w m Hi; [lia|]. cbn [fill_words].
  destruct (decide (i = w)) as [->|]; [|apply IH; lia].
  rewrite fill_words_out by lia. by rewrite lookup_insert_eq.
Qed.

Lemma fill_words_some v p w n m a : is_Some (m !! a) -> is_Some (fill_words v p w n m !! a).
Proof.
  revert w m. induction n as [|n IH]; intros w m Ha; [done|]. cbn [fill_words]. apply IH.
  rewrite lookup_insert. case_decide; [by eexists|done].
Qed.

Lemma fresh_words_fill p n m : fresh_words p n m = fill_words 0 p 0 n m.
Proof.
  rewrite <- (Z.add_0_r p) at 1. change 0 with (8 * 0) at 1. generalize 0 at 1 3. intros w. revert w m.
  induction n as [|n IH]; intros w m; [done|]. cbn [fresh_words fill_words]. rewrite <- IH. f_equal. lia.
Qed.

(** ** The name *)

(** What the name loop leaves in [pcTaskName]: the characters before the
    first terminator, at most 15, then a terminator. *)
Fixpoint upto_nul (n : nat) (cs : list Z) : list Z :=
  match n, cs with
  | S n, c :: cs => if c =? 0 then [] else c :: upto_nul n cs
  | _, _ => []
  end.
Definition c_string (cs : list Z) (buf : list (option Z)) : Prop :=
  length buf = 16%nat /\ exists rest, buf = (Some <$> cs) ++ Some 0 :: rest.

Definition name_of (pcName : option (list Z)) : list Z :=
  match pcName with Some cs => upto_nul 15 cs | None => [] end.
Definition readable (pcName : option (list Z)) : Prop :=
  match pcName with Some cs => 0 ∈ cs \/ (16 <= length cs)%nat | None => True end.

Lemma copy_name_spec cs ux n name :
  (0 ∈ drop ux cs \/ (ux + n <= length cs)%nat) -> (ux + n <= length name)%nat ->
  exists name', copy_name (Some cs) ux n name = Some name' /\ length name' = length name /\
    (forall k, (k < ux)%nat -> name' !! k = name !! k) /\
    (forall k c, upto_nul n (drop ux cs) !! k = Some c -> name' !! (ux + k)%nat = Some (Some c)) /\
    ((length (upto_nul n (drop ux cs)) < n)%nat -> name' !! (ux + length (upto_nul n (drop ux cs)))%nat = Some (Some 0)).
Proof.
  revert ux name. induction n as [|n IH]; intros ux name Hr Hl; cbn [copy_name].
  { exists name. split_and!; try done. simpl. lia. }
  destruct (cs !! ux) as [c|] eqn:Hc; cycle 1.
  { apply lookup_ge_None in Hc. rewrite drop_ge in Hr by done. destruct Hr as [?%elem_of_nil|]; [done|lia]. }
  rewrite (drop_S cs c ux Hc) in Hr |- *. cbn. destruct (Z.eqb_spec c 0) as [->|Hne].
  - exists (<[ux:=Some 0]> name). split_and!; try done.
    + by rewrite length_insert.
    + intros k Hk. rewrite list_lookup_insert_ne by lia. done.
    + intros _. simpl. rewrite Nat.add_0_r, list_lookup_insert_eq; [done|lia].
  - destruct (IH (S ux) (<[ux:=Some c]> name)) as (name' & -> & Hlen & Hlow & Hin & Hz).
    { destruct Hr as [ [?|?]%elem_of_cons|?]; [congruence|by left|right; lia]. }
    { rewrite length_insert. lia. }
    exists name'. rewrite length_insert in Hlen. split_and!; try done.
    + intros k Hk. rewrite Hlow by lia. by rewrite list_lookup_insert_ne by lia.
    + intros [|k] d Hd; simpl in Hd.
      * injection Hd as ->. rewrite Nat.add_0_r, Hlow by lia. rewrite list_lookup_insert_eq; [done|lia].
      * rewrite <- Nat.add_succ_comm. by apply Hin.
    + simpl. intros Hlt. rewrite <- Nat.add_succ_comm. apply Hz. lia.
Qed.

Lemma upto_nul_length n cs : (length (upto_nul n cs) <= n)%nat.
Proof. revert cs. induction n as [|n IH]; intros [|c cs]; simpl; try lia. destruct (c =? 0); simpl; [lia|]. specialize (IH cs). lia. Qed.

Lemma upto_nul_S n cs k c : upto_nul n cs !! k = Some c -> upto_nul (S n) cs !! k = Some c.
Proof.
  revert cs k. induction n as [|n IH]; intros [|d cs] k; simpl; try done.
  destruct (d =? 0); [done|]. destruct k as [|k]; [done|]. simpl. apply IH.
Qed.
Lemma upto_nul_short n cs : (length (upto_nul n cs) < n)%nat -> upto_nul (S n) cs = upto_nul n cs.
Proof.
  revert cs. induction n as [|n IH]; intros [|d cs]; simpl; try lia; [done|].
  destruct (d =? 0); [done|]. simpl. intros. f_equal. apply IH. lia.
Qed.

Lemma task_name_spec pcName :
  readable pcName -> exists name, copy_name pcName 0 16 (replicate 16 None) = Some name /\
    c_string (name_of pcName) (<[15%nat := Some 0]> name).
Proof.
  destruct pcName as [cs|]; cycle 1.
  { intros _. eexists. split; [reflexivity|]. split; [done|]. eexists. reflexivity. }
  intros Hr. destruct (copy_name_spec cs 0 16 (replicate 16 None)) as (name & Hn & Hlen & _ & Hin & Hz).
  { done. } { rewrite length_replicate. lia. }
  rewrite length_replicate in Hlen. change (drop 0 cs) with cs in *. exists name. split; [exact Hn|]. unfold name_of. split; [by rewrite length_insert|].
  set (pre := upto_nul 15 cs) in *. pose proof (upto_nul_length 15 cs) as Hle.
  exists (drop (S (length pre)) (<[15%nat := Some 0]> name)). apply list_eq. intros k.
  destruct (Nat.lt_total k (length pre)) as [Hk|[->|Hk] ].
  - rewrite lookup_app_l by (by rewrite length_fmap). destruct (lookup_lt_is_Some_2 _ _ Hk) as [c Hc].
    rewrite list_lookup_fmap, Hc. rewrite list_lookup_insert_ne by (subst pre; lia).
    rewrite <- (Nat.add_0_l k). apply Hin. by apply upto_nul_S.
  - rewrite lookup_app_r by (by rewrite length_fmap). rewrite length_fmap, Nat.sub_diag. simpl.
    destruct (decide (length pre = 15%nat)) as [->|Hne]; [rewrite list_lookup_insert_eq; [done|lia]|].
    rewrite list_lookup_insert_ne by done. subst pre. rewrite (upto_nul_short 15) in Hz by lia. apply Hz. lia.
  - rewrite lookup_app_r by (rewrite length_fmap; lia). rewrite length_fmap.
    destruct (k - length pre)%nat as [|j] eqn:Hj; [lia|]. simpl. rewrite lookup_drop. f_equal. lia.
Qed.

(** ** Counting items *)

Lemma set_range_size (X : gset Z) N : (forall x, x ∈ X -> 0 <= x < N) -> 0 <= N -> Z.of_nat (size X) <= N.
Proof.
  intros HX HN. transitivity (Z.of_nat (size (list_to_set (seqZ 0 N) : gset Z))).
  - apply Nat2Z.inj_le, subseteq_size. intros x Hx. apply elem_of_list_to_set, elem_of_seqZ. specialize (HX x Hx). lia.
  - rewrite size_list_to_set by apply NoDup_seqZ. rewrite length_seqZ. lia.
Qed.

Section create.
Context `{Qs : Queues} {LS HS : Type} `{!ListOps item lst LS} `{!ListLaws item lst LS} `{!HeapOps HS} `{!HeapLaws HS}.
Context (sym : symbols).
Implicit Types (s : kernel LS HS) (A : amem item lst) (live : gmap Z Z) (t : Z) (T : TCB_t).

(** Items are pairs of addresses inside live TCBs, so their number is far from
    the width of the item counter. *)
Lemma items_bound h s A live : kinv h s A live -> Z.of_nat (size (am_items A)) + 2 < 2 ^ 64.
Proof.
  intros Hk. set (f i := match i with StateItem t => t | EventItem t => t + 1 end).
  assert (Hit : forall i, i ∈ dom (am_items A) -> exists t, task_of i = t /\ 0 < t /\ t + 136 <= 2 ^ 64 /\ (16 | t)).
  { intros i [it Hi]%elem_of_dom. destruct (ai_item _ _ _ _ (ki_ainv _ _ _ _ Hk) _ _ Hi) as (T & HT & _).
    exists (task_of i). split; [done|]. destruct (ki_tcb _ _ _ _ Hk _ _ HT) as [Hl _ _ _ _ _].
    destruct (hp_region _ _ _ _ (ki_heap _ _ _ _ Hk) Hl) as (? & _ & ? & ?). by split_and!. }
  assert (Hsz : Z.of_nat (size (list_to_set (f <$> elements (dom (am_items A))) : gset Z)) <= 2 ^ 64 - 134).
  { apply set_range_size; [|lia]. intros x. rewrite elem_of_list_to_set, list_elem_of_fmap.
    intros (i & -> & Hi%elem_of_elements). destruct (Hit i Hi) as (t & Ht & ? & ? & _). destruct i; simpl in *; lia. }
  rewrite size_list_to_set in Hsz; [rewrite length_fmap in Hsz; change (length (elements (dom (am_items A)))) with (size (dom (am_items A))) in Hsz; rewrite size_dom in Hsz; lia|].
  apply NoDup_fmap_2_strong; [|apply NoDup_elements]. intros i j Hi%elem_of_elements Hj%elem_of_elements.
  destruct (Hit i Hi) as (t & Ht & _ & _ & k & ->). destruct (Hit j Hj) as (t' & Ht' & _ & _ & k' & ->).
  destruct i, j; simpl in *; intros; f_equal; lia.
Qed.

(** ** Stack initialisation *)

Lemma wp_st_word s a v (Q : unit -> kernel LS HS -> Prop) :
  is_Some (k_stack s !! a) -> Q tt (set_stack (<[a := v]> (k_stack s)) s) -> wp (st_word a v) Q s.
Proof. intros [w Hw] HQ. unfold st_word, ld_word. apply wp_bind. eapply wp_get_opt; [done|]. by apply wp_modify. Qed.

Lemma wp_paint_stack s p w n :
  (forall i, w <= i < w + Z.of_nat n -> is_Some (k_stack s !! (p + 8 * i))) ->
  wp (paint_stack p w n) (fun _ s' => s' = set_stack (fill_words FLINT_STACK_FILL p w n (k_stack s)) s) s.
Proof.
  revert w s. induction n as [|n IH]; intros w s Hs; cbn [paint_stack fill_words]; [apply wp_ret; by destruct s|].
  apply wp_bind, wp_st_word; [apply Hs; lia|]. eapply wp_mono; [apply IH|by intros _ s' ->].
  intros i Hi. simpl. rewrite lookup_insert. case_decide; [by eexists|]. apply Hs. lia.
Qed.

Lemma wp_zero_slots s p w n :
  (forall i, w <= i < w + Z.of_nat n -> is_Some (k_stack s !! (p + 8 * i))) ->
  wp (zero_slots p w n) (fun _ s' => s' = set_stack (fill_words 0 p w n (k_stack s)) s) s.
Proof.
  revert w s. induction n as [|n IH]; intros w s Hs; cbn [zero_slots fill_words]; [apply wp_ret; by destruct s|].
  apply wp_bind, wp_st_word; [apply Hs; lia|]. eapply wp_mono; [apply IH|by intros _ s' ->].
  intros i Hi. simpl. rewrite lookup_insert. case_decide; [by eexists|]. apply Hs. lia.
Qed.

(** The 34-slot frame at [sp]. *)
Definition frame_words (sp pxCode pvParameters : Z) (m : gmap Z Z) : gmap Z Z :=
  <[sp + 8 * CTX_ELR := pxCode]> (<[sp + 8 * CTX_SPSR := INITIAL_SPSR]>
    (<[sp + 8 * 30 := vPortTaskExit_addr sym]> (<[sp + 8 * 0 := pvParameters]>
      (fill_words 0 sp 0 (Z.to_nat CTX_SLOTS) m)))).

Lemma frame_words_some sp c p m a : is_Some (m !! a) -> is_Some (frame_words sp c p m !! a).
Proof.
  intros Ha. unfold frame_words. pose proof (fill_words_some 0 sp 0 (Z.to_nat CTX_SLOTS) m a Ha).
  rewrite !lookup_insert. repeat case_decide; by eauto.
Qed.
Lemma frame_words_out sp c p m a : ~ sp <= a < sp + 8 * CTX_SLOTS -> frame_words sp c p m !! a = m !! a.
Proof.
  intros Ha. unfold frame_words, CTX_ELR, CTX_SPSR, CTX_SLOTS in *. rewrite !lookup_insert_ne by lia.
  apply fill_words_out. lia.
Qed.

Lemma wp_pxPortInitialiseStack s top code param :
  0 <= top - 272 < 2 ^ 64 -> (forall i, 0 <= i < 34 -> is_Some (k_stack s !! (top - 272 + 8 * i))) ->
  wp (pxPortInitialiseStack sym top code param) (fun sp s' => sp = top - 272 /\
    s' = set_stack (frame_words (top - 272) code param (k_stack s)) s) s.
Proof.
  intros Ht Hs. unfold pxPortInitialiseStack. cbv zeta. change (8 * CTX_SLOTS) with 272.
  rewrite (wrapu_small 64) by done.
  assert (Hf : forall i, 0 <= i < 34 -> is_Some (fill_words 0 (top - 272) 0 (Z.to_nat CTX_SLOTS) (k_stack s) !! (top - 272 + 8 * i))).
  { intros i Hi. by apply fill_words_some, Hs. }
  apply wp_bind. eapply wp_mono; [apply wp_zero_slots; intros i Hi; apply Hs; unfold CTX_SLOTS in *; lia|].
  cbn beta. intros _ ? ->. unfold frame_words, CTX_SPSR, CTX_ELR in *.
  set (fw := fill_words 0 (top - 272) 0 (Z.to_nat CTX_SLOTS) (k_stack s)) in *. clearbody fw.
  do 4 (apply wp_bind, wp_st_word;
    [cbn [k_stack set_stack]; repeat (apply lookup_insert_is_Some'; right); apply Hf; lia|]).
  apply wp_ret. done.
Qed.

(** The aligned top of a stack of [d] words and the frame below it. *)
Definition stack_top (p d : Z) : Z := p + 8 * (d - 1) - 8 * ((d - 1) mod 2).

Lemma align_top p d : (16 | p) -> 0 < p -> 1 <= d < 2 ^ 32 -> p + 8 * d <= 2 ^ 64 ->
  Z.land (u64 (p + 8 * u32 (d - 1))) (notu 64 portBYTE_ALIGNMENT_MASK) = stack_top p d.
Proof.
  intros [k ->] Hp Hd Hr. rewrite (wrapu_small 32) by (unfold in_u; lia). rewrite (wrapu_small 64) by (unfold in_u; lia).
  set (x := k * 16 + 8 * (d - 1)). assert (Hx : in_u 64 x) by (unfold in_u; lia).
  transitivity (Z.shiftl (Z.shiftr x 4) 4).
  - bitwise i Hi. change portBYTE_ALIGNMENT_MASK with 15. change 15 with (Z.ones 4).
    rewrite Z.testbit_ones_nonneg by lia. destruct (Z.ltb_spec i 4).
    + rewrite andb_false_r, andb_false_r. rewrite Z.testbit_neg_r by lia. done.
    + rewrite Z.shiftr_spec by lia. replace (i - 4 + 4) with i by lia. destruct (Z.ltb_spec i 64); [by rewrite andb_true_r|].
      rewrite (testbit_high 64 x) by (done || lia). done.
  - rewrite Z.shiftr_div_pow2, Z.shiftl_mul_pow2 by lia. unfold stack_top. subst x. change (2 ^ 4) with 16.
    pose proof (Z.div_mod (d - 1) 2 ltac:(lia)) as Hdm. pose proof (Z.mod_pos_bound (d - 1) 2 ltac:(lia)).
    replace (k * 16 + 8 * (d - 1)) with (8 * ((d - 1) mod 2) + (k + (d - 1) / 2) * 16) by lia.
    rewrite Z.div_add by lia. rewrite (Z.div_small (8 * _)) by lia. lia.
Qed.

(** ** The new task's items *)

Definition a_new t v A : amem item lst :=
  AMem (<[EventItem t := AItem v t None]> (<[StateItem t := AItem 0 t None]> (am_items A))) (am_lists A).

Lemma wp_new_items {B} (k : M (kernel LS HS) B) Q s A t v :
  ls_rep (k_lists s) A -> am_items A !! StateItem t = None -> am_items A !! EventItem t = None ->
  Z.of_nat (size (am_items A)) + 2 < 2 ^ 64 -> in_u 32 v ->
  (forall m, ls_rep m (a_new t v A) -> wp k Q (set_lists m s)) ->
  wp (onL (ls_InitialiseItem (StateItem t));; onL (ls_InitialiseItem (EventItem t));;
      onL (ls_SET_OWNER (StateItem t) t);; onL (ls_SET_OWNER (EventItem t) t);;
      onL (ls_SET_VALUE (EventItem t) v);; k) Q s.
Proof.
  intros Hr Hs He Hsz Hv Hk.
  apply wp_bind, wp_onL. eapply wp_mono; [eapply ls_init_item_spec; [done|by rewrite Hs|lia]|]. cbn beta. intros _ m1 Hr1.
  apply wp_bind, wp_onL. eapply wp_mono.
  { eapply ls_init_item_spec; [exact Hr1|simpl; by rewrite lookup_insert_ne, He|].
    simpl. rewrite map_size_insert_None by done. lia. }
  cbn beta. intros _ m2 Hr2. do 2 (apply wp_bind, wp_onL; eapply wp_mono;
    [eapply ls_set_owner_spec; [eassumption|by simplify_map_eq]|]; cbn beta; intros _ ? ?).
  apply wp_bind, wp_onL. eapply wp_mono; [eapply ls_set_value_spec; [eassumption|by simplify_map_eq|done]|].
  cbn beta. intros _ m3 Hr3. apply Hk. simpl. eapply eq_ind; [exact Hr3|].
  unfold a_set_value, a_set_owner, a_init_item, a_new; simpl. f_equal. apply map_eq. intros i.
  destruct (decide (i = EventItem t)) as [->|]; [by simplify_map_eq|].
  destruct (decide (i = StateItem t)) as [->|]; by simplify_map_eq.
Qed.

Lemma ainv_new tcbs top A t T :
  ainv None tcbs top A -> tcbs !! t = None -> am_wf (a_new t (32 - uxBasePriority T) A) ->
  ainv (Some t) (<[t := T]> tcbs) top (a_new t (32 - uxBasePriority T) A).
Proof.
  intros [Hwf Hit Htk Hco Hso Htop] Ht Hwf'.
  assert (Hno : forall i, task_of i = t -> am_items A !! i = None).
  { intros i Hi. apply eq_None_not_Some. intros [it Hx]. destruct (Hit _ _ Hx) as (? & HT & _). congruence. }
  constructor; simpl; try done.
  - intros i it Hi. destruct (decide (task_of i = t)) as [<-|Hne].
    + exists T. rewrite lookup_insert_eq. split; [done|].
      destruct i; rewrite ?lookup_insert_eq in Hi; [rewrite lookup_insert_ne, lookup_insert_eq in Hi by done|];
        injection Hi as <-; split_and!; try done.
    + rewrite !lookup_insert_ne in Hi by (intros <-; done). rewrite lookup_insert_ne by done. by apply Hit.
  - intros t' T'. rewrite lookup_insert. case_decide; subst.
    + intros [= <-]. exists (AItem 0 t' None), (AItem (32 - uxBasePriority T) t' None).
      split_and!; [by rewrite lookup_insert_ne, lookup_insert_eq|by rewrite lookup_insert_eq|done].
    + intros HT'. destruct (Htk _ _ HT') as (si & ei & Hsi & Hei & Hp). exists si, ei.
      rewrite !lookup_insert_ne by congruence. split_and!; try done. intros _. by apply Hp.
  - intros l xs cur Hl Hs. eapply sorted_by_ext; [|by eapply Hso]. intros x Hx.
    apply (wf_mem A Hwf _ _ _ _ Hl) in Hx as (it & Hx & _). unfold a_val. simpl.
    rewrite !lookup_insert_ne; [done|intros <-; by rewrite Hno in Hx|intros <-; by rewrite Hno in Hx].
  - intros t' it p. rewrite !lookup_insert. repeat case_decide; simplify_eq; [by intros [= <-]|]. apply Htop.
Qed.

(** ** xTaskCreate *)

Definition clamp_priority (p : Z) : Z := if configMAX_PRIORITIES <=? p then configMAX_PRIORITIES - 1 else p.

(** The arguments of a call that does not write outside its own stack. *)
Record create_args := CreateArgs { ca_code : Z; ca_name : option (list Z); ca_depth : Z; ca_param : Z; ca_prio : Z }.
Record args_ok (a : create_args) : Prop := {
  ao_name : readable (ca_name a);
  ao_depth : 35 <= ca_depth a < 2 ^ 32;
  ao_prio : 0 <= ca_prio a }.
Definition create (a : create_args) : M (kernel LS HS) (Z * option Z) :=
  xTaskCreate sym (ca_code a) (ca_name a) (ca_depth a) (ca_param a) (ca_prio a).

Record created (a : create_args) s s' A A' live live' t T : Prop := {
  cr_tcbs : k_tcbs s' = <[t := T]> (k_tcbs s);
  cr_fresh : k_tcbs s !! t = None;
  cr_prio : uxPriority T = clamp_priority (ca_prio a) /\ uxBasePriority T = clamp_priority (ca_prio a);
  cr_name : c_string (name_of (ca_name a)) (pcTaskName T);
  cr_sp : pxTopOfStack T = stack_top (pxStack T) (ca_depth a) - 8 * CTX_SLOTS;
  cr_stack : k_stack s' = frame_words (pxTopOfStack T) (ca_code a) (ca_param a)
    (fill_words FLINT_STACK_FILL (pxStack T) 0 (Z.to_nat (ca_depth a))
      (fill_words 0 (pxStack T) 0 (Z.to_nat (ca_depth a)) (k_stack s)));
  cr_live : live !! pxStack T = None /\ live !! t = None /\ pxStack T <> t /\
    live' = <[t := sizeof_TCB_t]> (<[pxStack T := 8 * ca_depth a]> live);
  cr_state : cont A' (StateItem t) = Some (Some (Ready (uxPriority T)));
  cr_event : cont A' (EventItem t) = Some None;
  cr_other : forall i, task_of i <> t -> am_items A' !! i = am_items A !! i;
  cr_current : pxCurrentTCB s' = if pxCurrentTCB s =? 0 then t else pxCurrentTCB s;
  cr_count : uxCurrentNumberOfTasks s' = u64 (uxCurrentNumberOfTasks s + 1);
  cr_tick : xTickCount s' = xTickCount s;
  cr_nesting : uxCriticalNesting s' = uxCriticalNesting s }.

Definition new_task (a : create_args) p name : TCB_t :=
  TCB (stack_top p (ca_depth a) - 272) (clamp_priority (ca_prio a)) (clamp_priority (ca_prio a)) p (ca_depth a) name.
Definition new_stack (a : create_args) p m : gmap Z Z :=
  frame_words (stack_top p (ca_depth a) - 272) (ca_code a) (ca_param a)
    (fill_words FLINT_STACK_FILL p 0 (Z.to_nat (ca_depth a)) (fill_words 0 p 0 (Z.to_nat (ca_depth a)) m)).

Lemma clamp_range p : 0 <= p -> 0 <= clamp_priority p < 32.
Proof. unfold clamp_priority, configMAX_PRIORITIES. destruct (Z.leb_spec 32 p); lia. Qed.

Lemma stack_top_bounds p d : 35 <= d -> p + 272 <= stack_top p d <= p + 8 * (d - 1) /\ exists k, stack_top p d = p + 8 * k.
Proof.
  intros Hd. unfold stack_top. pose proof (Z.mod_pos_bound (d - 1) 2 ltac:(lia)).
  split; [|exists (d - 1 - (d - 1) mod 2); lia].
  destruct (decide (d = 35)) as [->|]; [change ((35 - 1) mod 2) with 0; lia|lia].
Qed.

Lemma new_tcb_ok a p name m live t :
  args_ok a -> live !! t = Some sizeof_TCB_t -> live !! p = Some (8 * ca_depth a) ->
  tcb_ok (new_stack a p m) live t (new_task a p name).
Proof.
  intros [_ Hd Hp] Ht Hs. pose proof (clamp_range _ Hp). constructor; simpl; try done; [lia|].
  intros i Hi. apply frame_words_some, fill_words_some. rewrite fill_words_in by lia. by eexists.
Qed.

Lemma tcb_ok_mono m m' live live' t T :
  tcb_ok m live t T -> (forall a, is_Some (m !! a) -> is_Some (m' !! a)) -> live ⊆ live' -> tcb_ok m' live' t T.
Proof.
  intros [] Hm Hl. constructor; try done; eauto using lookup_weaken.
Qed.

Lemma registry_add reg n tcbs t T :
  registry_ok reg n tcbs -> n < configMAX_TASKS -> registry_ok (<[Z.to_nat n := t]> reg) (n + 1) (<[t := T]> tcbs).
Proof.
  intros [Hl Hr He] Hn. constructor; [by rewrite length_insert|lia|]. intros i Hi.
  destruct (decide (i = n)) as [->|].
  - exists t. rewrite list_lookup_insert_eq by lia. rewrite lookup_insert_eq. split; [done|by eexists].
  - destruct (He i ltac:(lia)) as (t' & Ht' & ?). exists t'. rewrite list_lookup_insert_ne by lia.
    split; [done|]. apply lookup_insert_is_Some'. by right.
Qed.
Lemma registry_mono reg n tcbs t T : registry_ok reg n tcbs -> registry_ok reg n (<[t := T]> tcbs).
Proof.
  intros [Hl Hr He]. constructor; try done. intros i Hi. destruct (He i Hi) as (t' & Ht' & ?).
  exists t'. split; [done|]. apply lookup_insert_is_Some'. by right.
Qed.

(** The state the critical section of [xTaskCreate] builds before the task is
    made ready. *)
Definition enrolled t s : kernel LS HS :=
  let s1 := set_count (u64 (uxCurrentNumberOfTasks s + 1)) (set_critical (u64 (uxCriticalNesting s + 1)) true s) in
  let s2 := if uxRegisteredTasks s <? configMAX_TASKS
            then set_registry (<[Z.to_nat (uxRegisteredTasks s) := t]> (pxTaskRegistry s)) (uxRegisteredTasks s + 1) s1 else s1 in
  if pxCurrentTCB s =? 0 then set_current t s2 else s2.

Lemma enrolled_fields t s :
  k_tcbs (enrolled t s) = k_tcbs s /\ k_stack (enrolled t s) = k_stack s /\
  pxCurrentTCB (enrolled t s) = (if pxCurrentTCB s =? 0 then t else pxCurrentTCB s) /\
  uxCurrentNumberOfTasks (enrolled t s) = u64 (uxCurrentNumberOfTasks s + 1) /\
  uxCriticalNesting (enrolled t s) = u64 (uxCriticalNesting s + 1) /\ xTickCount (enrolled t s) = xTickCount s.
Proof. unfold enrolled. cbv zeta. by destruct (_ <? configMAX_TASKS), (_ =? 0). Qed.

Lemma wp_enrol {B} (k : M (kernel LS HS) B) Q s t :
  wp k Q (enrolled t s) ->
  wp (taskENTER_CRITICAL;; modify (fun s => set_count (u64 (uxCurrentNumberOfTasks s + 1)) s);;
      n ← gets uxRegisteredTasks;
      (if n <? configMAX_TASKS then
         modify (fun s => set_registry (<[Z.to_nat n := t]> (pxTaskRegistry s)) (n + 1) s)
       else mret tt);;
      cur ← gets pxCurrentTCB;
      (if cur =? 0 then modify (set_current t) else mret tt);; k) Q s.
Proof.
  intros Hk. apply wp_bind, wp_modify, wp_bind, wp_modify, wp_bind, wp_gets, wp_bind.
  unfold enrolled in Hk. cbv zeta in Hk. cbn [uxRegisteredTasks set_count set_critical].
  destruct (uxRegisteredTasks s <? configMAX_TASKS); [apply wp_modify|apply wp_ret];
    apply wp_bind, wp_gets, wp_bind; cbn [pxCurrentTCB set_count set_critical set_registry];
    (destruct (pxCurrentTCB s =? 0); [apply wp_modify|apply wp_ret]; exact Hk).
Qed.

Lemma kinv_enrol s s0 A live live' t T m :
  kinv None s A live -> live ⊆ live' -> k_tcbs s !! t = None -> t <> 0 -> hp_rep (k_heap s0) live' ->
  k_lists s0 = m -> ls_rep m (a_new t (32 - uxBasePriority T) A) ->
  k_tcbs s0 = <[t := T]> (k_tcbs s) -> (forall a, is_Some (k_stack s !! a) -> is_Some (k_stack s0 !! a)) ->
  tcb_ok (k_stack s0) live' t T -> pxCurrentTCB s0 = pxCurrentTCB s -> uxTopReadyPriority s0 = uxTopReadyPriority s ->
  xTickCount s0 = xTickCount s -> xListsInitialised s0 = xListsInitialised s ->
  uxRegisteredTasks s0 = uxRegisteredTasks s -> pxTaskRegistry s0 = pxTaskRegistry s ->
  kinv (Some t) (enrolled t s0) (a_new t (32 - uxBasePriority T) A) live'.
Proof.
  intros Hk Hlive Hnew Hn0 Hh Hm Hr Ht Hst Hok Hc Htop Htick Hli Hrn Hrg. destruct Hk as [_ _ Ha Htc Hi Htp Htk Hcu Hrk].
  assert (Hcore : forall s1, k_lists s1 = k_lists s0 -> k_heap s1 = k_heap s0 -> k_tcbs s1 = k_tcbs s0 -> k_stack s1 = k_stack s0 ->
    uxTopReadyPriority s1 = uxTopReadyPriority s0 -> xTickCount s1 = xTickCount s0 -> xListsInitialised s1 = xListsInitialised s0 ->
    is_Some (k_tcbs s0 !! pxCurrentTCB s1) -> registry_ok (pxTaskRegistry s1) (uxRegisteredTasks s1) (k_tcbs s0) ->
    kinv (Some t) s1 (a_new t (32 - uxBasePriority T) A) live').
  { intros s1 E1 E2 E3 E4 E5 E6 E7 Hcur Hreg. constructor; rewrite ?E1, ?E2, ?E3, ?E4, ?E5, ?E6, ?E7, ?Htop, ?Htick, ?Hli; try done.
    - by rewrite Hm.
    - rewrite Ht. apply ainv_new; [done|done|]. exact (ls_rep_wf _ _ Hr).
    - intros t' T'. rewrite Ht, lookup_insert. case_decide as E; [subst t'; by intros [= <-]|]. intros HT'.
      eapply tcb_ok_mono; [by apply Htc|done|done].
    - by right. }
  assert (Hreg : forall s1, pxTaskRegistry s1 = pxTaskRegistry s -> uxRegisteredTasks s1 = uxRegisteredTasks s ->
    registry_ok (pxTaskRegistry s1) (uxRegisteredTasks s1) (k_tcbs s0)) by (intros s1 -> ->; rewrite Ht; by apply registry_mono).
  unfold enrolled. rewrite Hc, Hrn, Hrg.
  assert (Hcur : is_Some (k_tcbs s0 !! (if pxCurrentTCB s =? 0 then t else pxCurrentTCB s))).
  { rewrite Ht. destruct (Z.eqb_spec (pxCurrentTCB s) 0) as [_|Hne]; [rewrite lookup_insert_eq; by eexists|].
    destruct Hcu as [ [_ ?]|HC]; [done|]. apply lookup_insert_is_Some'. by right. }
  cbv zeta. destruct (Z.ltb_spec (uxRegisteredTasks s) configMAX_TASKS);
    destruct (pxCurrentTCB s =? 0); apply Hcore; try done; simpl; rewrite ?Hc; try done.
  1,2: rewrite Ht; by apply registry_add. all: by apply Hreg.
Qed.

(** The code of [xTaskCreate] once both blocks are allocated. *)
Lemma wp_create_body a s A live p t h :
  let live' := <[t := sizeof_TCB_t]> (<[p := 8 * ca_depth a]> live) in
  kinv None s A live -> args_ok a -> live !! p = None -> live !! t = None -> p <> t -> hp_rep h live' ->
  0 <= uxCriticalNesting s < 2 ^ 64 - 1 ->
  wp (modify (fun s => set_stack (fresh_words p (Z.to_nat (ca_depth a)) (k_stack s)) s);;
      paint_stack p 0 (Z.to_nat (ca_depth a));;
      name ← of_opt (copy_name (ca_name a) 0 (Z.to_nat configMAX_TASK_NAME_LEN) (replicate 16 None));
      let name := <[15%nat := Some 0]> name in
      onL (ls_InitialiseItem (StateItem t));;
      onL (ls_InitialiseItem (EventItem t));;
      onL (ls_SET_OWNER (StateItem t) t);;
      onL (ls_SET_OWNER (EventItem t) t);;
      onL (ls_SET_VALUE (EventItem t) (u32 (configMAX_PRIORITIES - clamp_priority (ca_prio a))));;
      let top := Z.land (u64 (p + 8 * u32 (ca_depth a - 1))) (notu 64 portBYTE_ALIGNMENT_MASK) in
      sp ← pxPortInitialiseStack sym top (ca_code a) (ca_param a);
      modify (fun s => set_tcbs (<[t := TCB sp (clamp_priority (ca_prio a)) (clamp_priority (ca_prio a)) p (ca_depth a) name]> (k_tcbs s)) s);;
      taskENTER_CRITICAL;;
      modify (fun s => set_count (u64 (uxCurrentNumberOfTasks s + 1)) s);;
      n ← gets uxRegisteredTasks;
      (if n <? configMAX_TASKS then
         modify (fun s => set_registry (<[Z.to_nat n := t]> (pxTaskRegistry s)) (n + 1) s)
       else mret tt);;
      cur ← gets pxCurrentTCB;
      (if cur =? 0 then modify (set_current t) else mret tt);;
      prvAddTaskToReadyList t;;
      taskEXIT_CRITICAL;;
      mret (pdPASS, Some t))
    (fun r s' => r = (pdPASS, Some t) /\ exists A' T, created a s s' A A' live live' t T /\ kinv None s' A' live') (set_heap h s).
Proof.
  intros live' Hk Ha Hp Ht Hpt Hh Hcn. pose proof (ao_depth _ Ha) as Hd. pose proof (clamp_range _ (ao_prio _ Ha)) as Hpr.
  assert (Hlp : live' !! p = Some (8 * ca_depth a)) by (subst live'; by simplify_map_eq).
  assert (Hlt : live' !! t = Some sizeof_TCB_t) by (subst live'; by simplify_map_eq).
  destruct (hp_region _ _ _ _ Hh Hlp) as (Hp0 & _ & Hpe & Hpa). destruct (hp_region _ _ _ _ Hh Hlt) as (Ht0 & _).
  assert (Hnew : k_tcbs s !! t = None).
  { apply eq_None_not_Some. intros [T HT]. destruct (ki_tcb _ _ _ _ Hk _ _ HT). congruence. }
  assert (Hitems : forall i, task_of i = t -> am_items A !! i = None).
  { intros i Hi. apply eq_None_not_Some. intros [it Hx]. destruct (ai_item _ _ _ _ (ki_ainv _ _ _ _ Hk) _ _ Hx) as (? & ? & _). congruence. }
  destruct (stack_top_bounds p (ca_depth a) (proj1 Hd)) as (Hst & k & Hstk).
  apply wp_bind, wp_modify, wp_bind. rewrite fresh_words_fill. cbn [k_stack set_heap].
  eapply wp_mono; [apply wp_paint_stack; intros i Hi; simpl; rewrite fill_words_in by lia; by eexists|].
  cbn beta. intros _ ? ->. destruct (task_name_spec _ (ao_name _ Ha)) as (name & Hname & Hstr).
  change (Z.to_nat configMAX_TASK_NAME_LEN) with 16%nat. rewrite Hname. apply wp_bind, wp_of_opt. cbv zeta.
  rewrite (wrapu_small 32 (configMAX_PRIORITIES - _)) by (unfold in_u, configMAX_PRIORITIES; lia).
  eapply wp_new_items; [apply Hk|by apply Hitems|by apply Hitems|by eapply items_bound|unfold in_u, configMAX_PRIORITIES; lia|].
  intros m Hr. rewrite align_top by (done || lia). apply wp_bind.
  eapply wp_mono; [apply wp_pxPortInitialiseStack; [lia|]|].
  { intros i Hi. rewrite Hstk. replace (p + 8 * k - 272 + 8 * i) with (p + 8 * (k - 34 + i)) by lia. simpl.
    rewrite fill_words_in by lia. by eexists. }
  cbn beta. intros sp ? [-> ->]. apply wp_bind, wp_modify.
  set (T := TCB _ _ _ _ _ _). apply wp_enrol.
  match goal with |- wp _ _ (enrolled t ?x) => set (s0 := x) end.
  assert (Hk0 : kinv (Some t) (enrolled t s0) (a_new t (32 - uxBasePriority T) A) live').
  { eapply (kinv_enrol s s0 A live); try done; [| lia | |].
    - subst live'. transitivity (<[p := 8 * ca_depth a]> live); by apply insert_subseteq; simplify_map_eq.
    - intros b Hb. apply frame_words_some, fill_words_some, fill_words_some. done.
    - by eapply (new_tcb_ok a p (<[15%nat := Some 0]> name) (k_stack s)). }
  assert (HT : k_tcbs (enrolled t s0) !! t = Some T).
  { rewrite (proj1 (enrolled_fields t s0)). simpl. by rewrite lookup_insert_eq. }
  apply wp_bind. eapply wp_mono.
  { eapply (wp_add_ready t T _ _ _ (AItem 0 t None) (AItem (32 - uxBasePriority T) t None) Hk0 HT);
      [by unfold a_new; simplify_map_eq|done|by unfold a_new; simplify_map_eq|done]. }
  cbn beta. intros _ ? (m' & v & A' & -> & Hk1 & [Hms Hme Hmo] & _). apply wp_bind, wp_modify, wp_ret. split; [done|].
  exists A', T.
  destruct (enrolled_fields t s0) as (F1 & F2 & F3 & F4 & F5 & F6). cbn [uxCriticalNesting set_lists set_top].
  rewrite F5, (wrapu_small 64) by (unfold in_u; simpl; lia). rewrite (proj2 (Z.ltb_lt 0 _)) by (simpl; lia).
  replace (uxCriticalNesting s0 + 1 - 1) with (uxCriticalNesting s) by (simpl; lia).
  match goal with |- created _ _ ?x _ _ _ _ _ _ /\ _ => assert (exists b, x = set_critical (uxCriticalNesting s) b (set_lists m' (set_top v (enrolled t s0)))) as [b ->] end.
  { destruct (uxCriticalNesting s =? 0); [by exists false|by exists (irq_masked (enrolled t s0))]. }
  split.
  - constructor; simpl; rewrite ?F1, ?F2, ?F3, ?F4, ?F6; try done.
    intros i Hi. rewrite Hmo by done. unfold a_new. simpl. by rewrite !lookup_insert_ne by (intros <-; done).
  - by apply kinv_critical.
Qed.

Lemma kinv_heap h' s A live live' :
  kinv None s A live -> hp_rep h' live' -> live ⊆ live' -> kinv None (set_heap h' s) A live'.
Proof.
  intros [? ? ? Ht ? ? ? ? ?] Hh Hl. constructor; try done. intros t T HT.
  eapply tcb_ok_mono; [by apply Ht|done|done].
Qed.

(** The two outcomes of [xTaskCreate]. *)
Definition create_post (a : create_args) s A live (r : Z * option Z) s' : Prop :=
  (r = (errCOULD_NOT_ALLOCATE_REQUIRED_MEMORY, None) /\ exists h, s' = set_heap h s /\ kinv None s' A live) \/
  (exists t T A' live', r = (pdPASS, Some t) /\ created a s s' A A' live live' t T /\ kinv None s' A' live').

Lemma wp_xTaskCreate a s A live :
  kinv None s A live -> args_ok a -> 0 <= uxCriticalNesting s < 2 ^ 64 - 1 ->
  wp (create a) (create_post a s A live) s.
Proof.
  intros Hk Ha Hn. pose proof (ao_depth _ Ha) as Hd. unfold create, xTaskCreate. cbv zeta.
  apply wp_bind, wp_gets, wp_bind. rewrite (ki_init _ _ _ _ Hk). cbn [Z.eqb pdTRUE pdFALSE]. apply wp_ret.
  unfold sizeof_StackType_t. rewrite (wrapu_small 64) by (unfold in_u; lia). replace (ca_depth a * 8) with (8 * ca_depth a) by lia.
  apply wp_bind, wp_zoom. eapply wp_mono; [apply (hp_malloc_spec _ _ _ (ki_heap _ _ _ _ Hk)); lia|].
  cbn beta. intros p h1 [ [-> Hh]|(Hp0 & Hfresh & Hh)].
  { cbn. apply wp_ret. left. split; [done|]. exists h1. split; [done|]. by eapply kinv_heap. }
  rewrite (proj2 (Z.eqb_neq p 0) Hp0). apply wp_bind, wp_zoom.
  eapply wp_mono; [apply (hp_malloc_spec _ _ sizeof_TCB_t Hh); unfold sizeof_TCB_t; lia|].
  cbn beta. intros t h2 [ [-> Hh2]|(Ht0 & Hfresh2 & Hh2)].
  { cbn -[mbind]. apply wp_bind, wp_zoom. eapply wp_mono; [eapply (hp_free_spec _ _ p Hh2); right; rewrite lookup_insert_eq; by eexists|].
    cbn beta. intros _ h3 Hh3. rewrite delete_insert_id in Hh3 by done. apply wp_ret. left. split; [done|]. exists h3.
    split; [done|]. by eapply (kinv_heap h3 s). }
  rewrite (proj2 (Z.eqb_neq t 0) Ht0).
  assert (p <> t) by (intros ->; by rewrite lookup_insert_eq in Hfresh2). rewrite lookup_insert_ne in Hfresh2 by done.
  eapply wp_mono; [by eapply (wp_create_body a s A live p t h2)|].
  cbn beta. intros r s' (-> & A' & T & Hc & Hk'). right. by exists t, T, A', (<[t:=sizeof_TCB_t]> (<[p:=8 * ca_depth a]> live)).
Qed.

(** ** Boot *)

(** The state the C start-up code leaves: zeroed statics, an initialised heap. *)
Record kboot s live : Prop := {
  kb_queues : queues = ∅;
  kb_rep : ls_rep (k_lists s) (AMem ∅ ∅);
  kb_heap : hp_rep (k_heap s) live;
  kb_tcbs : k_tcbs s = ∅;
  kb_cur : pxCurrentTCB s = 0;
  kb_top : uxTopReadyPriority s = 0;
  kb_tick : xTickCount s = 0;
  kb_init : xListsInitialised s = pdFALSE;
  kb_reg : pxTaskRegistry s = replicate 16 0 /\ uxRegisteredTasks s = 0 }.

Definition empty_lists (ls : gmap lst (list item * option item)) : Prop :=
  forall l xs cur, ls !! l = Some (xs, cur) -> xs = [] /\ cur = None.

Lemma wp_init_list s ls l :
  ls_rep (k_lists s) (AMem ∅ ls) ->
  wp (onL (ls_Initialise l)) (fun _ s' => exists m, s' = set_lists m s /\ ls_rep m (AMem ∅ (<[l := ([], None)]> ls))) s.
Proof.
  intros Hr. apply wp_onL. eapply wp_mono; [eapply ls_init_spec; [exact Hr|simpl; by intros ? ? ?%lookup_empty_Some]|].
  cbn beta. intros _ m Hm. by exists m.
Qed.

Lemma wp_init_ready_lists s ls p n :
  ls_rep (k_lists s) (AMem ∅ ls) -> empty_lists ls ->
  wp (init_ready_lists p n) (fun _ s' => exists m ls', s' = set_lists m s /\ ls_rep m (AMem ∅ ls') /\ empty_lists ls' /\
    forall l, is_Some (ls' !! l) <-> is_Some (ls !! l) \/ exists q, l = Ready q /\ p <= q < p + Z.of_nat n) s.
Proof.
  revert s ls p. induction n as [|n IH]; intros s ls p Hr He; cbn [init_ready_lists].
  { apply wp_ret. exists (k_lists s), ls. split; [by destruct s|]. split_and!; try done.
    intros l. split; [by left|]. intros [?|(q & _ & ?)]; [done|lia]. }
  apply wp_bind. eapply wp_mono; [by eapply wp_init_list|]. cbn beta. intros _ ? (m & -> & Hm).
  eapply wp_mono; [eapply (IH _ _ (p + 1)); [exact Hm|]|].
  { intros l xs cur. rewrite lookup_insert. case_decide; [by intros [= <- <-]|apply He]. }
  cbn beta. intros _ ? (m' & ls' & -> & Hm' & He' & Hdom). exists m', ls'. split_and!; try done.
  intros l. rewrite Hdom, lookup_insert_is_Some'. split.
  - intros [ [<-|?]|(q & -> & ?)]; [right; exists p; split; [done|lia]|by left|right; exists q; split; [done|lia] ].
  - intros [?|(q & -> & ?)]; [by left; right|]. destruct (decide (p = q)) as [->|]; [by left; left|].
    right. exists q. split; [done|lia].
Qed.

Lemma wp_prvInitialiseTaskLists s live :
  kboot s live ->
  wp (prvInitialiseTaskLists;; modify (set_lists_init pdTRUE)) (fun _ s' => exists m A,
    s' = set_lists_init pdTRUE (set_lists m s) /\ am_items A = ∅ /\ kinv None s' A live) s.
Proof.
  intros [HW Hr Hh Ht Hc Htop Htick Hi [Hreg Hn] ].
  assert (Hpost : wp prvInitialiseTaskLists (fun _ s' => exists m ls, s' = set_lists m s /\ ls_rep m (AMem ∅ ls) /\
    empty_lists ls /\ forall l, core_list l <-> is_Some (ls !! l)) s).
  { unfold prvInitialiseTaskLists. apply wp_bind. eapply wp_mono; [by eapply wp_init_ready_lists|].
    cbn beta. intros _ ? (m & ls & -> & Hm & He & Hdom).
    apply wp_bind. eapply wp_mono; [by eapply wp_init_list|]. cbn beta. intros _ ? (m1 & -> & Hm1).
    eapply wp_mono; [by eapply wp_init_list|]. cbn beta. intros _ ? (m2 & -> & Hm2).
    eexists m2, _. split; [done|]. split; [exact Hm2|]. split.
    - intros l xs cur. rewrite !lookup_insert. repeat case_decide; [by intros [= <- <-]..|apply He].
    - intros l. rewrite !lookup_insert_is_Some', Hdom, lookup_empty. change (Z.of_nat (Z.to_nat configMAX_PRIORITIES)) with 32.
      destruct l; simpl; rewrite ?HW; split; try done; try set_solver. }
  apply wp_bind. eapply wp_mono; [exact Hpost|]. cbn beta. intros _ ? (m & ls & -> & Hm & He & Hcore).
  apply wp_modify. exists m, (AMem ∅ ls). split; [done|]. split; [done|].
  constructor; simpl; rewrite ?Ht, ?Hc, ?Htop, ?Htick, ?Hreg, ?Hn; try done; [|by left|].
  - constructor; simpl; try done; [exact (ls_rep_wf _ _ Hm)|].
    intros l xs cur Hl _. destruct (He _ _ _ Hl) as [-> _]. constructor.
  - constructor; simpl; [done|done|lia].
Qed.

(** The first call behaves as a call from the initialised state. *)
Lemma xTaskCreate_boot s live :
  kboot s live -> exists m A, am_items A = ∅ /\ kinv None (set_lists_init pdTRUE (set_lists m s)) A live /\
    forall a, create a s = create a (set_lists_init pdTRUE (set_lists m s)).
Proof.
  intros Hb. destruct (wp_prvInitialiseTaskLists _ _ Hb) as ([] & s' & Hrun & m & A & -> & HA & Hk).
  exists m, A. split_and!; try done. intros a. unfold create, xTaskCreate. cbv zeta.
  erewrite !bind_eq by reflexivity. rewrite (kb_init _ _ Hb). cbn [Z.eqb pdFALSE xListsInitialised set_lists_init pdTRUE].
  erewrite bind_eq by exact Hrun. symmetry. erewrite bind_eq by reflexivity. done.
Qed.

(** ** Starting the scheduler *)

Definition idle_args : create_args := CreateArgs (prvIdleTask_addr sym) (Some [73; 68; 76; 69; 0]) configMINIMAL_STACK_SIZE 0 0.

Lemma idle_args_ok : args_ok idle_args.
Proof. constructor; simpl; [left; set_solver|unfold configMINIMAL_STACK_SIZE; lia|lia]. Qed.

Lemma kinv_start s A live b : kinv None s A live ->
  kinv None (set_critical (uxCriticalNesting s) b (set_tick 0 (set_running pdTRUE s))) A live.
Proof. intros []. by constructor. Qed.

Lemma wp_vTaskStartScheduler s A live :
  kinv None s A live -> 0 <= uxCriticalNesting s < 2 ^ 64 - 1 ->
  wp (vTaskStartScheduler sym) (fun _ s' => exists r s1,
    create_post idle_args s A live r s1 /\
    s' = set_critical (uxCriticalNesting s1) true (set_tick 0 (set_running pdTRUE s1))) s.
Proof.
  intros Hk Hn. unfold vTaskStartScheduler. apply wp_bind.
  eapply wp_mono; [apply (wp_xTaskCreate idle_args); [exact Hk|apply idle_args_ok|done]|]. cbn beta. intros r s1 Hs1.
  apply wp_bind, wp_modify, wp_bind, wp_modify, wp_modify. exists r, s1. split; [done|]. done.
Qed.

(** ** Diagnostics *)

(** [n] untouched words from the base of a stack of [d] words. *)
Definition untouched (stack : gmap Z Z) (p d n : Z) : Prop :=
  0 <= n <= d /\ (forall i, 0 <= i < n -> stack !! (p + 8 * i) = Some FLINT_STACK_FILL) /\
  (n < d -> stack !! (p + 8 * n) <> Some FLINT_STACK_FILL).

Lemma wp_high_water s p d n k :
  (forall i, 0 <= i < d -> is_Some (k_stack s !! (p + 8 * i))) -> 0 <= n -> d = n + Z.of_nat k ->
  (forall i, 0 <= i < n -> k_stack s !! (p + 8 * i) = Some FLINT_STACK_FILL) ->
  wp (high_water p n k) (fun r s' => s' = s /\ untouched (k_stack s) p d r) s.
Proof.
  intros Hw. revert n. induction k as [|k IH]; intros n Hn Hd Hfill; cbn [high_water].
  { apply wp_ret. split; [done|]. split_and!; try done; lia. }
  destruct (Hw n ltac:(lia)) as [w Hwn]. unfold ld_word. apply wp_bind. eapply wp_get_opt; [done|].
  destruct (Z.eqb_spec w FLINT_STACK_FILL) as [->|Hne].
  - apply IH; [lia|lia|]. intros i Hi. destruct (decide (i = n)) as [->|]; [done|]. apply Hfill. lia.
  - apply wp_ret. split; [done|]. split_and!; try done; try lia. intros _. rewrite Hwn. by intros [= ->].
Qed.

Lemma wp_prvStackHighWater s A live t T :
  kinv None s A live -> k_tcbs s !! t = Some T ->
  wp (prvStackHighWater t) (fun r s' => s' = s /\ untouched (k_stack s) (pxStack T) (uxStackDepth T) r) s.
Proof.
  intros Hk HT. destruct (ki_tcb _ _ _ _ Hk _ _ HT) as [_ _ Hd Hw _ _].
  unfold prvStackHighWater, ld_tcb. apply wp_bind. eapply wp_get_opt; [done|].
  apply wp_high_water; [done|lia|lia|lia].
Qed.

(** What a snapshot entry says of registry slot [i]. *)
Definition describes s (i : nat) (e : TaskSnapshot_t) : Prop :=
  exists t T, pxTaskRegistry s !! i = Some t /\ k_tcbs s !! t = Some T /\
    sn_pcName e = pcTaskName T /\ sn_uxPriority e = uxPriority T /\ sn_uxBasePriority e = uxBasePriority T /\
    sn_ulStackDepth e = uxStackDepth T /\ untouched (k_stack s) (pxStack T) (uxStackDepth T) (sn_ulStackFree e).

Lemma wp_snapshot_from s A live uxMax i k out :
  kinv None s A live -> 0 <= i -> configMAX_TASKS < i + Z.of_nat k -> length out = Z.to_nat i ->
  i <= Z.max 0 (Z.min uxMax (uxRegisteredTasks s)) -> (forall j e, out !! j = Some e -> describes s j e) ->
  wp (snapshot_from uxMax i k out) (fun r s' => s' = s /\
    length r = Z.to_nat (Z.min uxMax (uxRegisteredTasks s)) /\ forall j e, r !! j = Some e -> describes s j e) s.
Proof.
  intros Hk. destruct (ki_reg _ _ _ _ Hk) as [_ Hrange Hentry]. revert i out.
  induction k as [|k IH]; intros i out Hi Hik Hlen Hle Hout; cbn [snapshot_from]; [lia|].
  apply wp_bind, wp_gets. rewrite Hlen, Z2Nat.id by done.
  destruct (Z.ltb_spec i (uxRegisteredTasks s)), (Z.ltb_spec i uxMax); cbn [andb];
    [|apply wp_ret; split_and!; [done|lia|done]..].
  destruct (Hentry i ltac:(lia)) as (t & Hreg & [T HT]). unfold ld_tcb. apply wp_bind. eapply wp_get_opt; [done|].
  apply wp_bind. eapply wp_get_opt; [done|]. apply wp_bind. eapply wp_mono; [by eapply wp_prvStackHighWater|].
  cbn beta. intros r ? [-> Hr]. apply IH; [lia|lia|rewrite length_app; simpl; lia|lia|].
  intros j e [Hj|[Hge Hj] ]%lookup_app_Some; [by apply Hout|].
  apply list_lookup_singleton_Some in Hj as [Hz <-]. replace j with (Z.to_nat i) by lia. exists t, T. by split_and!.
Qed.

Lemma wp_uxTaskGetSnapshot s A live uxMax :
  kinv None s A live ->
  wp (uxTaskGetSnapshot uxMax) (fun r s' => s' = s /\
    length r = Z.to_nat (Z.min uxMax (uxRegisteredTasks s)) /\ forall j e, r !! j = Some e -> describes s j e) s.
Proof. intros Hk. eapply wp_snapshot_from; [done|lia|unfold configMAX_TASKS; lia|done|lia|done]. Qed.
End create.
