(* ===== verification/TasksSafe.v ===== *)
(** * Sequences of scheduler operations

    What the operations of tasks.c do to ready, delayed and waiting tasks, and
    that any sequence of them, by callers that respect the API, keeps the
    invariant and runs to completion. *)

From stdpp Require Import sorting.
From S2P Require Import Prelude Config Lists ListSpec ListRefine Alloc Tasks TasksInv TasksSpec TasksCreate.

Section safe.
Context `{Qs : Queues} {LS HS : Type} `{!ListOps item lst LS} `{!ListLaws item lst LS} `{!HeapOps HS} `{!HeapLaws HS}.
Context (sym : symbols).
Implicit Types (s : kernel LS HS) (A : amem item lst) (live : gmap Z Z) (t : Z) (T : TCB_t).

(** Task [t] is ready at its priority. *)
Definition is_ready s A t T : Prop :=
  k_tcbs s !! t = Some T /\ cont A (StateItem t) = Some (Some (Ready (uxPriority T))).
(** Task [t] is blocked until tick [v]. *)
Definition is_delayed A t v : Prop :=
  exists it, am_items A !! StateItem t = Some it /\ a_container it = Some Delayed /\ a_value it = v.

Lemma ready_occupies s A live t T : kinv None s A live -> is_ready s A t T -> occupied A (uxPriority T).
Proof.
  intros Hk [HT Hc]. unfold cont in Hc. destruct (am_items A !! StateItem t) as [it|] eqn:Hi; [|done]. injection Hc as Hc.
  destruct (wf_cont A (inv_wf _ _ _ _ Hk) _ _ _ Hi Hc) as [ [xs cur] Hl]. exists xs, cur. split; [done|].
  intros ->. assert (StateItem t ∈ []) as ?%elem_of_nil; [|done]. apply (wf_mem A (inv_wf _ _ _ _ Hk) _ _ _ _ Hl). eauto.
Qed.

(** One tick, on the state and on the abstract lists. *)
Lemma tick_effect s A live :
  kinv None s A live ->
  exists s' A', xTaskIncrementTick s = Some (tt, s') /\ kinv None s' A' live /\
    xTickCount s' = u32 (xTickCount s + 1) /\ k_tcbs s' = k_tcbs s /\ pxCurrentTCB s' = pxCurrentTCB s /\
    uxCriticalNesting s' = uxCriticalNesting s /\
    (forall t v, is_delayed A t v -> v <= xTickCount s' -> exists T, is_ready s' A' t T /\ cont A' (EventItem t) = Some None) /\
    (forall i, (forall v, is_delayed A (task_of i) v -> xTickCount s' < v) -> am_items A' !! i = am_items A !! i).
Proof.
  intros Hk. destruct (inv_list _ _ _ _ Delayed Hk I) as (ds & dc & Hl).
  destruct (wp_xTaskIncrementTick s A live ds dc Hk Hl) as ([] & s' & Hrun & A' & wk & rest & [Hsp (m & v & ->) Hli Hdue Hnd Hrd Hot] & Hk').
  exists (set_lists m (set_top v (ticked s))), A'. rewrite Forall_forall in Hdue, Hnd. split_and!; try done.
  - intros t w (it & Hi & Hc & <-) Hle. assert (Hin : StateItem t ∈ ds) by (apply (wf_mem A (inv_wf _ _ _ _ Hk) _ _ _ _ Hl); eauto).
    rewrite Hsp in Hin. apply elem_of_app in Hin as [Hin|Hin].
    + destruct (Hrd t Hin) as (T & HT & ? & ?). by exists T.
    + specialize (Hnd _ Hin). unfold a_val in Hnd. rewrite Hi in Hnd. simpl in *. lia.
  - intros i Hv. apply Hot. intros Hin. specialize (Hdue _ Hin). unfold a_val in Hdue.
    assert (Hds : StateItem (task_of i) ∈ ds) by (rewrite Hsp; apply elem_of_app; by left).
    apply (wf_mem A (inv_wf _ _ _ _ Hk) _ _ _ _ Hl) in Hds as (it & Hi & Hc). rewrite Hi in Hdue.
    assert (u32 (xTickCount s + 1) < a_value it) by (apply (Hv (a_value it)); by exists it). simpl in *. lia.
Qed.

(** [n] ticks. *)
Fixpoint ticks (n : nat) : M (kernel LS HS) unit :=
  match n with O => mret tt | S n => xTaskIncrementTick;; ticks n end.

Lemma ticks_keep k s A live t v :
  kinv None s A live -> is_delayed A t v -> v < 2 ^ 32 -> xTickCount s + Z.of_nat k < v ->
  exists s' A', ticks k s = Some (tt, s') /\ kinv None s' A' live /\ is_delayed A' t v /\
    xTickCount s' = xTickCount s + Z.of_nat k.
Proof.
  revert s A. induction k as [|k IH]; intros s A Hk Hd Hv Hlt.
  { exists s, A. split_and!; try done. lia. }
  destruct (tick_effect s A live Hk) as (s1 & A1 & Hrun & Hk1 & Htick & _ & _ & _ & _ & Hkeep).
  pose proof (ki_tick _ _ _ _ Hk) as Hu. unfold in_u in Hu. rewrite (wrapu_small 32) in Htick by (unfold in_u; lia).
  assert (Hd1 : is_delayed A1 t v).
  { destruct Hd as (it & Hi & Hc & Hval). exists it. split; [|done]. rewrite Hkeep; [done|].
    intros w (it' & Hi' & _ & <-). simpl in Hi'. rewrite Hi in Hi'. injection Hi' as <-. lia. }
  destruct (IH s1 A1 Hk1 Hd1 Hv ltac:(lia)) as (s' & A' & Hrun' & Hk' & Hd' & Ht').
  exists s', A'. split_and!; try done; [|lia]. cbn [ticks]. by erewrite bind_eq by done.
Qed.

Lemma ticks_S_end k s s1 s2 : ticks k s = Some (tt, s1) -> xTaskIncrementTick s1 = Some (tt, s2) -> ticks (S k) s = Some (tt, s2).
Proof.
  revert s. induction k as [|k IH]; intros s; cbn [ticks].
  - intros [= <-] H2. by erewrite bind_eq by done.
  - unfold mbind at 1, M_bind at 1. destruct (xTaskIncrementTick s) as [ [ [] s0]|] eqn:E; [|done].
    intros H1 H2. erewrite bind_eq by done. by apply IH.
Qed.

(** ** Waiting tasks *)

Definition waits A l t : Prop := cont A (EventItem t) = Some (Some l).

Lemma waiters_sorted s A live l ws wc x xs ys y :
  kinv None s A live -> wait_list l -> am_lists A !! l = Some (ws, wc) -> ws = xs ++ x :: ys -> y ∈ ys -> a_val A x <= a_val A y.
Proof.
  intros Hk Hw Hl -> Hy. pose proof (ai_sorted _ _ _ _ (ki_ainv _ _ _ _ Hk) _ _ _ Hl ltac:(by destruct l)) as Hs.
  apply StronglySorted_app in Hs as (_ & _ & Hs). inversion Hs as [|? ? _ Hf]; subst. rewrite Forall_forall in Hf. by apply Hf.
Qed.

Lemma event_value s A live t T : kinv None s A live -> k_tcbs s !! t = Some T -> a_val A (EventItem t) = 32 - uxBasePriority T.
Proof. intros Hk HT. destruct (inv_task _ _ _ _ _ Hk HT) as (? & ? & ? & _ & He & _). unfold a_val. by rewrite He. Qed.

(** The two outcomes of a signal on [l]: nobody waits, or a waiter of the
    highest base priority becomes ready. *)
Definition signalled s s' A A' l (r : Z) C : Prop :=
  (forall t, ~ waits A l t) /\ r = pdFALSE /\ s' = s /\ A' = A \/
  exists t T m v, s' = set_lists m (set_top v s) /\ waits A l t /\ is_ready s' A' t T /\ cont A' (EventItem t) = Some None /\
    (forall v V, waits A l v -> k_tcbs s !! v = Some V -> uxBasePriority V <= uxBasePriority T) /\
    (forall i, task_of i <> t -> am_items A' !! i = am_items A !! i) /\
    r = (if uxPriority C <? uxPriority T then pdTRUE else pdFALSE).

Lemma signal_effect s A live l C :
  kinv None s A live -> wait_list l -> core_list l -> k_tcbs s !! pxCurrentTCB s = Some C ->
  exists r s' A', xTaskRemoveFromEventList l s = Some (r, s') /\ kinv None s' A' live /\ signalled s s' A A' l r C.
Proof.
  intros Hk Hw Hcl HC. destruct (inv_list _ _ _ _ l Hk Hcl) as (ws & wc & Hl).
  assert (Hwait : forall t, waits A l t <-> EventItem t ∈ ws).
  { intros t. rewrite (wf_mem A (inv_wf _ _ _ _ Hk) _ _ _ _ Hl). unfold waits, cont.
    destruct (am_items A !! EventItem t) as [it|]; simpl.
    - split; [intros [= ?]; eauto|intros (? & [= <-] & ->); done].
    - split; [done|by intros (? & ? & _)]. }
  destruct (wp_xTaskRemoveFromEventList s A live l ws wc C Hk Hw Hl HC) as (r & s' & Hrun & Hpost).
  exists r, s'. destruct ws as [|i ws].
  { destruct Hpost as [-> ->]. exists A. split_and!; try done. left. split_and!; try done. intros t Ht%Hwait. by apply elem_of_nil in Ht. }
  destruct Hpost as (t & T & m & v & A' & -> & HT & -> & Hk' & [Hms Hme Hmo] & _ & Hr).
  exists A'. split_and!; try done. right. exists t, T, m, v. split_and!; try done; [apply Hwait; by left|].
  intros w W Hww HW. apply Hwait, elem_of_cons in Hww as [ [= ->]|Hin]; [by simplify_eq|].
  pose proof (waiters_sorted _ _ _ _ _ _ _ [] _ _ Hk Hw Hl eq_refl Hin) as Hle.
  rewrite (event_value _ _ _ _ _ Hk HT), (event_value _ _ _ _ _ Hk HW) in Hle. lia.
Qed.

(** ** Creation *)

(** The initial frame the port restores: the argument in x0, the task's entry
    point as return address, every other slot zero or a constant. *)
Definition initial_frame (stack : gmap Z Z) sp code param : Prop :=
  forall i, 0 <= i < CTX_SLOTS -> stack !! (sp + 8 * i) =
    Some (if i =? CTX_ELR then code else if i =? CTX_SPSR then INITIAL_SPSR
          else if i =? 30 then vPortTaskExit_addr sym else if i =? 0 then param else 0).

Lemma frame_words_initial sp c p m : initial_frame (frame_words sym sp c p m) sp c p.
Proof.
  intros i Hi. unfold frame_words, CTX_SLOTS, CTX_ELR, CTX_SPSR in *.
  rewrite !lookup_insert. repeat case_decide;
    repeat match goal with |- context [?a =? ?b] => destruct (Z.eqb_spec a b) end; try lia; try done.
  by apply fill_words_in.
Qed.

(** ** Sequences of operations *)

Inductive sched_op :=
  | OpTick | OpYield (sp : Z) | OpDelay (n sp : Z) | OpCreate (a : create_args)
  | OpInherit (h : Z) | OpDisinherit (h : Z) | OpBlock (l : lst) (n sp : Z) | OpSignal (l : lst).

Definition run_op (op : sched_op) : M (kernel LS HS) unit :=
  match op with
  | OpTick => xTaskIncrementTick
  | OpYield sp => taskYIELD sp
  | OpDelay n sp => vTaskDelay n sp
  | OpCreate a => create sym a;; mret tt
  | OpInherit h => vTaskPriorityInherit h
  | OpDisinherit h => vTaskPriorityDisinherit h;; mret tt
  | OpBlock l n sp => vTaskPlaceOnEventList l n;; taskYIELD sp
  | OpSignal l => xTaskRemoveFromEventList l;; mret tt
  end.

(** What the callers guarantee: the idle task never blocks, handles are tasks,
    wait lists belong to queues, and a task that gives up the processor has not
    overrun its stack. *)
Definition op_ok (idle : Z) s (op : sched_op) : Prop :=
  match op with
  | OpTick => True
  | OpYield sp => yields_ok sp s
  | OpDelay n sp => in_u 32 n /\ pxCurrentTCB s <> idle /\ yields_ok sp s
  | OpCreate a => args_ok a
  | OpInherit h | OpDisinherit h => is_Some (k_tcbs s !! h)
  | OpBlock l n sp => wait_list l /\ core_list l /\ in_u 32 n /\ pxCurrentTCB s <> idle /\ yields_ok sp s
  | OpSignal l => wait_list l /\ core_list l
  end.

(** The current task and the idle task are ready. *)
Definition sched_inv (idle : Z) s : Prop :=
  exists A live T I, kinv None s A live /\ is_ready s A (pxCurrentTCB s) T /\ is_ready s A idle I /\
    0 <= uxCriticalNesting s < 2 ^ 64 - 1.

Inductive sched_step (idle : Z) : relation (kernel LS HS) :=
  | Sched_step s op s' : op_ok idle s op -> run_op op s = Some (tt, s') -> sched_step idle s s'.

(** A ready task stays ready when its TCB keeps its priority and its state
    item is untouched. *)
Lemma ready_keep s A s' A' t T T' :
  is_ready s A t T -> k_tcbs s' !! t = Some T' -> uxPriority T' = uxPriority T ->
  am_items A' !! StateItem t = am_items A !! StateItem t -> is_ready s' A' t T'.
Proof. intros [HT Hc] HT' Hp Hi. split; [done|]. unfold cont in *. by rewrite Hi, Hp. Qed.

Lemma ready_not_delayed s A live t T v : kinv None s A live -> is_ready s A t T -> ~ is_delayed A t v.
Proof. intros Hk [HT Hc] (it & Hi & Hd & _). unfold cont in Hc. rewrite Hi in Hc. simpl in Hc. congruence. Qed.

Lemma saved_ready sp s A t T : is_ready s A t T -> exists T', is_ready (saved sp s) A t T'.
Proof.
  intros Hr. pose proof Hr as [HT Hc]. destruct (decide (t = pxCurrentTCB s)) as [->|Hne].
  - exists (with_sp sp T). eapply ready_keep; [exact Hr|simpl; by rewrite lookup_alter_eq, HT|done|done].
  - exists T. eapply ready_keep; [exact Hr|simpl; by rewrite lookup_alter_ne|done|done].
Qed.

Lemma reprioritised_ready s s' A A' live h H p t T :
  kinv None s A live -> k_tcbs s !! h = Some H -> reprioritised s s' A A' h p -> is_ready s A t T -> exists T', is_ready s' A' t T'.
Proof.
  intros Hk HH (m & v & -> & Hoth & Hc) [HT Hr]. destruct (decide (t = h)) as [->|Hne].
  - exists (with_priority p H). split; [simpl; by rewrite lookup_alter_eq, HH|]. by rewrite Hc, Hr.
  - exists T. split; [simpl; by rewrite lookup_alter_ne|]. unfold cont. rewrite Hoth by congruence. done.
Qed.

Lemma running_ready s A T : is_ready s A (pxCurrentTCB s) T -> running s A (pxCurrentTCB s) T.
Proof. intros [? ?]. by constructor. Qed.

(** Blocks stay allocated and tasks stay tasks. *)
Definition grows s s' live live' : Prop :=
  live ⊆ live' /\ forall t, is_Some (k_tcbs s !! t) -> is_Some (k_tcbs s' !! t).

Lemma grows_refl s live : grows s s live live.
Proof. done. Qed.
Lemma grows_tcbs s s' live t f : k_tcbs s' = alter f t (k_tcbs s) -> grows s s' live live.
Proof. intros Ht. split; [done|]. intros u [U HU]. rewrite Ht, lookup_alter. case_decide; subst; rewrite HU; by eexists. Qed.
Lemma grows_trans s s1 s2 live live1 live2 : grows s s1 live live1 -> grows s1 s2 live1 live2 -> grows s s2 live live2.
Proof. intros [? ?] [? ?]. split; [by transitivity live1|auto]. Qed.

(** The successor of a state in which the current and the idle task are ready. *)
Definition sched_next idle s s' live : Prop :=
  exists A' live' T' I', kinv None s' A' live' /\ is_ready s' A' (pxCurrentTCB s') T' /\ is_ready s' A' idle I' /\
    0 <= uxCriticalNesting s' < 2 ^ 64 - 1 /\ grows s s' live live'.

Lemma sched_next_inv idle s s' live : sched_next idle s s' live -> sched_inv idle s'.
Proof. intros (A' & live' & T' & I' & ? & ? & ? & ? & _). by exists A', live', T', I'. Qed.

Lemma yield_safe idle sp s A live C I :
  kinv None s A live -> k_tcbs s !! pxCurrentTCB s = Some C -> is_ready s A idle I ->
  0 <= uxCriticalNesting s < 2 ^ 64 - 1 -> yields_ok sp s ->
  exists s' A' T' I', taskYIELD sp s = Some (tt, s') /\ kinv None s' A' live /\ is_ready s' A' (pxCurrentTCB s') T' /\
    is_ready s' A' idle I' /\ uxCriticalNesting s' = uxCriticalNesting s /\ grows s s' live live /\ am_items A' = am_items A /\
    xTickCount s' = xTickCount s.
Proof.
  intros Hk HC HI Hn Hy. pose proof (to_prio _ _ _ _ (ki_tcb _ _ _ _ Hk _ _ (proj1 HI))).
  destruct (wp_taskYIELD sp s A live C Hk HC Hy) as ([] & s' & Hrun & A' & Hsw & Hk').
  { exists (uxPriority I). split; [lia|by eapply ready_occupies]. }
  destruct (switched_next _ _ _ _ _ (kinv_saved sp _ _ _ Hk) Hsw) as (u & U & Hu & HU & Hcu & _ & Hit & _).
  destruct (saved_ready sp _ _ _ _ HI) as (I' & HI').
  assert (Hs' : k_tcbs s' = k_tcbs (saved sp s) /\ uxCriticalNesting s' = uxCriticalNesting s /\ xTickCount s' = xTickCount s) by by destruct Hsw as (? & ? & ? & ? & ? & ? & -> & _).
  destruct Hs' as (Ht & Hc & Htk). exists s', A', U, I'. split_and!; try done.
  - rewrite Hu. eapply ready_keep; [split; [exact HU|exact Hcu]|..]; rewrite ?Ht, ?Hit; done.
  - eapply ready_keep; [exact HI'|..]; rewrite ?Ht, ?Hit; try done. apply HI'.
  - eapply grows_tcbs; exact Ht.
Qed.

Lemma signalled_ready s s' A A' l r C : signalled s s' A A' l r C ->
  k_tcbs s' = k_tcbs s /\ pxCurrentTCB s' = pxCurrentTCB s /\ uxCriticalNesting s' = uxCriticalNesting s /\
  forall u U, is_ready s A u U -> is_ready s' A' u U.
Proof.
  intros [ (_ & _ & -> & ->)|(t & T & m & v & -> & _ & Hr & _ & _ & Hot & _)]; [done|]. split_and!; try done.
  intros u U Hu. destruct (decide (u = t)) as [->|Hne]; [|eapply ready_keep; [done|apply Hu|done|by apply Hot] ].
  destruct Hr as [HT ?], Hu as [HU _]. simpl in HT. rewrite HT in HU. by injection HU as ->.
Qed.

Section ops.
Context (idle : Z) (s : kernel LS HS) (A : amem item lst) (live : gmap Z Z) (T I : TCB_t).
Context (Hk : kinv None s A live) (HT : is_ready s A (pxCurrentTCB s) T) (HI : is_ready s A idle I).
Context (Hn : 0 <= uxCriticalNesting s < 2 ^ 64 - 1).

Lemma same_safe : sched_next idle s s live.
Proof. by exists A, live, T, I. Qed.

Lemma create_safe a : args_ok a -> exists s', run_op (OpCreate a) s = Some (tt, s') /\ sched_next idle s s' live.
Proof.
  intros Ha. destruct (wp_xTaskCreate sym a s A live Hk Ha Hn) as (r & s' & Hrun & Hpost).
  exists s'. split; [cbn [run_op]; by erewrite bind_eq by done|].
  destruct Hpost as [ (_ & h & -> & Hk')|(t & N & A' & live' & _ & Hc & Hk')]; [by exists A, live, T, I|].
  assert (Hkeep : forall v V, is_ready s A v V -> is_ready s' A' v V).
  { intros v V Hv. assert (v <> t) by (intros ->; destruct Hv as [Hv _]; by rewrite (cr_fresh _ _ _ _ _ _ _ _ _ _ Hc) in Hv).
    eapply ready_keep; [done|rewrite (cr_tcbs _ _ _ _ _ _ _ _ _ _ Hc), lookup_insert_ne by done; apply Hv|done|].
    by apply (cr_other _ _ _ _ _ _ _ _ _ _ Hc). }
  exists A', live', T, I. rewrite (cr_current _ _ _ _ _ _ _ _ _ _ Hc), (cr_nesting _ _ _ _ _ _ _ _ _ _ Hc).
  rewrite (proj2 (Z.eqb_neq _ _)) by (eapply tcb_nonnull; [exact Hk|apply HT]).
  split_and!; try done; try lia; [by apply Hkeep..|]. destruct (cr_live _ _ _ _ _ _ _ _ _ _ Hc) as (? & ? & ? & ->). split.
  - transitivity (<[pxStack N := 8 * ca_depth a]> live); apply insert_subseteq; by simplify_map_eq.
  - intros u Hu. rewrite (cr_tcbs _ _ _ _ _ _ _ _ _ _ Hc). apply lookup_insert_is_Some'. by right.
Qed.

Lemma signal_safe l :
  wait_list l -> core_list l -> exists s', run_op (OpSignal l) s = Some (tt, s') /\ sched_next idle s s' live.
Proof.
  intros Hw Hcl. destruct (signal_effect s A live l T Hk Hw Hcl (proj1 HT)) as (r & s' & A' & Hrun & Hk' & Hsig).
  destruct (signalled_ready _ _ _ _ _ _ _ Hsig) as (Htc & Hcu & Hcn & Hkeep).
  exists s'. split; [cbn [run_op]; by erewrite bind_eq by done|].
  exists A', live, T, I. rewrite Hcu, Hcn. split_and!; try done; try lia; [by apply Hkeep..|].
  split; [done|]. by rewrite Htc.
Qed.

Lemma tick_safe : exists s', run_op OpTick s = Some (tt, s') /\ sched_next idle s s' live.
Proof.
  destruct (tick_effect s A live Hk) as (s' & A' & Hrun & Hk' & _ & Htc & Hcu & Hcn & _ & Hkeep).
  assert (Hk2 : forall u U, is_ready s A u U -> is_ready s' A' u U).
  { intros u U Hu. eapply ready_keep; [done|rewrite Htc; apply Hu|done|]. apply Hkeep. intros v Hd.
    by destruct (ready_not_delayed _ _ _ _ _ v Hk Hu). }
  exists s'. split; [done|]. exists A', live, T, I. rewrite Hcu, Hcn. split_and!; try done; try lia; [by apply Hk2..|].
  split; [done|]. by rewrite Htc.
Qed.

Lemma delay_safe n sp :
  in_u 32 n -> pxCurrentTCB s <> idle -> yields_ok sp s -> exists s', run_op (OpDelay n sp) s = Some (tt, s') /\ sched_next idle s s' live.
Proof.
  intros Hu Hne Hy. unfold in_u in Hu. destruct (decide (n = 0)) as [->|Hn0]; [exists s; split; [done|apply same_safe]|].
  destruct (wp_vTaskDelay s A live _ T idle I n sp Hk (running_ready _ _ _ HT) ltac:(lia) Hn Hy ltac:(congruence) (proj1 HI) (proj2 HI))
    as ([] & s' & Hrun & A' & [Htc _ Hot (u & U & Hcu & Hut & HU & Hru & _) _ Hcn] & Hk').
  exists s'. split; [done|]. exists A', live, U, I. rewrite Hcu, Hcn. split_and!; try done; try lia.
  - split; [by rewrite Htc, lookup_alter_ne|done].
  - eapply ready_keep; [exact HI|rewrite Htc, lookup_alter_ne by done; apply HI|done|]. apply Hot. congruence.
  - by eapply grows_tcbs.
Qed.

Lemma yield_next sp : yields_ok sp s -> exists s', run_op (OpYield sp) s = Some (tt, s') /\ sched_next idle s s' live.
Proof.
  intros Hy. destruct (yield_safe idle sp s A live T I Hk (proj1 HT) HI Hn Hy) as (s' & A' & T' & I' & ? & ? & ? & ? & Hc & ? & _).
  exists s'. split; [done|]. exists A', live, T', I'. rewrite Hc. split_and!; try done; simpl; lia.
Qed.

Lemma block_safe l n sp :
  wait_list l -> core_list l -> in_u 32 n -> pxCurrentTCB s <> idle -> yields_ok sp s ->
  exists s', run_op (OpBlock l n sp) s = Some (tt, s') /\ sched_next idle s s' live.
Proof.
  intros Hw Hcl Hu Hne Hy0. destruct (inv_list _ _ _ _ l Hk Hcl) as (ws & wc & Hl).
  destruct (wp_vTaskPlaceOnEventList s A live _ T l n Hk (running_ready _ _ _ HT) Hw ltac:(by eexists) Hu)
    as ([] & s1 & Hrun & A1 & [ [m ->] _ _ _ _ Hot] & Hk1).
  destruct (yield_safe idle sp _ A1 live T I Hk1 (proj1 HT)) as (s' & A' & T' & I' & Hy & ? & ? & ? & Hc & ? & _).
  { eapply ready_keep; [exact HI|apply HI|done|]. apply Hot. simpl. congruence. } { done. } { exact Hy0. }
  exists s'. split; [cbn [run_op]; by erewrite bind_eq by done|]. exists A', live, T', I'. rewrite Hc. split_and!; try done; simpl; lia.
Qed.

Lemma inherit_safe h : is_Some (k_tcbs s !! h) ->
  (exists s', run_op (OpInherit h) s = Some (tt, s') /\ sched_next idle s s' live) /\
  (exists s', run_op (OpDisinherit h) s = Some (tt, s') /\ sched_next idle s s' live).
Proof.
  intros [H HH].
  assert (Hinv : forall s' A' p, reprioritised s s' A A' h p -> kinv None s' A' live -> sched_next idle s s' live).
  { intros s' A' p Hrep Hk'. destruct (reprioritised_ready _ _ _ _ _ _ _ _ _ _ Hk HH Hrep HT) as [T' HT'].
    destruct (reprioritised_ready _ _ _ _ _ _ _ _ _ _ Hk HH Hrep HI) as [I' HI'].
    destruct Hrep as (m & v & -> & _). exists A', live, T', I'. split_and!; try done; try (simpl; lia). by eapply grows_tcbs. }
  pose proof same_safe. split.
  - destruct (wp_vTaskPriorityInherit s A live h H T Hk HH (proj1 HT)) as ([] & s' & Hrun & Hp). exists s'. split; [done|].
    destruct (negb _ && _); [|by subst]. destruct Hp as (A' & ? & ?). by eapply Hinv.
  - destruct (wp_vTaskPriorityDisinherit s A live h H Hk HH) as (r & s' & Hrun & Hp). exists s'.
    split; [cbn [run_op]; by erewrite bind_eq by done|].
    destruct (_ =? _); destruct Hp as [_ Hp]; [by subst|]. destruct Hp as (A' & ? & ?). by eapply Hinv.
Qed.

Lemma op_next op : op_ok idle s op -> exists s', run_op op s = Some (tt, s') /\ sched_next idle s s' live.
Proof.
  intros Hok. destruct op; simpl in Hok.
  - apply tick_safe.
  - by apply yield_next.
  - destruct Hok as (? & ? & ?). by apply delay_safe.
  - by apply create_safe.
  - by destruct (inherit_safe h Hok).
  - by destruct (inherit_safe h Hok).
  - destruct Hok as (? & ? & ? & ? & ?). by apply block_safe.
  - destruct Hok. by apply signal_safe.
Qed.
End ops.

Lemma op_safe idle op s :
  sched_inv idle s -> op_ok idle s op -> exists s', run_op op s = Some (tt, s') /\ sched_inv idle s'.
Proof.
  intros (A & live & T & I & Hk & HT & HI & Hn) Hok.
  destruct (op_next idle s A live T I Hk HT HI Hn op Hok) as (s' & Hrun & Hnext). exists s'. eauto using sched_next_inv.
Qed.
End safe.
