(* ===== verification/TasksFrame.v ===== *)
(** * What scheduler operations leave alone

    No operation of tasks.c but creation writes the task stacks or moves one,
    and only inheritance changes a priority.  [keeps f] says that a piece of
    kernel code leaves the stacks and the attribute [f] of every task as they
    were; it is closed under sequencing, so that each operation's frame is
    found by its text. *)

From S2P Require Import Prelude Config Lists ListSpec ListRefine Alloc Tasks TasksInv TasksSpec TasksCreate TasksSafe.

Create HintDb keeps.

Section frame.
Context `{Qs : Queues} {LS HS : Type} `{!ListOps item lst LS} `{!ListLaws item lst LS} `{!HeapOps HS} `{!HeapLaws HS}.
Context {X : Type} (f : TCB_t -> X).
Implicit Types (s : kernel LS HS).

Definition keeps {B} (c : M (kernel LS HS) B) : Prop :=
  forall s r s', c s = Some (r, s') -> k_stack s' = k_stack s /\ f <$> k_tcbs s' = f <$> k_tcbs s.

Lemma frame_ret {B} (b : B) : keeps (mret b).
Proof. by intros s r s' [= <- <-]. Qed.
Lemma keeps_fails {B} : keeps (fails : M (kernel LS HS) B).
Proof. done. Qed.
Lemma frame_gets {B} (g : kernel LS HS -> B) : keeps (gets g).
Proof. by intros s r s' [= <- <-]. Qed.
Lemma frame_get_opt {B} (g : kernel LS HS -> option B) : keeps (get_opt g).
Proof. intros s r s' Hrun. unfold get_opt in Hrun. destruct (g s); [|done]. by injection Hrun as <- <-. Qed.
Lemma frame_modify (g : kernel LS HS -> kernel LS HS) :
  (forall s, k_stack (g s) = k_stack s /\ k_tcbs (g s) = k_tcbs s) -> keeps (modify g).
Proof. intros Hg s r s' [= <- <-]. destruct (Hg s) as [-> ->]. done. Qed.
Lemma keeps_onL {B} (c : M LS B) : keeps (onL c).
Proof. intros s r s' Hrun. unfold onL, zoom in Hrun. destruct (c (k_lists s)) as [ [b m]|]; [|done]. by injection Hrun as <- <-. Qed.
Lemma frame_bind {B C} (c : M (kernel LS HS) B) (k : B -> M (kernel LS HS) C) : keeps c -> (forall b, keeps (k b)) -> keeps (c ≫= k).
Proof.
  intros Hc Hk s r s' Hrun. unfold mbind, M_bind in Hrun. destruct (c s) as [ [b s1]|] eqn:E; [|done].
  destruct (Hc _ _ _ E) as [<- <-]. exact (Hk _ _ _ _ Hrun).
Qed.
Lemma keeps_st_tcb t g : (forall T, f (g T) = f T) -> keeps (st_tcb t g).
Proof.
  intros Hg. apply frame_bind; [apply frame_get_opt|]. intros _ s r s' [= <- <-]. split; [done|]. cbn. apply map_eq. intros i.
  rewrite !lookup_fmap, lookup_alter. case_decide; [subst|done]. destruct (k_tcbs s !! i) as [T|]; [|done]. cbn. by rewrite Hg.
Qed.

#[local] Hint Resolve frame_ret keeps_fails frame_gets frame_get_opt keeps_onL : keeps.
#[local] Hint Extern 1 (keeps (modify _)) => apply frame_modify; intros ?; repeat case_match; done : keeps.
#[local] Hint Extern 1 (keeps (st_tcb _ _)) => apply keeps_st_tcb; auto : keeps.
Ltac keeps_steps := repeat first [solve [auto with keeps] | case_match | apply frame_bind; [|intros ?] ].

Lemma keeps_add t : keeps (prvAddTaskToReadyList t).
Proof. unfold prvAddTaskToReadyList, ld_tcb. keeps_steps. Qed.
#[local] Hint Resolve keeps_add : keeps.
Lemma keeps_wake n : keeps (wake_expired n).
Proof. induction n as [|n IH]; cbn [wake_expired]; keeps_steps. Qed.
#[local] Hint Resolve keeps_wake : keeps.
Lemma keeps_tick : keeps xTaskIncrementTick.
Proof. unfold xTaskIncrementTick. keeps_steps. Qed.
Lemma keeps_find n p : keeps (find_ready n p).
Proof. revert p. induction n as [|n IH]; intros p; cbn [find_ready]; keeps_steps. Qed.
#[local] Hint Resolve keeps_find : keeps.
Lemma keeps_switch : keeps vTaskSwitchContext.
Proof. unfold vTaskSwitchContext, prvCheckStackOverflow, stack_overflow_halt, ld_tcb, ld_word. keeps_steps. Qed.
Lemma keeps_place l n : keeps (vTaskPlaceOnEventList l n).
Proof. unfold vTaskPlaceOnEventList. keeps_steps. Qed.
Lemma keeps_signal l : keeps (xTaskRemoveFromEventList l).
Proof. unfold xTaskRemoveFromEventList, ld_tcb. keeps_steps. Qed.
Lemma keeps_park n : keeps (vTaskDelay_park n).
Proof. unfold vTaskDelay_park, taskENTER_CRITICAL, taskEXIT_CRITICAL, vPortEnterCritical, vPortExitCritical. keeps_steps. Qed.
Lemma keeps_enter : keeps taskENTER_CRITICAL.
Proof. unfold taskENTER_CRITICAL, vPortEnterCritical. keeps_steps. Qed.
Lemma keeps_exit : keeps taskEXIT_CRITICAL.
Proof. unfold taskEXIT_CRITICAL, vPortExitCritical. keeps_steps. Qed.

#[local] Hint Resolve keeps_switch keeps_park : keeps.

Section sp.
Context (Hsp : forall sp T, f (with_sp sp T) = f T).
Lemma keeps_yield sp : keeps (taskYIELD sp).
Proof. unfold taskYIELD. keeps_steps. Qed.
#[local] Hint Resolve keeps_yield : keeps.
Lemma keeps_delay n sp : keeps (vTaskDelay n sp).
Proof. unfold vTaskDelay. keeps_steps. Qed.
End sp.

Section priority.
Context (Hp : forall p T, f (with_priority p T) = f T).
Lemma keeps_reprioritise t p : keeps (prvReprioritise t p).
Proof. unfold prvReprioritise, ld_tcb. keeps_steps. Qed.
#[local] Hint Resolve keeps_reprioritise : keeps.
Lemma keeps_inherit h : keeps (vTaskPriorityInherit h).
Proof. unfold vTaskPriorityInherit, ld_tcb. keeps_steps. Qed.
Lemma keeps_disinherit h : keeps (vTaskPriorityDisinherit h).
Proof. unfold vTaskPriorityDisinherit, ld_tcb. keeps_steps. Qed.
End priority.

Lemma keeps_lookup (m m' : gmap Z TCB_t) t T : f <$> m' = f <$> m -> m !! t = Some T -> exists T', m' !! t = Some T' /\ f T' = f T.
Proof.
  intros Hm HT. assert (Hl : (f <$> m') !! t = Some (f T)) by by rewrite Hm, lookup_fmap, HT.
  rewrite lookup_fmap in Hl. apply fmap_Some in Hl as (T' & HT' & E). by exists T'.
Qed.
End frame.

(** ** Operations that leave priorities alone *)

Section quiet.
Context `{Qs : Queues} {LS HS : Type} `{!ListOps item lst LS} `{!ListLaws item lst LS} `{!HeapOps HS} `{!HeapLaws HS}.
Context (sym : symbols).

Definition quiet (op : sched_op) : Prop :=
  match op with OpTick | OpYield _ | OpDelay _ _ | OpBlock _ _ _ | OpSignal _ => True | _ => False end.

Inductive quiet_step (idle : Z) : relation (kernel LS HS) :=
  | Quiet_step s op s' : quiet op -> op_ok idle s op -> run_op sym op s = Some (tt, s') -> quiet_step idle s s'.

Lemma quiet_keeps op : quiet op -> keeps (LS := LS) (HS := HS) (with_sp 0) (run_op sym op).
Proof.
  destruct op; cbn [quiet run_op]; intros Hq; try done.
  - apply keeps_tick.
  - by apply keeps_yield.
  - by apply keeps_delay.
  - apply frame_bind; [apply keeps_place|intros _; by apply keeps_yield].
  - apply frame_bind; [apply keeps_signal|intros _; apply frame_ret].
Qed.

(** Whatever quiet operations run, the scheduler's invariant stays, and so does
    every attribute of a task but its saved stack pointer. *)
Lemma quiet_run idle s s' t T :
  sched_inv idle s -> rtc (quiet_step idle) s s' -> k_tcbs s !! t = Some T ->
  sched_inv idle s' /\ exists T', k_tcbs s' !! t = Some T' /\ with_sp 0 T' = with_sp 0 T.
Proof.
  intros Hinv Hrun. revert T Hinv. induction Hrun as [s|s1 s2 s3 Hstep _ IH]; intros T Hinv HT; [split; [done|by exists T]|].
  destruct Hstep as [s1 op s2 Hq Hok Hrun1]. destruct (op_safe sym idle op s1 Hinv Hok) as (s2' & Hrun' & Hinv').
  rewrite Hrun' in Hrun1. injection Hrun1 as <-. destruct (quiet_keeps op Hq _ _ _ Hrun') as [_ Hf].
  destruct (keeps_lookup _ _ _ _ _ Hf HT) as (T2 & HT2 & E2). destruct (IH T2 Hinv' HT2) as (? & T3 & ? & E3).
  split; [done|]. exists T3. split; [done|congruence].
Qed.
End quiet.
