(* ===== verification/TasksDemo.v ===== *)
(** * Concrete kernel states

    The scheduler over the pointer lists of list.c and the allocator of
    heap_4.c, run from the boot state: three application tasks, then
    [vTaskStartScheduler].  Each state satisfies the invariant by the lemmas
    about the operations that lead to it. *)

From stdpp Require Import sorting.
From S2P Require Import Prelude Config Lists ListSpec ListRefine Heap4 Heap4Spec Alloc Heap4Props Tasks TasksInv TasksSpec TasksCreate.

#[global] Instance demo_heap_ops : HeapOps heap := heap4_ops demo_layout.
#[global] Instance demo_heap_laws : HeapLaws heap := heap4_laws demo_layout demo_layout_ok.

(** No queue exists yet. *)
Definition no_queues : Queues := (∅ : gset Z).
#[local] Existing Instance no_queues.

Abbreviation DK := (kernel (lmem item lst) heap).
Definition demo_sym : symbols := Symbols 0x500 0x600.

Definition kernel_boot : DK := Kernel (LMem ∅ ∅) heap_boot ∅ ∅ 0 0 0 0 0 0 1 (replicate 16 0) 0 0 false.

Definition run_k {A} (c : M DK A) (s : DK) : DK := match c s with Some (_, s') => s' | None => s end.

(** The list memory of the boot state represents no list and no item. *)
Lemma lmem_empty_rep : lrep (LMem ∅ ∅ : lmem item lst) (AMem ∅ ∅).
Proof. by repeat constructor. Qed.

Lemma kernel_boot_ok : kboot kernel_boot ∅.
Proof.
  constructor; try done.
  exists (initial_blocks demo_layout). split; [left; done|by intros p n ?%lookup_empty_Some].
Qed.

(** The container of an item, read from the concrete memory. *)
Lemma cont_concrete s A live i : kinv None s A live -> container_of (k_lists s) i = cont A i.
Proof. intros Hk. apply (rep_container _ _ (ki_rep _ _ _ _ Hk)). Qed.

Definition demo_task (name : Z) (prio : Z) : create_args := CreateArgs 0x1000 (Some [name; 0]) 64 0 prio.
Lemma demo_task_ok name prio : 0 <= prio -> args_ok (demo_task name prio).
Proof. intros. constructor; simpl; [left; right; left|lia|done]. Qed.

Definition demo1 : DK := run_k (create demo_sym (demo_task 65 2)) kernel_boot.
Definition demo2 : DK := run_k (create demo_sym (demo_task 66 2)) demo1.
Definition demo3 : DK := run_k (create demo_sym (demo_task 67 1)) demo2.
Definition demo : DK := run_k (vTaskStartScheduler demo_sym) demo3.

Lemma create_kinv a (s : DK) A live :
  kinv None s A live -> args_ok a -> 0 <= uxCriticalNesting s < 2 ^ 64 - 1 ->
  exists r s', create demo_sym a s = Some (r, s') /\ exists A' live', kinv None s' A' live'.
Proof.
  intros Hk Ha Hn. destruct (wp_xTaskCreate demo_sym a s A live Hk Ha Hn) as (r & s' & Hrun & Hpost).
  exists r, s'. split; [done|]. destruct Hpost as [ (_ & h & _ & ?)|(t & T & A' & live' & _ & _ & ?)]; eauto.
Qed.

Lemma demo1_ok : exists A live, kinv None demo1 A live.
Proof.
  destruct (xTaskCreate_boot demo_sym kernel_boot ∅ kernel_boot_ok) as (m & A & _ & Hk & Heq).
  destruct (create_kinv (demo_task 65 2) _ _ _ Hk) as (r & s' & Hrun & ?); [by apply demo_task_ok|done|].
  unfold demo1, run_k. by rewrite Heq, Hrun.
Qed.
Lemma demo2_ok : exists A live, kinv None demo2 A live.
Proof.
  destruct demo1_ok as (A & live & Hk).
  destruct (create_kinv (demo_task 66 2) _ _ _ Hk) as (r & s' & Hrun & ?); [by apply demo_task_ok|vm_compute; intuition congruence|].
  unfold demo2, run_k. by rewrite Hrun.
Qed.
Lemma demo3_ok : exists A live, kinv None demo3 A live.
Proof.
  destruct demo2_ok as (A & live & Hk).
  destruct (create_kinv (demo_task 67 1) _ _ _ Hk) as (r & s' & Hrun & ?); [by apply demo_task_ok|vm_compute; intuition congruence|].
  unfold demo3, run_k. by rewrite Hrun.
Qed.
Lemma demo_ok : exists A live, kinv None demo A live.
Proof.
  destruct demo3_ok as (A & live & Hk).
  destruct (wp_vTaskStartScheduler demo_sym demo3 A live Hk) as (r & s' & Hrun & r' & s1 & Hpost & ->).
  { vm_compute. intuition congruence. }
  unfold demo, run_k. rewrite Hrun. destruct Hpost as [ (_ & h & _ & ?)|(t & T & A' & live' & _ & _ & ?)]; eauto using kinv_start.
Qed.

(** Addresses of the four tasks: A, B, C and the idle task. *)
Definition demo_A : Z := nth 0 (pxTaskRegistry demo) 0.
Definition demo_B : Z := nth 1 (pxTaskRegistry demo) 0.
Definition demo_C : Z := nth 2 (pxTaskRegistry demo) 0.
Definition demo_idle : Z := nth 3 (pxTaskRegistry demo) 0.
