(* ===== verification/TasksProps.v ===== *)
(** * Correctness of the scheduler

    The properties of tasks.c: the context switch runs a highest-priority
    ready task in round-robin order, the tick wakes exactly the due tasks, a
    delay lasts its number of ticks unless the tick sum wraps, inheritance
    lifts a mutex holder and disinheritance restores it, event lists wake in
    priority order, task creation builds a runnable task or fails without a
    trace, and every sequence of scheduler operations keeps the invariant and
    runs to completion. *)

From stdpp Require Import sorting.
From S2P Require Import Prelude Config Lists ListSpec ListRefine Heap4 Heap4Spec Alloc Heap4Props Tasks TasksInv TasksSpec TasksCreate TasksSafe TasksFrame TasksDemo.

Section properties.
Context `{Qs : Queues} {LS HS : Type} `{!ListOps item lst LS} `{!ListLaws item lst LS} `{!HeapOps HS} `{!HeapLaws HS}.
Context (sym : symbols).
Implicit Types (s : kernel LS HS) (A : amem item lst) (live : gmap Z Z) (t : Z) (T : TCB_t).


(** one tick advances the count modulo 2^32 and makes ready, at their
    priority and off every wait list, exactly the delayed tasks whose wake
    time has been reached; every other item stays where it was. *)
Theorem tick_wakes_exactly_due s A live :
  kinv None s A live ->
  exists s' A', xTaskIncrementTick s = Some (tt, s') /\ kinv None s' A' live /\
    xTickCount s' = u32 (xTickCount s + 1) /\ k_tcbs s' = k_tcbs s /\ pxCurrentTCB s' = pxCurrentTCB s /\
    (forall t v, is_delayed A t v -> v <= xTickCount s' -> exists T, is_ready s' A' t T /\ cont A' (EventItem t) = Some None) /\
    (forall i, (forall v, is_delayed A (task_of i) v -> xTickCount s' < v) -> am_items A' !! i = am_items A !! i).
Proof.
  intros Hk. destruct (tick_effect s A live Hk) as (s' & A' & H1 & H2 & H3 & H4 & H5 & _ & H6 & H7).
  exists s', A'. by split_and!.
Qed.

(** C6: a task that calls [vTaskDelay(n)] when the tick sum does not wrap is
    off the processor at once, is still blocked after every k < n ticks, and
    is ready after the n-th; it has not overrun its stack when it calls, and
    another task is ready. *)
Theorem delay_lasts_n_ticks s A live t T u U n sp :
  kinv None s A live -> running s A t T -> u <> t -> is_ready s A u U ->
  0 <= uxCriticalNesting s < 2 ^ 64 - 1 -> yields_ok sp s -> 0 < n -> xTickCount s + n < 2 ^ 32 ->
  exists s1, vTaskDelay n sp s = Some (tt, s1) /\ pxCurrentTCB s1 <> t /\
    (forall k, 0 <= k < n -> exists sk Ak, ticks (Z.to_nat k) s1 = Some (tt, sk) /\ kinv None sk Ak live /\
       is_delayed Ak t (xTickCount s + n)) /\
    exists s2 A2 T2, ticks (Z.to_nat n) s1 = Some (tt, s2) /\ kinv None s2 A2 live /\ is_ready s2 A2 t T2.
Proof.
  intros Hk Hrun Hne [HU Hu] Hcn Hy Hn Hw. pose proof (ki_tick _ _ _ _ Hk) as Htk. unfold in_u in Htk.
  destruct (wp_vTaskDelay s A live t T u U n sp Hk Hrun ltac:(lia) Hcn Hy Hne HU Hu) as ([] & s1 & Hd & A1 & [_ Hst _ (w & _ & <- & Hw' & _) Ht1 _] & Hk1).
  rewrite (wrapu_small 32) in Hst by (unfold in_u; lia).
  assert (Hdel : is_delayed A1 t (xTickCount s + n)) by (by eexists).
  exists s1. split_and!; try done.
  - intros k Hkn. destruct (ticks_keep (Z.to_nat k) s1 A1 live t _ Hk1 Hdel ltac:(lia) ltac:(lia)) as (sk & Ak & ? & ? & ? & _). by exists sk, Ak.
  - destruct (ticks_keep (Z.to_nat (n - 1)) s1 A1 live t _ Hk1 Hdel ltac:(lia) ltac:(lia)) as (sk & Ak & Hr & Hkk & Hdk & Htkk).
    destruct (tick_effect sk Ak live Hkk) as (s2 & A2 & Hrun2 & Hk2 & Htick & _ & _ & _ & Hwake & _).
    rewrite (wrapu_small 32) in Htick by (unfold in_u; lia).
    destruct (Hwake t _ Hdk ltac:(lia)) as (T2 & Hr2 & _). exists s2, A2, T2. split_and!; try done.
    replace (Z.to_nat n) with (S (Z.to_nat (n - 1))) by lia. by eapply ticks_S_end.
Qed.

(** C15: a task that calls [vTaskDelay(n)], its stack not overrun and another
    task ready, at a tick count of at most 2^32-2 and with [now + n] reaching
    2^32 or more, so that the stored wake time wraps, is ready again after the
    very first tick, however large n is. *)
Theorem delay_wraps_early s A live t T u U n sp :
  kinv None s A live -> running s A t T -> u <> t -> is_ready s A u U ->
  0 <= uxCriticalNesting s < 2 ^ 64 - 1 -> yields_ok sp s -> 0 < n < 2 ^ 32 -> xTickCount s + 1 < 2 ^ 32 <= xTickCount s + n ->
  exists s1 s2 A2 T2, vTaskDelay n sp s = Some (tt, s1) /\ pxCurrentTCB s1 <> t /\
    ticks 1 s1 = Some (tt, s2) /\ kinv None s2 A2 live /\ is_ready s2 A2 t T2.
Proof.
  intros Hk Hrun Hne [HU Hu] Hcn Hy Hn Hw.
  destruct (wp_vTaskDelay s A live t T u U n sp Hk Hrun ltac:(lia) Hcn Hy Hne HU Hu) as ([] & s1 & Hd & A1 & [_ Hst _ (w & _ & <- & Hw' & _) Ht1 _] & Hk1).
  destruct (tick_effect s1 A1 live Hk1) as (s2 & A2 & Hrun2 & Hk2 & Htick & _ & _ & _ & Hwake & _).
  pose proof (ki_tick _ _ _ _ Hk) as Htk. unfold in_u in Htk.
  rewrite Ht1, (wrapu_small 32) in Htick by (unfold in_u; lia).
  assert (Hval : u32 (xTickCount s + n) = xTickCount s + n - 2 ^ 32).
  { unfold wrapu. symmetry. apply (Z.mod_unique _ _ 1); lia. }
  destruct (Hwake t (u32 (xTickCount s + n))) as (T2 & Hr2 & _); [by eexists|lia|].
  exists s1, s2, A2, T2. split_and!; try done. cbn [ticks]. by erewrite bind_eq by done.
Qed.

Lemma reprioritised_lifts s s' A A' h H p :
  k_tcbs s !! h = Some H -> reprioritised s s' A A' h p ->
  k_tcbs s' = <[h := with_priority p H]> (k_tcbs s) /\ (is_ready s A h H -> is_ready s' A' h (with_priority p H)) /\
  forall i, task_of i <> h -> am_items A' !! i = am_items A !! i.
Proof.
  intros HH (m & v & -> & Hoth & Hc).
  assert (Ht : alter (with_priority p) h (k_tcbs s) = <[h := with_priority p H]> (k_tcbs s)).
  { apply map_eq. intros i. rewrite lookup_alter, lookup_insert. case_decide; subst; [by rewrite HH|done]. }
  split_and!; [exact Ht| |intros i Hi; apply Hoth; by intros ->].
  intros [_ Hr]. split; [cbn; by rewrite Ht, lookup_insert_eq|]. by rewrite Hc, Hr.
Qed.

(** C11: with inheritance enabled, a mutex holder that runs below the caller
    (and not below its own base priority) is lifted to the caller's priority,
    onto the ready list of that priority if it was ready; through any ticks,
    yields, delays, waits and signals it stays there until it is disinherited,
    which puts it back at its base priority and, if ready, on that list.  No
    other task's items move in either step. *)
Theorem inheritance_lifts_and_restores idle s A live h H C I :
  kinv None s A live -> is_ready s A (pxCurrentTCB s) C -> is_ready s A idle I -> 0 <= uxCriticalNesting s < 2 ^ 64 - 1 ->
  k_tcbs s !! h = Some H -> xInheritEnabled s <> pdFALSE -> uxBasePriority H <= uxPriority H < uxPriority C ->
  exists s1 A1, vTaskPriorityInherit h s = Some (tt, s1) /\ kinv None s1 A1 live /\
    k_tcbs s1 = <[h := with_priority (uxPriority C) H]> (k_tcbs s) /\
    (is_ready s A h H -> is_ready s1 A1 h (with_priority (uxPriority C) H)) /\
    (forall i, task_of i <> h -> am_items A1 !! i = am_items A !! i) /\
    forall s2, rtc (quiet_step sym idle) s1 s2 ->
      sched_inv idle s2 /\ exists H2, k_tcbs s2 !! h = Some H2 /\ uxPriority H2 = uxPriority C /\
      forall A2 live2, kinv None s2 A2 live2 ->
        exists s3 A3, vTaskPriorityDisinherit h s2 = Some (pdTRUE, s3) /\ kinv None s3 A3 live2 /\
          k_tcbs s3 = <[h := with_priority (uxBasePriority H) H2]> (k_tcbs s2) /\
          (is_ready s2 A2 h H2 -> is_ready s3 A3 h (with_priority (uxBasePriority H) H2)) /\
          forall i, task_of i <> h -> am_items A3 !! i = am_items A2 !! i.
Proof.
  intros Hk HC HI Hn HH Hen [Hbase Hlt].
  destruct (wp_vTaskPriorityInherit s A live h H C Hk HH (proj1 HC)) as ([] & s1 & Hrun1 & Hp1).
  rewrite (proj2 (Z.eqb_neq _ _) Hen), (proj2 (Z.ltb_lt _ _) Hlt) in Hp1. cbn [negb andb] in Hp1. destruct Hp1 as (A1 & Hrep1 & Hk1).
  destruct (reprioritised_ready _ _ _ _ _ _ _ _ _ _ Hk HH Hrep1 HC) as [C1 HC1].
  destruct (reprioritised_ready _ _ _ _ _ _ _ _ _ _ Hk HH Hrep1 HI) as [I1 HI1].
  destruct (reprioritised_lifts _ _ _ _ _ _ _ HH Hrep1) as (Ht1 & Hr1 & Hot1). destruct Hrep1 as (m1 & v1 & -> & _).
  set (s1 := set_lists m1 _) in *. exists s1, A1.
  split_and!; try done. intros s2 Hq. destruct (quiet_run sym idle s1 s2 h (with_priority (uxPriority C) H)) as (Hinv2 & H2 & HH2 & E2);
    [by exists A1, live, C1, I1|exact Hq|by rewrite Ht1, lookup_insert_eq|].
  split; [done|]. exists H2. assert (Hpr : uxPriority H2 = uxPriority C /\ uxBasePriority H2 = uxBasePriority H)
    by (destruct H2, H; cbn in E2; by injection E2 as -> -> _ _ _).
  destruct Hpr as [Hpr Hbs]. split_and!; try done. intros A2 live2 Hk2.
  destruct (wp_vTaskPriorityDisinherit s2 A2 live2 h H2 Hk2 HH2) as (r & s3 & Hrun3 & Hp3).
  rewrite (proj2 (Z.eqb_neq _ _)) in Hp3 by lia. destruct Hp3 as (-> & A3 & Hrep3 & Hk3).
  destruct (reprioritised_lifts _ _ _ _ _ _ _ HH2 Hrep3) as (Ht3 & Hr3 & Hot3). rewrite Hbs in *. exists s3, A3. by split_and!.
Qed.

(** [xTaskRemoveFromEventList] does nothing on an empty wait list;
    otherwise it wakes a waiter of the highest base priority, makes it ready,
    leaves the other waiters waiting, and asks for a yield exactly when the
    woken task outranks the current one. *)
Theorem event_wakes_highest_waiter s A live l C :
  kinv None s A live -> wait_list l -> core_list l -> k_tcbs s !! pxCurrentTCB s = Some C ->
  exists r s', xTaskRemoveFromEventList l s = Some (r, s') /\
    ((forall t, ~ waits A l t) /\ r = pdFALSE /\ s' = s \/
     exists t T A', kinv None s' A' live /\ k_tcbs s' = k_tcbs s /\ pxCurrentTCB s' = pxCurrentTCB s /\
       waits A l t /\ is_ready s' A' t T /\ cont A' (EventItem t) = Some None /\
       (forall v V, waits A l v -> k_tcbs s !! v = Some V -> uxBasePriority V <= uxBasePriority T) /\
       (forall v, v <> t -> waits A' l v <-> waits A l v) /\
       r = (if uxPriority C <? uxPriority T then pdTRUE else pdFALSE)).
Proof.
  intros Hk Hw Hcl HC. destruct (signal_effect s A live l C Hk Hw Hcl HC) as (r & s' & A' & Hrun & Hk' & Hsig).
  exists r, s'. split; [done|]. destruct Hsig as [ (? & ? & ? & _)|(t & T & m & v & -> & Hwt & Hr & He & Hmax & Hot & Hres)]; [by left|].
  right. exists t, T, A'. split_and!; try done. intros w Hne. unfold waits, cont. by rewrite Hot.
Qed.

(** [vTaskPlaceOnEventList] takes the caller off its ready list, queues
    it behind every waiter of at least its base priority and before the
    lower ones, and parks it on the delayed list until [now + n] (mod 2^32),
    or on the suspended list for [portMAX_DELAY]; no other task moves. *)
Theorem event_wait_in_priority_order s A live t T l n :
  kinv None s A live -> running s A t T -> wait_list l -> core_list l -> in_u 32 n ->
  exists s' A' ys zs wc, vTaskPlaceOnEventList l n s = Some (tt, s') /\ kinv None s' A' live /\
    am_lists A !! l = Some (ys ++ zs, wc) /\ am_lists A' !! l = Some (ys ++ EventItem t :: zs, wc) /\
    (forall v V, EventItem v ∈ ys -> k_tcbs s !! v = Some V -> uxBasePriority T <= uxBasePriority V) /\
    (forall v V, EventItem v ∈ zs -> k_tcbs s !! v = Some V -> uxBasePriority V < uxBasePriority T) /\
    cont A' (StateItem t) = Some (Some (if n =? portMAX_DELAY then Suspended else Delayed)) /\
    (n <> portMAX_DELAY -> a_val A' (StateItem t) = u32 (xTickCount s + n)) /\
    (forall i, task_of i <> t -> am_items A' !! i = am_items A !! i).
Proof.
  intros Hk Hrun Hw Hcl Hn. destruct (inv_list _ _ _ _ l Hk Hcl) as (ws & wc & Hl).
  destruct (wp_vTaskPlaceOnEventList s A live t T l n Hk Hrun Hw) as ([] & s' & Hrn & A' & [_ _ Hst Hwk (ws' & wc' & Hl' & HlA') Hot] & Hk');
    [by eexists|done|]. rewrite Hl in Hl'. injection Hl' as <- <-.
  destruct (insert_sorted_split (a_val A) (32 - uxBasePriority T) (EventItem t) ws) as (ys & zs & -> & Hins & Hys & Hzs).
  exists s', A', ys, zs, wc. rewrite Hins in HlA'. rewrite Forall_forall in Hys. split_and!; try done.
  - intros v V Hv HV. specialize (Hys _ Hv). rewrite (event_value _ _ _ _ _ Hk HV) in Hys. lia.
  - intros v V Hv HV. destruct zs as [|z zs]; [by apply elem_of_nil in Hv|]. specialize (Hzs z eq_refl).
    apply elem_of_cons in Hv as [<-|Hv]; [rewrite (event_value _ _ _ _ _ Hk HV) in Hzs; lia|].
    pose proof (waiters_sorted _ _ _ _ _ _ _ _ _ _ Hk Hw Hl eq_refl Hv) as Hle. rewrite (event_value _ _ _ _ _ Hk HV) in Hle. lia.
Qed.


(** [uxTaskGetSnapshot] reads only task memory, changes nothing, and
    reports the first min(max, registered) tasks with their priorities and
    exactly the number of untouched words at the bottom of each stack. *)
Theorem snapshot_reports_tasks s A live uxMax :
  kinv None s A live -> exists r, uxTaskGetSnapshot uxMax s = Some (r, s) /\
    length r = Z.to_nat (Z.min uxMax (uxRegisteredTasks s)) /\ forall j e, r !! j = Some e -> describes s j e.
Proof. intros Hk. destruct (wp_uxTaskGetSnapshot s A live uxMax Hk) as (r & s' & Hrun & -> & ? & ?). by exists r. Qed.

(** C8: from a state in which the current and the idle task are ready, every
    sequence of scheduler operations, run one after another by well-behaved
    callers (ticks, yields, delays, creations, inheritance changes, event waits
    and signals, in any order), keeps the whole invariant, and no admissible
    operation ever gets stuck, loops or touches memory it does not own.  A
    caller is well behaved when it has not overrun its stack where it gives up
    the processor, is not the idle task where it blocks, and names live tasks
    and queues. *)
Theorem scheduler_always_safe idle s s' :
  sched_inv idle s -> rtc (sched_step sym idle) s s' ->
  sched_inv idle s' /\ forall op, op_ok idle s' op -> exists s'', run_op sym op s' = Some (tt, s'') /\ sched_inv idle s''.
Proof.
  intros Hinv Hsteps. assert (Hs' : sched_inv idle s').
  { induction Hsteps as [|s1 s2 s3 Hstep _ IH]; [done|]. apply IH. destruct Hstep as [s1 op s2 Hok Hrun].
    destruct (op_safe sym idle op s1 Hinv Hok) as (s2' & Hrun' & ?). by simplify_eq. }
  split; [done|]. intros op Hok. by apply (op_safe sym).
Qed.
End properties.
