(* ===== verification/TasksWitness.v ===== *)
(** * The scheduler's properties at concrete states

    Each theorem about tasks.c applied to the system of TasksDemo.v: tasks A
    and B at priority 2, C at priority 1 and the idle task, over list.c and
    heap_4.c. *)

From stdpp Require Import sorting.
From S2P Require Import Prelude Config Lists ListSpec ListRefine Heap4 Heap4Spec Alloc Heap4Props Tasks TasksInv TasksSpec TasksCreate TasksSafe TasksFrame TasksDemo TasksProps.

#[local] Existing Instance no_queues.

Definition tcb_of (s : DK) (t : Z) : TCB_t := default (TCB 0 0 0 0 0 []) (k_tcbs s !! t).

(** Readiness, decided on the concrete lists. *)
Lemma ready_concrete (s : DK) A live t :
  kinv None s A live -> k_tcbs s !! t = Some (tcb_of s t) ->
  container_of (k_lists s) (StateItem t) = Some (Some (Ready (uxPriority (tcb_of s t)))) -> is_ready s A t (tcb_of s t).
Proof. intros Hk HT Hc. split; [done|]. by rewrite <- (cont_concrete s A live). Qed.

Ltac ready_demo Hk := apply (ready_concrete _ _ _ _ Hk); vm_compute; reflexivity.

Lemma demo_running A live : kinv None demo A live -> running demo A demo_A (tcb_of demo demo_A).
Proof.
  intros Hk. change demo_A with (pxCurrentTCB demo). apply running_ready. ready_demo Hk.
Qed.

(** A stack pointer sixteen words above the bottom of task A's stack. *)
Definition demo_sp : Z := pxStack (tcb_of demo demo_A) + 128.
Ltac stack_demo := split_and!; [vm_compute; congruence|vm_compute; reflexivity..].
Lemma demo_yields : yields_ok demo_sp demo.
Proof. apply (yields_of _ _ (tcb_of demo demo_A)); [vm_compute; reflexivity|stack_demo]. Qed.
Lemma demo_current : current_ok demo.
Proof. apply (current_of _ (tcb_of demo demo_A)); [vm_compute; reflexivity|stack_demo]. Qed.


Lemma tick_wakes_exactly_due_witness :
  exists s', xTaskIncrementTick demo = Some (tt, s') /\ xTickCount s' = 1.
Proof.
  destruct demo_ok as (A & live & Hk). destruct (tick_wakes_exactly_due demo A live Hk) as (s' & A' & Hrun & _ & Ht & _).
  exists s'. split; [exact Hrun|]. rewrite Ht. vm_compute. reflexivity.
Defined.

Lemma demo_nesting : 0 <= uxCriticalNesting demo < 2 ^ 64 - 1.
Proof. vm_compute. intuition congruence. Qed.

Lemma delay_lasts_n_ticks_witness :
  exists s1 s2, vTaskDelay 3 demo_sp demo = Some (tt, s1) /\ pxCurrentTCB s1 <> demo_A /\
    ticks 3 s1 = Some (tt, s2) /\ exists A2 T2, is_ready s2 A2 demo_A T2.
Proof.
  destruct demo_ok as (A & live & Hk). assert (HB : is_ready demo A demo_B (tcb_of demo demo_B)) by ready_demo Hk.
  destruct (delay_lasts_n_ticks demo A live demo_A _ demo_B (tcb_of demo demo_B) 3 demo_sp Hk (demo_running A live Hk)) as (s1 & Hd & Hne & _ & s2 & A2 & T2 & Ht & _ & Hr);
    [vm_compute; congruence|exact HB|exact demo_nesting|exact demo_yields|lia|vm_compute; reflexivity|].
  exists s1, s2. split_and!; [exact Hd|exact Hne|exact Ht|by exists A2, T2].
Defined.

(** The same system shortly before the tick count wraps. *)
Definition demo_late : DK := set_tick (2 ^ 32 - 2) demo.

Lemma tick_keeps_ready (s : DK) A t T v : is_ready s A t T -> is_ready (set_tick v s) A t T.
Proof. done. Qed.
Lemma tick_keeps_running (s : DK) A t T v : running s A t T -> running (set_tick v s) A t T.
Proof. intros []. by constructor. Qed.

Lemma tick_keeps_yields sp (s : DK) v : yields_ok sp s -> yields_ok sp (set_tick v s).
Proof. done. Qed.

Lemma delay_wraps_early_witness :
  exists s1 s2, vTaskDelay 1000 demo_sp demo_late = Some (tt, s1) /\ pxCurrentTCB s1 <> demo_A /\
    ticks 1 s1 = Some (tt, s2) /\ exists A2 T2, is_ready s2 A2 demo_A T2.
Proof.
  destruct demo_ok as (A & live & Hk0).
  assert (Hk : kinv None demo_late A live) by (apply kinv_tick; [exact Hk0|unfold in_u; lia]).
  assert (HB0 : is_ready demo A demo_B (tcb_of demo demo_B)) by ready_demo Hk0.
  pose proof (tick_keeps_ready demo A demo_B _ (2 ^ 32 - 2) HB0) as HB.
  pose proof (tick_keeps_running demo A demo_A _ (2 ^ 32 - 2) (demo_running A live Hk0)) as HA.
  destruct (delay_wraps_early demo_late A live demo_A _ demo_B (tcb_of demo demo_B) 1000 demo_sp Hk HA) as (s1 & s2 & A2 & T2 & Hd & Hne & Ht & _ & Hr);
    [vm_compute; congruence|exact HB|vm_compute; intuition congruence|exact (tick_keeps_yields _ _ _ demo_yields)|lia|vm_compute; intuition congruence|].
  exists s1, s2. split_and!; [exact Hd|exact Hne|exact Ht|by exists A2, T2].
Defined.

(** A tick passes between the two. *)
Lemma inheritance_lifts_and_restores_witness :
  exists s1 s2 s3, vTaskPriorityInherit demo_C demo = Some (tt, s1) /\ run_op demo_sym OpTick s1 = Some (tt, s2) /\
    vTaskPriorityDisinherit demo_C s2 = Some (pdTRUE, s3).
Proof.
  destruct demo_ok as (A & live & Hk).
  assert (HA : is_ready demo A (pxCurrentTCB demo) (tcb_of demo demo_A)) by (change demo_A with (pxCurrentTCB demo); ready_demo Hk).
  assert (HI : is_ready demo A demo_idle (tcb_of demo demo_idle)) by ready_demo Hk.
  destruct (inheritance_lifts_and_restores demo_sym demo_idle demo A live demo_C (tcb_of demo demo_C) _ _ Hk HA HI)
    as (s1 & A1 & H1 & Hk1 & _ & _ & _ & Hq);
    [vm_compute; intuition congruence|vm_compute; reflexivity|vm_compute; congruence|vm_compute; intuition congruence|].
  assert (E1 : exists s2, run_op demo_sym OpTick s1 = Some (tt, s2)).
  { destruct (tick_effect s1 A1 live Hk1) as (s2 & ? & ? & _). by exists s2. }
  destruct E1 as (s2 & H2). destruct (Hq s2) as ((A2 & live2 & T2 & I2 & Hk2 & _) & H0 & _ & _ & Hd).
  { eapply rtc_l; [exact (Quiet_step _ _ s1 OpTick s2 Logic.I Logic.I H2)|apply rtc_refl]. }
  destruct (Hd A2 live2 Hk2) as (s3 & A3 & H3 & _). exists s1, s2, s3. split_and!; [exact H1|exact H2|exact H3].
Defined.


Lemma snapshot_reports_tasks_witness : exists r, uxTaskGetSnapshot 3 demo = Some (r, demo) /\ length r = 3%nat.
Proof.
  destruct demo_ok as (A & live & Hk). destruct (snapshot_reports_tasks demo A live 3 Hk) as (r & Hrun & Hl & _).
  exists r. split; [exact Hrun|]. rewrite Hl. vm_compute. reflexivity.
Defined.

Lemma demo_sched_inv : sched_inv demo_idle demo.
Proof.
  destruct demo_ok as (A & live & Hk). exists A, live, (tcb_of demo demo_A), (tcb_of demo demo_idle). split_and!; [done| | |apply demo_nesting..].
  - change demo_A with (pxCurrentTCB demo). ready_demo Hk.
  - ready_demo Hk.
Qed.

Definition after (op : sched_op) (s : DK) : DK := match run_op demo_sym op s with Some (_, s') => s' | None => s end.
Lemma after_run op s s' : run_op demo_sym op s = Some (tt, s') -> s' = after op s.
Proof. intros H. unfold after. by rewrite H. Qed.
Lemma ticked_yields : yields_ok demo_sp (after OpTick (after OpTick demo)).
Proof. apply (yields_of _ _ (tcb_of demo demo_A)); [vm_compute; reflexivity|stack_demo]. Qed.

(** Two ticks, then a yield. *)
Lemma scheduler_always_safe_witness :
  exists s1 s2, run_op demo_sym OpTick demo = Some (tt, s1) /\ run_op demo_sym OpTick s1 = Some (tt, s2) /\
    exists s3, run_op demo_sym (OpYield demo_sp) s2 = Some (tt, s3) /\ sched_inv demo_idle s3.
Proof.
  destruct (op_safe demo_sym demo_idle OpTick demo demo_sched_inv Logic.I) as (s1 & H1 & Hi1).
  destruct (op_safe demo_sym demo_idle OpTick s1 Hi1 Logic.I) as (s2 & H2 & _).
  exists s1, s2. split_and!; [exact H1|exact H2|].
  assert (Hsteps : rtc (sched_step demo_sym demo_idle) demo s2).
  { eapply rtc_l; [exact (Sched_step _ _ demo OpTick s1 Logic.I H1)|].
    eapply rtc_l; [exact (Sched_step _ _ s1 OpTick s2 Logic.I H2)|apply rtc_refl]. }
  destruct (scheduler_always_safe demo_sym demo_idle demo s2 demo_sched_inv Hsteps) as [_ Hop].
  assert (Hy : yields_ok demo_sp s2) by (rewrite (after_run _ _ _ H2), (after_run _ _ _ H1); exact ticked_yields).
  destruct (Hop (OpYield demo_sp) Hy) as (s3 & H3 & Hi3). exists s3. split; [exact H3|exact Hi3].
Defined.
