(* ===== verification/Libc.v ===== *)
(** * Freestanding memory primitives (src/kernel/flint_libc.c)

    Byte memory as a finite map from addresses; an access outside it is
    undefined.  The four loops are translated index by index, and shown to
    implement the block write [write_bytes]: memcpy for regions that do not
    overlap, memmove for any two regions, memset for a constant. *)

From S2P Require Import Prelude.

Abbreviation mem := (gmap Z Z).

Definition ld_byte (a : Z) : M mem Z := get_opt (fun m => m !! a).
Definition st_byte (a v : Z) : M mem unit := _ ← ld_byte a; modify <[a := v]>.

(** [for (i = 0; i < n; i++) d[i] = s[i]], from index [i] with [n] to go. *)
Fixpoint copy_up (d s i : Z) (n : nat) : M mem unit :=
  match n with
  | O => mret tt
  | S n => b ← ld_byte (s + i); st_byte (d + i) b;; copy_up d s (i + 1) n
  end.
(** [for (i = n; i > 0; i--) d[i - 1] = s[i - 1]]. *)
Fixpoint copy_down (d s : Z) (i : nat) : M mem unit :=
  match i with
  | O => mret tt
  | S i => b ← ld_byte (s + Z.of_nat i); st_byte (d + Z.of_nat i) b;; copy_down d s i
  end.

Definition memcpy (dest src n : Z) : M mem Z :=
  copy_up dest src 0 (Z.to_nat n);; mret dest.

Fixpoint set_up (d c i : Z) (n : nat) : M mem unit :=
  match n with
  | O => mret tt
  | S n => st_byte (d + i) (u8 c);; set_up d c (i + 1) n
  end.
Definition memset (dest c n : Z) : M mem Z :=
  set_up dest c 0 (Z.to_nat n);; mret dest.

Definition memmove (dest src n : Z) : M mem Z :=
  (if dest <? src then copy_up dest src 0 (Z.to_nat n) else copy_down dest src (Z.to_nat n));; mret dest.

(** The scan of strlen; the fuel bounds the length it can report. *)
Fixpoint strlen_from (fuel : nat) (s n : Z) : M mem Z :=
  match fuel with
  | O => fails
  | S fuel => c ← ld_byte (s + n); if negb (c =? 0) then strlen_from fuel s (n + 1) else mret n
  end.
Definition strlen (s : Z) : M mem Z := fuel ← gets (fun m => S (size m)); strlen_from fuel s 0.

(** ** Block reads and writes *)

Definition bytes_at (m : mem) (a : Z) (bs : list Z) : Prop :=
  forall j b, bs !! j = Some b -> m !! (a + Z.of_nat j) = Some b.
Definition owned (m : mem) (a n : Z) : Prop := forall i, 0 <= i < n -> is_Some (m !! (a + i)).
Fixpoint write_bytes (a : Z) (bs : list Z) (m : mem) : mem :=
  match bs with [] => m | b :: bs => write_bytes (a + 1) bs (<[a := b]> m) end.

Lemma write_bytes_out a bs m x : ~ a <= x < a + Z.of_nat (length bs) -> write_bytes a bs m !! x = m !! x.
Proof.
  revert a m. induction bs as [|b bs IH]; intros a m Hx; [done|]. simpl in *.
  rewrite IH by lia. rewrite lookup_insert_ne; [done|lia].
Qed.
Lemma write_bytes_in a bs m j b : bs !! j = Some b -> write_bytes a bs m !! (a + Z.of_nat j) = Some b.
Proof.
  revert a m j. induction bs as [|c bs IH]; intros a m j Hj; [done|]. destruct j as [|j]; simpl in *.
  - injection Hj as ->. rewrite Z.add_0_r, write_bytes_out by lia. by rewrite lookup_insert_eq.
  - replace (a + Z.of_nat (S j)) with (a + 1 + Z.of_nat j) by lia. by apply IH.
Qed.
Lemma write_bytes_app a xs ys m :
  write_bytes a (xs ++ ys) m = write_bytes (a + Z.of_nat (length xs)) ys (write_bytes a xs m).
Proof.
  revert a m. induction xs as [|x xs IH]; intros a m; simpl; [by rewrite Z.add_0_r|].
  rewrite IH. f_equal. lia.
Qed.
Lemma bytes_at_write a bs m : bytes_at (write_bytes a bs m) a bs.
Proof. intros j b Hj. by apply write_bytes_in. Qed.
Lemma bytes_at_frame a bs m d xs :
  bytes_at m a bs -> d + Z.of_nat (length xs) <= a \/ a + Z.of_nat (length bs) <= d ->
  bytes_at (write_bytes d xs m) a bs.
Proof.
  intros Hb Hd j b Hj. pose proof (lookup_lt_Some _ _ _ Hj). rewrite write_bytes_out by lia. by apply Hb.
Qed.
Lemma owned_write m a n d xs : owned m a n -> owned (write_bytes d xs m) a n.
Proof.
  intros Ho i Hi. destruct (decide (d <= a + i < d + Z.of_nat (length xs))) as [Hin|Hout].
  - destruct (lookup_lt_is_Some_2 xs (Z.to_nat (a + i - d)) ltac:(lia)) as [b Hb].
    exists b. replace (a + i) with (d + Z.of_nat (Z.to_nat (a + i - d))) by lia. by apply write_bytes_in.
  - rewrite write_bytes_out by done. by apply Ho.
Qed.

Lemma owned_sub m a n b k : owned m a n -> a <= b -> b + k <= a + n -> owned m b k.
Proof. intros Ho Hab Hk i Hi. replace (b + i) with (a + (b - a + i)) by lia. apply Ho. lia. Qed.

Lemma st_byte_run a v m : is_Some (m !! a) -> st_byte a v m = Some (tt, <[a := v]> m).
Proof. intros [w Hw]. unfold st_byte, ld_byte, get_opt, mbind, M_bind. simpl. by rewrite Hw. Qed.
Lemma ld_byte_run a v m : m !! a = Some v -> ld_byte a m = Some (v, m).
Proof. intros Hv. unfold ld_byte, get_opt. by rewrite Hv. Qed.

(** The upward copy writes the source's original bytes when a write never
    lands on a source byte still to be read. *)
Lemma copy_up_run d s i bs m :
  bytes_at m (s + i) bs -> owned m (d + i) (Z.of_nat (length bs)) ->
  d <= s \/ s + i + Z.of_nat (length bs) <= d + i ->
  copy_up d s i (length bs) m = Some (tt, write_bytes (d + i) bs m).
Proof.
  revert i m. induction bs as [|b bs IH]; intros i m Hb Ho Hd; [done|]. cbn [copy_up length write_bytes].
  erewrite bind_eq by (apply ld_byte_run; rewrite <- (Z.add_0_r (s + i)); exact (Hb 0%nat b eq_refl)).
  erewrite bind_eq by (apply st_byte_run; rewrite <- (Z.add_0_r (d + i)); apply Ho; simpl; lia).
  rewrite <- Z.add_assoc. simpl in *. destruct (decide (d = s)) as [->|Hne].
  - assert (<[s + i := b]> m = m) as ->.
    { apply insert_id. rewrite <- (Z.add_0_r (s + i)). exact (Hb 0%nat b eq_refl). }
    apply IH; [|intros k Hk; replace (s + (i + 1) + k) with (s + i + (k + 1)) by lia; apply Ho; lia|lia].
    intros j c Hj. replace (s + (i + 1) + Z.of_nat j) with (s + i + Z.of_nat (S j)) by lia. by apply Hb.
  - apply IH; [| |lia].
    + intros j c Hj. pose proof (lookup_lt_Some _ _ _ Hj). rewrite lookup_insert_ne by lia.
      replace (s + (i + 1) + Z.of_nat j) with (s + i + Z.of_nat (S j)) by lia. by apply Hb.
    + intros k Hk. apply lookup_insert_is_Some'. right.
      replace (d + (i + 1) + k) with (d + i + (k + 1)) by lia. apply Ho. lia.
Qed.

Lemma copy_down_run d s bs m :
  bytes_at m s bs -> owned m d (Z.of_nat (length bs)) -> s <= d ->
  copy_down d s (length bs) m = Some (tt, write_bytes d bs m).
Proof.
  revert m. induction bs as [|b bs IH] using rev_ind; intros m Hb Ho Hd; [done|].
  rewrite length_app in *. cbn [length] in *. rewrite Nat.add_comm. cbn [Nat.add copy_down].
  assert (Hlast : m !! (s + Z.of_nat (length bs)) = Some b) by (apply Hb; by rewrite lookup_app_r, Nat.sub_diag by lia).
  erewrite bind_eq by (by apply ld_byte_run). erewrite bind_eq by (apply st_byte_run, Ho; lia).
  rewrite IH; [| |intros k Hk; apply lookup_insert_is_Some'; right; apply Ho; lia|done].
  - do 2 f_equal. rewrite write_bytes_app. simpl. apply map_eq. intros x.
    destruct (decide (d <= x < d + Z.of_nat (length bs))) as [Hin|Hout].
    + rewrite lookup_insert_ne by lia. destruct (lookup_lt_is_Some_2 bs (Z.to_nat (x - d)) ltac:(lia)) as [c Hc].
      replace x with (d + Z.of_nat (Z.to_nat (x - d))) by lia. by rewrite !(write_bytes_in _ _ _ _ c).
    + rewrite write_bytes_out by done. rewrite !lookup_insert. case_decide; [done|]. by rewrite write_bytes_out.
  - intros j c Hj. pose proof (lookup_lt_Some _ _ _ Hj). destruct (decide (d = s)) as [->|].
    + rewrite lookup_insert_ne by lia. apply Hb. by apply lookup_app_l_Some.
    + rewrite lookup_insert_ne by lia. apply Hb. by apply lookup_app_l_Some.
Qed.

Lemma memcpy_run dest src bs m :
  bytes_at m src bs -> owned m dest (Z.of_nat (length bs)) ->
  dest <= src \/ src + Z.of_nat (length bs) <= dest ->
  memcpy dest src (Z.of_nat (length bs)) m = Some (dest, write_bytes dest bs m).
Proof.
  intros Hb Ho Hd. unfold memcpy. rewrite Nat2Z.id. pose proof (copy_up_run dest src 0 bs m) as Hc.
  rewrite !Z.add_0_r in Hc. by erewrite bind_eq by (by apply Hc).
Qed.

Lemma set_up_run d c i n m :
  owned m (d + i) (Z.of_nat n) -> set_up d c i n m = Some (tt, write_bytes (d + i) (replicate n (u8 c)) m).
Proof.
  revert i m. induction n as [|n IH]; intros i m Ho; [done|]. cbn [set_up replicate write_bytes].
  erewrite bind_eq by (apply st_byte_run; rewrite <- (Z.add_0_r (d + i)); apply Ho; lia).
  rewrite IH, <- Z.add_assoc; [done|]. intros k Hk. apply lookup_insert_is_Some'. right.
  replace (d + (i + 1) + k) with (d + i + (k + 1)) by lia. apply Ho. lia.
Qed.
Lemma memset_run dest c n m :
  0 <= n -> owned m dest n -> memset dest c n m = Some (dest, write_bytes dest (replicate (Z.to_nat n) (u8 c)) m).
Proof.
  intros Hn Ho. unfold memset. pose proof (set_up_run dest c 0 (Z.to_nat n) m) as Hs. rewrite Z.add_0_r in Hs.
  erewrite bind_eq; [done|]. apply Hs. by rewrite Z2Nat.id.
Qed.

(** memmove writes the original source bytes at the destination and
    nothing else, however the two regions overlap. *)
Theorem memmove_any_overlap dest src bs m :
  bytes_at m src bs -> owned m dest (Z.of_nat (length bs)) ->
  memmove dest src (Z.of_nat (length bs)) m = Some (dest, write_bytes dest bs m).
Proof.
  intros Hb Ho. unfold memmove. rewrite Nat2Z.id. destruct (Z.ltb_spec dest src).
  - pose proof (copy_up_run dest src 0 bs m) as Hc. rewrite !Z.add_0_r in Hc.
    erewrite bind_eq; [done|]. apply Hc; [done|done|lia].
  - erewrite bind_eq; [done|]. by apply copy_down_run.
Qed.

(** The region [a, a+n) of memory has at most as many bytes as the memory. *)
Lemma owned_size m a n : 0 <= n -> owned m a n -> n <= Z.of_nat (size m).
Proof.
  intros Hn Ho. rewrite <- size_dom. transitivity (Z.of_nat (size (list_to_set (seqZ a n) : gset Z))).
  - rewrite size_list_to_set by apply NoDup_seqZ. rewrite length_seqZ. lia.
  - apply Nat2Z.inj_le, subseteq_size. intros x Hx. apply elem_of_list_to_set, elem_of_seqZ in Hx. apply elem_of_dom.
    replace x with (a + (x - a)) by lia. apply Ho. lia.
Qed.

Lemma strlen_from_run fuel s n cs m :
  bytes_at m (s + n) (cs ++ [0]) -> 0 ∉ cs -> (length cs < fuel)%nat ->
  strlen_from fuel s n m = Some (n + Z.of_nat (length cs), m).
Proof.
  revert n cs. induction fuel as [|fuel IH]; intros n cs Hb Hz Hf; [lia|]. cbn [strlen_from].
  destruct cs as [|c cs]; simpl in *; erewrite bind_eq by (apply ld_byte_run; rewrite <- (Z.add_0_r (s + n)); exact (Hb 0%nat _ eq_refl)).
  - simpl. by rewrite Z.add_0_r.
  - apply not_elem_of_cons in Hz as [Hc Hz]. rewrite (proj2 (Z.eqb_neq c 0)) by done. cbn [negb].
    rewrite (IH (n + 1) cs); [do 2 f_equal; lia| |done|lia].
    intros j b Hj. replace (s + (n + 1) + Z.of_nat j) with (s + n + Z.of_nat (S j)) by lia. by apply Hb.
Qed.

(** strlen terminates on every terminated string and returns its length. *)
Theorem strlen_run s cs m : bytes_at m s (cs ++ [0]) -> 0 ∉ cs -> strlen s m = Some (Z.of_nat (length cs), m).
Proof.
  intros Hb Hz. unfold strlen. erewrite bind_eq by reflexivity. apply (strlen_from_run _ s 0); [by rewrite Z.add_0_r|done|].
  assert (owned m s (Z.of_nat (length cs))) as Hs%owned_size; [|lia|lia].
  intros i Hi. destruct (lookup_lt_is_Some_2 (cs ++ [0]) (Z.to_nat i)) as [b Hj]; [rewrite length_app; lia|].
  exists b. rewrite <- (Hb _ _ Hj). f_equal. lia.
Qed.

Definition demo_bytes : mem := list_to_map [(10, 1); (11, 2); (12, 3); (13, 4); (14, 0)].
Lemma memmove_any_overlap_witness :
  bytes_at demo_bytes 10 [1; 2; 3] /\ memmove 12 10 3 demo_bytes = Some (12, write_bytes 12 [1; 2; 3] demo_bytes).
Proof.
  assert (Hb : bytes_at demo_bytes 10 [1; 2; 3]) by (intros [|[|[|[|j] ] ] ] b; simpl; intros Hb; try done; by injection Hb as <-).
  split; [exact Hb|]. apply (memmove_any_overlap 12 10 [1; 2; 3] demo_bytes Hb).
  intros i Hi. assert (i = 0 \/ i = 1 \/ i = 2) as [->|[->| ->] ] by (simpl in Hi; lia); by eexists.
Defined.
