(* ===== verification/Queue.v ===== *)
(** * Queues, semaphores and mutexes (src/kernel/queue.c, src/include/FlintRTOS/semphr.h)

    A queue is a control block in the heap followed by its storage; the two
    wait lists inside the control block are the lists [WaitSend q] and
    [WaitRecv q] of the scheduler's list memory.  The state adds the control
    blocks and the byte memory (queue storage and callers' buffers) to the
    kernel of tasks.c.

    A call that may block is a small state machine: one step is the code
    between two points where another task can run, so that calls of several
    tasks interleave where the source lets them.  [PTry] is the first critical
    section; [PYield r] the yield to a task it woke, before it returns [r];
    [PBlock] the second critical section, which puts the caller on the wait
    list; [PWait] the yield after it; [PRetry] the third critical section, run
    once the caller has been scheduled again.  Interrupts are unmasked between
    any two of them.  A yield takes the caller's stack pointer [sp].

    Creation and deletion are uninterrupted steps: the allocator they call has
    no critical section, so their theorems are about a caller that no other
    task interrupts. *)

From S2P Require Import Prelude Config Lists ListSpec ListRefine Alloc Tasks Libc.

(** [struct QueueDefinition] without its embedded lists. *)
Record Queue_t := Queue {
  pcHead : Z; pcTail : Z; pcWriteTo : Z; pcReadFrom : Z;
  uxLength : Z; uxItemSize : Z; uxMessagesWaiting : Z;
  ucIsMutex : Z; pxMutexHolder : Z }.

Definition sizeof_Queue_t : Z := 152.

Definition with_write w Q := Queue (pcHead Q) (pcTail Q) w (pcReadFrom Q) (uxLength Q) (uxItemSize Q) (uxMessagesWaiting Q) (ucIsMutex Q) (pxMutexHolder Q).
Definition with_read r Q := Queue (pcHead Q) (pcTail Q) (pcWriteTo Q) r (uxLength Q) (uxItemSize Q) (uxMessagesWaiting Q) (ucIsMutex Q) (pxMutexHolder Q).
Definition with_count n Q := Queue (pcHead Q) (pcTail Q) (pcWriteTo Q) (pcReadFrom Q) (uxLength Q) (uxItemSize Q) n (ucIsMutex Q) (pxMutexHolder Q).
Definition with_mutex b Q := Queue (pcHead Q) (pcTail Q) (pcWriteTo Q) (pcReadFrom Q) (uxLength Q) (uxItemSize Q) (uxMessagesWaiting Q) b (pxMutexHolder Q).
Definition with_holder h Q := Queue (pcHead Q) (pcTail Q) (pcWriteTo Q) (pcReadFrom Q) (uxLength Q) (uxItemSize Q) (uxMessagesWaiting Q) (ucIsMutex Q) h.

Inductive phase := PTry | PYield (r : Z) | PBlock | PWait | PRetry | PDone (r : Z).
#[global] Instance phase_eq_dec : EqDecision phase.
Proof. solve_decision. Defined.

(** The bytes of a block handed out by the allocator, contents unspecified. *)
Definition fresh_bytes (a n : Z) (m : mem) : mem := write_bytes a (replicate (Z.to_nat n) 0) m.
Definition drop_bytes (a n : Z) (m : mem) : mem := filter (fun '(x, _) => ~ a <= x < a + n) m.

Section queue.
Context {LS HS : Type} `{!ListOps item lst LS} `{!HeapOps HS}.

Record qsys := QSys { q_kernel : kernel LS HS; q_queues : gmap Z Queue_t; q_mem : mem }.
Definition set_kernel k s := QSys k (q_queues s) (q_mem s).
Definition set_queues v s := QSys (q_kernel s) v (q_mem s).
Definition set_mem v s := QSys (q_kernel s) (q_queues s) v.

Abbreviation Q := (M qsys).

Definition onK {A} (c : M (kernel LS HS) A) : Q A := zoom q_kernel set_kernel c.
Definition onB {A} (c : M mem A) : Q A := zoom q_mem set_mem c.
Definition ld_q (q : Z) : Q Queue_t := get_opt (fun s => q_queues s !! q).
Definition st_q (q : Z) (f : Queue_t -> Queue_t) : Q unit :=
  _ ← ld_q q; modify (fun s => set_queues (alter f q (q_queues s)) s).

(** ** Creation and deletion *)

Definition xQueueCreate (uxQueueLength uxItemSize : Z) : Q Z :=
  if uxQueueLength =? 0 then mret 0
  else
    let xStorage := u64 (uxQueueLength * uxItemSize) in
    pxQueue ← onK (onH (hp_malloc (u64 (sizeof_Queue_t + xStorage))));
    if pxQueue =? 0 then mret 0
    else
      let head := pxQueue + sizeof_Queue_t in
      modify (fun s => set_mem (fresh_bytes head xStorage (q_mem s)) s);;
      modify (fun s => set_queues (<[pxQueue :=
        Queue head (head + xStorage) head
          (head + u64 (u64 (uxQueueLength - 1) * (if 0 <? uxItemSize then uxItemSize else 1)))
          uxQueueLength uxItemSize 0 0 0]> (q_queues s)) s);;
      onK (onL (ls_Initialise (WaitSend pxQueue)));;
      onK (onL (ls_Initialise (WaitRecv pxQueue)));;
      mret pxQueue.

(** The control block and its storage are no longer accessible. *)
Definition vQueueDelete (xQueue : Z) : Q unit :=
  onK (onH (hp_free xQueue));;
  modify (fun s => match q_queues s !! xQueue with
    | Some q => set_mem (drop_bytes (pcHead q) (pcTail q - pcHead q) (q_mem s)) (set_queues (delete xQueue (q_queues s)) s)
    | None => s
    end).

(** ** The circular buffer *)

Definition prvCopyIn (pxQueue pvItem xToFront : Z) : Q unit :=
  q ← ld_q pxQueue;
  (if (0 <? uxItemSize q) && negb (pvItem =? 0) then
     if xToFront =? pdFALSE then
       onB (memcpy (pcWriteTo q) pvItem (uxItemSize q));;
       let w := pcWriteTo q + uxItemSize q in
       st_q pxQueue (with_write (if pcTail q <=? w then pcHead q else w))
     else
       onB (memcpy (pcReadFrom q) pvItem (uxItemSize q));;
       st_q pxQueue (with_read (if pcReadFrom q =? pcHead q then pcTail q - uxItemSize q else pcReadFrom q - uxItemSize q))
   else mret tt);;
  st_q pxQueue (fun q => with_count (u64 (uxMessagesWaiting q + 1)) q).

Definition prvCopyOut (pxQueue pvBuffer : Z) : Q unit :=
  q ← ld_q pxQueue;
  (if 0 <? uxItemSize q then
     let r := pcReadFrom q + uxItemSize q in
     let r := if pcTail q <=? r then pcHead q else r in
     st_q pxQueue (with_read r);;
     onB (memcpy pvBuffer r (uxItemSize q));; mret tt
   else mret tt);;
  st_q pxQueue (fun q => with_count (u64 (uxMessagesWaiting q - 1)) q).

(** ** Sending *)

(** The critical section that sends if there is room; the result is [xYield]. *)
Definition prvSend_try (pxQueue pvItem xToFront : Z) : Q (option Z) :=
  onK taskENTER_CRITICAL;;
  q ← ld_q pxQueue;
  r ← (if uxMessagesWaiting q <? uxLength q then
         prvCopyIn pxQueue pvItem xToFront;;
         (if negb (ucIsMutex q =? 0) then
            onK (vTaskPriorityDisinherit (pxMutexHolder q));; st_q pxQueue (with_holder 0)
          else mret tt);;
         y ← onK (xTaskRemoveFromEventList (WaitRecv pxQueue));
         mret (Some y)
       else mret None);
  onK taskEXIT_CRITICAL;;
  mret r.

(** [if (xYield) taskYIELD(); return pdPASS;] *)
Definition woke (xYield : Z) : phase := if negb (xYield =? pdFALSE) then PYield pdPASS else PDone pdPASS.

Definition prvSend (pxQueue pvItem xTicksToWait xToFront sp : Z) (pc : phase) : Q phase :=
  match pc with
  | PTry =>
      r ← prvSend_try pxQueue pvItem xToFront;
      mret (match r with
      | Some xYield => woke xYield
      | None => if xTicksToWait =? 0 then PDone errQUEUE_FULL else PBlock
      end)
  | PYield r => onK (taskYIELD sp);; mret (PDone r)
  | PBlock =>
      onK taskENTER_CRITICAL;;
      onK (vTaskPlaceOnEventList (WaitSend pxQueue) xTicksToWait);;
      onK taskEXIT_CRITICAL;;
      mret PWait
  | PWait => onK (taskYIELD sp);; mret PRetry
  | PRetry =>
      r ← prvSend_try pxQueue pvItem xToFront;
      mret (match r with Some xYield => woke xYield | None => PDone errQUEUE_FULL end)
  | PDone r => mret (PDone r)
  end.

Definition xQueueSendToBack (xQueue pvItemToQueue xTicksToWait : Z) := prvSend xQueue pvItemToQueue xTicksToWait pdFALSE.
Definition xQueueSendToFront (xQueue pvItemToQueue xTicksToWait : Z) := prvSend xQueue pvItemToQueue xTicksToWait pdTRUE.

(** ** Receiving *)

Definition xQueueReceive_try (pxQueue pvBuffer : Z) : Q (option Z) :=
  onK taskENTER_CRITICAL;;
  q ← ld_q pxQueue;
  r ← (if 0 <? uxMessagesWaiting q then
         prvCopyOut pxQueue pvBuffer;;
         (if negb (ucIsMutex q =? 0) then
            h ← onK xTaskGetCurrentTaskHandle; st_q pxQueue (with_holder h)
          else mret tt);;
         y ← onK (xTaskRemoveFromEventList (WaitSend pxQueue));
         mret (Some y)
       else mret None);
  onK taskEXIT_CRITICAL;;
  mret r.

Definition xQueueReceive (xQueue pvBuffer xTicksToWait sp : Z) (pc : phase) : Q phase :=
  match pc with
  | PTry =>
      r ← xQueueReceive_try xQueue pvBuffer;
      mret (match r with
      | Some xYield => woke xYield
      | None => if xTicksToWait =? 0 then PDone errQUEUE_EMPTY else PBlock
      end)
  | PYield r => onK (taskYIELD sp);; mret (PDone r)
  | PBlock =>
      onK taskENTER_CRITICAL;;
      q ← ld_q xQueue;
      (if negb (ucIsMutex q =? 0) then onK (vTaskPriorityInherit (pxMutexHolder q)) else mret tt);;
      onK (vTaskPlaceOnEventList (WaitRecv xQueue) xTicksToWait);;
      onK taskEXIT_CRITICAL;;
      mret PWait
  | PWait => onK (taskYIELD sp);; mret PRetry
  | PRetry =>
      r ← xQueueReceive_try xQueue pvBuffer;
      mret (match r with Some xYield => woke xYield | None => PDone errQUEUE_EMPTY end)
  | PDone r => mret (PDone r)
  end.

(** A call with timeout 0, from its first critical section to its return. *)
Definition no_wait (call : phase -> Q phase) : Q phase := pc ← call PTry; call pc.

(** ** Counting semaphores, mutexes and queries *)

Definition xQueueCreateCounting (uxMaxCount uxInitialCount : Z) : Q Z :=
  xQueue ← xQueueCreate uxMaxCount 0;
  (if negb (xQueue =? 0) then st_q xQueue (with_count uxInitialCount) else mret tt);;
  mret xQueue.

Definition xQueueCreateMutex (sp : Z) : Q Z :=
  xQueue ← xQueueCreate 1 0;
  (if negb (xQueue =? 0) then
     st_q xQueue (with_mutex 1);;
     no_wait (xQueueSendToBack xQueue 0 0 sp);; mret tt
   else mret tt);;
  mret xQueue.

Definition uxQueueMessagesWaiting (xQueue : Z) : Q Z := q ← ld_q xQueue; mret (uxMessagesWaiting q).
Definition uxQueueSpacesAvailable (xQueue : Z) : Q Z :=
  q ← ld_q xQueue; mret (u64 (uxLength q - uxMessagesWaiting q)).

(** The macros of semphr.h. *)
Definition xSemaphoreCreateBinary : Q Z := xQueueCreate 1 0.
Definition xSemaphoreCreateCounting := xQueueCreateCounting.
Definition xSemaphoreCreateMutex := xQueueCreateMutex.
Definition xSemaphoreTake (xSem xTicksToWait : Z) := xQueueReceive xSem 0 xTicksToWait.
Definition xSemaphoreGive (xSem : Z) := xQueueSendToBack xSem 0 0.
Definition vSemaphoreDelete := vQueueDelete.
Definition uxSemaphoreGetCount := uxQueueMessagesWaiting.
End queue.

Arguments qsys : clear implicits.
