(* ===== verification/QueueSpec.v ===== *)
(** * The queue refines a bounded sequence

    [queue_ok] relates a control block and its storage to the sequence of the
    items it holds, oldest first: the item of index [i] is in slot
    [(r + 1 + i) mod uxLength], where [pcReadFrom] points at slot [r] and
    [pcWriteTo] at the slot after the newest item.  [qinv] adds the kernel
    invariant, with the wait lists of exactly the existing queues. *)

From stdpp Require Import sorting.
From S2P Require Import Prelude Config Lists ListSpec ListRefine Alloc Tasks TasksInv TasksSpec TasksCreate TasksSafe Libc Queue.

Implicit Types (Q : Queue_t) (m : mem) (q r w n : Z) (x : list Z) (items : list (list Z)).

(** ** Slots of the ring *)

Definition slot Q (i : Z) : Z := pcHead Q + i mod uxLength Q * uxItemSize Q.

Record ring_at m Q items r : Prop := {
  ra_range : 0 <= r < uxLength Q;
  ra_read : pcReadFrom Q = slot Q r;
  ra_write : pcWriteTo Q = slot Q (r + 1 + Z.of_nat (length items));
  ra_items : forall i x, items !! i = Some x -> bytes_at m (slot Q (r + 1 + Z.of_nat i)) x }.

Record shape_ok m Q items : Prop := {
  so_len : 0 < uxLength Q < 2 ^ 64;
  so_isz : 0 <= uxItemSize Q;
  so_tail : pcTail Q = pcHead Q + uxLength Q * uxItemSize Q;
  so_count : uxMessagesWaiting Q = Z.of_nat (length items);
  so_room : Z.of_nat (length items) <= uxLength Q;
  so_items : Forall (fun x => Z.of_nat (length x) = uxItemSize Q) items;
  so_owned : owned m (pcHead Q) (uxLength Q * uxItemSize Q);
  so_ring : 0 < uxItemSize Q -> exists r, ring_at m Q items r }.

Lemma mod_next r len : 0 <= r < len -> (r + 1) mod len = if r + 1 =? len then 0 else r + 1.
Proof.
  intros Hr. destruct (Z.eqb_spec (r + 1) len) as [->|]; [apply Z.mod_same; lia|]. apply Z.mod_small. lia.
Qed.
Lemma mod_prev r len : 0 <= r < len -> (r - 1) mod len = if r =? 0 then len - 1 else r - 1.
Proof.
  intros Hr. destruct (Z.eqb_spec r 0) as [->|].
  - symmetry. apply (Z.mod_unique _ _ (-1)); lia.
  - apply Z.mod_small. lia.
Qed.
Lemma mod_inj a i j len : 0 < len -> 0 <= i < len -> 0 <= j < len -> (a + i) mod len = (a + j) mod len -> i = j.
Proof.
  intros Hl Hi Hj Heq. pose proof (Z.div_mod (a + i) len ltac:(lia)) as H1. pose proof (Z.div_mod (a + j) len ltac:(lia)) as H2.
  set (d := (a + i) / len - (a + j) / len). assert (i - j = len * d) by (subst d; lia). clearbody d.
  destruct (Z.lt_trichotomy d 0) as [|[->|] ]; nia.
Qed.

Lemma slot_range Q i : 0 < uxLength Q -> 0 <= uxItemSize Q ->
  pcHead Q <= slot Q i /\ slot Q i + uxItemSize Q <= pcHead Q + uxLength Q * uxItemSize Q.
Proof. intros Hl Hs. unfold slot. pose proof (Z.mod_pos_bound i (uxLength Q) Hl). nia. Qed.

Lemma slot_apart Q i j : 0 < uxLength Q -> 0 <= uxItemSize Q -> i mod uxLength Q <> j mod uxLength Q ->
  slot Q i + uxItemSize Q <= slot Q j \/ slot Q j + uxItemSize Q <= slot Q i.
Proof.
  intros Hl Hs Hne. unfold slot. pose proof (Z.mod_pos_bound i (uxLength Q) Hl). pose proof (Z.mod_pos_bound j (uxLength Q) Hl). nia.
Qed.

Lemma slot_mod Q i : 0 < uxLength Q -> slot Q (i mod uxLength Q) = slot Q i.
Proof. intros. unfold slot. by rewrite Z.mod_mod by lia. Qed.
Lemma slot_eq Q i j : i mod uxLength Q = j mod uxLength Q -> slot Q i = slot Q j.
Proof. unfold slot. by intros ->. Qed.

(** The pointer advance of the code is the next slot. *)
Lemma advance_slot Q i :
  0 < uxLength Q -> 0 < uxItemSize Q -> pcTail Q = pcHead Q + uxLength Q * uxItemSize Q ->
  (if pcTail Q <=? slot Q i + uxItemSize Q then pcHead Q else slot Q i + uxItemSize Q) = slot Q (i + 1).
Proof.
  intros Hl Hs Ht. pose proof (Z.mod_pos_bound i (uxLength Q) Hl) as Hb. unfold slot. rewrite Ht.
  rewrite <- (Z.add_mod_idemp_l i 1) by lia. rewrite (mod_next (i mod uxLength Q)) by lia.
  destruct (Z.eqb_spec (i mod uxLength Q + 1) (uxLength Q)), (Z.leb_spec (pcHead Q + uxLength Q * uxItemSize Q) (pcHead Q + i mod uxLength Q * uxItemSize Q + uxItemSize Q)); nia.
Qed.
Lemma retreat_slot Q r :
  0 <= r < uxLength Q -> 0 < uxItemSize Q -> pcTail Q = pcHead Q + uxLength Q * uxItemSize Q ->
  (if slot Q r =? pcHead Q then pcTail Q - uxItemSize Q else slot Q r - uxItemSize Q) = slot Q (r - 1).
Proof.
  intros Hr Hs Ht. unfold slot. rewrite Ht. rewrite (mod_prev r) by lia. rewrite (Z.mod_small r) by lia.
  destruct (Z.eqb_spec r 0), (Z.eqb_spec (pcHead Q + r * uxItemSize Q) (pcHead Q)); nia.
Qed.

(** ** Effect of the copies on the sequence *)

Lemma ring_put_back m Q items r x :
  ring_at m Q items r -> 0 < uxItemSize Q -> Z.of_nat (length items) < uxLength Q -> Z.of_nat (length x) = uxItemSize Q ->
  Forall (fun x => Z.of_nat (length x) = uxItemSize Q) items ->
  ring_at (write_bytes (pcWriteTo Q) x m)
    (with_count (uxMessagesWaiting Q + 1) (with_write (slot Q (r + 1 + Z.of_nat (length items) + 1)) Q)) (items ++ [x]) r.
Proof.
  intros [Hr Hrd Hw Hi] Hs Hlt Hx Hall. constructor; simpl; try done.
  - unfold slot. simpl. rewrite length_app. simpl. f_equal. f_equal. f_equal. lia.
  - intros i y [Hy|[Hge Hy] ]%lookup_app_Some.
    + pose proof (lookup_lt_Some _ _ _ Hy). apply bytes_at_frame; [by apply Hi|].
      rewrite Forall_lookup in Hall. rewrite (Hall _ _ Hy), Hx, Hw.
      destruct (slot_apart Q (r + 1 + Z.of_nat i) (r + 1 + Z.of_nat (length items))); [lia|lia| |right; done|left; done].
      intros Heq%mod_inj; lia.
    + apply list_lookup_singleton_Some in Hy as [Hz <-]. replace i with (length items) by lia.
      rewrite Hw. apply bytes_at_write.
Qed.

Lemma ring_put_front m Q items r x :
  ring_at m Q items r -> 0 < uxItemSize Q -> Z.of_nat (length items) < uxLength Q -> Z.of_nat (length x) = uxItemSize Q ->
  Forall (fun x => Z.of_nat (length x) = uxItemSize Q) items ->
  ring_at (write_bytes (pcReadFrom Q) x m)
    (with_count (uxMessagesWaiting Q + 1) (with_read (slot Q (r - 1)) Q)) (x :: items) ((r - 1) mod uxLength Q).
Proof.
  intros [Hr Hrd Hw Hi] Hs Hlt Hx Hall. pose proof (Z.mod_pos_bound (r - 1) (uxLength Q) ltac:(lia)).
  assert (Hsh : forall k, ((r - 1) mod uxLength Q + 1 + k) mod uxLength Q = (r + k) mod uxLength Q).
  { intros k. rewrite <- Z.add_assoc, Z.add_mod_idemp_l by lia. f_equal. lia. }
  constructor; simpl; try done.
  - unfold slot. simpl. by rewrite Z.mod_mod by lia.
  - unfold slot. simpl. rewrite Hw. unfold slot. rewrite Hsh. f_equal. f_equal. f_equal. lia.
  - intros [|i] y Hy; simpl in Hy.
    + injection Hy as <-. replace (slot _ ((r - 1) mod uxLength Q + 1 + Z.of_nat 0)) with (pcReadFrom Q); [apply bytes_at_write|].
      rewrite Hrd. unfold slot. simpl. rewrite Hsh. by rewrite Z.add_0_r.
    + pose proof (lookup_lt_Some _ _ _ Hy).
      replace (slot _ ((r - 1) mod uxLength Q + 1 + Z.of_nat (S i))) with (slot Q (r + 1 + Z.of_nat i)).
      2:{ unfold slot. simpl. rewrite Hsh. f_equal. f_equal. f_equal. lia. }
      apply bytes_at_frame; [by apply Hi|]. rewrite Forall_lookup in Hall. rewrite (Hall _ _ Hy), Hx, Hrd.
      destruct (slot_apart Q (r + 1 + Z.of_nat i) r); [lia|lia| |right; done|left; done].
      rewrite <- (Z.add_0_r r) at 2. rewrite <- Z.add_assoc. intros Heq%mod_inj; lia.
Qed.

Lemma ring_take m Q items r x :
  ring_at m Q (x :: items) r ->
  ring_at m (with_count (uxMessagesWaiting Q - 1) (with_read (slot Q (r + 1)) Q)) items ((r + 1) mod uxLength Q) /\
  bytes_at m (slot Q (r + 1)) x.
Proof.
  intros [Hr Hrd Hw Hi]. pose proof (Z.mod_pos_bound (r + 1) (uxLength Q) ltac:(lia)).
  assert (Hsh : forall k, ((r + 1) mod uxLength Q + 1 + k) mod uxLength Q = (r + 1 + (1 + k)) mod uxLength Q).
  { intros k. rewrite <- Z.add_assoc, Z.add_mod_idemp_l by lia. done. }
  split; [constructor; simpl; try done|].
  - unfold slot. simpl. by rewrite Z.mod_mod by lia.
  - rewrite Hw. unfold slot. simpl. rewrite Hsh. f_equal. f_equal. f_equal. lia.
  - intros i y Hy. replace (slot _ ((r + 1) mod uxLength Q + 1 + Z.of_nat i)) with (slot Q (r + 1 + Z.of_nat (S i))); [by apply Hi|].
    unfold slot. simpl. rewrite Hsh. f_equal. f_equal. f_equal. lia.
  - replace (slot Q (r + 1)) with (slot Q (r + 1 + Z.of_nat 0)) by (by rewrite Z.add_0_r). by apply Hi.
Qed.

(** The control fields no copy changes. *)
Definition same_ctl Q Q' : Prop :=
  pcHead Q' = pcHead Q /\ pcTail Q' = pcTail Q /\ uxLength Q' = uxLength Q /\ uxItemSize Q' = uxItemSize Q /\
  ucIsMutex Q' = ucIsMutex Q.

Definition same_geometry Q Q' : Prop :=
  pcHead Q' = pcHead Q /\ uxLength Q' = uxLength Q /\ uxItemSize Q' = uxItemSize Q.
Lemma same_ctl_geometry Q Q' : same_ctl Q Q' -> same_geometry Q Q'.
Proof. intros (? & ? & ? & ? & ?). by split_and!. Qed.

(** Memory that agrees on the storage keeps the contents. *)
Lemma shape_frame m m' Q items :
  shape_ok m Q items -> (forall b, pcHead Q <= b < pcTail Q -> m' !! b = m !! b) -> shape_ok m' Q items.
Proof.
  intros [Hl Hs Ht Hc Hr Hi Ho Hrg] Hm. constructor; try done.
  - intros i Hi'. rewrite Hm by lia. by apply Ho.
  - intros Hpos. destruct (Hrg Hpos) as (r & [Hrr Hrd Hw Hb]). exists r. constructor; try done.
    intros i x Hx j b Hj. pose proof (lookup_lt_Some _ _ _ Hj).
    rewrite Forall_lookup in Hi. pose proof (Hi _ _ Hx). pose proof (slot_range Q (r + 1 + Z.of_nat i) ltac:(lia) Hs).
    rewrite Hm by lia. by apply (Hb i x Hx).
Qed.

(** Items of a queue whose item size is zero carry no data. *)
Lemma shape_count m Q items Q' items' :
  shape_ok m Q items -> uxItemSize Q = 0 -> same_ctl Q Q' -> uxMessagesWaiting Q' = Z.of_nat (length items') ->
  Z.of_nat (length items') <= uxLength Q -> Forall (fun x => x = []) items' -> shape_ok m Q' items'.
Proof.
  intros [Hl Hs Ht Hc Hr Hi Ho Hrg] Hz (E1 & E2 & E3 & E4 & E5) Hn Hlen Hnil.
  constructor; rewrite ?E1, ?E2, ?E3, ?E4; try done; [|by rewrite Hz].
  eapply Forall_impl; [exact Hnil|]. intros ? ->. by rewrite Hz.
Qed.

Section spec.
Context `{Qs : Queues} {LS HS : Type} `{!ListOps item lst LS} `{!ListLaws item lst LS} `{!HeapOps HS} `{!HeapLaws HS}.
Implicit Types (s : qsys LS HS) (A : amem item lst) (live : gmap Z Z) (I : gmap Z (list (list Z))).

Lemma wp_onK {B} (c : M (kernel LS HS) B) (P : B -> qsys LS HS -> Prop) s :
  wp c (fun a k => P a (set_kernel k s)) (q_kernel s) -> wp (onK c) P s.
Proof. apply wp_zoom. Qed.
Lemma wp_st_q s q Q f (P : unit -> qsys LS HS -> Prop) :
  q_queues s !! q = Some Q -> P tt (set_queues (<[q := f Q]> (q_queues s)) s) -> wp (st_q q f) P s.
Proof.
  intros HQ HP. unfold st_q, ld_q. apply wp_bind. eapply wp_get_opt; [done|]. apply wp_modify.
  replace (alter f q (q_queues s)) with (<[q := f Q]> (q_queues s)); [done|].
  apply map_eq. intros i. rewrite lookup_insert, lookup_alter. case_decide; subst; [by rewrite HQ|done].
Qed.
Lemma wp_onB_memcpy s d a x (P : Z -> qsys LS HS -> Prop) n :
  n = Z.of_nat (length x) -> bytes_at (q_mem s) a x -> owned (q_mem s) d n -> (d + n <= a \/ a + n <= d) ->
  P d (set_mem (write_bytes d x (q_mem s)) s) -> wp (onB (memcpy d a n)) P s.
Proof.
  intros -> Hb Ho Hd HP. unfold onB. apply wp_zoom. exists d, (write_bytes d x (q_mem s)). split; [|done].
  apply memcpy_run; [done|done|lia].
Qed.

(** The state after a change of one queue and the memory. *)
Definition upd q Q' m' s : qsys LS HS := set_mem m' (set_queues (<[q := Q']> (q_queues s)) s).

(** A caller's item: [x] at address [a], clear of the storage. *)
Definition item_at m Q a x : Prop :=
  Z.of_nat (length x) = uxItemSize Q /\
  (0 < uxItemSize Q -> a <> 0 /\ bytes_at m a x /\ (a + uxItemSize Q <= pcHead Q \/ pcTail Q <= a)).

Definition enqueue (front : Z) x items : list (list Z) := if front =? pdFALSE then items ++ [x] else x :: items.

Lemma enqueue_length front x items : length (enqueue front x items) = S (length items).
Proof. unfold enqueue. destruct (_ =? _); [rewrite length_app; simpl; lia|done]. Qed.
Lemma enqueue_forall (P : list Z -> Prop) front x items : P x -> Forall P items -> Forall P (enqueue front x items).
Proof. intros. unfold enqueue. destruct (_ =? _); [apply Forall_app; by repeat constructor|by constructor]. Qed.

Record copied_in s q Q items front x Q' m' : Prop := {
  ci_shape : shape_ok m' Q' (enqueue front x items);
  ci_ctl : same_ctl Q Q';
  ci_holder : pxMutexHolder Q' = pxMutexHolder Q;
  ci_frame : forall b, ~ pcHead Q <= b < pcTail Q -> m' !! b = q_mem s !! b }.

Lemma wp_prvCopyIn s q Q items a front x :
  q_queues s !! q = Some Q -> shape_ok (q_mem s) Q items -> Z.of_nat (length items) < uxLength Q -> item_at (q_mem s) Q a x ->
  wp (prvCopyIn q a front) (fun _ s' => exists Q' m', s' = upd q Q' m' s /\ copied_in s q Q items front x Q' m') s.
Proof.
  intros HQ Hsh Hroom [Hx Hit]. pose proof Hsh as [Hl Hs Ht Hc Hr Hi Ho Hrg].
  unfold prvCopyIn, ld_q. apply wp_bind. eapply wp_get_opt; [done|]. apply wp_bind.
  assert (Hn : u64 (uxMessagesWaiting Q + 1) = uxMessagesWaiting Q + 1) by (apply wrapu_small; unfold in_u; lia).
  destruct (Z.ltb_spec 0 (uxItemSize Q)) as [Hpos|Hz].
  - destruct (Hit Hpos) as (Ha & Hb & Hd). destruct (Hrg Hpos) as (r & Hring).
    rewrite (proj2 (Z.eqb_neq a 0) Ha). cbn [andb negb]. pose proof Hring as [Hrr Hrd Hw Hrb].
    destruct (Z.eqb_spec front pdFALSE) as [->|Hf].
    + pose proof (slot_range Q (r + 1 + Z.of_nat (length items)) ltac:(lia) Hs). rewrite Hw.
      apply wp_bind. eapply wp_onB_memcpy; [done|done| |lia|].
      { apply (owned_sub _ (pcHead Q) (uxLength Q * uxItemSize Q)); [done|lia|lia]. }
      cbv zeta. eapply wp_st_q; [done|]. eapply wp_st_q; [simpl; by rewrite lookup_insert_eq|]. simpl. rewrite insert_insert_eq, Hn.
      rewrite advance_slot by (done || lia). eexists _, _. split; [done|].
      pose proof (ring_put_back _ _ _ _ _ Hring Hpos Hroom Hx Hi) as Hring'. rewrite Hw in Hring'.
      constructor; simpl; try done.
      * change (enqueue pdFALSE x items) with (items ++ [x]). constructor; simpl; try done; try lia; rewrite ?length_app; simpl; try lia; [|by apply owned_write|intros _; by exists r].
        apply Forall_app. by repeat constructor.
      * intros b Hb'. apply write_bytes_out. lia.
    + pose proof (slot_range Q r ltac:(lia) Hs). rewrite Hrd.
      apply wp_bind. eapply wp_onB_memcpy; [done|done| |lia|].
      { apply (owned_sub _ (pcHead Q) (uxLength Q * uxItemSize Q)); [done|lia|lia]. }
      eapply wp_st_q; [done|]. eapply wp_st_q; [simpl; by rewrite lookup_insert_eq|]. simpl. rewrite insert_insert_eq, Hn.
      rewrite retreat_slot by (done || lia). eexists _, _. split; [done|].
      pose proof (ring_put_front _ _ _ _ _ Hring Hpos Hroom Hx Hi) as Hring'. rewrite Hrd in Hring'.
      unfold enqueue. constructor; simpl; try done; unfold enqueue; rewrite ?(proj2 (Z.eqb_neq front pdFALSE) Hf).
      * constructor; simpl; try done; try lia; [by constructor|by apply owned_write|intros _; by eexists].
      * intros b Hb'. apply write_bytes_out. lia.
  - cbn [andb]. apply wp_ret. eapply wp_st_q; [done|]. exists (with_count (u64 (uxMessagesWaiting Q + 1)) Q), (q_mem s).
    split; [by destruct s|]. rewrite Hn. constructor; try done.
    eapply shape_count; [done|lia|done|simpl; rewrite enqueue_length; lia|rewrite enqueue_length; lia|].
    apply enqueue_forall; [apply length_zero_iff_nil; lia|]. eapply Forall_impl; [exact Hi|]. simpl. intros y Hy. apply length_zero_iff_nil. lia.
Qed.

(** The caller's buffer: owned memory clear of the storage. *)
Definition buffer_at m Q a : Prop :=
  0 < uxItemSize Q -> owned m a (uxItemSize Q) /\ (a + uxItemSize Q <= pcHead Q \/ pcTail Q <= a).

Record copied_out s q Q items x a Q' m' : Prop := {
  co_shape : shape_ok m' Q' items;
  co_ctl : same_ctl Q Q';
  co_holder : pxMutexHolder Q' = pxMutexHolder Q;
  co_buffer : bytes_at m' a x;
  co_frame : forall b, ~ a <= b < a + uxItemSize Q -> m' !! b = q_mem s !! b }.

Lemma wp_prvCopyOut s q Q items a x :
  q_queues s !! q = Some Q -> shape_ok (q_mem s) Q (x :: items) -> buffer_at (q_mem s) Q a ->
  wp (prvCopyOut q a) (fun _ s' => exists Q' m', s' = upd q Q' m' s /\ copied_out s q Q items x a Q' m') s.
Proof.
  intros HQ Hsh Hbuf. pose proof Hsh as [Hl Hs Ht Hc Hr Hi Ho Hrg].
  apply Forall_cons in Hi as [Hx Hi]. simpl in Hc, Hr.
  unfold prvCopyOut, ld_q. apply wp_bind. eapply wp_get_opt; [done|]. apply wp_bind.
  assert (Hn : u64 (uxMessagesWaiting Q - 1) = uxMessagesWaiting Q - 1) by (apply wrapu_small; unfold in_u; lia).
  destruct (Z.ltb_spec 0 (uxItemSize Q)) as [Hpos|Hz].
  - destruct (Hrg Hpos) as (r & Hring). destruct (Hbuf Hpos) as (Hob & Hd). pose proof Hring as [Hrr Hrd Hw Hrb].
    destruct (ring_take _ _ _ _ _ Hring) as [Hring' Hb]. cbv zeta. rewrite Hrd, advance_slot by (done || lia).
    pose proof (slot_range Q (r + 1) ltac:(lia) Hs).
    apply wp_bind. eapply wp_st_q; [done|]. apply wp_bind. eapply wp_onB_memcpy; [done|done|done|simpl; lia|]. apply wp_ret.
    eapply wp_st_q; [simpl; by rewrite lookup_insert_eq|]. simpl. rewrite insert_insert_eq, Hn.
    eexists _, _. split; [done|]. constructor; simpl; try done.
    + eapply (shape_frame (q_mem s)).
      * constructor; simpl; try done; try lia. intros _. by eexists.
      * simpl. intros b Hb'. apply write_bytes_out. lia.
    + apply bytes_at_write.
    + intros b Hb'. apply write_bytes_out. lia.
  - apply wp_ret. eapply wp_st_q; [done|]. exists (with_count (u64 (uxMessagesWaiting Q - 1)) Q), (q_mem s).
    split; [by destruct s|]. rewrite Hn. constructor; try done.
    + eapply shape_count; [done|lia|done|simpl; lia|lia|]. eapply Forall_impl; [exact Hi|]. simpl. intros y Hy. apply length_zero_iff_nil. lia.
    + destruct x; [by intros ? ? ?|simpl in Hx; lia].
Qed.

(** ** The system invariant *)

Record queue_ok s live q Q items : Prop := {
  qo_shape : shape_ok (q_mem s) Q items;
  qo_live : live !! q = Some (sizeof_Queue_t + uxLength Q * uxItemSize Q);
  qo_head : pcHead Q = q + sizeof_Queue_t;
  qo_holder : pxMutexHolder Q = 0 \/ is_Some (k_tcbs (q_kernel s) !! pxMutexHolder Q) }.

Record qinv s A live I : Prop := {
  qi_kinv : kinv None (q_kernel s) A live;
  qi_dom : dom (q_queues s) = queues;
  qi_queue : forall q Q, q_queues s !! q = Some Q -> exists items, I !! q = Some items /\ queue_ok s live q Q items }.

Lemma qinv_core s A live I q Q : qinv s A live I -> q_queues s !! q = Some Q -> core_list (WaitSend q) /\ core_list (WaitRecv q).
Proof. intros Hq HQ. simpl. rewrite <- (qi_dom _ _ _ _ Hq). split; by apply elem_of_dom_2 in HQ. Qed.

(** The storage of two queues does not overlap. *)
Lemma storage_apart s A live I q Q q' Q' :
  qinv s A live I -> q_queues s !! q = Some Q -> q_queues s !! q' = Some Q' -> q <> q' ->
  pcTail Q <= pcHead Q' \/ pcTail Q' <= pcHead Q.
Proof.
  intros Hq HQ HQ' Hne. destruct (qi_queue _ _ _ _ Hq _ _ HQ) as (? & _ & [Hs Hl Hh _]).
  destruct (qi_queue _ _ _ _ Hq _ _ HQ') as (? & _ & [Hs' Hl' Hh' _]).
  rewrite (so_tail _ _ _ Hs), (so_tail _ _ _ Hs'), Hh, Hh'. unfold sizeof_Queue_t in *.
  destruct (hp_disjoint _ _ _ _ _ _ (ki_heap _ _ _ _ (qi_kinv _ _ _ _ Hq)) Hl Hl' Hne); lia.
Qed.

(** One queue and the memory change, the kernel moves on. *)
Lemma qinv_upd s A live I q Q items Q' items' m' k' A' :
  qinv s A live I -> q_queues s !! q = Some Q -> I !! q = Some items ->
  kinv None k' A' live -> (forall t, is_Some (k_tcbs (q_kernel s) !! t) -> is_Some (k_tcbs k' !! t)) ->
  shape_ok m' Q' items' -> same_geometry Q Q' -> (pxMutexHolder Q' = 0 \/ is_Some (k_tcbs k' !! pxMutexHolder Q')) ->
  (forall q2 Q2 b, q2 <> q -> q_queues s !! q2 = Some Q2 -> pcHead Q2 <= b < pcTail Q2 -> m' !! b = q_mem s !! b) ->
  qinv (QSys k' (<[q := Q']> (q_queues s)) m') A' live (<[q := items']> I).
Proof.
  intros Hq HQ HI Hk' Htcb Hsh (E1 & E3 & E4) Hh Hm. constructor; simpl; [done| |].
  - rewrite dom_insert_lookup_L by by eexists. apply Hq.
  - intros q2 Q2. rewrite !lookup_insert. case_decide as Hd; [subst q2|].
    + intros [= <-]. exists items'. split; [done|]. destruct (qi_queue _ _ _ _ Hq _ _ HQ) as (? & _ & [_ Hl Hhd _]).
      constructor; simpl; rewrite ?E1, ?E3, ?E4; done.
    + intros HQ2. destruct (qi_queue _ _ _ _ Hq _ _ HQ2) as (items2 & HI2 & [Hs2 Hl2 Hh2 Hho2]).
      exists items2. split; [done|]. constructor; simpl; try done.
      * eapply shape_frame; [done|]. intros b Hb. by eapply Hm.
      * destruct Hho2 as [?|?]; [by left|right; by apply Htcb].
Qed.

(** ** Waking a waiter inside a critical section *)

(** From kernel [k] to [k']: a waiter on [l] of the highest base priority is
    made ready if there is one, nobody ready stops being ready, the current
    task and the nesting stay; [y] tells whether the woken task outranks it. *)
Record ksignal (k k' : kernel LS HS) A A' l y : Prop := {
  ks_cur : pxCurrentTCB k' = pxCurrentTCB k;
  ks_nest : uxCriticalNesting k' = uxCriticalNesting k;
  ks_tick : xTickCount k' = xTickCount k;
  ks_dom : forall t, is_Some (k_tcbs k !! t) -> is_Some (k_tcbs k' !! t);
  ks_ready : forall u U, is_ready k A u U -> exists U', is_ready k' A' u U';
  ks_wake : (forall t, ~ waits A l t) /\ y = pdFALSE \/
    exists t T C, waits A l t /\ is_ready k' A' t T /\ cont A' (EventItem t) = Some None /\
      k_tcbs k' !! pxCurrentTCB k' = Some C /\ y = (if uxPriority C <? uxPriority T then pdTRUE else pdFALSE) /\
      (forall T0, k_tcbs k !! t = Some T0 -> uxBasePriority T0 = uxBasePriority T) /\
      (forall v V, waits A l v -> k_tcbs k !! v = Some V -> uxBasePriority V <= uxBasePriority T) }.

(** What an optional disinheritance before the signal does. *)
Definition kpre (k k1 : kernel LS HS) A A1 : Prop :=
  k1 = k /\ A1 = A \/ exists h H p, k_tcbs k !! h = Some H /\ reprioritised k k1 A A1 h p.

Lemma kpre_facts k k1 A A1 live : kinv None k A live -> kpre k k1 A A1 ->
  pxCurrentTCB k1 = pxCurrentTCB k /\ uxCriticalNesting k1 = uxCriticalNesting k /\ xTickCount k1 = xTickCount k /\
  (forall t T, k_tcbs k !! t = Some T -> exists T1, k_tcbs k1 !! t = Some T1 /\ uxBasePriority T1 = uxBasePriority T) /\
  (forall u U, is_ready k A u U -> exists U', is_ready k1 A1 u U') /\ (forall l t, waits A1 l t <-> waits A l t).
Proof.
  intros Hk [ [-> ->]|(h & H & p & HH & Hrep)]; [split_and!; try done; eauto|].
  assert (Hr : forall u U, is_ready k A u U -> exists U', is_ready k1 A1 u U') by (intros; by eapply reprioritised_ready).
  destruct Hrep as (m & v & -> & Hot & _). split_and!; try done.
  - intros t T HT. simpl. rewrite lookup_alter. case_decide; subst; [rewrite HH in *; simplify_eq; by eexists|by eexists].
  - intros l t. unfold waits, cont. by rewrite Hot.
Qed.

Lemma ksignal_after k k1 A A1 live l :
  kinv None k A live -> kpre k k1 A A1 -> kinv None k1 A1 live -> wait_list l -> core_list l ->
  is_Some (k_tcbs k !! pxCurrentTCB k) ->
  wp (xTaskRemoveFromEventList l) (fun y k' => exists A', kinv None k' A' live /\ ksignal k k' A A' l y) k1.
Proof.
  intros Hk Hpre Hk1 Hw Hcl [C0 HC0]. destruct (kpre_facts _ _ _ _ _ Hk Hpre) as (Hc & Hn & Ht & Htc & Hrd & Hwt).
  destruct (Htc _ _ HC0) as (C & HC & _). rewrite <- Hc in HC.
  destruct (signal_effect k1 A1 live l C Hk1 Hw Hcl HC) as (y & k' & A' & Hrun & Hk' & Hsig).
  exists y, k'. split; [done|]. exists A'. split; [done|].
  destruct (signalled_ready _ _ _ _ _ _ _ Hsig) as (Htc' & Hc' & Hn' & Hrd').
  constructor; [congruence|congruence| | | |].
  - rewrite <- Ht. by destruct Hsig as [ (_ & _ & -> & _)|(? & ? & ? & ? & -> & _)].
  - intros t [T HT]. destruct (Htc _ _ HT) as (T1 & HT1 & _). rewrite Htc', HT1. by eexists.
  - intros u U HU. destruct (Hrd u U HU) as [U' HU']. exists U'. by apply Hrd'.
  - destruct Hsig as [ (Hno & -> & _)|(t & T & m & v & -> & Hwk & Hr & He & Hmax & _ & Hy)].
    + left. split; [|done]. intros t Hwait. by apply (Hno t), Hwt.
    + right. exists t, T, C. split_and!; try done; [by apply Hwt| |].
      { intros T0 HT0. destruct (Htc _ _ HT0) as (T1 & HT1 & <-). destruct Hr as [HT _]. simpl in HT. by simplify_eq. }
      intros w W Hww HW. destruct (Htc _ _ HW) as (W1 & HW1 & <-). apply (Hmax w W1); [by apply Hwt|done].
Qed.

Lemma wp_disinherit_holder (k : kernel LS HS) A live h :
  kinv None k A live -> h = 0 \/ is_Some (k_tcbs k !! h) ->
  wp (vTaskPriorityDisinherit h) (fun _ k1 => exists A1, kpre k k1 A A1 /\ kinv None k1 A1 live) k.
Proof.
  intros Hk [->|[H HH] ]; [apply wp_ret; exists A; split; [by left|done]|].
  eapply wp_mono; [by eapply wp_vTaskPriorityDisinherit|]. cbn beta. intros r k1.
  destruct (_ =? _); [intros [_ ->]; exists A; split; [by left|done]|].
  intros (_ & A1 & Hr & Hk1). exists A1. split; [|done]. right. by exists h, H, (uxBasePriority H).
Qed.

Lemma ksignal_critical (k k' : kernel LS HS) A A' l y n b c :
  ksignal (set_critical n b k) k' A A' l y -> ksignal k (set_critical (uxCriticalNesting k) c k') A A' l y.
Proof. intros []. by constructor. Qed.

Lemma exit_state (k : kernel LS HS) n :
  0 <= n < 2 ^ 64 - 1 -> uxCriticalNesting k = u64 (n + 1) ->
  exists b, vPortExitCritical k = Some (tt, set_critical n b k).
Proof.
  intros Hn Hk. destruct (exit_critical _ Hn) as [H1 H2]. unfold vPortExitCritical, modify. rewrite Hk, H1, H2.
  destruct (n =? 0); by eexists.
Qed.

Lemma wp_exit s n (P : unit -> qsys LS HS -> Prop) :
  0 <= n < 2 ^ 64 - 1 -> uxCriticalNesting (q_kernel s) = u64 (n + 1) ->
  (forall b, P tt (set_kernel (set_critical n b (q_kernel s)) s)) -> wp (onK taskEXIT_CRITICAL) P s.
Proof.
  intros Hn Hk HP. destruct (exit_state _ _ Hn Hk) as [b Hb]. apply wp_onK. eexists tt, _. split; [exact Hb|]. apply HP.
Qed.

(** What a critical section that moves one item leaves behind. *)
Record transferred s s' A A' live I q Q items' l y (holder : Z) : Prop := {
  tf_inv : qinv s' A' live (<[q := items']> I);
  tf_signal : ksignal (q_kernel s) (q_kernel s') A A' l y;
  tf_queue : exists Q', q_queues s' = <[q := Q']> (q_queues s) /\ same_ctl Q Q' /\ pxMutexHolder Q' = holder }.

Definition idle_exit s s' : Prop := exists b, s' = set_kernel (set_critical (uxCriticalNesting (q_kernel s)) b (q_kernel s)) s.

Lemma wp_prvSend_try s A live I q Q items a front x :
  qinv s A live I -> q_queues s !! q = Some Q -> I !! q = Some items ->
  is_Some (k_tcbs (q_kernel s) !! pxCurrentTCB (q_kernel s)) -> 0 <= uxCriticalNesting (q_kernel s) < 2 ^ 64 - 1 ->
  item_at (q_mem s) Q a x ->
  wp (prvSend_try q a front) (fun res s' =>
    if Z.of_nat (length items) <? uxLength Q then
      exists y A', res = Some y /\
        transferred s s' A A' live I q Q (enqueue front x items) (WaitRecv q) y (if ucIsMutex Q =? 0 then pxMutexHolder Q else 0) /\
        (forall b, ~ pcHead Q <= b < pcTail Q -> q_mem s' !! b = q_mem s !! b)
    else res = None /\ idle_exit s s') s.
Proof.
  intros Hq HQ HI Hcur Hn Hit. destruct (qi_queue _ _ _ _ Hq _ _ HQ) as (items0 & HI0 & Hqok). rewrite HI in HI0. injection HI0 as <-.
  pose proof Hqok as [Hsh Hlv Hhd Hho]. pose proof (qi_kinv _ _ _ _ Hq) as Hk. destruct (qinv_core _ _ _ _ _ _ Hq HQ) as [_ Hcr].
  unfold prvSend_try. apply wp_bind, wp_onK, wp_modify. set (k0 := set_critical _ true (q_kernel s)).
  assert (Hk0 : kinv None k0 A live) by by apply kinv_critical.
  unfold ld_q. apply wp_bind. eapply wp_get_opt; [exact HQ|]. rewrite (so_count _ _ _ Hsh). apply wp_bind.
  destruct (Z.ltb_spec (Z.of_nat (length items)) (uxLength Q)) as [Hroom|Hfull]; cycle 1.
  { apply wp_ret. apply wp_bind. eapply wp_exit; [exact Hn|done|]. intros b. apply wp_ret. split; [done|]. by exists b. }
  apply wp_bind. eapply wp_mono; [by eapply (wp_prvCopyIn (set_kernel k0 s) q Q items a front x)|].
  cbn beta. intros _ ? (Q' & m' & -> & [Hsh' Hctl Hh' Hfr]). simpl in Hfr. apply wp_bind.
  apply wp_mono with (P := fun _ s' => exists k1 A1 Q2, s' = QSys k1 (<[q := Q2]> (q_queues s)) m' /\ kpre k0 k1 A A1 /\
    kinv None k1 A1 live /\ shape_ok m' Q2 (enqueue front x items) /\ same_ctl Q Q2 /\
    pxMutexHolder Q2 = (if ucIsMutex Q =? 0 then pxMutexHolder Q else 0)).
  { destruct (Z.eqb_spec (ucIsMutex Q) 0) as [Hm|Hm]; cbn [negb].
    - apply wp_ret. exists k0, A, Q'. split_and!; try done. by left.
    - apply wp_bind, wp_onK. simpl. eapply wp_mono; [by eapply wp_disinherit_holder|]. cbn beta. intros r k1 (A1 & Hpre & Hk1).
      eapply wp_st_q; [simpl; by rewrite lookup_insert_eq|]. exists k1, A1, (with_holder 0 Q'). simpl. rewrite insert_insert_eq.
      split_and!; try done. destruct Hsh'. constructor; try done. intros Hpos. destruct so_ring0 as (r0 & []); [done|]. by exists r0. }
  cbn beta. intros _ ? (k1 & A1 & Q2 & -> & Hpre & Hk1 & Hsh2 & Hctl2 & Hh2).
  apply wp_bind, wp_onK. cbn [q_kernel]. eapply wp_mono; [by eapply (ksignal_after k0 k1)|].
  cbn beta. intros y k' (A' & Hk' & Hks). apply wp_ret. apply wp_bind.
  eapply (wp_exit _ (uxCriticalNesting (q_kernel s))); [done|exact (ks_nest _ _ _ _ _ _ Hks)|]. intros b. apply wp_ret.
  exists y, A'. split; [done|]. split; [|done]. pose proof (ksignal_critical _ _ _ _ _ _ _ _ b Hks) as Hks'. constructor; [|done|by exists Q2].
  eapply (qinv_upd s A live I q Q items Q2); try done.
  - by apply kinv_critical.
  - exact (ks_dom _ _ _ _ _ _ Hks').
  - by apply same_ctl_geometry.
  - rewrite Hh2. destruct (ucIsMutex Q =? 0); [|by left]. destruct Hho as [?|?]; [by left|right]. by apply (ks_dom _ _ _ _ _ _ Hks').
  - intros q2 Q3 c Hne HQ3 Hc. apply Hfr. destruct (storage_apart _ _ _ _ _ _ _ _ Hq HQ HQ3 ltac:(congruence)); lia.
Qed.

(** A receive buffer, clear of every queue's storage. *)
Definition buffer_ok s Q a : Prop :=
  0 < uxItemSize Q -> owned (q_mem s) a (uxItemSize Q) /\
    forall q2 Q2, q_queues s !! q2 = Some Q2 -> a + uxItemSize Q <= pcHead Q2 \/ pcTail Q2 <= a.

Lemma wp_xQueueReceive_try s A live I q Q items a :
  qinv s A live I -> q_queues s !! q = Some Q -> I !! q = Some items ->
  is_Some (k_tcbs (q_kernel s) !! pxCurrentTCB (q_kernel s)) -> 0 <= uxCriticalNesting (q_kernel s) < 2 ^ 64 - 1 ->
  buffer_ok s Q a ->
  wp (xQueueReceive_try q a) (fun res s' =>
    match items with
    | x :: items' => exists y A', res = Some y /\
        transferred s s' A A' live I q Q items' (WaitSend q) y
          (if ucIsMutex Q =? 0 then pxMutexHolder Q else pxCurrentTCB (q_kernel s)) /\
        bytes_at (q_mem s') a x /\ (forall b, ~ a <= b < a + uxItemSize Q -> q_mem s' !! b = q_mem s !! b)
    | [] => res = None /\ idle_exit s s'
    end) s.
Proof.
  intros Hq HQ HI Hcur Hn Hbuf. destruct (qi_queue _ _ _ _ Hq _ _ HQ) as (items0 & HI0 & Hqok). rewrite HI in HI0. injection HI0 as <-.
  pose proof Hqok as [Hsh Hlv Hhd Hho]. pose proof (qi_kinv _ _ _ _ Hq) as Hk. destruct (qinv_core _ _ _ _ _ _ Hq HQ) as [Hcs _].
  unfold xQueueReceive_try. apply wp_bind, wp_onK, wp_modify. set (k0 := set_critical _ true (q_kernel s)).
  assert (Hk0 : kinv None k0 A live) by by apply kinv_critical.
  unfold ld_q. apply wp_bind. eapply wp_get_opt; [exact HQ|]. rewrite (so_count _ _ _ Hsh). apply wp_bind.
  destruct items as [|x items]; simpl.
  { apply wp_ret. apply wp_bind. eapply wp_exit; [exact Hn|done|]. intros b. apply wp_ret. split; [done|]. by exists b. }
  apply wp_bind. eapply wp_mono.
  { eapply (wp_prvCopyOut (set_kernel k0 s) q Q items a x); [done|done|].
    intros Hpos. destruct (Hbuf Hpos) as [Ho Hd]. split; [exact Ho|by eapply Hd]. }
  cbn beta. intros _ ? (Q' & m' & -> & [Hsh' Hctl Hh' Hbx Hfr]). simpl in Hfr. apply wp_bind.
  apply wp_mono with (P := fun _ s' => exists Q2, s' = QSys k0 (<[q := Q2]> (q_queues s)) m' /\
    shape_ok m' Q2 items /\ same_ctl Q Q2 /\
    pxMutexHolder Q2 = (if ucIsMutex Q =? 0 then pxMutexHolder Q else pxCurrentTCB (q_kernel s))).
  { destruct (Z.eqb_spec (ucIsMutex Q) 0) as [Hm|Hm]; cbn [negb].
    - apply wp_ret. by exists Q'.
    - apply wp_bind, wp_onK, wp_gets.
      eapply wp_st_q; [simpl; by rewrite lookup_insert_eq|]. exists (with_holder (pxCurrentTCB (q_kernel s)) Q'). simpl. rewrite insert_insert_eq.
      split_and!; try done. destruct Hsh'. constructor; try done. intros Hpos. destruct so_ring0 as (r0 & []); [done|]. by exists r0. }
  cbn beta. intros _ ? (Q2 & -> & Hsh2 & Hctl2 & Hh2).
  apply wp_bind, wp_onK. cbn [q_kernel]. eapply wp_mono; [eapply (ksignal_after k0 k0); try done; by left|].
  cbn beta. intros y k' (A' & Hk' & Hks). apply wp_ret. apply wp_bind.
  eapply (wp_exit _ (uxCriticalNesting (q_kernel s))); [done|exact (ks_nest _ _ _ _ _ _ Hks)|]. intros b. apply wp_ret.
  exists y, A'. split; [done|]. pose proof (ksignal_critical _ _ _ _ _ _ _ _ b Hks) as Hks'.
  split; [|done]. constructor; [|done|by exists Q2]. eapply (qinv_upd s A live I q Q (x :: items) Q2); try done.
  - by apply kinv_critical.
  - exact (ks_dom _ _ _ _ _ _ Hks').
  - by apply same_ctl_geometry.
  - rewrite Hh2. destruct (ucIsMutex Q =? 0); [destruct Hho as [?|?]; [by left|right]|right]; by apply (ks_dom _ _ _ _ _ _ Hks').
  - intros q2 Q3 c Hne HQ3 Hc. apply Hfr. destruct (Z.le_gt_cases (uxItemSize Q) 0); [lia|].
    destruct (Hbuf ltac:(lia)) as [_ Hd]. destruct (Hd q2 Q3 HQ3); lia.
Qed.
End spec.

(** ** Creation *)

Section create.
Context {LS HS : Type} `{!ListOps item lst LS} `{!ListLaws item lst LS} `{!HeapOps HS} `{!HeapLaws HS}.
Implicit Types (W : gset Z) (s : qsys LS HS) (A : amem item lst) (live : gmap Z Z) (I : gmap Z (list (list Z))).

Abbreviation kinvW W := (@kinv W LS HS _ _ _ _).
Abbreviation qinvW W := (@qinv W LS HS _ _ _ _).

Lemma core_absent W hole tcbs top A l : @ainv W hole tcbs top A -> ~ @core_list W l ->
  am_lists A !! l = None /\ forall i t, am_items A !! i = Some t -> a_container t <> Some l.
Proof.
  intros Ha Hnc. assert (Hl : am_lists A !! l = None).
  { apply eq_None_not_Some. intros Hs. by apply Hnc, (ai_core _ _ _ _ Ha). }
  split; [done|]. intros i t Hi Hc. destruct (wf_cont A (ai_wf _ _ _ _ Ha) _ _ _ Hi Hc) as [? ?]. congruence.
Qed.

Lemma wp_init_waits W (k : kernel LS HS) A live q :
  kinvW W None k A live -> q ∉ W ->
  wp (onL (ls_Initialise (WaitSend q));; onL (ls_Initialise (WaitRecv q))) (fun _ k' => exists ml,
    k' = set_lists ml k /\ kinvW ({[q]} ∪ W) None k' (a_init_list (WaitRecv q) (a_init_list (WaitSend q) A)) live) k.
Proof.
  intros Hk Hq. destruct Hk as [Hr Hh Ha Htc Hin Htp Htk Hcu Hrg].
  destruct (core_absent _ _ _ _ _ (WaitSend q) Ha Hq) as [Hl1 Hc1]. destruct (core_absent _ _ _ _ _ (WaitRecv q) Ha Hq) as [Hl2 Hc2].
  apply wp_bind, wp_onL. eapply wp_mono; [by eapply ls_init_spec|]. cbn beta. intros _ m1 Hr1.
  apply wp_onL. eapply wp_mono; [eapply ls_init_spec; [exact Hr1|exact Hc2]|]. cbn beta. intros _ m2 Hr2.
  exists m2. split; [done|]. constructor; try done. simpl.
  pose proof (ls_rep_wf _ _ Hr1) as Hwf1. pose proof (ls_rep_wf _ _ Hr2) as Hwf2.
  destruct Ha as [Hwf Hit Htk' Hco Hso Htop]. constructor; try done.
  - intros l. simpl. rewrite !lookup_insert_is_Some', <- Hco. destruct l; simpl; unfold queues; rewrite ?elem_of_union, ?elem_of_singleton.
    all: split; [|intros [?|[?|?] ]; try done; simplify_eq; eauto].
    all: try (intros; right; right; done). all: intros [->|?]; auto.
  - intros l xs cur. simpl. rewrite !lookup_insert. repeat case_decide; [intros [= <- <-] _; constructor..|]. apply Hso.
Qed.

Lemma fresh_owned a n m : owned (fresh_bytes a n m) a n.
Proof.
  intros i Hi. unfold fresh_bytes. exists 0. replace (a + i) with (a + Z.of_nat (Z.to_nat i)) by lia.
  apply write_bytes_in. apply lookup_replicate. split; [done|lia].
Qed.
Lemma fresh_out a n m b : 0 <= n -> ~ a <= b < a + n -> fresh_bytes a n m !! b = m !! b.
Proof. intros Hn Hb. unfold fresh_bytes. apply write_bytes_out. rewrite length_replicate. lia. Qed.

Record queue_created W s s' A A' live I q len isz : Prop := {
  qc_inv : qinvW ({[q]} ∪ W) s' A' (<[q := sizeof_Queue_t + len * isz]> live) (<[q := []]> I);
  qc_fresh : live !! q = None /\ q_queues s !! q = None;
  qc_queue : exists Q, q_queues s' = <[q := Q]> (q_queues s) /\ uxLength Q = len /\ uxItemSize Q = isz /\ ucIsMutex Q = 0 /\ pxMutexHolder Q = 0;
  qc_items : am_items A' = am_items A;
  qc_kernel : exists ml h, q_kernel s' = set_lists ml (set_heap h (q_kernel s));
  qc_mem : forall b, ~ q <= b < q + sizeof_Queue_t + len * isz -> q_mem s' !! b = q_mem s !! b }.

Lemma wp_xQueueCreate W s A live I len isz :
  qinvW W s A live I -> 0 < len -> 0 <= isz -> sizeof_Queue_t + len * isz < 2 ^ 63 -> len < 2 ^ 63 ->
  wp (xQueueCreate len isz) (fun q s' =>
    q = 0 /\ (exists h, s' = set_kernel (set_heap h (q_kernel s)) s) /\ qinvW W s' A live I \/
    q <> 0 /\ exists A', queue_created W s s' A A' live I q len isz) s.
Proof.
  intros Hq Hlen Hisz Hsz Hlen'. unfold sizeof_Queue_t in *. unfold xQueueCreate. rewrite (proj2 (Z.eqb_neq len 0)) by lia. cbv zeta.
  rewrite (wrapu_small 64 (len * isz)) by (unfold in_u; nia). rewrite (wrapu_small 64 (152 + _)) by (unfold in_u; nia).
  apply wp_bind, wp_onK, wp_zoom. pose proof (qi_kinv _ _ _ _ Hq) as Hk.
  eapply wp_mono; [apply (hp_malloc_spec _ _ _ (ki_heap _ _ _ _ Hk)); unfold sizeof_Queue_t; nia|].
  cbn beta. intros q h [ [-> Hh]|(Hq0 & Hnew & Hh)].
  { apply wp_ret. left. split; [done|]. split; [by exists h|]. destruct Hq as [_ Hd Hqs]. constructor; [by eapply kinv_heap|done|].
    intros q Q HQ. destruct (Hqs q Q HQ) as (items & ? & []). exists items. split; [done|]. by constructor. }
  rewrite (proj2 (Z.eqb_neq q 0) Hq0). apply wp_bind, wp_modify, wp_bind, wp_modify.
  assert (Hqn : q_queues s !! q = None).
  { apply eq_None_not_Some. intros [Q HQ]. destruct (qi_queue _ _ _ _ Hq _ _ HQ) as (? & _ & [_ Hl _ _]). congruence. }
  assert (HqW : q ∉ W). { pose proof (qi_dom _ _ _ _ Hq) as Hd. unfold queues in Hd. rewrite <- Hd. by apply not_elem_of_dom_2. }
  assert (Hk1 : kinvW W None (set_heap h (q_kernel s)) A (<[q := 152 + len * isz]> live)).
  { eapply kinv_heap; [exact Hk|exact Hh|]. by apply insert_subseteq. }
  assert (Hk2 := wp_init_waits W (set_heap h (q_kernel s)) A _ q Hk1 HqW).
  destruct Hk2 as ([] & k' & Hrun & m & -> & Hk2). unfold mbind, M_bind in Hrun.
  destruct (onL (ls_Initialise (WaitSend q)) (set_heap h (q_kernel s))) as [ [ [] k1]|] eqn:E1; [|done].
  apply wp_bind, wp_onK. eexists tt, k1. split; [exact E1|]. apply wp_bind, wp_onK. eexists tt, _. split; [exact Hrun|].
  apply wp_ret. right. split; [done|].
  exists (a_init_list (WaitRecv q) (a_init_list (WaitSend q) A)). set (Q := Queue _ _ _ _ _ _ _ _ _).
  assert (Hsh : forall m0, shape_ok (fresh_bytes (q + sizeof_Queue_t) (len * isz) m0) Q []).
  { intros m0. constructor; simpl; try done; try lia; [apply fresh_owned|]. intros Hpos. exists (len - 1). unfold Q.
    rewrite (proj2 (Z.ltb_lt 0 isz) Hpos). rewrite (wrapu_small 64 (len - 1)) by (unfold in_u; lia).
    rewrite (wrapu_small 64 (_ * isz)) by (unfold in_u; nia).
    constructor; simpl; try done; try lia; unfold slot; simpl; [by rewrite Z.mod_small by lia|].
    replace (len - 1 + 1 + Z.of_nat 0) with (1 * len) by lia. rewrite Z.mod_mul by lia. lia. }
  constructor; try done.
  - constructor; simpl; [exact Hk2| |].
    + rewrite dom_insert_L. unfold queues. f_equal. apply Hq.
    + intros q2 Q2. rewrite !lookup_insert. case_decide as Hd; [subst q2; intros [= <-]|].
      * exists []. split; [done|]. constructor; simpl; [apply Hsh|by rewrite lookup_insert_eq|done|by left].
      * intros HQ2. destruct (qi_queue _ _ _ _ Hq _ _ HQ2) as (items & HI2 & [Hs2 Hl2 Hh2 Hho2]). exists items. split; [done|].
        constructor; simpl; try done; [|by rewrite lookup_insert_ne].
        eapply shape_frame; [done|]. intros b Hb. apply fresh_out; [nia|].
        pose proof (hp_disjoint _ _ q (152 + len * isz) q2 _ Hh ltac:(by rewrite lookup_insert_eq) ltac:(by rewrite lookup_insert_ne) Hd) as Hdis.
        rewrite (so_tail _ _ _ Hs2), Hh2 in Hb. unfold sizeof_Queue_t in *. lia.
  - by exists Q.
  - by exists m, h.
  - simpl. intros b Hb. apply fresh_out; [nia|]. unfold sizeof_Queue_t in *. lia.
Qed.
End create.
