(* ===== verification/QueueSafe.v ===== *)
(** * The steps of queue calls

    Each phase of a send or a receive, run by the current task: it completes,
    keeps the system invariant, and has the effect of the corresponding
    operation on the sequence.  [ready2] says that the current task and the
    idle task are ready; [steady] drops the former, for the window in which a
    caller is on a wait list and has not yielded yet. *)

From stdpp Require Import sorting.
From S2P Require Import Prelude Config Lists ListSpec ListRefine Alloc Tasks TasksInv TasksSpec TasksCreate TasksSafe TasksFrame Libc Queue QueueSpec.

Section safe.
Context `{Qs : Queues} {LS HS : Type} `{!ListOps item lst LS} `{!ListLaws item lst LS} `{!HeapOps HS} `{!HeapLaws HS}.
Implicit Types (s : qsys LS HS) (k : kernel LS HS) (A : amem item lst) (live : gmap Z Z) (I : gmap Z (list (list Z))).
Implicit Types (Q : Queue_t) (q a sp ticks front : Z) (x : list Z) (items : list (list Z)).

Record ready2 (idle : Z) k A : Prop := {
  r2_cur : exists T, is_ready k A (pxCurrentTCB k) T;
  r2_idle : exists T, is_ready k A idle T;
  r2_nest : 0 <= uxCriticalNesting k < 2 ^ 64 - 1 }.

Lemma onK_run {B} (c : M (kernel LS HS) B) s b k' : c (q_kernel s) = Some (b, k') -> onK c s = Some (b, set_kernel k' s).
Proof. intros H. unfold onK, zoom. by rewrite H. Qed.

Lemma ready2_cur idle k A : ready2 idle k A -> is_Some (k_tcbs k !! pxCurrentTCB k).
Proof. intros [ [T [HT _] ] _ _]. by eexists. Qed.
Lemma ready2_critical idle k A n b : ready2 idle k A -> 0 <= n < 2 ^ 64 - 1 -> ready2 idle (set_critical n b k) A.
Proof. intros [? ? ?] ?. by constructor. Qed.
Lemma ready2_signal idle k k' A A' l y : ready2 idle k A -> ksignal k k' A A' l y -> ready2 idle k' A'.
Proof.
  intros [ [T HT] [I HI] Hn] [Hc Hnn _ _ Hr _]. constructor; [rewrite Hc; by eapply Hr|by eapply Hr|by rewrite Hnn].
Qed.

Lemma qinv_kernel s A live I k' A' :
  qinv s A live I -> kinv None k' A' live -> (forall t, is_Some (k_tcbs (q_kernel s) !! t) -> is_Some (k_tcbs k' !! t)) ->
  qinv (set_kernel k' s) A' live I.
Proof.
  intros [_ Hd Hq] Hk' Ht. constructor; [done|done|]. intros q Q HQ. destruct (Hq q Q HQ) as (items & ? & [? ? ? Hh]).
  exists items. split; [done|]. constructor; try done. destruct Hh; [by left|right; by apply Ht].
Qed.

Lemma qinv_grow s A live I k' A' live' :
  qinv s A live I -> kinv None k' A' live' -> grows (q_kernel s) k' live live' -> qinv (set_kernel k' s) A' live' I.
Proof.
  intros [_ Hd Hq] Hk' [Hl Ht]. constructor; [done|done|]. intros q Q HQ. destruct (Hq q Q HQ) as (items & ? & [? Hlv ? Hh]).
  exists items. split; [done|]. constructor; try done; [by eapply lookup_weaken|]. destruct Hh; [by left|right; by apply Ht].
Qed.

Record steady (idle : Z) k A : Prop := {
  sd_cur : is_Some (k_tcbs k !! pxCurrentTCB k);
  sd_idle : exists T, is_ready k A idle T;
  sd_nest : 0 <= uxCriticalNesting k < 2 ^ 64 - 1 }.
Lemma ready2_steady idle k A : ready2 idle k A -> steady idle k A.
Proof. intros [ [T [HT _] ] HU Hn]. constructor; [by eexists|done|done]. Qed.

(** Is the current task on its ready list?  As the code asks it. *)
Definition current_ready k : bool :=
  match k_tcbs k !! pxCurrentTCB k with
  | Some T => match ls_IS_CONTAINED_WITHIN (Ready (uxPriority T)) (StateItem (pxCurrentTCB k)) (k_lists k) with
              | Some (r, _) => negb (r =? pdFALSE) | None => false end
  | None => false
  end.
Lemma current_ready_is k A live : kinv None k A live -> current_ready k = true -> exists T, is_ready k A (pxCurrentTCB k) T.
Proof.
  intros Hk. unfold current_ready. destruct (k_tcbs k !! pxCurrentTCB k) as [T|] eqn:HT; [|done].
  destruct (inv_task _ _ _ _ _ Hk HT) as (sv & sc & ec & Hs & _).
  destruct (ls_is_contained_spec (k_lists k) A (Ready (uxPriority T)) _ _ (ki_rep _ _ _ _ Hk) Hs) as (r & m & -> & _ & ->).
  cbn [a_container]. intros Hr. exists T. split; [done|]. unfold cont. rewrite Hs. cbn. revert Hr. repeat case_match; simplify_eq; done.
Qed.
Lemma steady_ready2 idle k A live : kinv None k A live -> steady idle k A -> current_ready k = true -> ready2 idle k A.
Proof. intros Hk [_ HU Hn] Hc. constructor; [by eapply current_ready_is|done|done]. Qed.

(** The yield after a critical section: the processor goes to a ready task, and
    nothing changes list. *)
Lemma yield_effect {B} (b : B) idle sp s A live I :
  qinv s A live I -> steady idle (q_kernel s) A -> yields_ok sp (q_kernel s) ->
  exists k' A', (onK (taskYIELD sp);; mret b) s = Some (b, set_kernel k' s) /\ qinv (set_kernel k' s) A' live I /\ ready2 idle k' A' /\
    am_items A' = am_items A /\ xTickCount k' = xTickCount (q_kernel s).
Proof.
  intros Hq [ [T HT] [U HU] Hn] Hy.
  destruct (yield_safe idle sp (q_kernel s) A live T U (qi_kinv _ _ _ _ Hq) HT HU Hn Hy)
    as (k' & A' & T' & U' & Hrun & Hk' & HT' & HU' & Hc & [_ Hg] & Hit & Htk).
  exists k', A'. split; [by erewrite bind_eq by (apply onK_run; exact Hrun)|]. split; [by eapply qinv_kernel|]. split; [|done].
  constructor; [by exists T'|by exists U'|lia].
Qed.

(** The two phases of a send that try. *)
Lemma send_try_effect idle s A live I q Q items a ticks front sp x pc :
  qinv s A live I -> ready2 idle (q_kernel s) A -> q_queues s !! q = Some Q -> I !! q = Some items ->
  item_at (q_mem s) Q a x -> pc = PTry \/ pc = PRetry ->
  exists ph s' A', prvSend q a ticks front sp pc s = Some (ph, s') /\ ready2 idle (q_kernel s') A' /\
    if Z.of_nat (length items) <? uxLength Q then
      qinv s' A' live (<[q := enqueue front x items]> I) /\
      (exists y, ph = woke y /\ ksignal (q_kernel s) (q_kernel s') A A' (WaitRecv q) y) /\
      (exists Q', q_queues s' = <[q := Q']> (q_queues s) /\ same_ctl Q Q' /\
         pxMutexHolder Q' = if ucIsMutex Q =? 0 then pxMutexHolder Q else 0) /\
      (forall b, ~ pcHead Q <= b < pcTail Q -> q_mem s' !! b = q_mem s !! b)
    else
      ph = (if bool_decide (pc = PTry) && negb (ticks =? 0) then PBlock else PDone errQUEUE_FULL) /\
      A' = A /\ qinv s' A live I /\ q_queues s' = q_queues s /\ q_mem s' = q_mem s.
Proof.
  intros Hq Hr HQ HI Hit Hpc.
  destruct (wp_prvSend_try s A live I q Q items a front x Hq HQ HI (ready2_cur _ _ _ Hr) (r2_nest _ _ _ Hr) Hit)
    as (res & s1 & Hrun & Hpost).
  assert (Hstep : prvSend q a ticks front sp pc s = Some (match res with
    | Some xYield => woke xYield
    | None => if bool_decide (pc = PTry) && negb (ticks =? 0) then PBlock else PDone errQUEUE_FULL end, s1)).
  { destruct Hpc as [-> | ->]; simpl; erewrite bind_eq by done; destruct res; try done. by destruct (ticks =? 0). }
  rewrite Hstep. destruct (Z.of_nat (length items) <? uxLength Q).
  - destruct Hpost as (y & A1 & -> & [Hinv Hsig Hqq] & Hm). eexists _, s1, A1. split; [reflexivity|].
    split; [by eapply ready2_signal|]. split_and!; try done. by exists y.
  - destruct Hpost as (-> & b & ->). eexists _, _, A. split; [reflexivity|]. split; [apply ready2_critical; [done|apply Hr]|].
    split_and!; try done. eapply qinv_kernel; [done|by apply kinv_critical, Hq|done].
Qed.

(** The two phases of a receive that try. *)
Lemma recv_try_effect idle s A live I q Q items a ticks sp pc :
  qinv s A live I -> ready2 idle (q_kernel s) A -> q_queues s !! q = Some Q -> I !! q = Some items ->
  buffer_ok s Q a -> pc = PTry \/ pc = PRetry ->
  exists ph s' A', xQueueReceive q a ticks sp pc s = Some (ph, s') /\ ready2 idle (q_kernel s') A' /\
    match items with
    | x :: items' =>
      qinv s' A' live (<[q := items']> I) /\ bytes_at (q_mem s') a x /\
      (exists y, ph = woke y /\ ksignal (q_kernel s) (q_kernel s') A A' (WaitSend q) y) /\
      (exists Q', q_queues s' = <[q := Q']> (q_queues s) /\ same_ctl Q Q' /\
         pxMutexHolder Q' = if ucIsMutex Q =? 0 then pxMutexHolder Q else pxCurrentTCB (q_kernel s)) /\
      (forall b, ~ a <= b < a + uxItemSize Q -> q_mem s' !! b = q_mem s !! b)
    | [] =>
      ph = (if bool_decide (pc = PTry) && negb (ticks =? 0) then PBlock else PDone errQUEUE_EMPTY) /\
      A' = A /\ qinv s' A live I /\ q_queues s' = q_queues s /\ q_mem s' = q_mem s
    end.
Proof.
  intros Hq Hr HQ HI Hit Hpc.
  destruct (wp_xQueueReceive_try s A live I q Q items a Hq HQ HI (ready2_cur _ _ _ Hr) (r2_nest _ _ _ Hr) Hit)
    as (res & s1 & Hrun & Hpost).
  assert (Hstep : xQueueReceive q a ticks sp pc s = Some (match res with
    | Some xYield => woke xYield
    | None => if bool_decide (pc = PTry) && negb (ticks =? 0) then PBlock else PDone errQUEUE_EMPTY end, s1)).
  { destruct Hpc as [-> | ->]; simpl; erewrite bind_eq by done; destruct res; try done. by destruct (ticks =? 0). }
  rewrite Hstep. destruct items as [|x items].
  - destruct Hpost as (-> & b & ->). eexists _, _, A. split; [reflexivity|]. split; [apply ready2_critical; [done|apply Hr]|].
    split_and!; try done. eapply qinv_kernel; [done|by apply kinv_critical, Hq|done].
  - destruct Hpost as (y & A1 & -> & [Hinv Hsig Hqq] & Hb & Hm). eexists _, s1, A1. split; [reflexivity|].
    split; [by eapply ready2_signal|]. split_and!; try done. by exists y.
Qed.

(** The task [t] waits on [l] until the timeout. *)
Record parked k A t (l : lst) ticks (tick : Z) : Prop := {
  pk_wait : waits A l t;
  pk_state : cont A (StateItem t) = Some (Some (if ticks =? portMAX_DELAY then Suspended else Delayed));
  pk_wake : ticks <> portMAX_DELAY -> a_val A (StateItem t) = u32 (tick + ticks);
  pk_tick : xTickCount k = tick }.
Lemma parked_keep k k' A A' t l ticks tick :
  parked k A t l ticks tick -> am_items A' = am_items A -> xTickCount k' = xTickCount k -> parked k' A' t l ticks tick.
Proof. intros [H1 H2 H3 H4] Hit Htk. unfold waits, cont, a_val in *. constructor; unfold waits, cont, a_val; rewrite ?Hit; try done. congruence. Qed.
Lemma parked_off k A t l ticks tick T : parked k A t l ticks tick -> ~ is_ready k A t T.
Proof. intros [_ Hs _ _] [_ Hc]. rewrite Hs in Hc. by destruct (ticks =? portMAX_DELAY). Qed.

(** Putting the caller on a wait list, inside the critical section. *)
Lemma park_effect idle s A live I (l : lst) ticks n :
  qinv s A live I -> n = uxCriticalNesting (q_kernel s) -> (exists m, 0 <= m < 2 ^ 64 - 1 /\ n = u64 (m + 1)) ->
  (exists T, is_ready (q_kernel s) A (pxCurrentTCB (q_kernel s)) T) -> (exists U, is_ready (q_kernel s) A idle U) ->
  pxCurrentTCB (q_kernel s) <> idle -> wait_list l -> core_list l -> in_u 32 ticks ->
  exists s' A', (onK (vTaskPlaceOnEventList l ticks);; onK taskEXIT_CRITICAL;; mret PWait) s = Some (PWait, s') /\
    qinv s' A' live I /\ steady idle (q_kernel s') A' /\ q_queues s' = q_queues s /\ q_mem s' = q_mem s /\
    pxCurrentTCB (q_kernel s') = pxCurrentTCB (q_kernel s) /\ k_tcbs (q_kernel s') = k_tcbs (q_kernel s) /\
    k_stack (q_kernel s') = k_stack (q_kernel s) /\
    parked (q_kernel s') A' (pxCurrentTCB (q_kernel s)) l ticks (xTickCount (q_kernel s)) /\
    (forall i, task_of i <> pxCurrentTCB (q_kernel s) -> am_items A' !! i = am_items A !! i).
Proof.
  intros Hq Hn (m & Hm & Hnm) [T HT] [U HU] Hne Hw Hcl Ht. pose proof (qi_kinv _ _ _ _ Hq) as Hk. set (t := pxCurrentTCB (q_kernel s)) in *.
  destruct (inv_list _ _ _ _ l Hk Hcl) as (ws & wc & Hl).
  destruct (wp_vTaskPlaceOnEventList (q_kernel s) A live t T l ticks Hk (running_ready _ _ _ HT) Hw ltac:(by eexists) Ht)
    as ([] & k1 & Hrun & A1 & [ [m1 ->] Hev Hst Hwk _ Hot] & Hk1).
  destruct (exit_state (set_lists m1 (q_kernel s)) m Hm) as [b Hexit]; [simpl; congruence|].
  pose proof (kinv_critical _ _ _ _ m b Hk1) as Hk2. exists (set_kernel (set_critical m b (set_lists m1 (q_kernel s))) s), A1.
  split_and!; try done.
  - erewrite bind_eq by (apply onK_run; exact Hrun). by erewrite bind_eq by (apply onK_run; exact Hexit).
  - by eapply qinv_kernel.
  - constructor; [exists T; exact (proj1 HT)|exists U|done]. eapply ready_keep; [exact HU|exact (proj1 HU)|done|]. apply Hot. simpl. congruence.
Qed.

Lemma send_block_effect idle s A live I q Q a ticks front sp :
  qinv s A live I -> ready2 idle (q_kernel s) A -> q_queues s !! q = Some Q ->
  pxCurrentTCB (q_kernel s) <> idle -> in_u 32 ticks ->
  exists s' A', prvSend q a ticks front sp PBlock s = Some (PWait, s') /\
    qinv s' A' live I /\ steady idle (q_kernel s') A' /\ q_queues s' = q_queues s /\ q_mem s' = q_mem s /\
    pxCurrentTCB (q_kernel s') = pxCurrentTCB (q_kernel s) /\
    parked (q_kernel s') A' (pxCurrentTCB (q_kernel s)) (WaitSend q) ticks (xTickCount (q_kernel s)).
Proof.
  intros Hq [HT HU Hn] HQ Hne Ht. destruct (qinv_core _ _ _ _ _ _ Hq HQ) as [Hcs _]. cbn [prvSend].
  set (s0 := set_kernel (set_critical (u64 (uxCriticalNesting (q_kernel s) + 1)) true (q_kernel s)) s).
  assert (Hq0 : qinv s0 A live I) by (eapply qinv_kernel; [done|by apply kinv_critical, Hq|done]).
  erewrite bind_eq by reflexivity.
  destruct (park_effect idle s0 A live I (WaitSend q) ticks _ Hq0 eq_refl) as (s' & A' & ? & ? & ? & ? & ? & ? & _ & _ & ? & _); try done.
  - by exists (uxCriticalNesting (q_kernel s)).
  - by exists s', A'.
Qed.

(** A receiver about to block on a mutex first lends its priority to the
    holder. *)
Lemma recv_block_effect idle s A live I q Q a ticks sp :
  qinv s A live I -> ready2 idle (q_kernel s) A -> q_queues s !! q = Some Q ->
  pxCurrentTCB (q_kernel s) <> idle -> in_u 32 ticks ->
  exists s' A', xQueueReceive q a ticks sp PBlock s = Some (PWait, s') /\
    qinv s' A' live I /\ steady idle (q_kernel s') A' /\ q_queues s' = q_queues s /\ q_mem s' = q_mem s /\
    pxCurrentTCB (q_kernel s') = pxCurrentTCB (q_kernel s) /\
    parked (q_kernel s') A' (pxCurrentTCB (q_kernel s)) (WaitRecv q) ticks (xTickCount (q_kernel s)).
Proof.
  intros Hq [HT HU Hn] HQ Hne Ht. destruct (qinv_core _ _ _ _ _ _ Hq HQ) as [_ Hcr]. cbn [xQueueReceive].
  destruct (qi_queue _ _ _ _ Hq _ _ HQ) as (items & _ & [_ _ _ Hho]). destruct HT as [T HT].
  set (k0 := set_critical (u64 (uxCriticalNesting (q_kernel s) + 1)) true (q_kernel s)).
  assert (Hk0 : kinv None k0 A live) by by apply kinv_critical, Hq.
  erewrite bind_eq by reflexivity. erewrite (bind_eq (ld_q q)) by (unfold ld_q, get_opt; simpl; by rewrite HQ).
  assert (Hpre : exists k1 A1, (if negb (ucIsMutex Q =? 0) then onK (vTaskPriorityInherit (pxMutexHolder Q)) else mret tt) (set_kernel k0 s) =
    Some (tt, set_kernel k1 s) /\ kpre k0 k1 A A1 /\ kinv None k1 A1 live).
  { destruct (negb (ucIsMutex Q =? 0)); [|exists k0, A; split; [done|]; split; [by left|done] ].
    destruct Hho as [->|[H HH] ]; [exists k0, A; split; [done|]; split; [by left|done]|].
    destruct (wp_vTaskPriorityInherit k0 A live (pxMutexHolder Q) H T Hk0 HH (proj1 HT)) as ([] & k1 & Hrun & Hp).
    exists k1. destruct (negb _ && _); cycle 1.
    - subst k1. exists A. split; [unfold onK, zoom; simpl; by rewrite Hrun|]. split; [by left|done].
    - destruct Hp as (A1 & Hrep & Hk1). exists A1. split; [unfold onK, zoom; simpl; by rewrite Hrun|]. split; [|done].
      right. by exists (pxMutexHolder Q), H, (uxPriority T). }
  destruct Hpre as (k1 & A1 & Hrun & Hpre & Hk1). erewrite bind_eq by exact Hrun.
  destruct (kpre_facts _ _ _ _ _ Hk0 Hpre) as (Hc & Hnn & Htk & Htc & Hrd & _).
  assert (Hq1 : qinv (set_kernel k1 s) A1 live I).
  { eapply qinv_kernel; [done|done|]. intros t [T0 HT0]. destruct (Htc _ _ HT0) as (T1 & -> & _). by eexists. }
  destruct (park_effect idle (set_kernel k1 s) A1 live I (WaitRecv q) ticks _ Hq1 eq_refl) as (s' & A' & ? & ? & ? & ? & ? & Hcc & _ & _ & Hpk & _); try done.
  - exists (uxCriticalNesting (q_kernel s)). split; [done|]. simpl. by rewrite Hnn.
  - simpl. rewrite Hc. by eapply Hrd.
  - destruct HU as [U HU]. by eapply Hrd.
  - simpl. by rewrite Hc.
  - exists s', A'. simpl in Hpk, Hcc. rewrite Hc in Hcc. rewrite Hc, Htk in Hpk. by split_and!.
Qed.
End safe.

(** ** Semaphore and mutex creation *)

Section create.
Context {LS HS : Type} `{!ListOps item lst LS} `{!ListLaws item lst LS} `{!HeapOps HS} `{!HeapLaws HS}.
Implicit Types (W : gset Z) (s : qsys LS HS) (A : amem item lst) (live : gmap Z Z) (I : gmap Z (list (list Z))).

(** Rewriting the count or the mutex flag of a queue of empty items. *)
Lemma token_queue W s A live I q Q items Q' items' :
  @qinv W LS HS _ _ _ _ s A live I -> q_queues s !! q = Some Q -> I !! q = Some items -> uxItemSize Q = 0 ->
  pcHead Q' = pcHead Q /\ pcTail Q' = pcTail Q /\ uxLength Q' = uxLength Q /\ uxItemSize Q' = uxItemSize Q ->
  pxMutexHolder Q' = 0 -> uxMessagesWaiting Q' = Z.of_nat (length items') -> Z.of_nat (length items') <= uxLength Q ->
  Forall (fun x => x = []) items' ->
  @qinv W LS HS _ _ _ _ (set_queues (<[q := Q']> (q_queues s)) s) A live (<[q := items']> I).
Proof.
  intros Hq HQ HI Hz (E1 & E2 & E3 & E4) Hh Hc Hl Hnil. destruct (qi_queue _ _ _ _ Hq _ _ HQ) as (its & HI' & [ [Hl1 Hs Ht _ _ _ Ho _] _ _ _]).
  eapply (qinv_upd s A live I q Q items Q' items' (q_mem s) (q_kernel s) A); try done; [apply Hq| |by left].
  constructor; rewrite ?E1, ?E2, ?E3, ?E4; try done; [|by rewrite Hz]. eapply Forall_impl; [exact Hnil|]. intros ? ->. by rewrite Hz.
Qed.

Definition token_post W idle s A live I (items : list (list Z)) (len mutex : Z) q s' : Prop :=
  q = 0 /\ @qinv W LS HS _ _ _ _ s' A live I /\ ready2 idle (q_kernel s') A \/
  q <> 0 /\ q_queues s !! q = None /\ live !! q = None /\ exists A' Q, q_queues s' !! q = Some Q /\
    uxLength Q = len /\ uxItemSize Q = 0 /\ ucIsMutex Q = mutex /\ pxMutexHolder Q = 0 /\ ready2 idle (q_kernel s') A' /\
    @qinv ({[q]} ∪ W) LS HS _ _ _ _ s' A' (<[q := sizeof_Queue_t]> live) (<[q := items]> I).

Lemma created_ready W idle s s' A A' live I q len isz :
  queue_created W s s' A A' live I q len isz -> ready2 idle (q_kernel s) A -> ready2 idle (q_kernel s') A'.
Proof.
  intros [_ _ _ Hit (ml & h & Hk) _] [ [T HT] [U HU] Hn]. rewrite Hk. constructor; [|exists U|done].
  - exists T. eapply ready_keep; [exact HT|apply HT|done|by rewrite Hit].
  - eapply ready_keep; [exact HU|apply HU|done|by rewrite Hit].
Qed.
Lemma heap_ready idle (k : kernel LS HS) A h : ready2 idle k A -> ready2 idle (set_heap h k) A.
Proof. by intros []. Qed.

Lemma wp_xQueueCreateCounting W idle s A live I max init :
  @qinv W LS HS _ _ _ _ s A live I -> ready2 idle (q_kernel s) A -> 0 < max < 2 ^ 63 -> 0 <= init <= max ->
  wp (xQueueCreateCounting max init) (fun q s' => token_post W idle s A live I (replicate (Z.to_nat init) []) max 0 q s') s.
Proof.
  intros Hq Hr Hm Hi. unfold xQueueCreateCounting. apply wp_bind.
  eapply wp_mono; [apply (wp_xQueueCreate W s A live I max 0 Hq); unfold sizeof_Queue_t; lia|].
  cbn beta. intros q s1 [ (-> & [h ->] & Hq1)|(Hq0 & A' & Hc)].
  { apply wp_ret. left. split_and!; try done. by apply heap_ready. }
  rewrite (proj2 (Z.eqb_neq q 0) Hq0). cbn [negb]. pose proof (created_ready _ _ _ _ _ _ _ _ _ _ _ Hc Hr) as Hr'.
  destruct Hc as [Hq1 [Hn1 Hn2] (Q & HQs & HL & Hz & Hmx & Hh) _ _ _]. rewrite Z.mul_0_r, Z.add_0_r in Hq1.
  assert (HQ : q_queues s1 !! q = Some Q) by by rewrite HQs, lookup_insert_eq.
  apply wp_bind. eapply wp_st_q; [exact HQ|]. apply wp_ret. right. split_and!; try done. exists A', (with_count init Q). simpl.
  rewrite lookup_insert_eq. split_and!; try done.
  rewrite <- (insert_insert_eq I q (replicate (Z.to_nat init) []) []).
  eapply (token_queue _ s1 A' _ _ q Q []); simpl; try done; [by rewrite lookup_insert_eq|rewrite length_replicate; lia|rewrite length_replicate; lia|].
  by apply Forall_replicate.
Qed.

(** Nobody waits on a queue that has just been created. *)
Lemma created_quiet W s s' A A' live I q len isz t :
  @qinv W LS HS _ _ _ _ s A live I -> queue_created W s s' A A' live I q len isz -> ~ waits A' (WaitRecv q) t.
Proof.
  intros Hq [_ [_ Hn] _ Hit _ _]. unfold waits, cont. rewrite Hit. destruct (am_items A !! EventItem t) as [it|] eqn:Hi; [|done]. intros [= Hc].
  pose proof (qi_kinv _ _ _ _ Hq) as Hk. pose proof (wf_cont A (inv_wf _ _ _ _ Hk) _ _ _ Hi Hc) as Hl.
  apply (ai_core _ _ _ _ (ki_ainv _ _ _ _ Hk)) in Hl. cbn in Hl. pose proof (qi_dom _ _ _ _ Hq) as Hd. rewrite <- Hd in Hl.
  apply elem_of_dom in Hl as [Q0 HQ0]. congruence.
Qed.

(** The token sent at creation finds an empty queue nobody waits on. *)
Lemma wp_xQueueCreateMutex W idle s A live I sp :
  @qinv W LS HS _ _ _ _ s A live I -> ready2 idle (q_kernel s) A ->
  wp (xQueueCreateMutex sp) (fun q s' => token_post W idle s A live I [ [] ] 1 1 q s') s.
Proof.
  intros Hq Hr. unfold xQueueCreateMutex. apply wp_bind.
  eapply wp_mono; [apply (wp_xQueueCreate W s A live I 1 0 Hq); unfold sizeof_Queue_t; lia|].
  cbn beta. intros q s1 [ (-> & [h ->] & Hq1)|(Hq0 & A' & Hc)].
  { apply wp_ret. left. split_and!; try done. by apply heap_ready. }
  rewrite (proj2 (Z.eqb_neq q 0) Hq0). cbn [negb]. pose proof (created_ready _ _ _ _ _ _ _ _ _ _ _ Hc Hr) as Hr'.
  pose proof (fun t => created_quiet _ _ _ _ _ _ _ _ _ _ t Hq Hc) as Hnobody.
  destruct Hc as [Hq1 [Hn1 Hn2] (Q & HQs & HL & Hz & Hmx & Hh) _ _ _]. rewrite Z.mul_0_r, Z.add_0_r in Hq1.
  assert (HQ : q_queues s1 !! q = Some Q) by by rewrite HQs, lookup_insert_eq.
  apply wp_bind, wp_bind. eapply wp_st_q; [exact HQ|].
  destruct (qi_queue _ _ _ _ Hq1 _ _ HQ) as (its & HI' & [Hsh _ _ _]). rewrite lookup_insert_eq in HI'. injection HI' as <-.
  eapply (token_queue _ s1 A' _ _ q Q [] (with_mutex 1 Q) []) in Hq1; try done; [|by rewrite lookup_insert_eq|exact (so_count _ _ _ Hsh)|simpl; lia].
  rewrite insert_insert_eq in Hq1. set (s2 := set_queues _ s1) in *.
  destruct (send_try_effect idle s2 A' _ _ q (with_mutex 1 Q) [] 0 0 pdFALSE sp [] PTry Hq1 Hr') as (ph & s3 & A3 & Hrun & Hr3 & Hpost);
    [simpl; by rewrite lookup_insert_eq|by rewrite lookup_insert_eq|split; simpl; lia|by left|].
  simpl in Hpost. rewrite HL in Hpost. destruct Hpost as (Hq3 & (y & -> & Hsig) & (Q3 & HQ3 & (_ & _ & E3 & E4 & E5) & Hh3) & _).
  assert (Hy : y = pdFALSE).
  { destruct (ks_wake _ _ _ _ _ _ Hsig) as [ [_ ?]|(t & T & C & Hw & _)]; [done|]. by destruct (Hnobody t). }
  subst y. apply wp_bind. unfold no_wait. exists (PDone pdPASS), s3. split; [by erewrite bind_eq by exact Hrun|]. apply wp_ret, wp_ret. right. split_and!; try done. exists A3, Q3.
  rewrite HQ3, lookup_insert_eq. rewrite insert_insert_eq in Hq3. simpl in E3, E4, E5. split_and!; try done; lia.
Qed.
End create.

(** ** Stacks *)

Section stacks.
Context {LS HS : Type} `{!ListOps item lst LS} `{!HeapOps HS}.
Implicit Types (s : qsys LS HS) (k : kernel LS HS) (sp : Z -> Z).

(** No task has overrun its stack, whenever it yields with the stack pointer
    [sp] gives for it. *)
Definition stacks_hold sp k : Prop :=
  forall t T, k_tcbs k !! t = Some T -> stack_ok (k_stack k) (with_sp (sp t) T).

Lemma stacks_hold_keep sp k k' :
  k_stack k' = k_stack k -> pxStack <$> k_tcbs k' = pxStack <$> k_tcbs k -> stacks_hold sp k -> stacks_hold sp k'.
Proof.
  intros Hst Hf Hs t T HT. symmetry in Hf. destruct (keeps_lookup pxStack _ _ _ _ Hf HT) as (T0 & HT0 & E).
  specialize (Hs t T0 HT0). unfold stack_ok in *. cbn in *. by rewrite Hst, <- E.
Qed.

Definition qkeeps {B} (c : M (qsys LS HS) B) : Prop := forall s r s', c s = Some (r, s') ->
  k_stack (q_kernel s') = k_stack (q_kernel s) /\ pxStack <$> k_tcbs (q_kernel s') = pxStack <$> k_tcbs (q_kernel s).
Lemma qkeeps_hold {B} (c : M (qsys LS HS) B) s r s' sp :
  qkeeps c -> c s = Some (r, s') -> stacks_hold sp (q_kernel s) -> stacks_hold sp (q_kernel s').
Proof.
  intros Hc Hrun. destruct (Hc _ _ _ Hrun) as [Hst Hf]. by apply stacks_hold_keep.
Qed.
Lemma yields_keep (sp : Z) k k' :
  k_stack k' = k_stack k -> pxStack <$> k_tcbs k' = pxStack <$> k_tcbs k -> pxCurrentTCB k' = pxCurrentTCB k -> yields_ok sp k -> yields_ok sp k'.
Proof.
  intros Hst Hf Hc Hs T HT. rewrite Hc in HT. symmetry in Hf. destruct (keeps_lookup pxStack _ _ _ _ Hf HT) as (T0 & HT0 & E).
  specialize (Hs T0 HT0). unfold stack_ok in *. cbn in *. by rewrite Hst, <- E.
Qed.
Lemma hold_yields sp k : stacks_hold sp k -> yields_ok (sp (pxCurrentTCB k)) k.
Proof. intros Hs T HT. by apply Hs. Qed.

Lemma qkeeps_ret {B} (b : B) : qkeeps (mret b).
Proof. by intros s r s' [= <- <-]. Qed.
Lemma qkeeps_onK {B} (c : M (kernel LS HS) B) : keeps pxStack c -> qkeeps (onK c).
Proof. intros Hc s r s' Hrun. unfold onK, zoom in Hrun. destruct (c (q_kernel s)) as [ [b k]|] eqn:E; [|done]. injection Hrun as <- <-. exact (Hc _ _ _ E). Qed.
Lemma qkeeps_onB {B} (c : M mem B) : qkeeps (onB c).
Proof. intros s r s' Hrun. unfold onB, zoom in Hrun. destruct (c (q_mem s)) as [ [b m]|]; [|done]. by injection Hrun as <- <-. Qed.
Lemma qkeeps_ld q : qkeeps (ld_q q).
Proof. intros s r s' Hrun. unfold ld_q, get_opt in Hrun. destruct (q_queues s !! q); [|done]. by injection Hrun as <- <-. Qed.
Lemma qkeeps_bind {B C} (c : M (qsys LS HS) B) (k : B -> M (qsys LS HS) C) : qkeeps c -> (forall b, qkeeps (k b)) -> qkeeps (c ≫= k).
Proof.
  intros Hc Hk s r s' Hrun. unfold mbind, M_bind in Hrun. destruct (c s) as [ [b s1]|] eqn:E; [|done].
  destruct (Hc _ _ _ E) as [<- <-]. exact (Hk _ _ _ _ Hrun).
Qed.
Lemma qkeeps_st q f : qkeeps (st_q q f).
Proof. apply qkeeps_bind; [apply qkeeps_ld|]. by intros _ s r s' [= <- <-]. Qed.

#[local] Hint Resolve qkeeps_ret qkeeps_onB qkeeps_ld qkeeps_st : keeps.
#[local] Hint Resolve keeps_enter keeps_exit keeps_place keeps_signal frame_gets : keeps.
#[local] Hint Extern 1 (keeps _ (taskYIELD _)) => apply keeps_yield; done : keeps.
#[local] Hint Extern 1 (keeps _ (vTaskPriorityInherit _)) => apply keeps_inherit; done : keeps.
#[local] Hint Extern 1 (keeps _ (vTaskPriorityDisinherit _)) => apply keeps_disinherit; done : keeps.
#[local] Hint Extern 2 (qkeeps (onK _)) => apply qkeeps_onK; solve [auto with keeps] : keeps.
Ltac qkeeps_steps := repeat first [solve [auto with keeps] | case_match | apply qkeeps_bind; [|intros ?] ].

Lemma qkeeps_send q a ticks front (sp : Z) pc : qkeeps (prvSend q a ticks front sp pc).
Proof. unfold prvSend, prvSend_try, prvCopyIn. qkeeps_steps. Qed.
Lemma qkeeps_receive q a ticks (sp : Z) pc : qkeeps (xQueueReceive q a ticks sp pc).
Proof. unfold xQueueReceive, xQueueReceive_try, prvCopyOut, xTaskGetCurrentTaskHandle. qkeeps_steps. Qed.
Lemma qkeeps_no_wait call : (forall pc, qkeeps (call pc)) -> qkeeps (no_wait call).
Proof. intros Hc. by apply qkeeps_bind. Qed.
End stacks.
