(* ===== verification/QueueProps.v ===== *)
(** * Correctness of queues, semaphores and mutexes

    The properties of queue.c: a send appends to (or pushes in front of) the
    sequence or reports a full queue, a receive takes the oldest item or
    reports an empty queue, items come out in the order they went in, a mutex
    has at most one holder, a caller that blocks is parked on the right lists,
    and any interleaving of queue and scheduler steps keeps the system
    invariant.  [receive_blocks_despite_item] exhibits the window between the
    first two critical sections of a receive. *)

From stdpp Require Import sorting.
From S2P Require Import Prelude Config Lists ListSpec ListRefine Alloc Tasks TasksInv TasksSpec TasksCreate TasksSafe TasksFrame Libc Queue QueueSpec QueueSafe.

Section properties.
Context {LS HS : Type} `{!ListOps item lst LS} `{!ListLaws item lst LS} `{!HeapOps HS} `{!HeapLaws HS}.
Context (sym : symbols).

Section queue.
Context `{Qs : Queues}.
Implicit Types (s : qsys LS HS) (k : kernel LS HS) (A : amem item lst) (live : gmap Z Z) (I : gmap Z (list (list Z))).
Implicit Types (Q : Queue_t) (q a sp ticks front : Z) (x : list Z) (items : list (list Z)).

Lemma woke_cases y : woke y = PDone pdPASS \/ woke y = PYield pdPASS.
Proof. unfold woke. destruct (negb _); auto. Qed.

(** A send that finds room will return pdPASS, at once or after a yield to the
    task it woke; it adds the caller's bytes at the chosen end of the sequence, and wakes the highest-priority receiver that
    waits, without touching memory outside the storage; a send that finds
    the queue full changes neither queue nor memory and either fails at once
    (no timeout) or goes on to block. *)
Theorem queue_send_adds_item idle s A live I q Q items a ticks front sp x :
  qinv s A live I -> ready2 idle (q_kernel s) A -> q_queues s !! q = Some Q -> I !! q = Some items ->
  item_at (q_mem s) Q a x ->
  exists ph s' A', prvSend q a ticks front sp PTry s = Some (ph, s') /\ ready2 idle (q_kernel s') A' /\
    if Z.of_nat (length items) <? uxLength Q then
      (ph = PDone pdPASS \/ ph = PYield pdPASS) /\
      qinv s' A' live (<[q := if front =? pdFALSE then items ++ [x] else x :: items]> I) /\
      (forall b, ~ pcHead Q <= b < pcTail Q -> q_mem s' !! b = q_mem s !! b) /\
      ((exists t, waits A (WaitRecv q) t) -> exists t, waits A (WaitRecv q) t /\ cont A' (EventItem t) = Some None /\
        forall v V T, waits A (WaitRecv q) v -> k_tcbs (q_kernel s) !! v = Some V -> k_tcbs (q_kernel s) !! t = Some T ->
          uxBasePriority V <= uxBasePriority T)
    else
      ph = (if ticks =? 0 then PDone errQUEUE_FULL else PBlock) /\ qinv s' A' live I /\
      q_queues s' = q_queues s /\ q_mem s' = q_mem s.
Proof.
  intros Hq Hr HQ HI Hit.
  destruct (send_try_effect idle s A live I q Q items a ticks front sp x PTry Hq Hr HQ HI Hit ltac:(by left))
    as (ph & s' & A' & Hrun & Hr' & Hpost).
  exists ph, s', A'. split; [done|]. split; [done|]. destruct (Z.of_nat (length items) <? uxLength Q).
  - destruct Hpost as (Hinv & (y & -> & Hsig) & _ & Hm). split_and!; try done; [apply woke_cases|]. intros [t0 Ht0].
    destruct (ks_wake _ _ _ _ _ _ Hsig) as [ [Hno _]|(t & T & C & Hw & HT & He & _ & _ & Hb & Hmax)]; [by destruct (Hno t0)|].
    exists t. split; [done|]. split; [done|]. intros v V T0 Hv HV HT0.
    rewrite (Hb _ HT0). by apply (Hmax v).
  - destruct Hpost as (-> & -> & ? & ? & ?). split_and!; try done. rewrite bool_decide_true by done. by destruct (ticks =? 0).
Qed.

(** A receive from a non-empty queue will return pdPASS, at once or after a
    yield to the task it woke, with the oldest item in the caller's buffer, drops it from the sequence and writes nothing
    else; from an empty queue it changes neither queue nor memory and either
    fails at once or goes on to block. *)
Theorem queue_receive_takes_oldest idle s A live I q Q items a ticks sp :
  qinv s A live I -> ready2 idle (q_kernel s) A -> q_queues s !! q = Some Q -> I !! q = Some items ->
  buffer_ok s Q a ->
  exists ph s' A', xQueueReceive q a ticks sp PTry s = Some (ph, s') /\ ready2 idle (q_kernel s') A' /\
    match items with
    | x :: items' =>
      (ph = PDone pdPASS \/ ph = PYield pdPASS) /\ qinv s' A' live (<[q := items']> I) /\ bytes_at (q_mem s') a x /\
      (forall b, ~ a <= b < a + uxItemSize Q -> q_mem s' !! b = q_mem s !! b)
    | [] =>
      ph = (if ticks =? 0 then PDone errQUEUE_EMPTY else PBlock) /\ qinv s' A' live I /\
      q_queues s' = q_queues s /\ q_mem s' = q_mem s
    end.
Proof.
  intros Hq Hr HQ HI Hb.
  destruct (recv_try_effect idle s A live I q Q items a ticks sp PTry Hq Hr HQ HI Hb ltac:(by left))
    as (ph & s' & A' & Hrun & Hr' & Hpost).
  exists ph, s', A'. split; [done|]. split; [done|]. destruct items as [|x items].
  - destruct Hpost as (-> & -> & ? & ? & ?). split_and!; try done. rewrite bool_decide_true by done. by destruct (ticks =? 0).
  - destruct Hpost as (? & ? & (y & -> & _) & _ & ?). split_and!; try done. apply woke_cases.
Qed.

(** ** Order *)

(** The calls are complete, the yield to a woken task included; [sp] gives the
    stack pointer of whichever task yields. *)
Definition at_current {B} (sp : Z -> Z) (call : Z -> M (qsys LS HS) B) : M (qsys LS HS) B :=
  t ← gets (fun s => pxCurrentTCB (q_kernel s)); call (sp t).

Fixpoint send_all q (sp : Z -> Z) (adrs : list Z) : M (qsys LS HS) unit :=
  match adrs with
  | [] => mret tt
  | a :: adrs => ph ← at_current sp (fun sp => no_wait (xQueueSendToBack q a 0 sp));
      if decide (ph = PDone pdPASS) then send_all q sp adrs else fails
  end.

Definition read_bytes (a : Z) (n : nat) (m : mem) : list Z := (fun i => default 0 (m !! (a + Z.of_nat i))) <$> seq 0 n.

Fixpoint receive_all q a (sp : Z -> Z) (n k : nat) : M (qsys LS HS) (list (list Z)) :=
  match k with
  | O => mret []
  | S k => ph ← at_current sp (fun sp => no_wait (xQueueReceive q a 0 sp));
      if decide (ph = PDone pdPASS) then
        x ← gets (fun s => read_bytes a n (q_mem s)); xs ← receive_all q a sp n k; mret (x :: xs)
      else fails
  end.

Lemma read_bytes_at m a x : bytes_at m a x -> read_bytes a (length x) m = x.
Proof.
  intros Hb. apply list_eq. intros i. unfold read_bytes. rewrite list_lookup_fmap.
  destruct (x !! i) as [b|] eqn:Hx.
  - pose proof (lookup_lt_Some _ _ _ Hx). rewrite lookup_seq_lt by done. simpl. by rewrite (Hb _ _ Hx).
  - apply lookup_ge_None in Hx. by rewrite lookup_seq_ge by done.
Qed.

Lemma item_at_frame m m' Q Q' a x :
  item_at m Q a x -> same_ctl Q Q' -> (forall b, ~ pcHead Q <= b < pcTail Q -> m' !! b = m !! b) -> item_at m' Q' a x.
Proof.
  intros [Hl Hi] (E1 & E2 & E3 & E4 & _) Hm. unfold item_at. rewrite E1, E2, E4. split; [done|]. intros Hpos.
  destruct (Hi Hpos) as (? & Hb & Hd). split_and!; try done. intros j c Hj. pose proof (lookup_lt_Some _ _ _ Hj).
  rewrite Hm by lia. by apply Hb.
Qed.

Lemma buffer_frame s s' q Q Q' b :
  buffer_ok s Q b -> q_queues s !! q = Some Q -> q_queues s' = <[q := Q']> (q_queues s) -> same_ctl Q Q' ->
  (forall c, is_Some (q_mem s !! c) -> is_Some (q_mem s' !! c)) -> buffer_ok s' Q' b.
Proof.
  intros Hb HQ Hq (E1 & E2 & E3 & E4 & _) Hm. unfold buffer_ok. rewrite E4. intros Hpos. destruct (Hb Hpos) as [Ho Hd].
  split; [intros i Hi; by apply Hm, Ho|]. intros q2 Q2. rewrite Hq, lookup_insert. case_decide; [|apply Hd].
  intros [= <-]. rewrite E1, E2. by eapply Hd.
Qed.

(** A completed send or receive keeps memory accessible. *)
Lemma send_mem_kept s s' A' live I' q Q Q' :
  qinv s' A' live I' -> q_queues s' = <[q := Q']> (q_queues s) -> same_ctl Q Q' ->
  (forall b, ~ pcHead Q <= b < pcTail Q -> q_mem s' !! b = q_mem s !! b) ->
  forall c, is_Some (q_mem s !! c) -> is_Some (q_mem s' !! c).
Proof.
  intros Hq1 HQ1 (E1 & E2 & E3 & E4 & _) Hm c Hc. destruct (decide (pcHead Q <= c < pcTail Q)) as [Hin|]; [|by rewrite Hm].
  destruct (qi_queue _ _ _ _ Hq1 q Q' ltac:(by rewrite HQ1, lookup_insert_eq)) as (? & _ & [Hsh _ _ _]).
  replace c with (pcHead Q' + (c - pcHead Q')) by lia. apply (so_owned _ _ _ Hsh). rewrite <- E1, <- E2, (so_tail _ _ _ Hsh) in Hin. lia.
Qed.
Lemma recv_mem_kept s s' a x n :
  bytes_at (q_mem s') a x -> Z.of_nat (length x) = n -> (forall b, ~ a <= b < a + n -> q_mem s' !! b = q_mem s !! b) ->
  forall c, is_Some (q_mem s !! c) -> is_Some (q_mem s' !! c).
Proof.
  intros Hx Hn Hm c Hc. destruct (decide (a <= c < a + n)) as [Hin|]; [|by rewrite Hm].
  destruct (lookup_lt_is_Some_2 x (Z.to_nat (c - a)) ltac:(lia)) as [v Hv]. exists v. rewrite <- (Hx _ _ Hv). f_equal. lia.
Qed.

(** A call that found what it needed, run to its return. *)
Lemma complete_effect idle (sp : Z -> Z) call s s1 A1 live I1 y :
  (forall r s, call (PDone r) s = Some (PDone r, s)) -> (forall r, call (PYield r) = (onK (taskYIELD (sp (pxCurrentTCB (q_kernel s1))));; mret (PDone r))) ->
  (forall pc, qkeeps (call pc)) ->
  call PTry s = Some (woke y, s1) -> qinv s1 A1 live I1 -> ready2 idle (q_kernel s1) A1 -> stacks_hold sp (q_kernel s) ->
  exists k' A', no_wait call s = Some (PDone pdPASS, set_kernel k' s1) /\ qinv (set_kernel k' s1) A' live I1 /\ ready2 idle k' A' /\ stacks_hold sp k'.
Proof.
  intros Hdone Hyield Hkeep Hrun Hq1 Hr1 Hs. pose proof (qkeeps_hold _ _ _ _ sp (Hkeep PTry) Hrun Hs) as Hs1.
  unfold no_wait. erewrite bind_eq by exact Hrun. unfold woke in *. destruct (negb (y =? pdFALSE)).
  - destruct (yield_effect (PDone pdPASS) idle _ s1 A1 live I1 Hq1 (ready2_steady _ _ _ Hr1) (hold_yields _ _ Hs1)) as (k' & A' & Hy & Hq' & Hr' & _).
    exists k', A'. rewrite Hyield. split_and!; try done. apply (qkeeps_hold _ s1 (PDone pdPASS) (set_kernel k' s1) sp (Hkeep (PYield pdPASS))); [by rewrite Hyield|done].
  - exists (q_kernel s1), A1. rewrite Hdone. by destruct s1.
Qed.

Lemma send_now idle (sp : Z -> Z) s A live I q Q items a x :
  qinv s A live I -> ready2 idle (q_kernel s) A -> stacks_hold sp (q_kernel s) -> q_queues s !! q = Some Q -> I !! q = Some items ->
  item_at (q_mem s) Q a x -> Z.of_nat (length items) < uxLength Q ->
  exists s' A' Q', at_current sp (fun sp => no_wait (xQueueSendToBack q a 0 sp)) s = Some (PDone pdPASS, s') /\
    qinv s' A' live (<[q := items ++ [x] ]> I) /\ ready2 idle (q_kernel s') A' /\ stacks_hold sp (q_kernel s') /\
    q_queues s' = <[q := Q']> (q_queues s) /\ same_ctl Q Q' /\ (forall b, ~ pcHead Q <= b < pcTail Q -> q_mem s' !! b = q_mem s !! b).
Proof.
  intros Hq Hr Hs HQ HI Hit Hroom.
  destruct (send_try_effect idle s A live I q Q items a 0 pdFALSE (sp (pxCurrentTCB (q_kernel s))) x PTry Hq Hr HQ HI Hit ltac:(by left))
    as (ph & s1 & A1 & Hrun & Hr1 & Hpost).
  rewrite (proj2 (Z.ltb_lt _ _)) in Hpost by lia. destruct Hpost as (Hq1 & (y & -> & Hsig) & (Q1 & HQ1 & Hctl & _) & Hm).
  destruct (complete_effect idle sp (prvSend q a 0 pdFALSE (sp (pxCurrentTCB (q_kernel s)))) s s1 A1 live (<[q := items ++ [x] ]> I) y) as (k' & A' & Hrun' & Hq' & Hr' & Hs'); try done.
  - intros r. cbn [prvSend]. by rewrite (ks_cur _ _ _ _ _ _ Hsig).
  - intros pc. apply qkeeps_send.
  - exists (set_kernel k' s1), A', Q1. split; [exact Hrun'|]. by split_and!.
Qed.
Lemma receive_now idle (sp : Z -> Z) s A live I q Q x items a :
  qinv s A live I -> ready2 idle (q_kernel s) A -> stacks_hold sp (q_kernel s) -> q_queues s !! q = Some Q -> I !! q = Some (x :: items) ->
  buffer_ok s Q a ->
  exists s' A' Q', at_current sp (fun sp => no_wait (xQueueReceive q a 0 sp)) s = Some (PDone pdPASS, s') /\
    qinv s' A' live (<[q := items]> I) /\ ready2 idle (q_kernel s') A' /\ stacks_hold sp (q_kernel s') /\ bytes_at (q_mem s') a x /\
    q_queues s' = <[q := Q']> (q_queues s) /\ same_ctl Q Q' /\ (forall b, ~ a <= b < a + uxItemSize Q -> q_mem s' !! b = q_mem s !! b).
Proof.
  intros Hq Hr Hs HQ HI Hit.
  destruct (recv_try_effect idle s A live I q Q (x :: items) a 0 (sp (pxCurrentTCB (q_kernel s))) PTry Hq Hr HQ HI Hit ltac:(by left))
    as (ph & s1 & A1 & Hrun & Hr1 & Hq1 & Hx & (y & -> & Hsig) & (Q1 & HQ1 & Hctl & _) & Hm).
  destruct (complete_effect idle sp (xQueueReceive q a 0 (sp (pxCurrentTCB (q_kernel s)))) s s1 A1 live (<[q := items]> I) y) as (k' & A' & Hrun' & Hq' & Hr' & Hs'); try done.
  - intros r. cbn [xQueueReceive]. by rewrite (ks_cur _ _ _ _ _ _ Hsig).
  - intros pc. apply qkeeps_receive.
  - exists (set_kernel k' s1), A', Q1. split; [exact Hrun'|]. by split_and!.
Qed.

Lemma send_all_effect idle q (sp : Z -> Z) adrs xs s A live I Q items b :
  qinv s A live I -> ready2 idle (q_kernel s) A -> stacks_hold sp (q_kernel s) -> q_queues s !! q = Some Q -> I !! q = Some items ->
  Forall2 (item_at (q_mem s) Q) adrs xs -> Z.of_nat (length items + length xs) <= uxLength Q -> buffer_ok s Q b ->
  exists s' A' I' Q', send_all q sp adrs s = Some (tt, s') /\ qinv s' A' live I' /\ ready2 idle (q_kernel s') A' /\ stacks_hold sp (q_kernel s') /\
    q_queues s' !! q = Some Q' /\ I' !! q = Some (items ++ xs) /\ buffer_ok s' Q' b /\ uxItemSize Q' = uxItemSize Q /\
    k_stack (q_kernel s') = k_stack (q_kernel s) /\ pxStack <$> k_tcbs (q_kernel s') = pxStack <$> k_tcbs (q_kernel s).
Proof.
  intros Hq Hr Hs HQ HI Hall. revert s A I Q items Hq Hr Hs HQ HI Hall.
  induction adrs as [|a adrs IH] in xs |- *; intros s A I Q items Hq Hr Hs HQ HI Hall Hlen Hb.
  { apply Forall2_nil_inv_l in Hall as ->. exists s, A, I, Q. rewrite app_nil_r. by split_and!. }
  apply Forall2_cons_inv_l in Hall as (x & xs' & Hit & Hall & ->). simpl in Hlen.
  destruct (send_now idle sp s A live I q Q items a x Hq Hr Hs HQ HI Hit ltac:(lia)) as (s1 & A1 & Q1 & Hrun & Hq1 & Hr1 & Hs1 & HQ1 & Hctl & Hm).
  pose proof Hctl as (E1 & E2 & E3 & E4 & _).
  destruct (qkeeps_no_wait (xQueueSendToBack q a 0 (sp (pxCurrentTCB (q_kernel s)))) ltac:(intros; apply qkeeps_send) _ _ _ Hrun) as [F1 F2].
  destruct (IH xs' s1 A1 _ Q1 (items ++ [x]) Hq1 Hr1 Hs1) as (s' & A' & I' & Q' & Hrun' & ? & ? & ? & ? & HI' & ? & Hsz & G1 & G2).
  - by rewrite HQ1, lookup_insert_eq.
  - by rewrite lookup_insert_eq.
  - eapply Forall2_impl; [exact Hall|]. intros ? ? ?. by eapply item_at_frame.
  - rewrite length_app, E3. simpl. lia.
  - eapply buffer_frame; try done. by eapply send_mem_kept.
  - exists s', A', I', Q'. rewrite <- app_assoc in HI'. split_and!; try done; try congruence. cbn [send_all]. erewrite bind_eq by exact Hrun.
    by rewrite decide_True.
Qed.

Lemma receive_all_effect idle q b (sp : Z -> Z) items s A live I Q :
  qinv s A live I -> ready2 idle (q_kernel s) A -> stacks_hold sp (q_kernel s) -> q_queues s !! q = Some Q -> I !! q = Some items -> buffer_ok s Q b ->
  exists s' A' I', receive_all q b sp (Z.to_nat (uxItemSize Q)) (length items) s = Some (items, s') /\
    qinv s' A' live I' /\ ready2 idle (q_kernel s') A' /\ I' !! q = Some [].
Proof.
  revert s A I Q. induction items as [|x items IH]; intros s A I Q Hq Hr Hs HQ HI Hb; [by exists s, A, I|].
  destruct (receive_now idle sp s A live I q Q x items b Hq Hr Hs HQ HI Hb) as (s1 & A1 & Q1 & Hrun & Hq1 & Hr1 & Hs1 & Hx & HQ1 & Hctl & Hm).
  destruct (qi_queue _ _ _ _ Hq _ _ HQ) as (its & HI' & [Hsh _ _ _]). rewrite HI in HI'. injection HI' as <-.
  pose proof (so_items _ _ _ Hsh) as [Hlx _]%Forall_cons.
  destruct (IH s1 A1 _ Q1 Hq1 Hr1 Hs1) as (s' & A' & I' & Hrun' & Hq' & Hr' & HI').
  - by rewrite HQ1, lookup_insert_eq.
  - by rewrite lookup_insert_eq.
  - eapply buffer_frame; try done. by eapply recv_mem_kept.
  - exists s', A', I'. split_and!; try done. cbn [receive_all length]. erewrite bind_eq by exact Hrun. rewrite decide_True by done.
    erewrite bind_eq by reflexivity. destruct Hctl as (_ & _ & _ & E4 & _). rewrite <- E4. erewrite bind_eq by exact Hrun'.
    unfold mret, M_ret. do 3 f_equal. rewrite E4, <- Hlx, Nat2Z.id. by apply read_bytes_at.
Qed.

(** C5: items sent to the back come out of the queue in the order they were
    sent, after the ones already in it, byte for byte.  The calls are complete,
    with the yield to a task one of them wakes, whatever task runs next; no task
    has overrun its stack where it yields. *)
Theorem queue_is_fifo idle s A live I q Q items adrs xs b (sp sp' : Z -> Z) :
  qinv s A live I -> ready2 idle (q_kernel s) A -> stacks_hold sp (q_kernel s) -> stacks_hold sp' (q_kernel s) ->
  q_queues s !! q = Some Q -> I !! q = Some items ->
  Forall2 (item_at (q_mem s) Q) adrs xs -> Z.of_nat (length items + length xs) <= uxLength Q -> buffer_ok s Q b ->
  exists s1 s2, send_all q sp adrs s = Some (tt, s1) /\
    receive_all q b sp' (Z.to_nat (uxItemSize Q)) (length (items ++ xs)) s1 = Some (items ++ xs, s2).
Proof.
  intros Hq Hr Hs Hs' HQ HI Hall Hlen Hb.
  destruct (send_all_effect idle q sp adrs xs s A live I Q items b Hq Hr Hs HQ HI Hall Hlen Hb)
    as (s1 & A1 & I1 & Q1 & Hrun & Hq1 & Hr1 & _ & HQ1 & HI1 & Hb1 & Hsz & F1 & F2).
  destruct (receive_all_effect idle q b sp' (items ++ xs) s1 A1 live I1 Q1 Hq1 Hr1 (stacks_hold_keep _ _ _ F1 F2 Hs') HQ1 HI1 Hb1) as (s2 & A2 & I2 & Hrun2 & _).
  exists s1, s2. rewrite Hsz in Hrun2. done.
Qed.

(** ** Mutexes *)

(** A mutex is free, holding its token, or held by a task. *)
Definition mutex_ok Q items : Prop :=
  ucIsMutex Q <> 0 /\ uxLength Q = 1 /\ uxItemSize Q = 0 /\ (items = [] <-> pxMutexHolder Q <> 0).

(** C9: a mutex is free or has one holder, and the critical sections of take
    and give keep it so.  Taking a free mutex, at the first try or after a wait,
    makes the caller its holder and will return pdPASS (after a yield if it woke
    a task).  A held one is left as it is: with timeout 0, or after the wait, the
    take fails, and at the first try with a timeout it goes on to block.  Giving
    a held mutex frees it, giving a free one is refused. *)
Theorem mutex_is_exclusive idle s A live I q Q items ticks sp pc :
  qinv s A live I -> ready2 idle (q_kernel s) A -> q_queues s !! q = Some Q -> I !! q = Some items -> mutex_ok Q items ->
  pc = PTry \/ pc = PRetry ->
  (exists ph s' A' items' Q', xSemaphoreTake q ticks sp pc s = Some (ph, s') /\ ready2 idle (q_kernel s') A' /\
     qinv s' A' live (<[q := items']> I) /\ q_queues s' !! q = Some Q' /\ mutex_ok Q' items' /\
     if pxMutexHolder Q =? 0 then (ph = PDone pdPASS \/ ph = PYield pdPASS) /\ pxMutexHolder Q' = pxCurrentTCB (q_kernel s)
     else ph = (if bool_decide (pc = PTry) && negb (ticks =? 0) then PBlock else PDone errQUEUE_EMPTY) /\ Q' = Q) /\
  (exists ph s' A' items' Q', xSemaphoreGive q sp PTry s = Some (ph, s') /\ ready2 idle (q_kernel s') A' /\
     qinv s' A' live (<[q := items']> I) /\ q_queues s' !! q = Some Q' /\ mutex_ok Q' items' /\
     if pxMutexHolder Q =? 0 then ph = PDone errQUEUE_FULL /\ Q' = Q
     else (ph = PDone pdPASS \/ ph = PYield pdPASS) /\ pxMutexHolder Q' = 0).
Proof.
  intros Hq Hr HQ HI Hmx Hpc. pose proof Hmx as (Hm & Hl & Hz & Hfree).
  destruct (qi_queue _ _ _ _ Hq _ _ HQ) as (its & HI' & [Hsh _ _ _]). rewrite HI in HI'. injection HI' as <-.
  assert (Hone : items = [] \/ items = [ [] ]).
  { pose proof (so_room _ _ _ Hsh) as Hroom. pose proof (so_items _ _ _ Hsh) as Hall. rewrite Hl in Hroom. rewrite Hz in Hall.
    destruct items as [|x [|y ys] ]; [by left| |simpl in Hroom; lia]. right. apply Forall_cons in Hall as [Hx _]. f_equal.
    apply length_zero_iff_nil. lia. }
  assert (Hcur : pxCurrentTCB (q_kernel s) <> 0).
  { destruct (ready2_cur _ _ _ Hr) as [T HT]. eapply tcb_nonnull; [apply Hq|exact HT]. }
  assert (Hm' : (ucIsMutex Q =? 0) = false) by by apply Z.eqb_neq. split.
  - unfold xSemaphoreTake.
    destruct (recv_try_effect idle s A live I q Q items 0 ticks sp pc Hq Hr HQ HI) as (ph & s' & A' & Hrun & Hr' & Hpost);
      [by intros Hpos; lia|done|]. exists ph, s', A'.
    destruct Hone as [->| ->].
    + destruct Hpost as (-> & -> & Hq' & Hqq & _). exists [], Q. rewrite insert_id by done. rewrite Hqq.
      rewrite (proj2 (Z.eqb_neq (pxMutexHolder Q) 0)) by by apply Hfree. by split_and!.
    + destruct Hpost as (Hq' & _ & (y & -> & _) & (Q' & Hqq & (_ & _ & E3 & E4 & E5) & Hh) & _). rewrite Hm' in Hh. exists [], Q'.
      rewrite Hqq, lookup_insert_eq. destruct (Z.eqb_spec (pxMutexHolder Q) 0) as [_|Hne]; [|by apply Hfree in Hne].
      split_and!; try done; [|apply woke_cases]. unfold mutex_ok. rewrite E3, E4, E5, Hh. by split_and!.
  - unfold xSemaphoreGive, xQueueSendToBack.
    destruct (send_try_effect idle s A live I q Q items 0 0 pdFALSE sp [] PTry Hq Hr HQ HI) as (ph & s' & A' & Hrun & Hr' & Hpost);
      [split; [simpl; lia|intros; lia]|by left|]. exists ph, s', A'. rewrite Hl in Hpost.
    destruct Hone as [->| ->]; simpl in Hpost.
    + destruct Hpost as (Hq' & (y & -> & _) & (Q' & Hqq & (_ & _ & E3 & E4 & E5) & Hh) & _). rewrite Hm' in Hh. exists [ [] ], Q'.
      rewrite Hqq, lookup_insert_eq. rewrite (proj2 (Z.eqb_neq (pxMutexHolder Q) 0)) by by apply Hfree.
      split_and!; try done; [|apply woke_cases]. unfold mutex_ok. rewrite E3, E4, E5, Hh. split_and!; try done; lia.
    + destruct Hpost as (-> & -> & Hq' & Hqq & _). exists [ [] ], Q. rewrite insert_id by done. rewrite Hqq.
      destruct (Z.eqb_spec (pxMutexHolder Q) 0) as [_|Hne]; [|by apply Hfree in Hne]. by split_and!.
Qed.

(** ** Blocking *)

Lemma ticks_keep_suspended n k A live t :
  kinv None k A live -> cont A (StateItem t) = Some (Some Suspended) ->
  exists k' A', ticks n k = Some (tt, k') /\ kinv None k' A' live /\ cont A' (StateItem t) = Some (Some Suspended).
Proof.
  revert k A. induction n as [|n IH]; intros k A Hk Hc; [by exists k, A|].
  destruct (tick_effect k A live Hk) as (k1 & A1 & Hrun & Hk1 & _ & _ & _ & _ & _ & Hkeep).
  destruct (IH k1 A1 Hk1) as (k' & A' & Hrun' & ? & ?); cycle 1.
  { exists k', A'. split; [|done]. cbn [ticks]. by erewrite bind_eq by done. }
  unfold cont in *. rewrite Hkeep; [done|]. intros v (it & Hi & Hd & _). simpl in Hi. rewrite Hi in Hc. simpl in Hc. congruence.
Qed.

(** a receive that found the queue empty, and whose task was preempted
    before its second critical section, blocks even if an item has arrived
    meanwhile: with an unlimited timeout the caller is suspended while the
    queue is not empty, and no number of ticks wakes it. *)
Theorem receive_blocks_despite_item idle s A live I q Q x items a sp :
  qinv s A live I -> ready2 idle (q_kernel s) A -> q_queues s !! q = Some Q -> I !! q = Some (x :: items) ->
  pxCurrentTCB (q_kernel s) <> idle ->
  exists s' A', xQueueReceive q a portMAX_DELAY sp PBlock s = Some (PWait, s') /\ qinv s' A' live I /\
    q_queues s' = q_queues s /\ q_mem s' = q_mem s /\
    parked (q_kernel s') A' (pxCurrentTCB (q_kernel s)) (WaitRecv q) portMAX_DELAY (xTickCount (q_kernel s)) /\
    forall n, exists k2 A2, ticks n (q_kernel s') = Some (tt, k2) /\ kinv None k2 A2 live /\
      cont A2 (StateItem (pxCurrentTCB (q_kernel s))) = Some (Some Suspended).
Proof.
  intros Hq Hr HQ HI Hne.
  destruct (recv_block_effect idle s A live I q Q a portMAX_DELAY sp Hq Hr HQ Hne) as (s' & A' & Hrun & Hq' & _ & Hqq & Hm & _ & Hpk);
    [unfold in_u, portMAX_DELAY; lia|].
  exists s', A'. split_and!; try done. intros n. apply ticks_keep_suspended with (A := A'); [apply Hq'|]. apply Hpk.
Qed.

(** A send or a receive that blocks parks its caller, in priority order,
    on the wait list of that queue and on the delayed list until the timeout
    (or the suspended list), then hands the processor to another ready task, and
    leaves every queue and all memory unchanged. *)
Lemma blocked_caller_is_parked idle s A live I q Q a ticks sp :
  qinv s A live I -> ready2 idle (q_kernel s) A -> q_queues s !! q = Some Q ->
  pxCurrentTCB (q_kernel s) <> idle -> in_u 32 ticks -> yields_ok sp (q_kernel s) ->
  exists s1 s' A', xQueueReceive q a ticks sp PBlock s = Some (PWait, s1) /\ xQueueReceive q a ticks sp PWait s1 = Some (PRetry, s') /\
    qinv s' A' live I /\ ready2 idle (q_kernel s') A' /\ q_queues s' = q_queues s /\ q_mem s' = q_mem s /\
    pxCurrentTCB (q_kernel s') <> pxCurrentTCB (q_kernel s) /\
    parked (q_kernel s') A' (pxCurrentTCB (q_kernel s)) (WaitRecv q) ticks (xTickCount (q_kernel s)).
Proof.
  intros Hq Hr HQ Hne Ht Hy.
  destruct (recv_block_effect idle s A live I q Q a ticks sp Hq Hr HQ Hne Ht) as (s1 & A1 & Hrun & Hq1 & Hst & Hqq & Hm & Hc & Hpk).
  assert (Hy1 : yields_ok sp (q_kernel s1)).
  { destruct (qkeeps_receive q a ticks sp PBlock _ _ _ Hrun) as [F1 F2].
    eapply yields_keep; [exact F1|exact F2|exact Hc|exact Hy]. }
  destruct (yield_effect PRetry idle sp s1 A1 live I Hq1 Hst Hy1) as (k' & A' & Hrun' & Hq' & Hr' & Hit & Htk).
  exists s1, (set_kernel k' s1), A'. pose proof (parked_keep _ k' _ A' _ _ _ _ Hpk Hit Htk) as Hpk'. split_and!; try done.
  destruct Hr' as [ [T HT] _ _]. intros E. cbn in E. rewrite E in HT. by eapply parked_off.
Qed.
End queue.

(** ** Interleavings of queue and scheduler steps *)

Implicit Types (s : qsys LS HS) (A : amem item lst) (live : gmap Z Z) (I : gmap Z (list (list Z))).

(** A step of the system: the tick, a yield, the critical section of a delay,
    or the next phase of a call that the current task has in progress.  A step is
    the code between two points where interrupts are unmasked, so that any order
    of steps is an interleaving of the tasks' calls and the timer interrupt. *)
Inductive sys_op :=
  | STick
  | SYield (sp : Z)
  | SDelay (n : Z)
  | SSend (q a ticks front sp : Z) (pc : phase)
  | SReceive (q a ticks sp : Z) (pc : phase).

Definition run_sys (op : sys_op) : M (qsys LS HS) unit :=
  match op with
  | STick => onK xTaskIncrementTick
  | SYield sp => onK (taskYIELD sp)
  | SDelay n => onK (vTaskDelay_park n)
  | SSend q a ticks front sp pc => prvSend q a ticks front sp pc;; mret tt
  | SReceive q a ticks sp pc => xQueueReceive q a ticks sp pc;; mret tt
  end.

Definition yields (pc : phase) : bool := match pc with PYield _ | PWait => true | _ => false end.

(** What callers guarantee: handles name queues, buffers are theirs, the idle
    task does not block, no task has overrun its stack where it yields, and a
    task that has put itself on a waiting list yields before it goes on. *)
Definition sys_ok (idle : Z) s (op : sys_op) : Prop :=
  match op with
  | STick => True
  | SYield sp => yields_ok sp (q_kernel s)
  | SDelay n => 0 < n < 2 ^ 32 /\ pxCurrentTCB (q_kernel s) <> idle /\ current_ready (q_kernel s) = true
  | SSend q a ticks front sp pc =>
      if yields pc then yields_ok sp (q_kernel s)
      else current_ready (q_kernel s) = true /\ exists Q x, q_queues s !! q = Some Q /\ item_at (q_mem s) Q a x /\ in_u 32 ticks /\
        (pc = PBlock -> pxCurrentTCB (q_kernel s) <> idle)
  | SReceive q a ticks sp pc =>
      if yields pc then yields_ok sp (q_kernel s)
      else current_ready (q_kernel s) = true /\ exists Q, q_queues s !! q = Some Q /\ buffer_ok s Q a /\ in_u 32 ticks /\
        (pc = PBlock -> pxCurrentTCB (q_kernel s) <> idle)
  end.

Definition sys_inv (idle : Z) s : Prop :=
  exists (W : Queues) A live I, qinv s A live I /\ steady idle (q_kernel s) A.

Inductive sys_step (idle : Z) : relation (qsys LS HS) :=
  | Sys_step s op s' : sys_ok idle s op -> run_sys op s = Some (tt, s') -> sys_step idle s s'.

Lemma tick_step_safe idle s : sys_inv idle s -> exists s', run_sys STick s = Some (tt, s') /\ sys_inv idle s'.
Proof.
  intros (W & A & live & I & Hq & [HT [U HU] Hn]). pose proof (qi_kinv _ _ _ _ Hq) as Hk.
  destruct (tick_effect (q_kernel s) A live Hk) as (k' & A' & Hrun & Hk' & _ & Htc & Hcu & Hcn & _ & Hkeep).
  exists (set_kernel k' s). split; [by apply onK_run|]. exists W, A', live, I. split; [eapply qinv_kernel; [exact Hq|done|by rewrite Htc]|].
  constructor; cbn; [by rewrite Htc, Hcu| |by rewrite Hcn]. exists U. eapply ready_keep; [exact HU|rewrite Htc; apply HU|done|].
  apply Hkeep. intros v Hd. by destruct (ready_not_delayed _ _ _ _ _ v Hk HU).
Qed.

Lemma yield_step_safe {B} (b : B) idle sp s : sys_inv idle s -> yields_ok sp (q_kernel s) ->
  exists s', (onK (taskYIELD sp);; mret b) s = Some (b, s') /\ sys_inv idle s'.
Proof.
  intros (W & A & live & I & Hq & Hs) Hy. destruct (yield_effect b idle sp s A live I Hq Hs Hy) as (k' & A' & Hrun & Hq' & Hr' & _).
  exists (set_kernel k' s). split; [done|]. exists W, A', live, I. split; [done|by apply ready2_steady].
Qed.

Lemma delay_step_safe idle s n : sys_inv idle s -> sys_ok idle s (SDelay n) -> exists s', run_sys (SDelay n) s = Some (tt, s') /\ sys_inv idle s'.
Proof.
  intros (W & A & live & I & Hq & Hs) (Hn & Hne & Hcr). pose proof (qi_kinv _ _ _ _ Hq) as Hk.
  destruct (current_ready_is _ _ _ Hk Hcr) as [T HT]. destruct Hs as [Hc [U HU] Hnest].
  destruct (wp_vTaskDelay_park _ A live _ T n Hk (running_ready _ _ _ HT) Hn Hnest) as ([] & k' & Hrun & A' & [_ Hot (m & b & ->) _] & Hk').
  eexists. split; [by apply onK_run|]. exists W, A', live, I. split; [by eapply qinv_kernel|]. constructor; [done| |done].
  exists U. eapply ready_keep; [exact HU|apply HU|done|]. apply Hot. intros [= E]. by apply Hne.
Qed.

Lemma send_step_safe idle s q a ticks front sp pc : sys_inv idle s -> sys_ok idle s (SSend q a ticks front sp pc) ->
  exists ph s', prvSend q a ticks front sp pc s = Some (ph, s') /\ sys_inv idle s'.
Proof.
  intros Hinv. destruct (yields pc) eqn:Ey; cbn [sys_ok]; rewrite Ey.
  { intros Hy. destruct pc; try done; [exists (PDone r)|exists PRetry]; by apply yield_step_safe. }
  destruct Hinv as (W & A & live & I & Hq & Hs). intros (Hcr & Q & x & HQ & Hit & Ht & Hne).
  pose proof (steady_ready2 _ _ _ _ (qi_kinv _ _ _ _ Hq) Hs Hcr) as Hr. destruct (qi_queue _ _ _ _ Hq _ _ HQ) as (items & HI & _).
  assert (Htry : pc = PTry \/ pc = PRetry -> exists ph s', prvSend q a ticks front sp pc s = Some (ph, s') /\ sys_inv idle s').
  { intros Hpc. destruct (send_try_effect idle s A live I q Q items a ticks front sp x pc Hq Hr HQ HI Hit Hpc) as (ph & s' & A' & Hrun & Hr' & Hpost).
    exists ph, s'. split; [done|]. apply ready2_steady in Hr'. destruct (_ <? _); [destruct Hpost as (? & _)|destruct Hpost as (_ & -> & ? & _)]; by eexists W, _, live, _. }
  destruct pc; try done; [by apply Htry; left| |by apply Htry; right|exists (PDone r), s; split; [done|by exists W, A, live, I] ].
  destruct (send_block_effect idle s A live I q Q a ticks front sp Hq Hr HQ (Hne eq_refl) Ht) as (s' & A' & ? & ? & ? & _).
  exists PWait, s'. split; [done|]. by exists W, A', live, I.
Qed.

Lemma receive_step_safe idle s q a ticks sp pc : sys_inv idle s -> sys_ok idle s (SReceive q a ticks sp pc) ->
  exists ph s', xQueueReceive q a ticks sp pc s = Some (ph, s') /\ sys_inv idle s'.
Proof.
  intros Hinv. destruct (yields pc) eqn:Ey; cbn [sys_ok]; rewrite Ey.
  { intros Hy. destruct pc; try done; [exists (PDone r)|exists PRetry]; by apply yield_step_safe. }
  destruct Hinv as (W & A & live & I & Hq & Hs). intros (Hcr & Q & HQ & Hb & Ht & Hne).
  pose proof (steady_ready2 _ _ _ _ (qi_kinv _ _ _ _ Hq) Hs Hcr) as Hr. destruct (qi_queue _ _ _ _ Hq _ _ HQ) as (items & HI & _).
  assert (Htry : pc = PTry \/ pc = PRetry -> exists ph s', xQueueReceive q a ticks sp pc s = Some (ph, s') /\ sys_inv idle s').
  { intros Hpc. destruct (recv_try_effect idle s A live I q Q items a ticks sp pc Hq Hr HQ HI Hb Hpc) as (ph & s' & A' & Hrun & Hr' & Hpost).
    exists ph, s'. split; [done|]. apply ready2_steady in Hr'. destruct items; [destruct Hpost as (_ & -> & ? & _)|destruct Hpost as (? & _)]; by eexists W, _, live, _. }
  destruct pc; try done; [by apply Htry; left| |by apply Htry; right|exists (PDone r), s; split; [done|by exists W, A, live, I] ].
  destruct (recv_block_effect idle s A live I q Q a ticks sp Hq Hr HQ (Hne eq_refl) Ht) as (s' & A' & ? & ? & ? & _).
  exists PWait, s'. split; [done|]. by exists W, A', live, I.
Qed.

Lemma sys_op_safe idle s op : sys_inv idle s -> sys_ok idle s op -> exists s', run_sys op s = Some (tt, s') /\ sys_inv idle s'.
Proof.
  intros Hinv Hok. destruct op.
  - by apply tick_step_safe.
  - cbn [run_sys]. destruct (yield_step_safe tt idle sp s Hinv Hok) as (s' & Hrun & ?). exists s'. split; [|done].
    revert Hrun. unfold mbind, M_bind. by destruct (onK (taskYIELD sp) s) as [ [ [] ?]|].
  - by apply delay_step_safe.
  - destruct (send_step_safe _ _ _ _ _ _ _ _ Hinv Hok) as (ph & s' & Hrun & ?). exists s'. split; [cbn [run_sys]; by erewrite bind_eq by done|done].
  - destruct (receive_step_safe _ _ _ _ _ _ _ Hinv Hok) as (ph & s' & Hrun & ?). exists s'. split; [cbn [run_sys]; by erewrite bind_eq by done|done].
Qed.

(** C1: whatever the interleaving of the critical sections and yields of queue
    calls and delays by different tasks with the timer's ticks and switches (the
    window between leaving a critical section and yielding included), the lists,
    the heap, the TCBs and every queue stay consistent, and no step a
    well-behaved caller can take is stuck.  Tasks and queues exist beforehand:
    creation is no step here, the allocator being unprotected. *)
Theorem system_always_safe idle s s' :
  sys_inv idle s -> rtc (sys_step idle) s s' ->
  sys_inv idle s' /\ forall op, sys_ok idle s' op -> exists s'', run_sys op s' = Some (tt, s'') /\ sys_inv idle s''.
Proof.
  intros Hinv Hsteps. assert (Hs' : sys_inv idle s').
  { induction Hsteps as [|s1 s2 s3 Hstep _ IH]; [done|]. apply IH. destruct Hstep as [s1 op s2 Hok Hrun].
    destruct (sys_op_safe idle s1 op Hinv Hok) as (s2' & Hrun' & ?). by simplify_eq. }
  split; [done|]. intros op Hok. by apply sys_op_safe.
Qed.

(** A mutex is created free and a counting semaphore with its initial
    number of tokens (none above the maximum), each in a fresh block with its
    own wait lists; when memory runs out the result is NULL and nothing has
    changed for the other queues. *)
Theorem semaphores_created_ready (W : gset Z) idle s A live I sp max init :
  qinv (Qs := W) s A live I -> ready2 idle (q_kernel s) A -> 0 < max < 2 ^ 63 -> 0 <= init <= max ->
  (exists q s', xSemaphoreCreateMutex sp s = Some (q, s') /\ token_post W idle s A live I [ [] ] 1 1 q s' /\
     (q <> 0 -> exists Q, q_queues s' !! q = Some Q /\ mutex_ok Q [ [] ])) /\
  (exists q s', xSemaphoreCreateCounting max init s = Some (q, s') /\
     token_post W idle s A live I (replicate (Z.to_nat init) []) max 0 q s').
Proof.
  intros Hq Hr Hm Hi. split.
  - destruct (wp_xQueueCreateMutex W idle s A live I sp Hq Hr) as (q & s' & Hrun & Hpost). exists q, s'. split_and!; try done.
    intros Hq0. destruct Hpost as [ [? _]|(_ & _ & _ & A' & Q & HQ & HL & Hz & Hmx & Hh & _)]; [done|]. exists Q. split; [done|].
    unfold mutex_ok. by rewrite Hmx, Hh, HL.
  - destruct (wp_xQueueCreateCounting W idle s A live I max init Hq Hr Hm Hi) as (q & s' & Hrun & Hpost). by exists q, s'.
Qed.
End properties.
