(* ===== verification/QueueWitness.v ===== *)
(** * The queue's properties at concrete states

    On the system of TasksDemo.v, with sixteen bytes of caller memory at
    address 100: a queue of three two-byte items, and a mutex.  The two event
    list properties of tasks.c are applied here too, on the queue's lists. *)

From stdpp Require Import sorting.
From S2P Require Import Prelude Config Lists ListSpec ListRefine Heap4 Heap4Spec Alloc Heap4Props Tasks TasksInv TasksSpec TasksCreate TasksSafe TasksFrame TasksDemo TasksProps TasksWitness Libc Queue QueueSpec QueueSafe QueueProps.

Abbreviation DQ := (qsys (lmem item lst) heap).

Definition buffer : list Z := [1; 2; 3; 4; 5; 6; 7; 8; 9; 10; 11; 12; 13; 14; 15; 16].
Definition qdemo0 : DQ := QSys demo ∅ (write_bytes 100 buffer ∅).

Lemma demo_ready2 : exists A live, kinv (Qs := no_queues) None demo A live /\ ready2 demo_idle demo A.
Proof.
  destruct demo_ok as (A & live & Hk). exists A, live. split; [done|]. constructor.
  - exists (tcb_of demo demo_A). change demo_A with (pxCurrentTCB demo). ready_demo Hk.
  - exists (tcb_of demo demo_idle). ready_demo Hk.
  - apply demo_nesting.
Qed.

Lemma qdemo0_ok : exists A live, qinv (Qs := no_queues) qdemo0 A live ∅ /\ ready2 demo_idle (q_kernel qdemo0) A.
Proof.
  destruct demo_ready2 as (A & live & Hk & Hr). exists A, live. split; [|exact Hr].
  constructor; [exact Hk|done|]. cbn [q_queues qdemo0]. by intros q Q ?%lookup_empty_Some.
Qed.

Definition run_q {B} (c : M DQ B) (s : DQ) : DQ := match c s with Some (_, s') => s' | None => s end.
Definition result {B} (d : B) (c : M DQ B) (s : DQ) : B := match c s with Some (b, _) => b | None => d end.

Lemma result_run {B} (d : B) c s b s' : c s = Some (b, s') -> result d c s = b.
Proof. intros H. unfold result. by rewrite H. Qed.
Lemma run_q_run {B} (c : M DQ B) s b s' : c s = Some (b, s') -> s' = run_q c s.
Proof. intros H. unfold run_q. by rewrite H. Qed.

(** A queue of three items of two bytes. *)
Definition demo_q : Z := result 0 (xQueueCreate 3 2) qdemo0.
Definition qdemo : DQ := run_q (xQueueCreate 3 2) qdemo0.
Definition demo_set : Queues := ({[demo_q]} : gset Z) ∪ (no_queues : gset Z).
#[local] Existing Instance demo_set.

Lemma qdemo_ok : exists A live I, qinv qdemo A live I /\ ready2 demo_idle (q_kernel qdemo) A /\ I !! demo_q = Some [].
Proof.
  destruct qdemo0_ok as (A & live & Hq & Hr).
  destruct (wp_xQueueCreate no_queues qdemo0 A live ∅ 3 2 Hq ltac:(lia) ltac:(lia) ltac:(unfold sizeof_Queue_t; lia) ltac:(lia)) as (q & s' & Hrun & Hpost).
  assert (Hdq : demo_q = q) by (unfold demo_q, result; by rewrite Hrun).
  assert (Hdn : demo_q <> 0) by (vm_compute; congruence).
  destruct Hpost as [ [Hz _]|(_ & A' & Hc)]; [destruct (Hdn (eq_trans Hdq Hz))|]. exists A', (<[q := sizeof_Queue_t + 3 * 2]> live), (<[q := []]> ∅).
  unfold qdemo, run_q. rewrite Hrun, Hdq, lookup_insert_eq. split_and!; [|by eapply created_ready|done].
  unfold demo_set. rewrite Hdq. exact (qc_inv _ _ _ _ _ _ _ _ _ _ Hc).
Qed.

Definition queue_of (s : DQ) (q : Z) : Queue_t := default (Queue 0 0 0 0 0 0 0 0 0) (q_queues s !! q).
Lemma qdemo_queue : q_queues qdemo !! demo_q = Some (queue_of qdemo demo_q).
Proof. vm_compute. reflexivity. Qed.

(** The caller's bytes at 100 and 102, and room at 110. *)
Ltac two_bytes := intros [|[|j] ] b Hj; vm_compute in Hj; first [discriminate Hj|injection Hj as <-; vm_compute; reflexivity].
Lemma item_100 : item_at (q_mem qdemo) (queue_of qdemo demo_q) 100 [1; 2].
Proof.
  split; [vm_compute; reflexivity|]. intros _. split_and!; [done|two_bytes|].
  left. vm_compute. congruence.
Qed.
Lemma item_102 : item_at (q_mem qdemo) (queue_of qdemo demo_q) 102 [3; 4].
Proof.
  split; [vm_compute; reflexivity|]. intros _. split_and!; [done|two_bytes|].
  left. vm_compute. congruence.
Qed.
Lemma qdemo_isz : uxItemSize (queue_of qdemo demo_q) = 2.
Proof. vm_compute. reflexivity. Qed.
Lemma qdemo_only q : is_Some (q_queues qdemo !! q) -> q = demo_q.
Proof.
  intros HQ%elem_of_dom. destruct qdemo_ok as (A & live & I & Hq & _). rewrite (qi_dom _ _ _ _ Hq) in HQ.
  apply elem_of_union in HQ as [?%elem_of_singleton|[]%elem_of_empty]. assumption.
Qed.
Lemma buffer_110 : buffer_ok qdemo (queue_of qdemo demo_q) 110.
Proof.
  unfold buffer_ok. rewrite qdemo_isz. intros _. split.
  - intros i Hi. assert (i = 0 \/ i = 1) as [->| ->] by lia; [exists 11|exists 12]; vm_compute; reflexivity.
  - intros q2 Q2 HQ2. left. pose proof (qdemo_only q2 (ex_intro _ Q2 HQ2)) as ->.
    assert (Q2 = queue_of qdemo demo_q) as -> by (unfold queue_of; rewrite HQ2; reflexivity). vm_compute. congruence.
Qed.

Lemma qdemo_room : (Z.of_nat (length (@nil (list Z))) <? uxLength (queue_of qdemo demo_q)) = true.
Proof. vm_compute. reflexivity. Qed.
Definition qdemo_sent : DQ := run_q (prvSend demo_q 100 0 pdFALSE demo_sp PTry) qdemo.
Lemma qdemo_sent_current : pxCurrentTCB (q_kernel qdemo_sent) <> demo_idle.
Proof. vm_compute. congruence. Qed.
Lemma qdemo_sent_run ph s1 : prvSend demo_q 100 0 pdFALSE demo_sp PTry qdemo = Some (ph, s1) -> s1 = qdemo_sent.
Proof. intros Hrun. unfold qdemo_sent, run_q. by rewrite Hrun. Qed.

Lemma qdemo_sent_result : result PTry (prvSend demo_q 100 0 pdFALSE demo_sp PTry) qdemo = PDone pdPASS.
Proof. vm_compute. reflexivity. Qed.
Lemma qdemo_sent_phase ph s1 : prvSend demo_q 100 0 pdFALSE demo_sp PTry qdemo = Some (ph, s1) -> ph = PDone pdPASS.
Proof. intros Hrun. rewrite <- (result_run PTry _ _ _ _ Hrun). exact qdemo_sent_result. Qed.

Lemma queue_send_adds_item_witness :
  exists ph s', prvSend demo_q 100 0 pdFALSE demo_sp PTry qdemo = Some (ph, s') /\ (ph = PDone pdPASS \/ ph = PYield pdPASS) /\
    exists A' live I, qinv s' A' live I /\ I !! demo_q = Some [ [1; 2] ].
Proof.
  destruct qdemo_ok as (A & live & I & Hq & Hr & HI).
  destruct (queue_send_adds_item demo_idle qdemo A live I demo_q _ [] 100 0 pdFALSE demo_sp [1; 2] Hq Hr qdemo_queue HI item_100)
    as (ph & s' & A' & Hrun & _ & Hpost).
  exists ph, s'. split; [exact Hrun|]. rewrite qdemo_room in Hpost.
  destruct Hpost as (Hph & Hq' & _). split; [exact Hph|]. eexists A', live, _. split; [exact Hq'|]. by rewrite lookup_insert_eq.
Defined.

Lemma queue_receive_takes_oldest_witness :
  exists s', xQueueReceive demo_q 110 0 demo_sp PTry qdemo = Some (PDone errQUEUE_EMPTY, s').
Proof.
  destruct qdemo_ok as (A & live & I & Hq & Hr & HI).
  destruct (queue_receive_takes_oldest demo_idle qdemo A live I demo_q _ [] 110 0 demo_sp Hq Hr qdemo_queue HI buffer_110)
    as (ph & s' & A' & Hrun & _ & -> & _). exists s'. exact Hrun.
Defined.

(** Every task yields sixteen words above the bottom of its stack. *)
Definition demo_sps (t : Z) : Z := pxStack (tcb_of demo t) + 128.
Lemma demo_stacks : map_Forall (fun _ T => stack_ok (k_stack (q_kernel qdemo)) T) (map_imap (fun t T => Some (with_sp (demo_sps t) T)) (k_tcbs (q_kernel qdemo))).
Proof. unfold stack_ok. refine (bool_decide_unpack _ _). vm_compute. exact Logic.I. Qed.
Lemma qdemo_stacks : stacks_hold demo_sps (q_kernel qdemo).
Proof. intros t T HT. apply (map_Forall_lookup_1 _ _ t _ demo_stacks). by rewrite map_lookup_imap, HT. Qed.

Lemma queue_is_fifo_witness :
  exists s1 s2, send_all demo_q demo_sps [100; 102] qdemo = Some (tt, s1) /\
    receive_all demo_q 110 demo_sps 2 2 s1 = Some ([ [1; 2]; [3; 4] ], s2).
Proof.
  destruct qdemo_ok as (A & live & I & Hq & Hr & HI).
  assert (Hall : Forall2 (item_at (q_mem qdemo) (queue_of qdemo demo_q)) [100; 102] [ [1; 2]; [3; 4] ]).
  { constructor; [exact item_100|]. constructor; [exact item_102|constructor]. }
  destruct (queue_is_fifo demo_idle qdemo A live I demo_q _ [] [100; 102] [ [1; 2]; [3; 4] ] 110 demo_sps demo_sps Hq Hr qdemo_stacks qdemo_stacks qdemo_queue HI Hall)
    as (s1 & s2 & H1 & H2); [vm_compute; congruence|exact buffer_110|].
  exists s1, s2. split; [exact H1|]. rewrite qdemo_isz in H2. exact H2.
Defined.

Lemma qdemo_yields : yields_ok demo_sp (q_kernel qdemo).
Proof. apply (yields_of _ _ (tcb_of demo demo_A)); [vm_compute; reflexivity|stack_demo]. Qed.

Lemma blocked_caller_is_parked_witness :
  exists s1 s', xQueueReceive demo_q 110 5 demo_sp PBlock qdemo = Some (PWait, s1) /\ xQueueReceive demo_q 110 5 demo_sp PWait s1 = Some (PRetry, s') /\
    pxCurrentTCB (q_kernel s') <> demo_A.
Proof.
  destruct qdemo_ok as (A & live & I & Hq & Hr & HI).
  destruct (blocked_caller_is_parked demo_idle qdemo A live I demo_q _ 110 5 demo_sp Hq Hr qdemo_queue)
    as (s1 & s' & A' & Hrun & Hrun' & _ & _ & _ & _ & Hoff & _); [vm_compute; congruence|unfold in_u; lia|exact qdemo_yields|].
  exists s1, s'. split; [exact Hrun|]. split; [exact Hrun'|]. assert (Hc : pxCurrentTCB (q_kernel qdemo) = demo_A) by (vm_compute; reflexivity).
  rewrite <- Hc. exact Hoff.
Defined.

(** A sends an item after B has found the queue empty; B then blocks for ever. *)
Lemma receive_blocks_despite_item_witness :
  exists s1 s', prvSend demo_q 100 0 pdFALSE demo_sp PTry qdemo = Some (PDone pdPASS, s1) /\
    xQueueReceive demo_q 110 portMAX_DELAY demo_sp PBlock s1 = Some (PWait, s') /\
    exists k2 A2, ticks 1000 (q_kernel s') = Some (tt, k2) /\ cont A2 (StateItem (pxCurrentTCB (q_kernel s1))) = Some (Some Suspended).
Proof.
  destruct qdemo_ok as (A & live & I & Hq & Hr & HI).
  destruct (send_try_effect demo_idle qdemo A live I demo_q _ [] 100 0 pdFALSE demo_sp [1; 2] PTry Hq Hr qdemo_queue HI item_100 ltac:(by left))
    as (ph & s1 & A1 & Hrun & Hr1 & Hpost).
  rewrite qdemo_room in Hpost. destruct Hpost as (Hq1 & _ & (Q1 & HQ1 & _) & _).
  assert (Hph : ph = PDone pdPASS) by exact (qdemo_sent_phase _ _ Hrun). subst ph.
  assert (Hcur : pxCurrentTCB (q_kernel s1) <> demo_idle) by (rewrite (qdemo_sent_run _ _ Hrun); exact qdemo_sent_current).
  destruct (receive_blocks_despite_item demo_idle s1 A1 live _ demo_q Q1 [1; 2] [] 110 demo_sp Hq1 Hr1
    ltac:(by rewrite HQ1, lookup_insert_eq) ltac:(by rewrite lookup_insert_eq) Hcur) as (s' & A' & Hb & _ & _ & _ & _ & Ht).
  exists s1, s'. split; [exact Hrun|]. split; [exact Hb|]. destruct (Ht 1000%nat) as (k2 & A2 & H1 & _ & H2). exists k2, A2. by split.
Defined.

Lemma qdemo_inv : sys_inv demo_idle qdemo.
Proof. destruct qdemo_ok as (A & live & I & Hq & Hr & _). exists demo_set, A, live, I. split; [exact Hq|by apply ready2_steady]. Qed.

(** Task A puts itself on the queue's wait list, a tick falls into the window
    before its yield, then it yields. *)
Definition block_A : sys_op := SReceive demo_q 110 5 demo_sp PBlock.
Definition wait_A : sys_op := SReceive demo_q 110 5 demo_sp PWait.
Lemma block_A_ok : sys_ok demo_idle qdemo block_A.
Proof.
  split; [vm_compute; reflexivity|]. exists (queue_of qdemo demo_q). split; [exact qdemo_queue|]. split; [exact buffer_110|]. split; [unfold in_u; lia|].
  intros _. vm_compute. congruence.
Qed.
Lemma wait_A_ok s1 s2 : run_sys block_A qdemo = Some (tt, s1) -> run_sys STick s1 = Some (tt, s2) -> sys_ok demo_idle s2 wait_A.
Proof.
  intros H1 H2. pose proof (run_q_run _ _ _ _ H1) as E1.
  pose proof (run_q_run _ _ _ _ H2) as E2.
  rewrite E2, E1. apply (yields_of _ _ (tcb_of demo demo_A)); [vm_compute; reflexivity|stack_demo].
Qed.

Lemma system_always_safe_witness :
  exists s1 s2 s3, run_sys block_A qdemo = Some (tt, s1) /\ run_sys STick s1 = Some (tt, s2) /\
    run_sys wait_A s2 = Some (tt, s3) /\ sys_inv demo_idle s3.
Proof.
  destruct (sys_op_safe demo_idle qdemo block_A qdemo_inv block_A_ok) as (s1 & H1 & Hi1).
  destruct (sys_op_safe demo_idle s1 STick Hi1 Logic.I) as (s2 & H2 & _). exists s1, s2.
  destruct (system_always_safe demo_idle qdemo s2 qdemo_inv) as [_ Hop].
  - eapply rtc_l; [exact (Sys_step _ qdemo block_A s1 block_A_ok H1)|].
    eapply rtc_l; [exact (Sys_step _ s1 STick s2 Logic.I H2)|apply rtc_refl].
  - destruct (Hop wait_A (wait_A_ok s1 s2 H1 H2)) as (s3 & H3 & Hi3). exists s3. split_and!; [exact H1|exact H2|exact H3|exact Hi3].
Defined.

(** A mutex. *)
Lemma semaphores_created_ready_witness :
  exists q s', xSemaphoreCreateMutex demo_sp qdemo0 = Some (q, s') /\ (q <> 0 -> exists Q, q_queues s' !! q = Some Q /\ mutex_ok Q [ [] ]).
Proof.
  destruct qdemo0_ok as (A & live & Hq & Hr).
  destruct (semaphores_created_ready no_queues demo_idle qdemo0 A live ∅ demo_sp 5 2 Hq Hr ltac:(lia) ltac:(lia)) as [(q & s' & Hrun & _ & HQ) _].
  exists q, s'. split; [exact Hrun|exact HQ].
Defined.

Definition demo_m : Z := result 0 (xSemaphoreCreateMutex demo_sp) qdemo0.
Definition mdemo : DQ := run_q (xSemaphoreCreateMutex demo_sp) qdemo0.

Lemma mdemo_ok : exists A live I Q, qinv (Qs := ({[demo_m]} : gset Z) ∪ (no_queues : gset Z)) mdemo A live I /\ ready2 demo_idle (q_kernel mdemo) A /\
  q_queues mdemo !! demo_m = Some Q /\ I !! demo_m = Some [ [] ] /\ mutex_ok Q [ [] ].
Proof.
  destruct qdemo0_ok as (A & live & Hq & Hr).
  destruct (wp_xQueueCreateMutex no_queues demo_idle qdemo0 A live ∅ demo_sp Hq Hr) as (q & s' & Hrun & Hpost).
  assert (Hdq : demo_m = q) by (unfold demo_m, result, xSemaphoreCreateMutex; by rewrite Hrun).
  assert (Hdn : demo_m <> 0) by (vm_compute; congruence).
  destruct Hpost as [ [Hz _]|(_ & _ & _ & A' & Q & HQ & HL & Hz & Hmx & Hh & Hr' & Hq')]; [destruct (Hdn (eq_trans Hdq Hz))|].
  exists A', (<[q := sizeof_Queue_t]> live), (<[q := [ [] ] ]> ∅), Q.
  unfold mdemo, run_q, xSemaphoreCreateMutex. rewrite Hrun, Hdq, lookup_insert_eq.
  split; [exact Hq'|]. split; [exact Hr'|]. split; [exact HQ|]. split; [reflexivity|].
  unfold mutex_ok. rewrite Hmx, HL, Hz, Hh. clear. by split_and!.
Qed.

Lemma mutex_is_exclusive_witness :
  exists ph s' Q Q', q_queues mdemo !! demo_m = Some Q /\ xSemaphoreTake demo_m 7 demo_sp PTry mdemo = Some (ph, s') /\
    q_queues s' !! demo_m = Some Q' /\
    if pxMutexHolder Q =? 0 then (ph = PDone pdPASS \/ ph = PYield pdPASS) /\ pxMutexHolder Q' = pxCurrentTCB (q_kernel mdemo) else ph = PBlock /\ Q' = Q.
Proof.
  destruct mdemo_ok as (A & live & I & Q & Hq & Hr & HQ & HI & Hm).
  destruct (mutex_is_exclusive demo_idle mdemo A live I demo_m Q _ 7 demo_sp PTry Hq Hr HQ HI Hm ltac:(by left)) as [(ph & s' & A' & its & Q' & Hrun & _ & _ & HQ' & _ & Hres) _].
  exists ph, s', Q, Q'. split_and!; [exact HQ|exact Hrun|exact HQ'|exact Hres].
Defined.

(** The wait lists of the queue. *)
Lemma event_wakes_highest_waiter_witness :
  exists r s', xTaskRemoveFromEventList (WaitRecv demo_q) (q_kernel qdemo) = Some (r, s').
Proof.
  destruct qdemo_ok as (A & live & I & Hq & Hr & HI).
  destruct (event_wakes_highest_waiter (q_kernel qdemo) A live (WaitRecv demo_q) (tcb_of (q_kernel qdemo) demo_A) (qi_kinv _ _ _ _ Hq) Logic.I)
    as (r & s' & Hrun & _); [simpl; unfold queues, demo_set; apply elem_of_union; left; by apply elem_of_singleton|vm_compute; reflexivity|].
  exists r, s'. exact Hrun.
Defined.

Lemma event_wait_in_priority_order_witness :
  exists s', vTaskPlaceOnEventList (WaitRecv demo_q) 7 (q_kernel qdemo) = Some (tt, s') /\
    exists A', cont A' (StateItem demo_A) = Some (Some Delayed).
Proof.
  destruct qdemo_ok as (A & live & I & Hq & Hr & HI). destruct (r2_cur _ _ _ Hr) as [T HT].
  destruct (event_wait_in_priority_order (q_kernel qdemo) A live _ T (WaitRecv demo_q) 7 (qi_kinv _ _ _ _ Hq) (running_ready _ _ _ HT) Logic.I)
    as (s' & A' & ys & zs & wc & Hrun & _ & _ & _ & _ & _ & Hst & _);
    [simpl; unfold queues, demo_set; apply elem_of_union; left; by apply elem_of_singleton|unfold in_u; lia|].
  exists s'. split; [exact Hrun|]. exists A'. assert (Hc : pxCurrentTCB (q_kernel qdemo) = demo_A) by (vm_compute; reflexivity).
  rewrite <- Hc. exact Hst.
Defined.
