(* ===== verification/CInt.v ===== *)
(** * Checked C arithmetic

    Signed C arithmetic is undefined when the result does not fit its type:
    [ck w] keeps a value of the [w]-bit signed type and fails otherwise, and
    [cquot]/[crem] are C's truncating division.  Array accesses fail outside
    the array.  The lemmas below discharge the checks from linear bounds. *)

From S2P Require Import Prelude.

#[global] Instance in_s_dec w x : Decision (in_s w x).
Proof. unfold in_s. apply _. Defined.
#[global] Instance in_u_dec w x : Decision (in_u w x).
Proof. unfold in_u. apply _. Defined.

Definition ck (w x : Z) : option Z := if bool_decide (in_s w x) then Some x else None.
Abbreviation s32 := (ck 32).
Abbreviation s64 := (ck 64).

Definition cquot (w a b : Z) : option Z := if b =? 0 then None else ck w (Z.quot a b).
Definition crem (w a b : Z) : option Z :=
  if b =? 0 then None else _ ← ck w (Z.quot a b); Some (Z.rem a b).

(** Reading and writing element [i] of an array. *)
Definition rdb {A} (b : list A) (i : Z) : option A := if i <? 0 then None else b !! Z.to_nat i.
Definition wrb {A} (b : list A) (i : Z) (v : A) : option (list A) :=
  if bool_decide (0 <= i < Z.of_nat (length b)) then Some (<[Z.to_nat i := v]> b) else None.

(** A buffer of [n] bytes. *)
Definition is_byte (x : Z) : Prop := in_u 8 x.
Definition bytes (b : list Z) : Prop := Forall is_byte b.

(** ** Discharging the checks *)

Lemma ck_ok w x : in_s w x -> ck w x = Some x.
Proof. intros. unfold ck. by rewrite bool_decide_true. Qed.
Lemma ck_inv w x y : ck w x = Some y -> y = x /\ in_s w x.
Proof. unfold ck. case_bool_decide; intros; by simplify_eq. Qed.
Lemma s32_ok x : - 2147483648 <= x < 2147483648 -> ck 32 x = Some x.
Proof. intros. by apply ck_ok. Qed.
Lemma s64_ok x : - 9223372036854775808 <= x < 9223372036854775808 -> ck 64 x = Some x.
Proof. intros. by apply ck_ok. Qed.
Lemma s64_bad x : x < - 9223372036854775808 \/ 9223372036854775808 <= x -> ck 64 x = None.
Proof. intros H. unfold ck, in_s. rewrite bool_decide_false; [done|]. change (2 ^ (64 - 1)) with 9223372036854775808. lia. Qed.
Lemma cquot_ok w a b : b <> 0 -> in_s w (Z.quot a b) -> cquot w a b = Some (Z.quot a b).
Proof. intros Hb Hq. unfold cquot. rewrite (proj2 (Z.eqb_neq b 0) Hb). by apply ck_ok. Qed.
Lemma i32_ok x : - 2147483648 <= x < 2147483648 -> i32 x = x.
Proof. intros. by apply wraps_small. Qed.
Lemma i64_ok x : - 9223372036854775808 <= x < 9223372036854775808 -> i64 x = x.
Proof. intros. by apply wraps_small. Qed.
Lemma u16_ok x : 0 <= x < 65536 -> u16 x = x.
Proof. intros. by apply wrapu_small. Qed.
Lemma u32_ok x : 0 <= x < 4294967296 -> u32 x = x.
Proof. intros. by apply wrapu_small. Qed.
Lemma u64_ok x : 0 <= x < 18446744073709551616 -> u64 x = x.
Proof. intros. by apply wrapu_small. Qed.

(** Truncating division by a positive constant. *)
Lemma quot_bounds a b m : 0 < b -> Z.abs a <= m * b -> Z.abs (Z.quot a b) <= m.
Proof.
  intros Hb Ha. rewrite <- (Z.abs_eq b) in Ha by lia.
  pose proof (Z.quot_rem' a b). pose proof (Z.rem_bound_abs a b ltac:(lia)).
  destruct (Z.le_ge_cases 0 a).
  - pose proof (Z.quot_pos a b ltac:(lia) Hb). pose proof (Z.rem_nonneg a b ltac:(lia) ltac:(lia)). nia.
  - pose proof (Z.quot_opp_l a b ltac:(lia)) as Ho. pose proof (Z.quot_pos (- a) b ltac:(lia) Hb).
    pose proof (Z.rem_nonpos a b ltac:(lia) ltac:(lia)). nia.
Qed.
Lemma quot_le_abs a b : 0 < b -> Z.abs (Z.quot a b) <= Z.abs a.
Proof. intros Hb. apply quot_bounds; [done|]. nia. Qed.

Lemma obind_some {A B} (a : A) (f : A -> option B) : (Some a ≫= f) = f a.
Proof. done. Qed.
Lemma s32_bind {B} x (f : Z -> option B) : - 2147483648 <= x < 2147483648 -> (ck 32 x ≫= f) = f x.
Proof. intros. by rewrite s32_ok. Qed.
Lemma s64_bind {B} x (f : Z -> option B) :
  - 9223372036854775808 <= x < 9223372036854775808 -> (ck 64 x ≫= f) = f x.
Proof. intros. by rewrite s64_ok. Qed.
Lemma cquot64_bind {B} a b (f : Z -> option B) :
  b <> 0 -> - 9223372036854775808 <= Z.quot a b < 9223372036854775808 -> (cquot 64 a b ≫= f) = f (Z.quot a b).
Proof. intros. by rewrite cquot_ok. Qed.
Lemma crem64_bind {B} a b (f : Z -> option B) :
  b <> 0 -> - 9223372036854775808 <= Z.quot a b < 9223372036854775808 -> (crem 64 a b ≫= f) = f (Z.rem a b).
Proof. intros Hb Hq. unfold crem. rewrite (proj2 (Z.eqb_neq b 0) Hb). by rewrite s64_ok. Qed.

(** Checked operations inside a stateful computation. *)
Lemma opt_run {S A B} (o : option A) a (f : A -> M S B) s : o = Some a -> (of_opt o ≫= f) s = f a s.
Proof. intros ->. done. Qed.
Lemma opt_fail {S A B} (o : option A) (f : A -> M S B) s : o = None -> (of_opt o ≫= f) s = None.
Proof. intros ->. done. Qed.
Lemma bind_fail {S A B} (c : M S A) (f : A -> M S B) s : c s = None -> (c ≫= f) s = None.
Proof. intros H. unfold mbind, M_bind. by rewrite H. Qed.
Lemma s64_run {S B} x (f : Z -> M S B) s :
  - 9223372036854775808 <= x < 9223372036854775808 -> (of_opt (ck 64 x) ≫= f) s = f x s.
Proof. intros. by apply opt_run, s64_ok. Qed.
Lemma cquot64_run {S B} a b (f : Z -> M S B) s :
  b <> 0 -> - 9223372036854775808 <= Z.quot a b < 9223372036854775808 ->
  (of_opt (cquot 64 a b) ≫= f) s = f (Z.quot a b) s.
Proof. intros. by apply opt_run, cquot_ok. Qed.
Lemma gets_run {S A B} (g : S -> A) (f : A -> M S B) s : (gets g ≫= f) s = f (g s) s.
Proof. done. Qed.

(** Symbolic evaluation of the head of a computation: removes the checks whose
    bounds [lia] can prove. *)
Ltac ck_step :=
  first
    [ rewrite obind_some | rewrite s32_bind by lia | rewrite s64_bind by lia
    | rewrite cquot64_bind by lia | rewrite crem64_bind by lia ]; cbn beta.
Ltac ck_steps := repeat ck_step.
Ltac run_step :=
  first [ rewrite gets_run | rewrite s64_run by lia | rewrite cquot64_run by lia ]; cbn beta.
Ltac run_steps := repeat run_step.

Create Rewrite HintDb cint.
#[export] Hint Rewrite i32_ok i64_ok u16_ok u32_ok u64_ok using lia : cint.

(** ** Runs of writes *)

(** Writing the bytes of [l] from index [o] on. *)
Definition blit (p : list Z) (o : nat) (l : list Z) : list Z := take o p ++ l ++ drop (o + length l) p.

Lemma wrb_blit p o v :
  0 <= o < Z.of_nat (length p) -> wrb p o v = Some (blit p (Z.to_nat o) [v]).
Proof.
  intros H. unfold wrb. rewrite bool_decide_true by done. f_equal. unfold blit.
  rewrite insert_take_drop by lia. cbn [length]. by rewrite Nat.add_1_r.
Qed.
Lemma blit_length p o l : (o + length l <= length p)%nat -> length (blit p o l) = length p.
Proof. intros. unfold blit. rewrite !length_app, length_take, length_drop. lia. Qed.
(** Adjacent writes are one write. *)
Lemma blit_after p o l l' :
  (o + length l + length l' <= length p)%nat -> blit (blit p o l) (o + length l) l' = blit p o (l ++ l').
Proof.
  intros H. unfold blit. set (a := take o p).
  assert (length a = o) as Ha by (unfold a; rewrite length_take; lia).
  rewrite take_app_ge, drop_app_ge by lia. rewrite Ha.
  replace (o + length l - o)%nat with (length l) by lia.
  rewrite take_app_length. rewrite drop_app_ge by lia.
  rewrite drop_drop, length_app, <- !app_assoc. do 4 f_equal. lia.
Qed.
Lemma blit_before p o l l' :
  (o + length l + length l' <= length p)%nat -> blit (blit p (o + length l) l') o l = blit p o (l ++ l').
Proof.
  intros H. unfold blit. rewrite length_app.
  assert (length (take (o + length l) p) = o + length l)%nat as Ht by (rewrite length_take; lia).
  rewrite take_app_le, take_take by lia. replace (o `min` (o + length l))%nat with o by lia.
  rewrite drop_app_ge, Ht by lia. replace (o + length l - (o + length l))%nat with 0%nat by lia.
  rewrite drop_0, <- app_assoc, Nat.add_assoc. done.
Qed.
Lemma blit_last b t x c :
  (length t < length b)%nat -> blit (blit b 0 (t ++ [x])) (length t) [c] = blit b 0 (t ++ [c]).
Proof.
  intros H. unfold blit. rewrite !length_app, !take_0. cbn [app length].
  rewrite <- !app_assoc. rewrite take_app_length, drop_app_ge by lia.
  replace (length t + 1 - length t)%nat with 1%nat by lia. cbn [app drop]. done.
Qed.
