(* ===== verification/PtpTime.v ===== *)
(** * PTP time arithmetic (src/port/ptp/ptp_time.c)

    [TimeInternal] is a pair of 32-bit signed integers, kept normalised: the
    nanoseconds are below one second in magnitude and have the sign of the
    seconds.  Every 32- and 64-bit signed operation is checked. *)

From S2P Require Import Prelude CInt.

Definition NS_PER_S : Z := 1000000000.

Record TimeInternal := mkTime { seconds : Z; nanoseconds : Z }.
(** The wire timestamp: a 48-bit second count in two parts. *)
Record Timestamp := mkTs { sec_lsb : Z; sec_msb : Z; nanosecondsField : Z }.

Definition ptp_time_normalize (r : TimeInternal) : option TimeInternal :=
  s ← s32 (seconds r + Z.quot (nanoseconds r) NS_PER_S);
  let n := Z.rem (nanoseconds r) NS_PER_S in
  if (0 <? s) && (n <? 0) then
    s' ← s32 (s - 1); n' ← s32 (n + NS_PER_S); Some (mkTime s' n')
  else if (s <? 0) && (0 <? n) then
    s' ← s32 (s + 1); n' ← s32 (n - NS_PER_S); Some (mkTime s' n')
  else Some (mkTime s n).

Definition ptp_time_add (x y : TimeInternal) : option TimeInternal :=
  s ← s32 (seconds x + seconds y);
  n ← s32 (nanoseconds x + nanoseconds y);
  ptp_time_normalize (mkTime s n).

Definition ptp_time_sub (x y : TimeInternal) : option TimeInternal :=
  s ← s32 (seconds x - seconds y);
  n ← s32 (nanoseconds x - nanoseconds y);
  ptp_time_normalize (mkTime s n).

Definition ptp_time_to_ns (t : TimeInternal) : option Z :=
  p ← s64 (seconds t * NS_PER_S); s64 (p + nanoseconds t).

Definition ptp_ns_to_time (ns : Z) : option TimeInternal :=
  ptp_time_normalize (mkTime (i32 (Z.quot ns NS_PER_S)) (i32 (Z.rem ns NS_PER_S))).

Definition ptp_time_div2 (r : TimeInternal) : option TimeInternal :=
  ns ← ptp_time_to_ns r; ptp_ns_to_time (Z.quot ns 2).

Definition ptp_ts_to_internal (ext : Timestamp) : TimeInternal :=
  let secs := Z.lor (u64 (Z.shiftl (sec_msb ext) 32)) (sec_lsb ext) in
  mkTime (i32 secs) (i32 (nanosecondsField ext)).

Definition ptp_internal_to_ts (t : TimeInternal) : Timestamp :=
  mkTs (u32 (seconds t)) 0 (u32 (nanoseconds t)).

(** ** Exactness *)

(** The duration a pair stands for. *)
Definition time_ns (t : TimeInternal) : Z := seconds t * NS_PER_S + nanoseconds t.

Definition fits (t : TimeInternal) : Prop := in_s 32 (seconds t) /\ in_s 32 (nanoseconds t).
Definition normal (t : TimeInternal) : Prop :=
  Z.abs (nanoseconds t) < NS_PER_S /\
  ~ (0 < seconds t /\ nanoseconds t < 0) /\ ~ (seconds t < 0 /\ 0 < nanoseconds t).

(** The largest duration two 32-bit fields can hold with room to normalise. *)
Definition ns_limit : Z := 2147483646 * NS_PER_S.

Lemma time_ns_bound t : normal t -> Z.abs (time_ns t) <= ns_limit -> Z.abs (seconds t) <= 2147483646.
Proof. unfold normal, ns_limit, time_ns, NS_PER_S. intros. lia. Qed.

(** A normalised pair is determined by its duration. *)
Lemma normal_inj t u : normal t -> normal u -> time_ns t = time_ns u -> t = u.
Proof.
  destruct t as [s n], u as [s' n']. unfold normal, time_ns, NS_PER_S; simpl. intros.
  assert (s = s') as -> by lia. f_equal. lia.
Qed.

Lemma normalize_exact t :
  in_s 32 (nanoseconds t) -> Z.abs (time_ns t) <= ns_limit ->
  exists r, ptp_time_normalize t = Some r /\ normal r /\ fits r /\ time_ns r = time_ns t.
Proof.
  destruct t as [s n]. unfold time_ns, ns_limit, fits, in_s, normal, ptp_time_normalize, NS_PER_S.
  cbn [seconds nanoseconds]. change (2 ^ (32 - 1)) with 2147483648. intros Hn Ht.
  pose proof (Z.quot_rem' n 1000000000). pose proof (Z.rem_bound_abs n 1000000000 ltac:(lia)).
  remember (Z.quot n 1000000000) as q eqn:Eq. remember (Z.rem n 1000000000) as r eqn:Er. clear Eq Er.
  ck_step. remember (s + q) as t eqn:Et.
  destruct (Z.ltb_spec 0 t), (Z.ltb_spec r 0), (Z.ltb_spec t 0), (Z.ltb_spec 0 r); try lia; cbn [andb];
    ck_steps; eexists; (split; [reflexivity|]); cbn [seconds nanoseconds]; lia.
Qed.

Lemma ns_to_time_exact ns :
  Z.abs ns <= ns_limit ->
  exists r, ptp_ns_to_time ns = Some r /\ normal r /\ fits r /\ time_ns r = ns.
Proof.
  intros Hns. unfold ptp_ns_to_time. unfold ns_limit in *.
  pose proof (Z.quot_rem' ns NS_PER_S). pose proof (Z.rem_bound_abs ns NS_PER_S ltac:(done)).
  unfold NS_PER_S in *.
  rewrite !i32_ok by lia.
  destruct (normalize_exact (mkTime (Z.quot ns 1000000000) (Z.rem ns 1000000000))) as (r & ? & ? & ? & Hr).
  - unfold in_s; simpl. change (2 ^ (32 - 1)) with 2147483648. lia.
  - unfold time_ns, ns_limit, NS_PER_S; simpl. lia.
  - exists r. split; [done|]. split; [done|]. split; [done|]. rewrite Hr.
    unfold time_ns, NS_PER_S; simpl. lia.
Qed.

Lemma to_ns_exact t : fits t -> ptp_time_to_ns t = Some (time_ns t).
Proof.
  unfold fits, in_s, ptp_time_to_ns, time_ns, NS_PER_S. change (2 ^ (32 - 1)) with 2147483648.
  intros. ck_step. by rewrite s64_ok by lia.
Qed.

(** [ptp_time_add] and [ptp_time_sub] start from normalised operands. *)
Lemma combine_exact s n :
  Z.abs n < 2 * NS_PER_S -> Z.abs (s * NS_PER_S + n) <= ns_limit ->
  exists r, (s' ← s32 s; n' ← s32 n; ptp_time_normalize (mkTime s' n')) = Some r /\
    normal r /\ fits r /\ time_ns r = s * NS_PER_S + n.
Proof.
  unfold ns_limit, NS_PER_S. intros Hn Hs. rewrite s32_bind by lia. rewrite s32_bind by lia.
  apply (normalize_exact (mkTime s n)); unfold in_s, time_ns, ns_limit, NS_PER_S; simpl; [|lia].
  change (2 ^ (32 - 1)) with 2147483648. lia.
Qed.

(** Time arithmetic is exact: on normalised operands whose result is
    within the range of the 32-bit fields, addition, subtraction and halving
    return the normalised pair of the exact sum, difference and truncated
    half without any overflow; the conversions to and from nanoseconds are
    inverse to each other, and a non-negative time survives the wire
    format. *)
Theorem ptp_time_exact (x y : TimeInternal) :
  normal x -> normal y -> fits x -> fits y ->
  Z.abs (time_ns x) <= ns_limit ->
  Z.abs (time_ns x + time_ns y) <= ns_limit -> Z.abs (time_ns x - time_ns y) <= ns_limit ->
  (exists r, ptp_time_add x y = Some r /\ normal r /\ time_ns r = time_ns x + time_ns y) /\
  (exists r, ptp_time_sub x y = Some r /\ normal r /\ time_ns r = time_ns x - time_ns y) /\
  (exists r, ptp_time_div2 x = Some r /\ normal r /\ time_ns r = Z.quot (time_ns x) 2) /\
  (ns ← ptp_time_to_ns x; ptp_ns_to_time ns) = Some x /\
  (0 <= time_ns x -> ptp_ts_to_internal (ptp_internal_to_ts x) = x).
Proof.
  intros Nx Ny Fx Fy Hx Ha Hs. split; [|split; [|split; [|split] ] ].
  - destruct (combine_exact (seconds x + seconds y) (nanoseconds x + nanoseconds y)) as (r & E & ? & _ & Hr).
    { destruct Nx as [? _], Ny as [? _]. lia. }
    { unfold time_ns in Ha. lia. }
    exists r. split; [done|]. split; [done|]. rewrite Hr. unfold time_ns. lia.
  - destruct (combine_exact (seconds x - seconds y) (nanoseconds x - nanoseconds y)) as (r & E & ? & _ & Hr).
    { destruct Nx as [? _], Ny as [? _]. lia. }
    { unfold time_ns in Hs. lia. }
    exists r. split; [done|]. split; [done|]. rewrite Hr. unfold time_ns. lia.
  - unfold ptp_time_div2. rewrite (to_ns_exact x Fx), obind_some.
    pose proof (quot_le_abs (time_ns x) 2 ltac:(lia)).
    destruct (ns_to_time_exact (Z.quot (time_ns x) 2)) as (r & ? & ? & _ & ?); [lia|]. by exists r.
  - rewrite (to_ns_exact x Fx), obind_some.
    destruct (ns_to_time_exact (time_ns x)) as (r & Hr & ? & ? & ?); [done|].
    rewrite Hr. f_equal. by apply normal_inj.
  - intros Hp. destruct x as [s n]. destruct Nx as (Hn & Hsg & _), Fx as [Fs Fn].
    unfold time_ns, in_s, NS_PER_S in *. simpl in *.
    unfold ptp_ts_to_internal, ptp_internal_to_ts; simpl.
    assert (0 <= s /\ 0 <= n) as [? ?] by lia. change (2 ^ (32 - 1)) with 2147483648 in *.
    change (u64 0) with 0. rewrite Z.lor_0_l, !u32_ok, !i32_ok by lia. done.
Qed.

(** 1.25 s and 2.8 s. *)
Definition time_a : TimeInternal := mkTime 1 250000000.
Definition time_b : TimeInternal := mkTime 2 800000000.

Lemma ptp_time_exact_witness :
  ptp_time_add time_a time_b = Some (mkTime 4 50000000) /\
  exists r, ptp_time_sub time_a time_b = Some r /\ normal r /\ time_ns r = - 1550000000.
Proof.
  assert (normal time_a /\ normal time_b /\ fits time_a /\ fits time_b) as (? & ? & ? & ?).
  { unfold normal, fits, in_s, time_a, time_b, NS_PER_S; cbn [seconds nanoseconds]. lia. }
  destruct (ptp_time_exact time_a time_b) as (_ & Hs & _); [done..| | | |].
  1-3: unfold time_ns, ns_limit, time_a, time_b, NS_PER_S; cbn [seconds nanoseconds]; lia.
  split; [reflexivity|exact Hs].
Defined.
