(* ===== verification/PtpMsg.v ===== *)
(** * PTP message packing (src/port/ptp/ptp_msg.c)

    A message buffer is a list of bytes; an access outside it is undefined.
    [MsgHeader] has the fields of ptpd's header that the code reads or
    writes; plain [char] is unsigned on the target. *)

From S2P Require Import Prelude CInt PtpTime.

Definition CLOCK_IDENTITY_LENGTH : Z := 8.
Definition DELAY_REQ_LENGTH : Z := 44.
Definition PTP_SYNC : Z := 0.
Definition PTP_DELAY_REQ : Z := 1.
Definition PTP_FOLLOW_UP : Z := 8.
Definition PTP_DELAY_RESP : Z := 9.
Definition PTP_ANNOUNCE : Z := 11.
Definition PTP_HEADER_LENGTH : Z := 34.
Definition PTP_EVENT_PORT : Z := 319.
Definition PTP_GENERAL_PORT : Z := 320.

Record MsgHeader := mkHdr {
  transportSpecific : Z; messageType : Z; versionPTP : Z; messageLength : Z;
  domainNumber : Z; flagField0 : Z; flagField1 : Z; corr_lsb : Z; corr_msb : Z;
  clockIdentity : list Z; portNumber : Z; sequenceId : Z; controlField : Z;
  logMessageInterval : Z }.

(** ** Big-endian fields *)

Definition be16 (p : list Z) (o : Z) : option Z :=
  a ← rdb p o; b ← rdb p (o + 1); Some (u16 (Z.lor (Z.shiftl a 8) b)).
Definition be32 (p : list Z) (o : Z) : option Z :=
  a ← rdb p o; b ← rdb p (o + 1); c ← rdb p (o + 2); d ← rdb p (o + 3);
  Some (Z.lor (Z.lor (Z.lor (u32 (Z.shiftl a 24)) (u32 (Z.shiftl b 16))) (u32 (Z.shiftl c 8))) d).
(** [for (i = 0; i < n; i++) v = (v << 8) | p[i]]. *)
Fixpoint be_loop (p : list Z) (o : Z) (n : nat) (v : Z) : option Z :=
  match n with
  | O => Some v
  | S n => b ← rdb p o; be_loop p (o + 1) n (Z.lor (u64 (Z.shiftl v 8)) b)
  end.
Definition be48 (p : list Z) (o : Z) : option Z := be_loop p o 6 0.
Definition be64 (p : list Z) (o : Z) : option Z := be_loop p o 8 0.

Definition put16 (p : list Z) (o v : Z) : option (list Z) :=
  p ← wrb p o (u8 (Z.shiftr v 8)); wrb p (o + 1) (u8 v).
(** [for (i = n - 1; i >= 0; i--) { p[i] = (uint8_t)v; v >>= 8; }]. *)
Fixpoint put_loop (p : list Z) (o : Z) (n : nat) (v : Z) : option (list Z) :=
  match n with
  | O => Some p
  | S n => p ← wrb p (o + Z.of_nat n) (u8 v); put_loop p o n (Z.shiftr v 8)
  end.
Definition put48 (p : list Z) (o v : Z) : option (list Z) := put_loop p o 6 v.
Definition put32 (p : list Z) (o v : Z) : option (list Z) :=
  p ← wrb p o (u8 (Z.shiftr v 24)); p ← wrb p (o + 1) (u8 (Z.shiftr v 16));
  p ← wrb p (o + 2) (u8 (Z.shiftr v 8)); wrb p (o + 3) (u8 v).

(** ** Messages *)

Definition ptp_unpack_timestamp (buf : list Z) (o : Z) : option Timestamp :=
  secs ← be48 buf o; ns ← be32 buf (o + 6);
  Some (mkTs (u32 secs) (u16 (Z.shiftr secs 32)) ns).

(** [for (i = 0; i < n; i++) d[i] = p[o + i]], collecting the elements. *)
Fixpoint read_loop (p : list Z) (o : Z) (n : nat) : option (list Z) :=
  match n with
  | O => Some []
  | S n => b ← rdb p o; l ← read_loop p (o + 1) n; Some (b :: l)
  end.

Definition ptp_unpack_header (buf : list Z) : option (Z * MsgHeader) :=
  b0 ← rdb buf 0; b1 ← rdb buf 1; len ← be16 buf 2; dom ← rdb buf 4;
  f0 ← rdb buf 6; f1 ← rdb buf 7; cf ← be64 buf 8;
  id ← read_loop buf 20 (Z.to_nat CLOCK_IDENTITY_LENGTH);
  port ← be16 buf 28; seq ← be16 buf 30; ctl ← rdb buf 32; li ← rdb buf 33;
  let hdr := mkHdr (Z.shiftr b0 4) (Z.land b0 15) (Z.land b1 15) len dom f0 f1
               (u32 cf) (i32 (Z.shiftr cf 32)) id port seq ctl (i8 li) in
  Some (messageType hdr, hdr).

Definition ptp_header_two_step (hdr : MsgHeader) : bool := negb (Z.land (flagField0 hdr) 2 =? 0).

(** [for (i = 0; i < n; i++) p[o + i] = 0]. *)
Fixpoint zero_loop (p : list Z) (o : Z) (n : nat) : option (list Z) :=
  match n with
  | O => Some p
  | S n => p ← wrb p o 0; zero_loop p (o + 1) n
  end.
(** [for (i = 0; i < n; i++) p[o + i] = id[i]]. *)
Fixpoint id_loop (p : list Z) (o : Z) (id : list Z) (i : Z) (n : nat) : option (list Z) :=
  match n with
  | O => Some p
  | S n => b ← rdb id i; p ← wrb p (o + i) b; id_loop p o id (i + 1) n
  end.

Definition ptp_pack_delay_req (buf : list Z) (self : MsgHeader) (seqId : Z) (ts : Timestamp)
    : option (Z * list Z) :=
  p ← zero_loop buf 0 (Z.to_nat DELAY_REQ_LENGTH);
  p ← wrb p 0 PTP_DELAY_REQ; p ← wrb p 1 2;
  p ← put16 p 2 (u16 DELAY_REQ_LENGTH);
  p ← wrb p 4 (domainNumber self);
  p ← wrb p 6 0; p ← wrb p 7 0;
  p ← id_loop p 20 (clockIdentity self) 0 (Z.to_nat CLOCK_IDENTITY_LENGTH);
  p ← put16 p 28 (portNumber self);
  p ← put16 p 30 seqId;
  p ← wrb p 32 1; p ← wrb p 33 127;
  p ← put48 p 34 (Z.lor (u64 (Z.shiftl (sec_msb ts) 32)) (sec_lsb ts));
  p ← put32 p 40 (nanosecondsField ts);
  Some (DELAY_REQ_LENGTH, p).

(** ** The image of a Delay_Req *)

(** Big-endian digits of [v] in [n] bytes. *)
Fixpoint be_digits (n : nat) (v : Z) : list Z :=
  match n with O => [] | S n => be_digits n (v / 256) ++ [v mod 256] end.

Definition delay_req_image (self : MsgHeader) (seqId : Z) (ts : Timestamp) : list Z :=
  [PTP_DELAY_REQ; 2; 0; 44; domainNumber self; 0] ++ replicate 14 0 ++
  clockIdentity self ++ be_digits 2 (portNumber self) ++ be_digits 2 seqId ++ [1; 127] ++
  be_digits 6 (sec_msb ts * 2 ^ 32 + sec_lsb ts) ++ be_digits 4 (nanosecondsField ts).

Lemma u8_div k v : 0 <= k -> u8 (Z.shiftr v k) = (v / 2 ^ k) mod 256.
Proof. intros. unfold wrapu. by rewrite Z.shiftr_div_pow2. Qed.
Lemma be_digits_length n v : length (be_digits n v) = n.
Proof. revert v. induction n as [|n IH]; intros v; [done|]. simpl. rewrite length_app, IH. simpl. lia. Qed.

Lemma put_loop_blit n p o v :
  0 <= o -> o + Z.of_nat n <= Z.of_nat (length p) ->
  put_loop p o n v = Some (blit p (Z.to_nat o) (be_digits n v)).
Proof.
  revert p v. induction n as [|n IH]; intros p v Ho Hl; cbn [put_loop be_digits].
  - f_equal. unfold blit. simpl. by rewrite Nat.add_0_r, take_drop.
  - rewrite wrb_blit, obind_some by lia. rewrite IH by (rewrite ?blit_length; simpl; lia).
    f_equal. replace (Z.to_nat (o + Z.of_nat n)) with (Z.to_nat o + length (be_digits n (v / 256)))%nat
      by (rewrite be_digits_length; lia).
    rewrite Z.shiftr_div_pow2 by lia. apply blit_before. rewrite be_digits_length. simpl. lia.
Qed.
Lemma put16_blit p o v :
  0 <= o -> o + 2 <= Z.of_nat (length p) -> put16 p o v = Some (blit p (Z.to_nat o) (be_digits 2 v)).
Proof.
  intros Ho Hl. unfold put16. rewrite wrb_blit, obind_some by lia.
  rewrite wrb_blit by (rewrite blit_length; simpl; lia). rewrite u8_div by lia.
  replace (Z.to_nat (o + 1)) with (Z.to_nat o + 1)%nat by lia.
  f_equal. apply (blit_after p (Z.to_nat o) [_] [_]). simpl. lia.
Qed.
Lemma put32_blit p o v :
  0 <= o -> o + 4 <= Z.of_nat (length p) -> put32 p o v = Some (blit p (Z.to_nat o) (be_digits 4 v)).
Proof.
  intros Ho Hl. unfold put32.
  rewrite wrb_blit, obind_some by lia. rewrite wrb_blit, obind_some by (rewrite blit_length; simpl; lia).
  replace (Z.to_nat (o + 1)) with (Z.to_nat o + 1)%nat by lia.
  rewrite (blit_after p (Z.to_nat o) [_] [_]) by (simpl; lia). cbn [app].
  rewrite wrb_blit, obind_some by (rewrite blit_length; simpl; lia).
  replace (Z.to_nat (o + 2)) with (Z.to_nat o + 2)%nat by lia.
  rewrite (blit_after p (Z.to_nat o) [_; _] [_]) by (simpl; lia). cbn [app].
  rewrite wrb_blit by (rewrite blit_length; simpl; lia).
  replace (Z.to_nat (o + 3)) with (Z.to_nat o + 3)%nat by lia.
  rewrite (blit_after p (Z.to_nat o) [_; _; _] [_]) by (simpl; lia). cbn [app].
  rewrite !u8_div by lia. do 2 f_equal. cbn [be_digits app]. by rewrite !Z.div_div by lia.
Qed.
Lemma zero_loop_blit n p o :
  0 <= o -> o + Z.of_nat n <= Z.of_nat (length p) ->
  zero_loop p o n = Some (blit p (Z.to_nat o) (replicate n 0)).
Proof.
  revert p o. induction n as [|n IH]; intros p o Ho Hl; cbn [zero_loop replicate].
  - f_equal. unfold blit. simpl. by rewrite Nat.add_0_r, take_drop.
  - rewrite wrb_blit, obind_some by lia. rewrite IH by (rewrite ?blit_length; simpl; lia).
    replace (Z.to_nat (o + 1)) with (Z.to_nat o + 1)%nat by lia.
    f_equal. apply (blit_after p (Z.to_nat o) [_]). rewrite length_replicate. simpl. lia.
Qed.
Lemma id_loop_blit n p o id i :
  0 <= o -> 0 <= i -> i + Z.of_nat n = Z.of_nat (length id) -> o + i + Z.of_nat n <= Z.of_nat (length p) ->
  id_loop p o id i n = Some (blit p (Z.to_nat (o + i)) (drop (Z.to_nat i) id)).
Proof.
  revert p i. induction n as [|n IH]; intros p i Ho Hi Hd Hl; cbn [id_loop].
  - f_equal. unfold blit. rewrite drop_ge by lia. simpl. by rewrite Nat.add_0_r, take_drop.
  - unfold rdb. destruct (Z.ltb_spec i 0); [lia|].
    destruct (lookup_lt_is_Some_2 id (Z.to_nat i)) as [b Hb]; [lia|]. rewrite Hb, obind_some.
    rewrite wrb_blit, obind_some by lia. rewrite IH by (rewrite ?blit_length; simpl; lia).
    replace (Z.to_nat (o + (i + 1))) with (Z.to_nat (o + i) + 1)%nat by lia.
    replace (Z.to_nat (i + 1)) with (S (Z.to_nat i)) by lia.
    f_equal. rewrite (blit_after p (Z.to_nat (o + i)) [b]) by (rewrite length_drop; simpl; lia).
    by rewrite (drop_S id b (Z.to_nat i)).
Qed.

(** Evaluates a write at a concrete offset of an explicit buffer. *)
Ltac nat_lit :=
  repeat match goal with
  | |- context [Z.to_nat (Zpos ?x)] => let n := eval vm_compute in (Z.to_nat (Zpos x)) in change (Z.to_nat (Zpos x)) with n
  | |- context [Z.to_nat Z0] => change (Z.to_nat Z0) with 0%nat
  | |- context [Z.to_nat (Zpos ?x + 0)] => change (Zpos x + 0) with (Zpos x)
  end.
Ltac blit_step :=
  first
    [ rewrite wrb_blit by (cbn [length]; lia)
    | rewrite put16_blit by (cbn [length]; lia)
    | rewrite put32_blit by (cbn [length]; lia)
    | rewrite put_loop_blit by (cbn [length]; lia)
    | rewrite id_loop_blit by (cbn [length]; lia) ];
  rewrite obind_some; nat_lit; unfold blit; cbn [firstn skipn app length be_digits Nat.add].

Lemma pack_delay_req_image buf self seqId ts :
  44 <= Z.of_nat (length buf) -> length (clockIdentity self) = 8%nat ->
  in_u 16 (sec_msb ts) -> in_u 32 (sec_lsb ts) ->
  ptp_pack_delay_req buf self seqId ts = Some (44, delay_req_image self seqId ts ++ drop 44 buf).
Proof.
  intros Hb Hid Hm Hs. destruct self as [? ? ? ? dom ? ? ? ? id port ? ? ?]; cbn [clockIdentity] in Hid.
  do 8 (destruct id as [|? id]; [done|]). destruct id; [|done].
  assert (Z.lor (u64 (Z.shiftl (sec_msb ts) 32)) (sec_lsb ts) = sec_msb ts * 2 ^ 32 + sec_lsb ts) as Hlor.
  { rewrite (wrapu_small 64 (Z.shiftl _ _))
      by (unfold in_u in *; rewrite Z.shiftl_mul_pow2 by lia; lia).
    rewrite Z.lor_comm, lor_shiftl_add by (done || lia). lia. }
  unfold ptp_pack_delay_req. rewrite Hlor. clear Hlor Hm Hs. unfold delay_req_image.
  cbn [clockIdentity domainNumber portNumber].
  set (secs := sec_msb ts * 2 ^ 32 + sec_lsb ts). clearbody secs.
  rewrite zero_loop_blit, obind_some by (vm_compute Z.to_nat; lia).
  unfold DELAY_REQ_LENGTH, CLOCK_IDENTITY_LENGTH, put48. nat_lit.
  unfold blit. change (take 0 buf) with (@nil Z). cbn [app length Nat.add].
  change (length (replicate 44 0)) with 44%nat.
  remember (drop 44 buf) as rest eqn:Er. clear Er Hb buf. cbn [replicate app].
  change (u16 44) with 44.
  repeat blit_step. reflexivity.
Qed.

(** ** Reading back *)

Lemma lor_byte v b : 0 <= v -> is_byte b -> Z.lor (Z.shiftl v 8) b = v * 256 + b.
Proof. intros. rewrite Z.lor_comm, lor_shiftl_add by (done || lia). lia. Qed.

(** The big-endian value of a list of bytes. *)
Definition be_value (l : list Z) : Z := fold_left (fun v b => v * 256 + b) l 0.

Lemma fold_be_shift l v : fold_left (fun v b => v * 256 + b) l v = v * 256 ^ Z.of_nat (length l) + be_value l.
Proof.
  unfold be_value. revert v. induction l as [|b l IH]; intros v; cbn [fold_left length]; [lia|].
  rewrite IH, (IH (0 * 256 + b)), Nat2Z.inj_succ, Z.pow_succ_r by lia. lia.
Qed.
Lemma be_value_snoc l b : be_value (l ++ [b]) = be_value l * 256 + b.
Proof. unfold be_value. by rewrite fold_left_app. Qed.
Lemma be_value_digits n v : be_value (be_digits n v) = v mod 256 ^ Z.of_nat n.
Proof.
  revert v. induction n as [|n IH]; intros v; [by rewrite Z.mod_1_r|]. cbn [be_digits].
  rewrite be_value_snoc, IH, Nat2Z.inj_succ, Z.pow_succ_r by lia.
  rewrite Z.rem_mul_r by (try apply Z.pow_pos_nonneg; lia). lia.
Qed.
Lemma be_value_range l : bytes l -> 0 <= be_value l < 256 ^ Z.of_nat (length l).
Proof.
  induction l as [|b l IH] using rev_ind; intros Hl; [done|].
  apply Forall_app in Hl as [Hl Hb]. rewrite Forall_singleton in Hb.
  rewrite be_value_snoc, length_app, Nat2Z.inj_add, Z.pow_add_r by lia. cbn [length].
  specialize (IH Hl). unfold is_byte, in_u in Hb. change (256 ^ Z.of_nat 1) with 256. lia.
Qed.
Lemma be_digits_bytes n v : bytes (be_digits n v).
Proof.
  revert v. induction n as [|n IH]; intros v; [constructor|]. cbn [be_digits]. apply Forall_app. split; [apply IH|].
  constructor; [|constructor]. unfold is_byte, in_u. pose proof (Z.mod_pos_bound v 256). lia.
Qed.

(** The reading loop computes the value of the bytes at its offset. *)
Lemma be_loop_value l p q v o :
  bytes l -> 0 <= v -> v * 256 ^ Z.of_nat (length l) + 256 ^ Z.of_nat (length l) <= 2 ^ 64 ->
  o = Z.of_nat (length p) ->
  be_loop (p ++ l ++ q) o (length l) v = Some (fold_left (fun v b => v * 256 + b) l v).
Proof.
  revert p v o. induction l as [|b l IH]; intros p v o Hl Hv Hb ->; cbn [be_loop length fold_left]; [done|].
  apply Forall_cons in Hl as [Hx Hl]. unfold rdb. destruct (Z.ltb_spec (Z.of_nat (length p)) 0); [lia|].
  rewrite Nat2Z.id, lookup_app_r, Nat.sub_diag by lia. cbn [app lookup list_lookup]. rewrite obind_some.
  rewrite length_cons, Nat2Z.inj_succ, Z.pow_succ_r in Hb by lia.
  pose proof (Z.pow_pos_nonneg 256 (Z.of_nat (length l)) ltac:(lia) ltac:(lia)).
  unfold is_byte, in_u in Hx.
  rewrite u64_ok by (rewrite Z.shiftl_mul_pow2 by lia; nia).
  rewrite lor_byte by done.
  replace (p ++ b :: l ++ q) with ((p ++ [b]) ++ l ++ q) by (by rewrite <- app_assoc).
  apply IH; [done|lia|nia|]. rewrite length_app. simpl. lia.
Qed.

Lemma rdb_mid p l q o j x :
  o = Z.of_nat (length p) + Z.of_nat j -> l !! j = Some x -> rdb (p ++ l ++ q) o = Some (x : Z).
Proof.
  intros -> Hj. unfold rdb. destruct (Z.ltb_spec (Z.of_nat (length p) + Z.of_nat j) 0); [lia|].
  rewrite lookup_app_r by lia. replace (Z.to_nat _ - _)%nat with j by lia.
  by rewrite lookup_app_l by (by eapply lookup_lt_Some).
Qed.

Lemma be16_value p l q o :
  bytes l -> length l = 2%nat -> o = Z.of_nat (length p) -> be16 (p ++ l ++ q) o = Some (be_value l).
Proof.
  intros Hl H2 ->. destruct l as [|a [|b [|] ] ]; try done. unfold be16.
  rewrite (rdb_mid p [a; b] q (Z.of_nat (length p)) 0 a), (rdb_mid p [a; b] q (Z.of_nat (length p) + 1) 1 b) by (done || lia).
  rewrite !obind_some. unfold bytes in Hl. rewrite !Forall_cons in Hl. destruct Hl as (Ha & Hb & _).
  unfold is_byte, in_u in *. rewrite lor_byte by (unfold is_byte, in_u; lia). unfold be_value. cbn [fold_left].
  rewrite u16_ok by lia. done.
Qed.
Lemma be32_value p l q o :
  bytes l -> length l = 4%nat -> o = Z.of_nat (length p) -> be32 (p ++ l ++ q) o = Some (be_value l).
Proof.
  intros Hl H2 ->. destruct l as [|a [|b [|c [|d [|] ] ] ] ]; try done. unfold be32.
  rewrite (rdb_mid p [a; b; c; d] q (Z.of_nat (length p)) 0 a), (rdb_mid p [a; b; c; d] q (Z.of_nat (length p) + 1) 1 b),
    (rdb_mid p [a; b; c; d] q (Z.of_nat (length p) + 2) 2 c), (rdb_mid p [a; b; c; d] q (Z.of_nat (length p) + 3) 3 d) by (done || lia).
  rewrite !obind_some. unfold bytes in Hl. rewrite !Forall_cons in Hl. destruct Hl as (Ha & Hb & Hc & Hd & _).
  unfold is_byte, in_u in *.
  rewrite !(wrapu_small 32) by (unfold in_u; rewrite Z.shiftl_mul_pow2 by lia; lia).
  change 24 with (8 + 16) at 1. change (Z.shiftl b 16) with (Z.shiftl b (8 + 8)).
  change (8 + 16) with (8 + 8 + 8). rewrite <- !Z.shiftl_shiftl by lia. rewrite <- !Z.shiftl_lor.
  rewrite (lor_byte a b), (lor_byte _ c), (lor_byte _ d) by (unfold is_byte, in_u; lia).
  done.
Qed.

Lemma read_loop_mid p l q o :
  o = Z.of_nat (length p) -> read_loop (p ++ l ++ q) o (length l) = Some l.
Proof.
  intros ->. revert p. induction l as [|b l IH]; intros p; [done|]. cbn [read_loop length].
  rewrite (rdb_mid p (b :: l) q _ 0 b), obind_some by (done || lia).
  replace (p ++ (b :: l) ++ q) with ((p ++ [b]) ++ l ++ q) by (by rewrite <- app_assoc).
  replace (Z.of_nat (length p) + 1) with (Z.of_nat (length (p ++ [b]))) by (rewrite length_app; simpl; lia).
  by rewrite IH.
Qed.

(** A field of the Delay_Req at its offset. *)
Lemma digits_at16 p q o v :
  o = Z.of_nat (length p) -> in_u 16 v -> be16 (p ++ be_digits 2 v ++ q) o = Some v.
Proof.
  intros Ho Hv. rewrite be16_value by (done || apply be_digits_bytes || apply be_digits_length).
  rewrite be_value_digits. by rewrite Z.mod_small.
Qed.
Lemma digits_at32 p q o v :
  o = Z.of_nat (length p) -> in_u 32 v -> be32 (p ++ be_digits 4 v ++ q) o = Some v.
Proof.
  intros Ho Hv. rewrite be32_value by (done || apply be_digits_bytes || apply be_digits_length).
  rewrite be_value_digits. by rewrite Z.mod_small.
Qed.
Lemma digits_at48 p q o v :
  o = Z.of_nat (length p) -> in_u 48 v -> be48 (p ++ be_digits 6 v ++ q) o = Some v.
Proof.
  intros Ho Hv. unfold be48. rewrite <- (be_digits_length 6 v) at 2.
  rewrite be_loop_value by (rewrite ?be_digits_length; done || apply be_digits_bytes || lia).
  fold (be_value (be_digits 6 v)). rewrite be_value_digits. by rewrite Z.mod_small.
Qed.

(** Our port, as [ptp_core_init] fills it, and what the timestamp holds. *)
Definition self_ok (self : MsgHeader) : Prop :=
  is_byte (domainNumber self) /\ length (clockIdentity self) = 8%nat /\ in_u 16 (portNumber self).
Definition ts_ok (ts : Timestamp) : Prop :=
  in_u 32 (sec_lsb ts) /\ in_u 16 (sec_msb ts) /\ in_u 32 (nanosecondsField ts).

Lemma unpack_image self seqId ts rest :
  self_ok self -> in_u 16 seqId ->
  ptp_unpack_header (delay_req_image self seqId ts ++ rest) =
  Some (PTP_DELAY_REQ, mkHdr 0 PTP_DELAY_REQ 2 44 (domainNumber self) 0 0 0 0
                         (clockIdentity self) (portNumber self) seqId 1 127).
Proof.
  intros (Hd & Hid & Hp) Hs. unfold delay_req_image.
  set (id := clockIdentity self) in *. set (dom := domainNumber self) in *. set (port := portNumber self) in *.
  rewrite <- !app_assoc. set (tail := be_digits 6 _ ++ be_digits 4 _ ++ rest). clearbody tail.
  set (p0 := [PTP_DELAY_REQ; 2; 0; 44; dom; 0] ++ replicate 14 0).
  assert (length p0 = 20%nat) as H0 by done.
  set (mid := id ++ be_digits 2 port ++ be_digits 2 seqId ++ [1; 127] ++ tail).
  change (ptp_unpack_header (p0 ++ mid) = Some (PTP_DELAY_REQ,
    mkHdr 0 PTP_DELAY_REQ 2 44 dom 0 0 0 0 id port seqId 1 127)).
  assert (read_loop (p0 ++ mid) 20 8 = Some id) as R.
  { rewrite <- Hid. apply read_loop_mid. by rewrite H0. }
  assert (be16 (p0 ++ mid) 28 = Some port) as R1.
  { unfold mid. rewrite app_assoc. apply digits_at16; [|done]. rewrite length_app, H0, Hid. done. }
  assert (be16 (p0 ++ mid) 30 = Some seqId) as R2.
  { unfold mid. rewrite !app_assoc, <- (app_assoc _ (be_digits 2 seqId)), <- (app_assoc _ (be_digits 2 seqId ++ _)).
    rewrite <- (app_assoc (be_digits 2 seqId)). apply digits_at16; [|done].
    rewrite !length_app, H0, Hid, be_digits_length. done. }
  assert (forall j x, [1; 127] !! j = Some x -> rdb (p0 ++ mid) (32 + Z.of_nat j) = Some x) as R3.
  { intros j x Hj. unfold mid.
    replace (p0 ++ _) with ((p0 ++ id ++ be_digits 2 port ++ be_digits 2 seqId) ++ [1; 127] ++ tail)
      by (by rewrite <- !app_assoc).
    apply (rdb_mid _ _ _ _ j); [|done]. rewrite !length_app, H0, Hid, !be_digits_length. lia. }
  unfold ptp_unpack_header. change (Z.to_nat CLOCK_IDENTITY_LENGTH) with 8%nat.
  pose proof (R3 0%nat 1 eq_refl) as R4. pose proof (R3 1%nat 127 eq_refl) as R5.
  change (32 + Z.of_nat 0) with 32 in R4. change (32 + Z.of_nat 1) with 33 in R5.
  rewrite R, R1, R2, R4, R5. unfold p0. reflexivity.
Qed.

(** a packed Delay_Req reads back: the header unpacks to message type 1,
    PTP version 2, the length 44, our domain, port identity and sequence
    number, with zero flags and correction; the origin timestamp unpacks to
    the one given; and the bytes after the message are left alone. *)
Theorem delay_req_roundtrip (buf : list Z) (self : MsgHeader) (seqId : Z) (ts : Timestamp) :
  DELAY_REQ_LENGTH <= Z.of_nat (length buf) -> self_ok self -> in_u 16 seqId -> ts_ok ts ->
  exists buf', ptp_pack_delay_req buf self seqId ts = Some (DELAY_REQ_LENGTH, buf') /\
    ptp_unpack_header buf' =
      Some (PTP_DELAY_REQ, mkHdr 0 PTP_DELAY_REQ 2 DELAY_REQ_LENGTH (domainNumber self) 0 0 0 0
                             (clockIdentity self) (portNumber self) seqId 1 127) /\
    ptp_unpack_timestamp buf' PTP_HEADER_LENGTH = Some ts /\
    length buf' = length buf /\ drop 44 buf' = drop 44 buf.
Proof.
  intros Hb Hs Hq (Hl & Hm & Hn). unfold DELAY_REQ_LENGTH in *.
  exists (delay_req_image self seqId ts ++ drop 44 buf).
  assert (length (delay_req_image self seqId ts) = 44%nat) as Hi.
  { unfold delay_req_image. destruct Hs as (_ & Hid & _). by rewrite !length_app, !be_digits_length, Hid. }
  split; [apply pack_delay_req_image; try done; apply Hs|].
  split; [by apply unpack_image|]. split.
  - unfold ptp_unpack_timestamp, delay_req_image.
    set (pre := [PTP_DELAY_REQ; 2; 0; 44; domainNumber self; 0] ++ replicate 14 0 ++
      clockIdentity self ++ be_digits 2 (portNumber self) ++ be_digits 2 seqId ++ [1; 127]).
    set (secs := sec_msb ts * 2 ^ 32 + sec_lsb ts).
    assert (length pre = 34%nat) as Hpre.
    { unfold pre. destruct Hs as (_ & Hid & _). by rewrite !length_app, !be_digits_length, Hid. }
    unfold in_u in *.
    replace (_ ++ drop 44 buf) with (pre ++ be_digits 6 secs ++ be_digits 4 (nanosecondsField ts) ++ drop 44 buf)
      by (unfold pre; by rewrite <- !app_assoc).
    rewrite digits_at48 by (rewrite ?Hpre; unfold in_u, secs; done || lia). rewrite obind_some.
    rewrite app_assoc, digits_at32 by (rewrite ?length_app, ?Hpre, ?be_digits_length; done || (unfold in_u; lia)).
    rewrite obind_some. unfold secs. rewrite Z.shiftr_div_pow2 by lia.
    rewrite Z.add_comm, Z.div_add by lia. rewrite (Z.div_small (sec_lsb ts)), Z.add_0_l, u16_ok by lia.
    unfold wrapu. rewrite Z.mod_add, Z.mod_small by lia. by destruct ts.
  - split; [rewrite length_app, length_drop, Hi; lia|]. rewrite drop_app_ge, Hi by lia.
    by rewrite Nat.sub_diag, drop_0.
Qed.

(** Our own port with an arbitrary identity, domain 0, port 1. *)
Definition demo_self : MsgHeader :=
  mkHdr 0 0 0 0 0 0 0 0 0 [2; 0; 94; 255; 254; 0; 0; 1] 1 0 0 0.

Lemma delay_req_roundtrip_witness :
  exists buf', ptp_pack_delay_req (replicate 44 255) demo_self 515 (mkTs 1700000000 0 123456789) =
    Some (DELAY_REQ_LENGTH, buf') /\
  ptp_unpack_timestamp buf' PTP_HEADER_LENGTH = Some (mkTs 1700000000 0 123456789).
Proof.
  destruct (delay_req_roundtrip (replicate 44 255) demo_self 515 (mkTs 1700000000 0 123456789))
    as (buf' & Hp & _ & Ht & _); [vm_compute; congruence|by repeat split|by split|by repeat split|].
  exists buf'. split; [exact Hp|exact Ht].
Defined.
