(* ===== verification/PtpClock.v ===== *)
(** * The disciplined PTP clock (src/port/ptp/ptp_clock.c)

    The hardware is a parameter: the counter frequency and the value each
    successive read of the counter returns.  The clock state is the four
    static variables, with the number of counter reads made so far.  The
    64-bit signed arithmetic is checked; the theorems show it is exact and in
    range for about 136 years around the anchor. *)

From S2P Require Import Prelude CInt PtpTime.

(** The generic timer: its frequency, and the value of the n-th read. *)
Class PtpHw := { cnt_freq : Z; counter : nat -> Z }.

Definition PTP_CLOCK_MAX_PPB : Z := 500000.

Record PtpClock := mkClock {
  s_base_cnt : Z; s_base_ns : Z; s_ppb : Z; s_epoch : Z; reads : nat }.

Definition clock_boot : PtpClock := mkClock 0 0 0 0 0.

Section clock.
Context {HW : PtpHw}.

Definition ptp_clock_read_cnt : M PtpClock Z :=
  n ← gets reads;
  modify (fun c => mkClock (s_base_cnt c) (s_base_ns c) (s_ppb c) (s_epoch c) (S (reads c)));;
  mret (counter n).
Definition ptp_clock_cnt_freq : Z := cnt_freq.

Definition ticks_to_ns (dt : Z) : option Z :=
  let f := i64 ptp_clock_cnt_freq in
  if f <=? 0 then Some 0
  else
    secs ← cquot 64 dt f;
    rem ← crem 64 dt f;
    a ← s64 (secs * NS_PER_S);
    b ← s64 (rem * NS_PER_S);
    c ← cquot 64 b f;
    s64 (a + c).

Definition scale_ppb (d ppb : Z) : option Z :=
  whole ← cquot 64 d NS_PER_S;
  frac ← crem 64 d NS_PER_S;
  a ← s64 (whole * ppb);
  b ← s64 (frac * ppb);
  c ← cquot 64 b NS_PER_S;
  s64 (a + c).

Definition ptp_clock_from_cnt (c : PtpClock) (cnt : Z) : option Z :=
  d ← ticks_to_ns (i64 (u64 (cnt - s_base_cnt c)));
  t ← s64 (s_base_ns c + d);
  e ← scale_ppb d (s_ppb c);
  s64 (t + e).

Definition ptp_clock_now_ns : M PtpClock Z :=
  cnt ← ptp_clock_read_cnt; get_opt (fun c => ptp_clock_from_cnt c cnt).

Definition ptp_clock_now : M PtpClock TimeInternal :=
  ns ← ptp_clock_now_ns; of_opt (ptp_ns_to_time ns).

Definition rebase : M PtpClock unit :=
  now ← ptp_clock_read_cnt;
  ns ← get_opt (fun c => ptp_clock_from_cnt c now);
  modify (fun c => mkClock now ns (s_ppb c) (s_epoch c) (reads c)).

Definition ptp_clock_step (delta_ns : Z) : M PtpClock unit :=
  rebase;;
  b ← gets s_base_ns; b' ← of_opt (s64 (b + delta_ns));
  modify (fun c => mkClock (s_base_cnt c) b' (s_ppb c) (u32 (s_epoch c + 1)) (reads c)).

Definition ptp_clock_adjfreq (ppb : Z) : M PtpClock unit :=
  let ppb := if PTP_CLOCK_MAX_PPB <? ppb then PTP_CLOCK_MAX_PPB else ppb in
  let ppb := if ppb <? - PTP_CLOCK_MAX_PPB then - PTP_CLOCK_MAX_PPB else ppb in
  rebase;;
  modify (fun c => mkClock (s_base_cnt c) (s_base_ns c) ppb (s_epoch c) (reads c)).

Definition ptp_clock_get_freq (c : PtpClock) : Z := s_ppb c.
Definition ptp_clock_epoch (c : PtpClock) : Z := s_epoch c.

Definition ptp_clock_raw_ns : M PtpClock Z :=
  cnt ← ptp_clock_read_cnt; of_opt (ticks_to_ns (i64 cnt)).

End clock.

(** ** Truncating division *)

Lemma quot_neg a b : a < 0 -> 0 < b -> Z.quot a b = - (- a / b).
Proof. intros. rewrite <- (Z.opp_involutive a) at 1. rewrite Z.quot_opp_l, Z.quot_div_nonneg by lia. lia. Qed.

(** Splitting the dividend into quotient and remainder first changes nothing. *)
Lemma quot_split a k f :
  0 < f -> Z.quot (a * k) f = Z.quot a f * k + Z.quot (Z.rem a f * k) f.
Proof.
  intros Hf.
  assert (forall a k, 0 <= a -> 0 <= k -> Z.quot (a * k) f = Z.quot a f * k + Z.quot (Z.rem a f * k) f) as Hp.
  { clear a k. intros a k Ha Hk. rewrite !Z.quot_div_nonneg, Z.rem_mod_nonneg by
      (try apply Z.mul_nonneg_nonneg; try apply Z.rem_nonneg; lia).
    rewrite (Z.div_mod a f) at 1 by lia.
    replace ((f * (a / f) + a mod f) * k) with (a / f * k * f + a mod f * k) by lia.
    by rewrite Z.div_add_l by lia. }
  assert (forall a k, 0 <= a -> Z.quot (a * k) f = Z.quot a f * k + Z.quot (Z.rem a f * k) f) as Hq.
  { clear a k. intros a k Ha. destruct (Z.le_ge_cases 0 k); [by apply Hp|].
    specialize (Hp a (- k) Ha ltac:(lia)). rewrite !Z.mul_opp_r, !Z.quot_opp_l in Hp by lia. lia. }
  destruct (Z.le_ge_cases 0 a); [by apply Hq|].
  specialize (Hq (- a) k ltac:(lia)).
  rewrite Z.rem_opp_l, !Z.mul_opp_l, !Z.quot_opp_l, !Z.mul_opp_l in Hq by lia. lia.
Qed.

Lemma quot_mono a b f : 0 < f -> a <= b -> Z.quot a f <= Z.quot b f.
Proof. intros. apply Z.quot_le_mono; lia. Qed.

(** Adding a whole number of divisors adds at most that number. *)
Lemma quot_add_le a n f : 0 < f -> 0 <= n -> Z.quot (a + n * f) f <= Z.quot a f + n.
Proof.
  intros Hf Hn. destruct (Z.le_gt_cases 0 a).
  - rewrite !Z.quot_div_nonneg by nia. rewrite Z.div_add by lia. lia.
  - rewrite (quot_neg a) by lia. destruct (Z.le_gt_cases 0 (a + n * f)) as [Hc|Hc].
    + rewrite Z.quot_div_nonneg by lia. rewrite Z.div_add by lia.
      pose proof (Z.div_opp_l_nz a f). destruct (decide (a mod f = 0)) as [E|E].
      * rewrite Z.div_opp_l_z by lia. lia.
      * rewrite H0 by lia. lia.
    + rewrite quot_neg by lia. replace (- (a + n * f)) with (- a + - n * f) by lia.
      rewrite Z.div_add by lia. lia.
Qed.

(** ** Exactness, monotonicity and continuity *)

Section exact.
Context {HW : PtpHw}.

(** CNTFRQ_EL0 is a 32-bit register; CNTPCT_EL0 is a 64-bit counter. *)
Definition hw_ok : Prop := 0 < cnt_freq < 2 ^ 32 /\ forall n, in_u 64 (counter n).

(** The anchor is within 142 years of the epoch, the slew within its limit. *)
Definition base_limit : Z := 4500000000000000000.
Definition clock_ok (c : PtpClock) : Prop :=
  Z.abs (s_base_ns c) <= base_limit /\ Z.abs (s_ppb c) <= PTP_CLOCK_MAX_PPB.

(** Signed ticks since the anchor, and a sample within 2^32 s of it. *)
Definition since (c : PtpClock) (cnt : Z) : Z := i64 (u64 (cnt - s_base_cnt c)).
Definition in_span (c : PtpClock) (cnt : Z) : Prop := Z.abs (since c cnt) <= 2 ^ 32 * cnt_freq.

(** The piecewise-linear model of ptp_clock.h, truncating towards the anchor. *)
Definition elapsed_ns (c : PtpClock) (cnt : Z) : Z := Z.quot (since c cnt * NS_PER_S) cnt_freq.
Definition model_ns (c : PtpClock) (cnt : Z) : Z :=
  s_base_ns c + elapsed_ns c cnt + Z.quot (elapsed_ns c cnt * s_ppb c) NS_PER_S.

Lemma ticks_to_ns_exact dt :
  hw_ok -> Z.abs dt <= 2 ^ 32 * cnt_freq -> ticks_to_ns dt = Some (Z.quot (dt * NS_PER_S) cnt_freq).
Proof.
  intros [Hf _] Hd. unfold ticks_to_ns, ptp_clock_cnt_freq, NS_PER_S.
  set (f := cnt_freq) in *. rewrite i64_ok by lia. destruct (Z.leb_spec f 0); [lia|].
  pose proof (quot_bounds dt f (2 ^ 32) ltac:(lia) Hd).
  pose proof (quot_bounds (dt * 1000000000) f (2 ^ 32 * 1000000000) ltac:(lia) ltac:(nia)).
  pose proof (Z.rem_bound_abs dt f ltac:(lia)).
  pose proof (quot_le_abs (Z.rem dt f * 1000000000) f ltac:(lia)).
  ck_steps.
  rewrite s64_ok; rewrite <- quot_split by lia; [done|lia].
Qed.

Lemma scale_ppb_exact d ppb :
  Z.abs d <= 2 ^ 32 * NS_PER_S -> Z.abs ppb <= PTP_CLOCK_MAX_PPB ->
  scale_ppb d ppb = Some (Z.quot (d * ppb) NS_PER_S).
Proof.
  unfold scale_ppb, NS_PER_S, PTP_CLOCK_MAX_PPB. intros Hd Hp.
  pose proof (quot_bounds d 1000000000 (2 ^ 32) ltac:(lia) Hd).
  pose proof (Z.rem_bound_abs d 1000000000 ltac:(lia)).
  assert (Z.abs (Z.quot d 1000000000 * ppb) <= 2 ^ 32 * 500000) by nia.
  assert (Z.abs (Z.rem d 1000000000 * ppb) <= 1000000000 * 500000) by nia.
  pose proof (quot_le_abs (Z.rem d 1000000000 * ppb) 1000000000 ltac:(lia)).
  ck_steps.
  rewrite s64_ok; rewrite <- quot_split by lia; [done|].
  pose proof (quot_le_abs (d * ppb) 1000000000 ltac:(lia)). rewrite quot_split by lia. lia.
Qed.

Lemma elapsed_bound c cnt : hw_ok -> in_span c cnt -> Z.abs (elapsed_ns c cnt) <= 2 ^ 32 * NS_PER_S.
Proof. intros [Hf _] Hs. unfold in_span in Hs. apply quot_bounds; [lia|]. unfold NS_PER_S. nia. Qed.

Lemma slew_bound d ppb :
  Z.abs d <= 2 ^ 32 * NS_PER_S -> Z.abs ppb <= PTP_CLOCK_MAX_PPB ->
  Z.abs (Z.quot (d * ppb) NS_PER_S) <= 2 ^ 32 * PTP_CLOCK_MAX_PPB.
Proof. unfold NS_PER_S, PTP_CLOCK_MAX_PPB. intros. apply quot_bounds; [lia|]. nia. Qed.

Lemma from_cnt_exact c cnt :
  hw_ok -> clock_ok c -> in_span c cnt -> ptp_clock_from_cnt c cnt = Some (model_ns c cnt).
Proof.
  intros Hw [Hb Hp] Hs. unfold ptp_clock_from_cnt. fold (since c cnt).
  rewrite ticks_to_ns_exact by done. fold (elapsed_ns c cnt). rewrite obind_some.
  pose proof (elapsed_bound c cnt Hw Hs) as He. pose proof (slew_bound _ _ He Hp) as Hq.
  unfold base_limit, PTP_CLOCK_MAX_PPB, NS_PER_S in *. ck_step.
  rewrite scale_ppb_exact by done. rewrite obind_some. unfold NS_PER_S. rewrite s64_ok by lia. done.
Qed.

Lemma model_bound c cnt :
  hw_ok -> clock_ok c -> in_span c cnt -> Z.abs (model_ns c cnt) <= 8800000000000000000.
Proof.
  intros Hw [Hb Hp] Hs. pose proof (elapsed_bound c cnt Hw Hs) as He. pose proof (slew_bound _ _ He Hp) as Hq.
  unfold model_ns, base_limit, PTP_CLOCK_MAX_PPB, NS_PER_S in *. lia.
Qed.

Lemma quot_error x f : 0 < f -> Z.abs (f * Z.quot x f - x) < f.
Proof. intros. pose proof (Z.quot_rem' x f). pose proof (Z.rem_bound_abs x f ltac:(lia)). lia. Qed.

(** C21: between two adjustments the disciplined clock never runs backwards:
    for any two counter samples within 2^32 s of the anchor, the later one is
    given at least the earlier one's time, no intermediate result overflows,
    and the slope differs from the counter's by at most 500 ppm (up to the
    2 ns of the two truncations). *)
Theorem clock_never_runs_back (c : PtpClock) (c1 c2 : Z) :
  hw_ok -> clock_ok c -> in_span c c1 -> in_span c c2 -> since c c1 <= since c c2 ->
  exists t1 t2, ptp_clock_from_cnt c c1 = Some t1 /\ ptp_clock_from_cnt c c2 = Some t2 /\
    t1 <= t2 /\
    let d := elapsed_ns c c2 - elapsed_ns c c1 in
    NS_PER_S * Z.abs (t2 - t1 - d) <= PTP_CLOCK_MAX_PPB * d + 2 * NS_PER_S.
Proof.
  intros Hw Hc H1 H2 Hle. exists (model_ns c c1), (model_ns c c2).
  rewrite !from_cnt_exact by done. do 2 (split; [done|]). unfold model_ns.
  destruct Hc as [_ Hp], Hw as [Hf _].
  assert (elapsed_ns c c1 <= elapsed_ns c c2) as He.
  { apply quot_mono; [lia|]. unfold NS_PER_S. nia. }
  set (d1 := elapsed_ns c c1) in *. set (d2 := elapsed_ns c c2) in *. set (p := s_ppb c) in *.
  unfold PTP_CLOCK_MAX_PPB, NS_PER_S in *. clearbody d1 d2 p. clear -He Hp. split.
  - destruct (Z.le_ge_cases 0 p).
    + pose proof (quot_mono (d1 * p) (d2 * p) 1000000000 ltac:(lia) ltac:(nia)). lia.
    + pose proof (quot_add_le (d1 * - p) (d2 - d1) 1000000000 ltac:(lia) ltac:(lia)).
      pose proof (quot_mono (d2 * - p) (d1 * - p + (d2 - d1) * 1000000000) 1000000000 ltac:(lia) ltac:(nia)).
      rewrite !Z.mul_opp_r, !Z.quot_opp_l in * by lia. lia.
  - pose proof (quot_error (d1 * p) 1000000000 ltac:(lia)).
    pose proof (quot_error (d2 * p) 1000000000 ltac:(lia)).
    set (q1 := Z.quot (d1 * p) 1000000000) in *. set (q2 := Z.quot (d2 * p) 1000000000) in *. clearbody q1 q2.
    assert (Z.abs ((d2 - d1) * p) <= 500000 * (d2 - d1)) by nia. lia.
Qed.

Definition clamp_freq (ppb : Z) : Z := Z.max (- PTP_CLOCK_MAX_PPB) (Z.min PTP_CLOCK_MAX_PPB ppb).

Lemma rebase_run c :
  hw_ok -> clock_ok c -> in_span c (counter (reads c)) ->
  rebase c = Some (tt, mkClock (counter (reads c)) (model_ns c (counter (reads c))) (s_ppb c) (s_epoch c) (S (reads c))).
Proof.
  intros Hw Hc Hs. unfold rebase, ptp_clock_read_cnt, gets, modify, get_opt, mbind, M_bind, mret, M_ret.
  rewrite (from_cnt_exact (mkClock _ _ _ _ _) _ Hw Hc Hs). done.
Qed.

Lemma model_anchor cnt ns ppb e r : 0 < cnt_freq -> model_ns (mkClock cnt ns ppb e r) cnt = ns.
Proof.
  intros Hf. unfold model_ns, elapsed_ns, since. cbn [s_base_cnt s_base_ns s_ppb]. rewrite Z.sub_diag.
  change (i64 (u64 0)) with 0. rewrite Z.mul_0_l, Z.quot_0_l by lia.
  rewrite Z.mul_0_l. change (Z.quot 0 NS_PER_S) with 0. lia.
Qed.

(** adjusting the frequency never moves the time: at the instant of the
    adjustment the clock reads the same before and after, with the requested
    frequency clamped to 500 ppm; a step moves the time by exactly the
    requested amount and starts a new epoch, keeping the frequency. *)
Theorem clock_adjust_continuous (c : PtpClock) (ppb delta : Z) :
  hw_ok -> clock_ok c -> in_span c (counter (reads c)) ->
  Z.abs (model_ns c (counter (reads c))) <= base_limit ->
  Z.abs (model_ns c (counter (reads c)) + delta) <= base_limit ->
  let now := counter (reads c) in
  exists t, ptp_clock_from_cnt c now = Some t /\
    (exists c', ptp_clock_adjfreq ppb c = Some (tt, c') /\ clock_ok c' /\
      ptp_clock_from_cnt c' now = Some t /\
      ptp_clock_get_freq c' = clamp_freq ppb /\ ptp_clock_epoch c' = ptp_clock_epoch c) /\
    (exists c', ptp_clock_step delta c = Some (tt, c') /\ clock_ok c' /\
      ptp_clock_from_cnt c' now = Some (t + delta) /\
      ptp_clock_get_freq c' = ptp_clock_get_freq c /\ ptp_clock_epoch c' = u32 (ptp_clock_epoch c + 1)).
Proof.
  intros Hw Hc Hs Hm Hd now. assert (0 < cnt_freq) as Hf by (destruct Hw as [Hw _]; lia).
  exists (model_ns c now). split; [by apply from_cnt_exact|].
  assert (forall ns p e r, in_span (mkClock now ns p e r) now) as Hspan.
  { intros. unfold in_span, since. cbn [s_base_cnt]. rewrite Z.sub_diag. change (i64 (u64 0)) with 0. simpl Z.abs. lia. }
  split.
  - unfold ptp_clock_adjfreq. rewrite (bind_eq _ _ _ _ _ (rebase_run c Hw Hc Hs)).
    set (p := if _ <? _ then _ else _).
    assert (p = clamp_freq ppb) as Ep.
    { unfold p, clamp_freq, PTP_CLOCK_MAX_PPB. repeat case_match; lia. }
    eexists. split; [reflexivity|]. cbn [s_base_cnt s_base_ns s_ppb s_epoch reads].
    assert (clock_ok (mkClock now (model_ns c now) p (s_epoch c) (S (reads c)))) as Hok.
    { split; cbn [s_base_ns s_ppb]; [done|]. rewrite Ep. unfold clamp_freq, PTP_CLOCK_MAX_PPB. lia. }
    split; [done|]. rewrite from_cnt_exact by done. rewrite model_anchor by apply Hf. done.
  - unfold ptp_clock_step. rewrite (bind_eq _ _ _ _ _ (rebase_run c Hw Hc Hs)).
    unfold gets, modify, of_opt, get_opt, mbind, M_bind. cbn [s_base_cnt s_base_ns s_ppb s_epoch reads].
    rewrite s64_ok by (unfold base_limit in *; lia).
    eexists. split; [reflexivity|].
    assert (clock_ok (mkClock now (model_ns c now + delta) (s_ppb c) (u32 (s_epoch c + 1)) (S (reads c)))) as Hok.
    { split; cbn [s_base_ns s_ppb]; [done|]. apply Hc. }
    split; [done|]. rewrite from_cnt_exact by done. rewrite model_anchor by apply Hf. done.
Qed.

End exact.

(** The Raspberry Pi's 54 MHz counter, read once per second. *)
Definition demo_hw : PtpHw := {| cnt_freq := 54000000; counter := fun n => u64 (54000000 * Z.of_nat n) |}.
Lemma demo_hw_ok : @hw_ok demo_hw.
Proof. split; [done|]. intros n. apply wrapu_range. lia. Qed.

(** A clock anchored at tick 1000, running 100 ppm slow. *)
Definition demo_clock : PtpClock := mkClock 1000 1700000000000000000 (-100000) 2 3.

Lemma clock_never_runs_back_witness :
  exists t1 t2, @ptp_clock_from_cnt demo_hw demo_clock 54000000 = Some t1 /\
    @ptp_clock_from_cnt demo_hw demo_clock 108000000 = Some t2 /\ t1 <= t2.
Proof.
  destruct (@clock_never_runs_back demo_hw demo_clock 54000000 108000000) as (t1 & t2 & H1 & H2 & H3 & _);
    [apply demo_hw_ok|by split|done..|].
  exists t1, t2. split; [exact H1|split; [exact H2|exact H3] ].
Defined.

Lemma clock_adjust_continuous_witness :
  exists t, @ptp_clock_from_cnt demo_hw demo_clock 162000000 = Some t /\
    exists c', @ptp_clock_adjfreq demo_hw 900000 demo_clock = Some (tt, c') /\ ptp_clock_get_freq c' = 500000.
Proof.
  destruct (@clock_adjust_continuous demo_hw demo_clock 900000 (-5000)) as (t & Ht & (c' & Hc & _ & _ & Hf & _) & _);
    [apply demo_hw_ok|by split|done..|].
  exists t. split; [exact Ht|]. exists c'. split; [exact Hc|exact Hf].
Defined.
