(* ===== verification/PtpServo.v ===== *)
(** * The PTP clock servo (src/port/ptp/ptp_servo.c)

    The integer PI controller as the code has it: the servo record is passed
    and returned, the clock it steers is the state.  64-bit signed operations
    are checked. *)

From S2P Require Import Prelude CInt PtpTime PtpClock.

Definition PTP_SERVO_STEP_NS : Z := 1000000.
Definition PTP_SERVO_OUTLIERS : Z := 3.
Definition KP_NUM : Z := 3.
Definition KP_DEN : Z := 10.
Definition KI_NUM : Z := 1.
Definition KI_DEN : Z := 20.

Inductive PtpServoState := PTP_SERVO_UNLOCKED | PTP_SERVO_STEPPED | PTP_SERVO_LOCKED.
#[global] Instance PtpServoState_eq : EqDecision PtpServoState.
Proof. solve_decision. Defined.

Record PtpServo := mkServo {
  state : PtpServoState; drift_ppb : Z; ref_cnt : Z; ref_raw : Z; last_cnt : Z; outliers : Z }.

Definition set_state v s := mkServo v (drift_ppb s) (ref_cnt s) (ref_raw s) (last_cnt s) (outliers s).
Definition set_drift v s := mkServo (state s) v (ref_cnt s) (ref_raw s) (last_cnt s) (outliers s).
Definition set_ref c r s := mkServo (state s) (drift_ppb s) c r (last_cnt s) (outliers s).
Definition set_last v s := mkServo (state s) (drift_ppb s) (ref_cnt s) (ref_raw s) v (outliers s).
Definition set_outliers v s := mkServo (state s) (drift_ppb s) (ref_cnt s) (ref_raw s) (last_cnt s) v.

Definition abs64 (v : Z) : option Z := if v <? 0 then s64 (- v) else Some v.

Definition clamp_ppb (v : Z) : Z :=
  if PTP_CLOCK_MAX_PPB <? v then PTP_CLOCK_MAX_PPB
  else if v <? - PTP_CLOCK_MAX_PPB then - PTP_CLOCK_MAX_PPB else v.

Definition ptp_servo_init : PtpServo := mkServo PTP_SERVO_UNLOCKED 0 0 0 0 0.

Definition ptp_servo_state_name (st : PtpServoState) : string :=
  match st with
  | PTP_SERVO_UNLOCKED => "UNLOCKED" | PTP_SERVO_STEPPED => "STEPPED" | PTP_SERVO_LOCKED => "LOCKED"
  end.

Section servo.
Context {HW : PtpHw}.

Definition span_ns (from to : Z) : Z :=
  let f := ptp_clock_cnt_freq in
  let dt := u64 (to - from) in
  if f =? 0 then 0
  else i64 (u64 (u64 (dt / f * NS_PER_S) + u64 (dt mod f * NS_PER_S) / f)).

Definition do_step (s : PtpServo) (raw_ns d rx_cnt : Z) : M PtpClock PtpServo :=
  offset ← of_opt (s64 (raw_ns - d));
  neg ← of_opt (s64 (- offset));
  ptp_clock_step neg;;
  mret (set_ref rx_cnt d s).

Definition ptp_servo_sample (s : PtpServo) (raw_ns delay_ns rx_cnt : Z) : M PtpClock (Z * PtpServo) :=
  let d := if 0 <=? delay_ns then delay_ns else 0 in
  offset ← of_opt (s64 (raw_ns - d));
  match state s with
  | PTP_SERVO_UNLOCKED =>
      s ← do_step s raw_ns d rx_cnt;
      mret (offset, set_state PTP_SERVO_STEPPED s)
  | PTP_SERVO_STEPPED =>
      let T := span_ns (ref_cnt s) rx_cnt in
      if T <? NS_PER_S / 8 then mret (offset, s)
      else
        diff ← of_opt (s64 (raw_ns - ref_raw s));
        prod ← of_opt (s64 (diff * NS_PER_S));
        slope ← of_opt (cquot 64 prod T);
        freq ← gets ptp_clock_get_freq;
        drift ← of_opt (s64 (slope - freq));
        let s := set_drift (clamp_ppb drift) s in
        neg ← of_opt (s64 (- drift_ppb s));
        ptp_clock_adjfreq (i32 (clamp_ppb neg));;
        if 0 <=? delay_ns then
          s ← do_step s raw_ns d rx_cnt;
          mret (offset, set_last rx_cnt (set_state PTP_SERVO_LOCKED s))
        else mret (offset, set_ref rx_cnt raw_ns s)
  | PTP_SERVO_LOCKED =>
      ao ← of_opt (abs64 offset);
      if PTP_SERVO_STEP_NS <? ao then
        let s := set_outliers (u32 (outliers s + 1)) s in
        if PTP_SERVO_OUTLIERS <=? outliers s then
          s ← do_step (set_outliers 0 s) raw_ns d rx_cnt;
          mret (offset, set_state PTP_SERVO_STEPPED s)
        else mret (offset, s)
      else
        let s := set_outliers 0 s in
        let T := span_ns (last_cnt s) rx_cnt in
        let s := set_last rx_cnt s in
        let T := if (T <=? 0) || (8 * NS_PER_S <? T) then NS_PER_S else T in
        p1 ← of_opt (s64 (offset * KP_NUM));
        p2 ← of_opt (s64 (p1 * NS_PER_S));
        pd ← of_opt (s64 (KP_DEN * T));
        p ← of_opt (cquot 64 p2 pd);
        i1 ← of_opt (s64 (offset * KI_NUM));
        i2 ← of_opt (s64 (i1 * NS_PER_S));
        idn ← of_opt (s64 (KI_DEN * T));
        i ← of_opt (cquot 64 i2 idn);
        drift ← of_opt (s64 (drift_ppb s + i));
        let s := set_drift (clamp_ppb drift) s in
        sum ← of_opt (s64 (drift_ppb s + p));
        neg ← of_opt (s64 (- sum));
        ptp_clock_adjfreq (i32 (clamp_ppb neg));;
        mret (offset, s)
  end.

End servo.

(** ** Behaviour of one sample *)

Section behaviour.
Context {HW : PtpHw}.
Implicit Types c : PtpClock.
Implicit Types s : PtpServo.

(** The times at the next two reads of the counter. *)
Definition next_cnt c : Z := counter (reads c).
Definition next_ns c : Z := model_ns c (next_cnt c).

(** About 139 years: what the servo leaves for its own corrections. *)
Definition time_limit : Z := 4400000000000000000.

(** The clock is within range at the next read, and two reads made by one
    call are less than a second apart. *)
Definition steady c : Prop :=
  hw_ok /\ clock_ok c /\ in_span c (next_cnt c) /\ Z.abs (next_ns c) <= time_limit /\
  u64 (counter (S (reads c)) - next_cnt c) <= cnt_freq.

Definition servo_ok s : Prop :=
  Z.abs (drift_ppb s) <= PTP_CLOCK_MAX_PPB /\ 0 <= outliers s < PTP_SERVO_OUTLIERS.

Lemma clamp_ppb_bound v : Z.abs (clamp_ppb v) <= PTP_CLOCK_MAX_PPB.
Proof. unfold clamp_ppb, PTP_CLOCK_MAX_PPB. repeat case_match; lia. Qed.
Lemma clamp_ppb_freq v : clamp_freq (i32 (clamp_ppb v)) = clamp_ppb v.
Proof.
  pose proof (clamp_ppb_bound v) as H. unfold clamp_freq, PTP_CLOCK_MAX_PPB in *. rewrite i32_ok by lia. lia.
Qed.
Lemma clamp_ppb_neg v : clamp_ppb (- clamp_ppb v) = - clamp_ppb v.
Proof. pose proof (clamp_ppb_bound v) as H. unfold clamp_ppb at 1. unfold PTP_CLOCK_MAX_PPB in *. repeat case_match; lia. Qed.

(** The clock after a step and after a frequency adjustment. *)
Definition stepped c (delta : Z) : PtpClock :=
  mkClock (next_cnt c) (next_ns c + delta) (s_ppb c) (u32 (s_epoch c + 1)) (S (reads c)).
Definition slewed c (ppb : Z) : PtpClock :=
  mkClock (next_cnt c) (next_ns c) ppb (s_epoch c) (S (reads c)).

Definition step_pre c (delta : Z) : Prop :=
  hw_ok /\ clock_ok c /\ in_span c (next_cnt c) /\ Z.abs (next_ns c + delta) <= base_limit.

Lemma step_run c delta : step_pre c delta -> ptp_clock_step delta c = Some (tt, stepped c delta).
Proof.
  intros (Hw & Hc & Hs & Hb). unfold ptp_clock_step. rewrite (bind_eq _ _ _ _ _ (rebase_run c Hw Hc Hs)).
  unfold gets, modify, of_opt, get_opt, mbind, M_bind. cbn [s_base_cnt s_base_ns s_ppb s_epoch reads].
  fold (next_cnt c). fold (next_ns c). rewrite s64_ok by (unfold base_limit in *; lia). done.
Qed.
Lemma adjfreq_run c ppb :
  hw_ok -> clock_ok c -> in_span c (next_cnt c) ->
  ptp_clock_adjfreq ppb c = Some (tt, slewed c (clamp_freq ppb)).
Proof.
  intros Hw Hc Hs. unfold ptp_clock_adjfreq. rewrite (bind_eq _ _ _ _ _ (rebase_run c Hw Hc Hs)).
  unfold modify, slewed. cbn [s_base_cnt s_base_ns s_ppb s_epoch reads]. do 3 f_equal.
  unfold clamp_freq, PTP_CLOCK_MAX_PPB. repeat case_match; lia.
Qed.

Lemma do_step_run s c raw d rx :
  - 9000000000000000000 <= raw - d <= 9000000000000000000 -> step_pre c (- (raw - d)) ->
  do_step s raw d rx c = Some (set_ref rx d s, stepped c (- (raw - d))).
Proof.
  intros Hr Hp. unfold do_step, of_opt, get_opt, mbind, M_bind. rewrite s64_ok by lia. cbn [fmap option_fmap option_map].
  rewrite s64_ok by lia. cbn [fmap option_fmap option_map]. by rewrite (step_run c _ Hp).
Qed.

(** After a frequency adjustment the next step is still in range. *)
Lemma slewed_step c ppb delta :
  steady c -> Z.abs ppb <= PTP_CLOCK_MAX_PPB -> Z.abs (next_ns c + delta) <= time_limit ->
  step_pre (slewed c ppb) delta.
Proof.
  intros (Hw & Hc & Hs & Hb & Hn) Hp Hd. pose proof Hw as [Hf _].
  set (x := u64 (counter (S (reads c)) - next_cnt c)) in *.
  assert (0 <= x) as Hx by apply (wrapu_range 64 _ ltac:(lia)).
  assert (since (slewed c ppb) (next_cnt (slewed c ppb)) = x) as Hsi.
  { change (i64 x = x). apply i64_ok. lia. }
  assert (in_span (slewed c ppb) (next_cnt (slewed c ppb))) as Hspan.
  { unfold in_span. rewrite Hsi. lia. }
  assert (clock_ok (slewed c ppb)) as Hok.
  { split; [|done]. cbn. unfold time_limit, base_limit in *. lia. }
  split; [done|]. split; [done|]. split; [done|].
  unfold next_ns, model_ns. set (e := elapsed_ns _ _).
  assert (Z.abs e <= NS_PER_S) as He.
  { unfold e, elapsed_ns. rewrite Hsi. apply quot_bounds; [lia|]. unfold NS_PER_S. lia. }
  assert (Z.abs (Z.quot (e * ppb) NS_PER_S) <= PTP_CLOCK_MAX_PPB) as Hq.
  { unfold PTP_CLOCK_MAX_PPB, NS_PER_S in *. apply quot_bounds; [lia|]. nia. }
  cbn [slewed s_ppb s_base_ns]. unfold base_limit, time_limit, PTP_CLOCK_MAX_PPB, NS_PER_S in *. lia.
Qed.

(** The inputs one sample may have: a path delay of at most 10 ms (or -1, not
    measured), an offset that leads to a time in range, and, while the slope
    is being measured, a move of less than 9 s since the reference. *)
Definition sample_ok s c (raw delay : Z) : Prop :=
  -1 <= delay <= 10000000 /\ Z.abs raw <= time_limit /\
  Z.abs (next_ns c - (raw - Z.max 0 delay)) <= time_limit /\
  (state s = PTP_SERVO_STEPPED -> Z.abs (raw - ref_raw s) <= 9000000000).

(** The interval the PI gains are scaled by. *)
Definition pi_interval s (rx : Z) : Z :=
  let T := span_ns (last_cnt s) rx in if (T <=? 0) || (8 * NS_PER_S <? T) then NS_PER_S else T.
Lemma pi_interval_range s rx : 0 < pi_interval s rx <= 8000000000.
Proof.
  unfold pi_interval, NS_PER_S. destruct (Z.leb_spec (span_ns (last_cnt s) rx) 0); cbn [orb]; [lia|].
  destruct (Z.ltb_spec (8 * 1000000000) (span_ns (last_cnt s) rx)); lia.
Qed.
Definition pi_p s (offset rx : Z) : Z := Z.quot (offset * KP_NUM * NS_PER_S) (KP_DEN * pi_interval s rx).
Definition pi_i s (offset rx : Z) : Z := Z.quot (offset * KI_NUM * NS_PER_S) (KI_DEN * pi_interval s rx).

(** What one sample does, by the state it finds. *)
Definition sample_effect s c (raw delay rx : Z) s' c' : Prop :=
  let offset := raw - Z.max 0 delay in
  match state s with
  | PTP_SERVO_UNLOCKED =>
      state s' = PTP_SERVO_STEPPED /\ ref_cnt s' = rx /\ c' = stepped c (- offset)
  | PTP_SERVO_STEPPED =>
      let T := span_ns (ref_cnt s) rx in
      if T <? NS_PER_S / 8 then s' = s /\ c' = c
      else
        drift_ppb s' = clamp_ppb (Z.quot ((raw - ref_raw s) * NS_PER_S) T - s_ppb c) /\
        s_ppb c' = - drift_ppb s' /\ ref_cnt s' = rx /\
        if 0 <=? delay
        then state s' = PTP_SERVO_LOCKED /\ s_epoch c' = u32 (s_epoch c + 1) /\
             c' = stepped (slewed c (s_ppb c')) (- offset)
        else state s' = PTP_SERVO_STEPPED /\ c' = slewed c (s_ppb c')
  | PTP_SERVO_LOCKED =>
      if PTP_SERVO_STEP_NS <? Z.abs offset then
        if outliers s + 1 =? PTP_SERVO_OUTLIERS
        then state s' = PTP_SERVO_STEPPED /\ outliers s' = 0 /\ c' = stepped c (- offset)
        else s' = set_outliers (outliers s + 1) s /\ c' = c
      else
        state s' = PTP_SERVO_LOCKED /\ outliers s' = 0 /\ last_cnt s' = rx /\
        drift_ppb s' = clamp_ppb (drift_ppb s + pi_i s offset rx) /\
        c' = slewed c (clamp_ppb (- (drift_ppb s' + pi_p s offset rx)))
  end.

Lemma delay_max delay : -1 <= delay -> (if 0 <=? delay then delay else 0) = Z.max 0 delay.
Proof. intros. destruct (Z.leb_spec 0 delay); lia. Qed.

Lemma stepped_ok c delta : step_pre c delta -> clock_ok (stepped c delta).
Proof. intros (_ & [_ Hp] & _ & Hb). by split. Qed.
Lemma slewed_ok c ppb : steady c -> Z.abs ppb <= PTP_CLOCK_MAX_PPB -> clock_ok (slewed c ppb).
Proof. intros (_ & _ & _ & Hb & _) Hp. split; [|done]. cbn. unfold time_limit, base_limit in *. lia. Qed.
Lemma steady_step c delta : steady c -> Z.abs (next_ns c + delta) <= time_limit -> step_pre c delta.
Proof. intros (Hw & Hc & Hs & _) Hd. do 3 (split; [done|]). unfold time_limit, base_limit in *. lia. Qed.

Lemma sample_stepped s c raw delay rx :
  steady c -> servo_ok s -> sample_ok s c raw delay -> state s = PTP_SERVO_STEPPED ->
  exists s' c', ptp_servo_sample s raw delay rx c = Some ((raw - Z.max 0 delay, s'), c') /\
    servo_ok s' /\ clock_ok c' /\ sample_effect s c raw delay rx s' c'.
Proof.
  intros Hst Hs (Hd & Hr & Hn & Hm) E. unfold ptp_servo_sample, sample_effect. rewrite delay_max, E by lia.
  specialize (Hm E). set (d := Z.max 0 delay) in *. set (T := span_ns (ref_cnt s) rx).
  unfold time_limit, NS_PER_S in *. change (1000000000 / 8) with 125000000.
  run_step. destruct (Z.ltb_spec T 125000000) as [HT|HT].
  { exists s, c. destruct Hst as (_ & Hc & _). done. }
  assert (Z.abs (s_ppb c) <= PTP_CLOCK_MAX_PPB) as Hp by apply Hst.
  pose proof (quot_bounds ((raw - ref_raw s) * 1000000000) T 72000000000 ltac:(lia) ltac:(lia)) as Hq.
  unfold PTP_CLOCK_MAX_PPB in Hp. unfold ptp_clock_get_freq. run_steps.
  set (drift := clamp_ppb (Z.quot ((raw - ref_raw s) * 1000000000) T - s_ppb c)).
  pose proof (clamp_ppb_bound (Z.quot ((raw - ref_raw s) * 1000000000) T - s_ppb c)) as Hdr. fold drift in Hdr.
  cbn [set_drift drift_ppb]. assert (Z.abs drift <= 500000) by done. run_step.
  assert (Z.abs (- drift) <= PTP_CLOCK_MAX_PPB) as Hnd by lia.
  pose proof Hst as (Hw & Hc & Hsp & _).
  rewrite (bind_eq _ _ _ _ _ (adjfreq_run c _ Hw Hc Hsp)), clamp_ppb_freq.
  unfold drift. rewrite clamp_ppb_neg. fold drift.
  destruct (Z.leb_spec 0 delay) as [Hdl|Hdl].
  - assert (step_pre (slewed c (- drift)) (- (raw - d))) as Hpre by (apply slewed_step; try done; unfold time_limit; lia).
    rewrite (bind_eq _ _ _ _ _ (do_step_run _ _ raw d rx ltac:(lia) Hpre)).
    eexists _, _. split; [reflexivity|]. split; [split; [exact Hdr|apply Hs]|].
    split; [by apply stepped_ok|]. done.
  - eexists _, _. split; [reflexivity|]. split; [split; [exact Hdr|apply Hs]|].
    split; [by apply slewed_ok|]. cbn. by rewrite E.
Qed.

Lemma sample_locked s c raw delay rx :
  steady c -> servo_ok s -> sample_ok s c raw delay -> state s = PTP_SERVO_LOCKED ->
  exists s' c', ptp_servo_sample s raw delay rx c = Some ((raw - Z.max 0 delay, s'), c') /\
    servo_ok s' /\ clock_ok c' /\ sample_effect s c raw delay rx s' c'.
Proof.
  intros Hst Hs (Hd & Hr & Hn & _) E. unfold ptp_servo_sample, sample_effect. rewrite delay_max, E by lia.
  set (d := Z.max 0 delay) in *. unfold time_limit in Hr, Hn. run_step. set (offset := raw - d) in *.
  rewrite (opt_run _ (Z.abs offset))
    by (unfold abs64; destruct (Z.ltb_spec offset 0); [rewrite s64_ok by lia|]; f_equal; lia).
  unfold PTP_SERVO_STEP_NS. destruct (Z.ltb_spec 1000000 (Z.abs offset)) as [Ho|Ho].
  - destruct Hs as [Hdr Hout]. unfold PTP_SERVO_OUTLIERS in *. cbn [set_outliers outliers].
    rewrite u32_ok by lia. destruct (Z.leb_spec 3 (outliers s + 1)), (Z.eqb_spec (outliers s + 1) 3); try lia.
    + assert (step_pre c (- offset)) as Hpre by (apply steady_step; [done|unfold time_limit; lia]).
      rewrite (bind_eq _ _ _ _ _ (do_step_run _ _ raw d rx ltac:(lia) Hpre)).
      eexists _, _. split; [reflexivity|]. split; [by split|]. split; [by apply stepped_ok|]. done.
    + eexists _, _. split; [reflexivity|]. split; [split; [done|unfold PTP_SERVO_OUTLIERS; cbn; lia]|].
      split; [apply Hst|]. done.
  - cbn [set_last set_outliers last_cnt drift_ppb]. fold (pi_interval s rx).
    pose proof (pi_interval_range s rx) as HT. set (T := pi_interval s rx) in *.
    unfold KP_NUM, KP_DEN, KI_NUM, KI_DEN, NS_PER_S in *. destruct Hs as [Hdr Hout].
    pose proof (quot_le_abs (offset * 3 * 1000000000) (10 * T) ltac:(lia)).
    pose proof (quot_le_abs (offset * 1 * 1000000000) (20 * T) ltac:(lia)).
    unfold PTP_CLOCK_MAX_PPB in Hdr. run_steps. cbn [set_drift set_last set_outliers drift_ppb].
    change (Z.quot (offset * 1 * 1000000000) (20 * T)) with (pi_i s offset rx).
    change (Z.quot (offset * 3 * 1000000000) (10 * T)) with (pi_p s offset rx) in *.
    set (drift := clamp_ppb (drift_ppb s + pi_i s offset rx)).
    pose proof (clamp_ppb_bound (drift_ppb s + pi_i s offset rx)) as Hb. fold drift in Hb.
    unfold PTP_CLOCK_MAX_PPB in Hb. run_steps.
    pose proof Hst as (Hw & Hc & Hsp & _).
    rewrite (bind_eq _ _ _ _ _ (adjfreq_run c _ Hw Hc Hsp)), clamp_ppb_freq.
    eexists _, _. split; [reflexivity|]. split; [by split|].
    split; [apply slewed_ok; [done|apply clamp_ppb_bound]|]. cbn. by rewrite E.
Qed.

(** one Sync sample makes the servo do exactly what its state calls for,
    without overflow, and keeps the drift estimate and the applied frequency
    within 500 ppm: UNLOCKED steps the clock by the offset; STEPPED waits for
    an eighth of a second, then applies the measured slope and, once the path
    delay is known, steps and locks; LOCKED applies the PI correction, except
    that an offset above 1 ms is ignored, unless it is the third in a row,
    which steps the clock and drops back to STEPPED. *)
Theorem servo_sample_behaviour s c (raw delay rx : Z) :
  steady c -> servo_ok s -> sample_ok s c raw delay ->
  exists s' c', ptp_servo_sample s raw delay rx c = Some ((raw - Z.max 0 delay, s'), c') /\
    servo_ok s' /\ clock_ok c' /\ sample_effect s c raw delay rx s' c'.
Proof.
  intros Hst Hs Hok. destruct (state s) eqn:E; [|by apply sample_stepped|by apply sample_locked].
  destruct Hok as (Hd & Hr & Hn & _). unfold ptp_servo_sample, sample_effect. rewrite delay_max, E by lia.
  set (d := Z.max 0 delay) in *. unfold time_limit in Hr. run_step.
  assert (step_pre c (- (raw - d))) as Hpre by (apply steady_step; [done|lia]).
  rewrite (bind_eq _ _ _ _ _ (do_step_run _ _ raw d rx ltac:(lia) Hpre)).
  eexists _, _. split; [reflexivity|]. split; [exact Hs|]. split; [by apply stepped_ok|]. done.
Qed.

(** While STEPPED, a master that moved by 9.3 s or more since the reference
    overflows the 64-bit slope computation. *)
Lemma servo_slope_overflow s c (raw delay rx : Z) :
  state s = PTP_SERVO_STEPPED -> NS_PER_S / 8 <= span_ns (ref_cnt s) rx ->
  9300000000 <= raw - ref_raw s <= 8000000000000000000 -> 0 <= raw <= 8000000000000000000 ->
  ptp_servo_sample s raw delay rx c = None.
Proof.
  intros E HT Hm Hr. unfold ptp_servo_sample. rewrite E.
  destruct (s64 (raw - (if 0 <=? delay then delay else 0))) as [offset|]; [|reflexivity].
  rewrite (opt_run _ offset) by done.
  destruct (Z.ltb_spec (span_ns (ref_cnt s) rx) (NS_PER_S / 8)); [lia|]. run_step.
  rewrite s64_bad by (unfold NS_PER_S; lia). done.
Qed.

End behaviour.

Lemma servo_sample_behaviour_witness :
  exists s' c', @ptp_servo_sample demo_hw ptp_servo_init 1500000000 (-1) 54000000 clock_boot =
      Some ((1500000000, s'), c') /\ state s' = PTP_SERVO_STEPPED.
Proof.
  destruct (@servo_sample_behaviour demo_hw ptp_servo_init clock_boot 1500000000 (-1) 54000000)
    as (s' & c' & H & _ & _ & He & _).
  - split; [apply demo_hw_ok|]. repeat split; vm_compute; congruence.
  - by split.
  - repeat split; done.
  - exists s', c'. split; [exact H|exact He].
Defined.
