(* ===== verification/Decimal.v ===== *)
(** * Numerals

    The reference for the routines of the repository that print a number: the
    digits of a natural number in a base, least significant first as the
    loops produce them, and the character of a digit.  The value of the
    digits is the number, there is no leading zero, and digits of the same
    value are equal, so a numeral is determined by its number. *)

From S2P Require Import Prelude CInt.

(** The digits of [v] in base [b], least significant first; one for 0. *)
Fixpoint rev_digits (fuel : nat) (b v : Z) : list Z :=
  match fuel with
  | O => []
  | S fuel => v mod b :: (if v / b =? 0 then [] else rev_digits fuel b (v / b))
  end.

(** 64 digits are enough for a 64-bit number in any base from 2 on. *)
Definition digits (b v : Z) : list Z := reverse (rev_digits 64 b v).

Definition digit_char (k : Z) : Z := if k <? 10 then 48 + k else 87 + k.
Definition numeral (b v : Z) : list Z := digit_char <$> digits b v.
Definition signed_numeral (v : Z) : list Z := if v <? 0 then 45 :: numeral 10 (- v) else numeral 10 v.

Fixpoint rev_value (b : Z) (l : list Z) : Z :=
  match l with [] => 0 | d :: l => d + b * rev_value b l end.

Lemma rev_digits_value fuel b v :
  1 < b -> 0 <= v < b ^ Z.of_nat fuel -> rev_value b (rev_digits fuel b v) = v.
Proof.
  intros Hb. revert v. induction fuel as [|fuel IH]; intros v Hv; cbn [rev_digits rev_value]; [simpl in Hv; lia|].
  rewrite Nat2Z.inj_succ, Z.pow_succ_r in Hv by lia. pose proof (Z.div_mod v b ltac:(lia)).
  destruct (Z.eqb_spec (v / b) 0) as [E|E]; cbn [rev_value].
  - rewrite E in *. lia.
  - rewrite IH; [lia|]. split; [apply Z.div_pos; lia|]. apply Z.div_lt_upper_bound; lia.
Qed.

Lemma rev_digits_range fuel b v : 1 < b -> Forall (fun d => 0 <= d < b) (rev_digits fuel b v).
Proof.
  intros Hb. revert v. induction fuel as [|fuel IH]; intros v; [constructor|]. cbn [rev_digits].
  constructor; [apply Z.mod_pos_bound; lia|]. case_match; [constructor|apply IH].
Qed.

(** The number of digits is bounded by the size of the number. *)
Lemma rev_digits_length fuel b v n :
  1 < b -> 0 <= v < b ^ Z.of_nat (S n) -> (length (rev_digits fuel b v) <= S n)%nat.
Proof.
  intros Hb. revert v n. induction fuel as [|fuel IH]; intros v n Hv; cbn [rev_digits length]; [lia|].
  destruct (Z.eqb_spec (v / b) 0) as [E|E]; cbn [length]; [lia|].
  destruct n as [|n].
  - exfalso. apply E. apply Z.div_small. rewrite Z.pow_1_r in Hv. lia.
  - apply le_n_S, IH. rewrite Nat2Z.inj_succ, Z.pow_succ_r in Hv by lia.
    split; [apply Z.div_pos; lia|]. apply Z.div_lt_upper_bound; lia.
Qed.

(** More fuel does not change the digits. *)
Lemma rev_digits_fuel fuel fuel' b v :
  1 < b -> 0 <= v < b ^ Z.of_nat fuel -> (fuel <= fuel')%nat -> 0 < v \/ (0 < fuel)%nat ->
  rev_digits fuel' b v = rev_digits fuel b v.
Proof.
  intros Hb. revert fuel' v. induction fuel as [|fuel IH]; intros fuel' v Hv Hf Hp; [simpl in Hv; lia|].
  destruct fuel' as [|fuel']; [lia|]. cbn [rev_digits]. f_equal.
  destruct (Z.eqb_spec (v / b) 0) as [E|E]; [done|].
  rewrite Nat2Z.inj_succ, Z.pow_succ_r in Hv by lia.
  assert (0 <= v / b) by (apply Z.div_pos; lia).
  apply IH; [|lia|lia]. split; [done|]. apply Z.div_lt_upper_bound; lia.
Qed.

Lemma rev_value_app b l l' :
  rev_value b (l ++ l') = rev_value b l + b ^ Z.of_nat (length l) * rev_value b l'.
Proof.
  induction l as [|d l IH]; cbn [rev_value app length]; [lia|].
  rewrite IH, Nat2Z.inj_succ, Z.pow_succ_r by lia. lia.
Qed.

(** A numeral read back, most significant digit first. *)
Definition char_digit (c : Z) : Z := if c <? 58 then c - 48 else c - 87.
Definition numeral_value (b : Z) (l : list Z) : Z := rev_value b (reverse (char_digit <$> l)).

Lemma char_digit_char k : 0 <= k -> char_digit (digit_char k) = k.
Proof. intros. unfold digit_char, char_digit. repeat case_match; lia. Qed.

Lemma numeral_read b v :
  1 < b -> in_u 64 v -> numeral_value b (numeral b v) = v.
Proof.
  intros Hb Hv. unfold numeral_value, numeral, digits. rewrite <- !fmap_reverse, reverse_involutive.
  rewrite <- list_fmap_compose.
  rewrite (list_fmap_ext _ id).
  - rewrite list_fmap_id. apply rev_digits_value; [done|]. unfold in_u in Hv.
    assert (2 ^ 64 <= b ^ Z.of_nat 64); [|lia]. apply Z.pow_le_mono_l. lia.
  - intros i k Hk. simpl. apply char_digit_char.
    pose proof (rev_digits_range 64 b v Hb) as Hr. rewrite Forall_lookup in Hr.
    specialize (Hr i k Hk). lia.
Qed.

Lemma numeral_chars b v : 1 < b <= 16 -> Forall (fun c => 48 <= c <= 57 \/ 97 <= c <= 102) (numeral b v).
Proof.
  intros Hb. unfold numeral, digits. rewrite Forall_fmap. apply Forall_reverse.
  eapply Forall_impl; [apply rev_digits_range; lia|]. intros k Hk. unfold compose, digit_char; cbn beta in *. destruct (Z.ltb_spec k 10); lia.
Qed.
Lemma numeral_length b v n :
  1 < b -> 0 <= v < b ^ Z.of_nat (S n) -> (0 < length (numeral b v) <= S n)%nat.
Proof.
  intros Hb Hv. unfold numeral, digits. rewrite length_fmap, length_reverse.
  split; [cbn [rev_digits length]; lia|]. by apply rev_digits_length.
Qed.

(** ** Writing the digits out, most significant first *)

(** [while (n > 0) buf[o++] = tmp[--n]], for the [n] digits of [tmp]. *)
Fixpoint put_back (buf : list Z) (o : Z) (rev_tmp : list Z) : option (list Z * Z) :=
  match rev_tmp with
  | [] => Some (buf, o)
  | c :: rest => buf ← wrb buf o c; put_back buf (o + 1) rest
  end.
Lemma put_back_blit l buf o :
  0 <= o -> o + Z.of_nat (length l) <= Z.of_nat (length buf) ->
  put_back buf o l = Some (blit buf (Z.to_nat o) l, o + Z.of_nat (length l)).
Proof.
  revert buf o. induction l as [|c l IH]; intros buf o Ho Hl; cbn [put_back length].
  - do 2 f_equal; [|lia]. unfold blit. cbn [length app]. by rewrite Nat.add_0_r, take_drop.
  - cbn [length] in Hl. rewrite wrb_blit, obind_some by lia.
    rewrite IH by (rewrite ?blit_length; cbn [length]; lia). do 2 f_equal; [|lia].
    replace (Z.to_nat (o + 1)) with (Z.to_nat o + length [c])%nat by (cbn; lia).
    rewrite blit_after; [done|]. cbn [length]. lia.
Qed.
