(* ===== verification/PtpUtil.v ===== *)
(** * Helpers of the PTP engine (the freestanding part of src/port/ptp/ptp_core.c)

    Wire-field readers, byte comparison, number formatting, the integer square
    root and the calendar of the log.  The loops carry fuel equal to the number
    of iterations their types allow. *)

From S2P Require Import Prelude CInt Decimal PtpTime PtpMsg.

Definition rd16 (p : list Z) (o : Z) : option Z :=
  a ← rdb p o; b ← rdb p (o + 1); Some (u16 (Z.lor (Z.shiftl a 8) b)).
Definition rd32 (p : list Z) (o : Z) : option Z :=
  a ← rdb p o; b ← rdb p (o + 1); c ← rdb p (o + 2); d ← rdb p (o + 3);
  Some (Z.lor (Z.lor (Z.lor (u32 (Z.shiftl a 24)) (u32 (Z.shiftl b 16))) (u32 (Z.shiftl c 8))) d).

(** A 10-byte timestamp as nanoseconds. *)
Definition rd_ts_ns (p : list Z) (o : Z) : option Z :=
  secs ← be_loop p o 6 0;
  a ← s64 (i64 secs * NS_PER_S);
  n ← rd32 p (o + 6);
  s64 (a + n).

(** The correction field, in whole nanoseconds. *)
Definition rd_corr_ns (hdr : list Z) : option Z :=
  v ← be_loop hdr 8 8 0; Some (Z.quot (i64 v) 65536).

Fixpoint cmp_loop (a : list Z) (oa : Z) (b : list Z) (ob : Z) (n : nat) : option Z :=
  match n with
  | O => Some 0
  | S n =>
      x ← rdb a oa; y ← rdb b ob;
      if negb (x =? y) then Some (if x <? y then -1 else 1) else cmp_loop a (oa + 1) b (ob + 1) n
  end.
(** [cmp_bytes(&a[oa], &b[ob], n)]. *)
Definition cmp_bytes (a : list Z) (oa : Z) (b : list Z) (ob n : Z) : option Z :=
  cmp_loop a oa b ob (Z.to_nat n).

(** [copy_bytes(d, &s[o], n)] into an array of [n] bytes. *)
Definition copy_bytes (s : list Z) (o n : Z) : option (list Z) := read_loop s o (Z.to_nat n).

(** [do { tmp[n++] = '0' + u % 10; u /= 10; } while (u != 0 && n < 24)]. *)
Fixpoint i64s_digits (fuel : nat) (tmp : list Z) (u : Z) : list Z :=
  match fuel with
  | O => tmp
  | S fuel =>
      let tmp := tmp ++ [48 + u mod 10] in
      let u := u / 10 in
      if negb (u =? 0) && (Z.of_nat (length tmp) <? 24) then i64s_digits fuel tmp u else tmp
  end.
Definition i64s (v : Z) (buf : list Z) : option (list Z) :=
  neg ← (if v <? 0 then t ← s64 (v + 1); s64 (- t) else Some v);
  let u := if v <? 0 then u64 (neg + 1) else neg in
  let tmp := i64s_digits 24 [] u in
  buf_o ← (if v <? 0 then b ← wrb buf 0 45; Some (b, 1) else Some (buf, 0));
  buf_o ← put_back buf_o.1 buf_o.2 (reverse tmp);
  wrb buf_o.1 buf_o.2 0.

(** [while (bit > x) bit >>= 2]. *)
Fixpoint isqrt_start (fuel : nat) (bit x : Z) : option Z :=
  match fuel with
  | O => None
  | S fuel => if x <? bit then isqrt_start fuel (Z.shiftr bit 2) x else Some bit
  end.
Fixpoint isqrt_loop (fuel : nat) (bit x r : Z) : option Z :=
  match fuel with
  | O => None
  | S fuel =>
      if bit =? 0 then Some r
      else if u64 (r + bit) <=? x
      then isqrt_loop fuel (Z.shiftr bit 2) (u64 (x - u64 (r + bit))) (u64 (Z.shiftr r 1 + bit))
      else isqrt_loop fuel (Z.shiftr bit 2) x (Z.shiftr r 1)
  end.
Definition isqrt64 (x : Z) : option Z :=
  bit ← isqrt_start 33 (2 ^ 62) x; isqrt_loop 33 bit x 0.

(** ** The calendar *)

(** [for (i = width; i > 0; i--) { p[i - 1] = '0' + v % 10; v /= 10; }], at offset [o]. *)
Fixpoint put_num (p : list Z) (o v : Z) (width : nat) : option (list Z) :=
  match width with
  | O => Some p
  | S w => p ← wrb p (o + Z.of_nat w) (48 + v mod 10); put_num p o (v / 10) w
  end.

(** The date of day [z] after 1970-01-01.  All magnitudes stay below 2^40:
    [z] is a 64-bit nanosecond count divided by a day. *)
Definition civil_from_days (z : Z) : Z * Z * Z :=
  let zz := z + 719468 in
  let era := Z.quot (if 0 <=? zz then zz else zz - 146096) 146097 in
  let doe := zz - era * 146097 in
  let yoe := Z.quot (doe - Z.quot doe 1460 + Z.quot doe 36524 - Z.quot doe 146096) 365 in
  let y := yoe + era * 400 in
  let doy := doe - (365 * yoe + Z.quot yoe 4 - Z.quot yoe 100) in
  let mp := Z.quot (5 * doy + 2) 153 in
  let d := doy - Z.quot (153 * mp + 2) 5 + 1 in
  let m := if mp <? 10 then mp + 3 else mp - 9 in
  ((if m <=? 2 then y + 1 else y), m, d).

(** Seconds, nanoseconds within the second, day and second of the day. *)
Definition split_utc (utc_ns : Z) : Z * Z * Z :=
  let secs := Z.quot utc_ns NS_PER_S in
  let ns := Z.rem utc_ns NS_PER_S in
  let '(ns, secs) := if ns <? 0 then (ns + NS_PER_S, secs - 1) else (ns, secs) in
  let z := if 0 <=? secs then Z.quot secs 86400 else Z.quot (secs - 86399) 86400 in
  (z, secs - z * 86400, ns).

Definition ptp_format_utc (utc_ns : Z) (buf : list Z) : option (list Z) :=
  let '(z, sod, ns) := split_utc utc_ns in
  let '(y, m, d) := civil_from_days z in
  buf ← put_num buf 0 (u32 y) 4; buf ← wrb buf 4 45;
  buf ← put_num buf 5 (u32 m) 2; buf ← wrb buf 7 45;
  buf ← put_num buf 8 (u32 d) 2; buf ← wrb buf 10 32;
  buf ← put_num buf 11 (u32 (Z.quot sod 3600)) 2; buf ← wrb buf 13 58;
  buf ← put_num buf 14 (u32 (Z.rem (Z.quot sod 60) 60)) 2; buf ← wrb buf 16 58;
  buf ← put_num buf 17 (u32 (Z.rem sod 60)) 2; buf ← wrb buf 19 46;
  buf ← put_num buf 20 (u32 (Z.quot ns 1000)) 6; wrb buf 26 0.

Example format_epoch :
  ptp_format_utc (1700000000 * 1000000000 + 123456789) (replicate 28 0) =
  Some ([50;48;50;51;45;49;49;45;49;52;32;50;50;58;49;51;58;50;48;46;49;50;51;52;53;54;0;0]).
Proof. vm_compute. reflexivity. Qed.

(** ** The square root *)

Lemma pow4 n : 4 ^ n = 2 ^ n * 2 ^ n.
Proof. change 4 with (2 * 2). apply Z.pow_mul_l. Qed.

Lemma shiftr_pow4 n : Z.shiftr (4 ^ Z.of_nat (S n)) 2 = 4 ^ Z.of_nat n.
Proof.
  rewrite Z.shiftr_div_pow2, Nat2Z.inj_succ, Z.pow_succ_r by lia. change (2 ^ 2) with 4.
  rewrite Z.mul_comm, Z.div_mul by lia. done.
Qed.

(** The bit of the [n]-th round from the end, and the loop invariant: [a] is
    the part of the root found so far. *)
Definition round_bit (n : nat) : Z := match n with O => 0 | S n => 4 ^ Z.of_nat n end.
Lemma round_bit_shift n : Z.shiftr (round_bit (S n)) 2 = round_bit n.
Proof. destruct n as [|n]; [done|]. apply shiftr_pow4. Qed.

Lemma isqrt_loop_sqrt n fuel X x r a :
  (n < fuel)%nat -> a + 2 ^ Z.of_nat n <= 2 ^ 32 -> in_u 64 X -> 0 <= a -> r = a * 2 ^ Z.of_nat n -> x = X - a * a -> 0 <= x ->
  X < (a + 2 ^ Z.of_nat n) * (a + 2 ^ Z.of_nat n) ->
  isqrt_loop fuel (round_bit n) x r = Some (Z.sqrt X).
Proof.
  revert fuel x r a. induction n as [|n IH]; intros fuel x r a Hf Hn HX Ha -> -> Hx Hlt;
    (destruct fuel as [|fuel]; [lia|]); cbn [isqrt_loop].
  - simpl. f_equal. symmetry. apply Z.sqrt_unique. rewrite Z.pow_0_r in Hlt. lia.
  - rewrite round_bit_shift. cbn [round_bit].
    assert (0 < 2 ^ Z.of_nat n) by (apply Z.pow_pos_nonneg; lia).
    destruct (Z.eqb_spec (4 ^ Z.of_nat n) 0) as [E|_]; [rewrite pow4 in E; nia|].
    set (b := 2 ^ Z.of_nat n) in *.
    rewrite Nat2Z.inj_succ, Z.pow_succ_r in * by lia. fold b in Hlt, Hn |- *. rewrite pow4. fold b.
    assert (a * (2 * b) + b * b < 2 ^ 64) by nia.
    assert (Z.shiftr (a * (2 * b)) 1 = a * b) as ->.
    { rewrite Z.shiftr_div_pow2 by lia. replace (a * (2 * b)) with (a * b * 2 ^ 1) by lia. by apply Z.div_mul. }
    rewrite (u64_ok (a * (2 * b) + b * b)) by nia.
    destruct (Z.leb_spec (a * (2 * b) + b * b) (X - a * a)) as [Hge|Hge].
    + rewrite !u64_ok by (unfold in_u in HX; nia).
      apply (IH fuel _ _ (a + b)); try done; try lia; nia.
    + apply (IH fuel _ _ a); try done; try lia; nia.
Qed.

Lemma isqrt_start_round n fuel x :
  (n < fuel)%nat -> 0 <= x -> x < 4 ^ Z.of_nat n ->
  exists k, (k <= n)%nat /\ isqrt_start fuel (round_bit n) x = Some (round_bit k) /\ x < 4 ^ Z.of_nat k.
Proof.
  revert fuel. induction n as [|n IH]; intros fuel Hf Hx Hlt; (destruct fuel as [|fuel]; [lia|]); cbn [isqrt_start].
  - exists 0%nat. destruct (Z.ltb_spec x (round_bit 0)) as [H|H]; [cbn in H; lia|]. done.
  - destruct (Z.ltb_spec x (round_bit (S n))) as [H|H].
    + rewrite round_bit_shift. destruct (IH fuel) as (k & ? & ? & ?); [lia|done|done|].
      exists k. split; [lia|]. done.
    + exists (S n). done.
Qed.

(** [isqrt64] is the integer square root of every 64-bit number. *)
Lemma isqrt64_sqrt x : in_u 64 x -> isqrt64 x = Some (Z.sqrt x).
Proof.
  intros Hx. pose proof Hx as [H0 H1]. unfold isqrt64. change (2 ^ 62) with (round_bit 32).
  destruct (isqrt_start_round 32 33 x) as (k & Hk & -> & Hlt); [lia|done|done|].
  rewrite obind_some. apply (isqrt_loop_sqrt k 33 x x 0 0); try done; try lia.
  - apply (Z.pow_le_mono_r 2 (Z.of_nat k) 32); lia.
  - rewrite pow4 in Hlt. lia.
Qed.

(** ** Number formatting *)

Lemma i64s_digits_rev fuel tmp u :
  0 <= u < 10 ^ Z.of_nat fuel -> (length tmp + fuel = 24)%nat ->
  i64s_digits fuel tmp u = tmp ++ (digit_char <$> rev_digits fuel 10 u).
Proof.
  revert tmp u. induction fuel as [|fuel IH]; intros tmp u Hu Hl; cbn [i64s_digits rev_digits]; [by rewrite app_nil_r|].
  assert (digit_char (u mod 10) = 48 + u mod 10) as Hd.
  { unfold digit_char. pose proof (Z.mod_pos_bound u 10 ltac:(lia)). destruct (Z.ltb_spec (u mod 10) 10); lia. }
  rewrite Nat2Z.inj_succ, Z.pow_succ_r in Hu by lia.
  destruct (Z.eqb_spec (u / 10) 0) as [E|E]; cbn [negb andb fmap list_fmap]; rewrite Hd; [done|].
  rewrite length_app. cbn [length]. destruct (Z.ltb_spec (Z.of_nat (length tmp + 1)) 24) as [Hc|Hc].
  - rewrite IH, <- app_assoc; [done| |rewrite length_app; simpl; lia].
    split; [apply Z.div_pos; lia|apply Z.div_lt_upper_bound; lia].
  - assert (fuel = 0%nat) as -> by lia. simpl in Hu. exfalso. apply E. apply Z.div_small. lia.
Qed.

(** [i64s] writes the signed decimal numeral and its terminator. *)
Lemma i64s_numeral v buf :
  in_s 64 v -> 24 <= Z.of_nat (length buf) ->
  i64s v buf = Some (blit buf 0 (signed_numeral v ++ [0])) /\ (length (signed_numeral v) <= 20)%nat.
Proof.
  unfold in_s. change (2 ^ (64 - 1)) with 9223372036854775808. intros Hv Hb. unfold i64s, signed_numeral.
  set (u := Z.abs v).
  assert (reverse (i64s_digits 24 [] u) = numeral 10 u) as Hd.
  { rewrite i64s_digits_rev by (simpl; lia). cbn [app]. unfold numeral, digits.
    rewrite (rev_digits_fuel 24 64) by (simpl; lia). by rewrite fmap_reverse. }
  assert (length (numeral 10 u) <= 19)%nat as Hn by (apply (numeral_length 10 u 18); simpl; lia).
  destruct (Z.ltb_spec v 0) as [Hneg|Hpos].
  - rewrite s64_bind by lia. rewrite s64_ok, obind_some by lia.
    rewrite u64_ok by lia. replace (- (v + 1) + 1) with u by lia. cbn [fst snd].
    rewrite wrb_blit, obind_some, obind_some by lia. cbn [fst snd]. rewrite Hd.
    rewrite put_back_blit, obind_some by (rewrite ?blit_length; cbn [length]; lia). cbn [fst snd].
    rewrite (blit_after buf 0 [45]) by (cbn [length]; lia).
    replace (- v) with u by lia. cbn [app].
    assert (length (45%Z :: numeral 10 u) <= 20)%nat by (cbn [length]; lia). split; [|done].
    rewrite wrb_blit by (rewrite blit_length; cbn [length]; lia).
    replace (Z.to_nat _) with (0 + length (45%Z :: numeral 10 u))%nat by (cbn [length]; lia).
    rewrite blit_after by (cbn [length]; lia). done.
  - rewrite obind_some. replace v with u by lia. cbn [fst snd]. rewrite obind_some. cbn [fst snd]. rewrite Hd.
    rewrite put_back_blit, obind_some by lia. cbn [fst snd]. split; [|lia].
    rewrite wrb_blit by (rewrite blit_length; lia).
    replace (Z.to_nat (0 + _)) with (0 + length (numeral 10 u))%nat by lia.
    change (Z.to_nat 0) with 0%nat. rewrite blit_after by (cbn [length]; lia). done.
Qed.

(** ** The Gregorian calendar *)

Definition leap (y : Z) : bool := (y mod 4 =? 0) && negb (y mod 100 =? 0) || (y mod 400 =? 0).
Definition month_len (y m : Z) : Z :=
  if m =? 2 then (if leap y then 29 else 28)
  else if (m =? 4) || (m =? 6) || (m =? 9) || (m =? 11) then 30 else 31.
Definition next_day (ymd : Z * Z * Z) : Z * Z * Z :=
  let '(y, m, d) := ymd in
  if d <? month_len y m then (y, m, d + 1)
  else if m <? 12 then (y, m + 1, 1) else (y + 1, 1, 1).

(** The computation on one 400-year era: the year of the day [doe] of an era
    starting on 1 March, and the month and day of its day [doy]. *)
Definition year_of (doe : Z) : Z := (doe - doe / 1460 + doe / 36524 - doe / 146096) / 365.
Definition year_start (k : Z) : Z := 365 * k + k / 4 - k / 100.
Definition month_day (doy : Z) : Z * Z :=
  let mp := (5 * doy + 2) / 153 in
  ((if mp <? 10 then mp + 3 else mp - 9), doy - (153 * mp + 2) / 5 + 1).
Definition era_date (era k doy : Z) : Z * Z * Z :=
  let '(m, d) := month_day doy in ((if m <=? 2 then k + era * 400 + 1 else k + era * 400), m, d).

(** All [z] of [lo .. lo + n - 1]. *)
Fixpoint all_from (n : nat) (lo : Z) (p : Z -> bool) : bool :=
  match n with O => true | S n => p lo && all_from n (lo + 1) p end.
Lemma all_from_spec n lo p z : all_from n lo p = true -> lo <= z < lo + Z.of_nat n -> p z = true.
Proof.
  revert lo. induction n as [|n IH]; intros lo H Hz; [lia|]. apply andb_prop in H as [H0 H].
  destruct (decide (z = lo)) as [->|]; [done|]. apply (IH (lo + 1)); [done|lia].
Qed.

Lemma year_of_mono a b : 0 <= a <= b -> b < 146097 -> year_of a <= year_of b.
Proof.
  intros Hab Hb. apply Z.div_le_mono; [lia|].
  assert (forall n, a <= n <= b -> a - a / 1460 + a / 36524 - a / 146096 <= n - n / 1460 + n / 36524 - n / 146096) as H.
  { intros n Hn. pose proof (Z.div_mod a 1460 ltac:(lia)). pose proof (Z.div_mod n 1460 ltac:(lia)).
    pose proof (Z.mod_pos_bound a 1460 ltac:(lia)). pose proof (Z.mod_pos_bound n 1460 ltac:(lia)).
    pose proof (Z.div_mod a 36524 ltac:(lia)). pose proof (Z.div_mod n 36524 ltac:(lia)).
    pose proof (Z.mod_pos_bound a 36524 ltac:(lia)). pose proof (Z.mod_pos_bound n 36524 ltac:(lia)).
    pose proof (Z.div_mod a 146096 ltac:(lia)). pose proof (Z.div_mod n 146096 ltac:(lia)).
    pose proof (Z.mod_pos_bound a 146096 ltac:(lia)). pose proof (Z.mod_pos_bound n 146096 ltac:(lia)).
    lia. }
  apply H. lia.
Qed.

(** The year boundaries of an era, checked one by one. *)
Definition year_check (k : Z) : bool :=
  (year_of (year_start k) =? k) && ((k =? 0) || (year_of (year_start k - 1) =? k - 1)) &&
  (year_start (k + 1) - year_start k + (if k =? 399 then 1 else 0) =? 365 + (if leap (k + 1) then 1 else 0)).
Lemma year_checked k : 0 <= k < 400 -> year_check k = true.
Proof. apply (all_from_spec 400 0). vm_compute. reflexivity. Qed.

(** The days of a year, checked one by one: the successor of day [doy] in a
    year whose January belongs to a leap year, or to a common year. *)
Definition day_check (jan : Z) (doy : Z) : bool :=
  let '(m, d) := month_day doy in
  let '(m', d') := month_day (doy + 1) in
  bool_decide (next_day (if m <=? 2 then jan else jan - 1, m, d) =
               (if m' <=? 2 then jan else jan - 1, m', d')).
Lemma day_checked_leap doy : 0 <= doy < 365 -> day_check 2000 doy = true.
Proof. apply (all_from_spec 365 0). vm_compute. reflexivity. Qed.
Lemma day_checked_common doy : 0 <= doy < 364 -> day_check 2001 doy = true.
Proof. apply (all_from_spec 364 0). vm_compute. reflexivity. Qed.

(** The calendar of a year depends only on whether it is a leap year. *)
Lemma month_len_leap y y' m : (m = 2 -> leap y = leap y') -> month_len y m = month_len y' m.
Proof. intros H. unfold month_len. destruct (Z.eqb_spec m 2); [by rewrite H|done]. Qed.
Lemma next_day_shift y y' m d m1 d1 j :
  (m = 2 -> leap y = leap y') -> next_day (y', m, d) = (y' + j, m1, d1) -> next_day (y, m, d) = (y + j, m1, d1).
Proof.
  intros Hl. unfold next_day. rewrite (month_len_leap y y') by done. intros H.
  destruct (d <? _); [|destruct (m <? 12)]; injection H as H1 H2 H3; f_equal; try (f_equal; lia); lia.
Qed.

(** Within a year, days follow each other. *)
Lemma era_date_next era k doy :
  0 <= doy < 364 + (if leap (k + 1) then 1 else 0) ->
  next_day (era_date era k doy) = era_date era k (doy + 1).
Proof.
  intros Hd. set (jan := if leap (k + 1) then 2000 else 2001).
  assert (day_check jan doy = true) as Hc.
  { unfold jan. destruct (leap (k + 1)); [apply day_checked_leap|apply day_checked_common]; lia. }
  assert (leap (k + era * 400 + 1) = leap jan) as Hj.
  { transitivity (leap (k + 1)); [|unfold jan; by destruct (leap (k + 1))].
    unfold leap. replace (k + era * 400 + 1) with (k + 1 + era * 400) by lia.
    rewrite Z.mod_add by lia. replace (era * 400) with (era * 100 * 4) at 1 by lia.
    replace (era * 400) with (era * 4 * 100) by lia. by rewrite !Z.mod_add by lia. }
  unfold day_check in Hc. unfold era_date. destruct (month_day doy) as [m d], (month_day (doy + 1)) as [m' d'].
  apply bool_decide_eq_true in Hc.
  destruct (Z.leb_spec m 2), (Z.leb_spec m' 2).
  - rewrite (next_day_shift _ jan m d m' d' 0); [f_equal; f_equal; lia|done|]. rewrite Hc. f_equal; f_equal; lia.
  - rewrite (next_day_shift _ jan m d m' d' (-1)); [f_equal; f_equal; lia|done|]. rewrite Hc. f_equal; f_equal; lia.
  - rewrite (next_day_shift _ (jan - 1) m d m' d' 1); [f_equal; f_equal; lia|lia|]. rewrite Hc. f_equal; f_equal; lia.
  - rewrite (next_day_shift _ (jan - 1) m d m' d' 0); [f_equal; f_equal; lia|lia|]. rewrite Hc. f_equal; f_equal; lia.
Qed.

(** The last day of a year is followed by 1 March. *)
Lemma era_date_last era k :
  next_day (era_date era k (364 + (if leap (k + 1) then 1 else 0))) = (k + 1 + era * 400, 3, 1).
Proof.
  assert (leap (k + era * 400 + 1) = leap (k + 1)) as Hj.
  { unfold leap. replace (k + era * 400 + 1) with (k + 1 + era * 400) by lia.
    rewrite Z.mod_add by lia. replace (era * 400) with (era * 100 * 4) at 1 by lia.
    replace (era * 400) with (era * 4 * 100) by lia. by rewrite !Z.mod_add by lia. }
  unfold era_date. destruct (leap (k + 1)).
  - change (month_day (364 + 1)) with (2, 29). cbn [Z.leb Z.compare Pos.compare Pos.compare_cont].
    unfold next_day, month_len. cbn [Z.eqb Pos.eqb]. rewrite Hj. cbn. f_equal; f_equal; lia.
  - change (month_day (364 + 0)) with (2, 28). cbn [Z.leb Z.compare Pos.compare Pos.compare_cont].
    unfold next_day, month_len. cbn [Z.eqb Pos.eqb]. rewrite Hj. cbn. f_equal; f_equal; lia.
Qed.

Definition year_end (k : Z) : Z := if k =? 399 then 146097 else year_start (k + 1).

(** The year of a day of the era, and its length. *)
Lemma year_of_range doe :
  0 <= doe < 146097 ->
  let k := year_of doe in
  0 <= k < 400 /\ year_start k <= doe < year_end k /\
  year_end k = year_start k + 365 + (if leap (k + 1) then 1 else 0).
Proof.
  intros Hd k.
  assert (0 <= k <= 399) as Hk.
  { pose proof (year_of_mono 0 doe ltac:(lia) ltac:(lia)). pose proof (year_of_mono doe 146096 ltac:(lia) ltac:(lia)).
    change (year_of 0) with 0 in *. change (year_of 146096) with 399 in *. lia. }
  assert (forall j, 0 <= j < 400 -> year_of (year_start j) = j /\ (j = 0 \/ year_of (year_start j - 1) = j - 1) /\
    year_start (j + 1) - year_start j + (if j =? 399 then 1 else 0) = 365 + (if leap (j + 1) then 1 else 0)) as Hy.
  { intros j Hj. pose proof (year_checked j Hj) as Hc. unfold year_check in Hc.
    rewrite !andb_true_iff, orb_true_iff, !Z.eqb_eq in Hc. intuition. }
  assert (forall j, 0 <= j < 400 -> 0 <= year_start j < 146097) as Hr.
  { intros j Hj. unfold year_start. pose proof (Z.div_mod j 4 ltac:(lia)). pose proof (Z.mod_pos_bound j 4 ltac:(lia)).
    pose proof (Z.div_mod j 100 ltac:(lia)). pose proof (Z.mod_pos_bound j 100 ltac:(lia)). lia. }
  split; [lia|]. destruct (Hy k ltac:(lia)) as (_ & H1 & H2). pose proof (Hr k ltac:(lia)). split; [split|].
  - destruct (Z.le_gt_cases (year_start k) doe) as [|Hlt]; [done|exfalso].
    destruct H1 as [H1|H1]; [rewrite H1 in *; change (year_start 0) with 0 in *; lia|].
    pose proof (year_of_mono doe (year_start k - 1) ltac:(lia) ltac:(lia)). fold k in H0. lia.
  - unfold year_end. destruct (Z.eqb_spec k 399); [lia|].
    destruct (Z.lt_ge_cases doe (year_start (k + 1))) as [|Hge]; [done|exfalso].
    destruct (Hy (k + 1) ltac:(lia)) as (H3 & _). pose proof (Hr (k + 1) ltac:(lia)).
    pose proof (year_of_mono (year_start (k + 1)) doe ltac:(lia) ltac:(lia)). fold k in H4. lia.
  - unfold year_end. destruct (Z.eqb_spec k 399) as [E|]; [|lia].
    rewrite E in *. vm_compute. reflexivity.
Qed.

(** The computation of the code, with floored divisions. *)
Lemma civil_era z :
  civil_from_days z =
  let zz := z + 719468 in
  era_date (zz / 146097) (year_of (zz mod 146097)) (zz mod 146097 - year_start (year_of (zz mod 146097))).
Proof.
  unfold civil_from_days. set (zz := z + 719468). cbn zeta.
  assert (Z.quot (if 0 <=? zz then zz else zz - 146096) 146097 = zz / 146097) as ->.
  { destruct (Z.leb_spec 0 zz); [by rewrite Z.quot_div_nonneg by lia|].
    rewrite <- (Z.opp_involutive (zz - 146096)), Z.quot_opp_l, Z.quot_div_nonneg by lia.
    pose proof (Z.div_mod zz 146097 ltac:(lia)). pose proof (Z.mod_pos_bound zz 146097 ltac:(lia)).
    pose proof (Z.div_mod (- (zz - 146096)) 146097 ltac:(lia)).
    pose proof (Z.mod_pos_bound (- (zz - 146096)) 146097 ltac:(lia)). lia. }
  assert (zz - zz / 146097 * 146097 = zz mod 146097) as -> by (pose proof (Z.div_mod zz 146097); lia).
  pose proof (Z.mod_pos_bound zz 146097 ltac:(lia)) as Hd. set (doe := zz mod 146097) in *. set (era := zz / 146097).
  pose proof (year_of_range doe Hd) as (Hk & [Hs He] & Hy). cbn zeta in *.
  assert (Z.quot (doe - Z.quot doe 1460 + Z.quot doe 36524 - Z.quot doe 146096) 365 = year_of doe) as ->.
  { rewrite (Z.quot_div_nonneg doe 1460), (Z.quot_div_nonneg doe 36524), (Z.quot_div_nonneg doe 146096) by lia.
    rewrite Z.quot_div_nonneg; [done| |lia].
    pose proof (Z.div_mod doe 1460 ltac:(lia)). pose proof (Z.mod_pos_bound doe 1460 ltac:(lia)).
    pose proof (Z.div_mod doe 36524 ltac:(lia)). pose proof (Z.mod_pos_bound doe 36524 ltac:(lia)).
    pose proof (Z.div_mod doe 146096 ltac:(lia)). pose proof (Z.mod_pos_bound doe 146096 ltac:(lia)). lia. }
  set (k := year_of doe) in *.
  rewrite (Z.quot_div_nonneg k 4), (Z.quot_div_nonneg k 100) by lia. fold (year_start k).
  assert (0 <= doe - year_start k <= 365) as Hdoy by (destruct (leap (k + 1)); lia).
  set (doy := doe - year_start k) in *. unfold era_date, month_day.
  rewrite (Z.quot_div_nonneg (5 * doy + 2)) by lia.
  assert (0 <= (5 * doy + 2) / 153) by (apply Z.div_pos; lia).
  rewrite (Z.quot_div_nonneg (153 * _ + 2)) by lia. done.
Qed.

(** Successive days have successive dates. *)
Lemma civil_next z : civil_from_days (z + 1) = next_day (civil_from_days z).
Proof.
  rewrite !civil_era. cbn zeta. replace (z + 1 + 719468) with (z + 719468 + 1) by lia. set (zz := z + 719468).
  pose proof (Z.mod_pos_bound zz 146097 ltac:(lia)) as Hd. pose proof (Z.div_mod zz 146097 ltac:(lia)) as Hz.
  set (doe := zz mod 146097) in *. set (era := zz / 146097) in *.
  pose proof (year_of_range doe Hd) as (Hk & [Hs He] & Hy). cbn zeta in *. set (k := year_of doe) in *.
  destruct (decide (doe = 146096)) as [E|E].
  - assert ((zz + 1) / 146097 = era + 1) as -> by (symmetry; apply (Z.div_unique_pos _ _ _ 0); lia).
    assert ((zz + 1) mod 146097 = 0) as -> by (symmetry; apply (Z.mod_unique_pos _ _ (era + 1)); lia).
    assert (k = 399) as Ek by (unfold k; rewrite E; reflexivity). clearbody k. subst k.
    rewrite E. change (146096 - year_start 399) with (364 + (if leap (399 + 1) then 1 else 0)).
    rewrite era_date_last. change (year_of 0) with 0. change (0 - year_start 0) with 0.
    unfold era_date. change (month_day 0) with (3, 1). cbn. f_equal; f_equal; lia.
  - assert ((zz + 1) / 146097 = era) as -> by (symmetry; apply (Z.div_unique_pos _ _ _ (doe + 1)); lia).
    assert ((zz + 1) mod 146097 = doe + 1) as -> by (symmetry; apply (Z.mod_unique_pos _ _ era); lia).
    pose proof (year_of_range (doe + 1) ltac:(lia)) as (Hk' & [Hs' He'] & Hy'). cbn zeta in *.
    set (k' := year_of (doe + 1)) in *.
    assert (k <= k') as Hkk by (apply year_of_mono; lia).
    destruct (decide (doe + 1 < year_end k)) as [Hin|Hout].
    + assert (k' = k) as ->.
      { destruct (decide (k' = k)) as [|Hne]; [done|exfalso].
        assert (year_end k <= year_start k'); [|lia].
        unfold year_end. destruct (Z.eqb_spec k 399); [lia|]. unfold year_start.
        assert (k + 1 <= k') by lia. pose proof (Z.div_le_mono (k + 1) k' 4 ltac:(lia) ltac:(lia)).
        pose proof (Z.div_mod (k + 1) 100 ltac:(lia)). pose proof (Z.mod_pos_bound (k + 1) 100 ltac:(lia)).
        pose proof (Z.div_mod k' 100 ltac:(lia)). pose proof (Z.mod_pos_bound k' 100 ltac:(lia)). lia. }
      rewrite era_date_next by (destruct (leap (k + 1)); lia). f_equal. lia.
    + assert (k <> 399) as Hn by (intros Ek; unfold year_end in *; rewrite Ek in *; simpl in *; lia).
      assert (year_end k = year_start (k + 1)) as Ey by (unfold year_end; by rewrite (proj2 (Z.eqb_neq k 399) Hn)).
      assert (doe + 1 = year_start (k + 1)) as Ed by lia.
      assert (k' = k + 1) as ->.
      { unfold k'. rewrite Ed. pose proof (year_checked (k + 1) ltac:(lia)) as Hc. unfold year_check in Hc.
        rewrite !andb_true_iff, Z.eqb_eq in Hc. apply Hc. }
      replace (doe - year_start k) with (364 + (if leap (k + 1) then 1 else 0)) by (destruct (leap (k + 1)); lia).
      rewrite era_date_last, Ed, Z.sub_diag. unfold era_date. change (month_day 0) with (3, 1). cbn. f_equal; f_equal; lia.
Qed.

(** The date [n] days after 1 January 1970. *)
Definition date_after (n : nat) : Z * Z * Z := Nat.iter n next_day (1970, 1, 1).
Lemma civil_from_days_date n : civil_from_days (Z.of_nat n) = date_after n.
Proof.
  induction n as [|n IH]; [reflexivity|]. rewrite Nat2Z.inj_succ, <- Z.add_1_r, civil_next, IH. done.
Qed.

(** The last [w] decimal digits of [v]. *)
Fixpoint pad (w : nat) (v : Z) : list Z :=
  match w with O => [] | S w => pad w (v / 10) ++ [48 + v mod 10] end.
Lemma pad_length w v : length (pad w v) = w.
Proof. revert v. induction w as [|w IH]; intros v; [done|]. cbn [pad]. rewrite length_app, IH. simpl. lia. Qed.

Lemma put_num_blit w p o v :
  0 <= o -> o + Z.of_nat w <= Z.of_nat (length p) -> put_num p o v w = Some (blit p (Z.to_nat o) (pad w v)).
Proof.
  revert p v. induction w as [|w IH]; intros p v Ho Hl; cbn [put_num pad].
  - f_equal. unfold blit. cbn [length app]. by rewrite Nat.add_0_r, take_drop.
  - rewrite wrb_blit, obind_some by lia. rewrite IH by (rewrite ?blit_length; cbn [length]; lia).
    f_equal. replace (Z.to_nat (o + Z.of_nat w)) with (Z.to_nat o + length (pad w (v / 10)))%nat
      by (rewrite pad_length; lia).
    apply blit_before. rewrite pad_length. cbn [length]. lia.
Qed.

Definition utc_text (t : Z) : list Z :=
  let '(y, m, d) := date_after (Z.to_nat (t / (86400 * NS_PER_S))) in
  let sod := (t / NS_PER_S) mod 86400 in
  pad 4 y ++ [45] ++ pad 2 m ++ [45] ++ pad 2 d ++ [32] ++
  pad 2 (sod / 3600) ++ [58] ++ pad 2 ((sod / 60) mod 60) ++ [58] ++ pad 2 (sod mod 60) ++ [46] ++
  pad 6 (t mod NS_PER_S / 1000).

Lemma next_day_range y m d :
  1 <= m <= 12 -> 1 <= d <= month_len y m ->
  let '(y', m', d') := next_day (y, m, d) in y <= y' <= y + 1 /\ 1 <= m' <= 12 /\ 1 <= d' <= month_len y' m'.
Proof.
  intros Hm Hd. unfold next_day. destruct (Z.ltb_spec d (month_len y m)); [lia|].
  destruct (Z.ltb_spec m 12); (split; [lia|]; split; [lia|]); unfold month_len; repeat case_match; lia.
Qed.
Lemma date_after_range n :
  let '(y, m, d) := date_after n in
  1970 <= y <= 1970 + Z.of_nat n /\ 1 <= m <= 12 /\ 1 <= d <= month_len y m.
Proof.
  induction n as [|n IH]; [vm_compute; intuition congruence|]. unfold date_after in *. rewrite Nat.iter_succ.
  destruct (Nat.iter n next_day (1970, 1, 1)) as [ [y m] d]. destruct IH as (Hy & Hm & Hd).
  pose proof (next_day_range y m d Hm Hd) as H. destruct (next_day (y, m, d)) as [ [y' m'] d'].
  split; [lia|]. apply H.
Qed.

Lemma split_utc_floor t :
  0 <= t -> split_utc t = (t / (86400 * NS_PER_S), (t / NS_PER_S) mod 86400, t mod NS_PER_S).
Proof.
  intros Ht. unfold split_utc, NS_PER_S. rewrite Z.rem_mod_nonneg, Z.quot_div_nonneg by lia.
  pose proof (Z.mod_pos_bound t 1000000000 ltac:(lia)). destruct (Z.ltb_spec (t mod 1000000000) 0); [lia|].
  assert (0 <= t / 1000000000) by (apply Z.div_pos; lia). destruct (Z.leb_spec 0 (t / 1000000000)); [|lia].
  rewrite Z.quot_div_nonneg by lia. rewrite Z.div_div by lia. change (1000000000 * 86400) with (86400 * 1000000000).
  do 2 f_equal. rewrite Z.mod_eq, Z.div_div by lia. change (1000000000 * 86400) with (86400 * 1000000000). lia.
Qed.

Lemma blit_after' p k l l' :
  k = length l -> (length l + length l' <= length p)%nat -> blit (blit p 0 l) k l' = blit p 0 (l ++ l').
Proof. intros -> H. apply (blit_after p 0 l l'). lia. Qed.

(** Runs the writes of the formatter one after the other. *)
Ltac text_len := rewrite ?blit_length; rewrite ?length_app, ?pad_length; cbn [length]; lia.
Ltac text_step :=
  first [ rewrite put_num_blit by text_len | rewrite wrb_blit by text_len ];
  rewrite ?obind_some; rewrite ?blit_after' by text_len.

(** C25: the calendar of the PTP log is right: for every non-negative 64-bit
    UTC time the buffer receives the text YYYY-MM-DD hh:mm:ss.uuuuuu and its
    terminator, where the date is the one reached from 1 January 1970 by that
    many successors in the Gregorian calendar (month lengths, leap years every
    4 years except centuries not divisible by 400). *)
Theorem ptp_format_utc_correct (t : Z) (buf : list Z) :
  0 <= t < 2 ^ 63 -> 27 <= Z.of_nat (length buf) ->
  ptp_format_utc t buf = Some (blit buf 0 (utc_text t ++ [0])).
Proof.
  intros Ht Hb. unfold ptp_format_utc, utc_text. rewrite split_utc_floor by lia.
  assert (0 <= t / (86400 * NS_PER_S) < 110000) as Hz.
  { unfold NS_PER_S. split; [apply Z.div_pos; lia|apply Z.div_lt_upper_bound; lia]. }
  set (n := Z.to_nat (t / (86400 * NS_PER_S))).
  replace (t / (86400 * NS_PER_S)) with (Z.of_nat n) by lia. rewrite civil_from_days_date.
  pose proof (date_after_range n) as Hr. destruct (date_after n) as [ [y m] d]. destruct Hr as (Hy & Hm & Hd).
  assert (month_len y m <= 31) by (unfold month_len; repeat case_match; lia).
  set (sod := (t / NS_PER_S) mod 86400).
  assert (0 <= sod < 86400) as Hs by (apply Z.mod_pos_bound; lia).
  assert (0 <= t mod NS_PER_S < NS_PER_S) as Hn by (by apply Z.mod_pos_bound).
  rewrite !Z.quot_div_nonneg by lia.
  assert (0 <= sod / 60) by (apply Z.div_pos; lia). rewrite !Z.rem_mod_nonneg by lia.
  pose proof (Z.mod_pos_bound (sod / 60) 60 ltac:(lia)). pose proof (Z.mod_pos_bound sod 60 ltac:(lia)).
  pose proof (Z.div_lt_upper_bound sod 3600 24 ltac:(lia) ltac:(lia)). pose proof (Z.div_pos sod 3600 ltac:(lia) ltac:(lia)).
  pose proof (Z.div_lt_upper_bound (t mod NS_PER_S) 1000 1000000 ltac:(lia) ltac:(unfold NS_PER_S in *; lia)).
  pose proof (Z.div_pos (t mod NS_PER_S) 1000 ltac:(lia) ltac:(lia)).
  rewrite !u32_ok by lia. change (Z.to_nat 0) with 0%nat.
  text_step. do 13 text_step. rewrite <- !app_assoc. done.
Qed.

Lemma ptp_format_utc_correct_witness :
  ptp_format_utc 951782400000000000 (replicate 27 0) = Some (blit (replicate 27 0) 0 (utc_text 951782400000000000 ++ [0])) /\
  take 10 (utc_text 951782400000000000) = [50; 48; 48; 48; 45; 48; 50; 45; 50; 57].
Proof. split; [apply ptp_format_utc_correct; vm_compute; intuition congruence|vm_compute; reflexivity]. Defined.
