(* ===== verification/PtpCore.v ===== *)
(** * The PTP ordinary-clock slave (src/port/ptp/ptp_core.c)

    The engine's static state [g], grouped as the struct's comments group it,
    together with the clock it disciplines, the frames handed to the transmit
    callback and the log.  The transmit callback is a parameter: the result of
    its n-th call is a transmit timestamp or a failure.  Formatted output is
    kept as one structured event per log message. *)

From S2P Require Import Prelude CInt Decimal PtpTime PtpMsg PtpClock PtpServo PtpUtil.

(** The result of the n-th call of the transmit callback. *)
Class PtpTx := tx_result : nat -> option Z.

Definition PTP_DELAY_WIN : Z := 8.
Definition PTP_DELAY_MAX_NS : Z := 10000000.
Definition PTP_STATS_WIN : Z := 16.
Definition ANNOUNCE_LEN_MIN : Z := 64.
Definition DELAY_RESP_LEN : Z := 54.
Definition SYNC_LEN : Z := 44.
Definition FLAG1_UTC_VALID : Z := 4.
Definition FLAG1_PTP_TIMESCALE : Z := 8.

Record Dataset := mkDs {
  prio1 : Z; clk_class : Z; clk_accuracy : Z; prio2 : Z; variance : Z; steps_removed : Z;
  gm_id : list Z; port_id : list Z }.

(** The selected master. *)
Record Master := mkMaster {
  have_master : bool; master : Dataset; last_announce_ms : Z; announce_timeout_ms : Z;
  utc_offset : Z; flags1 : Z }.
(** Sync / Follow_Up. *)
Record Sync := mkSync {
  sync_waiting_fup : bool; sync_seq : Z; t2_cnt : Z; t2_ns : Z; sync_corr : Z; t2_epoch : Z }.
(** The last master-to-slave leg. *)
Record MsLeg := mkLeg { ms_valid : bool; ms_leg : Z; ms_epoch : Z }.
(** Delay_Req / Delay_Resp. *)
Record Dreq := mkDreq {
  dreq_due : bool; dreq_outstanding : bool; dreq_seq : Z; t3_ns : Z; t3_epoch : Z; last_dreq_ms : Z }.
Record DelayFilter := mkFilter { delay_win : list Z; delay_n : Z; delay_idx : Z; delay_ns : Z }.
(** Statistics over the locked samples. *)
Record Stats := mkStats { st_sum : Z; st_max : Z; st_sq : Z; st_n : Z }.

Record PtpCore := mkCore {
  tx : bool; self : MsgHeader; self_id : list Z;
  mst : Master; syn : Sync; leg : MsLeg; dreq : Dreq; now_ms : Z; flt : DelayFilter;
  servo : PtpServo; last_offset : Z; n_sync : Z; stats : Stats }.

(** One message of the log. *)
Inductive log_event :=
| EvInit (id : list Z) (domain : Z)
| EvMaster (better : bool) (ds : Dataset)
| EvTransition (before after : PtpServoState) (offset delay freq when : list Z)
| EvSample (n : Z) (offset delay freq when : list Z)
| EvStats (n : Z) (mean rms max : list Z)
| EvTimeout (ppb : Z).

Record ptp := mkPtp { clk : PtpClock; g : PtpCore; sent : list (Z * list Z); logs : list log_event }.

Definition set_mst v c := mkCore (tx c) (self c) (self_id c) v (syn c) (leg c) (dreq c) (now_ms c) (flt c) (servo c) (last_offset c) (n_sync c) (stats c).
Definition set_syn v c := mkCore (tx c) (self c) (self_id c) (mst c) v (leg c) (dreq c) (now_ms c) (flt c) (servo c) (last_offset c) (n_sync c) (stats c).
Definition set_leg v c := mkCore (tx c) (self c) (self_id c) (mst c) (syn c) v (dreq c) (now_ms c) (flt c) (servo c) (last_offset c) (n_sync c) (stats c).
Definition set_dreq v c := mkCore (tx c) (self c) (self_id c) (mst c) (syn c) (leg c) v (now_ms c) (flt c) (servo c) (last_offset c) (n_sync c) (stats c).
Definition set_now v c := mkCore (tx c) (self c) (self_id c) (mst c) (syn c) (leg c) (dreq c) v (flt c) (servo c) (last_offset c) (n_sync c) (stats c).
Definition set_flt v c := mkCore (tx c) (self c) (self_id c) (mst c) (syn c) (leg c) (dreq c) (now_ms c) v (servo c) (last_offset c) (n_sync c) (stats c).
Definition set_servo v c := mkCore (tx c) (self c) (self_id c) (mst c) (syn c) (leg c) (dreq c) (now_ms c) (flt c) v (last_offset c) (n_sync c) (stats c).
Definition set_sample s off n c := mkCore (tx c) (self c) (self_id c) (mst c) (syn c) (leg c) (dreq c) (now_ms c) (flt c) s off n (stats c).
Definition set_stats v c := mkCore (tx c) (self c) (self_id c) (mst c) (syn c) (leg c) (dreq c) (now_ms c) (flt c) (servo c) (last_offset c) (n_sync c) v.

Definition set_waiting v (x : Sync) := mkSync v (sync_seq x) (t2_cnt x) (t2_ns x) (sync_corr x) (t2_epoch x).
Definition set_valid v (x : MsLeg) := mkLeg v (ms_leg x) (ms_epoch x).
Definition set_due v (x : Dreq) := mkDreq v (dreq_outstanding x) (dreq_seq x) (t3_ns x) (t3_epoch x) (last_dreq_ms x).
Definition set_outstanding v (x : Dreq) := mkDreq (dreq_due x) v (dreq_seq x) (t3_ns x) (t3_epoch x) (last_dreq_ms x).

Definition onG (f : PtpCore -> PtpCore) : M ptp unit := modify (fun p => mkPtp (clk p) (f (g p)) (sent p) (logs p)).
Definition onC {A} (c : M PtpClock A) : M ptp A := zoom clk (fun k p => mkPtp k (g p) (sent p) (logs p)) c.
Definition getG {A} (f : PtpCore -> A) : M ptp A := gets (fun p => f (g p)).
Definition ptp_log (e : log_event) : M ptp unit := modify (fun p => mkPtp (clk p) (g p) (sent p) (logs p ++ [e])).

(** ** Master selection *)

Definition dataset_cmp (a b : Dataset) : option Z :=
  if negb (prio1 a =? prio1 b) then Some (if prio1 a <? prio1 b then -1 else 1)
  else if negb (clk_class a =? clk_class b) then Some (if clk_class a <? clk_class b then -1 else 1)
  else if negb (clk_accuracy a =? clk_accuracy b) then Some (if clk_accuracy a <? clk_accuracy b then -1 else 1)
  else if negb (variance a =? variance b) then Some (if variance a <? variance b then -1 else 1)
  else if negb (prio2 a =? prio2 b) then Some (if prio2 a <? prio2 b then -1 else 1)
  else
    c ← cmp_bytes (gm_id a) 0 (gm_id b) 0 8;
    if negb (c =? 0) then Some c
    else if negb (steps_removed a =? steps_removed b)
    then Some (if steps_removed a <? steps_removed b then -1 else 1)
    else cmp_bytes (port_id a) 0 (port_id b) 0 10.

Definition reset_measurements : M ptp unit :=
  onG (fun c => set_syn (set_waiting false (syn c)) c);;
  onG (fun c => set_leg (set_valid false (leg c)) c);;
  onG (fun c => set_dreq (set_outstanding false (set_due false (dreq c))) c);;
  onG (fun c => set_flt (mkFilter (delay_win (flt c)) 0 0 (-1)) c);;
  onG (fun c => set_stats (mkStats 0 0 0 0) c);;
  onG (set_servo ptp_servo_init).

Definition log_interval_ms (log2s : Z) : Z :=
  let l := if log2s <? -7 then -7 else log2s in
  let l := if 6 <? l then 6 else l in
  if 0 <=? l then u32 (Z.shiftl 1000 l) else Z.shiftr 1000 (- l).

Definition parse_announce (b : list Z) : option Dataset :=
  p1 ← rdb b 47; cc ← rdb b 48; ca ← rdb b 49; v ← rd16 b 50; p2 ← rdb b 52;
  gid ← copy_bytes b 53 8; sr ← rd16 b 61; pid ← copy_bytes b 20 10;
  Some (mkDs p1 cc ca p2 v sr gid pid).

(** The tail of [handle_announce], for the selected master. *)
Definition announce_refresh (b : list Z) : M ptp unit :=
  now ← getG now_ms;
  li ← of_opt (rdb b 33); uo ← of_opt (rd16 b 44); f ← of_opt (rdb b 7);
  onG (fun c => set_mst (mkMaster (have_master (mst c)) (master (mst c)) now
                           (u32 (u32 (3 * log_interval_ms (i8 li)) + 500)) (i16 uo) f) c).

Definition handle_announce (b : list Z) (len : Z) : M ptp unit :=
  if len <? ANNOUNCE_LEN_MIN then mret tt
  else
    ds ← of_opt (parse_announce b);
    m ← getG mst;
    same ← (if have_master m then c ← of_opt (cmp_bytes (port_id ds) 0 (port_id (master m)) 0 10); mret (c =? 0)
            else mret false);
    if (same : bool) then
      onG (fun c => set_mst (mkMaster (have_master (mst c)) ds (last_announce_ms (mst c))
                               (announce_timeout_ms (mst c)) (utc_offset (mst c)) (flags1 (mst c))) c);;
      announce_refresh b
    else
      better ← (if have_master m then c ← of_opt (dataset_cmp ds (master m)); mret (c <? 0) else mret true);
      if (better : bool) then
        onG (fun c => set_mst (mkMaster true ds (last_announce_ms (mst c))
                                 (announce_timeout_ms (mst c)) (utc_offset (mst c)) (flags1 (mst c))) c);;
        reset_measurements;;
        ptp_log (EvMaster (have_master m) ds);;
        announce_refresh b
      else mret tt.

Definition from_master (b : list Z) : M ptp bool :=
  m ← getG mst;
  if have_master m then c ← of_opt (cmp_bytes b 20 (port_id (master m)) 0 10); mret (c =? 0) else mret false.

(** ** Reporting *)

Section engine.
Context {HW : PtpHw} {TX : PtpTx}.

Definition ptp_core_utc_now_ns : M ptp Z :=
  t ← onC ptp_clock_now_ns;
  m ← getG mst;
  if negb (Z.land (flags1 m) FLAG1_PTP_TIMESCALE =? 0) && negb (Z.land (flags1 m) FLAG1_UTC_VALID =? 0)
  then off ← of_opt (s64 (utc_offset m * NS_PER_S)); of_opt (s64 (t - off))
  else mret t.

Definition report (offset : Z) (before : PtpServoState) : M ptp unit :=
  st ← getG (fun c => state (servo c));
  (if bool_decide (st = PTP_SERVO_LOCKED) then
     ao ← of_opt (abs64 offset);
     x ← getG stats;
     sum ← of_opt (s64 (st_sum x + offset));
     sq ← of_opt (s64 (ao * ao));
     onG (set_stats (mkStats sum (if st_max x <? ao then ao else st_max x) (u64 (st_sq x + sq)) (u32 (st_n x + 1))))
   else mret tt);;
  utc ← ptp_core_utc_now_ns;
  when ← of_opt (ptp_format_utc utc (replicate 28 0));
  a ← of_opt (i64s offset (replicate 24 0));
  d ← getG (fun c => delay_ns (flt c));
  b ← of_opt (i64s d (replicate 24 0));
  fr ← gets (fun p => ptp_clock_get_freq (clk p));
  c ← of_opt (i64s fr (replicate 24 0));
  n ← getG n_sync;
  (if bool_decide (before <> PTP_SERVO_LOCKED)
   then ptp_log (EvTransition before st a b c when)
   else ptp_log (EvSample n a b c when));;
  x ← getG stats;
  if PTP_STATS_WIN <=? st_n x then
    mean ← of_opt (cquot 64 (st_sum x) (st_n x));
    rms ← of_opt (isqrt64 (st_sq x / st_n x));
    a ← of_opt (i64s mean (replicate 24 0));
    b ← of_opt (i64s (i64 rms) (replicate 24 0));
    c ← of_opt (i64s (st_max x) (replicate 24 0));
    ptp_log (EvStats (st_n x) a b c);;
    onG (set_stats (mkStats 0 0 0 0))
  else mret tt.

(** ** Measurements *)

(** [while ((j > 0) && (s[j - 1] > v)) { s[j] = s[j - 1]; j--; } s[j] = v;]. *)
Fixpoint insert_loop (s : list Z) (j : nat) (v : Z) : option (list Z) :=
  match j with
  | O => wrb s 0 v
  | S j' =>
      x ← rdb s (Z.of_nat j');
      if v <? x then s ← wrb s (Z.of_nat j) x; insert_loop s j' v else wrb s (Z.of_nat j) v
  end.
(** [for (i = i; i < n; i++)], with [n - i] rounds to go. *)
Fixpoint sort_loop (s : list Z) (i rounds : nat) : option (list Z) :=
  match rounds with
  | O => Some s
  | S r => v ← rdb s (Z.of_nat i); s ← insert_loop s i v; sort_loop s (S i) r
  end.

(** The body of [delay_add] on the filter's fields. *)
Definition filter_add (f : DelayFilter) (sample : Z) : option DelayFilter :=
  win ← wrb (delay_win f) (delay_idx f) sample;
  let idx := u32 (delay_idx f + 1) mod PTP_DELAY_WIN in
  let n := if delay_n f <? PTP_DELAY_WIN then u32 (delay_n f + 1) else delay_n f in
  s ← read_loop win 0 (Z.to_nat n);
  s ← sort_loop s 1 (Z.to_nat n - 1);
  d ← (if n mod 2 =? 1 then rdb s (n / 2)
       else a ← rdb s (u32 (n / 2 - 1)); b ← rdb s (n / 2); t ← s64 (a + b); Some (Z.quot t 2));
  Some (mkFilter win n idx d).
Definition delay_add (sample : Z) : M ptp unit :=
  f ← getG flt; f' ← of_opt (filter_add f sample); onG (set_flt f').

Definition sync_complete (t1_ns corr_ns : Z) : M ptp unit :=
  before ← getG (fun c => state (servo c));
  y ← getG syn;
  ep ← gets (fun p => ptp_clock_epoch (clk p));
  if negb (t2_epoch y =? ep) then mret tt
  else
    sum ← of_opt (s64 (t1_ns + corr_ns));
    raw ← of_opt (s64 (t2_ns y - sum));
    onG (fun c => set_sample (servo c) (last_offset c) (u32 (n_sync c + 1)) c);;
    s ← getG servo;
    d ← getG (fun c => delay_ns (flt c));
    os ← onC (ptp_servo_sample s raw d (t2_cnt y));
    onG (fun c => set_sample os.2 os.1 (n_sync c) c);;
    ep' ← gets (fun p => ptp_clock_epoch (clk p));
    (if ep' =? t2_epoch y
     then onG (set_leg (mkLeg true raw (t2_epoch y)))
     else onG (fun c => set_leg (set_valid false (leg c)) c));;
    report os.1 before;;
    onG (fun c => set_dreq (set_due true (dreq c)) c).

Definition handle_sync (b : list Z) (len rx_cnt : Z) : M ptp unit :=
  if len <? SYNC_LEN then mret tt
  else
    seq ← of_opt (rd16 b 30);
    t2 ← get_opt (fun p => ptp_clock_from_cnt (clk p) rx_cnt);
    ep ← gets (fun p => ptp_clock_epoch (clk p));
    corr ← of_opt (rd_corr_ns b);
    onG (fun c => set_syn (mkSync (sync_waiting_fup (syn c)) seq rx_cnt t2 corr ep) c);;
    f0 ← of_opt (rdb b 6);
    if negb (Z.land f0 2 =? 0)
    then onG (fun c => set_syn (set_waiting true (syn c)) c)
    else
      onG (fun c => set_syn (set_waiting false (syn c)) c);;
      t1 ← of_opt (rd_ts_ns b 34);
      sync_complete t1 corr.

Definition handle_follow_up (b : list Z) (len : Z) : M ptp unit :=
  y ← getG syn;
  if (len <? SYNC_LEN) || negb (sync_waiting_fup y) then mret tt
  else
    seq ← of_opt (rd16 b 30);
    if negb (seq =? sync_seq y) then mret tt
    else
      onG (fun c => set_syn (set_waiting false (syn c)) c);;
      t1 ← of_opt (rd_ts_ns b 34);
      corr ← of_opt (rd_corr_ns b);
      sum ← of_opt (s64 (sync_corr y + corr));
      sync_complete t1 sum.

Definition handle_delay_resp (b : list Z) (len : Z) : M ptp unit :=
  r ← getG dreq;
  if (len <? DELAY_RESP_LEN) || negb (dreq_outstanding r) then mret tt
  else
    seq ← of_opt (rd16 b 30);
    if negb (seq =? dreq_seq r) then mret tt
    else
      id ← getG self_id;
      c ← of_opt (cmp_bytes b 44 id 0 10);
      if negb (c =? 0) then mret tt
      else
        onG (fun c => set_dreq (set_outstanding false (dreq c)) c);;
        l ← getG leg;
        ep ← gets (fun p => ptp_clock_epoch (clk p));
        if negb (t3_epoch r =? ep) || negb (ms_valid l) || negb (ms_epoch l =? t3_epoch r) then mret tt
        else
          ts ← of_opt (rd_ts_ns b 34);
          corr ← of_opt (rd_corr_ns b);
          t4 ← of_opt (s64 (ts - corr));
          sm ← of_opt (s64 (t4 - t3_ns r));
          sum ← of_opt (s64 (ms_leg l + sm));
          let sample := Z.quot sum 2 in
          a ← of_opt (abs64 sample);
          if PTP_DELAY_MAX_NS <? a then mret tt else delay_add sample.

(** One call of the transmit callback. *)
Definition call_tx (port : Z) (buf : list Z) : M ptp (option Z) :=
  n ← gets (fun p => length (sent p));
  modify (fun p => mkPtp (clk p) (g p) (sent p ++ [(port, buf)]) (logs p));;
  mret (tx_result n).

Definition send_delay_req : M ptp unit :=
  now ← onC ptp_clock_now;
  let origin := ptp_internal_to_ts now in
  onG (fun c => set_dreq (mkDreq (dreq_due (dreq c)) (dreq_outstanding (dreq c)) (u16 (dreq_seq (dreq c) + 1))
                            (t3_ns (dreq c)) (t3_epoch (dreq c)) (last_dreq_ms (dreq c))) c);;
  me ← getG self; seq ← getG (fun c => dreq_seq (dreq c));
  pk ← of_opt (ptp_pack_delay_req (replicate (Z.to_nat DELAY_REQ_LENGTH) 0) me seq origin);
  nonnull ← getG tx;
  r ← (if nonnull : bool then call_tx PTP_EVENT_PORT pk.2 else mret None);
  (match r with
   | Some tx_cnt =>
       t3 ← get_opt (fun p => ptp_clock_from_cnt (clk p) tx_cnt);
       ep ← gets (fun p => ptp_clock_epoch (clk p));
       onG (fun c => set_dreq (mkDreq (dreq_due (dreq c)) true (dreq_seq (dreq c)) t3 ep (last_dreq_ms (dreq c))) c)
   | None => mret tt
   end);;
  onG (fun c => set_dreq (mkDreq (dreq_due (dreq c)) (dreq_outstanding (dreq c)) (dreq_seq (dreq c))
                            (t3_ns (dreq c)) (t3_epoch (dreq c)) (now_ms c)) c).

(** ** Interface *)

(** The zeroed state. *)
Definition core_zero : PtpCore :=
  mkCore false (mkHdr 0 0 0 0 0 0 0 0 0 (replicate 8 0) 0 0 0 0) (replicate 10 0)
    (mkMaster false (mkDs 0 0 0 0 0 0 (replicate 8 0) (replicate 10 0)) 0 0 0 0)
    (mkSync false 0 0 0 0 0) (mkLeg false 0 0) (mkDreq false false 0 0 0 0) 0
    (mkFilter (replicate 8 0) 0 0 0) ptp_servo_init 0 0 (mkStats 0 0 0 0).

Definition ptp_core_init (mac : list Z) (domain : Z) (nonnull : bool) : M ptp unit :=
  m0 ← of_opt (rdb mac 0); m1 ← of_opt (rdb mac 1); m2 ← of_opt (rdb mac 2);
  m3 ← of_opt (rdb mac 3); m4 ← of_opt (rdb mac 4); m5 ← of_opt (rdb mac 5);
  let id := [m0; m1; m2; 255; 254; m3; m4; m5] in
  onG (fun _ => mkCore nonnull (mkHdr 0 0 0 0 domain 0 0 0 0 id 1 0 0 0) (id ++ [0; 1])
                  (mst core_zero) (syn core_zero) (leg core_zero) (dreq core_zero) 0 (flt core_zero)
                  (servo core_zero) 0 0 (stats core_zero));;
  reset_measurements;;
  ptp_log (EvInit id domain).

Definition ptp_core_rx (buf : list Z) (len port rx_cnt : Z) : M ptp unit :=
  if len <? PTP_HEADER_LENGTH then mret tt
  else
    b1 ← of_opt (rdb buf 1);
    if negb (Z.land b1 15 =? 2) then mret tt
    else
      dom ← of_opt (rdb buf 4); me ← getG self;
      if negb (dom =? domainNumber me) then mret tt
      else
        id ← getG self_id;
        own ← of_opt (cmp_bytes buf 20 id 0 10);
        if own =? 0 then mret tt
        else
          b0 ← of_opt (rdb buf 0);
          let type := Z.land b0 15 in
          if port =? PTP_EVENT_PORT then
            (if type =? PTP_SYNC then
               fm ← from_master buf;
               if (fm : bool) then handle_sync buf len rx_cnt else mret tt
             else mret tt)
          else if type =? PTP_ANNOUNCE then handle_announce buf len
          else if type =? PTP_FOLLOW_UP then
            (fm ← from_master buf; if (fm : bool) then handle_follow_up buf len else mret tt)
          else if type =? PTP_DELAY_RESP then
            (fm ← from_master buf; if (fm : bool) then handle_delay_resp buf len else mret tt)
          else mret tt.

Definition ptp_core_poll (now : Z) : M ptp unit :=
  onG (set_now now);;
  m ← getG mst;
  if have_master m && (announce_timeout_ms m <? u32 (now - last_announce_ms m)) then
    f ← gets (fun p => ptp_clock_get_freq (clk p));
    ptp_log (EvTimeout f);;
    onG (fun c => set_mst (mkMaster false (master (mst c)) (last_announce_ms (mst c))
                             (announce_timeout_ms (mst c)) (utc_offset (mst c)) (flags1 (mst c))) c);;
    reset_measurements
  else
    r ← getG dreq; st ← getG (fun c => state (servo c));
    if dreq_due r && bool_decide (st <> PTP_SERVO_UNLOCKED) && (900 <=? u32 (now - last_dreq_ms r)) then
      onG (fun c => set_dreq (set_due false (dreq c)) c);;
      send_delay_req
    else mret tt.

Definition ptp_core_is_locked (p : ptp) : bool := bool_decide (state (servo (g p)) = PTP_SERVO_LOCKED).
Definition ptp_core_last_offset_ns (p : ptp) : Z := last_offset (g p).

Record PtpStatus := mkStatus {
  sta_have_master : bool; locked : bool; sta_state : string; offset_ns : Z; sta_delay_ns : Z;
  freq_ppb : Z; sta_n_sync : Z; sta_gm_id : list Z; sta_utc_offset : Z }.
Definition ptp_core_get_status (p : ptp) : option PtpStatus :=
  let c := g p in let m := mst c in
  gm ← copy_bytes (gm_id (master m)) 0 8;
  Some (mkStatus (have_master m) (have_master m && bool_decide (state (servo c) = PTP_SERVO_LOCKED))
          (if have_master m then ptp_servo_state_name (state (servo c)) else "LISTENING")
          (last_offset c) (delay_ns (flt c)) (ptp_clock_get_freq (clk p)) (n_sync c) gm (utc_offset m)).

End engine.
