(* ===== verification/PtpBmc.v ===== *)
(** * Master selection and the delay filter

    [dataset_cmp] is the lexicographic comparison of the Announce fields in
    the order of IEEE 1588, so announcing masters in any order selects the
    best one; [filter_add] keeps the median of the last eight delay samples,
    whatever order they came in. *)

From Stdlib Require Import Sorted.
From stdpp Require Import sorting.
From S2P Require Import Prelude CInt PtpTime PtpMsg PtpClock PtpServo PtpUtil PtpCore.

(** ** The dataset order *)

Fixpoint lex (a b : list Z) : comparison :=
  match a, b with
  | [], [] => Eq
  | [], _ :: _ => Lt
  | _ :: _, [] => Gt
  | x :: a, y :: b => match x ?= y with Eq => lex a b | c => c end
  end.

Definition sign (c : comparison) : Z := match c with Lt => -1 | Eq => 0 | Gt => 1 end.

(** The fields of a dataset in the order of precedence of the standard. *)
Definition ds_key (d : Dataset) : list Z :=
  [prio1 d; clk_class d; clk_accuracy d; variance d; prio2 d] ++ gm_id d ++ [steps_removed d] ++ port_id d.
Definition ds_ok (d : Dataset) : Prop := length (gm_id d) = 8%nat /\ length (port_id d) = 10%nat.

Lemma lex_refl a : lex a a = Eq.
Proof. induction a as [|x a IH]; [done|]. cbn. by rewrite Z.compare_refl. Qed.
Lemma lex_eq a b : lex a b = Eq -> a = b.
Proof.
  revert b. induction a as [|x a IH]; intros [|y b]; try done. cbn.
  destruct (Z.compare_spec x y); try done. intros. subst. by f_equal; auto.
Qed.
Lemma lex_antisym a b : lex b a = CompOpp (lex a b).
Proof.
  revert b. induction a as [|x a IH]; intros [|y b]; try done. cbn. rewrite (Z.compare_antisym x y).
  destruct (x ?= y); cbn; auto.
Qed.
Lemma lex_trans a b c : lex a b <> Gt -> lex b c <> Gt -> lex a c <> Gt.
Proof.
  revert b c. induction a as [|x a IH]; intros [|y b] [|z c]; try done. cbn.
  destruct (Z.compare_spec x y), (Z.compare_spec y z); intros Ha Hb;
    destruct (Z.compare_spec x z); try done; try lia. by apply (IH b).
Qed.

(** [cmp_bytes] on whole arrays of the same length. *)
Lemma cmp_loop_lex a b pa pb :
  length a = length b ->
  cmp_loop (pa ++ a) (Z.of_nat (length pa)) (pb ++ b) (Z.of_nat (length pb)) (length a) = Some (sign (lex a b)).
Proof.
  revert b pa pb. induction a as [|x a IH]; intros [|y b] pa pb Hl; try done. cbn [cmp_loop length lex].
  pose proof (rdb_mid pa (x :: a) [] (Z.of_nat (length pa)) 0 x) as Rx.
  pose proof (rdb_mid pb (y :: b) [] (Z.of_nat (length pb)) 0 y) as Ry.
  rewrite !app_nil_r in Rx, Ry. rewrite Rx, Ry, !obind_some by (done || lia).
  destruct (Z.eqb_spec x y) as [->|Hne]; cbn [negb].
  - rewrite Z.compare_refl. injection Hl as Hl.
    replace (pa ++ y :: a) with ((pa ++ [y]) ++ a) by (by rewrite <- app_assoc).
    replace (pb ++ y :: b) with ((pb ++ [y]) ++ b) by (by rewrite <- app_assoc).
    replace (Z.of_nat (length pa) + 1) with (Z.of_nat (length (pa ++ [y]))) by (rewrite length_app; simpl; lia).
    replace (Z.of_nat (length pb) + 1) with (Z.of_nat (length (pb ++ [y]))) by (rewrite length_app; simpl; lia).
    by apply IH.
  - destruct (Z.ltb_spec x y), (Z.compare_spec x y); try lia; done.
Qed.
Lemma cmp_bytes_lex a b n :
  Z.of_nat (length a) = n -> Z.of_nat (length b) = n -> cmp_bytes a 0 b 0 n = Some (sign (lex a b)).
Proof.
  intros Ha Hb. unfold cmp_bytes. rewrite <- Ha, Nat2Z.id. apply (cmp_loop_lex a b [] []). lia.
Qed.

Lemma lex_app a a' b b' :
  length a = length b -> lex (a ++ a') (b ++ b') = match lex a b with Eq => lex a' b' | c => c end.
Proof.
  revert b. induction a as [|x a IH]; intros [|y b] Hl; try done. cbn. injection Hl as Hl.
  destruct (x ?= y); [by apply IH|done..].
Qed.

Lemma cmp_field x y k l :
  (if negb (x =? y) then Some (if x <? y then -1 else 1) else Some (sign (lex k l))) =
  Some (sign (lex (x :: k) (y :: l))).
Proof.
  cbn. destruct (Z.eqb_spec x y) as [->|]; cbn [negb]; [by rewrite Z.compare_refl|].
  destruct (Z.ltb_spec x y), (Z.compare_spec x y); try lia; done.
Qed.

Lemma dataset_cmp_lex a b : ds_ok a -> ds_ok b -> dataset_cmp a b = Some (sign (lex (ds_key a) (ds_key b))).
Proof.
  intros [Hga Hpa] [Hgb Hpb]. unfold dataset_cmp, ds_key. rewrite !cmp_bytes_lex, obind_some by (rewrite ?Hga, ?Hgb, ?Hpa, ?Hpb; done).
  rewrite cmp_field. cbn [app].
  assert ((if negb (sign (lex (gm_id a) (gm_id b)) =? 0) then Some (sign (lex (gm_id a) (gm_id b)))
           else Some (sign (lex (steps_removed a :: port_id a) (steps_removed b :: port_id b)))) =
          Some (sign (lex (gm_id a ++ steps_removed a :: port_id a) (gm_id b ++ steps_removed b :: port_id b)))) as ->.
  { rewrite lex_app by (by rewrite Hga, Hgb). by destruct (lex (gm_id a) (gm_id b)). }
  by rewrite !cmp_field.
Qed.

(** ** Announcements *)

Lemma rdb_some {A} (b : list A) i : 0 <= i < Z.of_nat (length b) -> exists x, rdb b i = Some x.
Proof.
  intros Hi. unfold rdb. destruct (Z.ltb_spec i 0); [lia|]. apply lookup_lt_is_Some_2. lia.
Qed.
Lemma read_loop_some b o n :
  0 <= o -> o + Z.of_nat n <= Z.of_nat (length b) -> exists l, read_loop b o n = Some l /\ length l = n.
Proof.
  revert o. induction n as [|n IH]; intros o Ho Hl; cbn [read_loop]; [by exists []|].
  destruct (rdb_some b o) as [x ->]; [lia|]. destruct (IH (o + 1)) as (l & -> & <-); [lia|lia|].
  exists (x :: l). by rewrite !obind_some.
Qed.
Lemma rd16_some b o : 0 <= o -> o + 2 <= Z.of_nat (length b) -> exists x, rd16 b o = Some x.
Proof.
  intros. unfold rd16. destruct (rdb_some b o) as [x ->]; [lia|]. destruct (rdb_some b (o + 1)) as [y ->]; [lia|].
  rewrite !obind_some. by eexists.
Qed.

Lemma parse_announce_ok b :
  ANNOUNCE_LEN_MIN <= Z.of_nat (length b) -> exists ds, parse_announce b = Some ds /\ ds_ok ds.
Proof.
  unfold ANNOUNCE_LEN_MIN. intros Hl. unfold parse_announce, copy_bytes.
  destruct (rdb_some b 47) as [? ->]; [lia|]. destruct (rdb_some b 48) as [? ->]; [lia|].
  destruct (rdb_some b 49) as [? ->]; [lia|]. destruct (rd16_some b 50) as [? ->]; [lia..|].
  destruct (rdb_some b 52) as [? ->]; [lia|]. destruct (read_loop_some b 53 (Z.to_nat 8)) as (? & -> & ?); [lia..|].
  destruct (rd16_some b 61) as [? ->]; [lia..|]. destruct (read_loop_some b 20 (Z.to_nat 10)) as (? & -> & ?); [lia..|].
  rewrite !obind_some. eexists. split; [reflexivity|]. by split.
Qed.

(** The selected master, and the choice the announcement of [ds] makes. *)
Definition selected (c : PtpCore) : option Dataset :=
  if have_master (mst c) then Some (master (mst c)) else None.
Definition elect (m : option Dataset) (ds : Dataset) : Dataset :=
  match m with
  | None => ds
  | Some m => if bool_decide (port_id ds = port_id m \/ lex (ds_key ds) (ds_key m) = Lt) then ds else m
  end.

#[global] Instance comparison_eq_dec : EqDecision comparison.
Proof. solve_decision. Defined.

Lemma refresh_run b p :
  ANNOUNCE_LEN_MIN <= Z.of_nat (length b) ->
  exists p', announce_refresh b p = Some (tt, p') /\ selected (g p') = selected (g p) /\ clk p' = clk p.
Proof.
  unfold ANNOUNCE_LEN_MIN. intros Hl. unfold announce_refresh.
  destruct (rdb_some b 33) as [li ->]; [lia|]. destruct (rd16_some b 44) as [uo ->]; [lia..|].
  destruct (rdb_some b 7) as [f ->]; [lia|]. eexists. split; [reflexivity|]. done.
Qed.

Lemma sign_lt c : (sign c <? 0) = bool_decide (c = Lt).
Proof. by destruct c. Qed.
Lemma sign_eq c : (sign c =? 0) = bool_decide (c = Eq).
Proof. by destruct c. Qed.

Lemma handle_announce_elects b len ds p :
  ANNOUNCE_LEN_MIN <= len -> ANNOUNCE_LEN_MIN <= Z.of_nat (length b) -> parse_announce b = Some ds ->
  (forall m, selected (g p) = Some m -> ds_ok m) ->
  exists p', handle_announce b len p = Some (tt, p') /\
    selected (g p') = Some (elect (selected (g p)) ds) /\ clk p' = clk p.
Proof.
  intros Hlen Hl Hp Hm. unfold handle_announce. destruct (Z.ltb_spec len ANNOUNCE_LEN_MIN); [lia|].
  destruct (parse_announce_ok b Hl) as (ds' & Hp' & Hds). rewrite Hp in Hp'. injection Hp' as <-.
  rewrite Hp, (opt_run _ ds) by done. unfold getG. rewrite gets_run. unfold selected in *.
  destruct (have_master (mst (g p))) eqn:Hh.
  - specialize (Hm _ eq_refl). set (m := master (mst (g p))) in *.
    pose proof Hds as [_ Hpd]. pose proof Hm as [_ Hpm].
    rewrite cmp_bytes_lex by (rewrite ?Hpd, ?Hpm; done).
    rewrite dataset_cmp_lex by done. rewrite (bind_eq _ _ p (sign (lex (port_id ds) (port_id m)) =? 0) p) by done.
    rewrite sign_eq. cbn [elect].
    destruct (decide (port_id ds = port_id m)) as [Eid|Eid].
    + rewrite Eid, lex_refl. rewrite (bool_decide_true (Eq = Eq)) by done. rewrite bool_decide_true by (by left).
      unfold onG. cbn -[announce_refresh]. edestruct refresh_run as (p' & Hr & Hs & Hc); [done|].
      exists p'. split; [exact Hr|]. split; [|done]. etransitivity; [exact Hs|]. unfold selected. cbn. by rewrite Hh.
    + assert (lex (port_id ds) (port_id m) <> Eq) as Hne by (intros E; by apply lex_eq in E).
      rewrite (bool_decide_false (lex (port_id ds) (port_id m) = Eq)) by done.
      rewrite (bind_eq _ _ p (sign (lex (ds_key ds) (ds_key m)) <? 0) p) by done. rewrite sign_lt.
      destruct (decide (lex (ds_key ds) (ds_key m) = Lt)) as [El|El].
      * rewrite (bool_decide_true (lex (ds_key ds) (ds_key m) = Lt)) by done.
        rewrite bool_decide_true by (by right). cbn -[announce_refresh].
        edestruct refresh_run as (p' & Hr & Hs & Hc); [done|].
        exists p'. split; [exact Hr|]. split; [|done]. by etransitivity; [exact Hs|].
      * rewrite (bool_decide_false (lex (ds_key ds) (ds_key m) = Lt)) by done.
        rewrite bool_decide_false by tauto. exists p. split; [done|]. split; [|done].
        by rewrite Hh.
  - cbn -[announce_refresh]. edestruct refresh_run as (p' & Hr & Hs & Hc); [done|].
    exists p'. split; [exact Hr|]. split; [|done]. by etransitivity; [exact Hs|].
Qed.

Fixpoint handle_announces (bs : list (list Z)) : M ptp unit :=
  match bs with
  | [] => mret tt
  | b :: bs => handle_announce b (Z.of_nat (length b));; handle_announces bs
  end.

(** What the datasets of announced masters have in common: one per port. *)
Definition consistent (dss : list Dataset) : Prop :=
  forall d d', d ∈ dss -> d' ∈ dss -> port_id d = port_id d' -> d = d'.
Definition best (m : Dataset) (dss : list Dataset) : Prop :=
  m ∈ dss /\ forall d, d ∈ dss -> lex (ds_key m) (ds_key d) <> Gt.

Lemma elect_best m seen ds :
  consistent (ds :: seen) -> best m seen -> best (elect (Some m) ds) (ds :: seen).
Proof.
  intros Hc [Hin Hb]. cbn [elect]. case_bool_decide as E.
  - split; [by left|]. intros d Hd. apply elem_of_cons in Hd as [->|Hd]; [by rewrite lex_refl|].
    destruct E as [E|E].
    + rewrite (Hc ds m) by (done || (by left) || (by right)). by apply Hb.
    + apply (lex_trans _ (ds_key m)); [by rewrite E|by apply Hb].
  - split; [by right|]. intros d Hd. apply elem_of_cons in Hd as [->|Hd]; [|by apply Hb].
    intros Hgt. rewrite lex_antisym in Hgt. destruct (lex (ds_key ds) (ds_key m)) eqn:El; try done. tauto.
Qed.

Lemma announces_elect bs dss seen p m :
  Forall2 (fun b ds => ANNOUNCE_LEN_MIN <= Z.of_nat (length b) /\ parse_announce b = Some ds) bs dss ->
  consistent (reverse dss ++ seen) -> selected (g p) = Some m -> ds_ok m -> best m seen ->
  exists p' m', handle_announces bs p = Some (tt, p') /\ selected (g p') = Some m' /\ ds_ok m' /\
    best m' (reverse dss ++ seen) /\ clk p' = clk p.
Proof.
  intros Hf. revert p m seen. induction Hf as [|b ds bs dss [Hl Hp] Hf IH]; intros p m seen Hc Hs Hm Hb.
  { exists p, m. done. }
  rewrite reverse_cons, <- app_assoc in *. cbn [app] in *.
  destruct (handle_announce_elects b (Z.of_nat (length b)) ds p) as (p1 & H1 & Hs1 & Hc1); try done.
  { intros m' E. rewrite Hs in E. by injection E as <-. }
  rewrite Hs in Hs1. destruct (parse_announce_ok b Hl) as (ds' & Hp' & Hds). rewrite Hp in Hp'. injection Hp' as <-.
  assert (ds_ok (elect (Some m) ds)) by (cbn [elect]; by case_bool_decide).
  destruct (IH p1 (elect (Some m) ds) (ds :: seen)) as (p' & m' & Hr & Hrest); try done.
  { apply elect_best; [|done]. intros d d' Hd Hd'. apply Hc; apply elem_of_app; by right. }
  exists p', m'. cbn [handle_announces]. rewrite (bind_eq _ _ _ _ _ H1). split; [done|].
  destruct Hrest as (? & ? & ? & ->). done.
Qed.


(** Two masters, priority 128 and 100, the better one announced first and
    again after the other. *)
Definition demo_announce (p1 : Z) (port : Z) : list Z :=
  replicate 20 0 ++ replicate 9 7 ++ [port] ++ replicate 17 0 ++ [p1] ++ replicate 16 0.
Definition demo_ds (p1 : Z) (port : Z) : Dataset :=
  mkDs p1 0 0 0 0 0 (replicate 8 0) (replicate 9 7 ++ [port]).
Definition ptp_boot : ptp := mkPtp clock_boot core_zero [] [].


(** ** The delay filter *)

Lemma rdb_app (l : list Z) x r : rdb (l ++ x :: r) (Z.of_nat (length l)) = Some x.
Proof.
  unfold rdb. destruct (Z.ltb_spec (Z.of_nat (length l)) 0); [lia|]. by rewrite Nat2Z.id, list_lookup_middle.
Qed.
Lemma wrb_app (l : list Z) x r v : wrb (l ++ x :: r) (Z.of_nat (length l)) v = Some (l ++ v :: r).
Proof.
  unfold wrb. rewrite bool_decide_true by (rewrite length_app; simpl; lia).
  rewrite Nat2Z.id, insert_app_r_alt, Nat.sub_diag by lia. done.
Qed.

Lemma insert_loop_sorts l w r v :
  StronglySorted Z.le l ->
  exists m, insert_loop (l ++ w :: r) (length l) v = Some (m ++ r) /\ m ≡ₚ v :: l /\ StronglySorted Z.le m.
Proof.
  revert w r. induction l as [|x l IH] using rev_ind; intros w r Hs.
  - exists [v]. split; [done|]. split; [done|]. repeat constructor.
  - apply StronglySorted_app in Hs as (Hlt & Hs & _). rewrite length_app, Nat.add_1_r. cbn [insert_loop].
    rewrite <- app_assoc. cbn [app]. rewrite rdb_app, obind_some.
    assert (wrb (l ++ x :: w :: r) (Z.of_nat (S (length l))) x = Some (l ++ x :: x :: r) /\
            wrb (l ++ x :: w :: r) (Z.of_nat (S (length l))) v = Some (l ++ x :: v :: r)) as [Hx Hv].
    { replace (l ++ x :: w :: r) with ((l ++ [x]) ++ w :: r) by (by rewrite <- app_assoc).
      replace (Z.of_nat (S (length l))) with (Z.of_nat (length (l ++ [x]))) by (rewrite length_app; simpl; lia).
      rewrite !wrb_app, <- !app_assoc. done. }
    destruct (Z.ltb_spec v x).
    + rewrite Hx, obind_some. destruct (IH x (x :: r)) as (m & -> & Hp & Hm); [done|].
      exists (m ++ [x]). rewrite <- app_assoc. split; [done|]. split.
      * rewrite Hp. by rewrite <- app_comm_cons.
      * apply StronglySorted_app_2; [|done|repeat constructor].
        intros a b Ha Hb. apply list_elem_of_singleton in Hb as ->. rewrite Hp in Ha.
        apply elem_of_cons in Ha as [->|Ha]; [lia|]. apply Hlt; [done|by left].
    + rewrite Hv. exists (l ++ [x; v]). rewrite <- app_assoc. split; [done|]. split.
      * rewrite (Permutation_app_comm l [x; v]), (Permutation_app_comm l [x]). cbn. apply perm_swap.
      * apply StronglySorted_app_2; [|done|repeat constructor; lia].
        intros a b Ha Hb. specialize (Hlt a x Ha ltac:(by left)).
        rewrite !elem_of_cons, elem_of_nil in Hb. destruct Hb as [->|[->|[] ] ]; lia.
Qed.

Lemma sort_loop_sorts a r :
  StronglySorted Z.le a ->
  exists s, sort_loop (a ++ r) (length a) (length r) = Some s /\ s ≡ₚ a ++ r /\ StronglySorted Z.le s.
Proof.
  revert a. induction r as [|v r IH]; intros a Ha; cbn [length sort_loop].
  { rewrite app_nil_r. by exists a. }
  rewrite rdb_app, obind_some. destruct (insert_loop_sorts a v r v Ha) as (m & -> & Hp & Hm).
  rewrite obind_some. destruct (IH m Hm) as (s & Hs & Hps & Hss).
  assert (length m = S (length a)) as <- by (rewrite Hp; done).
  exists s. split; [done|]. split; [|done]. rewrite Hps, Hp. cbn. by rewrite Permutation_middle.
Qed.

(** The reference: the median of a list by sorting it. *)
Definition median (w : list Z) : Z :=
  let s := merge_sort Z.le w in
  let n := length w in
  if Nat.odd n then s !!! (n / 2)%nat else Z.quot (s !!! (n / 2 - 1)%nat + s !!! (n / 2)%nat) 2.

(** The samples the window covers, newest last. *)
Definition last_window (xs : list Z) : list Z := drop (length xs - 8) xs.

(** The filter's window after the samples [xs] since the reset. *)
Definition filter_rep (f : DelayFilter) (xs : list Z) : Prop :=
  length (delay_win f) = 8%nat /\
  if decide (length xs < 8)%nat
  then delay_n f = Z.of_nat (length xs) /\ delay_idx f = Z.of_nat (length xs) /\ take (length xs) (delay_win f) = xs
  else delay_n f = 8 /\ exists i, delay_idx f = Z.of_nat i /\ (i < 8)%nat /\
       drop i (delay_win f) ++ take i (delay_win f) = last_window xs.

Lemma median_perm w s : s ≡ₚ w -> StronglySorted Z.le s -> merge_sort Z.le w = s.
Proof.
  intros Hp Hs. apply (StronglySorted_unique Z.le); [apply StronglySorted_merge_sort; apply _|done|].
  by rewrite merge_sort_Permutation.
Qed.

Lemma read_loop_take n (b p : list Z) :
  (n <= length b)%nat -> read_loop (p ++ b) (Z.of_nat (length p)) n = Some (take n b).
Proof.
  revert b p. induction n as [|n IH]; intros b p Hn; [done|]. destruct b as [|x b]; [simpl in Hn; lia|].
  cbn [read_loop]. rewrite rdb_app, obind_some.
  replace (p ++ x :: b) with ((p ++ [x]) ++ b) by (by rewrite <- app_assoc).
  replace (Z.of_nat (length p) + 1) with (Z.of_nat (length (p ++ [x]))) by (rewrite length_app; simpl; lia).
  rewrite IH by (simpl in Hn; lia). done.
Qed.

(** The oldest sample of a full window is replaced by the new one. *)
Lemma window_shift (w : list Z) i x :
  length w = 8%nat -> (i < 8)%nat ->
  let j := ((i + 1) mod 8)%nat in
  drop j (<[i := x]> w) ++ take j (<[i := x]> w) = tail (drop i w ++ take i w) ++ [x].
Proof.
  intros Hw Hi j. do 8 (destruct w as [|? w]; [done|]). destruct w; [|done].
  do 8 (destruct i as [|i]; [reflexivity|]). lia.
Qed.

Lemma last_window_snoc xs x :
  last_window (xs ++ [x]) = (if decide (length xs < 8)%nat then xs else tail (last_window xs)) ++ [x].
Proof.
  unfold last_window. rewrite length_app. cbn [length]. case_decide.
  - replace (length xs + 1 - 8)%nat with 0%nat by lia. by rewrite drop_0.
  - rewrite drop_app_le by lia. f_equal. replace (length xs + 1 - 8)%nat with (1 + (length xs - 8))%nat by lia.
    rewrite Nat.add_comm, <- drop_drop. by destruct (drop (length xs - 8) xs).
Qed.

Lemma last_window_small xs : (length xs <= 8)%nat -> last_window xs = xs.
Proof. intros. unfold last_window. replace (length xs - 8)%nat with 0%nat by lia. by rewrite drop_0. Qed.

Lemma last_window_length xs : length (last_window xs) = (length xs `min` 8)%nat.
Proof. unfold last_window. rewrite length_drop. lia. Qed.

(** The number of samples, the write index and the window after one more. *)
Lemma filter_next f xs x :
  filter_rep f xs ->
  exists win n idx, wrb (delay_win f) (delay_idx f) x = Some win /\
    n = (if delay_n f <? PTP_DELAY_WIN then u32 (delay_n f + 1) else delay_n f) /\
    idx = u32 (delay_idx f + 1) mod PTP_DELAY_WIN /\
    n = Z.of_nat (length (last_window (xs ++ [x]))) /\ length win = 8%nat /\
    take (Z.to_nat n) win ≡ₚ last_window (xs ++ [x]) /\
    forall d, filter_rep (mkFilter win n idx d) (xs ++ [x]).
Proof.
  intros (Hw & Hr). unfold PTP_DELAY_WIN. unfold wrb.
  assert (length (xs ++ [x]) = length xs + 1)%nat as Hl by (by rewrite length_app).
  case_decide as Hk.
  - destruct Hr as (Hn & Hi & Ht). rewrite Hn, Hi. rewrite bool_decide_true by lia. rewrite Nat2Z.id.
    set (k := length xs) in *. destruct (Z.ltb_spec (Z.of_nat k) 8); [|lia]. rewrite !u32_ok by lia.
    eexists _, _, _. split; [reflexivity|]. split; [reflexivity|]. split; [reflexivity|].
    rewrite last_window_length, Hl. split; [lia|]. split; [by rewrite length_insert|].
    assert (take (k + 1) (<[k:=x]> (delay_win f)) = xs ++ [x]) as Hnew.
    { rewrite Nat.add_1_r. erewrite take_S_r by (apply list_lookup_insert_eq; lia).
      rewrite take_insert_ge by lia. by rewrite Ht. }
    split.
    + replace (Z.to_nat (Z.of_nat k + 1)) with (k + 1)%nat by lia. rewrite Hnew, last_window_small by lia. done.
    + intros d. split; [cbn [delay_win]; by rewrite length_insert|]. rewrite Hl. cbn [delay_win delay_n delay_idx].
      case_decide as Hk'.
      * rewrite Z.mod_small by lia. split; [lia|]. split; [lia|]. done.
      * assert (k = 7%nat) as E by lia. split; [lia|]. exists 0%nat. rewrite E. split; [done|]. split; [lia|].
        rewrite drop_0, take_0, app_nil_r, last_window_small by lia. rewrite <- Hnew.
        rewrite take_ge by (rewrite length_insert; lia). by rewrite E.
  - destruct Hr as (Hn & i & Hi & Hi8 & Hrot). rewrite Hn, Hi. rewrite bool_decide_true by lia. rewrite Nat2Z.id.
    cbn [Z.ltb Z.compare Pos.compare Pos.compare_cont]. rewrite u32_ok by lia.
    eexists _, _, _. split; [reflexivity|]. split; [reflexivity|]. split; [reflexivity|].
    rewrite last_window_length, Hl. split; [lia|]. split; [by rewrite length_insert|].
    assert (drop ((i + 1) mod 8) (<[i:=x]> (delay_win f)) ++ take ((i + 1) mod 8) (<[i:=x]> (delay_win f)) =
      last_window (xs ++ [x])) as Hnew.
    { rewrite window_shift by done. rewrite last_window_snoc, Hrot. by rewrite decide_False by lia. }
    split.
    + rewrite <- Hnew, Permutation_app_comm, take_drop, take_ge by (rewrite length_insert; lia). done.
    + intros d. split; [cbn [delay_win]; by rewrite length_insert|]. rewrite Hl. rewrite decide_False by lia. cbn [delay_win delay_n delay_idx].
      split; [done|]. exists ((i + 1) mod 8)%nat. split; [|split; [apply Nat.mod_upper_bound; lia|done] ].
      rewrite Nat2Z.inj_mod. f_equal. lia.
Qed.

Lemma sorted_lookup_bound s w n (B : Z) :
  s ≡ₚ w -> Forall (fun x => Z.abs x <= B) w -> (n < length w)%nat ->
  exists x, s !! n = Some x /\ Z.abs x <= B.
Proof.
  intros Hp Hf Hn. destruct (lookup_lt_is_Some_2 s n) as [x Hx]; [by rewrite Hp|].
  exists x. split; [done|]. rewrite Forall_forall in Hf. apply Hf. rewrite <- Hp. by eapply list_elem_of_lookup_2.
Qed.

Lemma filter_add_median f xs x :
  filter_rep f xs -> Forall (fun x => Z.abs x <= PTP_DELAY_MAX_NS) (xs ++ [x]) ->
  exists f', filter_add f x = Some f' /\ filter_rep f' (xs ++ [x]) /\
    delay_ns f' = median (last_window (xs ++ [x])) /\ Z.abs (delay_ns f') <= PTP_DELAY_MAX_NS.
Proof.
  intros Hr Hb. destruct (filter_next f xs x Hr) as (win & n & idx & H1 & H2 & H3 & Hn & Hw & Hp & Hrep).
  unfold filter_add. rewrite H1, obind_some. cbn zeta. rewrite <- H2, <- H3.
  set (w := last_window (xs ++ [x])) in *.
  assert (0 < length w <= 8)%nat as Hlen by (unfold w; rewrite last_window_length, length_app; simpl; lia).
  assert (Forall (fun x => Z.abs x <= PTP_DELAY_MAX_NS) w) as Hbw by (by apply Forall_drop).
  rewrite Hn, Nat2Z.id. rewrite Hn, Nat2Z.id in Hp. rewrite Hn in Hrep. set (k := length w) in *.
  pose proof (read_loop_take k win []) as Hread. cbn [app length] in Hread. change (Z.of_nat 0) with 0 in Hread. rewrite Hread by lia. rewrite obind_some.
  destruct (take k win) as [|a r] eqn:Et; [apply (f_equal length) in Et; rewrite length_take in Et; simpl in Et; lia|].
  assert (length r = k - 1)%nat as Hlr by (apply (f_equal length) in Et; rewrite length_take in Et; simpl in Et; lia).
  destruct (sort_loop_sorts [a] r) as (s & Hs & Hps & Hss); [repeat constructor|]. cbn [app length] in Hs, Hps.
  rewrite Hlr in Hs. rewrite Hs, obind_some. rewrite Hp in Hps.
  assert (median w = if Nat.odd k then s !!! (k / 2)%nat else Z.quot (s !!! (k / 2 - 1)%nat + s !!! (k / 2)%nat) 2) as Hm.
  { unfold median. by rewrite (median_perm w s). }
  assert (forall j, (j < k)%nat -> rdb s (Z.of_nat j) = Some (s !!! j) /\ Z.abs (s !!! j) <= PTP_DELAY_MAX_NS) as Hj.
  { intros j Hj. destruct (sorted_lookup_bound s w j PTP_DELAY_MAX_NS Hps Hbw Hj) as (y & Hy & Hyb).
    rewrite (list_lookup_total_correct _ _ _ Hy). split; [|done]. unfold rdb.
    destruct (Z.ltb_spec (Z.of_nat j) 0); [lia|]. by rewrite Nat2Z.id. }
  assert (Nat.odd k = (Z.of_nat k mod 2 =? 1)) as Hodd.
  { do 9 (destruct k as [|k]; [reflexivity|]). lia. }
  rewrite <- Hodd. replace (Z.of_nat k / 2) with (Z.of_nat (k / 2)) by (by rewrite Nat2Z.inj_div).
  assert (k / 2 < k)%nat as Hhalf by (apply Nat.div_lt; lia).
  destruct (Nat.odd k) eqn:Eo.
  - destruct (Hj (k / 2)%nat Hhalf) as [Hx Hxb]. rewrite Hx, obind_some.
    eexists. split; [reflexivity|]. split; [apply Hrep|]. cbn [delay_ns]. by rewrite Hm.
  - assert (1 <= k / 2)%nat as H2k by (apply Nat.div_le_lower_bound; [lia|]; destruct k as [|[|k] ]; [lia|done|lia]).
    replace (u32 (Z.of_nat (k / 2) - 1)) with (Z.of_nat (k / 2 - 1)) by (rewrite u32_ok; lia).
    destruct (Hj (k / 2 - 1)%nat ltac:(lia)) as [Hx Hxb], (Hj (k / 2)%nat Hhalf) as [Hy Hyb].
    rewrite Hx, Hy, !obind_some. unfold PTP_DELAY_MAX_NS in *. rewrite s64_bind by lia. rewrite obind_some.
    eexists. split; [reflexivity|]. split; [apply Hrep|]. cbn [delay_ns]. rewrite Hm. split; [done|].
    apply quot_bounds; lia.
Qed.

Fixpoint filter_adds (f : DelayFilter) (xs : list Z) : option DelayFilter :=
  match xs with [] => Some f | x :: xs => f' ← filter_add f x; filter_adds f' xs end.

(** C23: the path delay used is the median of the most recent samples: after
    any non-empty sequence of accepted samples (at most 10 ms each) since the
    last reset, whatever the window held before, the filtered delay is the
    median of the last eight, computed without overflow and again at most
    10 ms. *)
Theorem delay_filter_is_median (win : list Z) (xs : list Z) (x : Z) :
  length win = 8%nat -> Forall (fun y => Z.abs y <= PTP_DELAY_MAX_NS) (xs ++ [x]) ->
  exists f, filter_adds (mkFilter win 0 0 (-1)) (xs ++ [x]) = Some f /\
    delay_ns f = median (last_window (xs ++ [x])) /\ Z.abs (delay_ns f) <= PTP_DELAY_MAX_NS.
Proof.
  intros Hw. assert (forall ys f pre, filter_rep f pre -> Forall (fun y => Z.abs y <= PTP_DELAY_MAX_NS) (pre ++ ys ++ [x]) ->
    exists f', filter_adds f (ys ++ [x]) = Some f' /\ delay_ns f' = median (last_window (pre ++ ys ++ [x])) /\
      Z.abs (delay_ns f') <= PTP_DELAY_MAX_NS) as H.
  { induction ys as [|y ys IH]; intros f pre Hr Hb; cbn [app filter_adds] in *.
    - destruct (filter_add_median f pre x Hr Hb) as (f' & -> & _ & ? & ?). rewrite obind_some. by exists f'.
    - replace (pre ++ y :: ys ++ [x]) with ((pre ++ [y]) ++ ys ++ [x]) in * by (by rewrite <- app_assoc).
      destruct (filter_add_median f pre y Hr) as (f' & -> & Hr' & _); [by apply Forall_app in Hb as [? _]|].
      rewrite obind_some. by apply IH. }
  intros Hb. apply (H xs _ []); [|done]. split; [done|]. cbn. done.
Qed.

Lemma delay_filter_is_median_witness :
  exists f, filter_adds (mkFilter (replicate 8 0) 0 0 (-1)) ([900; 100; 500] ++ [300]) = Some f /\ delay_ns f = 400.
Proof.
  destruct (delay_filter_is_median (replicate 8 0) [900; 100; 500] 300) as (f & Hf & Hd & _);
    [reflexivity|repeat constructor; vm_compute; congruence|].
  exists f. split; [exact Hf|]. rewrite Hd. vm_compute. reflexivity.
Defined.
