(* ===== verification/PtpInv.v ===== *)
(** * Invariants of the PTP engine

    Whatever messages arrive, with whatever contents, ports and timestamps,
    interleaved with polls, the frequency applied to the clock stays within
    500 ppm, the path delay within 10 ms and the servo and filter within their
    ranges.  A computation that reaches undefined behaviour (signed overflow,
    which some messages cause) has no next state: the invariant is that of the
    executions up to such a step. *)

From S2P Require Import Prelude CInt PtpTime PtpMsg PtpClock PtpServo PtpUtil PtpCore PtpBmc.

(** [keeps P c Q]: from a state with [P], if [c] returns, its result and state satisfy [Q]. *)
Definition keeps {S A} (P : S -> Prop) (c : M S A) (Q : A -> S -> Prop) : Prop :=
  forall s a s', P s -> c s = Some (a, s') -> Q a s'.

Section keeps.
Context {S : Type}.
Implicit Types P : S -> Prop.

Lemma keeps_ret {A} P (a : A) (Q : A -> S -> Prop) : (forall s, P s -> Q a s) -> keeps P (mret a) Q.
Proof. intros H s b s' Hs E. injection E as <- <-. auto. Qed.
Lemma keeps_bind {A B} P (c : M S A) (k : A -> M S B) R Q :
  keeps P c R -> (forall a, keeps (R a) (k a) Q) -> keeps P (c ≫= k) Q.
Proof.
  intros Hc Hk s b s' Hs E. unfold mbind, M_bind in E. destruct (c s) as [ [a s1]|] eqn:Ec; [|done].
  by apply (Hk a s1); [apply (Hc s)|].
Qed.
Lemma keeps_gets {A} P (f : S -> A) (Q : A -> S -> Prop) : (forall s, P s -> Q (f s) s) -> keeps P (gets f) Q.
Proof. intros H s b s' Hs E. injection E as <- <-. auto. Qed.
Lemma keeps_modify P (f : S -> S) (Q : unit -> S -> Prop) : (forall s, P s -> Q tt (f s)) -> keeps P (modify f) Q.
Proof. intros H s b s' Hs E. injection E as <- <-. auto. Qed.
Lemma keeps_get_opt {A} P (f : S -> option A) (Q : A -> S -> Prop) :
  (forall s a, P s -> f s = Some a -> Q a s) -> keeps P (get_opt f) Q.
Proof.
  intros H s b s' Hs E. unfold get_opt in E. destruct (f s) eqn:Ef; [|done]. injection E as <- <-. auto.
Qed.
Lemma keeps_of_opt {A} P (o : option A) (Q : A -> S -> Prop) :
  (forall s a, P s -> o = Some a -> Q a s) -> keeps P (of_opt o) Q.
Proof. intros H. by apply keeps_get_opt. Qed.
Lemma keeps_any {A} P (o : option A) : keeps P (of_opt o) (fun _ => P).
Proof. apply keeps_of_opt. auto. Qed.
Lemma keeps_if {A} P (b : bool) (c d : M S A) Q :
  keeps P c Q -> keeps P d Q -> keeps P (if b then c else d) Q.
Proof. by destruct b. Qed.
Lemma keeps_mono {A} P (c : M S A) (Q R : A -> S -> Prop) :
  keeps P c Q -> (forall a s, Q a s -> R a s) -> keeps P c R.
Proof. intros H HQ s a s' Hs E. by apply HQ, (H s). Qed.
End keeps.

Lemma keeps_zoom {S T A} (get : S -> T) (put : T -> S -> S) (c : M T A) (P : T -> Prop) (Q : A -> T -> Prop) (I : S -> Prop) (J : A -> S -> Prop) :
  keeps P c Q -> (forall s, I s -> P (get s)) -> (forall s a t, I s -> Q a t -> J a (put t s)) ->
  keeps I (zoom get put c) J.
Proof.
  intros Hc HI HJ s a s' Hs E. unfold zoom in E. destruct (c (get s)) as [ [b t]|] eqn:Ec; [|done].
  injection E as <- <-. apply HJ; [done|]. apply (Hc (get s)); auto.
Qed.

(** Computations all of whose steps keep the invariant [I]. *)
Ltac keeps_step I :=
  lazymatch goal with
  | |- keeps _ (mbind _ _) _ => apply (keeps_bind _ _ _ (fun _ => I)); [|intros ?]
  | |- keeps _ (mret _) _ => apply keeps_ret; intros ? ?; assumption
  | |- keeps _ (of_opt _) _ => apply keeps_any
  | |- keeps _ (gets _) _ => apply keeps_gets; intros ? ?; assumption
  | |- keeps _ (get_opt _) _ => apply keeps_get_opt; intros ? ? ? ?; assumption
  | |- keeps _ (if _ then _ else _) _ => apply keeps_if
  | |- keeps _ (let '(_, _) := ?x in _) _ => destruct x
  end.
Ltac keeps_steps I := repeat (keeps_step I; cbn beta).

Section clock.
Context {HW : PtpHw}.

Definition ppb_ok (c : PtpClock) : Prop := Z.abs (s_ppb c) <= PTP_CLOCK_MAX_PPB.

Lemma keeps_read : keeps ppb_ok ptp_clock_read_cnt (fun _ => ppb_ok).
Proof.
  unfold ptp_clock_read_cnt. keeps_steps ppb_ok. apply keeps_modify. done.
Qed.
Lemma keeps_now : keeps ppb_ok ptp_clock_now_ns (fun _ => ppb_ok).
Proof. unfold ptp_clock_now_ns. keeps_steps ppb_ok. apply keeps_read. Qed.
Lemma keeps_rebase : keeps ppb_ok rebase (fun _ => ppb_ok).
Proof. unfold rebase. keeps_steps ppb_ok; [apply keeps_read|]. apply keeps_modify. done. Qed.
Lemma keeps_clock_step delta : keeps ppb_ok (ptp_clock_step delta) (fun _ => ppb_ok).
Proof. unfold ptp_clock_step. keeps_steps ppb_ok; [apply keeps_rebase|]. apply keeps_modify. done. Qed.
Lemma keeps_adjfreq ppb : keeps ppb_ok (ptp_clock_adjfreq ppb) (fun _ => ppb_ok).
Proof.
  unfold ptp_clock_adjfreq. keeps_steps ppb_ok; [apply keeps_rebase|]. apply keeps_modify. intros s _.
  unfold ppb_ok, PTP_CLOCK_MAX_PPB. cbn [s_ppb]. repeat case_match; lia.
Qed.

Lemma keeps_do_step s raw d rx :
  keeps ppb_ok (do_step s raw d rx) (fun s' c => ppb_ok c /\ drift_ppb s' = drift_ppb s /\ outliers s' = outliers s).
Proof.
  unfold do_step. apply (keeps_bind _ _ _ (fun _ => ppb_ok)); [apply keeps_any|intros ?].
  apply (keeps_bind _ _ _ (fun _ => ppb_ok)); [apply keeps_any|intros ?].
  apply (keeps_bind _ _ _ (fun _ => ppb_ok)); [apply keeps_clock_step|intros ?].
  apply keeps_ret. done.
Qed.

Definition sample_kept (os : Z * PtpServo) (c : PtpClock) : Prop := ppb_ok c /\ servo_ok os.2.

Lemma keeps_servo s raw delay rx :
  servo_ok s -> keeps ppb_ok (ptp_servo_sample s raw delay rx) sample_kept.
Proof.
  intros [Hd Ho]. unfold ptp_servo_sample. cbn zeta.
  apply (keeps_bind _ _ _ (fun _ => ppb_ok)); [apply keeps_any|intros offset].
  destruct (state s).
  - eapply keeps_bind; [apply keeps_do_step|]. intros s'. apply keeps_ret. intros c (? & ? & ?).
    split; [done|]. split; cbn; congruence || lia.
  - apply keeps_if; [apply keeps_ret; intros c ?; split; [done|]; by split|].
    do 3 (apply (keeps_bind _ _ _ (fun _ => ppb_ok)); [apply keeps_any|intros ?]).
    apply (keeps_bind _ _ _ (fun _ => ppb_ok)); [by apply keeps_gets|intros ?].
    do 2 (apply (keeps_bind _ _ _ (fun _ => ppb_ok)); [apply keeps_any|intros ?]).
    apply (keeps_bind _ _ _ (fun _ => ppb_ok)); [apply keeps_adjfreq|intros ?].
    apply keeps_if.
    + eapply keeps_bind; [apply keeps_do_step|]. intros s'. apply keeps_ret. intros c (? & Hd' & Ho').
      split; [done|]. split; cbn in *; [rewrite Hd'; apply clamp_ppb_bound|lia].
    + apply keeps_ret. intros c ?. split; [done|]. split; cbn; [apply clamp_ppb_bound|lia].
  - apply (keeps_bind _ _ _ (fun _ => ppb_ok)); [apply keeps_any|intros ao].
    apply keeps_if.
    + unfold PTP_SERVO_OUTLIERS in *. cbn [set_outliers outliers]. rewrite u32_ok by lia.
      destruct (Z.leb_spec 3 (outliers s + 1)).
      * eapply keeps_bind; [apply keeps_do_step|]. intros s'. apply keeps_ret. intros c (? & Hd' & Ho').
        split; [done|]. split; cbn in *; [by rewrite Hd'|unfold PTP_SERVO_OUTLIERS; lia].
      * apply keeps_ret. intros c ?. split; [done|]. split; cbn; [done|unfold PTP_SERVO_OUTLIERS; lia].
    + do 11 (apply (keeps_bind _ _ _ (fun _ => ppb_ok)); [apply keeps_any|intros ?]).
      apply (keeps_bind _ _ _ (fun _ => ppb_ok)); [apply keeps_adjfreq|intros ?].
      apply keeps_ret. intros c ?. split; [done|]. split; cbn; [apply clamp_ppb_bound|unfold PTP_SERVO_OUTLIERS; lia].
Qed.
End clock.

(** ** The engine *)

Definition small (x : Z) : Prop := Z.abs x <= PTP_DELAY_MAX_NS.

Definition count_ok (st : Stats) : Prop := 0 <= st_n st < PTP_STATS_WIN.

(** The invariant of the engine's own state. *)
Definition core_ok (c : PtpCore) : Prop :=
  servo_ok (servo c) /\
  (exists xs, filter_rep (flt c) xs /\ Forall small xs) /\ small (delay_ns (flt c)) /\
  ds_ok (master (mst c)) /\
  count_ok (stats c).
Definition ptp_inv (p : ptp) : Prop := ppb_ok (clk p) /\ core_ok (g p).

Lemma keeps_onG (f : PtpCore -> PtpCore) :
  (forall c, core_ok c -> core_ok (f c)) -> keeps ptp_inv (onG f) (fun _ => ptp_inv).
Proof. intros Hf. apply keeps_modify. intros p [Hc Hg]. split; [done|]. by apply Hf. Qed.
Lemma keeps_log e : keeps ptp_inv (ptp_log e) (fun _ => ptp_inv).
Proof. apply keeps_modify. done. Qed.
Lemma keeps_onC {A} (c : M PtpClock A) : keeps ppb_ok c (fun _ => ppb_ok) -> keeps ptp_inv (onC c) (fun _ => ptp_inv).
Proof. intros Hc. eapply keeps_zoom; [exact Hc|by intros p []|]. by intros p a t [] ?. Qed.
Lemma keeps_getG {A} (f : PtpCore -> A) : keeps ptp_inv (getG f) (fun _ => ptp_inv).
Proof. apply keeps_gets. done. Qed.

(** Steps of the engine that keep its invariant. *)
Ltac core_step :=
  lazymatch goal with
  | |- keeps _ (getG _) _ => apply keeps_getG
  | |- keeps _ (ptp_log _) _ => apply keeps_log
  | |- keeps _ (onG _) _ => apply keeps_onG; let H := fresh in intros ? H; solve [exact H]
  | _ => keeps_step ptp_inv
  end.
Ltac core_steps := repeat (core_step; cbn beta).

Lemma core_ok_reset c : core_ok c -> core_ok (set_flt (mkFilter (delay_win (flt c)) 0 0 (-1)) c).
Proof.
  intros (? & (xs & [Hw _] & _) & _ & ? & ?). split; [done|]. split; [|done].
  exists []. split; [|constructor]. split; [done|]. by cbn.
Qed.
Lemma keeps_reset : keeps ptp_inv reset_measurements (fun _ => ptp_inv).
Proof.
  unfold reset_measurements. core_steps.
  - apply keeps_onG. apply core_ok_reset.
  - apply keeps_onG. by intros c (? & ? & ? & ? & ?).
  - apply keeps_onG. intros c (_ & ? & ? & ? & ?). by (red; split_and!).
Qed.

Lemma keeps_refresh b : keeps ptp_inv (announce_refresh b) (fun _ => ptp_inv).
Proof. unfold announce_refresh. core_steps. Qed.

Lemma core_ok_master c m :
  core_ok c -> ds_ok (master m) -> core_ok (set_mst m c).
Proof. intros (? & ? & ? & _ & ?) Hm. by repeat (split; [done|]). Qed.

Lemma read_loop_length b o n l : read_loop b o n = Some l -> length l = n.
Proof.
  revert o l. induction n as [|n IH]; intros o l; cbn [read_loop]; [by intros [= <-]|].
  destruct (rdb b o); [|done]. cbn. destruct (read_loop b (o + 1) n) as [l'|] eqn:E; [|done].
  cbn. intros [= <-]. cbn. f_equal. by eapply IH.
Qed.
Lemma parse_announce_ds b ds : parse_announce b = Some ds -> ds_ok ds.
Proof.
  unfold parse_announce, copy_bytes. destruct (rdb b 47); [|done]. destruct (rdb b 48); [|done].
  destruct (rdb b 49); [|done]. destruct (rd16 b 50); [|done]. destruct (rdb b 52); [|done].
  destruct (read_loop b 53 (Z.to_nat 8)) as [l|] eqn:E1; [|done]. destruct (rd16 b 61); [|done].
  destruct (read_loop b 20 (Z.to_nat 10)) as [l'|] eqn:E2; [|done].
  intros [= <-]. apply read_loop_length in E1, E2. by split.
Qed.

Lemma keeps_announce b len : keeps ptp_inv (handle_announce b len) (fun _ => ptp_inv).
Proof.
  unfold handle_announce. apply keeps_if; [core_steps|].
  apply (keeps_bind _ _ _ (fun ds p => ds_ok ds /\ ptp_inv p)).
  { apply keeps_of_opt. intros p ds Hp Hds. split; [by eapply parse_announce_ds|done]. }
  intros ds. intros p a p' [Hds Hp]. revert p a p' Hp.
  change (keeps ptp_inv (m ← getG mst;
    same ← (if have_master m then c ← of_opt (cmp_bytes (port_id ds) 0 (port_id (master m)) 0 10); mret (c =? 0)
            else mret false);
    if (same : bool) then
      onG (fun c => set_mst (mkMaster (have_master (mst c)) ds (last_announce_ms (mst c))
                               (announce_timeout_ms (mst c)) (utc_offset (mst c)) (flags1 (mst c))) c);;
      announce_refresh b
    else
      better ← (if have_master m then c ← of_opt (dataset_cmp ds (master m)); mret (c <? 0) else mret true);
      if (better : bool) then
        onG (fun c => set_mst (mkMaster true ds (last_announce_ms (mst c))
                                 (announce_timeout_ms (mst c)) (utc_offset (mst c)) (flags1 (mst c))) c);;
        reset_measurements;;
        ptp_log (EvMaster (have_master m) ds);;
        announce_refresh b
      else mret tt) (fun _ => ptp_inv)).
  core_steps; try apply keeps_refresh; try apply keeps_reset;
    apply keeps_onG; intros c Hc; by apply core_ok_master.
Qed.

Section engine.
Context {HW : PtpHw} {TX : PtpTx}.

Lemma keeps_from_master b : keeps ptp_inv (from_master b) (fun _ => ptp_inv).
Proof. unfold from_master. core_steps. Qed.

Lemma keeps_utc : keeps ptp_inv ptp_core_utc_now_ns (fun _ => ptp_inv).
Proof. unfold ptp_core_utc_now_ns. core_steps. apply keeps_onC, keeps_now. Qed.

(** In the middle of [report] the sample count may have reached the window. *)
Definition mid_inv (p : ptp) : Prop :=
  ppb_ok (clk p) /\
  exists n, 0 <= n < PTP_STATS_WIN /\ core_ok (set_stats (mkStats 0 0 0 n) (g p)) /\ 0 <= st_n (stats (g p)) <= PTP_STATS_WIN.

Lemma ptp_inv_mid p : ptp_inv p -> mid_inv p.
Proof.
  intros [Hc Hg]. split; [done|]. exists (st_n (stats (g p))).
  destruct Hg as (? & ? & ? & ? & ?). split; [done|]. split; [by (red; split_and!)|]. unfold count_ok in *. lia.
Qed.
Lemma mid_inv_core p st :
  mid_inv p -> count_ok st -> ptp_inv (mkPtp (clk p) (set_stats st (g p)) (sent p) (logs p)).
Proof. intros (Hc & n & Hn & (? & ? & ? & ? & ?) & _) Hst. split; [done|]. by (red; split_and!). Qed.

Lemma keeps_report offset before : keeps ptp_inv (report offset before) (fun _ => ptp_inv).
Proof.
  unfold report. apply (keeps_bind _ _ _ (fun _ => ptp_inv)); [apply keeps_getG|intros st].
  apply (keeps_bind _ _ _ (fun _ => mid_inv)).
  { apply keeps_if; [|apply keeps_ret; apply ptp_inv_mid].
    apply (keeps_bind _ _ _ (fun _ => ptp_inv)); [apply keeps_any|intros ao].
    apply (keeps_bind _ _ _ (fun x p => ptp_inv p /\ count_ok x)).
    { apply keeps_gets. intros p Hp. split; [done|]. apply Hp. }
    intros x. do 2 (apply (keeps_bind _ _ _ (fun _ p => ptp_inv p /\ count_ok x)); [apply keeps_any|intros ?]).
    apply keeps_modify. intros p [Hp Hx]. destruct (ptp_inv_mid p Hp) as (Hc & n & Hn & Hg & _).
    split; [done|]. exists n. split; [done|]. split; [exact Hg|]. unfold count_ok, PTP_STATS_WIN in *. cbn. rewrite u32_ok by lia. lia. }
  intros _. apply (keeps_bind _ _ _ (fun _ => mid_inv)).
  { unfold ptp_core_utc_now_ns. apply (keeps_bind _ _ _ (fun _ => mid_inv)).
    - unfold onC. eapply keeps_zoom; [apply keeps_now|by intros p []|]. intros p a t (Hc & Hg) Ht. by split.
    - intros t. keeps_steps mid_inv. unfold getG. by apply keeps_gets. }
  intros utc.
  do 2 (apply (keeps_bind _ _ _ (fun _ => mid_inv)); [apply keeps_any|intros ?]).
  apply (keeps_bind _ _ _ (fun _ => mid_inv)); [by apply keeps_gets|intros ?].
  apply (keeps_bind _ _ _ (fun _ => mid_inv)); [apply keeps_any|intros ?].
  apply (keeps_bind _ _ _ (fun _ => mid_inv)); [by apply keeps_gets|intros ?].
  apply (keeps_bind _ _ _ (fun _ => mid_inv)); [apply keeps_any|intros ?].
  apply (keeps_bind _ _ _ (fun _ => mid_inv)); [by apply keeps_gets|intros ?].
  apply (keeps_bind _ _ _ (fun _ => mid_inv)); [apply keeps_if; by apply keeps_modify|intros ?].
  apply (keeps_bind _ _ _ (fun x p => mid_inv p /\ x = stats (g p))); [by apply keeps_gets|intros x].
  destruct (Z.leb_spec PTP_STATS_WIN (st_n x)).
  - intros p r p' [Hp _]. revert p r p' Hp.
    refine (_ : keeps mid_inv _ (fun _ => ptp_inv)).
    do 5 (apply (keeps_bind _ _ _ (fun _ => mid_inv)); [apply keeps_any|intros ?]).
    apply (keeps_bind _ _ _ (fun _ => mid_inv)); [by apply keeps_modify|intros ?].
    apply keeps_modify. intros p Hp. by apply mid_inv_core.
  - apply keeps_ret. intros p [Hp ->]. pose proof Hp as (_ & n & _ & _ & Hst).
    replace p with (mkPtp (clk p) (set_stats (stats (g p)) (g p)) (sent p) (logs p))
      by (by destruct p as [? [] ? ?]).
    apply mid_inv_core; [done|unfold count_ok; lia].
Qed.

Lemma keeps_sync_complete t1 corr : keeps ptp_inv (sync_complete t1 corr) (fun _ => ptp_inv).
Proof.
  unfold sync_complete. apply (keeps_bind _ _ _ (fun _ => ptp_inv)); [apply keeps_getG|intros before].
  apply (keeps_bind _ _ _ (fun _ => ptp_inv)); [apply keeps_getG|intros y].
  apply (keeps_bind _ _ _ (fun _ => ptp_inv)); [by apply keeps_gets|intros ep].
  apply keeps_if; [core_steps|].
  do 3 (apply (keeps_bind _ _ _ (fun _ => ptp_inv)); [core_step|intros ?]).
  apply (keeps_bind _ _ _ (fun s p => ptp_inv p /\ servo_ok s)).
  { apply keeps_gets. intros p Hp. split; [done|]. apply Hp. }
  intros s. apply (keeps_bind _ _ _ (fun _ p => ptp_inv p /\ servo_ok s)).
  { apply keeps_gets. done. }
  intros d. intros p r p' [Hp Hs]. revert p r p' Hp. refine (_ : keeps ptp_inv _ (fun _ => ptp_inv)).
  apply (keeps_bind _ _ _ (fun os p => ptp_inv p /\ servo_ok os.2)).
  { unfold onC. eapply keeps_zoom; [by apply keeps_servo|by intros p []|]. intros p os t [Hc Hg] [Ht Hos]. by split. }
  intros os. apply (keeps_bind _ _ _ (fun _ => ptp_inv)).
  { apply keeps_modify. intros p [ [Hc (? & ? & ? & ? & ?)] Hos]. split; [done|]. by (red; split_and!). }
  intros _. core_steps. apply keeps_report.
Qed.

Lemma keeps_delay_add sample : small sample -> keeps ptp_inv (delay_add sample) (fun _ => ptp_inv).
Proof.
  intros Hs. unfold delay_add.
  apply (keeps_bind _ _ _ (fun f p => ptp_inv p /\ exists xs, filter_rep f xs /\ Forall small xs)).
  { apply keeps_gets. intros p Hp. split; [done|]. apply Hp. }
  intros f. apply (keeps_bind _ _ _ (fun f' p => ptp_inv p /\ (exists xs, filter_rep f' xs /\ Forall small xs) /\ small (delay_ns f'))).
  { apply keeps_of_opt. intros p f' (Hp & xs & Hf & Hxs) E. split; [done|].
    destruct (filter_add_median f xs sample Hf) as (f1 & E1 & Hr & _ & Hsm); [apply Forall_app; by repeat constructor|].
    rewrite E in E1. injection E1 as <-. split; [|done]. exists (xs ++ [sample]). split; [done|].
    apply Forall_app. by repeat constructor. }
  intros f'. apply keeps_modify. intros p ([Hc (? & _ & _ & ? & ?)] & Hx & Hd). split; [done|]. by (red; split_and!).
Qed.

Lemma keeps_sync b len rx : keeps ptp_inv (handle_sync b len rx) (fun _ => ptp_inv).
Proof. unfold handle_sync. core_steps. apply keeps_sync_complete. Qed.
Lemma keeps_follow_up b len : keeps ptp_inv (handle_follow_up b len) (fun _ => ptp_inv).
Proof. unfold handle_follow_up. core_steps. apply keeps_sync_complete. Qed.

Lemma keeps_delay_tail sample :
  keeps ptp_inv (a ← of_opt (abs64 sample); if PTP_DELAY_MAX_NS <? a then mret tt else delay_add sample)
    (fun _ => ptp_inv).
Proof.
  apply (keeps_bind _ _ _ (fun a p => ptp_inv p /\ a = Z.abs sample)).
  { apply keeps_of_opt. intros p a Hp. unfold abs64. destruct (Z.ltb_spec sample 0).
    - intros [-> _]%ck_inv. split; [done|lia].
    - intros [= <-]. split; [done|lia]. }
  intros a p r p' [Hp ->]. destruct (Z.ltb_spec PTP_DELAY_MAX_NS (Z.abs sample)) as [|Hs].
  - intros E. injection E as _ <-. done.
  - by apply (keeps_delay_add sample Hs).
Qed.
Lemma keeps_delay_resp b len : keeps ptp_inv (handle_delay_resp b len) (fun _ => ptp_inv).
Proof. unfold handle_delay_resp. cbn zeta. repeat first [apply keeps_delay_tail | core_step; cbn beta]. Qed.

Lemma keeps_call_tx port buf : keeps ptp_inv (call_tx port buf) (fun _ => ptp_inv).
Proof. unfold call_tx. keeps_steps ptp_inv. by apply keeps_modify. Qed.
Lemma keeps_send : keeps ptp_inv send_delay_req (fun _ => ptp_inv).
Proof.
  unfold send_delay_req. cbn zeta. apply (keeps_bind _ _ _ (fun _ => ptp_inv)).
  { apply keeps_onC. unfold ptp_clock_now. keeps_steps ppb_ok. apply keeps_now. }
  intros now. core_steps; try apply keeps_call_tx. destruct a4; core_steps.
Qed.

Lemma keeps_poll now : keeps ptp_inv (ptp_core_poll now) (fun _ => ptp_inv).
Proof.
  unfold ptp_core_poll. core_steps; try apply keeps_reset; apply keeps_send.
Qed.
Lemma keeps_rx buf len port cnt : keeps ptp_inv (ptp_core_rx buf len port cnt) (fun _ => ptp_inv).
Proof.
  unfold ptp_core_rx. cbn zeta. core_steps;
    first [apply keeps_from_master|apply keeps_sync|apply keeps_announce|apply keeps_follow_up|apply keeps_delay_resp].
Qed.
End engine.

(** ** Reachable states *)

Section reach.
Context {HW : PtpHw} {TX : PtpTx}.

(** What the stacks do to the engine: deliver a message, or poll it. *)
Inductive ptp_input := Rx (buf : list Z) (len port cnt : Z) | Poll (now : Z).
Definition ptp_step (i : ptp_input) : M ptp unit :=
  match i with Rx buf len port cnt => ptp_core_rx buf len port cnt | Poll now => ptp_core_poll now end.

(** The engine from boot: initialisation, then messages and polls in any
    order.  A step without a result has no successor: [None] is signed overflow
    (a message can cause it: ptp_core.c:56 and 312, ptp_servo.c:94) or a read
    outside the message buffer, and an execution is followed only up to there. *)
Inductive ptp_reach : ptp -> Prop :=
| reach_init mac domain nonnull p :
    ptp_core_init mac domain nonnull ptp_boot = Some (tt, p) -> ptp_reach p
| reach_step i p p' : ptp_reach p -> ptp_step i p = Some (tt, p') -> ptp_reach p'.

Fixpoint ptp_run (ins : list ptp_input) : M ptp unit :=
  match ins with [] => mret tt | i :: ins => ptp_step i;; ptp_run ins end.
Lemma ptp_run_reach ins p p' : ptp_reach p -> ptp_run ins p = Some (tt, p') -> ptp_reach p'.
Proof.
  revert p. induction ins as [|i ins IH]; intros p Hp; cbn [ptp_run]; [by intros [= <-]|].
  unfold mbind, M_bind. destruct (ptp_step i p) as [ [[] p1]|] eqn:E; [|done]. by apply IH, (reach_step i p).
Qed.

Lemma core_ok_zero : core_ok core_zero.
Proof.
  red; split_and!; [by split| |done|done|done].
  exists []. split; [|constructor]. split; [done|]. by cbn.
Qed.

Lemma keeps_init mac domain nonnull : keeps ptp_inv (ptp_core_init mac domain nonnull) (fun _ => ptp_inv).
Proof.
  unfold ptp_core_init. cbn zeta. core_steps; [|apply keeps_reset].
  apply keeps_onG. intros _ _. exact core_ok_zero.
Qed.

Lemma ptp_reach_inv p : ptp_reach p -> ptp_inv p.
Proof.
  induction 1 as [mac domain nonnull p E|i p p' _ IH E].
  - eapply keeps_init; [|exact E]. split; [done|exact core_ok_zero].
  - destruct i; [by eapply keeps_rx|by eapply keeps_poll].
Qed.

(** C20: In every state the engine goes through from boot by messages (any
    bytes, lengths, ports and timestamps) and polls in any order, as long as the
    execution is defined (none of its steps overflows a signed integer or reads
    outside the message, which end the execution in this model), the frequency
    it applies stays within 500 ppm, the path delay it uses and every delay
    sample in the filter's window within 10 ms, the filter's indices stay
    inside its window, fewer than three outliers and fewer than sixteen
    statistics samples are pending, and the status snapshot can be taken, with
    or without a master, and holds the eight bytes of a grandmaster identity. *)
Theorem ptp_state_always_bounded p :
  ptp_reach p ->
  Z.abs (ptp_clock_get_freq (clk p)) <= 500000 /\ Z.abs (drift_ppb (servo (g p))) <= 500000 /\
  Z.abs (delay_ns (flt (g p))) <= 10000000 /\
  length (delay_win (flt (g p))) = 8%nat /\ 0 <= delay_idx (flt (g p)) < 8 /\ 0 <= delay_n (flt (g p)) <= 8 /\
  Forall (fun d => Z.abs d <= 10000000) (take (Z.to_nat (delay_n (flt (g p)))) (delay_win (flt (g p)))) /\
  0 <= outliers (servo (g p)) < 3 /\ 0 <= st_n (stats (g p)) < 16 /\
  exists s, ptp_core_get_status p = Some s /\ length (sta_gm_id s) = 8%nat.
Proof.
  intros (Hc & (Hd & Ho) & (xs & [Hw Hf] & Hxs) & Hs & Hm & Hn)%ptp_reach_inv.
  assert (0 <= delay_idx (flt (g p)) < 8 /\ 0 <= delay_n (flt (g p)) <= 8 /\
    Forall small (take (Z.to_nat (delay_n (flt (g p)))) (delay_win (flt (g p))))) as (Hi & Hk & Ht).
  { destruct (decide _).
    - destruct Hf as (-> & -> & Ht). rewrite Nat2Z.id, Ht. split; [lia|]. split; [lia|done].
    - destruct Hf as (-> & i & -> & Hi & E). split; [lia|]. split; [lia|].
      rewrite take_ge by (rewrite Hw; lia). rewrite <- (take_drop i (delay_win (flt (g p)))).
      rewrite Permutation_app_comm, E. unfold last_window. by apply Forall_drop. }
  split; [exact Hc|]. split; [exact Hd|]. split; [exact Hs|]. split; [exact Hw|]. split; [exact Hi|].
  split; [exact Hk|]. split; [exact Ht|]. split; [exact Ho|]. split; [exact Hn|].
  destruct Hm as [Hg _].
  unfold ptp_core_get_status, copy_bytes. cbn zeta.
  destruct (read_loop_some (gm_id (master (mst (g p)))) 0 (Z.to_nat 8)) as (l & -> & Hl); [lia..|].
  eexists. split; [reflexivity|]. exact Hl.
Qed.
End reach.

(** ** A session: a master is selected, its first Sync steps the clock, a Delay_Resp gives the path delay, the third Sync locks *)

Definition demo_header (type len flags seq : Z) : list Z :=
  [type; 2; 0; len; 0; 0; flags; 0] ++ replicate 12 0 ++ replicate 9 7 ++ [2] ++ [0; seq; 0; 0].
Definition demo_sync (secs seq : Z) : list Z := demo_header 0 44 0 seq ++ [0; 0; 0; 0; 0; secs; 0; 0; 0; 0].
Definition demo_resp (secs nslow seq : Z) : list Z :=
  demo_header 9 54 0 seq ++ [0; 0; 0; 0; 0; secs; 0; 0; 11; nslow] ++ [2; 0; 0; 255; 254; 0; 0; 1; 0; 1].
Definition demo_session : list ptp_input :=
  [Rx (demo_header 11 64 0 0 ++ replicate 13 0 ++ [100] ++ replicate 16 0) 64 320 0; Rx (demo_sync 9 1) 44 319 0;
   Poll 1000; Rx (demo_sync 10 2) 44 319 54000000; Poll 2000;
   Rx (demo_resp 10 200 2) 54 320 0; Rx (demo_sync 11 3) 44 319 108000000].
Definition demo_tx : PtpTx := fun _ => Some 54000100.

Lemma ptp_state_always_bounded_witness :
  exists p0 p, ptp_core_init [2; 0; 0; 0; 0; 1] 0 true ptp_boot = Some (tt, p0) /\
    @ptp_run demo_hw demo_tx demo_session p0 = Some (tt, p) /\ ptp_core_is_locked p = true /\ length (sent p) = 2%nat /\
    Z.abs (ptp_clock_get_freq (clk p)) <= 500000.
Proof.
  eexists _, _. split; [vm_compute; reflexivity|]. split; [vm_compute; reflexivity|]. split; [vm_compute; reflexivity|].
  split; [vm_compute; reflexivity|].
  eapply (@ptp_state_always_bounded demo_hw demo_tx). eapply (ptp_run_reach demo_session).
  - eapply (reach_init [2; 0; 0; 0; 0; 1] 0 true). vm_compute. reflexivity.
  - vm_compute. reflexivity.
Defined.
