(* ===== verification/PtpProps.v ===== *)
(** * What the PTP engine measures

    The range of the wire timestamps, the two-step exchange against the
    one-step one, the end-to-end path delay, and the range in which the
    statistics are defined. *)

From S2P Require Import Prelude CInt PtpTime PtpMsg PtpClock PtpServo PtpUtil PtpCore PtpBmc PtpInv.

(** Reading a 10-byte wire timestamp gives seconds * 10^9 + nanoseconds
    exactly when that value fits a signed 64-bit integer; for a larger one,
    which 48 bits of seconds can express, the conversion overflows. *)
Theorem rd_ts_ns_exact (p sec ns q : list Z) :
  bytes sec -> bytes ns -> length sec = 6%nat -> length ns = 4%nat ->
  rd_ts_ns (p ++ sec ++ ns ++ q) (Z.of_nat (length p)) =
    (let v := be_value sec * 1000000000 + be_value ns in
     if decide (v < 9223372036854775808) then Some v else None).
Proof.
  intros Hs Hn Ls Ln. unfold rd_ts_ns, NS_PER_S. cbn zeta.
  pose proof (be_value_range _ Hs) as Rs. pose proof (be_value_range _ Hn) as Rn. rewrite Ls in Rs. rewrite Ln in Rn.
  change (256 ^ Z.of_nat 6) with 281474976710656 in Rs. change (256 ^ Z.of_nat 4) with 4294967296 in Rn.
  pose proof (be_loop_value sec p (ns ++ q) 0 _ Hs ltac:(lia) ltac:(by rewrite Ls) eq_refl) as El.
  rewrite Ls in El. rewrite El, obind_some.
  change (fold_left _ sec 0) with (be_value sec). rewrite i64_ok by lia.
  rewrite (app_assoc p sec). change (rd32 ?b ?o) with (be32 b o).
  rewrite (be32_value (p ++ sec) ns q) by (try done; rewrite length_app; lia).
  destruct (decide _) as [Hv|Hv].
  - ck_steps. apply s64_ok. lia.
  - destruct (Z.lt_ge_cases (be_value sec * 1000000000) 9223372036854775808).
    + rewrite s64_bind, obind_some by lia. apply s64_bad. lia.
    + rewrite s64_bad by lia. done.
Qed.

Lemma rd_ts_ns_exact_witness :
  rd_ts_ns ([0; 0] ++ [0; 0; 101; 83; 241; 0] ++ [0; 0; 0; 42] ++ []) 2 = Some 1700000000000000042 /\
  rd_ts_ns ([0; 0] ++ [0; 2; 37; 193; 125; 5] ++ [0; 0; 0; 0] ++ []) 2 = None.
Proof.
  split; (etransitivity; [apply (rd_ts_ns_exact [0; 0]); try done; repeat constructor; done|reflexivity]).
Defined.

Section engine.
Context {HW : PtpHw} {TX : PtpTx}.

Lemma rd_corr_range b c : rd_corr_ns b = Some c -> Z.abs c <= 140737488355328.
Proof.
  unfold rd_corr_ns. destruct (be_loop b 8 8 0) as [v|]; [|done]. intros [= <-].
  apply quot_bounds; [lia|]. pose proof (wraps_range 64 v ltac:(lia)) as H. unfold in_s in H.
  change (2 ^ (64 - 1)) with 9223372036854775808 in H. lia.
Qed.

(** A two-step exchange (a Sync with the two-step flag and a Follow_Up of
    the same sequence number carrying the origin time) leaves the engine in
    exactly the state a one-step Sync with that origin time leaves it in,
    undefined results included. *)
Theorem two_step_is_one_step (sync fup one : list Z) (len cnt seq t1 corr f0 f1 : Z) (p : ptp) :
  SYNC_LEN <= len ->
  rd16 sync 30 = Some seq -> rd16 fup 30 = Some seq -> rd16 one 30 = Some seq ->
  rd_corr_ns sync = Some corr -> rd_corr_ns fup = Some 0 -> rd_corr_ns one = Some corr ->
  rdb sync 6 = Some f0 -> Z.testbit f0 1 = true -> rdb one 6 = Some f1 -> Z.testbit f1 1 = false ->
  rd_ts_ns fup 34 = Some t1 -> rd_ts_ns one 34 = Some t1 ->
  (handle_sync sync len cnt;; handle_follow_up fup len) p = handle_sync one len cnt p.
Proof.
  intros Hlen Q1 Q2 Q3 C1 C2 C3 F0 B0 F1 B1 T1 T2. pose proof (rd_corr_range _ _ C1) as Hc.
  assert ((Z.land f0 2 =? 0) = false) as L0.
  { apply Z.eqb_neq. intros E. apply (f_equal (fun x => Z.testbit x 1)) in E.
    rewrite Z.land_spec, B0, Z.bits_0 in E. done. }
  assert ((Z.land f1 2 =? 0) = true) as L1.
  { apply Z.eqb_eq. change 2 with (2 ^ 1). apply Z.bits_inj'. intros n Hn.
    rewrite Z.land_spec, Z.pow2_bits_eqb, Z.bits_0 by lia. destruct (Z.eqb_spec 1 n) as [<-|]; [by rewrite B1|].
    apply andb_false_r. }
  unfold handle_sync, handle_follow_up. rewrite (proj2 (Z.ltb_ge len SYNC_LEN) Hlen).
  rewrite Q1, Q2, Q3, C1, C2, C3, F0, F1, T1, T2.
  unfold mbind, M_bind, of_opt, get_opt, gets, getG, onG, modify. cbn [fmap option_fmap option_map].
  destruct (ptp_clock_from_cnt (clk p) cnt) as [t2|]; [|done].
  cbn [fmap option_fmap option_map negb orb g clk sent logs syn set_syn set_waiting sync_waiting_fup sync_seq sync_corr
       mret M_ret fst snd].
  rewrite L0, L1.
  cbn [negb gets g syn set_syn set_waiting sync_waiting_fup sync_seq sync_corr t2_cnt t2_ns t2_epoch].
  rewrite Z.eqb_refl. cbn [negb g syn set_syn clk sent logs]. rewrite Z.add_0_r, s64_ok by lia. reflexivity.
Qed.

(** The guards under which a Delay_Resp completes the outstanding request. *)
Definition answers (b : list Z) (len : Z) (c : PtpCore) : Prop :=
  DELAY_RESP_LEN <= len /\ dreq_outstanding (dreq c) = true /\ rd16 b 30 = Some (dreq_seq (dreq c)) /\
  cmp_bytes b 44 (self_id c) 0 10 = Some 0.
(** No clock step since the request was sent or since the last Sync leg. *)
Definition same_timescale (p : ptp) : bool :=
  (t3_epoch (dreq (g p)) =? ptp_clock_epoch (clk p)) && ms_valid (leg (g p)) &&
  (ms_epoch (leg (g p)) =? t3_epoch (dreq (g p))).

(** The state after the answer is accepted, with filter [f]. *)
Definition answered (f : DelayFilter) (p : ptp) : ptp :=
  mkPtp (clk p) (set_flt f (set_dreq (set_outstanding false (dreq (g p))) (g p))) (sent p) (logs p).

(** C24: The path delay is independent of the clock error: if the slave clock is
    off by theta, so that the stored master-to-slave leg is dms + theta and the
    master received the request at t3 - theta + dsm, the sample of the answer is
    (dms + dsm) / 2, whatever theta; it replaces the path delay by the median
    of the last eight samples, and is discarded when it exceeds 10 ms or when
    the clock was stepped between the messages of the exchange. *)
Theorem delay_measures_path (b : list Z) (len ts corr theta dms dsm : Z) (xs : list Z) (p : ptp) :
  answers b len (g p) -> rd_ts_ns b 34 = Some ts -> rd_corr_ns b = Some corr ->
  ms_leg (leg (g p)) = dms + theta -> ts - corr = t3_ns (dreq (g p)) - theta + dsm ->
  Z.abs (t3_ns (dreq (g p))) <= 2 ^ 62 -> Z.abs theta <= 2 ^ 60 -> Z.abs dms <= 2 ^ 60 -> Z.abs dsm <= 2 ^ 60 ->
  filter_rep (flt (g p)) xs -> Forall small xs ->
  exists f, handle_delay_resp b len p = Some (tt, answered f p) /\
    if same_timescale p && (Z.abs (Z.quot (dms + dsm) 2) <=? PTP_DELAY_MAX_NS)
    then delay_ns f = median (last_window (xs ++ [Z.quot (dms + dsm) 2])) /\
         filter_rep f (xs ++ [Z.quot (dms + dsm) 2])
    else f = flt (g p).
Proof.
  intros (Hlen & Ho & Hq & Hid) Ht Hc Hleg Hts Ht3 Hth Hdm Hds Hf Hxs.
  assert (forall c, set_flt (flt c) c = c) as Hsame by (by intros []).
  unfold handle_delay_resp, getG. rewrite gets_run, (proj2 (Z.ltb_ge len DELAY_RESP_LEN) Hlen), Ho. cbn [negb orb].
  rewrite (opt_run _ _ _ _ Hq), Z.eqb_refl. cbn [negb].
  rewrite gets_run, (opt_run _ _ _ _ Hid), Z.eqb_refl. cbn [negb].
  erewrite bind_eq by reflexivity. rewrite !gets_run. cbn [g clk leg set_dreq].
  replace (negb (t3_epoch (dreq (g p)) =? _) || _ || _) with (negb (same_timescale p))
    by (unfold same_timescale; by rewrite !negb_andb).
  destruct (same_timescale p); cbn [negb andb].
  2:{ exists (flt (g p)). split; [|done]. unfold answered. cbn. reflexivity. }
  rewrite (opt_run _ _ _ _ Ht), (opt_run _ _ _ _ Hc), Hts, Hleg.
  change (2 ^ 62) with 4611686018427387904 in *. change (2 ^ 60) with 1152921504606846976 in *.
  rewrite (s64_run (t3_ns (dreq (g p)) - theta + dsm)) by lia.
  replace (t3_ns (dreq (g p)) - theta + dsm - t3_ns (dreq (g p))) with (dsm - theta) by lia. rewrite s64_run by lia.
  replace (dms + theta + (dsm - theta)) with (dms + dsm) by lia. rewrite s64_run by lia.
  set (x := Z.quot (dms + dsm) 2). pose proof (quot_le_abs (dms + dsm) 2 ltac:(lia)) as Hx. fold x in Hx.
  rewrite (opt_run _ (Z.abs x)) by (unfold abs64; destruct (Z.ltb_spec x 0); [rewrite s64_ok by lia|]; f_equal; lia).
  destruct (Z.ltb_spec PTP_DELAY_MAX_NS (Z.abs x)), (Z.leb_spec (Z.abs x) PTP_DELAY_MAX_NS); try lia.
  { exists (flt (g p)). split; [|done]. unfold answered. cbn. reflexivity. }
  destruct (filter_add_median (flt (g p)) xs x Hf) as (f & E & Hr & Hm & _); [apply Forall_app; by repeat constructor|].
  exists f. split; [|done]. unfold delay_add, getG. rewrite gets_run. cbn [g flt set_dreq].
  rewrite (opt_run _ _ _ _ E). reflexivity.
Qed.

(** The squared deviation overflows from 3.04 s on. *)
Lemma report_overflow offset before p :
  state (servo (g p)) = PTP_SERVO_LOCKED -> in_s 64 offset -> 3037000500 <= Z.abs offset ->
  report offset before p = None.
Proof.
  intros Hst Hr Ho. unfold report, getG. rewrite gets_run, Hst, (bool_decide_true (PTP_SERVO_LOCKED = _)) by done.
  apply bind_fail. unfold in_s in Hr. change (2 ^ (64 - 1)) with 9223372036854775808 in Hr.
  destruct (abs64 offset) as [ao|] eqn:Ea; [|done].
  assert (ao = Z.abs offset) as ->.
  { unfold abs64 in Ea. destruct (Z.ltb_spec offset 0); [apply ck_inv in Ea as [-> _]|injection Ea as <-]; lia. }
  rewrite (opt_run _ (Z.abs offset)) by done. rewrite gets_run.
  destruct (s64 (st_sum (stats (g p)) + offset)) as [v|]; [|done]. rewrite (opt_run _ v) by done.
  apply opt_fail, s64_bad. nia.
Qed.
End engine.

(** The two-step session with a 54 MHz counter: a Sync received at tick 54000000
    from a master at 9 s, one-step or two-step. *)
Definition demo_flags (type flags : Z) (t : list Z) : list Z := demo_header type 44 flags 1 ++ t.
Lemma two_step_is_one_step_witness :
  let one := demo_flags 0 0 [0; 0; 0; 0; 0; 9; 0; 0; 0; 0] in
  (@handle_sync demo_hw (demo_flags 0 2 (replicate 10 0)) 44 54000000;;
   @handle_follow_up demo_hw (demo_flags 8 0 [0; 0; 0; 0; 0; 9; 0; 0; 0; 0]) 44) ptp_boot =
  @handle_sync demo_hw one 44 54000000 ptp_boot.
Proof.
  apply (@two_step_is_one_step demo_hw _ _ _ 44 54000000 1 9000000000 0 2 0); (done || reflexivity).
Defined.

(** A request sent at 10 s and answered 1 us later by a master 5 ms behind. *)
Definition demo_waiting : ptp :=
  mkPtp clock_boot
    (mkCore true (self core_zero) [2; 0; 0; 255; 254; 0; 0; 1; 0; 1] (mst core_zero) (syn core_zero)
       (mkLeg true (2000 + 5000000) 0) (mkDreq false true 2 10005003024 0 0) 0 (flt core_zero) ptp_servo_init 0 0
       (mkStats 0 0 0 0)) [] [].
Lemma delay_measures_path_witness :
  exists f, @handle_delay_resp (demo_resp 10 208 2) 54 demo_waiting = Some (tt, answered f demo_waiting) /\
    delay_ns f = 1000.
Proof.
  destruct (delay_measures_path (demo_resp 10 208 2) 54 10000003024 0 5000000 2000 0 [] demo_waiting)
    as (f & E & Hf).
  - split; [done|]. split; [done|]. split; reflexivity.
  - reflexivity.
  - reflexivity.
  - reflexivity.
  - reflexivity.
  - done.
  - done.
  - done.
  - done.
  - split; [done|]. by cbn.
  - constructor.
  - exists f. split; [exact E|]. apply Hf.
Defined.
