(* ===== verification/CStr.v ===== *)
(** * C strings

    A [char *] is the array from the pointer on, as a list of byte values: a
    read past its end is undefined.  A string is such an array up to its first
    zero byte. *)

From Stdlib Require Import Ascii String.
From S2P Require Import Prelude CInt.

(** The characters of a literal, and the literal as C stores it. *)
Fixpoint chars (s : string) : list Z :=
  match s with
  | EmptyString => []
  | String a s => Z.of_N (N_of_ascii a) :: chars s
  end.
Definition lit (s : string) : list Z := chars s ++ [0].

(** A text: bytes without a zero. *)
Definition is_text (s : list Z) : Prop := Forall (fun c => 0 < c < 256) s.
#[global] Instance is_text_dec s : Decision (is_text s).
Proof. unfold is_text. apply _. Defined.

Lemma is_text_cons c s : is_text (c :: s) <-> (0 < c < 256) /\ is_text s.
Proof. exact (Forall_cons _ c s). Qed.
Lemma is_text_app s t : is_text (s ++ t) <-> is_text s /\ is_text t.
Proof. exact (Forall_app _ s t). Qed.

(** A scan that stops at the terminator of a text never looks past it. *)
Ltac text_step H :=
  apply is_text_cons in H; let Hc := fresh "Hc" in destruct H as [Hc H];
  rewrite (proj2 (Z.eqb_neq _ 0)) by lia.

(** An array that holds a string, and one of [n] bytes. *)
Definition cstring (b : list Z) : Prop := exists t rest, is_text t /\ b = t ++ 0 :: rest.
Definition carray (n : nat) (b : list Z) : Prop := length b = n /\ cstring b.

Lemma cstring_lit s : is_text (chars s) -> cstring (lit s).
Proof. intros Hs. by exists (chars s), []. Qed.
Lemma cstring_app t rest : is_text t -> cstring (t ++ 0 :: rest).
Proof. intros. by exists t, rest. Qed.
(** Any bytes with a zero among them. *)
Lemma cstring_bytes b : bytes b -> 0 ∈ b -> cstring b.
Proof.
  induction b as [|c b IH]; intros Hb H0; [by apply not_elem_of_nil in H0|]. apply Forall_cons in Hb as [Hc Hb].
  destruct (decide (c = 0)) as [->|Hn]; [by exists [], b; split; [constructor|]|].
  destruct IH as (t & rest & Ht & ->); [done|by apply elem_of_cons in H0 as [<-|]|].
  exists (c :: t), rest. split; [|done]. apply is_text_cons. split; [|done]. unfold is_byte, in_u in Hc. lia.
Qed.
Lemma carray_zero n : (0 < n)%nat -> carray n (replicate n 0).
Proof. intros Hn. split; [apply length_replicate|]. destruct n as [|n]; [lia|]. exists [], (replicate n 0). split; [constructor|done]. Qed.
Lemma cstring_bytes_app c tail : bytes c -> cstring (c ++ 0 :: tail).
Proof.
  induction c as [|x c IH]; intros Hb; [by exists [], tail; split; [constructor|] |]. apply Forall_cons in Hb as [Hx Hb].
  destruct (decide (x = 0)) as [->|Hn]; [by exists [], (c ++ 0 :: tail); split; [constructor|] |].
  destruct (IH Hb) as (t & rest & Ht & E). exists (x :: t), rest. split; [|cbn; by rewrite E].
  apply is_text_cons. split; [|done]. unfold is_byte, in_u in Hx. lia.
Qed.
