(* ===== verification/Jsonw.v ===== *)
(** * The bounded JSON writer (src/port/mqtt/jsonw.c)

    The writer's struct with its buffer, the string and number helpers, and
    the printing calls.  A document is the tree of calls that prints it; the
    reference is its text, and the writer leaves in the buffer exactly the
    part of the text that fits. *)

From S2P Require Import Prelude CInt Decimal CStr.

(** ** Plain helpers *)

Fixpoint fm_strlen (s : list Z) : option Z :=
  match s with
  | [] => None
  | c :: s => if negb (c =? 0) then n ← fm_strlen s; Some (n + 1) else Some 0
  end.

(** [while ((src[i] != 0) && (i < cap - 1)) { dst[i] = src[i]; i++; } dst[i] = 0;]
    for the destination [&dst[o]] and the rest of [src] from index [i]. *)
Fixpoint strlcpy_loop (dst : list Z) (o : Z) (src : list Z) (i cap : Z) : option (list Z) :=
  match src with
  | [] => None
  | c :: src =>
      if negb (c =? 0) && (i <? cap - 1)
      then dst ← wrb dst (o + i) c; strlcpy_loop dst o src (i + 1) cap
      else wrb dst (o + i) 0
  end.
Definition fm_strlcpy (dst : list Z) (o : Z) (src : list Z) (cap : Z) : option (list Z) :=
  if cap =? 0 then Some dst else strlcpy_loop dst o src 0 cap.

Definition fm_strlcat (dst src : list Z) (cap : Z) : option (list Z) :=
  n ← fm_strlen dst;
  if n <? cap then fm_strlcpy dst n src (cap - n) else Some dst.

(** [do { tmp[n++] = '0' + v % 10; v /= 10; } while (v != 0)] with [char tmp[21]]. *)
Fixpoint u64_digits (fuel : nat) (tmp : list Z) (v : Z) : option (list Z) :=
  match fuel with
  | O => None
  | S fuel =>
      if Z.of_nat (length tmp) <? 21 then
        let tmp := tmp ++ [48 + v mod 10] in
        let v := v / 10 in
        if negb (v =? 0) then u64_digits fuel tmp v else Some tmp
      else None
  end.
Definition fm_u64_to_str (v : Z) (out : list Z) : option (list Z) :=
  tmp ← u64_digits 22 [] v;
  out_o ← put_back out 0 (reverse tmp);
  wrb out_o.1 out_o.2 0.

Definition hx : list Z := lit "0123456789abcdef".
Fixpoint hex_loop (out : list Z) (v digits i : Z) (rounds : nat) : option (list Z) :=
  match rounds with
  | O => Some out
  | S rounds =>
      c ← rdb hx (Z.land v 15);
      out ← wrb out (digits - 1 - i) c;
      hex_loop out (Z.shiftr v 4) digits (i + 1) rounds
  end.
Definition fm_hex64 (v : Z) (out : list Z) (digits : Z) : option (list Z) :=
  out ← hex_loop out v digits 0 (Z.to_nat digits); wrb out digits 0.

(** ** The writer *)

Record JsonW := mkJw { jbuf : list Z; jcap : Z; jlen : Z; overflow : bool; need_comma : bool }.
Definition set_comma b w := mkJw (jbuf w) (jcap w) (jlen w) (overflow w) b.

Definition put_c (w : JsonW) (c : Z) : option JsonW :=
  if u64 (jlen w + 1) <? jcap w then
    b ← wrb (jbuf w) (jlen w) c;
    let len := u64 (jlen w + 1) in
    b ← wrb b len 0;
    Some (mkJw b (jcap w) len (overflow w) (need_comma w))
  else Some (mkJw (jbuf w) (jcap w) (jlen w) true (need_comma w)).

Fixpoint put_s (w : JsonW) (s : list Z) : option JsonW :=
  match s with
  | [] => None
  | c :: s => if negb (c =? 0) then w ← put_c w c; put_s w s else Some w
  end.

Fixpoint escape_loop (w : JsonW) (s : list Z) : option JsonW :=
  match s with
  | [] => None
  | c :: s =>
      if negb (c =? 0) then
        w ← (if (c =? 34) || (c =? 92) then w ← put_c w 92; put_c w c
             else if c <? 32 then put_c w 32 else put_c w c);
        escape_loop w s
      else Some w
  end.
Definition put_escaped (w : JsonW) (s : list Z) : option JsonW :=
  w ← put_c w 34; w ← escape_loop w s; put_c w 34.

Definition sep (w : JsonW) : option JsonW :=
  w ← (if need_comma w then put_c w 44 else Some w); Some (set_comma true w).

(** [key]: the name, or nothing for a null pointer. *)
Definition key (w : JsonW) (k : option (list Z)) : option JsonW :=
  w ← sep w;
  match k with Some k => w ← put_escaped w k; put_c w 58 | None => Some w end.

Definition jw_init (buf : list Z) (cap : Z) : option JsonW :=
  buf ← (if 0 <? cap then wrb buf 0 0 else Some buf);
  Some (mkJw buf cap 0 false false).

Definition jw_obj_open (w : JsonW) : option JsonW := w ← sep w; w ← put_c w 123; Some (set_comma false w).
Definition jw_obj_close (w : JsonW) : option JsonW := w ← put_c w 125; Some (set_comma true w).
Definition jw_arr_open (w : JsonW) (k : option (list Z)) : option JsonW :=
  w ← key w k; w ← put_c w 91; Some (set_comma false w).
Definition jw_arr_close (w : JsonW) : option JsonW := w ← put_c w 93; Some (set_comma true w).
Definition jw_str (w : JsonW) (k : option (list Z)) (v : list Z) : option JsonW := w ← key w k; put_escaped w v.
Definition jw_i64 (w : JsonW) (k : option (list Z)) (v : Z) : option JsonW :=
  w ← key w k;
  if v <? 0 then
    w ← put_c w 45;
    t ← s64 (v + 1); t ← s64 (- t);
    n ← fm_u64_to_str (u64 (t + 1)) (replicate 22 0); put_s w n
  else n ← fm_u64_to_str v (replicate 22 0); put_s w n.
Definition jw_u32 (w : JsonW) (k : option (list Z)) (v : Z) : option JsonW :=
  w ← key w k; n ← fm_u64_to_str v (replicate 22 0); put_s w n.
Definition jw_bool (w : JsonW) (k : option (list Z)) (v : bool) : option JsonW :=
  w ← key w k; put_s w (if v then lit "true" else lit "false").
Definition jw_len (w : JsonW) : Z := jlen w.
Definition jw_ok (w : JsonW) : bool := negb (overflow w).

(** ** Bounded copies and concatenation *)

Lemma fm_strlen_text s rest : is_text s -> fm_strlen (s ++ 0 :: rest) = Some (Z.of_nat (length s)).
Proof.
  induction s as [|c s IH]; intros Hs; [done|]. apply is_text_cons in Hs as [Hc Hs]. cbn [app fm_strlen length].
  rewrite (proj2 (Z.eqb_neq c 0)) by lia. cbn [negb]. rewrite IH, obind_some by done. f_equal. lia.
Qed.

Lemma strlcpy_loop_blit s rest dst o i cap :
  is_text s -> 0 <= o -> 0 <= i < cap -> o + cap <= Z.of_nat (length dst) ->
  strlcpy_loop dst o (s ++ 0 :: rest) i cap =
  Some (blit dst (Z.to_nat (o + i)) (take (Z.to_nat (cap - 1 - i)) s ++ [0])).
Proof.
  revert dst i. induction s as [|c s IH]; intros dst i Hs Ho Hi Hd; cbn [app strlcpy_loop].
  - rewrite take_nil. cbn [Z.eqb negb andb app]. apply wrb_blit. lia.
  - apply is_text_cons in Hs as [Hc Hs]. rewrite (proj2 (Z.eqb_neq c 0)) by lia. cbn [negb andb].
    destruct (Z.ltb_spec i (cap - 1)).
    + rewrite wrb_blit, obind_some by lia. rewrite IH by (rewrite ?blit_length; cbn; lia || done).
      replace (Z.to_nat (cap - 1 - i)) with (S (Z.to_nat (cap - 1 - (i + 1)))) by lia. cbn [firstn app take].
      replace (Z.to_nat (o + (i + 1))) with (Z.to_nat (o + i) + length [c])%nat by (cbn; lia).
      f_equal. apply blit_after. rewrite length_app, length_take. cbn. lia.
    + replace (Z.to_nat (cap - 1 - i)) with 0%nat by lia. cbn [take app]. apply wrb_blit. lia.
Qed.

(** The part of a text that an array of [cap] bytes at the start of [b] keeps. *)
Definition kept (b : list Z) (cap : nat) (t : list Z) : list Z := blit b 0 (take (cap - 1) t ++ [0]).

Lemma fm_strlcpy_kept s rest dst cap :
  is_text s -> (0 < cap <= length dst)%nat ->
  fm_strlcpy dst 0 (s ++ 0 :: rest) (Z.of_nat cap) = Some (kept dst cap s).
Proof.
  intros Hs Hc. unfold fm_strlcpy, kept. rewrite (proj2 (Z.eqb_neq _ 0)) by lia.
  rewrite strlcpy_loop_blit by (done || lia). do 4 f_equal. lia.
Qed.

(** Concatenation keeps the part of the whole text that fits. *)
Lemma fm_strlcat_kept t s rest b cap :
  is_text t -> is_text s -> (0 < cap <= length b)%nat ->
  fm_strlcat (kept b cap t) (s ++ 0 :: rest) (Z.of_nat cap) = Some (kept b cap (t ++ s)).
Proof.
  intros Ht Hs Hc. unfold fm_strlcat. set (u := take (cap - 1) t).
  assert (length u = (cap - 1) `min` length t)%nat as Hu by (unfold u; apply length_take).
  assert (length (kept b cap t) = length b) as Hk.
  { unfold kept. rewrite blit_length; [done|]. fold u. rewrite length_app, Hu. cbn. lia. }
  replace (fm_strlen (kept b cap t)) with (Some (Z.of_nat (length u))).
  2:{ unfold kept, blit. rewrite take_0. cbn [app]. fold u. rewrite <- app_assoc. symmetry. apply fm_strlen_text.
      unfold u. by apply Forall_take. }
  rewrite obind_some. destruct (Z.ltb_spec (Z.of_nat (length u)) (Z.of_nat cap)); [|lia].
  unfold fm_strlcpy. rewrite (proj2 (Z.eqb_neq _ 0)) by lia. rewrite strlcpy_loop_blit by (done || lia).
  f_equal. unfold kept. fold u. rewrite take_app. fold u.
  replace (Z.to_nat (Z.of_nat cap - Z.of_nat (length u) - 1 - 0)) with (cap - 1 - length u)%nat by lia.
  replace (cap - 1 - length t)%nat with (cap - 1 - length u)%nat by lia.
  set (v := take (cap - 1 - length u) s). assert (length v <= cap - 1 - length u)%nat by (unfold v; rewrite length_take; lia).
  replace (Z.to_nat (Z.of_nat (length u) + 0)) with (length u) by lia.
  unfold blit. rewrite !length_app, !take_0. cbn [app length]. rewrite <- !app_assoc.
  rewrite take_app_length, drop_app_ge by lia. f_equal. f_equal. cbn [app]. f_equal.
  replace (length u + (length v + 1) - length u)%nat with (S (length v)) by lia. cbn [drop]. rewrite drop_drop. f_equal. lia.
Qed.

(** ** Documents and their text *)

(** A document, as the calls that print it; texts without their terminators. *)
Inductive jnode :=
| JStr (k : option (list Z)) (v : list Z)
| JI64 (k : option (list Z)) (v : Z)
| JU32 (k : option (list Z)) (v : Z)
| JBool (k : option (list Z)) (v : bool)
| JArr (k : option (list Z)) (l : list jnode)
| JObj (l : list jnode).

Definition cstr (s : list Z) : list Z := s ++ [0].

(** The calls of a document. *)
Fixpoint jw_write (n : jnode) (w : JsonW) : option JsonW :=
  let fix all (l : list jnode) (w : JsonW) : option JsonW :=
    match l with [] => Some w | n :: l => w ← jw_write n w; all l w end in
  match n with
  | JStr k v => jw_str w (cstr <$> k) (cstr v)
  | JI64 k v => jw_i64 w (cstr <$> k) v
  | JU32 k v => jw_u32 w (cstr <$> k) v
  | JBool k v => jw_bool w (cstr <$> k) v
  | JArr k l => w ← jw_arr_open w (cstr <$> k); w ← all l w; jw_arr_close w
  | JObj l => w ← jw_obj_open w; w ← all l w; jw_obj_close w
  end.
Fixpoint jw_all (l : list jnode) (w : JsonW) : option JsonW :=
  match l with [] => Some w | n :: l => w ← jw_write n w; jw_all l w end.

(** The JSON text of a document: escaped strings, decimal numbers, members
    and elements separated by commas. *)
Definition esc (c : Z) : list Z :=
  if (c =? 34) || (c =? 92) then [92; c] else if c <? 32 then [32] else [c].
Definition quoted (s : list Z) : list Z := 34 :: (s ≫= esc) ++ [34].
Definition ktext (k : option (list Z)) : list Z := match k with Some k => quoted k ++ [58] | None => [] end.
Definition commas (ts : list (list Z)) : list Z :=
  match ts with [] => [] | t :: ts => t ++ (ts ≫= fun t => 44 :: t) end.
Fixpoint text (n : jnode) : list Z :=
  match n with
  | JStr k v => ktext k ++ quoted v
  | JI64 k v => ktext k ++ signed_numeral v
  | JU32 k v => ktext k ++ numeral 10 v
  | JBool k v => ktext k ++ chars (if v then "true" else "false")
  | JArr k l => ktext k ++ [91] ++ commas (text <$> l) ++ [93]
  | JObj l => [123] ++ commas (text <$> l) ++ [125]
  end.

(** Arguments of the C types: strings are texts, numbers fit. *)
Definition key_ok (k : option (list Z)) : Prop := match k with Some k => is_text k | None => True end.
Fixpoint node_ok (n : jnode) : Prop :=
  let fix all (l : list jnode) : Prop := match l with [] => True | n :: l => node_ok n /\ all l end in
  match n with
  | JStr k v => key_ok k /\ is_text v
  | JI64 k v => key_ok k /\ in_s 64 v
  | JU32 k v => key_ok k /\ in_u 32 v
  | JBool k _ => key_ok k
  | JArr k l => key_ok k /\ all l
  | JObj l => all l
  end.
Definition nodes_ok (l : list jnode) : Prop := Forall node_ok l.

(** Induction with the hypothesis for the members. *)
Lemma jnode_nested (P : jnode -> Prop) :
  (forall k v, P (JStr k v)) -> (forall k v, P (JI64 k v)) -> (forall k v, P (JU32 k v)) ->
  (forall k v, P (JBool k v)) -> (forall k l, Forall P l -> P (JArr k l)) -> (forall l, Forall P l -> P (JObj l)) ->
  forall n, P n.
Proof.
  intros HS HI HU HB HA HO. fix IH 1. intros [k v|k v|k v|k v|k l|l].
  - apply HS.
  - apply HI.
  - apply HU.
  - apply HB.
  - apply HA. induction l as [|n l IHl]; constructor; [apply IH|exact IHl].
  - apply HO. induction l as [|n l IHl]; constructor; [apply IH|exact IHl].
Qed.

Lemma node_ok_arr k l : node_ok (JArr k l) <-> key_ok k /\ nodes_ok l.
Proof. unfold nodes_ok. simpl. induction l as [|n l IH]; [|rewrite Forall_cons]; [by rewrite Forall_nil|]. tauto. Qed.
Lemma node_ok_obj l : node_ok (JObj l) <-> nodes_ok l.
Proof. unfold nodes_ok. simpl. induction l as [|n l IH]; [|rewrite Forall_cons]; [by rewrite Forall_nil|]. tauto. Qed.

(** ** Numbers *)

Lemma u64_digits_rev fuel tmp v :
  0 <= v < 10 ^ Z.of_nat fuel -> (length tmp + fuel <= 21)%nat -> (0 < fuel)%nat ->
  u64_digits (S fuel) tmp v = Some (tmp ++ (digit_char <$> rev_digits fuel 10 v)).
Proof.
  revert tmp v. induction fuel as [|fuel IH]; intros tmp v Hv Hl Hf; [lia|].
  cbn [rev_digits]. change (u64_digits (S (S fuel)) tmp v) with
    (if Z.of_nat (length tmp) <? 21 then
       if negb (v / 10 =? 0) then u64_digits (S fuel) (tmp ++ [48 + v mod 10]) (v / 10) else Some (tmp ++ [48 + v mod 10])
     else None).
  destruct (Z.ltb_spec (Z.of_nat (length tmp)) 21); [|lia].
  assert (digit_char (v mod 10) = 48 + v mod 10) as Hd.
  { unfold digit_char. pose proof (Z.mod_pos_bound v 10 ltac:(lia)). destruct (Z.ltb_spec (v mod 10) 10); lia. }
  rewrite Nat2Z.inj_succ, Z.pow_succ_r in Hv by lia.
  destruct (Z.eqb_spec (v / 10) 0) as [E|E]; cbn [negb fmap list_fmap]; rewrite Hd; [done|].
  assert (0 <= v / 10 < 10 ^ Z.of_nat fuel) as Hq by (split; [apply Z.div_pos; lia|apply Z.div_lt_upper_bound; lia]).
  destruct fuel as [|fuel]; [simpl in Hq; lia|].
  rewrite IH, <- app_assoc; [done|done|rewrite length_app; cbn; lia|lia].
Qed.

Lemma numeral_text v : is_text (numeral 10 v).
Proof. eapply Forall_impl; [apply (numeral_chars 10); lia|]. cbn. lia. Qed.

(** [fm_u64_to_str] writes the decimal numeral and its terminator. *)
Lemma fm_u64_to_str_numeral v out :
  in_u 64 v -> (21 <= length out)%nat -> fm_u64_to_str v out = Some (blit out 0 (numeral 10 v ++ [0])).
Proof.
  intros Hv Ho. unfold in_u in Hv. change (2 ^ 64) with 18446744073709551616 in Hv. unfold fm_u64_to_str.
  assert (reverse (digit_char <$> rev_digits 21 10 v) = numeral 10 v) as Hd.
  { unfold numeral, digits. rewrite (rev_digits_fuel 21 64) by (simpl; lia). by rewrite fmap_reverse. }
  assert (length (numeral 10 v) <= 20)%nat as Hn by (apply (numeral_length 10 v 19); simpl; lia).
  rewrite u64_digits_rev by (simpl; lia). rewrite obind_some. cbn [app]. rewrite Hd.
  rewrite put_back_blit, obind_some by lia. cbn [fst snd].
  rewrite wrb_blit by (rewrite blit_length; lia).
  replace (Z.to_nat (0 + _)) with (0 + length (numeral 10 v))%nat by lia.
  rewrite blit_after by (cbn [length]; lia). done.
Qed.

(** ** The writer holds the part of the text that fits *)

(** A writer of [cap] bytes over [buf0] that has been given the text [t]. *)
Record holds (buf0 : list Z) (cap : nat) (t : list Z) (w : JsonW) : Prop := mkHolds {
  h_cap : jcap w = Z.of_nat cap;
  h_len : jlen w = Z.of_nat (length (take (cap - 1) t));
  h_buf : jbuf w = blit buf0 0 (take (cap - 1) t ++ [0]);
  h_ovf : overflow w = bool_decide (cap <= length t)%nat }.

(** A buffer of at least [cap] bytes, addressable. *)
Definition room (buf0 : list Z) (cap : nat) : Prop :=
  (0 < cap <= length buf0)%nat /\ Z.of_nat cap < 18446744073709551616.

(** ** Hexadecimal identifiers *)

Fixpoint rev_hex (v : Z) (n : nat) : list Z :=
  match n with O => [] | S n => digit_char (v mod 16) :: rev_hex (v / 16) n end.
(** The last [n] hexadecimal digits, leading zeros included. *)
Definition hex_text (v : Z) (n : nat) : list Z := reverse (rev_hex v n).
Lemma rev_hex_length v n : length (rev_hex v n) = n.
Proof. revert v. induction n as [|n IH]; intros v; [done|]. cbn. by rewrite IH. Qed.
Lemma hex_text_length v n : length (hex_text v n) = n.
Proof. unfold hex_text. by rewrite length_reverse, rev_hex_length. Qed.
Lemma hex_text_ok v n : is_text (hex_text v n).
Proof.
  unfold hex_text, is_text. rewrite Forall_reverse. revert v. induction n as [|n IH]; intros v; [constructor|]. cbn [rev_hex]. constructor; [|apply IH].
  pose proof (Z.mod_pos_bound v 16 ltac:(lia)). unfold digit_char. case_match; lia.
Qed.
Lemma hx_digit k : 0 <= k < 16 -> rdb hx k = Some (digit_char k).
Proof. intros Hk. assert (exists n, k = Z.of_nat n /\ (n < 16)%nat) as (n & -> & Hn) by (exists (Z.to_nat k); lia). do 16 (destruct n as [|n]; [reflexivity|]). lia. Qed.
Lemma hex_loop_text n out v digits i :
  digits - i = Z.of_nat n -> (n <= length out)%nat -> hex_loop out v digits i n = Some (blit out 0 (hex_text v n)).
Proof.
  unfold hex_text. revert out v i. induction n as [|n IH]; intros out v i Hd Hl; cbn [hex_loop rev_hex]; [done|].
  rewrite (land_mask 4 v 15), hx_digit, obind_some by (done || apply Z.mod_pos_bound; lia). change (2 ^ 4) with 16.
  rewrite wrb_blit, obind_some by lia. rewrite IH by (rewrite ?blit_length; cbn [length]; lia). f_equal.
  rewrite Z.shiftr_div_pow2 by lia. change (2 ^ 4) with 16. rewrite reverse_cons. replace (Z.to_nat (digits - 1 - i)) with n by lia.
  pose proof (rev_hex_length (v / 16) n) as Hr. unfold blit. rewrite !take_0, !length_app, !length_reverse, Hr. cbn [app length Nat.add].
  rewrite drop_app_ge, length_take, <- app_assoc by (rewrite length_take; lia). f_equal. rewrite Nat.min_l by lia. by rewrite Nat.sub_diag, drop_0.
Qed.
(** [fm_hex64] writes the digits and their terminator. *)
Lemma fm_hex64_text v out n : (n < length out)%nat -> fm_hex64 v out (Z.of_nat n) = Some (hex_text v n ++ 0 :: drop (S n) out).
Proof.
  intros Hn. unfold fm_hex64. rewrite Nat2Z.id, hex_loop_text, obind_some by lia. pose proof (hex_text_length v n) as Hl.
  rewrite wrb_blit by (rewrite blit_length; lia). f_equal. rewrite Nat2Z.id. replace n with (0 + length (hex_text v n))%nat at 2 by lia.
  rewrite blit_after by (cbn [length]; lia). unfold blit. rewrite take_0, app_nil_l, length_app, Hl, <- app_assoc. cbn [app length]. do 2 f_equal. f_equal. lia.
Qed.

Section writer.
Context (buf0 : list Z) (cap : nat) (Hroom : room buf0 cap).

Lemma holds_comma t w b : holds buf0 cap t w -> holds buf0 cap t (set_comma b w).
Proof. by intros []. Qed.

Lemma put_c_holds t w c :
  holds buf0 cap t w ->
  exists w', put_c w c = Some w' /\ holds buf0 cap (t ++ [c]) w' /\ need_comma w' = need_comma w.
Proof.
  intros [Hc Hl Hb Ho]. destruct Hroom as [Hr Hm]. unfold put_c. rewrite length_take in Hl.
  rewrite Hc, Hl, u64_ok by lia. destruct (Z.ltb_spec (Z.of_nat ((cap - 1) `min` length t) + 1) (Z.of_nat cap)).
  - assert (length t < cap - 1)%nat as Ht by lia. rewrite Nat.min_r in * by lia.
    rewrite (take_ge t) in Hb by lia. rewrite Hb.
    rewrite wrb_blit by (rewrite blit_length; rewrite ?length_app; cbn; lia).
    rewrite obind_some, Nat2Z.id, blit_last by lia.
    rewrite wrb_blit by (rewrite blit_length; rewrite ?length_app; cbn; lia).
    rewrite obind_some. replace (Z.to_nat _) with (0 + length (t ++ [c]))%nat by (rewrite length_app; cbn; lia).
    rewrite blit_after by (rewrite length_app; cbn; lia).
    eexists. split; [done|]. split; [|done]. split; cbn.
    + done.
    + rewrite take_ge, length_app by (rewrite length_app; cbn; lia). cbn. lia.
    + by rewrite take_ge by (rewrite length_app; cbn; lia).
    + rewrite Ho, length_app. cbn. apply bool_decide_ext. lia.
  - assert (cap - 1 <= length t)%nat by lia. eexists. split; [done|]. split; [|done]. split; cbn.
    + done.
    + rewrite length_take, length_app. cbn. lia.
    + by rewrite take_app_le by lia.
    + rewrite length_app. cbn. symmetry. apply bool_decide_eq_true. lia.
Qed.
(** [f] appends the text [s]. *)
Definition prints (f : JsonW -> option JsonW) (s : list Z) : Prop :=
  forall t w, holds buf0 cap t w ->
  exists w', f w = Some w' /\ holds buf0 cap (t ++ s) w' /\ need_comma w' = need_comma w.
(** [f] appends a separator where one is needed and the text [s]. *)
Definition emits (f : JsonW -> option JsonW) (s : list Z) : Prop :=
  forall t w, holds buf0 cap t w ->
  exists w', f w = Some w' /\ holds buf0 cap (t ++ (if need_comma w then [44] else []) ++ s) w' /\ need_comma w' = true.

Lemma prints_char c : prints (fun w => put_c w c) [c].
Proof. intros t w. apply put_c_holds. Qed.
Lemma prints_nil : prints Some [].
Proof. intros t w Hw. exists w. by rewrite app_nil_r. Qed.
Lemma prints_bind f g s r : prints f s -> prints g r -> prints (fun w => w ← f w; g w) (s ++ r).
Proof.
  intros Hf Hg t w Hw. destruct (Hf t w Hw) as (w1 & E1 & H1 & C1). destruct (Hg _ _ H1) as (w2 & E2 & H2 & C2).
  exists w2. rewrite E1, obind_some, C2, C1. split; [done|]. split; [by rewrite app_assoc|done].
Qed.
Lemma emits_bind f g s r : emits f s -> prints g r -> emits (fun w => w ← f w; g w) (s ++ r).
Proof.
  intros Hf Hg t w Hw. destruct (Hf t w Hw) as (w1 & E1 & H1 & C1). destruct (Hg _ _ H1) as (w2 & E2 & H2 & C2).
  exists w2. rewrite E1, obind_some, C2, C1. split; [done|]. split; [by rewrite <- !app_assoc in H2|done].
Qed.

Lemma put_s_prints s rest : is_text s -> prints (fun w => put_s w (s ++ 0 :: rest)) s.
Proof.
  induction s as [|c s IH]; intros Hs; [apply prints_nil|]. cbn [app put_s].
  apply is_text_cons in Hs as [Hc Hs]. rewrite (proj2 (Z.eqb_neq c 0)) by lia. cbn [negb].
  apply (prints_bind _ _ [c] s); [apply prints_char|by apply IH].
Qed.
Lemma escape_prints s rest : is_text s -> prints (fun w => escape_loop w (s ++ 0 :: rest)) (s ≫= esc).
Proof.
  induction s as [|c s IH]; intros Hs; [apply prints_nil|]. cbn [app escape_loop mbind list_bind].
  apply is_text_cons in Hs as [Hc Hs]. rewrite (proj2 (Z.eqb_neq c 0)) by lia. cbn [negb].
  apply prints_bind; [|by apply IH]. unfold esc.
  destruct ((c =? 34) || (c =? 92)); [|destruct (c <? 32); apply prints_char].
  apply (prints_bind _ _ [92] [c]); apply prints_char.
Qed.
Lemma put_escaped_prints s rest : is_text s -> prints (fun w => put_escaped w (s ++ 0 :: rest)) (quoted s).
Proof.
  intros Hs. unfold put_escaped, quoted. apply (prints_bind _ _ [34]); [apply prints_char|].
  apply prints_bind; [by apply escape_prints|apply prints_char].
Qed.

Lemma sep_emits : emits sep [].
Proof.
  intros t w Hw. unfold sep. destruct (need_comma w).
  - destruct (put_c_holds t w 44 Hw) as (w' & -> & Hw' & _). rewrite obind_some. eexists. split; [done|].
    split; [|done]. by apply holds_comma.
  - rewrite obind_some. eexists. split; [done|]. split; [|done]. rewrite app_nil_r. by apply holds_comma.
Qed.
Lemma key_emits k : key_ok k -> emits (fun w => key w (cstr <$> k)) (ktext k).
Proof.
  intros Hk. unfold key. replace (ktext k) with ([] ++ ktext k) by done. apply emits_bind.
  - apply sep_emits.
  - destruct k as [k|]; [|apply prints_nil]. cbn [fmap option_fmap option_map ktext].
    apply prints_bind; [by apply put_escaped_prints|apply prints_char].
Qed.
Lemma number_prints v :
  in_u 64 v -> prints (fun w => n ← fm_u64_to_str v (replicate 22 0); put_s w n) (numeral 10 v).
Proof.
  intros Hv t w Hw. rewrite fm_u64_to_str_numeral, obind_some by (done || (rewrite length_replicate; lia)).
  unfold blit. rewrite take_0. cbn [app]. rewrite <- app_assoc. by apply put_s_prints; [apply numeral_text|].
Qed.
Lemma signed_prints v :
  in_s 64 v ->
  prints (fun w => if v <? 0 then
            w ← put_c w 45; t ← s64 (v + 1); t ← s64 (- t);
            n ← fm_u64_to_str (u64 (t + 1)) (replicate 22 0); put_s w n
          else n ← fm_u64_to_str v (replicate 22 0); put_s w n) (signed_numeral v).
Proof.
  unfold in_s. change (2 ^ (64 - 1)) with 9223372036854775808. intros Hv. unfold signed_numeral.
  destruct (Z.ltb_spec v 0).
  - apply (prints_bind _ _ [45]); [apply prints_char|]. intros t w Hw. ck_steps. rewrite u64_ok by lia.
    replace (- (v + 1) + 1) with (- v) by lia. apply number_prints; [|done]. unfold in_u. lia.
  - apply number_prints. unfold in_u. lia.
Qed.

(** Opening a bracket resets the separator; closing one sets it. *)
Lemma brackets_emit f g l r s :
  emits f s -> (forall t w, holds buf0 cap t w -> need_comma w = false ->
    exists w', g w = Some w' /\ holds buf0 cap (t ++ r) w') ->
  emits (fun w => w ← (w ← f w; w ← put_c w l; Some (set_comma false w)); w ← g w;
                  w ← put_c w (l + 2); Some (set_comma true w)) (s ++ [l] ++ r ++ [l + 2]).
Proof.
  intros Hf Hg t w Hw. destruct (Hf t w Hw) as (w1 & -> & H1 & _). rewrite obind_some.
  destruct (put_c_holds _ w1 l H1) as (w2 & -> & H2 & _). rewrite obind_some.
  destruct (Hg _ _ (holds_comma _ _ false H2) eq_refl) as (w3 & E3 & H3). rewrite obind_some, E3, obind_some.
  destruct (put_c_holds _ w3 (l + 2) H3) as (w4 & -> & H4 & _). rewrite obind_some. eexists. split; [done|].
  split; [|done]. apply holds_comma. rewrite <- !app_assoc in H4. done.
Qed.

Lemma all_hold l :
  Forall (fun n => node_ok n -> emits (jw_write n) (text n)) l -> nodes_ok l ->
  forall t w, holds buf0 cap t w ->
  exists w', jw_all l w = Some w' /\
    holds buf0 cap (t ++ if need_comma w then l ≫= (fun n => 44 :: text n) else commas (text <$> l)) w'.
Proof.
  induction l as [|n l IH]; intros Hl Hok t w Hw.
  - exists w. split; [done|]. by destruct (need_comma w); rewrite app_nil_r.
  - apply Forall_cons in Hl as [Hn Hl]. apply Forall_cons in Hok as [Ho Hok].
    destruct (Hn Ho t w Hw) as (w1 & E1 & H1 & C1). destruct (IH Hl Hok _ _ H1) as (w2 & E2 & H2).
    exists w2. cbn [jw_all]. rewrite E1, obind_some, E2. split; [done|]. rewrite C1, <- !app_assoc in H2.
    destruct (need_comma w); [exact H2|]. cbn [app] in H2. cbn [fmap list_fmap commas].
    replace ((text <$> l) ≫= fun t => 44 :: t) with (l ≫= fun n => 44 :: text n); [exact H2|].
    clear. induction l as [|n l IH]; [done|]. cbn. by rewrite IH.
Qed.

Lemma jw_write_arr k l w :
  jw_write (JArr k l) w = (w ← jw_arr_open w (cstr <$> k); w ← jw_all l w; jw_arr_close w).
Proof.
  cbn [jw_write]. destruct (jw_arr_open w (cstr <$> k)) as [w1|]; [|done]. rewrite !obind_some. cbn [mbind option_bind].
  revert w1. induction l as [|n l IH]; intros w1; [done|]. cbn [jw_all]. destruct (jw_write n w1); [|done]. apply IH.
Qed.
Lemma jw_write_obj l w :
  jw_write (JObj l) w = (w ← jw_obj_open w; w ← jw_all l w; jw_obj_close w).
Proof.
  cbn [jw_write]. destruct (jw_obj_open w) as [w1|]; [|done]. rewrite !obind_some. cbn [mbind option_bind].
  revert w1. induction l as [|n l IH]; intros w1; [done|]. cbn [jw_all]. destruct (jw_write n w1); [|done]. apply IH.
Qed.

Lemma jw_write_emits n : node_ok n -> emits (jw_write n) (text n).
Proof.
  induction n as [k v|k v|k v|k v|k l IH|l IH] using jnode_nested; intros Hok.
  - destruct Hok as [Hk Hv]. apply emits_bind; [by apply key_emits|]. by apply put_escaped_prints.
  - destruct Hok as [Hk Hv]. apply emits_bind; [by apply key_emits|]. by apply signed_prints.
  - destruct Hok as [Hk Hv]. apply emits_bind; [by apply key_emits|]. apply number_prints. unfold in_u in *. lia.
  - apply emits_bind; [by apply key_emits|]. destruct v; apply put_s_prints; compute_done.
  - apply node_ok_arr in Hok as [Hk Hl]. intros t w Hw. rewrite jw_write_arr.
    apply (brackets_emit (fun w => key w (cstr <$> k)) (jw_all l) 91 (commas (text <$> l)) (ktext k));
      [by apply key_emits| |done].
    intros t' w' Hw' Hc. pose proof (all_hold l IH Hl t' w' Hw') as H. by rewrite Hc in H.
  - apply node_ok_obj in Hok. intros t w Hw. rewrite jw_write_obj.
    apply (brackets_emit sep (jw_all l) 123 (commas (text <$> l)) []); [apply sep_emits| |done].
    intros t' w' Hw' Hc. pose proof (all_hold l IH Hok t' w' Hw') as H. by rewrite Hc in H.
Qed.
End writer.

Lemma jw_doc_text (n : jnode) (buf : list Z) (cap : nat) :
  node_ok n -> (0 < cap <= length buf)%nat -> Z.of_nat cap < 2 ^ 64 ->
  exists w, (w ← jw_init buf (Z.of_nat cap); jw_write n w) = Some w /\
    jbuf w = blit buf 0 (take (cap - 1) (text n) ++ [0]) /\
    jw_len w = Z.of_nat (Nat.min (cap - 1) (length (text n))) /\
    jw_ok w = bool_decide (length (text n) < cap)%nat.
Proof.
  intros Hn Hc Hm. unfold jw_init. destruct (Z.ltb_spec 0 (Z.of_nat cap)); [|lia].
  rewrite wrb_blit, !obind_some by lia.
  destruct (jw_write_emits buf cap (conj Hc Hm) n Hn [] (mkJw (blit buf 0 [0]) (Z.of_nat cap) 0 false false))
    as (w & E & [H1 H2 H3 H4] & _).
  { split; cbn [jbuf jcap jlen overflow length]; [done|by rewrite take_nil|by rewrite take_nil|].
    symmetry. apply bool_decide_eq_false. lia. }
  exists w. split; [exact E|]. cbn [app need_comma] in *. split; [done|]. split; [unfold jw_len; by rewrite H2, length_take|].
  unfold jw_ok. rewrite H4, <- bool_decide_not. apply bool_decide_ext. lia.
Qed.

(** C29: The JSON writer, for every document (any nesting of arrays and objects,
    any keys, strings, numbers and booleans) and any buffer size: the buffer
    holds, terminated, exactly the first cap - 1 bytes of the document's text
    (escaped strings, decimal numbers, comma-separated members), the bytes
    beyond are untouched, and jw_ok tells whether the whole text fitted. *)
Theorem jsonw_writes_text (n : jnode) (buf : list Z) (cap : nat) :
  node_ok n -> (0 < cap <= length buf)%nat -> Z.of_nat cap < 2 ^ 64 ->
  exists w, (w ← jw_init buf (Z.of_nat cap); jw_write n w) = Some w /\
    jbuf w = blit buf 0 (take (cap - 1) (text n) ++ [0]) /\
    jw_len w = Z.of_nat (Nat.min (cap - 1) (length (text n))) /\
    jw_ok w = bool_decide (length (text n) < cap)%nat.
Proof. intros Hn Hc Hm. by apply jw_doc_text. Qed.

(** A JSON string literal read back, after its opening quote. *)
Fixpoint unquote (l : list Z) : option (list Z * list Z) :=
  match l with
  | [] => None
  | c :: l =>
      if c =? 34 then Some ([], l)
      else if c =? 92 then
        match l with [] => None | c :: l => '(s, r) ← unquote l; Some (c :: s, r) end
      else '(s, r) ← unquote l; Some (c :: s, r)
  end.

(** Escaping loses nothing but control characters: a JSON reader that
    undoes the backslashes gets the string back, with each control character
    replaced by a space, and stops exactly at its closing quote. *)
Theorem json_string_roundtrip (s rest : list Z) :
  is_text s ->
  exists body, quoted s ++ rest = 34 :: body /\
    unquote body = Some ((fun c => if c <? 32 then 32 else c) <$> s, rest).
Proof.
  intros Hs. exists ((s ≫= esc) ++ 34 :: rest). split; [unfold quoted; cbn; by rewrite <- app_assoc|].
  induction s as [|c s IH]; [done|]. apply is_text_cons in Hs as [Hc Hs]. specialize (IH Hs).
  cbn [mbind list_bind fmap list_fmap]. unfold esc at 1.
  destruct (Z.eqb_spec c 34) as [->|H34]; [cbn; by rewrite IH|].
  destruct (Z.eqb_spec c 92) as [->|H92]; [cbn; by rewrite IH|]. cbn [orb].
  destruct (Z.ltb_spec c 32); cbn [app unquote].
  - cbn. by rewrite IH.
  - rewrite (proj2 (Z.eqb_neq c 34)), (proj2 (Z.eqb_neq c 92)) by done. by rewrite IH.
Qed.

Definition demo_doc : jnode :=
  JObj [JStr (Some (chars "state")) (chars "on"); JI64 (Some (chars "n")) (-42);
        JArr (Some (chars "l")) [JBool None true; JObj []; JU32 None 7] ].
Lemma demo_doc_ok : node_ok demo_doc.
Proof. cbn [node_ok demo_doc key_ok]. repeat split; first [done | compute_done]. Qed.
Lemma jsonw_writes_text_witness :
  exists w, (w ← jw_init (replicate 64 1) 64; jw_write demo_doc w) = Some w /\ jw_ok w = true /\
    exists w', (w ← jw_init (replicate 64 1) 10; jw_write demo_doc w) = Some w' /\ jw_len w' = 9.
Proof.
  destruct (jsonw_writes_text demo_doc (replicate 64 1) 64) as (w & E & _ & _ & Ho); [apply demo_doc_ok|cbn; lia|done|].
  destruct (jsonw_writes_text demo_doc (replicate 64 1) 10) as (w' & E' & _ & Hl & _); [apply demo_doc_ok|cbn; lia|done|].
  exists w. split; [exact E|]. split; [rewrite Ho; by vm_compute|]. exists w'. split; [exact E'|]. rewrite Hl. by vm_compute.
Defined.
Lemma json_string_roundtrip_witness :
  exists body, quoted [104; 34; 10] ++ [58] = 34 :: body /\ unquote body = Some ([104; 34; 32], [58]).
Proof. apply (json_string_roundtrip [104; 34; 10] [58]). compute_done. Defined.
