(* ===== verification/LwipLibc.v ===== *)
(** * The string and stdio routines of the lwIP port (src/port/lwip/lwip_libc.c)

    Strings are arrays from the pointer on, a pointer result is an offset into
    its argument or [None] for NULL.  Each loop over a string is structural in
    the array: it fails where the source would read past the end.  A variadic
    call takes the list of its arguments with the types they are passed at. *)

From S2P Require Import Prelude CInt Decimal CStr Alloc Libc.

(** ** string.h *)

Fixpoint memchr_loop (s : list Z) (c i : Z) (n : nat) : option (option Z) :=
  match n with
  | O => Some None
  | S n => x ← rdb s i; if x =? u8 c then Some (Some i) else memchr_loop s c (i + 1) n
  end.
Definition memchr (s : list Z) (c n : Z) : option (option Z) := memchr_loop s c 0 (Z.to_nat n).

Fixpoint memcmp_loop (a b : list Z) (i : Z) (n : nat) : option Z :=
  match n with
  | O => Some 0
  | S n => x ← rdb a i; y ← rdb b i; if negb (x =? y) then s32 (x - y) else memcmp_loop a b (i + 1) n
  end.
Definition memcmp (a b : list Z) (n : Z) : option Z := memcmp_loop a b 0 (Z.to_nat n).

Fixpoint strcmp (a b : list Z) : option Z :=
  match a, b with
  | x :: a, y :: b => if negb (x =? 0) && (x =? y) then strcmp a b else s32 (x - y)
  | _, _ => None
  end.

Fixpoint strncmp_loop (a b : list Z) (i : Z) (n : nat) : option Z :=
  match n with
  | O => Some 0
  | S n =>
      x ← rdb a i; y ← rdb b i;
      if negb (x =? y) || (x =? 0) then s32 (x - y) else strncmp_loop a b (i + 1) n
  end.
Definition strncmp (a b : list Z) (n : Z) : option Z := strncmp_loop a b 0 (Z.to_nat n).

(** Copy up to and including the terminator. *)
Fixpoint strcpy_loop (d : list Z) (o : Z) (s : list Z) : option (list Z) :=
  match s with
  | [] => None
  | c :: s => d ← wrb d o c; if negb (c =? 0) then strcpy_loop d (o + 1) s else Some d
  end.
Definition strcpy (d s : list Z) : option (list Z) := strcpy_loop d 0 s.

(** The second loop of strncpy, and the first one followed by it. *)
Fixpoint pad_loop (d : list Z) (i : Z) (n : nat) : option (list Z) :=
  match n with
  | O => Some d
  | S n => d ← wrb d i 0; pad_loop d (i + 1) n
  end.
Fixpoint strncpy_loop (d s : list Z) (i : Z) (n : nat) : option (list Z) :=
  match n with
  | O => Some d
  | S n' =>
      c ← rdb s i;
      if negb (c =? 0) then d ← wrb d i c; strncpy_loop d s (i + 1) n' else pad_loop d i n
  end.
Definition strncpy (d s : list Z) (n : Z) : option (list Z) := strncpy_loop d s 0 (Z.to_nat n).

Fixpoint strchr_loop (s : list Z) (c i : Z) : option (option Z) :=
  match s with
  | [] => None
  | x :: s =>
      if negb (x =? 0) then if x =? u8 c then Some (Some i) else strchr_loop s c (i + 1)
      else Some (if u8 c =? 0 then Some i else None)
  end.
Definition strchr (s : list Z) (c : Z) : option (option Z) := strchr_loop s c 0.

(** Advance while both characters are non-zero and equal; then: is the needle at its end? *)
Fixpoint match_loop (h n : list Z) : option bool :=
  match h, n with
  | x :: h, y :: n =>
      if negb (x =? 0) && negb (y =? 0) && (x =? y) then match_loop h n else Some (y =? 0)
  | _, _ => None
  end.
Fixpoint strstr_loop (hay needle : list Z) (i : Z) : option (option Z) :=
  match hay with
  | [] => None
  | x :: rest =>
      if negb (x =? 0) then
        m ← match_loop hay needle;
        if (m : bool) then Some (Some i) else strstr_loop rest needle (i + 1)
      else Some None
  end.
Definition strstr (hay needle : list Z) : option (option Z) :=
  c ← rdb needle 0;
  if c =? 0 then Some (Some 0) else strstr_loop hay needle 0.

(** ** stdlib.h *)

(** The heap and the memory it hands out. *)
Section alloc.
Context {H : Type} `{!HeapOps H}.
Definition onHeap {A} (c : M H A) : M (H * mem) A := zoom fst (fun h s => (h, s.2)) c.
Definition onMem {A} (c : M mem A) : M (H * mem) A := zoom snd (fun m s => (s.1, m)) c.

Definition malloc (n : Z) : M (H * mem) Z := onHeap (hp_malloc n).
Definition free (p : Z) : M (H * mem) unit := onHeap (hp_free p).
(** [for (i = 0; i < total; i++) d[i] = 0]. *)
Fixpoint zero_bytes (d i : Z) (n : nat) : M mem unit :=
  match n with O => mret tt | S n => st_byte (d + i) 0;; zero_bytes d (i + 1) n end.
Definition calloc (a b : Z) : M (H * mem) Z :=
  let total := u64 (a * b) in
  p ← onHeap (hp_malloc total);
  (if negb (p =? 0) then onMem (zero_bytes p 0 (Z.to_nat total)) else mret tt);;
  mret p.
End alloc.

Fixpoint atoi_loop (s : list Z) (v : Z) : option Z :=
  match s with
  | [] => None
  | c :: s =>
      if (48 <=? c) && (c <=? 57) then t ← s32 (v * 10); v ← s32 (t + (c - 48)); atoi_loop s v else Some v
  end.
Definition atoi (s : list Z) : option Z :=
  c ← rdb s 0;
  if c =? 45 then v ← atoi_loop (drop 1 s) 0; s32 (v * -1) else v ← atoi_loop s 0; s32 (v * 1).

(** The digit of a character, if it is one. *)
Definition digit_of (c : Z) : option Z :=
  if (48 <=? c) && (c <=? 57) then Some (c - 48)
  else if (97 <=? c) && (c <=? 102) then Some (c - 97 + 10)
  else if (65 <=? c) && (c <=? 70) then Some (c - 65 + 10)
  else None.
(** The loop of strtol: the value, and the index of the first character not read. *)
Fixpoint strtol_loop (s : list Z) (base v i : Z) : option (Z * Z) :=
  match s with
  | [] => None
  | c :: s =>
      match digit_of c with
      | Some d =>
          if base <=? d then Some (v, i)
          else t ← s64 (v * base); v ← s64 (t + d); strtol_loop s base v (i + 1)
      | None => Some (v, i)
      end
  end.
Definition strtol (s : list Z) (base : Z) : option (Z * Z) :=
  c ← rdb s 0;
  let neg := c =? 45 in
  let o := if neg then 1 else 0 in
  o ← (if base =? 16 then
         z ← rdb s o;
         if z =? 48 then x ← rdb s (o + 1); Some (if (x =? 120) || (x =? 88) then o + 2 else o) else Some o
       else Some o);
  r ← strtol_loop (drop (Z.to_nat o) s) base 0 o;
  v ← s64 (r.1 * (if neg then -1 else 1));
  Some (v, r.2).

(** ** stdio.h *)

(** A variadic argument, at the type it is passed with. *)
Inductive va_arg := VaLong (v : Z) | VaUlong (v : Z) | VaPtr (v : Z) | VaInt (v : Z) | VaStr (s : list Z).

(** The destination of [emit]: the array and the position. *)
Record out := mkOut { obuf : list Z; opos : Z }.

Definition emit (size : Z) (o : out) (c : Z) : option out :=
  b ← (if opos o <? size then wrb (obuf o) (opos o) c else Some (obuf o));
  Some (mkOut b (u64 (opos o + 1))).

Fixpoint emit_str (size : Z) (o : out) (s : list Z) : option out :=
  match s with
  | [] => None
  | c :: s => if negb (c =? 0) then o ← emit size o c; emit_str size o s else Some o
  end.

(** [while ((v != 0) && (i < sizeof(tmp))) { tmp[i++] = digits[v % base]; v /= base; }]. *)
Fixpoint num_digits (fuel : nat) (tmp : list Z) (v base : Z) : option (list Z) :=
  match fuel with
  | O => Some tmp
  | S fuel =>
      if negb (v =? 0) && (Z.of_nat (length tmp) <? 24)
      then c ← rdb (lit "0123456789abcdef") (v mod base); num_digits fuel (tmp ++ [c]) (v / base) base
      else Some tmp
  end.
(** [while (i > 0) { i--; emit(tmp[i]); }]. *)
Fixpoint emit_all (size : Z) (o : out) (rev_tmp : list Z) : option out :=
  match rev_tmp with
  | [] => Some o
  | c :: rest => o ← emit size o c; emit_all size o rest
  end.
Definition emit_num (size : Z) (o : out) (v base : Z) (neg : bool) : option out :=
  o ← (if neg then emit size o 45 else Some o);
  if v =? 0 then emit size o 48
  else tmp ← num_digits 24 [] v base; emit_all size o (reverse tmp).

(** The flags, width and length characters the loop skips. *)
Definition is_modifier (c : Z) : bool :=
  (c =? 108) || (c =? 104) || (c =? 122) || ((48 <=? c) && (c <=? 57)) || (c =? 45) || (c =? 46) || (c =? 43) || (c =? 32).

(** One conversion, with the arguments left. *)
Definition convert (size : Z) (o : out) (c : Z) (ap : list va_arg) : option (out * list va_arg) :=
  if c =? 100 then
    match ap with
    | VaLong v :: ap =>
        u ← (if v <? 0 then t ← s64 (- v); Some (u64 t) else Some (u64 v));
        o ← emit_num size o u 10 (v <? 0); Some (o, ap)
    | _ => None
    end
  else if c =? 117 then match ap with VaUlong v :: ap => o ← emit_num size o v 10 false; Some (o, ap) | _ => None end
  else if c =? 120 then match ap with VaUlong v :: ap => o ← emit_num size o v 16 false; Some (o, ap) | _ => None end
  else if c =? 112 then
    match ap with
    | VaPtr v :: ap => o ← emit_str size o (lit "0x"); o ← emit_num size o v 16 false; Some (o, ap)
    | _ => None
    end
  else if c =? 99 then match ap with VaInt v :: ap => o ← emit size o (u8 v); Some (o, ap) | _ => None end
  else if c =? 115 then match ap with VaStr s :: ap => o ← emit_str size o s; Some (o, ap) | _ => None end
  else if c =? 37 then o ← emit size o 37; Some (o, ap)
  else o ← emit size o 37; o ← emit size o c; Some (o, ap).

(** The loop over the format; [spec]: after a percent sign, skipping modifiers.
    A format that ends inside a conversion ends the loop. *)
Fixpoint fmt_loop (size : Z) (o : out) (spec : bool) (fmt : list Z) (ap : list va_arg) : option out :=
  match fmt with
  | [] => None
  | c :: fmt =>
      if c =? 0 then Some o
      else if spec then
        if is_modifier c then fmt_loop size o true fmt ap
        else '(o, ap) ← convert size o c ap; fmt_loop size o false fmt ap
      else if negb (c =? 37) then o ← emit size o c; fmt_loop size o false fmt ap
      else fmt_loop size o true fmt ap
  end.
Definition vsnprintf (buf : list Z) (size : Z) (fmt : list Z) (ap : list va_arg) : option (Z * list Z) :=
  o ← fmt_loop size (mkOut buf 0) false fmt ap;
  b ← (if 0 <? size then wrb (obuf o) (if opos o <? size then opos o else size - 1) 0 else Some (obuf o));
  Some (i32 (opos o), b).
Definition snprintf (buf : list Z) (size : Z) (fmt : list Z) (ap : list va_arg) : option (Z * list Z) :=
  vsnprintf buf size fmt ap.
Definition sprintf (buf : list Z) (fmt : list Z) (ap : list va_arg) : option (Z * list Z) :=
  vsnprintf buf 2147483647 fmt ap.

(** ** What a format means *)

(** The directives of C that the function implements as the C standard says,
    each with its argument at the type the standard asks for: a literal
    character, [%ld] and [%zd], [%lu] and [%zu], [%lx] and [%zx] (long and the
    size types are 64 bits wide on the target), [%p], [%c], [%s], [%%].
    Directives with flags, a width or a precision, and the int conversions
    [%d], [%u] and [%x], are not among them: the function skips the former
    and reads a long for the latter. *)
Inductive length_mod := LenL | LenZ.
Inductive directive :=
| DLit (c : Z) | DSigned (m : length_mod) (v : Z) | DUnsigned (m : length_mod) (v : Z) | DHex (m : length_mod) (v : Z)
| DPtr (v : Z) | DChar (v : Z) | DStr (text rest : list Z) | DPercent.

Definition mod_char (m : length_mod) : Z := match m with LenL => 108 | LenZ => 122 end.
(** How a directive is written in the format. *)
Definition directive_format (d : directive) : list Z :=
  match d with
  | DLit c => [c]
  | DSigned m _ => [37; mod_char m; 100] | DUnsigned m _ => [37; mod_char m; 117] | DHex m _ => [37; mod_char m; 120]
  | DPtr _ => [37; 112] | DChar _ => [37; 99] | DStr _ _ => [37; 115] | DPercent => [37; 37]
  end.
(** The argument it takes. *)
Definition directive_args (d : directive) : list va_arg :=
  match d with
  | DLit _ | DPercent => []
  | DSigned _ v => [VaLong v] | DUnsigned _ v | DHex _ v => [VaUlong v]
  | DPtr v => [VaPtr v] | DChar v => [VaInt v] | DStr text rest => [VaStr (text ++ 0 :: rest)]
  end.
(** What it prints; a pointer as lwIP expects it. *)
Definition directive_text (d : directive) : list Z :=
  match d with
  | DLit c => [c]
  | DSigned _ v => signed_numeral v | DUnsigned _ v => numeral 10 v | DHex _ v => numeral 16 v
  | DPtr v => chars "0x" ++ numeral 16 v | DChar v => [u8 v] | DStr text _ => text | DPercent => [37]
  end.
(** Values of the argument's type; a literal is neither a percent sign nor the
    terminator, a string ends at its first zero byte, and the most negative
    long is left out. *)
Definition directive_ok (d : directive) : Prop :=
  match d with
  | DLit c => c <> 37 /\ 0 < c < 256
  | DSigned _ v => - 2 ^ 63 < v < 2 ^ 63
  | DUnsigned _ v | DHex _ v | DPtr v => in_u 64 v
  | DChar _ | DPercent => True
  | DStr text _ => is_text text
  end.

(** ** What the scanner of the function makes of a format *)

(** A format: characters printed as they are, and conversions. *)
Inductive piece := PChar (c : Z) | PConv (c : Z).
Fixpoint pieces (spec : bool) (fmt : list Z) : list piece :=
  match fmt with
  | [] => []
  | c :: fmt =>
      if spec then if is_modifier c then pieces true fmt else PConv c :: pieces false fmt
      else if c =? 37 then pieces true fmt else PChar c :: pieces false fmt
  end.

(** The text of a string argument, up to its terminator. *)
Fixpoint upto0 (s : list Z) : list Z :=
  match s with [] => [] | c :: s => if c =? 0 then [] else c :: upto0 s end.

Definition conv_text (c : Z) (ap : list va_arg) : option (list Z * list va_arg) :=
  if c =? 100 then match ap with VaLong v :: ap => Some (signed_numeral v, ap) | _ => None end
  else if c =? 117 then match ap with VaUlong v :: ap => Some (numeral 10 v, ap) | _ => None end
  else if c =? 120 then match ap with VaUlong v :: ap => Some (numeral 16 v, ap) | _ => None end
  else if c =? 112 then match ap with VaPtr v :: ap => Some (chars "0x" ++ numeral 16 v, ap) | _ => None end
  else if c =? 99 then match ap with VaInt v :: ap => Some ([u8 v], ap) | _ => None end
  else if c =? 115 then match ap with VaStr s :: ap => Some (upto0 s, ap) | _ => None end
  else if c =? 37 then Some ([37], ap) else Some ([37; c], ap).
Fixpoint render (ps : list piece) (ap : list va_arg) : option (list Z) :=
  match ps with
  | [] => Some []
  | PChar c :: ps => t ← render ps ap; Some (c :: t)
  | PConv c :: ps => '(s, ap) ← conv_text c ap; t ← render ps ap; Some (s ++ t)
  end.

(** Arguments of the C types; the most negative long is not printable. *)
Definition arg_ok (a : va_arg) : Prop :=
  match a with
  | VaLong v => - 2 ^ 63 < v < 2 ^ 63
  | VaUlong v | VaPtr v => in_u 64 v
  | VaInt _ => True
  | VaStr s => 0 ∈ s
  end.

(** ** The digits of a number *)

Lemma digit_lookup k : 0 <= k < 16 -> rdb (lit "0123456789abcdef") k = Some (digit_char k).
Proof.
  intros Hk. assert (k ∈ seqZ 0 16) as Hin by (rewrite elem_of_seqZ; lia). revert Hin. clear Hk.
  vm_compute (seqZ 0 16). rewrite !elem_of_cons, elem_of_nil. intros Hin. by repeat destruct Hin as [->|Hin].
Qed.

Lemma num_digits_rev fuel tmp v b :
  1 < b <= 16 -> 0 < v < b ^ Z.of_nat fuel -> (length tmp + fuel <= 24)%nat ->
  num_digits fuel tmp v b = Some (tmp ++ (digit_char <$> rev_digits fuel b v)).
Proof.
  intros Hb. revert tmp v. induction fuel as [|fuel IH]; intros tmp v Hv Hl; [simpl in Hv; lia|].
  cbn [num_digits rev_digits]. rewrite (proj2 (Z.eqb_neq v 0)) by lia.
  destruct (Z.ltb_spec (Z.of_nat (length tmp)) 24); [|lia]. cbn [negb andb].
  pose proof (Z.mod_pos_bound v b ltac:(lia)). rewrite digit_lookup, obind_some by lia.
  rewrite Nat2Z.inj_succ, Z.pow_succ_r in Hv by lia.
  destruct (Z.eqb_spec (v / b) 0) as [E|E].
  - rewrite E. by destruct fuel.
  - assert (0 <= v / b) by (apply Z.div_pos; lia).
    assert (v / b < b ^ Z.of_nat fuel) by (apply Z.div_lt_upper_bound; lia).
    rewrite IH by (rewrite ?length_app; cbn; lia). by rewrite <- app_assoc.
Qed.

(** The loop and its reversal give the numeral of a 64-bit number. *)
Lemma num_digits_numeral v b :
  b = 10 \/ b = 16 -> in_u 64 v -> v <> 0 -> num_digits 24 [] v b = Some (reverse (numeral b v)).
Proof.
  unfold in_u. change (2 ^ 64) with 18446744073709551616. intros Hb Hv Hz.
  rewrite num_digits_rev by (destruct Hb as [-> | ->]; cbn; lia). f_equal.
  unfold numeral, digits. rewrite (rev_digits_fuel 24 64) by (destruct Hb as [-> | ->]; cbn; lia).
  by rewrite fmap_reverse, reverse_involutive.
Qed.

(** ** The output holds the part that fits *)

Section output.
Context (buf0 : list Z) (size : nat) (Hsize : (size <= length buf0)%nat).

Definition printed (t : list Z) (o : out) : Prop :=
  opos o = Z.of_nat (length t) /\ obuf o = blit buf0 0 (take size t).
Definition outputs (f : out -> option out) (s : list Z) : Prop :=
  forall t o, printed t o -> Z.of_nat (length t + length s) < 18446744073709551616 ->
  exists o', f o = Some o' /\ printed (t ++ s) o'.

Lemma outputs_emit c : outputs (fun o => emit (Z.of_nat size) o c) [c].
Proof.
  intros t o [Hp Hb] Hl. unfold emit. rewrite Hp, u64_ok by (cbn in Hl; lia). cbn [length] in Hl.
  destruct (Z.ltb_spec (Z.of_nat (length t)) (Z.of_nat size)).
  - rewrite (take_ge t) in Hb by lia. rewrite Hb, wrb_blit, obind_some by (rewrite blit_length; lia).
    eexists. split; [done|]. split; cbn [opos obuf]; [rewrite length_app; cbn; lia|].
    rewrite Nat2Z.id, take_ge by (rewrite length_app; cbn; lia). apply (blit_after buf0 0 t [c]). cbn. lia.
  - rewrite obind_some. eexists. split; [done|]. split; cbn [opos obuf]; [rewrite length_app; cbn; lia|].
    by rewrite take_app_le by lia.
Qed.
Lemma outputs_nil : outputs Some [].
Proof. intros t o Ho _. exists o. by rewrite app_nil_r. Qed.
Lemma outputs_bind f g s r : outputs f s -> outputs g r -> outputs (fun o => o ← f o; g o) (s ++ r).
Proof.
  intros Hf Hg t o Ho Hl. rewrite length_app in Hl. destruct (Hf t o Ho ltac:(lia)) as (o1 & E1 & H1).
  destruct (Hg _ _ H1) as (o2 & E2 & H2); [rewrite length_app; lia|].
  exists o2. rewrite E1, obind_some. by rewrite app_assoc.
Qed.

Lemma outputs_str s : 0 ∈ s -> outputs (fun o => emit_str (Z.of_nat size) o s) (upto0 s).
Proof.
  induction s as [|c s IH]; intros Hs; [set_solver|]. cbn [emit_str upto0]. destruct (Z.eqb_spec c 0) as [->|Hc]; cbn [negb].
  - apply outputs_nil.
  - apply (outputs_bind _ _ [c]); [apply outputs_emit|]. apply IH. set_solver.
Qed.
Lemma outputs_all l : outputs (fun o => emit_all (Z.of_nat size) o l) l.
Proof.
  induction l as [|c l IH]; [apply outputs_nil|]. cbn [emit_all]. by apply (outputs_bind _ _ [c]); [apply outputs_emit|].
Qed.

Lemma outputs_num v b neg :
  b = 10 \/ b = 16 -> in_u 64 v ->
  outputs (fun o => emit_num (Z.of_nat size) o v b neg) ((if neg then [45] else []) ++ numeral b v).
Proof.
  intros Hb Hv. unfold emit_num.
  apply outputs_bind; [destruct neg; [apply outputs_emit|apply outputs_nil]|].
  destruct (Z.eqb_spec v 0) as [->|Hz].
  - replace (numeral b 0) with [48] by (destruct Hb as [-> | ->]; by vm_compute). apply outputs_emit.
  - rewrite num_digits_numeral by done. intros t o Ho Hl. rewrite obind_some, reverse_involutive. by apply outputs_all.
Qed.

(** A conversion prints its text and consumes its argument. *)
Lemma convert_prints c ap s ap' t o :
  conv_text c ap = Some (s, ap') -> Forall arg_ok ap -> printed t o ->
  Z.of_nat (length t + length s) < 18446744073709551616 ->
  exists o', convert (Z.of_nat size) o c ap = Some (o', ap') /\ printed (t ++ s) o' /\ Forall arg_ok ap'.
Proof.
  assert (forall r ap'', (exists o', r = Some o' /\ printed (t ++ s) o') -> Forall arg_ok ap'' ->
    exists o', (r ≫= fun o => Some (o, ap'')) = Some (o', ap'') /\ printed (t ++ s) o' /\ Forall arg_ok ap'') as Hfin.
  { intros r ap'' (o' & -> & Ho') Ha. by exists o'. }
  unfold conv_text, convert. intros E Hok Ho Hl.
  destruct (c =? 100).
  { destruct ap as [|[v|v|v|v|u] ap]; try done. injection E as <- <-. apply Forall_cons in Hok as [Hv Hok].
    cbn [arg_ok] in Hv. change (2 ^ 63) with 9223372036854775808 in Hv. unfold signed_numeral in *.
    destruct (Z.ltb_spec v 0).
    - rewrite s64_bind, obind_some, u64_ok by lia. apply Hfin; [|done].
      apply (outputs_num (- v) 10 true); [by left| |done|done]. unfold in_u. lia.
    - rewrite obind_some, u64_ok by lia. apply Hfin; [|done].
      apply (outputs_num v 10 false); [by left| |done|done]. unfold in_u. lia. }
  destruct (c =? 117); [|destruct (c =? 120); [|destruct (c =? 112); [|destruct (c =? 99); [|destruct (c =? 115)] ] ] ];
    [destruct ap as [|[v|v|v|v|u] ap]; try done; injection E as <- <-; apply Forall_cons in Hok as [Hv Hok]..|].
  - apply Hfin; [|done]. by apply (outputs_num v 10 false); [left| |..].
  - apply Hfin; [|done]. by apply (outputs_num v 16 false); [right| |..].
  - destruct (outputs_bind (fun o => emit_str (Z.of_nat size) o (lit "0x")) (fun o => emit_num (Z.of_nat size) o v 16 false)
      (upto0 (lit "0x")) (numeral 16 v)) with t o as (o' & E' & Ho'); [apply outputs_str; set_solver| |done|done|].
    + apply (outputs_num v 16 false); [by right|done].
    + destruct (emit_str _ _ _); [|done]. cbn [mbind option_bind] in *. rewrite E'. by exists o'.
  - apply Hfin; [|done]. by apply outputs_emit.
  - apply Hfin; [|done]. by apply outputs_str.
  - destruct (c =? 37); injection E as <- <-.
    + apply Hfin; [|done]. by apply outputs_emit.
    + destruct (outputs_bind (fun o => emit (Z.of_nat size) o 37) (fun o => emit (Z.of_nat size) o c) [37] [c]) with t o
        as (o' & E' & Ho'); [apply outputs_emit|apply outputs_emit|done|done|].
      destruct (emit (Z.of_nat size) o 37); [|done]. cbn [mbind option_bind] in *. rewrite E'. by exists o'.
Qed.
End output.

Lemma fmt_loop_prints buf0 size (Hsize : (size <= length buf0)%nat) fmt rest spec ap s t o :
  is_text fmt -> Forall arg_ok ap -> render (pieces spec fmt) ap = Some s -> printed buf0 size t o ->
  Z.of_nat (length t + length s) < 18446744073709551616 ->
  exists o', fmt_loop (Z.of_nat size) o spec (fmt ++ 0 :: rest) ap = Some o' /\ printed buf0 size (t ++ s) o'.
Proof.
  revert spec ap s t o. induction fmt as [|c fmt IH]; intros spec ap s t o Hf Hok Hr Ho Hl.
  - destruct spec; injection Hr as <-; exists o; by rewrite app_nil_r.
  - apply is_text_cons in Hf as [Hc Hf]. cbn [app fmt_loop]. rewrite (proj2 (Z.eqb_neq c 0)) by lia.
    cbn [pieces] in Hr. destruct spec.
    + destruct (is_modifier c); [by apply (IH true ap)|]. cbn [render] in Hr.
      destruct (conv_text c ap) as [ [s1 ap1]|] eqn:Ec; [|done]. cbn in Hr.
      destruct (render (pieces false fmt) ap1) as [s2|] eqn:Er; [|done]. injection Hr as <-. rewrite length_app in Hl.
      destruct (convert_prints buf0 size Hsize c ap s1 ap1 t o Ec Hok Ho ltac:(lia)) as (o1 & E1 & Ho1 & Hok1).
      rewrite E1. cbn. destruct (IH false ap1 s2 (t ++ s1) o1 Hf Hok1 Er Ho1) as (o2 & E2 & Ho2); [rewrite length_app; lia|].
      exists o2. by rewrite app_assoc.
    + destruct (c =? 37); cbn [negb]; [by apply (IH true ap)|]. cbn [render] in Hr.
      destruct (render (pieces false fmt) ap) as [s2|] eqn:Er; [|done]. injection Hr as <-. cbn [length] in Hl.
      destruct (outputs_emit buf0 size Hsize c t o Ho) as (o1 & E1 & Ho1); [cbn; lia|]. rewrite E1, obind_some.
      destruct (IH false ap s2 (t ++ [c]) o1 Hf Hok Er Ho1) as (o2 & E2 & Ho2); [rewrite length_app; cbn; lia|].
      exists o2. by rewrite <- app_assoc in Ho2.
Qed.

(** For a format and arguments as the scanner takes them. *)
Lemma vsnprintf_renders (buf fmt rest t : list Z) (size : nat) (ap : list va_arg) :
  is_text fmt -> Forall arg_ok ap -> render (pieces false fmt) ap = Some t ->
  Z.of_nat (length t) < 2 ^ 31 -> (size <= length buf)%nat -> Z.of_nat size < 2 ^ 64 ->
  vsnprintf buf (Z.of_nat size) (fmt ++ 0 :: rest) ap =
    Some (Z.of_nat (length t), if decide (size = 0)%nat then buf else blit buf 0 (take (size - 1) t ++ [0])).
Proof.
  intros Hf Hok Hr Ht Hs Hz. change (2 ^ 31) with 2147483648 in Ht. unfold vsnprintf.
  destruct (fmt_loop_prints buf size Hs fmt rest false ap t [] (mkOut buf 0)) as (o & E & Hp & Hb); try done.
  { split; [done|]. cbn [obuf]. rewrite take_nil. done. }
  { cbn [length]. lia. }
  rewrite E, obind_some. cbn [app] in *. rewrite Hp, i32_ok by lia.
  destruct (decide (size = 0)%nat) as [->|Hn].
  { cbn. rewrite Hb. done. }
  destruct (Z.ltb_spec 0 (Z.of_nat size)); [|lia]. rewrite Hb.
  assert (length (take size t) = size `min` length t)%nat as Hlt by apply length_take.
  destruct (Z.ltb_spec (Z.of_nat (length t)) (Z.of_nat size)).
  - rewrite wrb_blit, obind_some by (rewrite blit_length; lia). rewrite !take_ge by lia.
    rewrite Nat2Z.id. do 2 f_equal. apply (blit_after buf 0 t [0]). cbn. lia.
  - rewrite wrb_blit, obind_some by (rewrite blit_length; lia). do 2 f_equal.
    replace (Z.to_nat (Z.of_nat size - 1)) with (0 + length (take (size - 1) t))%nat by (rewrite length_take; lia).
    destruct (lookup_lt_is_Some_2 t (size - 1) ltac:(lia)) as [x Hx].
    replace (take size t) with (take (size - 1) t ++ [x]).
    2:{ rewrite <- (take_S_r t (size - 1) x Hx). f_equal. lia. }
    apply blit_last. rewrite length_take. lia.
Qed.

Lemma upto0_text text rest : is_text text -> upto0 (text ++ 0 :: rest) = text.
Proof.
  induction text as [|c text IH]; [done|]. intros [Hc Ht]%is_text_cons. cbn.
  rewrite (proj2 (Z.eqb_neq c 0)) by lia. by rewrite IH.
Qed.

Lemma render_directives ds :
  Forall directive_ok ds ->
  is_text (ds ≫= directive_format) /\ Forall arg_ok (ds ≫= directive_args) /\
  render (pieces false (ds ≫= directive_format)) (ds ≫= directive_args) = Some (ds ≫= directive_text).
Proof.
  induction 1 as [|d ds Hd _ (IHf & IHa & IHr)]; [by repeat constructor|]. rewrite !bind_cons. split; [|split].
  - apply Forall_app. split; [|exact IHf].
    destruct d as [c|[] v|[] v|[] v|v|v|t u|]; cbn [directive_ok] in Hd; repeat constructor; lia.
  - apply Forall_app. split; [|exact IHa]. destruct d; try exact (Forall_nil_2 _);
      (apply Forall_cons_2; [cbn [arg_ok]|exact (Forall_nil_2 _)]); try exact Hd.
    apply elem_of_app. right. left.
  - destruct d as [c|[] v|[] v|[] v|v|v|t u|]; cbn [directive_format directive_args directive_text app pieces].
    { destruct Hd as [Hd _]. rewrite (proj2 (Z.eqb_neq c 37)) by done. cbn [render]. by rewrite IHr. }
    all: cbn; rewrite ?IHr; cbn; rewrite ?upto0_text by exact Hd; done.
Qed.

(** C30: vsnprintf prints as the C standard says, and never writes past its
    buffer, for formats made of the directives it implements: literal
    characters, %ld %zd, %lu %zu, %lx %zx, %p (as 0x and hexadecimal digits),
    %c, %s and %%, without flags, width or precision, each with an argument of
    the type the standard asks for; the most negative long is excluded.  When
    the text is shorter than 2^31 characters, the call returns the length of
    the whole text, and the buffer of [size] bytes holds the first size - 1
    characters of it and a terminator, the bytes beyond untouched (nothing at
    all when size is 0). *)
Theorem vsnprintf_formats (ds : list directive) (buf rest : list Z) (size : nat) :
  Forall directive_ok ds -> Z.of_nat (length (ds ≫= directive_text)) < 2 ^ 31 ->
  (size <= length buf)%nat -> Z.of_nat size < 2 ^ 64 ->
  vsnprintf buf (Z.of_nat size) ((ds ≫= directive_format) ++ 0 :: rest) (ds ≫= directive_args) =
    Some (Z.of_nat (length (ds ≫= directive_text)),
          if decide (size = 0)%nat then buf else blit buf 0 (take (size - 1) (ds ≫= directive_text) ++ [0])).
Proof. intros (Hf & Ha & Hr)%render_directives Ht Hs Hz. by apply vsnprintf_renders. Qed.

(** An int argument, which [%d] asks for, is read as a long: the call is
    undefined. *)
Lemma vsnprintf_int_undefined buf size rest v : vsnprintf buf size (lit "%d" ++ rest) [VaInt v] = None.
Proof. reflexivity. Qed.
(** A width is skipped: C prints -042 here. *)
Example vsnprintf_no_width :
  vsnprintf (replicate 8 1) 8 (lit "%04ld") [VaLong (-42)] = Some (3, chars "-42" ++ [0; 1; 1; 1; 1]).
Proof. vm_compute. reflexivity. Qed.

(** The most negative long is negated before it is converted. *)
Lemma vsnprintf_long_min buf size rest : vsnprintf buf size (lit "%ld" ++ rest) [VaLong (- 2 ^ 63)] = None.
Proof. reflexivity. Qed.

Definition demo_directives : list directive :=
  [DLit 110; DLit 61; DSigned LenL (-42); DLit 32; DStr (chars "ok, that is all") []; DPercent].
Lemma vsnprintf_formats_witness :
  vsnprintf (replicate 8 1) 8 (chars "n=%ld %s%%" ++ 0 :: []) [VaLong (-42); VaStr (lit "ok, that is all")] =
    Some (22, chars "n=-42 o" ++ [0]).
Proof.
  etransitivity; [refine (vsnprintf_formats demo_directives (replicate 8 1) [] 8 _ _ _ _)|].
  - repeat apply Forall_cons_2; try exact (Forall_nil_2 _); cbn; try done; try lia; compute_done.
  - done.
  - cbn. lia.
  - done.
  - vm_compute. reflexivity.
Defined.

(** ** Reading numbers back *)

Lemma rev_value_nonneg b l : 0 <= b -> Forall (fun d => 0 <= d < b) l -> 0 <= rev_value b l.
Proof. intros Hb. induction 1 as [|d l Hd _ IH]; cbn [rev_value]; [lia|]. nia. Qed.

Lemma atoi_loop_digits l k v :
  Forall (fun d => 0 <= d < 10) l -> 0 <= v ->
  v * 10 ^ Z.of_nat (length l) + rev_value 10 l < 2147483648 ->
  atoi_loop ((digit_char <$> reverse l) ++ k) v = atoi_loop k (v * 10 ^ Z.of_nat (length l) + rev_value 10 l).
Proof.
  revert k. induction l as [|d l IH]; intros k Hl Hv Hb.
  - cbn [length reverse rev_value fmap list_fmap app rev_append]. by replace (v * 10 ^ Z.of_nat 0 + 0) with v by lia.
  - apply Forall_cons in Hl as [Hd Hl]. rewrite reverse_cons, fmap_app, <- app_assoc. cbn [fmap list_fmap app].
    cbn [length rev_value] in *. rewrite Nat2Z.inj_succ, Z.pow_succ_r in * by lia.
    pose proof (Z.pow_pos_nonneg 10 (Z.of_nat (length l)) ltac:(lia) ltac:(lia)).
    pose proof (rev_value_nonneg 10 l ltac:(lia) Hl).
    rewrite IH by (done || nia). cbn [atoi_loop]. unfold digit_char. destruct (Z.ltb_spec d 10); [|lia].
    destruct (Z.leb_spec 48 (48 + d)), (Z.leb_spec (48 + d) 57); try lia. cbn [andb].
    rewrite s32_bind by nia. rewrite s32_bind by nia. f_equal. lia.
Qed.

Lemma atoi_loop_numeral v rest :
  0 <= v < 2147483648 -> atoi_loop (numeral 10 v ++ 0 :: rest) 0 = Some v.
Proof.
  intros Hv. unfold numeral, digits. rewrite atoi_loop_digits; try lia.
  - by rewrite rev_digits_value by lia.
  - apply rev_digits_range. lia.
  - rewrite rev_digits_value by lia. lia.
Qed.

(** Atoi reads back what %d prints, for every int but the most negative
    one, on which it overflows. *)
Theorem atoi_reads_numeral (v : Z) (rest : list Z) :
  in_s 32 v ->
  atoi (signed_numeral v ++ 0 :: rest) = if decide (v = -2147483648) then None else Some v.
Proof.
  unfold in_s. change (2 ^ (32 - 1)) with 2147483648. intros Hv. unfold atoi, signed_numeral.
  destruct (Z.ltb_spec v 0).
  - cbn [app]. change (rdb (45 :: ?l) 0) with (Some 45). rewrite obind_some. change (45 =? 45) with true.
    change (drop 1 (45 :: ?l)) with l.
    destruct (decide _) as [->|Hm]; [by vm_compute|].
    rewrite atoi_loop_numeral, obind_some by lia. rewrite s32_ok by lia. f_equal. lia.
  - destruct (decide _); [lia|]. pose proof (numeral_chars 10 v ltac:(lia)) as Hc.
    pose proof (numeral_length 10 v 63 ltac:(lia)) as Hn.
    destruct (numeral 10 v) as [|c l] eqn:E; [cbn in Hn; lia|]. apply Forall_cons in Hc as [Hc _]. rewrite <- E.
    replace (rdb (numeral 10 v ++ 0 :: rest) 0) with (Some c) by (by rewrite E). rewrite obind_some.
    rewrite (proj2 (Z.eqb_neq c 45)) by lia. rewrite atoi_loop_numeral, obind_some by lia. rewrite s32_ok by lia. f_equal. lia.
Qed.
Lemma atoi_reads_numeral_witness :
  atoi (signed_numeral (-407) ++ 0 :: []) = Some (-407) /\ atoi (signed_numeral (-2147483648) ++ 0 :: []) = None.
Proof. split; apply atoi_reads_numeral; by vm_compute. Defined.

(** ** Searching *)

Lemma match_loop_prefix h n r r' :
  is_text h -> is_text n -> match_loop (h ++ 0 :: r) (n ++ 0 :: r') = Some (bool_decide (n `prefix_of` h)).
Proof.
  revert n. induction h as [|x h IH]; intros [|y n] Hh Hn; cbn [app match_loop].
  - by rewrite bool_decide_true by apply prefix_nil.
  - apply is_text_cons in Hn as [Hy _]. cbn. rewrite (proj2 (Z.eqb_neq y 0)) by lia.
    by rewrite bool_decide_false by apply prefix_nil_not.
  - rewrite andb_false_r. cbn. by rewrite bool_decide_true by apply prefix_nil.
  - apply is_text_cons in Hn as [Hy Hn]. apply is_text_cons in Hh as [Hx Hh].
    rewrite (proj2 (Z.eqb_neq x 0)), (proj2 (Z.eqb_neq y 0)) by lia. cbn [negb andb].
    destruct (Z.eqb_spec x y) as [->|Hne].
    + rewrite IH by done. f_equal. apply bool_decide_ext. split; [apply prefix_cons|apply prefix_cons_inv_2].
    + rewrite bool_decide_false; [done|]. intros Hp. apply Hne. symmetry. by apply prefix_cons_inv_1 in Hp.
Qed.

(** The first position from [i] on at which [n] occurs in [h], if any. *)
Fixpoint first_occurrence (h n : list Z) (i : Z) : option Z :=
  match h with
  | [] => None
  | _ :: h' => if bool_decide (n `prefix_of` h) then Some i else first_occurrence h' n (i + 1)
  end.

Lemma strstr_loop_first h n r r' i :
  is_text h -> is_text n -> strstr_loop (h ++ 0 :: r) (n ++ 0 :: r') i = Some (first_occurrence h n i).
Proof.
  revert i. induction h as [|x h IH]; intros i Hh Hn; [done|]. cbn [app strstr_loop first_occurrence].
  change (x :: h ++ 0 :: r) with ((x :: h) ++ 0 :: r). rewrite match_loop_prefix, obind_some by done.
  apply is_text_cons in Hh as [Hx Hh]. rewrite (proj2 (Z.eqb_neq x 0)) by lia. cbn [negb].
  destruct (bool_decide _); [done|]. by apply IH.
Qed.
Lemma first_occurrence_spec h n i :
  match first_occurrence h n i with
  | Some j => exists k, j = i + Z.of_nat k /\ (k < length h)%nat /\ n `prefix_of` drop k h /\
                forall m, (m < k)%nat -> ~ n `prefix_of` drop m h
  | None => forall m, (m < length h)%nat -> ~ n `prefix_of` drop m h
  end.
Proof.
  revert i. induction h as [|x h IH]; intros i; cbn [first_occurrence length]; [intros; lia|].
  case_bool_decide as Hp; [exists 0%nat; split_and!; [lia|lia|done|lia]|].
  specialize (IH (i + 1)). destruct (first_occurrence h n (i + 1)) as [j|].
  - destruct IH as (k & -> & Hk & Hpk & Hm). exists (S k). split_and!; [lia|lia|done|].
    intros [|m] Hlt; [done|]. apply (Hm m). lia.
  - intros [|m] Hlt; [done|]. apply (IH m). lia.
Qed.

(** Strstr returns the first position at which the needle occurs in the
    haystack (position 0 for an empty needle), and NULL exactly when it occurs
    nowhere; it never reads past either terminator. *)
Theorem strstr_first (hay needle rest rest' : list Z) :
  is_text hay -> is_text needle ->
  exists r, strstr (hay ++ 0 :: rest) (needle ++ 0 :: rest') = Some r /\
    match r with
    | Some j => exists k, j = Z.of_nat k /\ needle `prefix_of` drop k hay /\
                  forall m, (m < k)%nat -> ~ needle `prefix_of` drop m hay
    | None => forall m, (m <= length hay)%nat -> ~ needle `prefix_of` drop m hay
    end.
Proof.
  intros Hh Hn. unfold strstr. destruct needle as [|y needle].
  { exists (Some 0). split; [done|]. exists 0%nat. split_and!; [done|apply prefix_nil|lia]. }
  pose proof Hn as Hn'. apply is_text_cons in Hn' as [Hy _].
  change (rdb ((y :: needle) ++ 0 :: rest') 0) with (Some y). rewrite obind_some, (proj2 (Z.eqb_neq y 0)) by lia.
  rewrite strstr_loop_first by done. eexists. split; [done|].
  pose proof (first_occurrence_spec hay (y :: needle) 0) as Hs. destruct (first_occurrence hay (y :: needle) 0) as [j|].
  - destruct Hs as (k & -> & _ & Hp & Hm). exists k. by split_and!.
  - intros m Hm. destruct (decide (m < length hay)%nat); [by apply Hs|]. rewrite drop_ge by lia. apply prefix_nil_not.
Qed.
Lemma strstr_first_witness :
  exists r, strstr (lit "abcabd") (lit "abd") = Some r /\ r = Some 3.
Proof.
  destruct (strstr_first (chars "abcabd") (chars "abd") [] []) as (r & E & _); [compute_done..|].
  exists r. split; [exact E|]. vm_compute in E. congruence.
Defined.
