(* ===== verification/MqttNet.v ===== *)
(** * The MQTT transport over raw lwIP TCP (src/port/mqtt/transport_raw.c)

    The connection context with its receive ring, the lwIP callbacks and the
    transport interface.  lwIP and the platform are a parameter: an external
    call returns what [Lwip] says for the calls made so far, and a pump of the
    network loop runs the callbacks it lists.  lwIP calls the TCP callbacks only while a
    connection is registered. *)

From S2P Require Import Prelude CInt.

Definition RX_RING_SIZE : Z := 4096.
(** (4 * TCP_SND_BUF + TCP_MSS - 1) / TCP_MSS with TCP_SND_BUF = 4 * TCP_MSS. *)
Definition TCP_SND_QUEUELEN : Z := 16.
Definition ERR_OK : Z := 0.
Definition ERR_MEM : Z := -1.
Definition ERR_INPROGRESS : Z := -5.
Definition ERR_ABRT : Z := -13.
Definition ERR_RST : Z := -14.

Inductive TransportState := TS_IDLE | TS_RESOLVING | TS_CONNECTING | TS_UP | TS_CLOSED | TS_ERROR.
#[global] Instance TransportState_eq_dec : EqDecision TransportState.
Proof. solve_decision. Defined.

(** The connection context; a pcb and an address are opaque handles. *)
Record NetworkContext := mkNet {
  pcb : option Z; nstate : TransportState; dns_done : bool; dns_ok : bool; addr : Z; nerr : option string;
  rx : list Z; rx_head : Z; rx_tail : Z }.

(** A callback: received segment (the payloads of its pbufs, or end of stream),
    fatal error, connection result, name resolution. *)
Inductive net_event :=
| EvRecv (p : option (list (list Z))) | EvErr (err : Z) | EvConnected (err : Z) | EvDns (ip : option Z).

(** The external calls so far, the last first: [true] for a pump that was told
    that there is nothing else to do, [false] for every other call. *)
Definition history := list bool.

(** The results of external calls, by the calls before them. *)
Class Lwip := {
  lw_ms : history -> Z;
  lw_pump : history -> list net_event;
  lw_dns : history -> Z * Z;
  lw_new : history -> option Z;
  lw_connect : history -> Z;
  lw_close : history -> Z;
  lw_sndbuf : history -> Z;
  lw_sndqueuelen : history -> Z;
  lw_write : history -> Z }.

(** The context, the external calls so far, the bytes given to
    tcp_write, and the bytes taken from lwIP (their number is what tcp_recved
    acknowledges). *)
Record net := mkState { ctx : NetworkContext; calls : history; written : list Z; accepted : list Z }.

Definition setC (f : NetworkContext -> NetworkContext) : M net unit :=
  modify (fun s => mkState (f (ctx s)) (calls s) (written s) (accepted s)).
Definition getC {A} (f : NetworkContext -> A) : M net A := gets (fun s => f (ctx s)).
(** One external call. *)
Definition ext_as {A} (idle : bool) (f : history -> A) : M net A :=
  h ← gets calls; modify (fun s => mkState (ctx s) (idle :: calls s) (written s) (accepted s));; mret (f h).
Definition ext {A} (f : history -> A) : M net A := ext_as false f.

Definition set_pcb v c := mkNet v (nstate c) (dns_done c) (dns_ok c) (addr c) (nerr c) (rx c) (rx_head c) (rx_tail c).
Definition set_nstate v c := mkNet (pcb c) v (dns_done c) (dns_ok c) (addr c) (nerr c) (rx c) (rx_head c) (rx_tail c).
Definition set_dns d o a c := mkNet (pcb c) (nstate c) d o a (nerr c) (rx c) (rx_head c) (rx_tail c).
Definition set_nerr v c := mkNet (pcb c) (nstate c) (dns_done c) (dns_ok c) (addr c) v (rx c) (rx_head c) (rx_tail c).
Definition set_ring b h t c := mkNet (pcb c) (nstate c) (dns_done c) (dns_ok c) (addr c) (nerr c) b h t.

(** ** The ring *)

Definition ring_used (c : NetworkContext) : Z := u32 (rx_head c - rx_tail c).
Definition ring_free (c : NetworkContext) : Z := u32 (RX_RING_SIZE - ring_used c).

(** [for (i = 0; i < q->len; i++) { rx[rx_head % SIZE] = src[i]; rx_head++; }]. *)
Fixpoint ring_put (b : list Z) (head : Z) (src : list Z) : option (list Z * Z) :=
  match src with
  | [] => Some (b, head)
  | x :: src => b ← wrb b (head mod RX_RING_SIZE) x; ring_put b (u32 (head + 1)) src
  end.
(** The loop over the pbuf chain. *)
Fixpoint ring_put_chain (b : list Z) (head : Z) (p : list (list Z)) : option (list Z * Z) :=
  match p with
  | [] => Some (b, head)
  | q :: p => '(b, head) ← ring_put b head q; ring_put_chain b head p
  end.
Definition tot_len (p : list (list Z)) : Z := Z.of_nat (length (concat p)).

(** ** Callbacks *)

Definition on_recv (p : option (list (list Z))) : M net Z :=
  match p with
  | None => setC (fun c => set_nerr (Some "closed by broker") (set_nstate TS_CLOSED c));; mret ERR_OK
  | Some p =>
      free ← getC ring_free;
      if free <? tot_len p then mret ERR_MEM
      else
        c ← getC id;
        bh ← of_opt (ring_put_chain (rx c) (rx_head c) p);
        setC (fun c => set_ring bh.1 bh.2 (rx_tail c) c);;
        modify (fun s => mkState (ctx s) (calls s) (written s) (accepted s ++ concat p));;
        mret ERR_OK
  end.
Definition on_err (err : Z) : M net unit :=
  setC (fun c => set_nerr (Some (if err =? ERR_RST then "reset by peer" else if err =? ERR_ABRT then "aborted"
                                 else "TCP error / timeout")) (set_nstate TS_ERROR (set_pcb None c))).
Definition on_connected (err : Z) : M net Z :=
  setC (set_nstate (if err =? ERR_OK then TS_UP else TS_ERROR));; mret ERR_OK.
Definition on_dns (ip : option Z) : M net unit :=
  setC (fun c => match ip with Some a => set_dns true true a c | None => set_dns true (dns_ok c) (addr c) c end).

(** One callback; those of a connection only while it is registered. *)
Definition callback (e : net_event) : M net unit :=
  up ← getC pcb;
  match e, up with
  | EvRecv p, Some _ => on_recv p;; mret tt
  | EvErr e, Some _ => on_err e
  | EvConnected e, Some _ => on_connected e;; mret tt
  | EvDns ip, _ => on_dns ip
  | _, None => mret tt
  end.
Fixpoint callbacks (es : list net_event) : M net unit :=
  match es with [] => mret tt | e :: es => callback e;; callbacks es end.

(** ** The interface *)

Section transport.
Context {L : Lwip}.

Definition fm_plat_ms : M net Z := ext lw_ms.
Definition fm_plat_pump (idle : bool) : M net unit := es ← ext_as idle lw_pump; callbacks es.

(** The loop of [wait_for]; [fuel] bounds its rounds. *)
Fixpoint wait_loop (fuel : nat) (cond : NetworkContext -> bool) (t0 timeout_ms : Z) : M net bool :=
  match fuel with
  | O => fails
  | S fuel =>
      c ← getC cond;
      if (c : bool) then mret true
      else
        t ← fm_plat_ms;
        if timeout_ms <=? u32 (t - t0) then mret false
        else fm_plat_pump true;; wait_loop fuel cond t0 timeout_ms
  end.
Definition wait_for (fuel : nat) (cond : NetworkContext -> bool) (timeout_ms : Z) : M net bool :=
  t0 ← fm_plat_ms; wait_loop fuel cond t0 timeout_ms.
Definition dns_finished (c : NetworkContext) : bool := dns_done c.
Definition tcp_settled (c : NetworkContext) : bool := bool_decide (nstate c <> TS_CONNECTING).

Definition mqtt_transport_close : M net unit :=
  p ← getC pcb;
  (match p with
   | Some _ => e ← ext lw_close; (if negb (e =? ERR_OK) then ext (fun _ => tt) else mret tt);; setC (set_pcb None)
   | None => mret tt
   end);;
  st ← getC nstate;
  if bool_decide (st <> TS_ERROR) then setC (set_nstate TS_IDLE) else mret tt.

(** A failure before the connection exists, and one after. *)
Definition fail_early (why : string) : M net Z :=
  setC (fun c => set_nstate TS_ERROR (set_nerr (Some why) c));; mret (-1).
Definition fail_late : M net Z := mqtt_transport_close;; setC (set_nstate TS_ERROR);; mret (-1).

Definition tcp_phase (fuel : nat) (timeout_ms : Z) : M net Z :=
  p ← ext lw_new;
  setC (set_pcb p);;
  match p with
  | None => fail_early "out of TCP PCBs"
  | Some _ =>
      setC (set_nstate TS_CONNECTING);;
      e ← ext lw_connect;
      if negb (e =? ERR_OK) then setC (set_nerr (Some "tcp_connect failed"));; fail_late
      else
        settled ← wait_for fuel tcp_settled timeout_ms;
        if negb settled then setC (set_nerr (Some "TCP connect timeout"));; fail_late
        else
          st ← getC nstate;
          if bool_decide (st <> TS_UP) then
            er ← getC nerr;
            (match er with None => setC (set_nerr (Some "connection refused")) | Some _ => mret tt end);;
            fail_late
          else mret 0
  end.

Definition mqtt_transport_open (fuel : nat) (timeout_ms : Z) : M net Z :=
  mqtt_transport_close;;
  setC (fun c => set_nerr None (set_ring (rx c) 0 0 c));;
  setC (fun c => set_nstate TS_RESOLVING (set_dns false false (addr c) c));;
  r ← ext lw_dns;
  (if r.1 =? ERR_OK then setC (set_dns true true r.2) else mret tt);;
  if (r.1 =? ERR_OK) || (r.1 =? ERR_INPROGRESS) then
    done ← (if r.1 =? ERR_OK then mret true else wait_for fuel dns_finished timeout_ms);
    if negb done then fail_early "DNS timeout"
    else
      ok ← getC dns_ok;
      if negb ok then fail_early "DNS: host not found" else tcp_phase fuel timeout_ms
  else fail_early "DNS request failed (no DNS server?)".

Definition mqtt_transport_is_up (c : NetworkContext) : bool :=
  bool_decide (nstate c = TS_UP) && bool_decide (pcb c <> None).
Definition mqtt_transport_error (c : NetworkContext) : string :=
  match nerr c with Some e => e | None => "none" end.

Definition mqtt_transport_send (buf : list Z) (len : Z) : M net Z :=
  up ← getC mqtt_transport_is_up;
  if negb up then mret (-1)
  else
    room ← ext lw_sndbuf;
    full ← (if room =? 0 then mret true else q ← ext lw_sndqueuelen; mret (TCP_SND_QUEUELEN - 1 <=? q));
    if (full : bool) then fm_plat_pump true;; mret 0
    else
      let n := if room <? len then room else u16 len in
      e ← ext lw_write;
      if negb (e =? ERR_OK) then fm_plat_pump true;; mret 0
      else
        modify (fun s => mkState (ctx s) (calls s) (written s ++ take (Z.to_nat n) buf) (accepted s));;
        mret n.

(** [while ((n < len) && (ring_used(c) > 0)) dst[n++] = rx[rx_tail++ % SIZE]], with [len - n] rounds to go. *)
Fixpoint ring_get (c : NetworkContext) (acc : list Z) (rounds : nat) : option (list Z * NetworkContext) :=
  match rounds with
  | O => Some (acc, c)
  | S rounds =>
      if 0 <? ring_used c then
        x ← rdb (rx c) (rx_tail c mod RX_RING_SIZE);
        ring_get (set_ring (rx c) (rx_head c) (u32 (rx_tail c + 1)) c) (acc ++ [x]) rounds
      else Some (acc, c)
  end.
(** The bytes stored in the caller's buffer, and the result. *)
Definition mqtt_transport_recv (len : Z) : M net (list Z * Z) :=
  used ← getC ring_used;
  (if used =? 0 then fm_plat_pump false else mret tt);;
  used ← getC ring_used;
  if used =? 0 then up ← getC mqtt_transport_is_up; mret ([], if (up : bool) then 0 else -1)
  else
    c ← getC id;
    r ← of_opt (ring_get c [] (Z.to_nat len));
    setC (fun _ => r.2);;
    mret (r.1, Z.of_nat (length r.1)).

End transport.
