(* ===== verification/MqttNetProps.v ===== *)
(** * The transport is a reliable byte stream that always settles

    The ring is a first-in first-out queue of at most 4096 bytes whatever the
    32-bit indices are; opening terminates and ends either connected or in the
    error state with the connection released. *)

From S2P Require Import Prelude CInt MqttNet.

(** ** The ring as a list *)

(** The ring buffer [b] with indices [h] and [t] holds the bytes [l]. *)
Record ring_is (b : list Z) (h t : Z) (l : list Z) : Prop := mkRing {
  ri_size : length b = 4096%nat;
  ri_tail : in_u 32 t;
  ri_room : (length l <= 4096)%nat;
  ri_head : h = u32 (t + Z.of_nat (length l));
  ri_elem : forall k x, l !! k = Some x -> b !! Z.to_nat ((t + Z.of_nat k) mod 4096) = Some x }.

Lemma u32_mod x : u32 x mod 4096 = x mod 4096.
Proof.
  unfold wrapu. change (2 ^ 32) with (4096 * 1048576).
  rewrite Z.rem_mul_r by lia. rewrite Z.mul_comm, Z_mod_plus_full. apply Z.mod_mod. lia.
Qed.
Lemma u32_sub_l a b : u32 (u32 a - b) = u32 (a - b).
Proof. unfold wrapu. by rewrite Zminus_mod_idemp_l. Qed.
Lemma u32_add_l a b : u32 (u32 a + b) = u32 (a + b).
Proof. unfold wrapu. by rewrite Zplus_mod_idemp_l. Qed.

Lemma ring_used_is b h t l : ring_is b h t l -> u32 (h - t) = Z.of_nat (length l).
Proof.
  intros [_ _ Hr -> _]. rewrite u32_sub_l. replace (t + Z.of_nat (length l) - t) with (Z.of_nat (length l)) by lia.
  apply u32_ok. lia.
Qed.

(** Two positions less than 4096 apart are different cells. *)
Lemma cells_distinct t i j : 0 <= i < j -> j - i < 4096 -> (t + i) mod 4096 <> (t + j) mod 4096.
Proof.
  intros Hij Hd E. pose proof (Z.div_mod (t + i) 4096 ltac:(lia)). pose proof (Z.div_mod (t + j) 4096 ltac:(lia)).
  rewrite E in *. nia.
Qed.

Lemma ring_put_one b h t l x :
  ring_is b h t l -> (length l < 4096)%nat ->
  exists b', wrb b (h mod 4096) x = Some b' /\ ring_is b' (u32 (h + 1)) t (l ++ [x]).
Proof.
  intros [Hs Ht _ -> He] Hl. pose proof (Z.mod_pos_bound (u32 (t + Z.of_nat (length l))) 4096 ltac:(lia)).
  unfold wrb. rewrite bool_decide_true by (rewrite Hs; lia). eexists. split; [done|]. rewrite u32_mod in *.
  split.
  - by rewrite length_insert.
  - done.
  - rewrite length_app. cbn. lia.
  - rewrite u32_add_l, length_app. f_equal. cbn. lia.
  - intros k y Hk. pose proof (Z.mod_pos_bound (t + Z.of_nat k) 4096 ltac:(lia)).
    apply lookup_snoc_Some in Hk as [ [Hk1 Hk2]|[-> <-] ].
    + rewrite list_lookup_insert_ne; [by apply He|]. intros E.
      apply (cells_distinct t (Z.of_nat k) (Z.of_nat (length l))); lia.
    + rewrite list_lookup_insert_eq; [done|]. rewrite Hs. lia.
Qed.
Lemma ring_put_is src b h t l :
  ring_is b h t l -> (length l + length src <= 4096)%nat ->
  exists b' h', ring_put b h src = Some (b', h') /\ ring_is b' h' t (l ++ src).
Proof.
  revert b h l. induction src as [|x src IH]; intros b h l Hr Hl; cbn [length] in Hl.
  - exists b, h. by rewrite app_nil_r.
  - destruct (ring_put_one b h t l x Hr ltac:(lia)) as (b1 & E1 & H1). cbn [ring_put].
    unfold RX_RING_SIZE. rewrite E1, obind_some. destruct (IH _ _ _ H1) as (b2 & h2 & E2 & H2); [rewrite length_app; cbn; lia|].
    exists b2, h2. by rewrite <- app_assoc in H2.
Qed.
Lemma ring_put_chain_is p b h t l :
  ring_is b h t l -> (length l + length (concat p) <= 4096)%nat ->
  exists b' h', ring_put_chain b h p = Some (b', h') /\ ring_is b' h' t (l ++ concat p).
Proof.
  revert b h l. induction p as [|q p IH]; intros b h l Hr Hl; cbn [concat] in *.
  - exists b, h. by rewrite app_nil_r.
  - rewrite length_app in Hl. destruct (ring_put_is q b h t l Hr ltac:(lia)) as (b1 & h1 & E1 & H1).
    cbn [ring_put_chain]. rewrite E1. cbn. destruct (IH _ _ _ H1) as (b2 & h2 & E2 & H2); [rewrite length_app; lia|].
    exists b2, h2. by rewrite <- app_assoc in H2.
Qed.

Lemma ring_pop b h t x l :
  ring_is b h t (x :: l) ->
  rdb b (t mod 4096) = Some x /\ ring_is b h (u32 (t + 1)) l.
Proof.
  intros [Hs Ht Hr -> He]. cbn [length] in *. pose proof (Z.mod_pos_bound t 4096 ltac:(lia)). split.
  - unfold rdb. destruct (Z.ltb_spec (t mod 4096) 0); [lia|]. specialize (He 0%nat x eq_refl).
    by rewrite Z.add_0_r in He.
  - split.
    + done.
    + apply wrapu_range. lia.
    + lia.
    + rewrite u32_add_l. f_equal. lia.
    + intros k y Hk. specialize (He (S k) y Hk).
      rewrite <- (u32_mod (u32 (t + 1) + Z.of_nat k)), u32_add_l, u32_mod.
      by replace (t + 1 + Z.of_nat k) with (t + Z.of_nat (S k)) by lia.
Qed.

(** The ring of a context. *)
Definition ring_of (c : NetworkContext) (l : list Z) : Prop := ring_is (rx c) (rx_head c) (rx_tail c) l.

Lemma ring_get_is n c l acc :
  ring_of c l ->
  exists t', ring_get c acc n = Some (acc ++ take n l, set_ring (rx c) (rx_head c) t' c) /\
    ring_is (rx c) (rx_head c) t' (drop n l).
Proof.
  revert c l acc. induction n as [|n IH]; intros c l acc Hc; cbn [ring_get].
  - exists (rx_tail c). rewrite app_nil_r. split; [by destruct c|done].
  - unfold ring_used. rewrite (ring_used_is _ _ _ _ Hc). destruct l as [|x l]; cbn [length].
    + exists (rx_tail c). rewrite app_nil_r. split; [by destruct c|done].
    + destruct (ring_pop _ _ _ _ _ Hc) as [Hx Hc']. unfold RX_RING_SIZE. rewrite Hx.
      destruct (Z.ltb_spec 0 (Z.of_nat (S (length l)))); [|lia]. rewrite obind_some.
      destruct (IH (set_ring (rx c) (rx_head c) (u32 (rx_tail c + 1)) c) l (acc ++ [x]) Hc') as (t' & E & H').
      exists t'. rewrite E, <- app_assoc. done.
Qed.

(** ** Callbacks *)

(** A connection that is up has a pcb. *)
Definition up_inv (c : NetworkContext) : Prop := nstate c = TS_UP -> pcb c <> None.

(** [s'] after callbacks: bytes [d] were appended to the ring. *)
Record grew (s : net) (l : list Z) (d : list Z) (s' : net) : Prop := mkGrew {
  gr_ring : ring_of (ctx s') (l ++ d);
  gr_acc : accepted s' = accepted s ++ d;
  gr_written : written s' = written s;
  gr_up : up_inv (ctx s) -> up_inv (ctx s');
  gr_none : pcb (ctx s) = None -> pcb (ctx s') = None }.

Lemma grew_refl s l : ring_of (ctx s) l -> grew s l [] s.
Proof. intros. split; by rewrite ?app_nil_r. Qed.
Lemma grew_trans s l d s1 d1 s2 : grew s l d s1 -> grew s1 (l ++ d) d1 s2 -> grew s l (d ++ d1) s2.
Proof.
  intros [? Ha ? ? ?] [? Ha1 Hw1 ? ?]. split; rewrite ?app_assoc; [done|by rewrite Ha1, Ha|congruence|auto|auto].
Qed.

(** What [on_recv] does with a segment. *)
Lemma on_recv_takes p s l :
  ring_of (ctx s) l ->
  if (length l + length (concat p) <=? 4096)%nat
  then exists s', on_recv (Some p) s = Some (ERR_OK, s') /\ grew s l (concat p) s' /\ calls s' = calls s
  else on_recv (Some p) s = Some (ERR_MEM, s).
Proof.
  intros Hr. unfold on_recv, getC. rewrite gets_run. unfold ring_free, ring_used, RX_RING_SIZE, tot_len.
  rewrite (ring_used_is _ _ _ _ Hr). pose proof (ri_room _ _ _ _ Hr). rewrite u32_ok by lia.
  destruct (Nat.leb_spec (length l + length (concat p)) 4096) as [Hfit|Hfull].
  - destruct (Z.ltb_spec (4096 - Z.of_nat (length l)) (Z.of_nat (length (concat p)))); [lia|]. rewrite gets_run.
    destruct (ring_put_chain_is p _ _ _ _ Hr Hfit) as (b & h & E & H'). cbn [id]. rewrite (opt_run _ _ _ _ E).
    eexists. split; [reflexivity|]. split; [|done]. by split.
  - destruct (Z.ltb_spec (4096 - Z.of_nat (length l)) (Z.of_nat (length (concat p)))); [done|lia].
Qed.

Lemma callback_grows e s l :
  ring_of (ctx s) l -> exists s' d, callback e s = Some (tt, s') /\ grew s l d s' /\ calls s' = calls s.
Proof.
  intros Hr. unfold callback, getC. rewrite gets_run. destruct e as [p|err|err|ip].
  - destruct (pcb (ctx s)) as [h|] eqn:Ep; [|by exists s, []; split_and!; [|apply grew_refl|]].
    destruct p as [p|].
    + pose proof (on_recv_takes p s l Hr) as Hp. destruct (_ <=? _)%nat.
      * destruct Hp as (s' & E & Hg & Hc). exists s', (concat p). by erewrite bind_eq by exact E.
      * exists s, []. erewrite bind_eq by exact Hp. by split_and!; [|apply grew_refl|].
    + eexists _, []. split; [reflexivity|]. split; [|done]. split; rewrite ?app_nil_r; done.
  - destruct (pcb (ctx s)) as [h|] eqn:Ep; [|by exists s, []; split_and!; [|apply grew_refl|]].
    eexists _, []. split; [reflexivity|]. split; [|done]. split; rewrite ?app_nil_r; done.
  - destruct (pcb (ctx s)) as [h|] eqn:Ep; [|by exists s, []; split_and!; [|apply grew_refl|]].
    eexists _, []. split; [reflexivity|]. split; [|done]. split; rewrite ?app_nil_r; try done.
    intros _ _. cbn. by rewrite Ep.
  - eexists _, []. split; [by destruct (pcb (ctx s))|]. split; [|done].
    split; rewrite ?app_nil_r; destruct ip; done.
Qed.
Lemma callbacks_grow es s l :
  ring_of (ctx s) l -> exists s' d, callbacks es s = Some (tt, s') /\ grew s l d s' /\ calls s' = calls s.
Proof.
  revert s l. induction es as [|e es IH]; intros s l Hr.
  - exists s, []. by split_and!; [|apply grew_refl|].
  - destruct (callback_grows e s l Hr) as (s1 & d1 & E1 & G1 & C1).
    destruct (IH s1 (l ++ d1) (gr_ring _ _ _ _ G1)) as (s2 & d2 & E2 & G2 & C2).
    exists s2, (d1 ++ d2). cbn [callbacks]. erewrite bind_eq by exact E1. split; [done|].
    split; [by eapply grew_trans|congruence].
Qed.

Section transport.
Context {L : Lwip}.

Lemma pump_grows idle s l :
  ring_of (ctx s) l -> exists s' d, fm_plat_pump idle s = Some (tt, s') /\ grew s l d s' /\ calls s' = idle :: calls s.
Proof.
  intros Hr. destruct (callbacks_grow (lw_pump (calls s)) (mkState (ctx s) (idle :: calls s) (written s) (accepted s)) l Hr)
    as (s' & d & E & [] & C). exists s', d. split; [exact E|]. by split.
Qed.

(** ** The stream *)

Lemma recv_takes s l len :
  ring_of (ctx s) l ->
  exists s' l' bs r, mqtt_transport_recv len s = Some ((bs, r), s') /\ ring_of (ctx s') l' /\
    written s' = written s /\ exists d, accepted s' = accepted s ++ d /\ l ++ d = bs ++ l' /\
    (length bs <= Z.to_nat len)%nat /\ (bs <> [] -> r = Z.of_nat (length bs)).
Proof.
  intros Hr. unfold mqtt_transport_recv, getC. rewrite gets_run.
  assert (exists s1 d, (if ring_used (ctx s) =? 0 then fm_plat_pump false else mret tt) s = Some (tt, s1) /\ grew s l d s1)
    as (s1 & d & E1 & [Hr1 Ha Hw _ _]).
  { destruct (_ =? 0); [|exists s, []; split; [done|by apply grew_refl] ].
    destruct (pump_grows false s l Hr) as (s1 & d & E & G & _). by exists s1, d. }
  erewrite bind_eq by exact E1. rewrite gets_run. destruct (ring_used (ctx s1) =? 0).
  - rewrite gets_run. eexists s1, _, [], _. split; [reflexivity|]. split; [exact Hr1|]. split; [done|].
    exists d. split_and!; [done|done|cbn; lia|done].
  - rewrite gets_run. destruct (ring_get_is (Z.to_nat len) (ctx s1) _ [] Hr1) as (t' & E & H'). cbn [id app] in *.
    rewrite (opt_run _ _ _ _ E). eexists _, _, _, _. split; [reflexivity|]. split; [exact H'|]. split; [done|].
    exists d. split_and!; [done|cbn [fst]; by rewrite take_drop|cbn [fst]; rewrite length_take; lia|done].
Qed.

(** Uses of an open connection. *)
Inductive net_op := Recv (len : Z) | Send (buf : list Z) (len : Z) | Pump (idle : bool).
(** A sequence of uses, with the bytes handed to the application. *)
Fixpoint run_ops (ops : list net_op) : M net (list Z) :=
  match ops with
  | [] => mret []
  | Recv len :: ops => r ← mqtt_transport_recv len; bs ← run_ops ops; mret (r.1 ++ bs)
  | Send buf len :: ops => mqtt_transport_send buf len;; run_ops ops
  | Pump idle :: ops => fm_plat_pump idle;; run_ops ops
  end.

Lemma send_grows buf len s l :
  ring_of (ctx s) l -> exists r s' d, mqtt_transport_send buf len s = Some (r, s') /\
    ring_of (ctx s') (l ++ d) /\ accepted s' = accepted s ++ d.
Proof.
  intros Hr. unfold mqtt_transport_send, getC. rewrite gets_run.
  destruct (mqtt_transport_is_up (ctx s)); cbn [negb]; [|eexists _, s, []; split; [done|]; by rewrite !app_nil_r].
  assert (forall s1 (k : Z), ctx s1 = ctx s -> accepted s1 = accepted s -> exists r s' d,
    (fm_plat_pump true;; mret k) s1 = Some (r, s') /\ ring_of (ctx s') (l ++ d) /\ accepted s' = accepted s ++ d) as Hpump.
  { intros s1 k Hc Ha. rewrite <- Hc in Hr. destruct (pump_grows true s1 l Hr) as (s' & d & E & [] & _).
    exists k, s', d. erewrite bind_eq by exact E. by rewrite <- Ha. }
  erewrite bind_eq by reflexivity. cbn zeta. destruct (lw_sndbuf (calls s) =? 0).
  - erewrite bind_eq by reflexivity. by apply Hpump.
  - erewrite bind_eq by reflexivity. cbn beta. destruct (_ <=? _); [by apply Hpump|].
    erewrite bind_eq by reflexivity. destruct (_ =? ERR_OK); cbn [negb]; [|by apply Hpump].
    eexists _, _, []. split; [reflexivity|]. by rewrite !app_nil_r.
Qed.

(** C27: The transport is a first-in first-out byte stream: over any sequence of
    receives, sends and pumps of an open connection, with any segments arriving
    in between, the bytes handed to MQTT followed by the bytes still in the
    ring are exactly the bytes already in it followed by the segments accepted
    from lwIP, in order: nothing is lost, duplicated or reordered, at most 4096
    bytes are held, also when the 32-bit indices wrap. *)
Theorem transport_is_fifo (ops : list net_op) (s : net) (l : list Z) :
  ring_of (ctx s) l ->
  exists bs s' d l', run_ops ops s = Some (bs, s') /\ accepted s' = accepted s ++ d /\
    ring_of (ctx s') l' /\ l ++ d = bs ++ l' /\ (length l' <= 4096)%nat /\
    ring_used (ctx s') = Z.of_nat (length l').
Proof.
  revert s l. induction ops as [|[len|buf len|idle] ops IH]; intros s l Hr; cbn [run_ops].
  - exists [], s, [], l. rewrite !app_nil_r. split_and!; [done|done|done|done|apply Hr|by eapply ring_used_is].
  - destruct (recv_takes s l len Hr) as (s1 & l1 & b1 & r & E1 & H1 & _ & d1 & A1 & Q1 & _).
    destruct (IH s1 l1 H1) as (b2 & s2 & d2 & l2 & E2 & A2 & H2 & Q2 & R2).
    exists (b1 ++ b2), s2, (d1 ++ d2), l2. erewrite bind_eq by exact E1. erewrite bind_eq by exact E2.
    split; [done|]. split; [by rewrite A2, A1, app_assoc|]. split; [done|]. split; [|done].
    by rewrite app_assoc, Q1, <- !app_assoc, Q2.
  - destruct (send_grows buf len s l Hr) as (r & s1 & d1 & E1 & H1 & A1).
    destruct (IH s1 _ H1) as (b2 & s2 & d2 & l2 & E2 & A2 & H2 & Q2 & R2).
    exists b2, s2, (d1 ++ d2), l2. erewrite bind_eq by exact E1.
    split; [done|]. split; [by rewrite A2, A1, app_assoc|]. split; [done|]. split; [|done]. by rewrite app_assoc.
  - destruct (pump_grows idle s l Hr) as (s1 & d1 & E1 & [H1 A1 _ _ _] & _).
    destruct (IH s1 _ H1) as (b2 & s2 & d2 & l2 & E2 & A2 & H2 & Q2 & R2).
    exists b2, s2, (d1 ++ d2), l2. erewrite bind_eq by exact E1.
    split; [done|]. split; [by rewrite A2, A1, app_assoc|]. split; [done|]. split; [|done]. by rewrite app_assoc.
Qed.
End transport.

(** ** Opening a connection *)

(** The platform's clock: readings of a true time [T] in milliseconds, which
    never runs back and advances by less than 2^30 over an external call, and
    by at least one over a pump that is told to give the CPU away, which is
    what mqtt_platform.h promises of fm_plat_pump(true).  Over any other call
    it may stand still. *)
Record ticking `{L : Lwip} (T : history -> Z) : Prop := mkTicking {
  tk_read : forall h, lw_ms h = u32 (T h);
  tk_mono : forall b h, T h <= T (b :: h) < T h + 1073741824;
  tk_pump : forall h, T h + 1 <= T (true :: h) }.

Section opening.
Context {L : Lwip} (T : history -> Z) (HT : ticking T).

Lemma wait_loop_ends fuel cond n0 timeout s l :
  ring_of (ctx s) l -> 0 <= timeout < 2147483648 ->
  0 <= T (calls s) - T n0 < timeout + 2147483648 -> Z.max 0 (timeout - (T (calls s) - T n0)) < Z.of_nat fuel ->
  exists b s' d, wait_loop fuel cond (lw_ms n0) timeout s = Some (b, s') /\ grew s l d s' /\
    (b = true -> cond (ctx s') = true).
Proof.
  revert s l. induction fuel as [|fuel IH]; intros s l Hr Ht He Hf; [lia|].
  cbn [wait_loop]. unfold getC. rewrite gets_run. destruct (cond (ctx s)) eqn:Ec.
  { exists true, s, []. by split_and!; [|apply grew_refl|]. }
  unfold fm_plat_ms. set (n := calls s) in *. set (s1 := mkState (ctx s) (false :: n) (written s) (accepted s)).
  erewrite (bind_eq (ext lw_ms) _ s (lw_ms n) s1) by reflexivity.
  assert (u32 (lw_ms n - lw_ms n0) = T n - T n0) as Hel.
  { rewrite !(tk_read T HT), u32_sub_l. unfold wrapu. rewrite Zminus_mod_idemp_r. apply Z.mod_small.
    change (2 ^ 32) with 4294967296. lia. }
  rewrite Hel. destruct (Z.leb_spec timeout (T n - T n0)).
  { exists false, s1, []. split; [done|]. split; [|done]. split; rewrite ?app_nil_r; done. }
  destruct (pump_grows true s1 l Hr) as (s2 & d & E2 & G2 & C2). erewrite bind_eq by exact E2.
  pose proof (tk_mono T HT false n). pose proof (tk_mono T HT true (false :: n)). pose proof (tk_pump T HT (false :: n)).
  replace (calls s1) with (false :: n) in C2 by done.
  destruct (IH s2 (l ++ d) (gr_ring _ _ _ _ G2) Ht) as (b & s3 & d3 & E3 & G3 & H3); [rewrite C2; lia|rewrite C2; lia|].
  exists b, s3, (d ++ d3). split; [done|]. split; [|done]. eapply grew_trans; [|exact G3]. by destruct G2; split.
Qed.

Lemma wait_for_ends fuel cond timeout s l :
  ring_of (ctx s) l -> 0 <= timeout < 2147483648 -> timeout < Z.of_nat fuel ->
  exists b s' d, wait_for fuel cond timeout s = Some (b, s') /\ grew s l d s' /\ (b = true -> cond (ctx s') = true).
Proof.
  intros Hr Ht Hf. unfold wait_for, fm_plat_ms. set (n := calls s).
  set (s1 := mkState (ctx s) (false :: n) (written s) (accepted s)).
  erewrite (bind_eq (ext lw_ms) _ s (lw_ms n) s1) by reflexivity. pose proof (tk_mono T HT false n).
  destruct (wait_loop_ends fuel cond n timeout s1 l Hr Ht) as (b & s2 & d & E & G & Hb); [cbn [calls s1]; lia..|].
  exists b, s2, d. split; [done|]. split; [|done]. by destruct G; split.
Qed.

(** How an attempt to open ends. *)
Definition settled (r : Z) (c : NetworkContext) : Prop :=
  r = 0 /\ mqtt_transport_is_up c = true \/
  r = -1 /\ nstate c = TS_ERROR /\ pcb c = None /\ nerr c <> None.

Lemma close_releases s :
  exists s', mqtt_transport_close s = Some (tt, s') /\ pcb (ctx s') = None /\ rx (ctx s') = rx (ctx s) /\
    nerr (ctx s') = nerr (ctx s).
Proof.
  unfold mqtt_transport_close, getC, setC, ext, ext_as, mbind, M_bind, gets, modify, mret, M_ret.
  destruct (pcb (ctx s)) as [h|] eqn:Ep; [destruct (negb (lw_close (calls s) =? ERR_OK))|];
    cbn [ctx calls nstate set_pcb written accepted]; case_bool_decide; eexists; (split; [reflexivity|done]).
Qed.

Lemma fail_late_settles s : nerr (ctx s) <> None -> exists r s', fail_late s = Some (r, s') /\ settled r (ctx s').
Proof.
  intros He. destruct (close_releases s) as (s1 & E & Hp & _ & Hn). unfold fail_late.
  erewrite bind_eq by exact E. eexists _, _. split; [reflexivity|]. right. cbn. by rewrite Hn.
Qed.

Lemma tcp_phase_settles fuel timeout s l :
  ring_of (ctx s) l -> pcb (ctx s) = None -> 0 <= timeout < 2147483648 -> timeout < Z.of_nat fuel ->
  exists r s', tcp_phase fuel timeout s = Some (r, s') /\ settled r (ctx s').
Proof.
  intros Hr Hp Ht Hf. unfold tcp_phase. set (n := calls s).
  set (s1 := mkState (ctx s) (false :: n) (written s) (accepted s)).
  erewrite (bind_eq (ext lw_new) _ s (lw_new n) s1) by reflexivity. erewrite bind_eq by reflexivity.
  destruct (lw_new n) as [h|].
  2:{ eexists _, _. split; [reflexivity|]. by right. }
  erewrite bind_eq by reflexivity. erewrite bind_eq by reflexivity. destruct (negb _).
  { erewrite bind_eq by reflexivity. by apply fail_late_settles. }
  match goal with |- exists r s', (_ ≫= _) ?s2 = _ /\ _ => 
    destruct (wait_for_ends fuel tcp_settled timeout s2 l) as (b & s3 & d & E & G & Hb); [exact Hr|done|done|] end.
  erewrite bind_eq by exact E. destruct b; cbn [negb].
  - unfold getC. rewrite gets_run. case_bool_decide as Hup.
    + rewrite gets_run. destruct (nerr (ctx s3)) eqn:En; (erewrite bind_eq by reflexivity); apply fail_late_settles; [by rewrite En|done].
    + eexists _, _. split; [reflexivity|]. left. split; [done|]. unfold mqtt_transport_is_up.
      assert (nstate (ctx s3) = TS_UP) as Hst by (destruct (nstate (ctx s3)); try done; by exfalso; apply Hup).
      rewrite !bool_decide_true; [done| |done]. apply (gr_up _ _ _ _ G); done.
  - erewrite bind_eq by reflexivity. by apply fail_late_settles.
Qed.

(** C28: Opening always settles: for every timeout below 2^31 ms and whatever
    DNS and TCP do (success, refusal, errors, silence), on a clock that never
    runs back, moves on by at least 1 ms over a pump that gives the CPU away
    (fm_plat_pump(true)) and by less than 2^30 ms over any one call, the call
    returns after at most timeout + 1 rounds of each waiting loop, either 0 with the
    connection up, or -1 with the transport in its error state, the connection
    released and an error text recorded. *)
Theorem transport_open_settles (timeout : Z) (fuel : nat) (s : net) :
  length (rx (ctx s)) = 4096%nat -> 0 <= timeout < 2 ^ 31 -> timeout < Z.of_nat fuel ->
  exists r s', mqtt_transport_open fuel timeout s = Some (r, s') /\ settled r (ctx s').
Proof.
  intros Hrx Ht Hf. change (2 ^ 31) with 2147483648 in Ht.
  destruct (close_releases s) as (s1 & E1 & Hp & Hr & _). unfold mqtt_transport_open.
  erewrite bind_eq by exact E1. erewrite bind_eq by reflexivity. erewrite bind_eq by reflexivity.
  erewrite bind_eq by reflexivity. cbn [calls]. set (res := lw_dns (calls s1)).
  assert (forall c, rx c = rx (ctx s1) -> rx_head c = 0 -> rx_tail c = 0 -> ring_of c []) as Hring.
  { intros c H1 H2 H3. unfold ring_of. rewrite H1, H2, H3, Hr. split; [done|done|cbn; lia|done|done]. }
  destruct (Z.eqb_spec res.1 ERR_OK) as [E|E]; cbn [orb].
  - erewrite bind_eq by reflexivity. erewrite bind_eq by reflexivity. cbn [negb]. erewrite bind_eq by reflexivity.
    cbn [negb]. eapply tcp_phase_settles; [by apply Hring|done|done|done].
  - erewrite bind_eq by reflexivity. destruct (res.1 =? ERR_INPROGRESS).
    2:{ eexists _, _. split; [reflexivity|]. by right. }
    match goal with |- exists r s', (_ ≫= _) ?s2 = _ /\ _ => 
      destruct (wait_for_ends fuel dns_finished timeout s2 []) as (b & s3 & d & E3 & G & _); [by apply Hring|done|done|] end.
    erewrite bind_eq by exact E3. pose proof (gr_none _ _ _ _ G Hp) as Hp3. destruct b; cbn [negb].
    + unfold getC. rewrite gets_run. destruct (dns_ok (ctx s3)); cbn [negb].
      * eapply tcp_phase_settles; [exact (gr_ring _ _ _ _ G)|done|done|done].
      * eexists _, _. split; [reflexivity|]. by right.
    + eexists _, _. split; [reflexivity|]. by right.
Qed.
End opening.

(** ** A network in which everything works: every pump connects and delivers three bytes *)

(** A clock that moves over idle pumps only, by 1 ms each. *)
Definition idle_ms (h : history) : Z := Z.of_nat (length (List.filter id h)).

Definition demo_lwip : Lwip := {|
  lw_ms h := u32 (idle_ms h);
  lw_pump _ := [EvConnected ERR_OK; EvRecv (Some [ [1; 2]; [3] ])];
  lw_dns _ := (ERR_OK, 42); lw_new _ := Some 7; lw_connect _ := ERR_OK; lw_close _ := ERR_OK;
  lw_sndbuf _ := 1000; lw_sndqueuelen _ := 0; lw_write _ := ERR_OK |}.
Lemma demo_ticking : @ticking demo_lwip idle_ms.
Proof. by split; [|intros [] h|intros h]; unfold idle_ms; cbn; try lia. Qed.

(** A connection whose indices are about to wrap. *)
Definition demo_net (st : TransportState) : net :=
  mkState (mkNet (Some 7) st false false 0 None (replicate 4096 0) 4294967294 4294967294) [] [] [].
Lemma demo_ring st : ring_of (ctx (demo_net st)) [].
Proof. split; by cbn; try lia. Qed.

Lemma transport_open_settles_witness :
  exists r s', @mqtt_transport_open demo_lwip 11 10 (demo_net TS_IDLE) = Some (r, s') /\ settled r (ctx s') /\ r = 0.
Proof.
  destruct (@transport_open_settles demo_lwip idle_ms demo_ticking 10 11 (demo_net TS_IDLE)) as (r & s' & E & H);
    [done|done|done|].
  exists r, s'. split; [exact E|]. split; [exact H|]. vm_compute in E. by injection E as <- _.
Defined.
Lemma transport_is_fifo_witness :
  exists bs s' d l', @run_ops demo_lwip [Pump true; Recv 2; Pump false; Recv 9] (demo_net TS_UP) = Some (bs, s') /\
    accepted s' = [] ++ d /\ [] ++ d = bs ++ l' /\ bs = [1; 2; 3; 1; 2; 3].
Proof.
  destruct (@transport_is_fifo demo_lwip [Pump true; Recv 2; Pump false; Recv 9] (demo_net TS_UP) [] (demo_ring _))
    as (bs & s' & d & l' & E & A & _ & Q & _).
  exists bs, s', d, l'. split; [exact E|]. split; [exact A|]. split; [exact Q|]. vm_compute in E. by injection E as <- _.
Defined.
