(* ===== verification/Mqtt.v ===== *)
(** * The MQTT device application (src/port/mqtt/flint_mqtt.c)

    The application's static state [g], its topics, publications, commands,
    reconnection and service loop.  coreMQTT, the transport and the platform
    are the interface [MqttEnv], which says what each call may return or change
    and nothing more.  MQTT_ProcessLoop delivers the packets it received to [on_event]
    before its status is looked at. *)

From S2P Require Import Prelude CInt Decimal CStr Jsonw.

Definition TOPIC_MAX : Z := 64.
Definition ID_MAX : Z := 32.
Definition HOST_MAX : Z := 64.
Definition CONNECT_TIMEOUT_MS : Z := 8000.
Definition KEEPALIVE_S : Z := 30.
Definition PTP_PERIOD_MS : Z := 1000.
Definition STATS_PERIOD_MS : Z := 10000.
Definition BACKOFF_MIN_MS : Z := 2000.
Definition BACKOFF_MAX_MS : Z := 60000.
Definition REPLY_MAX : Z := 1024.
Definition MQTTSuccess : Z := 0.
Definition MQTTNeedMoreBytes : Z := 11.
Definition MQTT_PACKET_TYPE_PUBLISH : Z := 48.
Definition MQTT_PACKET_TYPE_SUBACK : Z := 144.

(** What a publication and a connection hand to coreMQTT: pointers and lengths. *)
Record MQTTPublishInfo := mkPub {
  pTopicName : list Z; topicNameLength : Z; pPayload : list Z; payloadLength : Z; retain : bool }.
Record MQTTConnectInfo := mkCi {
  cleanSession : bool; pClientIdentifier : list Z; clientIdentifierLength : Z; keepAliveSeconds : Z }.

(** A packet delivered to the event callback. *)
Record mqtt_event := mkEv { ev_type : Z; ev_publish : option MQTTPublishInfo }.

(** The transport, platform and coreMQTT services, on an environment state. *)
Class MqttEnv (T : Type) := {
  env_ms : M T Z;
  env_log : list Z -> M T unit;
  env_ip : M T (list Z);
  env_led : Z -> M T Z;
  env_ptp_json : list Z -> Z -> M T (Z * list Z);
  env_stats_json : list Z -> Z -> M T (Z * list Z);
  env_open : list Z -> Z -> Z -> M T Z;
  env_close : M T unit;
  env_is_up : T -> bool;
  env_error : T -> list Z;
  MQTT_Init : M T Z;
  MQTT_Connect : MQTTConnectInfo -> MQTTPublishInfo -> Z -> M T Z;
  MQTT_Subscribe : list Z -> Z -> M T Z;
  MQTT_ProcessLoop : M T (Z * list mqtt_event);
  MQTT_Publish : MQTTPublishInfo -> M T Z;
  MQTT_Status_strerror : Z -> list Z }.

Record FlintMqttStats := mkMStats { connects : Z; connect_failures : Z; published : Z; commands : Z }.
Record Identity := mkIdent { mid : list Z; mhost : list Z; mport : Z; inited : bool; boot_ms : Z }.
Record Conn := mkConn { connected : bool; next_attempt_ms : Z; backoff_ms : Z }.
Record Sched := mkSched { last_ptp_ms : Z; last_stats_ms : Z }.
Record Topics := mkTopics {
  topic_buf : list Z; t_status : list Z; t_ptp : list Z; t_stats : list Z; t_cmd : list Z; t_reply : list Z }.
Record Reply := mkReply { reply_pending : bool; reply : list Z; scratch : list Z }.
Record FlintMqtt := mkMqtt {
  ident : Identity; conn : Conn; sched : Sched; topics : Topics; rep : Reply; mst : FlintMqttStats }.

Definition set_ident v g := mkMqtt v (conn g) (sched g) (topics g) (rep g) (mst g).
Definition set_conn v g := mkMqtt (ident g) v (sched g) (topics g) (rep g) (mst g).
Definition set_sched v g := mkMqtt (ident g) (conn g) v (topics g) (rep g) (mst g).
Definition set_topics v g := mkMqtt (ident g) (conn g) (sched g) v (rep g) (mst g).
Definition set_rep v g := mkMqtt (ident g) (conn g) (sched g) (topics g) v (mst g).
Definition set_mst v g := mkMqtt (ident g) (conn g) (sched g) (topics g) (rep g) v.

Section mqtt.
Context {T : Type} `{ENV : MqttEnv T}.

Record mq := mkMq { mg : FlintMqtt; env : T }.
Definition onE {A} (c : M T A) : M mq A := zoom env (fun t s => mkMq (mg s) t) c.
Definition getM {A} (f : FlintMqtt -> A) : M mq A := gets (fun s => f (mg s)).
Definition setM (f : FlintMqtt -> FlintMqtt) : M mq unit := modify (fun s => mkMq (f (mg s)) (env s)).
Definition count (f : FlintMqttStats -> FlintMqttStats) : M mq unit := setM (fun g => set_mst (f (mst g)) g).
Definition set_scratch (b : list Z) : M mq unit :=
  setM (fun g => set_rep (mkReply (reply_pending (rep g)) (reply (rep g)) b) g).
Definition set_reply (b : list Z) : M mq unit :=
  setM (fun g => set_rep (mkReply (reply_pending (rep g)) b (scratch (rep g))) g).

Definition logf2 (a : list Z) (b : option (list Z)) : M mq unit :=
  line ← of_opt (fm_strlcpy (replicate 160 0) 0 (lit "[mqtt] ") 160);
  line ← of_opt (fm_strlcat line a 160);
  line ← of_opt (match b with Some b => fm_strlcat line b 160 | None => Some line end);
  onE (env_log line).

(** [make_topic(dst, leaf)]. *)
Definition make_topic (id dst leaf : list Z) : option (list Z) :=
  dst ← fm_strlcpy dst 0 (lit "flint/") TOPIC_MAX;
  dst ← fm_strlcat dst id TOPIC_MAX;
  dst ← fm_strlcat dst (lit "/") TOPIC_MAX;
  fm_strlcat dst leaf TOPIC_MAX.

Definition flint_mqtt_topic (leaf : list Z) : M mq (list Z) :=
  g ← getM id;
  t ← of_opt (make_topic (mid (ident g)) (topic_buf (topics g)) leaf);
  setM (fun g => let x := topics g in set_topics (mkTopics t (t_status x) (t_ptp x) (t_stats x) (t_cmd x) (t_reply x)) g);;
  mret t.
Definition flint_mqtt_stats (g : FlintMqtt) : FlintMqttStats := mst g.
Definition flint_mqtt_connected (g : FlintMqtt) : bool := connected (conn g).
Definition now_ms : M mq Z := onE env_ms.

(** ** Publishing *)

Definition publish (topic payload : list Z) (len : Z) (ret : bool) : M mq bool :=
  up ← getM flint_mqtt_connected;
  if negb up then mret false
  else
    n ← of_opt (fm_strlen topic);
    rc ← onE (MQTT_Publish (mkPub topic (u16 n) payload len ret));
    if rc =? MQTTSuccess then
      count (fun s => mkMStats (connects s) (connect_failures s) (u32 (published s + 1)) (commands s));; mret true
    else logf2 (lit "publish failed: ") (Some (MQTT_Status_strerror rc));; mret false.

Definition build_status (state : list Z) : M mq JsonW :=
  g ← getM id;
  w ← of_opt (jw_init (scratch (rep g)) REPLY_MAX);
  w ← of_opt (jw_obj_open w);
  w ← of_opt (jw_str w (Some (lit "state")) state);
  w ← of_opt (jw_str w (Some (lit "id")) (mid (ident g)));
  ip ← onE env_ip;
  w ← of_opt (jw_str w (Some (lit "ip")) ip);
  w ← of_opt (jw_str w (Some (lit "fw")) (lit "FlintRTOS / lwIP 2.2.0 / coreMQTT 2.3.1"));
  t ← now_ms;
  w ← of_opt (jw_u32 w (Some (lit "uptime_s")) (u32 (t - boot_ms (ident g)) / 1000));
  w ← of_opt (jw_obj_close w);
  set_scratch (jbuf w);;
  mret w.
Definition publish_status_online : M mq unit :=
  w ← build_status (lit "online");
  g ← getM id;
  publish (t_status (topics g)) (scratch (rep g)) (jw_len w) true;; mret tt.
Definition publish_ptp : M mq unit :=
  g ← getM id;
  nb ← onE (env_ptp_json (scratch (rep g)) REPLY_MAX);
  set_scratch nb.2;;
  if 0 <? nb.1 then publish (t_ptp (topics g)) nb.2 nb.1 false;; mret tt else mret tt.
Definition publish_stats : M mq unit :=
  g ← getM id;
  nb ← onE (env_stats_json (scratch (rep g)) REPLY_MAX);
  set_scratch nb.2;;
  if 0 <? nb.1 then publish (t_stats (topics g)) nb.2 nb.1 false;; mret tt else mret tt.

(** ** Commands *)

(** The comparison loop of [word_eq], from index [i] with [n] to go. *)
Fixpoint word_loop (a : list Z) (oa : Z) (b : list Z) (i : Z) (n : nat) : option bool :=
  match n with
  | O => Some true
  | S n => x ← rdb a (oa + i); y ← rdb b i; if negb (x =? y) then Some false else word_loop a oa b (i + 1) n
  end.
(** [word_eq(&a[oa], alen, b)]. *)
Definition word_eq (a : list Z) (oa alen : Z) (b : list Z) : option bool :=
  n ← fm_strlen b;
  if negb (alen =? n) then Some false else word_loop a oa b 0 (Z.to_nat n).

Definition set_reply_simple (cmd k v : list Z) : M mq unit :=
  g ← getM id;
  w ← of_opt (jw_init (reply (rep g)) REPLY_MAX);
  w ← of_opt (jw_obj_open w);
  w ← of_opt (jw_str w (Some (lit "cmd")) cmd);
  w ← of_opt (jw_str w (Some k) v);
  w ← of_opt (jw_obj_close w);
  set_reply (jbuf w).

Definition is_blank (c : Z) : bool := (c =? 32) || (c =? 10) || (c =? 13) || (c =? 9).
(** [while ((s < e) && blank(p[s])) s++], with [n = e - s]. *)
Fixpoint trim_front (p : list Z) (s : Z) (n : nat) : option Z :=
  match n with
  | O => Some s
  | S n => c ← rdb p s; if is_blank c then trim_front p (s + 1) n else Some s
  end.
(** [while ((e > s) && blank(p[e - 1])) e--], with [n = e - s]. *)
Fixpoint trim_back (p : list Z) (e : Z) (n : nat) : option Z :=
  match n with
  | O => Some e
  | S n => c ← rdb p (e - 1); if is_blank c then trim_back p (e - 1) n else Some e
  end.
(** [for (i = 0; i < n; i++) cmd[i] = p[s + i]]. *)
Fixpoint copy_cmd (cmd p : list Z) (s i : Z) (n : nat) : option (list Z) :=
  match n with
  | O => Some cmd
  | S n => c ← rdb p (s + i); cmd ← wrb cmd i c; copy_cmd cmd p s (i + 1) n
  end.
(** [for (sp = 0; (sp < len) && (cmd[sp] != ' '); sp++) {}], with [n = len - sp]. *)
Fixpoint find_space (cmd : list Z) (sp : Z) (n : nat) : option Z :=
  match n with
  | O => Some sp
  | S n => c ← rdb cmd sp; if negb (c =? 32) then find_space cmd (sp + 1) n else Some sp
  end.

(** The first part of [handle_command]: the trimmed command in [char cmd[48]], its length, its first word's. *)
Definition parse_command (p : list Z) (len : Z) : option (list Z * Z * Z) :=
  s ← trim_front p 0 (Z.to_nat len);
  e ← trim_back p len (Z.to_nat (len - s));
  let n := if e - s <? 47 then e - s else 47 in
  cmd ← copy_cmd (replicate 48 0) p s 0 (Z.to_nat n);
  cmd ← wrb cmd n 0;
  sp ← find_space cmd 0 (Z.to_nat n);
  Some (cmd, n, sp).

(** The branches of [handle_command]. *)
Definition cmd_uptime (cmd : list Z) : M mq unit :=
  g ← getM id;
  w ← of_opt (jw_init (reply (rep g)) REPLY_MAX);
  w ← of_opt (jw_obj_open w);
  w ← of_opt (jw_str w (Some (lit "cmd")) cmd);
  t ← now_ms;
  w ← of_opt (jw_u32 w (Some (lit "uptime_s")) (u32 (t - boot_ms (ident g)) / 1000));
  w ← of_opt (jw_obj_close w);
  set_reply (jbuf w).
Definition cmd_json (json : list Z -> Z -> M T (Z * list Z)) (cmd why : list Z) : M mq unit :=
  g ← getM id;
  nb ← onE (json (reply (rep g)) REPLY_MAX);
  set_reply nb.2;;
  if nb.1 =? 0 then set_reply_simple cmd (lit "error") why else mret tt.
Definition cmd_led (cmd : list Z) (len sp : Z) : M mq unit :=
  let al := len - sp - 1 in
  on ← of_opt (word_eq cmd (sp + 1) al (lit "on"));
  off ← (if (on : bool) then mret false else of_opt (word_eq cmd (sp + 1) al (lit "off")));
  tog ← (if (on || off : bool) then mret false else of_opt (word_eq cmd (sp + 1) al (lit "toggle")));
  r ← (if (on : bool) then onE (env_led 1) else if (off : bool) then onE (env_led 0)
       else if (tog : bool) then onE (env_led (-1)) else mret (-2));
  if r =? -2 then set_reply_simple cmd (lit "error") (lit "use: led on|off|toggle")
  else set_reply_simple cmd (lit "led") (if negb (r =? 0) then lit "on" else lit "off").

(** The [else if] chain. *)
Definition run_command (cmd : list Z) (len sp : Z) : M mq unit :=
  is_ping ← of_opt (word_eq cmd 0 len (lit "ping"));
  if (is_ping : bool) then set_reply_simple cmd (lit "reply") (lit "pong") else
  is_uptime ← of_opt (word_eq cmd 0 len (lit "uptime"));
  if (is_uptime : bool) then cmd_uptime cmd else
  is_stats ← of_opt (word_eq cmd 0 len (lit "stats"));
  if (is_stats : bool) then cmd_json env_stats_json cmd (lit "unavailable") else
  is_ptp ← of_opt (word_eq cmd 0 len (lit "ptp"));
  if (is_ptp : bool) then cmd_json env_ptp_json cmd (lit "PTP not running") else
  is_led ← of_opt (word_eq cmd 0 sp (lit "led"));
  if (is_led : bool) && (sp <? len) then cmd_led cmd len sp else
  is_help ← of_opt (word_eq cmd 0 len (lit "help"));
  if (is_help : bool)
  then set_reply_simple cmd (lit "commands") (lit "ping, uptime, stats, ptp, led on|off|toggle, help")
  else set_reply_simple cmd (lit "error") (lit "unknown command (try: help)").

Definition handle_command (p : list Z) (len : Z) : M mq unit :=
  c ← of_opt (parse_command p len);
  let '(cmd, n, sp) := c in
  count (fun s => mkMStats (connects s) (connect_failures s) (published s) (u32 (commands s + 1)));;
  logf2 (lit "cmd: ") (Some cmd);;
  run_command cmd n sp;;
  setM (fun g => set_rep (mkReply true (reply (rep g)) (scratch (rep g))) g).

Definition topic_is (pi : MQTTPublishInfo) (topic : list Z) : option bool :=
  word_eq (pTopicName pi) 0 (topicNameLength pi) topic.

Definition on_event (e : mqtt_event) : M mq unit :=
  g ← getM id;
  match (if Z.land (ev_type e) 240 =? MQTT_PACKET_TYPE_PUBLISH then ev_publish e else None) with
  | Some pi =>
      mine ← of_opt (topic_is pi (t_cmd (topics g)));
      if (mine : bool) then handle_command (pPayload pi) (payloadLength pi) else mret tt
  | None =>
      if ev_type e =? MQTT_PACKET_TYPE_SUBACK then logf2 (lit "subscribed to ") (Some (t_cmd (topics g))) else mret tt
  end.
Fixpoint on_events (es : list mqtt_event) : M mq unit :=
  match es with [] => mret tt | e :: es => on_event e;; on_events es end.

(** ** Connection management *)

Definition drop (why : list Z) : M mq unit :=
  up ← getM flint_mqtt_connected;
  (if (up : bool) then logf2 (lit "connection lost: ") (Some why) else mret tt);;
  setM (fun g => set_conn (mkConn false (next_attempt_ms (conn g)) (backoff_ms (conn g))) g);;
  onE env_close;;
  t ← now_ms;
  setM (fun g =>
    let b := backoff_ms (conn g) in
    set_conn (mkConn (connected (conn g)) (u32 (t + b))
                (if BACKOFF_MAX_MS <? u32 (b * 2) then BACKOFF_MAX_MS else u32 (b * 2))) g).

Definition k_offline : list Z := chars "{" ++ [34] ++ chars "state" ++ [34] ++ chars ":" ++ [34] ++ chars "offline" ++ [34] ++ chars "}".

(** After a successful CONNECT. *)
Definition go_online : M mq unit :=
  setM (fun g => set_conn (mkConn true (next_attempt_ms (conn g)) BACKOFF_MIN_MS) g);;
  count (fun s => mkMStats (u32 (connects s + 1)) (connect_failures s) (published s) (commands s));;
  g ← getM id;
  logf2 (lit "connected as ") (Some (mid (ident g)));;
  n ← of_opt (fm_strlen (t_cmd (topics g)));
  rc ← onE (MQTT_Subscribe (t_cmd (topics g)) (u16 n));
  (if negb (rc =? MQTTSuccess) then logf2 (lit "SUBSCRIBE failed: ") (Some (MQTT_Status_strerror rc)) else mret tt);;
  publish_status_online;;
  logf2 (lit "topics under flint/") (Some (mid (ident g)));;
  t ← now_ms;
  t' ← now_ms;
  setM (set_sched (mkSched t (u32 (u32 (t' - STATS_PERIOD_MS) + 2000)))).

Definition try_connect : M mq unit :=
  g ← getM id;
  logf2 (lit "connecting to ") (Some (mhost (ident g)));;
  r ← onE (env_open (mhost (ident g)) (mport (ident g)) CONNECT_TIMEOUT_MS);
  if negb (r =? 0) then
    count (fun s => mkMStats (connects s) (u32 (connect_failures s + 1)) (published s) (commands s));;
    why ← gets (fun s => env_error (env s));
    logf2 (lit "TCP/DNS failed: ") (Some why);;
    drop (lit "open")
  else
    rc ← onE MQTT_Init;
    if negb (rc =? MQTTSuccess) then
      logf2 (lit "MQTT_Init: ") (Some (MQTT_Status_strerror rc));; drop (lit "init")
    else
      n ← of_opt (fm_strlen (mid (ident g)));
      m ← of_opt (fm_strlen (t_status (topics g)));
      rc ← onE (MQTT_Connect (mkCi true (mid (ident g)) (u16 n) KEEPALIVE_S)
                  (mkPub (t_status (topics g)) (u16 m) (k_offline ++ [0]) (Z.of_nat (length (k_offline ++ [0])) - 1) true)
                  CONNECT_TIMEOUT_MS);
      if negb (rc =? MQTTSuccess) then
        count (fun s => mkMStats (connects s) (u32 (connect_failures s + 1)) (published s) (commands s));;
        logf2 (lit "CONNECT rejected/failed: ") (Some (MQTT_Status_strerror rc));;
        drop (lit "connect")
      else go_online.

(** ** Public *)

Definition flint_mqtt_init (client_id broker_host : list Z) (broker_port : Z) : M mq unit :=
  g ← getM id;
  i ← of_opt (fm_strlcpy (mid (ident g)) 0 client_id ID_MAX);
  h ← of_opt (fm_strlcpy (mhost (ident g)) 0 broker_host HOST_MAX);
  let x := topics g in
  a ← of_opt (make_topic i (t_status x) (lit "status"));
  b ← of_opt (make_topic i (t_ptp x) (lit "ptp"));
  c ← of_opt (make_topic i (t_stats x) (lit "stats"));
  d ← of_opt (make_topic i (t_cmd x) (lit "cmd"));
  e ← of_opt (make_topic i (t_reply x) (lit "reply"));
  boot ← now_ms;
  next ← now_ms;
  setM (fun g => set_topics (mkTopics (topic_buf x) a b c d e)
    (set_conn (mkConn false next BACKOFF_MIN_MS) (set_ident (mkIdent i h broker_port true boot) g)));;
  logf2 (lit "client id ") (Some i).

(** The publications of a service round. *)
Definition service_publish : M mq unit :=
  r ← getM rep;
  (if reply_pending r then
     setM (fun g => set_rep (mkReply false (reply (rep g)) (scratch (rep g))) g);;
     x ← getM topics;
     n ← of_opt (fm_strlen (reply r));
     publish (t_reply x) (reply r) n false;; mret tt
   else mret tt);;
  t ← now_ms;
  s ← getM sched;
  (if PTP_PERIOD_MS <=? u32 (t - last_ptp_ms s) then
     let l := u32 (last_ptp_ms s + PTP_PERIOD_MS) in
     let l := if PTP_PERIOD_MS <=? u32 (t - l) then t else l in
     setM (fun g => set_sched (mkSched l (last_stats_ms (sched g))) g);;
     publish_ptp
   else mret tt);;
  s ← getM sched;
  if STATS_PERIOD_MS <=? u32 (t - last_stats_ms s) then
    setM (fun g => set_sched (mkSched (last_ptp_ms (sched g)) t) g);;
    publish_stats
  else mret tt.

Definition flint_mqtt_service : M mq unit :=
  g ← getM id;
  if negb (inited (ident g)) then mret tt
  else
    t ← now_ms;
    if negb (flint_mqtt_connected g) then
      if 0 <=? i32 (u32 (t - next_attempt_ms (conn g))) then try_connect else mret tt
    else
      re ← onE MQTT_ProcessLoop;
      on_events re.2;;
      if negb (re.1 =? MQTTSuccess) && negb (re.1 =? MQTTNeedMoreBytes) then drop (MQTT_Status_strerror re.1)
      else
        up ← gets (fun s => env_is_up (env s));
        if negb up then why ← gets (fun s => env_error (env s)); drop why
        else service_publish.

End mqtt.
