(* ===== verification/MqttProps.v ===== *)
(** * The MQTT application always returns, backs off and answers

    For every environment that behaves as its interface documents, the service
    loop terminates without an out-of-bounds access from every well-formed
    state, keeps its arrays terminated, and moves the connection state only
    along the back-off schedule; and each command gets its JSON reply. *)

From S2P Require Import Prelude CInt Decimal CStr Jsonw Mqtt.

(** ** Strings in arrays *)

Lemma strlcpy_array src dst cap :
  cstring src -> (0 < cap <= length dst)%nat ->
  exists d, fm_strlcpy dst 0 src (Z.of_nat cap) = Some d /\ carray (length dst) d.
Proof.
  intros (t & rest & Ht & ->) Hc. rewrite fm_strlcpy_kept by done. eexists. split; [done|]. unfold kept. split.
  - rewrite blit_length; [done|]. rewrite length_app, length_take. cbn. lia.
  - unfold blit. rewrite take_0. cbn [app]. rewrite <- app_assoc. apply cstring_app. by apply Forall_take.
Qed.
Lemma strlcat_array src dst n :
  cstring src -> carray n dst -> exists d, fm_strlcat dst src (Z.of_nat n) = Some d /\ carray n d.
Proof.
  intros (s & r & Hs & ->) [<- (t & rest & Ht & ->)]. unfold fm_strlcat. rewrite fm_strlen_text, obind_some by done.
  rewrite length_app. cbn [length]. destruct (Z.ltb_spec (Z.of_nat (length t)) (Z.of_nat (length t + S (length rest)))); [|lia].
  unfold fm_strlcpy. rewrite (proj2 (Z.eqb_neq _ 0)) by lia.
  rewrite strlcpy_loop_blit by (done || lia || (rewrite length_app; cbn; lia)). eexists. split; [done|].
  replace (Z.to_nat (Z.of_nat (length t) + 0)) with (length t) by lia. set (u := take _ s).
  assert (length u <= length rest)%nat by (unfold u; rewrite length_take; lia). split.
  - rewrite blit_length; rewrite ?length_app; cbn; lia.
  - unfold blit. rewrite take_app_length, <- app_assoc, app_assoc. apply cstring_app. apply is_text_app.
    split; [done|]. by apply Forall_take.
Qed.

(** ** Parsing a command *)

Lemma rdb_at (pre l post : list Z) x : rdb (pre ++ (x :: l) ++ post) (Z.of_nat (length pre)) = Some x.
Proof. unfold rdb. destruct (Z.ltb_spec (Z.of_nat (length pre)) 0); [lia|]. rewrite Nat2Z.id. by apply list_lookup_middle. Qed.

Fixpoint ltrim (l : list Z) : list Z :=
  match l with [] => [] | c :: l' => if is_blank c then ltrim l' else l end.
Definition trim (l : list Z) : list Z := reverse (ltrim (reverse (ltrim l))).

Lemma ltrim_split l : exists b, l = b ++ ltrim l.
Proof.
  induction l as [|c l [b IH]]; [by exists []|]. cbn [ltrim]. destruct (is_blank c); [|by exists []].
  exists (c :: b). cbn. by rewrite <- IH.
Qed.
Lemma trim_split l : exists a b, ltrim l = trim l ++ b /\ l = a ++ trim l ++ b.
Proof.
  destruct (ltrim_split l) as [a Ha]. destruct (ltrim_split (reverse (ltrim l))) as [b Hb].
  exists a, (reverse b). assert (ltrim l = trim l ++ reverse b) as E.
  { unfold trim. rewrite <- reverse_app, <- Hb. by rewrite reverse_involutive. }
  by rewrite <- E.
Qed.

Lemma trim_front_spec l pre post :
  trim_front (pre ++ l ++ post) (Z.of_nat (length pre)) (length l) =
  Some (Z.of_nat (length pre + (length l - length (ltrim l)))).
Proof.
  revert pre. induction l as [|c l IH]; intros pre; cbn [trim_front length ltrim].
  - do 2 f_equal. lia.
  - rewrite rdb_at, obind_some. destruct (is_blank c).
    + replace (Z.of_nat (length pre) + 1) with (Z.of_nat (length (pre ++ [c]))) by (rewrite length_app; cbn; lia).
      replace (pre ++ (c :: l) ++ post) with ((pre ++ [c]) ++ l ++ post) by (by rewrite <- app_assoc).
      rewrite IH, length_app. destruct (ltrim_split l) as [b Hb]. apply (f_equal length) in Hb. rewrite length_app in Hb.
      f_equal. cbn [length]. lia.
    + cbn [length]. f_equal. lia.
Qed.
Lemma trim_back_spec l pre post :
  trim_back (pre ++ l ++ post) (Z.of_nat (length pre + length l)) (length l) =
  Some (Z.of_nat (length pre + length (reverse (ltrim (reverse l))))).
Proof.
  revert post. induction l as [|c l IH] using rev_ind; intros post; [done|].
  rewrite length_app, Nat.add_1_r. cbn [trim_back].
  replace (Z.of_nat (length pre + S (length l)) - 1) with (Z.of_nat (length (pre ++ l))) by (rewrite length_app; lia).
  replace (rdb _ (Z.of_nat (length (pre ++ l)))) with (Some c).
  2:{ rewrite <- app_assoc, app_assoc. symmetry. apply (rdb_at (pre ++ l) []). }
  rewrite obind_some, reverse_snoc. cbn [ltrim]. destruct (is_blank c).
  - rewrite <- app_assoc, length_app. by rewrite IH.
  - rewrite reverse_cons, reverse_involutive, length_app. cbn [length]. f_equal. lia.
Qed.

Lemma copy_cmd_blit l cmd pre post i :
  (i + length l <= length cmd)%nat ->
  forall q, length q = i -> copy_cmd cmd (pre ++ q ++ l ++ post) (Z.of_nat (length pre)) (Z.of_nat i) (length l) = Some (blit cmd i l).
Proof.
  revert cmd i. induction l as [|c l IH]; intros cmd i Hl q Hq; cbn [copy_cmd length] in *.
  - f_equal. unfold blit. cbn [length app]. by rewrite Nat.add_0_r, take_drop.
  - replace (Z.of_nat (length pre) + Z.of_nat i) with (Z.of_nat (length (pre ++ q))) by (rewrite length_app; lia).
    rewrite (app_assoc pre q), rdb_at, obind_some. rewrite wrb_blit, obind_some, Nat2Z.id by lia.
    replace (Z.of_nat i + 1) with (Z.of_nat (S i)) by lia.
    replace ((pre ++ q) ++ (c :: l) ++ post) with (pre ++ (q ++ [c]) ++ l ++ post) by (by rewrite <- !app_assoc).
    rewrite IH.
    + f_equal. replace (S i) with (i + length [c])%nat by (cbn; lia). apply (blit_after cmd i [c] l). cbn. lia.
    + rewrite blit_length; cbn; lia.
    + rewrite length_app. cbn. lia.
Qed.
Lemma find_space_ok cmd i n :
  0 <= i -> i + Z.of_nat n <= Z.of_nat (length cmd) -> exists sp, find_space cmd i n = Some sp /\ i <= sp <= i + Z.of_nat n /\
    (forall j, i <= j < sp -> rdb cmd j <> Some 32) /\ (sp < i + Z.of_nat n -> rdb cmd sp = Some 32).
Proof.
  revert i. induction n as [|n IH]; intros i Hi Hn; cbn [find_space].
  - exists i. split_and!; [done|lia|lia|lia|lia].
  - destruct (rdb cmd i) as [c|] eqn:E.
    2:{ unfold rdb in E. destruct (Z.ltb_spec i 0); [lia|]. apply lookup_ge_None in E. lia. }
    rewrite obind_some. destruct (Z.eqb_spec c 32) as [->|Hc]; cbn [negb].
    + exists i. split_and!; [done|lia|lia|lia|done].
    + destruct (IH (i + 1)) as (sp & Es & Hr & Hj & Hsp); [lia|lia|]. exists sp. split_and!; [done|lia|lia| |intros; apply Hsp; lia].
      intros j Hjr. destruct (decide (j = i)) as [->|]; [congruence|]. apply Hj. lia.
Qed.

Lemma word_loop_eq x y pre post q q' r :
  length x = length y -> length q = length q' ->
  word_loop (pre ++ q ++ x ++ post) (Z.of_nat (length pre)) (q' ++ y ++ r) (Z.of_nat (length q)) (length x) =
  Some (bool_decide (x = y)).
Proof.
  revert y q q'. induction x as [|a x IH]; intros [|b y] q q' Hl Hq; try done. cbn [length word_loop] in *.
  replace (Z.of_nat (length pre) + Z.of_nat (length q)) with (Z.of_nat (length (pre ++ q))) by (rewrite length_app; lia).
  rewrite (app_assoc pre q), rdb_at, obind_some. rewrite Hq, rdb_at, obind_some.
  destruct (Z.eqb_spec a b) as [->|Hn]; cbn [negb].
  - replace (Z.of_nat (length q') + 1) with (Z.of_nat (length (q ++ [b]))) by (rewrite length_app; cbn; lia).
    replace ((pre ++ q) ++ (b :: x) ++ post) with (pre ++ (q ++ [b]) ++ x ++ post) by (by rewrite <- !app_assoc).
    replace (q' ++ (b :: y) ++ r) with ((q' ++ [b]) ++ y ++ r) by (by rewrite <- !app_assoc).
    rewrite IH by (rewrite ?length_app; cbn; lia). f_equal. apply bool_decide_ext. split; [by intros ->|by intros [=]].
  - rewrite bool_decide_false; [done|]. by intros [=].
Qed.
(** [word_eq] compares a word of an array with a string. *)
Lemma word_eq_spec a oa alen t rest :
  is_text t -> 0 <= oa -> 0 <= alen -> oa + alen <= Z.of_nat (length a) ->
  word_eq a oa alen (t ++ 0 :: rest) = Some (bool_decide (take (Z.to_nat alen) (skipn (Z.to_nat oa) a) = t)).
Proof.
  intros Ht Ho Hl Ha. unfold word_eq. rewrite fm_strlen_text, obind_some by done.
  set (x := take (Z.to_nat alen) (skipn (Z.to_nat oa) a)).
  assert (length x = Z.to_nat alen) as Hx by (unfold x; rewrite length_take, length_drop; lia).
  destruct (Z.eqb_spec alen (Z.of_nat (length t))) as [E|E]; cbn [negb].
  - rewrite Nat2Z.id. set (pre := take (Z.to_nat oa) a).
    assert (length pre = Z.to_nat oa) as Hp by (unfold pre; rewrite length_take; lia).
    set (post := skipn (Z.to_nat alen) (skipn (Z.to_nat oa) a)).
    assert (a = pre ++ [] ++ x ++ post) as Ea by (cbn [app]; unfold x, pre, post; by rewrite !take_drop).
    pose proof (word_loop_eq x t pre post [] [] (0 :: rest) ltac:(lia) eq_refl) as Hw.
    rewrite <- Ea, Hp, Z2Nat.id in Hw by done. replace (length x) with (length t) in Hw by lia. exact Hw.
  - rewrite bool_decide_false; [done|]. intros E'. apply E. rewrite <- E'. lia.
Qed.

(** The command: the payload without leading and trailing blanks, at most 47 characters of it. *)
Definition command_of (p : list Z) : list Z := take 47 (trim p).
Lemma command_of_length p : (length (command_of p) <= 47)%nat.
Proof. unfold command_of. rewrite length_take. lia. Qed.

Lemma parse_command_spec p rest :
  exists sp tail, parse_command (p ++ rest) (Z.of_nat (length p)) =
    Some (command_of p ++ 0 :: tail, Z.of_nat (length (command_of p)), sp) /\ length (command_of p ++ 0 :: tail) = 48%nat /\
    0 <= sp <= Z.of_nat (length (command_of p)) /\
    (forall j, 0 <= j < sp -> rdb (command_of p ++ 0 :: tail) j <> Some 32) /\
    (sp < Z.of_nat (length (command_of p)) -> rdb (command_of p ++ 0 :: tail) sp = Some 32).
Proof.
  unfold parse_command. rewrite !Nat2Z.id. pose proof (trim_front_spec p [] rest) as Hf. cbn [app length] in Hf.
  change (Z.of_nat 0) with 0 in Hf. rewrite Hf, obind_some. destruct (ltrim_split p) as [a Ha]. set (l := ltrim p) in *.
  assert (length p = length a + length l)%nat as Hlen by (rewrite Ha at 1; apply length_app).
  replace (0 + (length p - length l))%nat with (length a) by lia.
  replace (Z.to_nat (Z.of_nat (length p) - Z.of_nat (length a))) with (length l) by lia.
  replace (p ++ rest) with (a ++ l ++ rest) by (rewrite Ha at 1; by rewrite <- app_assoc).
  replace (Z.of_nat (length p)) with (Z.of_nat (length a + length l)) by lia.
  rewrite trim_back_spec, obind_some. change (reverse (ltrim (reverse l))) with (trim p).
  destruct (trim_split p) as (a' & b & Hb & _). fold l in Hb.
  pose proof (command_of_length p) as H47. set (c := command_of p) in *.
  assert (exists d, trim p = c ++ d) as [d Hd] by (exists (skipn 47 (trim p)); unfold c, command_of; by rewrite take_drop).
  replace (if Z.of_nat (length a + length (trim p)) - Z.of_nat (length a) <? 47 then _ else 47) with (Z.of_nat (length c)).
  2:{ unfold c, command_of. rewrite length_take. destruct (Z.ltb_spec (Z.of_nat (length a + length (trim p)) - Z.of_nat (length a)) 47); lia. }
  rewrite Nat2Z.id, Hb, Hd, <- !app_assoc. cbn zeta.
  pose proof (copy_cmd_blit c (replicate 48 0) a (d ++ b ++ rest) 0) as Hcp.
  rewrite length_replicate in Hcp. specialize (Hcp ltac:(lia) [] eq_refl). cbn [app] in Hcp. change (Z.of_nat 0) with 0 in Hcp.
  rewrite Hcp.
  rewrite obind_some, wrb_blit, obind_some by (rewrite blit_length; rewrite ?length_replicate; cbn; lia).
  rewrite Nat2Z.id. pose proof (blit_after (replicate 48 0) 0 c [0]) as Hbl. rewrite Nat.add_0_l in Hbl.
  rewrite Hbl by (rewrite length_replicate; cbn; lia).
  set (tail := skipn (0 + length (c ++ [0])) (replicate 48 0)).
  assert (blit (replicate 48 0) 0 (c ++ [0]) = c ++ 0 :: tail) as Et.
  { unfold blit. rewrite take_0. cbn [app]. by rewrite <- app_assoc. }
  assert (length (c ++ 0 :: tail) = 48%nat) as Hl48.
  { rewrite <- Et, blit_length, length_replicate; [done|]. rewrite length_app, length_replicate. cbn. lia. }
  rewrite Et. destruct (find_space_ok (c ++ 0 :: tail) 0 (length c)) as (sp & Es & Hr & Hj & Hsp); [lia|lia|].
  rewrite Es, obind_some. exists sp, tail. by split_and!; [..|lia|lia| |].
Qed.

(** ** Environments that behave as documented *)

Definition event_ok (e : mqtt_event) : Prop :=
  match ev_publish e with
  | Some pi => bytes (pTopicName pi) /\ 0 <= topicNameLength pi <= Z.of_nat (length (pTopicName pi)) /\
               bytes (pPayload pi) /\ 0 <= payloadLength pi <= Z.of_nat (length (pPayload pi))
  | None => True
  end.

Class MqttEnvLaws (T : Type) `{!MqttEnv T} := {
  el_ms t : wp env_ms (fun v _ => in_u 32 v) t;
  el_log l t : wp (env_log l) (fun _ _ => True) t;
  el_ip t : wp env_ip (fun b _ => cstring b) t;
  el_led v t : wp (env_led v) (fun _ _ => True) t;
  el_ptp b t : length b = 1024%nat -> wp (env_ptp_json b 1024) (fun r _ => carray 1024 r.2) t;
  el_stats b t : length b = 1024%nat -> wp (env_stats_json b 1024) (fun r _ => carray 1024 r.2) t;
  el_open h p n t : wp (env_open h p n) (fun _ _ => True) t;
  el_close t : wp env_close (fun _ _ => True) t;
  el_error t : cstring (env_error t);
  el_init t : wp MQTT_Init (fun _ _ => True) t;
  el_connect c w n t : wp (MQTT_Connect c w n) (fun _ _ => True) t;
  el_subscribe b n t : wp (MQTT_Subscribe b n) (fun _ _ => True) t;
  el_loop t : wp MQTT_ProcessLoop (fun r _ => Forall event_ok r.2) t;
  el_publish p t : wp (MQTT_Publish p) (fun _ _ => True) t;
  el_strerror rc : cstring (MQTT_Status_strerror rc) }.

(** The arrays of the application have their sizes and are terminated. *)
Record arrays_ok (g : FlintMqtt) : Prop := mkArrays {
  ao_id : carray 32 (mid (ident g)); ao_host : carray 64 (mhost (ident g));
  ao_boot : in_u 32 (boot_ms (ident g));
  ao_buf : carray 64 (topic_buf (topics g)); ao_status : carray 64 (t_status (topics g));
  ao_ptp : carray 64 (t_ptp (topics g)); ao_stats : carray 64 (t_stats (topics g));
  ao_cmd : carray 64 (t_cmd (topics g)); ao_treply : carray 64 (t_reply (topics g));
  ao_reply : carray 1024 (reply (rep g)); ao_scratch : carray 1024 (scratch (rep g)) }.

Section mqtt.
Context {T : Type} `{!MqttEnv T, !MqttEnvLaws T}.
Implicit Types s : mq (T := T).

(** Symbolic execution through decided branches. *)
Ltac wps := repeat (cbn beta iota; cbn [orb]; wp_step).

(** An operation that keeps the arrays, the identity and the connection state. *)
Definition quiet s s' : Prop :=
  arrays_ok (mg s') /\ ident (mg s') = ident (mg s) /\ conn (mg s') = conn (mg s) /\ topics (mg s') = topics (mg s).
Lemma quiet_trans s1 s2 s3 : quiet s1 s2 -> quiet s2 s3 -> quiet s1 s3.
Proof. intros (_ & ? & ? & ?) (? & ? & ? & ?). split_and!; [done|congruence..]. Qed.

(** A call of the environment leaves the application's state alone. *)
Lemma wp_env {A} (c : M T A) (P : A -> Prop) (Q : A -> mq -> Prop) s :
  wp c (fun a _ => P a) (env s) -> (forall a t, P a -> Q a (mkMq (mg s) t)) -> wp (onE c) Q s.
Proof. intros Hc HQ. apply wp_zoom. eapply wp_mono; [exact Hc|]. auto. Qed.

Lemma wp_log a b s (Q : unit -> mq -> Prop) :
  cstring a -> (forall b', b = Some b' -> cstring b') -> (forall t, Q tt (mkMq (mg s) t)) -> wp (logf2 a b) Q s.
Proof.
  intros Ha Hb HQ. unfold logf2. change 160 with (Z.of_nat 160).
  destruct (strlcpy_array (lit "[mqtt] ") (replicate 160 0) 160) as (d & -> & Hd);
    [apply cstring_lit; compute_done|rewrite length_replicate; lia|]. rewrite length_replicate in Hd.
  destruct (strlcat_array a d 160 Ha Hd) as (d1 & E1 & Hd1). wp_step. wp_step. wp_step. rewrite E1. wp_step. wp_step.
  assert (exists d2, match b with Some b => fm_strlcat d1 b (Z.of_nat 160) | None => Some d1 end = Some d2) as (d2 & ->).
  { destruct b as [b|]; [|by exists d1]. destruct (strlcat_array b d1 160 (Hb b eq_refl) Hd1) as (d2 & E & _). by exists d2. }
  wp_step. eapply wp_env; [apply el_log|]. intros [] t _. apply HQ.
Qed.
Lemma wp_now s (Q : Z -> mq -> Prop) : (forall v t, in_u 32 v -> Q v (mkMq (mg s) t)) -> wp now_ms Q s.
Proof. intros HQ. eapply wp_env; [apply el_ms|]. auto. Qed.

(** ** Objects in an array of 1024 bytes *)

Section json.
Context (b0 : list Z) (Hb0 : length b0 = 1024%nat).

Lemma room_1024 : room b0 1024.
Proof. split; [rewrite Hb0; lia|lia]. Qed.

(** A writer in the middle of a text, after a member or not. *)
Definition at_text (t : list Z) (comma : bool) (w : JsonW) : Prop := holds b0 1024 t w /\ need_comma w = comma.

Lemma wp_jinit s (Q : JsonW -> mq -> Prop) :
  (forall w, at_text [] false w -> Q w s) -> wp (of_opt (jw_init b0 REPLY_MAX)) Q s.
Proof.
  intros HQ. unfold jw_init, REPLY_MAX. cbn [Z.ltb Z.compare]. rewrite wrb_blit, obind_some by lia. wp_step. apply HQ.
  split; [|done]. by split.
Qed.
Lemma wp_emit f u t c w s (Q : JsonW -> mq -> Prop) :
  emits b0 1024 f u -> at_text t c w ->
  (forall w', at_text (t ++ (if c then [44] else []) ++ u) true w' -> Q w' s) -> wp (of_opt (f w)) Q s.
Proof.
  intros Hf [Hw Hc] HQ. destruct (Hf t w Hw) as (w' & E & Hw' & Hc'). rewrite E. wp_step. apply HQ. split; [by rewrite <- Hc|done].
Qed.
Lemma wp_jopen w s (Q : JsonW -> mq -> Prop) :
  at_text [] false w -> (forall w', at_text [123] false w' -> Q w' s) -> wp (of_opt (jw_obj_open w)) Q s.
Proof.
  intros [Hw Hc] HQ. unfold jw_obj_open. destruct (sep_emits b0 1024 room_1024 [] w Hw) as (w1 & E1 & H1 & _).
  rewrite E1, obind_some, Hc in *. destruct (put_c_holds b0 1024 room_1024 _ w1 123 H1) as (w2 & E2 & H2 & _).
  rewrite E2, obind_some. wp_step. apply HQ. split; [by apply holds_comma|done].
Qed.
Lemma wp_jclose t c w s (Q : JsonW -> mq -> Prop) :
  at_text t c w -> (forall w', holds b0 1024 (t ++ [125]) w' -> Q w' s) -> wp (of_opt (jw_obj_close w)) Q s.
Proof.
  intros [Hw Hc] HQ. unfold jw_obj_close. destruct (put_c_holds b0 1024 room_1024 _ w 125 Hw) as (w2 & E2 & H2 & _).
  rewrite E2, obind_some. wp_step. apply HQ. by apply holds_comma.
Qed.

Lemma jw_str_emits k v rest :
  is_text (chars k) -> is_text v ->
  emits b0 1024 (fun w => jw_str w (Some (lit k)) (v ++ 0 :: rest)) (ktext (Some (chars k)) ++ quoted v).
Proof.
  intros Hk Hv. apply emits_bind; [apply (key_emits b0 1024 room_1024 (Some (chars k)) Hk)|].
  apply (put_escaped_prints b0 1024 room_1024 v rest Hv).
Qed.
Lemma jw_u32_emits k v :
  is_text (chars k) -> in_u 32 v ->
  emits b0 1024 (fun w => jw_u32 w (Some (lit k)) v) (ktext (Some (chars k)) ++ numeral 10 v).
Proof.
  intros Hk Hv. apply emits_bind; [apply (key_emits b0 1024 room_1024 (Some (chars k)) Hk)|].
  apply (number_prints b0 1024 room_1024). unfold in_u in *. lia.
Qed.
Lemma wp_jstr k v rest t c w s (Q : JsonW -> mq -> Prop) :
  is_text (chars k) -> is_text v -> at_text t c w ->
  (forall w', at_text (t ++ (if c then [44] else []) ++ ktext (Some (chars k)) ++ quoted v) true w' -> Q w' s) ->
  wp (of_opt (jw_str w (Some (lit k)) (v ++ 0 :: rest))) Q s.
Proof. intros Hk Hv. apply (wp_emit (fun w => jw_str w (Some (lit k)) (v ++ 0 :: rest))). by apply jw_str_emits. Qed.
Lemma wp_ju32 k v t c w s (Q : JsonW -> mq -> Prop) :
  is_text (chars k) -> in_u 32 v -> at_text t c w ->
  (forall w', at_text (t ++ (if c then [44] else []) ++ ktext (Some (chars k)) ++ numeral 10 v) true w' -> Q w' s) ->
  wp (of_opt (jw_u32 w (Some (lit k)) v)) Q s.
Proof. intros Hk Hv. apply (wp_emit (fun w => jw_u32 w (Some (lit k)) v)). by apply jw_u32_emits. Qed.
(** The array a finished text is left in. *)
Lemma holds_array t w : is_text t -> holds b0 1024 t w -> carray 1024 (jbuf w) /\ jbuf w = kept b0 1024 t.
Proof.
  intros Ht [_ _ Hb _]. split; [|exact Hb]. rewrite Hb. split.
  - rewrite blit_length; [done|]. rewrite length_app, length_take. cbn [length]. lia.
  - unfold blit. rewrite take_0. cbn [app]. rewrite <- app_assoc. apply cstring_app. by apply Forall_take.
Qed.
End json.

(** Texts of documents contain no zero byte. *)
Lemma quoted_text v : is_text v -> is_text (quoted v).
Proof.
  intros Hv. unfold quoted. apply is_text_cons. split; [lia|]. apply is_text_app. split; [|by repeat constructor].
  induction v as [|c v IH]; [constructor|]. apply is_text_cons in Hv as [Hc Hv]. cbn [mbind list_bind].
  apply is_text_app. split; [|by apply IH]. unfold esc. repeat case_match; repeat constructor; lia.
Qed.
Lemma ktext_text k : is_text k -> is_text (ktext (Some k)).
Proof. intros Hk. apply is_text_app. split; [by apply quoted_text|by repeat constructor]. Qed.
Lemma member_text k u : is_text (chars k) -> is_text u -> is_text (ktext (Some (chars k)) ++ u).
Proof.
  intros Hk Hu. apply is_text_app. split; [by apply ktext_text|done].
Qed.

(** The reply of a simple command. *)
Definition simple_doc (cmd k v : list Z) : jnode := JObj [JStr (Some (chars "cmd")) cmd; JStr (Some k) v].

Lemma wp_reply_simple cmd rest k v s (Q : unit -> mq -> Prop) :
  is_text cmd -> is_text (chars k) -> is_text (chars v) -> arrays_ok (mg s) ->
  (forall s', quiet s s' -> sched (mg s') = sched (mg s) -> mst (mg s') = mst (mg s) ->
     reply (rep (mg s')) = kept (reply (rep (mg s))) 1024 (text (simple_doc cmd (chars k) (chars v))) -> Q tt s') ->
  wp (set_reply_simple (cmd ++ 0 :: rest) (lit k) (lit v)) Q s.
Proof.
  intros Hc Hk Hv Hok HQ. unfold set_reply_simple, getM, set_reply, setM. do 2 wp_step. cbn [id].
  set (b0 := reply (rep (mg s))). assert (length b0 = 1024%nat) as Hb by apply (ao_reply _ Hok).
  wp_step. apply (wp_jinit b0 Hb). intros w0 H0. wp_step. apply (wp_jopen b0 Hb); [done|]. intros w1 H1.
  wp_step. apply (wp_jstr b0 Hb "cmd" cmd rest _ _ _ _ _ ltac:(compute_done) Hc H1). intros w2 H2.
  wp_step. apply (wp_jstr b0 Hb k (chars v) [] _ _ _ _ _ Hk Hv H2). intros w3 H3.
  wp_step. eapply (wp_jclose b0); [done|exact H3|]. intros w4 H4. wp_step.
  assert (is_text (text (simple_doc cmd (chars k) (chars v)))) as Ht.
  { cbn [text simple_doc fmap list_fmap commas mbind list_bind]. rewrite app_nil_r.
    apply is_text_cons. split; [lia|]. apply is_text_app. split; [|by repeat constructor]. apply is_text_app. split.
    - apply member_text; [compute_done|by apply quoted_text].
    - apply is_text_cons. split; [lia|]. by apply member_text; [|apply quoted_text]. }
  replace (_ ++ [125]) with (text (simple_doc cmd (chars k) (chars v))) in H4.
  2:{ cbn [text simple_doc fmap list_fmap commas mbind list_bind app]. rewrite app_nil_r, <- !app_assoc. done. }
  destruct (holds_array b0 Hb _ _ Ht H4) as [Ha Hj]. apply HQ; [|done|done|exact Hj].
  destruct Hok. split; [|done]. by split.
Qed.

(** ** Commands *)

(** The outcome of a command's reply: only the reply changed. *)
Definition replied s s' : Prop := quiet s s' /\ sched (mg s') = sched (mg s) /\ mst (mg s') = mst (mg s).

Lemma wp_led cmd tail len sp s (Q : unit -> mq -> Prop) :
  is_text cmd -> 0 <= sp < len -> len <= Z.of_nat (length (cmd ++ 0 :: tail)) -> arrays_ok (mg s) ->
  (forall s', replied s s' -> Q tt s') -> wp (cmd_led (cmd ++ 0 :: tail) len sp) Q s.
Proof.
  intros Hc Hsp Hlen Hok HQ. unfold cmd_led. cbn zeta.
  assert (forall w, is_text (chars w) -> exists b, word_eq (cmd ++ 0 :: tail) (sp + 1) (len - sp - 1) (lit w) = Some b) as Hw.
  { intros w Hw. eexists. apply word_eq_spec; [done|lia..]. }
  destruct (Hw "on") as [on E1]; [compute_done|]. destruct (Hw "off") as [off E2]; [compute_done|].
  destruct (Hw "toggle") as [tog E3]; [compute_done|]. rewrite E1, E2, E3.
  assert (forall s1 r, mg s1 = mg s -> wp (if r =? -2 then set_reply_simple (cmd ++ 0 :: tail) (lit "error") (lit "use: led on|off|toggle")
    else set_reply_simple (cmd ++ 0 :: tail) (lit "led") (if negb (r =? 0) then lit "on" else lit "off")) Q s1) as Hfin.
  { intros s1 r Hs1. assert (forall s', quiet s1 s' -> sched (mg s') = sched (mg s1) -> mst (mg s') = mst (mg s1) -> Q tt s') as HQ1.
    { intros s' Hq H1 H2. apply HQ. unfold replied, quiet in *. by rewrite <- Hs1. }
    destruct (r =? -2); [|destruct (negb (r =? 0))]; (apply wp_reply_simple; [done|compute_done|compute_done|by rewrite Hs1|auto]). }
  wp_step. wp_step. destruct on; [|wps; destruct off; [|wps; destruct tog] ]; wps; cbn beta iota;
    first [ by apply Hfin | eapply wp_env; [apply el_led|]; intros a t _; by apply Hfin ].
Qed.

Lemma wp_uptime cmd tail s (Q : unit -> mq -> Prop) :
  is_text cmd -> arrays_ok (mg s) -> (forall s', replied s s' -> Q tt s') -> wp (cmd_uptime (cmd ++ 0 :: tail)) Q s.
Proof.
  intros Hc Hok HQ. unfold cmd_uptime, getM, set_reply, setM. do 2 wp_step. cbn [id].
  set (b0 := reply (rep (mg s))). assert (length b0 = 1024%nat) as Hb by apply (ao_reply _ Hok).
  wp_step. apply (wp_jinit b0 Hb). intros w0 H0. wp_step. apply (wp_jopen b0 Hb); [done|]. intros w1 H1.
  wp_step. apply (wp_jstr b0 Hb "cmd" cmd tail _ _ _ _ _ ltac:(compute_done) Hc H1). intros w2 H2.
  wp_step. apply wp_now. intros v t Hv.
  assert (in_u 32 (u32 (v - boot_ms (ident (mg s))) / 1000)) as Hu.
  { pose proof (wrapu_range 32 (v - boot_ms (ident (mg s))) ltac:(lia)) as Hr. unfold in_u in *.
    split; [apply Z.div_pos; lia|]. apply Z.div_lt_upper_bound; lia. }
  wp_step. apply (wp_ju32 b0 Hb "uptime_s" _ _ _ _ _ _ ltac:(compute_done) Hu H2). intros w3 H3.
  wp_step. eapply (wp_jclose b0); [done|exact H3|]. intros w4 H4. wp_step.
  assert (carray 1024 (jbuf w4)) as Ha.
  { eapply holds_array; [done| |exact H4]. rewrite !is_text_app. split_and!;
      first [by apply quoted_text | apply numeral_text | apply ktext_text; compute_done | by repeat constructor]. }
  apply HQ. destruct Hok. split; [|done]. split; [|done]. by split.
Qed.
Lemma wp_json json cmd tail why s (Q : unit -> mq -> Prop) :
  (forall b t, length b = 1024%nat -> wp (json b 1024) (fun r _ => carray 1024 r.2) t) ->
  is_text cmd -> is_text (chars why) -> arrays_ok (mg s) ->
  (forall s', replied s s' -> Q tt s') -> wp (cmd_json json (cmd ++ 0 :: tail) (lit why)) Q s.
Proof.
  intros Hj Hc Hw Hok HQ. unfold cmd_json, getM, set_reply, setM. do 2 wp_step. cbn [id]. wp_step.
  eapply wp_env; [apply Hj, (ao_reply _ Hok)|]. intros [n b] t Hb. cbn [fst snd] in *. wp_step. wp_step.
  match goal with |- wp _ _ ?s1 => assert (replied s s1) as Hr by (destruct Hok; split; [|done]; split; [by split|done]) end.
  destruct (n =? 0).
  - apply wp_reply_simple; [done|compute_done|done|apply Hr|]. intros s' Hq H1 H2 _. apply HQ.
    destruct Hr as (Hr1 & Hr2 & Hr3). split; [exact (quiet_trans _ _ _ Hr1 Hq)|]. split; [by rewrite H1|by rewrite H2].
  - wp_step. by apply HQ.
Qed.

(** The replies that do not depend on the environment, by command. *)
Definition static_reply (c : list Z) : option (string * string) :=
  if decide (c = chars "ping") then Some ("reply", "pong")
  else if decide (c = chars "uptime" \/ c = chars "stats" \/ c = chars "ptp") then None
  else if decide (chars "led " `prefix_of` c) then None
  else if decide (c = chars "help") then Some ("commands", "ping, uptime, stats, ptp, led on|off|toggle, help")
  else Some ("error", "unknown command (try: help)").

Lemma led_prefix (A : list Z) sp n :
  0 <= sp < n -> n <= Z.of_nat (length A) -> take (Z.to_nat sp) A = chars "led" -> rdb A sp = Some 32 ->
  chars "led " `prefix_of` take (Z.to_nat n) A.
Proof.
  intros Hsp Hn Ht Hr. assert (sp = 3) as ->.
  { apply (f_equal length) in Ht. rewrite length_take in Ht. cbn in Ht. lia. }
  change (Z.to_nat 3) with 3%nat in Ht. change (chars "led") with [108; 101; 100] in Ht.
  destruct A as [|a0 [|a1 [|a2 [|a3 A] ] ] ]; try done. injection Ht as -> -> ->. injection Hr as ->.
  replace (Z.to_nat n) with (S (S (S (S (Z.to_nat n - 4))))) by lia. by exists (take (Z.to_nat n - 4) A).
Qed.

Lemma wp_run_command t tail n sp s (Q : unit -> mq -> Prop) :
  let A := t ++ 0 :: tail in
  is_text t -> 0 <= sp <= n -> n <= Z.of_nat (length A) -> (sp < n -> rdb A sp = Some 32) -> arrays_ok (mg s) ->
  (forall s', replied s s' ->
     (forall k v, static_reply (take (Z.to_nat n) A) = Some (k, v) ->
        reply (rep (mg s')) = kept (reply (rep (mg s))) 1024 (text (simple_doc t (chars k) (chars v)))) -> Q tt s') ->
  wp (run_command A n sp) Q s.
Proof.
  intros A Ht Hsp Hn Hsp32 Hok HQ. unfold run_command.
  assert (forall w k, is_text (chars w) -> 0 <= k <= n ->
    word_eq A 0 k (lit w) = Some (bool_decide (take (Z.to_nat k) A = chars w))) as Hw.
  { intros w k Hw Hk. change (lit w) with (chars w ++ 0 :: []). rewrite word_eq_spec by (done || lia). by rewrite drop_0. }
  assert (forall k v, is_text (chars k) -> is_text (chars v) -> static_reply (take (Z.to_nat n) A) = Some (k, v) ->
    wp (set_reply_simple A (lit k) (lit v)) Q s) as Hsimple.
  { intros k v Hk Hv Hs. apply wp_reply_simple; try done. intros s' Hq H1 H2 H3. apply HQ; [done|].
    intros k' v' E. rewrite Hs in E. by injection E as <- <-. }
  assert (static_reply (take (Z.to_nat n) A) = None -> forall s', replied s s' -> Q tt s') as Hdyn.
  { intros Hs s' Hr. apply HQ; [done|]. intros k v E. by rewrite Hs in E. }
  unfold static_reply in *. rewrite !Hw by (compute_done || lia). set (c := take (Z.to_nat n) A) in *.
  wps. destruct (decide (c = chars "ping")) as [E|Np].
  { rewrite bool_decide_true by done. apply Hsimple; [compute_done..|done]. }
  rewrite (bool_decide_false (c = chars "ping")) by done. wps.
  destruct (decide (c = chars "uptime" \/ c = chars "stats" \/ c = chars "ptp")) as [E|N].
  { destruct (decide (c = chars "uptime")) as [Eu|Nu]; [rewrite bool_decide_true by done; by apply wp_uptime; auto|].
    rewrite (bool_decide_false (c = chars "uptime")) by done. wps.
    destruct (decide (c = chars "stats")) as [Es|Ns].
    { rewrite bool_decide_true by done. apply wp_json; [intros; by apply el_stats|done|compute_done|done|auto]. }
    rewrite (bool_decide_false (c = chars "stats")) by done. wps. destruct E as [?|[?|E] ]; [done..|].
    rewrite bool_decide_true by done. apply wp_json; [intros; by apply el_ptp|done|compute_done|done|auto]. }
  rewrite (bool_decide_false (c = chars "uptime")) by tauto. wps.
  rewrite (bool_decide_false (c = chars "stats")) by tauto. wps.
  rewrite (bool_decide_false (c = chars "ptp")) by tauto. wps.
  destruct (decide (chars "led " `prefix_of` c)) as [Hl|Nl].
  - destruct (bool_decide (take (Z.to_nat sp) A = chars "led") && (sp <? n)) eqn:El.
    { apply andb_true_iff in El as [_ Hlt%Z.ltb_lt]. apply wp_led; [done|lia|done|done|auto]. }
    wps. destruct (bool_decide (c = chars "help")).
    + apply wp_reply_simple; [done|compute_done|compute_done|done|]. intros s' Hq H1 H2 _. by apply Hdyn.
    + apply wp_reply_simple; [done|compute_done|compute_done|done|]. intros s' Hq H1 H2 _. by apply Hdyn.
  - assert (bool_decide (take (Z.to_nat sp) A = chars "led") && (sp <? n) = false) as ->.
    { apply andb_false_iff. destruct (Z.ltb_spec sp n) as [Hlt|]; [left|by right]. apply bool_decide_eq_false.
      intros E. apply Nl. by apply (led_prefix A sp n); auto with lia. }
    wps. destruct (decide (c = chars "help")) as [E|Nh].
    + rewrite bool_decide_true by done. apply Hsimple; [compute_done..|done].
    + rewrite bool_decide_false by done. apply Hsimple; [compute_done..|done].
Qed.

Lemma command_bytes p : bytes p -> bytes (command_of p).
Proof.
  intros Hp. destruct (trim_split p) as (a & b & _ & E). apply Forall_take. unfold bytes in Hp. rewrite E, !Forall_app in Hp.
  apply Hp.
Qed.

Lemma quiet_count f s : arrays_ok (mg s) -> wp (count f) (fun _ s' => quiet s s' /\ rep (mg s') = rep (mg s) /\ mst (mg s') = f (mst (mg s))) s.
Proof. intros []. unfold count, setM. wp_step. split; [split; [by split|done] |done]. Qed.

(** A command is always answered: the reply array is terminated and pending. *)
Lemma wp_command p rest s (Q : unit -> mq -> Prop) :
  bytes p -> arrays_ok (mg s) ->
  (forall s', quiet s s' -> reply_pending (rep (mg s')) = true -> 
     commands (mst (mg s')) = u32 (commands (mst (mg s)) + 1) ->
     (forall k v, is_text p -> static_reply (command_of p) = Some (k, v) ->
        reply (rep (mg s')) = kept (reply (rep (mg s))) 1024 (text (simple_doc (command_of p) (chars k) (chars v)))) -> Q tt s') ->
  wp (handle_command (p ++ rest) (Z.of_nat (length p))) Q s.
Proof.
  intros Hp Hok HQ. unfold handle_command. destruct (parse_command_spec p rest) as (sp & tail & E & Hl & Hsp & _ & H32).
  rewrite E. wp_step. wp_step. set (c := command_of p) in *.
  assert (exists t tl, is_text t /\ c ++ 0 :: tail = t ++ 0 :: tl /\ (is_text p -> t = c)) as (t & tl & Ht & Et & Htc).
  { destruct (decide (is_text p)) as [Hpt|Hpt].
    - exists c, tail. split_and!; [|done|done]. destruct (trim_split p) as (a & b & _ & Ep).
      unfold c, command_of. apply Forall_take. unfold is_text in Hpt. rewrite Ep, !Forall_app in Hpt. apply Hpt.
    - destruct (cstring_bytes_app c tail (command_bytes p Hp)) as (t & tl & Ht & Et). by exists t, tl. }
  rewrite Et in *. wp_step. eapply wp_mono; [by apply quiet_count|]. intros [] s1 (Hq1 & Hr1 & Hm1).
  wp_step. apply wp_log; [apply cstring_lit; compute_done|intros ? [= <-]; by apply cstring_app|]. intros e1.
  wp_step. apply (wp_run_command t tl); [done|lia|rewrite Hl; pose proof (command_of_length p); unfold c; lia| |apply Hq1|].
  { intros Hlt. by apply H32. }
  intros s2 (Hq2 & _ & Hm2) Hrep. unfold setM. wp_step. apply HQ.
  - destruct Hq1 as ([] & ? & ? & ?), Hq2 as ([] & ? & ? & ?). cbn [mg] in *. split_and!; [by split|cbn; congruence..].
  - done.
  - cbn [mg set_rep mst] in *. by rewrite Hm2, Hm1.
  - intros k v Hpt Hs. cbn [mg set_rep rep reply] in *. rewrite Nat2Z.id in Hrep. rewrite <- Et in Hrep. rewrite take_app_length in Hrep.
    rewrite (Hrep k v Hs), Hr1. by rewrite (Htc Hpt).
Qed.

Lemma wp_event e s (Q : unit -> mq -> Prop) :
  event_ok e -> arrays_ok (mg s) -> (forall s', quiet s s' -> Q tt s') -> wp (on_event e) Q s.
Proof.
  intros He Hok HQ. unfold on_event, getM. do 2 wp_step. cbn [id].
  assert (quiet s s) as Hrefl by (by split).
  destruct (if Z.land (ev_type e) 240 =? MQTT_PACKET_TYPE_PUBLISH then ev_publish e else None) as [pi|] eqn:Ep.
  - assert (ev_publish e = Some pi) as Epi by (by destruct (_ =? _)). unfold event_ok in He. rewrite Epi in He.
    destruct He as (Ht & Htl & Hp & Hpl). unfold topic_is. destruct (ao_cmd _ Hok) as [_ (t & r & Htt & Etc)]. rewrite Etc.
    rewrite word_eq_spec by (done || lia). wp_step. wp_step. destruct (bool_decide _); [|wp_step; by apply HQ].
    pose proof (take_drop (Z.to_nat (payloadLength pi)) (pPayload pi)) as Esp.
    rewrite <- Esp. set (p := take _ (pPayload pi)) in *.
    replace (payloadLength pi) with (Z.of_nat (length p)) by (unfold p; rewrite length_take; lia).
    apply wp_command; [by apply Forall_take|done|]. intros s' Hq _ _ _. by apply HQ.
  - destruct (_ =? MQTT_PACKET_TYPE_SUBACK); [|wp_step; by apply HQ].
    apply wp_log; [apply cstring_lit; compute_done|intros ? [= <-]; apply (ao_cmd _ Hok)|]. intros t. by apply HQ.
Qed.
Lemma wp_events es s (Q : unit -> mq -> Prop) :
  Forall event_ok es -> arrays_ok (mg s) -> (forall s', quiet s s' -> Q tt s') -> wp (on_events es) Q s.
Proof.
  intros Hes. revert s. induction Hes as [|e es He _ IH]; intros s Hok HQ; cbn [on_events].
  - wp_step. by apply HQ.
  - wp_step. apply wp_event; [done|done|]. intros s1 H1. apply IH; [apply H1|]. intros s2 H2. apply HQ.
    exact (quiet_trans _ _ _ H1 H2).
Qed.

(** ** Publications *)

Ltac log_lit := apply wp_log; [apply cstring_lit; compute_done|intros ? [= <-]; (apply el_strerror || apply el_error || eauto)|intros ?].

Lemma quiet_refl s : arrays_ok (mg s) -> quiet s s.
Proof. by split. Qed.
(** The environment changed: the application is where it was. *)
Lemma quiet_env s s' t : quiet s (mkMq (mg s') t) <-> quiet s s'.
Proof. done. Qed.
Lemma quiet_from s t s' : quiet (mkMq (mg s) t) s' <-> quiet s s'.
Proof. done. Qed.

Lemma wp_publish topic payload len ret s (Q : bool -> mq -> Prop) :
  cstring topic -> arrays_ok (mg s) ->
  (forall b s', quiet s s' -> sched (mg s') = sched (mg s) -> rep (mg s') = rep (mg s) -> Q b s') ->
  wp (publish topic payload len ret) Q s.
Proof.
  intros (t & r & Ht & ->) Hok HQ. unfold publish, getM. wp_step. wp_step. destruct (negb _); [wp_step; by apply HQ|].
  rewrite fm_strlen_text by done. wp_step. wp_step. wp_step. eapply wp_env; [apply el_publish|]. intros rc e _.
  destruct (rc =? MQTTSuccess); wp_step.
  - unfold count, setM. wp_step. wp_step. destruct Hok. apply HQ; [|done|done]. split; [by split|done].
  - log_lit. wp_step. by apply HQ.
Qed.

Lemma wp_set_scratch b s (Q : unit -> mq -> Prop) :
  carray 1024 b -> arrays_ok (mg s) -> (forall s', quiet s s' -> sched (mg s') = sched (mg s) -> Q tt s') -> wp (set_scratch b) Q s.
Proof. intros Hb [] HQ. unfold set_scratch, setM. wp_step. apply HQ; [|done]. split; [by split|done]. Qed.

Lemma wp_publish_json (json : list Z -> Z -> M T (Z * list Z)) topic s (Q : unit -> mq -> Prop) :
  (forall b t, length b = 1024%nat -> wp (json b 1024) (fun r _ => carray 1024 r.2) t) -> cstring topic -> arrays_ok (mg s) ->
  (forall s', quiet s s' -> sched (mg s') = sched (mg s) -> Q tt s') ->
  wp (nb ← onE (json (scratch (rep (mg s))) REPLY_MAX); set_scratch nb.2;;
      if 0 <? nb.1 then publish topic nb.2 nb.1 false;; mret tt else mret tt) Q s.
Proof.
  intros Hj Ht Hok HQ. wp_step. eapply wp_env; [apply Hj, (ao_scratch _ Hok)|]. intros [n b] t Hb. cbn [fst snd] in *.
  wp_step. apply wp_set_scratch; [done|done|]. intros s1 Hq1 Hs1. destruct (0 <? n); [|wp_step; by apply HQ].
  wp_step. apply wp_publish; [done|apply Hq1|]. intros r s2 Hq2 Hs2 _. wp_step. apply HQ; [|by rewrite Hs2].
  exact (quiet_trans _ _ _ Hq1 Hq2).
Qed.
Lemma wp_publish_ptp s (Q : unit -> mq -> Prop) :
  arrays_ok (mg s) -> (forall s', quiet s s' -> sched (mg s') = sched (mg s) -> Q tt s') -> wp publish_ptp Q s.
Proof.
  intros Hok HQ. unfold publish_ptp, getM. wp_step. wp_step. cbn [id].
  apply wp_publish_json; [intros; by apply el_ptp|apply (ao_ptp _ Hok)|done|done].
Qed.
Lemma wp_publish_stats s (Q : unit -> mq -> Prop) :
  arrays_ok (mg s) -> (forall s', quiet s s' -> sched (mg s') = sched (mg s) -> Q tt s') -> wp publish_stats Q s.
Proof.
  intros Hok HQ. unfold publish_stats, getM. wp_step. wp_step. cbn [id].
  apply wp_publish_json; [intros; by apply el_stats|apply (ao_stats _ Hok)|done|done].
Qed.

Lemma wp_status_online s (Q : unit -> mq -> Prop) :
  arrays_ok (mg s) -> (forall s', quiet s s' -> Q tt s') -> wp publish_status_online Q s.
Proof.
  intros Hok HQ. unfold publish_status_online, build_status, getM. wp_step. wp_step. wp_step. cbn [id].
  set (b0 := scratch (rep (mg s))). assert (length b0 = 1024%nat) as Hb by apply (ao_scratch _ Hok).
  wp_step. apply (wp_jinit b0 Hb). intros w0 H0. wp_step. apply (wp_jopen b0 Hb); [done|]. intros w1 H1.
  wp_step. apply (wp_jstr b0 Hb "state" (chars "online") [] _ _ _ _ _ ltac:(compute_done) ltac:(compute_done) H1). intros w2 H2.
  destruct (ao_id _ Hok) as [_ (ti & ri & Hti & Ei)]. rewrite Ei.
  wp_step. apply (wp_jstr b0 Hb "id" ti ri _ _ _ _ _ ltac:(compute_done) Hti H2). intros w3 H3.
  wp_step. eapply wp_env; [apply el_ip|]. intros ip t (tp & rp & Htp & ->).
  wp_step. apply (wp_jstr b0 Hb "ip" tp rp _ _ _ _ _ ltac:(compute_done) Htp H3). intros w4 H4.
  wp_step. apply (wp_jstr b0 Hb "fw" (chars "FlintRTOS / lwIP 2.2.0 / coreMQTT 2.3.1") [] _ _ _ _ _ ltac:(compute_done) ltac:(compute_done) H4).
  intros w5 H5. wp_step. apply wp_now. intros v t' Hv.
  assert (in_u 32 (u32 (v - boot_ms (ident (mg s))) / 1000)) as Hu.
  { pose proof (wrapu_range 32 (v - boot_ms (ident (mg s))) ltac:(lia)) as Hr. unfold in_u in *.
    split; [apply Z.div_pos; lia|]. apply Z.div_lt_upper_bound; lia. }
  wp_step. apply (wp_ju32 b0 Hb "uptime_s" _ _ _ _ _ _ ltac:(compute_done) Hu H5). intros w6 H6.
  wp_step. eapply (wp_jclose b0); [done|exact H6|]. intros w7 H7.
  assert (carray 1024 (jbuf w7)) as Ha.
  { eapply holds_array; [done| |exact H7]. rewrite !is_text_app. split_and!;
      first [by apply quoted_text | apply numeral_text | apply ktext_text; compute_done | apply quoted_text; compute_done | by repeat constructor]. }
  wp_step. apply wp_set_scratch; [done|done|]. intros s1 Hq1 _. wp_step. wp_step. wp_step. wp_step.
  apply wp_publish; [apply Hq1|apply Hq1|]. intros r s2 Hq2 _ _. wp_step. apply HQ. exact (quiet_trans _ _ _ Hq1 Hq2).
Qed.

(** ** Connection management *)

(** A failure: disconnected, the next attempt one back-off from some clock
    reading, the back-off doubled up to its maximum. *)
Definition backed_off (c c' : Conn) : Prop :=
  connected c' = false /\ backoff_ms c' = Z.min (2 * backoff_ms c) 60000 /\
  exists t, in_u 32 t /\ next_attempt_ms c' = u32 (t + backoff_ms c).
(** A success: connected, the back-off at its minimum. *)
Definition went_online (c' : Conn) : Prop := connected c' = true /\ backoff_ms c' = 2000.

(** The arrays and the identity after a step that may change the connection. *)
Definition stable s s' : Prop :=
  arrays_ok (mg s') /\ ident (mg s') = ident (mg s) /\ topics (mg s') = topics (mg s).
Lemma quiet_stable s s' : quiet s s' -> stable s s'.
Proof. by intros (? & ? & ? & ?). Qed.
Lemma stable_trans s1 s2 s3 : stable s1 s2 -> stable s2 s3 -> stable s1 s3.
Proof. intros (_ & ? & ?) (? & ? & ?). split_and!; [done|congruence..]. Qed.

Lemma wp_drop why s (Q : unit -> mq -> Prop) :
  cstring why -> arrays_ok (mg s) -> 0 <= backoff_ms (conn (mg s)) <= 60000 ->
  (forall s', stable s s' -> backed_off (conn (mg s)) (conn (mg s')) -> Q tt s') -> wp (Mqtt.drop why) Q s.
Proof.
  intros Hw Hok Hb HQ. unfold Mqtt.drop, getM, setM. wp_step. wp_step. wp_step.
  set (b := backoff_ms (conn (mg s))) in *.
  assert (forall s1, mg s1 = mg s -> wp (setM (fun g => set_conn (mkConn false (next_attempt_ms (conn g)) (backoff_ms (conn g))) g);;
    onE env_close;; t ← now_ms; setM (fun g => let b := backoff_ms (conn g) in set_conn (mkConn (connected (conn g)) (u32 (t + b))
      (if BACKOFF_MAX_MS <? u32 (b * 2) then BACKOFF_MAX_MS else u32 (b * 2))) g)) Q s1) as Hrest.
  { intros s1 Hs1. unfold setM. wp_step. wp_step. wp_step. eapply wp_env; [apply el_close|]. intros [] t1 _.
    wp_step. apply wp_now. intros v t2 Hv. wp_step. cbn [mg conn set_conn backoff_ms connected]. rewrite Hs1. fold b.
    rewrite (u32_ok (b * 2)) by lia. apply HQ.
    - destruct Hok. split; [by split|done].
    - split; [done|]. split; [cbn; unfold BACKOFF_MAX_MS; destruct (Z.ltb_spec 60000 (b * 2)); lia|]. by exists v. }
  destruct (flint_mqtt_connected (mg s)).
  - apply wp_log; [apply cstring_lit; compute_done|by intros ? [= <-]|]. intros t. by apply Hrest.
  - wp_step. by apply Hrest.
Qed.

Lemma wp_online s (Q : unit -> mq -> Prop) :
  arrays_ok (mg s) -> (forall s', stable s s' -> went_online (conn (mg s')) -> Q tt s') -> wp go_online Q s.
Proof.
  intros Hok HQ. unfold go_online, getM, setM, count. wp_step. wp_step. wp_step.
  match goal with |- wp _ _ ?s1 => assert (stable s s1 /\ went_online (conn (mg s1))) as [Hst Hon] by (destruct Hok; split; [split; [by split|done]|done]); set (s1' := s1) in * end.
  unfold setM. wp_step. wp_step. wp_step.
  match goal with |- wp _ _ ?s2 => assert (quiet s1' s2) as Hq by (destruct Hst as ([] & ? & ?); split; [by split|done]); set (s2' := s2) in * end.
  cbn [id]. pose proof (proj1 Hq) as Hok2. clearbody s2' s1'.
  wp_step. apply wp_log; [apply cstring_lit; compute_done|intros ? [= <-]; apply (ao_id _ Hok2)|]. intros t1.
  destruct (ao_cmd _ Hok2) as [_ (tc & rc & Htc & Ec)]. rewrite Ec, fm_strlen_text by done. wp_step. wp_step.
  wp_step. eapply wp_env; [apply el_subscribe|]. intros r t2 _.
  assert (forall s3, mg s3 = mg s2' -> wp (publish_status_online;; logf2 (lit "topics under flint/") (Some (mid (ident (mg s2'))));;
    t ← now_ms; t' ← now_ms; setM (set_sched (mkSched t (u32 (u32 (t' - STATS_PERIOD_MS) + 2000))))) Q s3) as Hrest.
  { intros s3 Hs3. wp_step. apply wp_status_online; [by rewrite Hs3|]. intros s4 Hq4.
    wp_step. apply wp_log; [apply cstring_lit; compute_done|intros ? [= <-]; apply (ao_id _ Hok2)|]. intros t3.
    wp_step. apply wp_now. intros v1 t4 _. wp_step. apply wp_now. intros v2 t5 _. unfold setM. wp_step.
    assert (quiet s1' s4) as Hq5 by (destruct Hq as (? & ? & ? & ?), Hq4 as (? & ? & ? & ?); rewrite Hs3 in *; split_and!; [done|congruence..]).
    apply HQ.
    - eapply stable_trans; [exact Hst|]. destruct Hq5 as ([] & ? & ? & ?). split; [by split|done].
    - destruct Hq5 as (_ & _ & Hc & _). cbn [mg set_sched conn]. by rewrite Hc. }
  wp_step. destruct (negb _).
  - apply wp_log; [apply cstring_lit; compute_done|intros ? [= <-]; apply el_strerror|]. intros t3. by apply Hrest.
  - wp_step. by apply Hrest.
Qed.

Lemma wp_connect s (Q : unit -> mq -> Prop) :
  arrays_ok (mg s) -> 0 <= backoff_ms (conn (mg s)) <= 60000 ->
  (forall s', stable s s' -> went_online (conn (mg s')) \/ backed_off (conn (mg s)) (conn (mg s')) -> Q tt s') ->
  wp try_connect Q s.
Proof.
  intros Hok Hb HQ. unfold try_connect, getM. wp_step. wp_step. cbn [id].
  wp_step. apply wp_log; [apply cstring_lit; compute_done|intros ? [= <-]; apply (ao_host _ Hok)|]. intros t1.
  wp_step. eapply wp_env; [apply el_open|]. intros r t2 _.
  assert (forall why s1, cstring why -> quiet s s1 -> wp (Mqtt.drop why) Q s1) as Hdrop.
  { intros why s1 Hw (Ho1 & Hi1 & Hc1 & Ht1). apply wp_drop; [done|done|by rewrite Hc1|]. intros s2 Hs2 Hbo. apply HQ.
    - eapply stable_trans; [|exact Hs2]. done.
    - right. by rewrite <- Hc1. }
  assert (forall f s1, mg s1 = mg s -> arrays_ok (mg s1) -> exists s2, count f s1 = Some (tt, s2) /\ quiet s s2) as Hcount.
  { intros f s1 Hs1 Ho1. eexists. split; [reflexivity|]. rewrite <- quiet_from with (t := env s1). rewrite <- Hs1. destruct s1. destruct Ho1.
    split; [by split|done]. }
  destruct (negb _).
  { wp_step. match goal with |- wp (count ?f) _ ?s1 => destruct (Hcount f s1 eq_refl Hok) as (s2 & E & Hq2) end.
    exists tt, s2. split; [exact E|]. wp_step. wp_step. wp_step.
    apply wp_log; [apply cstring_lit; compute_done|intros ? [= <-]; apply el_error|]. intros t3.
    apply Hdrop; [apply cstring_lit; compute_done|done]. }
  wp_step. eapply wp_env; [apply el_init|]. intros rc t3 _. destruct (negb _).
  { wp_step. apply wp_log; [apply cstring_lit; compute_done|intros ? [= <-]; apply el_strerror|]. intros t4.
    apply Hdrop; [apply cstring_lit; compute_done|done]. }
  destruct (ao_id _ Hok) as [_ (ti & ri & Hti & Ei)]. rewrite Ei, fm_strlen_text by done. wp_step. wp_step.
  destruct (ao_status _ Hok) as [_ (tu & ru & Htu & Eu)]. rewrite Eu, fm_strlen_text by done. wp_step. wp_step.
  wp_step. eapply wp_env; [apply el_connect|]. intros rc2 t4 _. destruct (negb _).
  { wp_step. match goal with |- wp (count ?f) _ ?s1 => destruct (Hcount f s1 eq_refl Hok) as (s2 & E & Hq2) end.
    exists tt, s2. split; [exact E|]. wp_step.
    apply wp_log; [apply cstring_lit; compute_done|intros ? [= <-]; apply el_strerror|]. intros t5.
    apply Hdrop; [apply cstring_lit; compute_done|done]. }
  apply wp_online; [done|]. intros s' Hs' Hon. apply HQ; [done|by left].
Qed.

Lemma wp_service_publish s (Q : unit -> mq -> Prop) :
  arrays_ok (mg s) -> (forall s', quiet s s' -> Q tt s') -> wp service_publish Q s.
Proof.
  intros Hok HQ. unfold service_publish, getM. wp_step. wp_step. wp_step.
  assert (forall s1, quiet s s1 -> wp (t ← now_ms; s0 ← gets (fun s => sched (mg s));
    (if PTP_PERIOD_MS <=? u32 (t - last_ptp_ms s0) then
       let l := u32 (last_ptp_ms s0 + PTP_PERIOD_MS) in let l := if PTP_PERIOD_MS <=? u32 (t - l) then t else l in
       setM (fun g => set_sched (mkSched l (last_stats_ms (sched g))) g);; publish_ptp else mret tt);;
    s0 ← gets (fun s => sched (mg s));
    if STATS_PERIOD_MS <=? u32 (t - last_stats_ms s0) then
      setM (fun g => set_sched (mkSched (last_ptp_ms (sched g)) t) g);; publish_stats else mret tt) Q s1) as Hrest.
  { intros s1 Hq1. wp_step. apply wp_now. intros v t1 _. wp_step. wp_step. wp_step.
    assert (forall s2, quiet s s2 -> wp (s0 ← gets (fun s => sched (mg s));
      if STATS_PERIOD_MS <=? u32 (v - last_stats_ms s0) then
        setM (fun g => set_sched (mkSched (last_ptp_ms (sched g)) v) g);; publish_stats else mret tt) Q s2) as Hstats.
    { intros s2 Hq2. wp_step. wp_step. destruct (_ <=? _); [|wp_step; by apply HQ].
      wp_step. unfold setM. wp_step. destruct Hq2 as ([] & ? & ? & ?). apply wp_publish_stats; [by split|].
      intros s3 (? & ? & ? & ?) _. apply HQ. cbn in *. split_and!; [done|congruence..]. }
    destruct (_ <=? _); [|wp_step; by apply Hstats].
    cbn zeta. wp_step. unfold setM. wp_step. destruct Hq1 as ([] & ? & ? & ?). apply wp_publish_ptp; [by split|].
    intros s3 (? & ? & ? & ?) _. apply Hstats. cbn in *. split_and!; [done|congruence..]. }
  destruct (reply_pending (rep (mg s))); [|wp_step; by apply Hrest, quiet_refl].
  wp_step. unfold setM. wp_step. wp_step. wp_step.
  destruct (ao_reply _ Hok) as [_ (tr & rr & Htr & Er)]. rewrite Er, fm_strlen_text by done. wp_step. wp_step. wp_step.
  apply wp_publish; [apply (ao_treply _ Hok)|rewrite <- Er; destruct Hok; by split|].
  intros b s2 Hq2 _ _. wp_step. apply Hrest. destruct Hq2 as (? & ? & ? & ?). cbn in *. split_and!; [done|congruence..].
Qed.

(** ** The service loop *)

Lemma service_conn s :
  arrays_ok (mg s) -> 0 <= backoff_ms (conn (mg s)) <= 60000 ->
  exists s', flint_mqtt_service s = Some (tt, s') /\ stable s s' /\
    (let c := conn (mg s) in let c' := conn (mg s') in
     (c' = c \/ connected c = false /\ went_online c' \/ backed_off c c') /\
     (forall t e, inited (ident (mg s)) = true -> connected c = false -> env_ms (env s) = Some (t, e) ->
        i32 (u32 (t - next_attempt_ms c)) < 0 -> s' = mkMq (mg s) e)).
Proof.
  intros Hok Hb.
  set (P s' := stable s s' /\
    (conn (mg s') = conn (mg s) \/ connected (conn (mg s)) = false /\ went_online (conn (mg s')) \/ backed_off (conn (mg s)) (conn (mg s')))).
  enough (wp flint_mqtt_service (fun _ s' => P s' /\
    (forall t e, inited (ident (mg s)) = true -> connected (conn (mg s)) = false -> env_ms (env s) = Some (t, e) ->
        i32 (u32 (t - next_attempt_ms (conn (mg s)))) < 0 -> s' = mkMq (mg s) e)) s) as ([] & s' & E & [Hst Hc] & He) by (by exists s').
  assert (forall s1, mg s1 = mg s -> P s1) as Hsame by (intros s1 H1; unfold P, stable; rewrite H1; by split; [|left]).
  unfold flint_mqtt_service, getM. wp_step. wp_step. cbn [id]. destruct (inited (ident (mg s))); cbn [negb].
  2:{ wp_step. split; [by apply Hsame|done]. }
  wp_step. destruct (el_ms (env s)) as (t & e & Et & Ht). unfold now_ms, onE. wp_step. exists t, e. split; [exact Et|].
  assert (flint_mqtt_connected (mg s) = connected (conn (mg s))) as -> by done.
  destruct (connected (conn (mg s))) eqn:Ec; cbn [negb].
  - wp_step. eapply wp_env; [apply el_loop|]. intros [rc es] t1 Hes. cbn [fst snd] in *.
    wp_step. apply wp_events; [done|done|]. intros s1 Hq1. pose proof Hq1 as (Hok1 & Hi1 & Hc1 & Ht1).
    cbn [mg] in Hi1, Hc1, Ht1.
    assert (forall why, cstring why -> wp (Mqtt.drop why) (fun _ s' => P s' /\
      (forall t e, true = true -> true = false -> env_ms (env s) = Some (t, e) ->
        i32 (u32 (t - next_attempt_ms (conn (mg s)))) < 0 -> s' = mkMq (mg s) e)) s1) as Hdrop.
    { intros why Hw. apply wp_drop; [done|done|by rewrite Hc1|]. intros s2 Hs2 Hbo. split; [|done]. split.
      - eapply stable_trans; [|exact Hs2]. done.
      - right. right. by rewrite <- Hc1. }
    destruct (_ && _); [apply Hdrop, el_strerror|]. wp_step. wp_step.
    destruct (env_is_up (env s1)); cbn [negb].
    + apply wp_service_publish; [done|]. intros s2 Hq2. split; [|done]. pose proof (quiet_trans _ _ _ Hq1 Hq2) as Hq.
      split; [by apply quiet_stable|]. left. apply Hq.
    + wp_step. wp_step. apply Hdrop, el_error.
  - destruct (Z.leb_spec 0 (i32 (u32 (t - next_attempt_ms (conn (mg s)))))) as [Hdue|Hearly].
    + apply wp_connect; [done|done|]. intros s' Hs' Hc. split.
      * split; [done|]. right. cbn in Hc. destruct Hc as [Hon|Hoff]; [left; by split|by right].
      * intros t' e' _ _ Et' Hneg. rewrite Et in Et'. injection Et' as <- <-. lia.
    + wp_step. split; [by apply Hsame|]. intros t' e' _ _ Et' _. rewrite Et in Et'. by injection Et' as <- <-.
Qed.

(** Reconnection backs off: from every well-formed state, in every
    environment that behaves as documented, a service round returns; it never
    attempts to connect before the scheduled time (then only the clock was
    read), a successful attempt resets the back-off to 2 s, and every failed
    attempt or lost connection schedules the next attempt one back-off later and
    doubles the back-off up to 60 s; otherwise the connection state is unchanged. *)
Theorem mqtt_backs_off s :
  arrays_ok (mg s) -> 0 <= backoff_ms (conn (mg s)) <= 60000 ->
  exists s', flint_mqtt_service s = Some (tt, s') /\ stable s s' /\
    (let c := conn (mg s) in let c' := conn (mg s') in
     (c' = c \/ connected c = false /\ went_online c' \/ backed_off c c') /\
     (forall t e, inited (ident (mg s)) = true -> connected c = false -> env_ms (env s) = Some (t, e) ->
        i32 (u32 (t - next_attempt_ms c)) < 0 -> s' = mkMq (mg s) e)).
Proof. exact (service_conn s). Qed.

(** The state at boot: zeroed memory. *)
Definition mqtt_zero : FlintMqtt :=
  mkMqtt (mkIdent (replicate 32 0) (replicate 64 0) 0 false 0) (mkConn false 0 0) (mkSched 0 0)
    (mkTopics (replicate 64 0) (replicate 64 0) (replicate 64 0) (replicate 64 0) (replicate 64 0) (replicate 64 0))
    (mkReply false (replicate 1024 0) (replicate 1024 0)) (mkMStats 0 0 0 0).

Lemma make_topic_array i dst leaf :
  cstring i -> length dst = 64%nat -> is_text (chars leaf) -> exists d, make_topic i dst (lit leaf) = Some d /\ carray 64 d.
Proof.
  intros Hi Hd Hl. unfold make_topic. change TOPIC_MAX with (Z.of_nat 64).
  destruct (strlcpy_array (lit "flint/") dst 64) as (d1 & -> & H1); [apply cstring_lit; compute_done|lia|]. rewrite Hd in H1.
  destruct (strlcat_array i d1 64 Hi H1) as (d2 & E2 & H2). rewrite obind_some, E2, obind_some.
  destruct (strlcat_array (lit "/") d2 64) as (d3 & E3 & H3); [apply cstring_lit; compute_done|done|]. rewrite E3, obind_some.
  apply strlcat_array; [by apply cstring_lit|done].
Qed.

Lemma wp_init client host port s (Q : unit -> mq -> Prop) :
  cstring client -> cstring host -> arrays_ok (mg s) ->
  (forall s', arrays_ok (mg s') -> inited (ident (mg s')) = true -> connected (conn (mg s')) = false ->
     backoff_ms (conn (mg s')) = 2000 -> Q tt s') -> wp (flint_mqtt_init client host port) Q s.
Proof.
  intros Hc Hh Hok HQ. unfold flint_mqtt_init, getM. wp_step. wp_step. cbn [id]. destruct Hok as [A1 A2 A3 A4 A5 A6 A7 A8 A9 A10 A11].
  change ID_MAX with (Z.of_nat 32). change HOST_MAX with (Z.of_nat 64).
  destruct (strlcpy_array client (mid (ident (mg s))) 32 Hc) as (i & Ei & Hi); [rewrite (proj1 A1); lia|]. rewrite (proj1 A1) in Hi.
  destruct (strlcpy_array host (mhost (ident (mg s))) 64 Hh) as (h & Eh & Hho); [rewrite (proj1 A2); lia|]. rewrite (proj1 A2) in Hho.
  rewrite Ei. wp_step. wp_step. rewrite Eh. wp_step. wp_step. cbn zeta.
  destruct (make_topic_array i (t_status (topics (mg s))) "status" (proj2 Hi) (proj1 A5) ltac:(compute_done)) as (a & -> & Ha). wp_step. wp_step.
  destruct (make_topic_array i (t_ptp (topics (mg s))) "ptp" (proj2 Hi) (proj1 A6) ltac:(compute_done)) as (b & -> & Hb). wp_step. wp_step.
  destruct (make_topic_array i (t_stats (topics (mg s))) "stats" (proj2 Hi) (proj1 A7) ltac:(compute_done)) as (c & -> & Hc'). wp_step. wp_step.
  destruct (make_topic_array i (t_cmd (topics (mg s))) "cmd" (proj2 Hi) (proj1 A8) ltac:(compute_done)) as (d & -> & Hd). wp_step. wp_step.
  destruct (make_topic_array i (t_reply (topics (mg s))) "reply" (proj2 Hi) (proj1 A9) ltac:(compute_done)) as (e & -> & He). wp_step. wp_step.
  wp_step. apply wp_now. intros v1 t1 Hv1. wp_step. apply wp_now. intros v2 t2 _. unfold setM. wp_step. wp_step.
  apply wp_log; [apply cstring_lit; compute_done|intros ? [= <-]; apply Hi|]. intros t3. apply HQ; by try split.
Qed.

(** [n] service rounds. *)
Fixpoint serve (n : nat) : M mq unit := match n with O => mret tt | S n => flint_mqtt_service;; serve n end.

(** C26: The application never fails: from zeroed memory, initialised with any
    client id and host, it serves any number of rounds, whatever packets,
    commands, failures and reconnections happen in between, without an
    out-of-bounds access or an endless loop; every array stays terminated and
    the back-off stays between 2 s and 60 s. *)
Theorem mqtt_always_serves (n : nat) (client host : list Z) (port : Z) (e : T) :
  cstring client -> cstring host ->
  exists s, (flint_mqtt_init client host port;; serve n) (mkMq mqtt_zero e) = Some (tt, s) /\
    arrays_ok (mg s) /\ 2000 <= backoff_ms (conn (mg s)) <= 60000.
Proof.
  intros Hc Hh.
  assert (forall s, arrays_ok (mg s) -> 2000 <= backoff_ms (conn (mg s)) <= 60000 ->
    wp (serve n) (fun _ s' => arrays_ok (mg s') /\ 2000 <= backoff_ms (conn (mg s')) <= 60000) s) as Hs.
  { induction n as [|n IH]; intros s Hok Hb; cbn [serve]; [by wp_step|]. wp_step.
    destruct (service_conn s Hok ltac:(lia)) as (s' & E & Hst & Hcn & _). exists tt, s'. split; [exact E|].
    apply IH; [apply Hst|]. destruct Hcn as [->|[[_ [_ ->]]|(_ & -> & _)] ]; lia. }
  enough (wp (flint_mqtt_init client host port;; serve n) (fun _ s => arrays_ok (mg s) /\ 2000 <= backoff_ms (conn (mg s)) <= 60000)
    (mkMq mqtt_zero e)) as ([] & s & E & H1 & H2) by (by exists s).
  wp_step. apply wp_init; [done|done|by split; first [by apply (carray_zero 32); lia|by apply (carray_zero 64); lia|by apply (carray_zero 1024); lia|done]|].
  intros s Ha _ _ Hb. apply Hs; [done|lia].
Qed.

(** ** Replies *)

Lemma quoted_length c : (length (quoted c) <= 2 * length c + 2)%nat.
Proof.
  unfold quoted. cbn [length]. rewrite length_app. cbn [length].
  assert (length (c ≫= esc) <= 2 * length c)%nat; [|lia].
  induction c as [|x c IH]; [done|]. cbn [mbind list_bind length]. rewrite length_app. unfold esc at 1.
  repeat case_match; cbn [length]; lia.
Qed.
Lemma static_fits c k v :
  (length c <= 47)%nat -> static_reply c = Some (k, v) -> (length (text (simple_doc c (chars k) (chars v))) < 1024)%nat.
Proof.
  intros Hc Hs. pose proof (quoted_length c) as Hq.
  assert (length (text (simple_doc c (chars k) (chars v))) <= 20 + length (quoted c) + length (quoted (chars k)) + length (quoted (chars v)))%nat as Hl.
  { cbn [text simple_doc fmap list_fmap commas mbind list_bind ktext]. rewrite !length_app. cbn [length].
    rewrite !length_app. change (length (quoted (chars "cmd"))) with 5%nat. cbn [length]. lia. }
  unfold static_reply in Hs. repeat case_decide; simplify_eq;
    (eapply Nat.le_lt_trans; [exact Hl|]); match goal with |- (20 + _ + ?a + ?b < _)%nat => 
      let x := eval vm_compute in a in let y := eval vm_compute in b in change a with x; change b with y end; lia.
Qed.

(** Commands are answered: the payload, stripped of blanks and cut at 47
    characters, gets the reply object {cmd: the command, key: value} that the
    command table gives it (ping, help and unknown commands, among them led
    without an argument); the reply is complete and terminated in its array, is
    marked for publication, and the command is counted. *)
Theorem command_replies (p rest : list Z) (k v : string) s :
  is_text p -> arrays_ok (mg s) -> static_reply (command_of p) = Some (k, v) ->
  exists s', handle_command (p ++ rest) (Z.of_nat (length p)) s = Some (tt, s') /\
    reply_pending (rep (mg s')) = true /\ commands (mst (mg s')) = u32 (commands (mst (mg s)) + 1) /\
    reply (rep (mg s')) = blit (reply (rep (mg s))) 0 (text (simple_doc (command_of p) (chars k) (chars v)) ++ [0]) /\
    conn (mg s') = conn (mg s).
Proof.
  intros Hp Hok Hs.
  enough (wp (handle_command (p ++ rest) (Z.of_nat (length p))) (fun _ s' => reply_pending (rep (mg s')) = true /\
    commands (mst (mg s')) = u32 (commands (mst (mg s)) + 1) /\
    reply (rep (mg s')) = blit (reply (rep (mg s))) 0 (text (simple_doc (command_of p) (chars k) (chars v)) ++ [0]) /\
    conn (mg s') = conn (mg s)) s) as ([] & s' & E & H) by (by exists s').
  apply wp_command; [|done|].
  { eapply Forall_impl; [exact Hp|]. cbn. unfold is_byte, in_u. lia. }
  intros s' (_ & _ & Hc & _) Hpend Hcnt Hrep. split_and!; [done|done| |done].
  rewrite (Hrep k v Hp Hs). unfold kept. rewrite take_ge; [done|].
  pose proof (static_fits _ _ _ (command_of_length p) Hs). lia.
Qed.
End mqtt.

(** ** An environment: the clock counts its readings, every call succeeds, and
    each processing round delivers the command "ping" *)

Definition ping_event : mqtt_event :=
  mkEv 48 (Some (mkPub (chars "flint/dev/cmd") 13 (chars " ping ") 6 false)).
Definition demo_env : MqttEnv nat := {|
  env_ms n := Some (u32 (Z.of_nat n), S n);
  env_log _ n := Some (tt, n);
  env_ip n := Some (lit "10.0.0.2", n);
  env_led v n := Some (v, n);
  env_ptp_json _ _ n := Some ((0, replicate 1024 0), n);
  env_stats_json _ _ n := Some ((0, replicate 1024 0), n);
  env_open _ _ _ n := Some (0, n);
  env_close n := Some (tt, n);
  env_is_up _ := true;
  env_error _ := lit "none";
  MQTT_Init n := Some (0, n);
  MQTT_Connect _ _ _ n := Some (0, n);
  MQTT_Subscribe _ _ n := Some (0, n);
  MQTT_ProcessLoop n := Some ((0, [ping_event]), n);
  MQTT_Publish _ n := Some (0, n);
  MQTT_Status_strerror _ := lit "error" |}.
Lemma demo_laws : @MqttEnvLaws nat demo_env.
Proof.
  split; intros; try (eexists _, _; split; [reflexivity|done]); try (apply cstring_lit; compute_done).
  - eexists _, _. split; [reflexivity|]. apply wrapu_range. lia.
  - eexists _, _. split; [reflexivity|]. apply cstring_lit. compute_done.
  - eexists _, _. split; [reflexivity|]. by apply (carray_zero 1024); lia.
  - eexists _, _. split; [reflexivity|]. by apply (carray_zero 1024); lia.
  - eexists _, _. split; [reflexivity|]. repeat constructor; done.
Qed.

Lemma mqtt_always_serves_witness :
  exists s, (@flint_mqtt_init nat demo_env (lit "dev") (lit "broker") 1883;; @serve nat demo_env 3) (mkMq mqtt_zero 0%nat) = Some (tt, s) /\
    2000 <= backoff_ms (conn (mg s)) <= 60000 /\ published (mst (mg s)) = 3 /\ commands (mst (mg s)) = 2.
Proof.
  destruct (@mqtt_always_serves nat demo_env demo_laws 3 (lit "dev") (lit "broker") 1883 0%nat) as (s & E & _ & Hb);
    [apply cstring_lit; compute_done..|].
  exists s. split; [exact E|]. split; [exact Hb|]. vm_compute in E. injection E as <-. split; reflexivity.
Defined.

Lemma zero_arrays e : arrays_ok (mg (mkMq (T := nat) mqtt_zero e)).
Proof. by split; first [by apply (carray_zero 32); lia|by apply (carray_zero 64); lia|by apply (carray_zero 1024); lia|done]. Qed.
Lemma mqtt_backs_off_witness :
  exists s', @flint_mqtt_service nat demo_env (mkMq mqtt_zero 0%nat) = Some (tt, s') /\ conn (mg s') = conn mqtt_zero.
Proof.
  destruct (@mqtt_backs_off nat demo_env demo_laws (mkMq mqtt_zero 0%nat) (zero_arrays _)) as (s' & E & _ & _); [done|].
  exists s'. split; [exact E|]. by injection E as <-.
Defined.
Lemma command_replies_witness :
  exists s', @handle_command nat demo_env (chars " ping " ++ []) 6 (mkMq mqtt_zero 0%nat) = Some (tt, s') /\
    reply_pending (rep (mg s')) = true.
Proof.
  destruct (@command_replies nat demo_env demo_laws (chars " ping ") [] "reply" "pong" (mkMq mqtt_zero 0%nat)) as (s' & E & Hp & _);
    [compute_done|apply zero_arrays|by vm_compute|].
  exists s'. split; [exact E|exact Hp].
Defined.
