(* ===== verification/Mmio.v ===== *)
(** * Memory-mapped device registers (src/bsp/rpi4/rpi4.h)

    The bus: registers that read back what was last written ([regs]), the
    number of reads of the others so far, and every write in order.  A register
    outside [regs] returns what the device [Device] answers after the writes and
    the reads so far, so that any hardware behaviour is some device. *)

From S2P Require Import Prelude CInt.

(** [dev_read writes reads addr]. *)
Class Device := dev_read : list (Z * Z) -> nat -> Z -> Z.

Record bus := mkBus { regs : gmap Z Z; nreads : nat; trace : list (Z * Z) }.

Section mmio.
Context {D : Device}.

Definition mmio_read32 (addr : Z) : M bus Z :=
  r ← gets (fun b => regs b !! addr);
  match r with
  | Some v => mret v
  | None =>
      v ← gets (fun b => dev_read (trace b) (nreads b) addr);
      modify (fun b => mkBus (regs b) (S (nreads b)) (trace b));;
      mret (u32 v)
  end.
Definition mmio_write32 (addr value : Z) : M bus unit :=
  modify (fun b => mkBus (if decide (is_Some (regs b !! addr)) then <[addr := value]> (regs b) else regs b)
                     (nreads b) (trace b ++ [(addr, value)])).

Lemma mmio_read_reg a v b : regs b !! a = Some v -> mmio_read32 a b = Some (v, b).
Proof. intros H. unfold mmio_read32, mbind, M_bind, gets. by rewrite H. Qed.
Lemma mmio_read_dev a b :
  regs b !! a = None -> mmio_read32 a b = Some (u32 (dev_read (trace b) (nreads b) a), mkBus (regs b) (S (nreads b)) (trace b)).
Proof. intros H. unfold mmio_read32, mbind, M_bind, gets. by rewrite H. Qed.
(** A read never changes a register or writes. *)
Lemma mmio_read_ok a b : exists v b', mmio_read32 a b = Some (v, b') /\ regs b' = regs b /\ trace b' = trace b.
Proof.
  destruct (regs b !! a) as [v|] eqn:E; [exists v, b; by rewrite (mmio_read_reg a v)|].
  eexists _, _. by rewrite mmio_read_dev.
Qed.
Lemma mmio_write_reg a v b : is_Some (regs b !! a) -> mmio_write32 a v b = Some (tt, mkBus (<[a := v]> (regs b)) (nreads b) (trace b ++ [(a, v)])).
Proof. intros H. unfold mmio_write32, modify. by rewrite decide_True. Qed.
Lemma mmio_write_dev a v b : regs b !! a = None -> mmio_write32 a v b = Some (tt, mkBus (regs b) (nreads b) (trace b ++ [(a, v)])).
Proof. intros H. unfold mmio_write32, modify. rewrite decide_False; [done|]. rewrite H. by intros []. Qed.
End mmio.
