(* ===== verification/Uart.v ===== *)
(** * The console (src/bsp/rpi4/uart.c)

    Both UARTs of the board are driven.  The GIC priority mask is a register
    that reads back; the status registers are the device's.  The bounded waits
    carry their bound as fuel.  A variadic call takes its arguments with the
    types they are passed at. *)

From S2P Require Import Prelude CInt Decimal CStr Mmio.

Definition GPFSEL1 : Z := 0xFE200004.
Definition UART0_DR : Z := 0xFE201000.
Definition UART0_FR : Z := 0xFE201018.
Definition UART0_IBRD : Z := 0xFE201024.
Definition UART0_FBRD : Z := 0xFE201028.
Definition UART0_LCRH : Z := 0xFE20102C.
Definition UART0_CR : Z := 0xFE201030.
Definition UART0_ICR : Z := 0xFE201044.
Definition UART0_FR_TXFF : Z := 32.
Definition AUX_ENABLES : Z := 0xFE215004.
Definition AUX_MU_IO : Z := 0xFE215040.
Definition AUX_MU_LSR : Z := 0xFE215054.
Definition AUX_MU_LSR_TXRDY : Z := 32.
Definition GIC_PRIO_KERNEL : Z := 160.
Definition GICC_PMR_REG : Z := 0xFF842004.
Definition DBG_SPIN_MAX : Z := 262144.

(** An argument of [uart_printf]. *)
Inductive uart_arg := UaInt (v : Z) | UaUint (v : Z) | UaPtr (v : Z) | UaStr (s : list Z).

Section uart.
Context {D : Device}.

Definition uart_lock : M bus Z :=
  old ← mmio_read32 GICC_PMR_REG;
  (if GIC_PRIO_KERNEL <? old then mmio_write32 GICC_PMR_REG GIC_PRIO_KERNEL else mret tt);;
  mret old.
Definition uart_unlock (old : Z) : M bus unit := mmio_write32 GICC_PMR_REG (u32 old).

(** [for (g = 0; (g < DBG_SPIN_MAX) && busy(reg); g++) {}], with the rounds to go. *)
Fixpoint spin (rounds : nat) (reg : Z) (busy : Z -> bool) : M bus unit :=
  match rounds with
  | O => mret tt
  | S rounds => v ← mmio_read32 reg; if busy v then spin rounds reg busy else mret tt
  end.
Definition dbg_putc (c : Z) : M bus unit :=
  spin (Z.to_nat DBG_SPIN_MAX) UART0_FR (fun v => negb (Z.land v UART0_FR_TXFF =? 0));;
  mmio_write32 UART0_DR (u8 c);;
  spin (Z.to_nat DBG_SPIN_MAX) AUX_MU_LSR (fun v => Z.land v AUX_MU_LSR_TXRDY =? 0);;
  mmio_write32 AUX_MU_IO (u8 c).

(** The loop of [dbg_puts] and [uart_puts] over a string. *)
Fixpoint puts_loop (putc : Z -> M bus unit) (s : list Z) : M bus unit :=
  match s with
  | [] => fails
  | c :: s =>
      if negb (c =? 0) then (if c =? 10 then putc 13 else mret tt);; putc c;; puts_loop putc s
      else mret tt
  end.
Definition dbg_puts (s : list Z) : M bus unit := daif ← uart_lock; puts_loop dbg_putc s;; uart_unlock daif.

(** [for (i = 60; i >= 0; i -= 4)], with [i = 4 * k - 4]. *)
Fixpoint hex_digits (v : Z) (k : nat) : M bus unit :=
  match k with
  | O => mret tt
  | S k =>
      c ← of_opt (rdb (lit "0123456789abcdef") (Z.land (Z.shiftr v (4 * Z.of_nat k)) 15));
      dbg_putc c;; hex_digits v k
  end.
Definition dbg_hex (v : Z) : M bus unit := dbg_putc 48;; dbg_putc 120;; hex_digits v 16.

Definition uart_init : M bus unit :=
  dbg_puts (chars "[uart] init: leaving firmware GPIO routing intact" ++ [10; 0]);;
  dbg_puts (lit "[uart]   GPFSEL1=");; v ← mmio_read32 GPFSEL1; dbg_hex v;;
  dbg_puts (lit " AUX_ENABLES=");; v ← mmio_read32 AUX_ENABLES; dbg_hex v;;
  dbg_puts (lit " UART0_CR=");; v ← mmio_read32 UART0_CR; dbg_hex v;;
  dbg_puts [10; 0];;
  mmio_write32 UART0_CR 0;;
  mmio_write32 UART0_ICR 2047;;
  mmio_write32 UART0_IBRD 26;;
  mmio_write32 UART0_FBRD 3;;
  mmio_write32 UART0_LCRH 112;;
  mmio_write32 UART0_CR 769;;
  dbg_puts (chars "[uart] init done" ++ [10; 0]).

Definition uart_putc (c : Z) : M bus unit := dbg_putc c.
Definition uart_puts (s : list Z) : M bus unit := daif ← uart_lock; puts_loop uart_putc s;; uart_unlock daif.

(** [while ((v != 0) && (i < sizeof(buf))) { buf[i] = digits[v % base]; v /= base; i++; }]. *)
Fixpoint uint_digits (fuel : nat) (buf : list Z) (v base : Z) (digits : list Z) : option (list Z) :=
  match fuel with
  | O => Some buf
  | S fuel =>
      if negb (v =? 0) && (Z.of_nat (length buf) <? 24)
      then c ← rdb digits (v mod base); uint_digits fuel (buf ++ [c]) (v / base) base digits
      else Some buf
  end.
(** [while (i > 0) { i--; uart_putc(buf[i]); }]. *)
Fixpoint put_all (rev_buf : list Z) : M bus unit :=
  match rev_buf with [] => mret tt | c :: rest => uart_putc c;; put_all rest end.
Definition uart_put_uint (v base : Z) (upper : bool) : M bus unit :=
  let digits := if upper then lit "0123456789ABCDEF" else lit "0123456789abcdef" in
  if v =? 0 then uart_putc 48
  else buf ← of_opt (uint_digits 24 [] v base digits); put_all (reverse buf).
Definition uart_put_int (v : Z) : M bus unit :=
  if v <? 0 then
    uart_putc 45;;
    t ← of_opt (s64 (v + 1)); t ← of_opt (s64 (- t)); uart_put_uint (u64 (t + 1)) 10 false
  else uart_put_uint (u64 v) 10 false.

(** One conversion, with the arguments left. *)
Definition uart_convert (c : Z) (ap : list uart_arg) : M bus (list uart_arg) :=
  if c =? 99 then match ap with UaInt v :: ap => uart_putc (u8 v);; mret ap | _ => fails end
  else if c =? 115 then match ap with UaStr s :: ap => uart_puts s;; mret ap | _ => fails end
  else if c =? 100 then match ap with UaInt v :: ap => uart_put_int v;; mret ap | _ => fails end
  else if c =? 117 then match ap with UaUint v :: ap => uart_put_uint v 10 false;; mret ap | _ => fails end
  else if c =? 120 then match ap with UaUint v :: ap => uart_put_uint v 16 false;; mret ap | _ => fails end
  else if c =? 112 then
    match ap with UaPtr v :: ap => uart_puts (lit "0x");; uart_put_uint v 16 false;; mret ap | _ => fails end
  else if c =? 37 then uart_putc 37;; mret ap
  else uart_putc 37;; uart_putc c;; mret ap.

(** The loop over the format. *)
Fixpoint printf_loop (fmt : list Z) (spec : bool) (ap : list uart_arg) : M bus unit :=
  match fmt with
  | [] => fails
  | c :: fmt =>
      if c =? 0 then mret tt
      else if spec then ap ← uart_convert c ap; printf_loop fmt false ap
      else if negb (c =? 37) then
        (if c =? 10 then uart_putc 13 else mret tt);; uart_putc c;; printf_loop fmt false ap
      else printf_loop fmt true ap
  end.
Definition uart_printf (fmt : list Z) (ap : list uart_arg) : M bus unit :=
  daif ← uart_lock; printf_loop fmt false ap;; uart_unlock daif.

End uart.
