(* ===== verification/UartProps.v ===== *)
(** * The console prints whole messages (properties of Uart)

    A call that prints sends its text to both UARTs, byte for byte and in
    order, with the kernel's interrupts masked from the first byte to the last,
    and leaves the priority mask as it found it, whatever the status registers
    say and with a bounded number of polls. *)

From S2P Require Import Prelude CInt Decimal CStr LwipLibc Mmio Uart.

(** ** What a trace of register writes shows *)

(** The bytes written to a data register. *)
Definition sent (reg : Z) (w : list (Z * Z)) : list Z := (filter (fun x => x.1 = reg) w).*2.
(** The priority mask after a run of writes, if every byte of it was sent with
    the kernel's interrupts masked. *)
Fixpoint masked_run (pmr : Z) (w : list (Z * Z)) : option Z :=
  match w with
  | [] => Some pmr
  | (a, v) :: w =>
      if a =? GICC_PMR_REG then masked_run v w
      else if (a =? UART0_DR) || (a =? AUX_MU_IO) then if pmr <=? GIC_PRIO_KERNEL then masked_run pmr w else None
      else masked_run pmr w
  end.

Lemma sent_app reg w w' : sent reg (w ++ w') = sent reg w ++ sent reg w'.
Proof. unfold sent. by rewrite filter_app, fmap_app. Qed.
Lemma masked_run_app p w w' : masked_run p (w ++ w') = p' ← masked_run p w; masked_run p' w'.
Proof. revert p. induction w as [|[a v] w IH]; intros p; [done|]. cbn [app masked_run]. repeat case_match; by rewrite ?IH. Qed.

(** The priority mask is a register at [pmr]; the other registers the console
    uses are the device's. *)
Definition console (pmr : Z) (b : bus) : Prop :=
  in_u 32 pmr /\ regs b !! GICC_PMR_REG = Some pmr /\
  Forall (fun a => regs b !! a = None) [UART0_DR; UART0_FR; AUX_MU_IO; AUX_MU_LSR].

(** [c] prints the text [t]: the registers are as before, both UARTs got [t]
    under the mask, and it took at most [DBG_SPIN_MAX] polls of each per byte. *)
Definition emits {A} (pmr : Z) (c : M bus A) (a : A) (t : list Z) : Prop :=
  forall b, console pmr b -> exists b' w,
    c b = Some (a, b') /\ regs b' = regs b /\ trace b' = trace b ++ w /\
    sent UART0_DR w = t /\ sent AUX_MU_IO w = t /\ masked_run pmr w = Some pmr /\
    Z.of_nat (nreads b) <= Z.of_nat (nreads b') <= Z.of_nat (nreads b) + 2 * DBG_SPIN_MAX * Z.of_nat (length t).

(** ** What a format prints *)

Definition crlf (c : Z) : list Z := if c =? 10 then [13; 10] else [c].
Definition uart_text (c : Z) (ap : list uart_arg) : option (list Z * list uart_arg) :=
  if c =? 99 then match ap with UaInt v :: ap => Some ([u8 v], ap) | _ => None end
  else if c =? 115 then match ap with UaStr s :: ap => Some (upto0 s ≫= crlf, ap) | _ => None end
  else if c =? 100 then match ap with UaInt v :: ap => Some (signed_numeral v, ap) | _ => None end
  else if c =? 117 then match ap with UaUint v :: ap => Some (numeral 10 v, ap) | _ => None end
  else if c =? 120 then match ap with UaUint v :: ap => Some (numeral 16 v, ap) | _ => None end
  else if c =? 112 then match ap with UaPtr v :: ap => Some (chars "0x" ++ numeral 16 v, ap) | _ => None end
  else if c =? 37 then Some ([37], ap) else Some ([37; c], ap).
Fixpoint uart_render (spec : bool) (fmt : list Z) (ap : list uart_arg) : option (list Z) :=
  match fmt with
  | [] => Some []
  | c :: fmt =>
      if spec then '(s, ap) ← uart_text c ap; t ← uart_render false fmt ap; Some (s ++ t)
      else if c =? 37 then uart_render true fmt ap
      else t ← uart_render false fmt ap; Some (crlf c ++ t)
  end.
(** Arguments of the C types. *)
Definition uart_arg_ok (a : uart_arg) : Prop :=
  match a with
  | UaInt v => in_s 32 v
  | UaUint v => in_u 32 v
  | UaPtr v => in_u 64 v
  | UaStr s => bytes s /\ 0 ∈ s
  end.
#[global] Instance uart_arg_ok_dec a : Decision (uart_arg_ok a).
Proof. destruct a; cbn; unfold bytes, is_byte; apply _. Defined.

Section uart_props.
Context {D : Device}.
Implicit Types b : bus.

Lemma bind_assoc {A B C} (c : M bus A) (f : A -> M bus B) (g : B -> M bus C) b :
  ((c ≫= f) ≫= g) b = (c ≫= fun a => f a ≫= g) b.
Proof. unfold mbind, M_bind. by destruct (c b) as [[]|]. Qed.

Lemma emits_ret {A} pmr (a : A) : emits pmr (mret a) a [].
Proof. intros b Hb. exists b, []. rewrite app_nil_r. cbn [length]. repeat split; lia. Qed.
Lemma emits_seq {A B} pmr (c : M bus A) (k : A -> M bus B) a a' t t' :
  emits pmr c a t -> emits pmr (k a) a' t' -> emits pmr (c ≫= k) a' (t ++ t').
Proof.
  intros Hc Hk b Hb. destruct (Hc b Hb) as (b1 & w1 & E1 & R1 & T1 & S1 & U1 & M1 & N1).
  destruct (Hk b1) as (b2 & w2 & E2 & R2 & T2 & S2 & U2 & M2 & N2); [by unfold console in *; rewrite R1|].
  exists b2, (w1 ++ w2). rewrite (bind_eq _ _ _ _ _ E1), !sent_app, masked_run_app, M1, T2, T1, app_assoc, length_app.
  repeat split; try congruence; cbn; [done|lia|lia].
Qed.
Lemma emits_opt {A B} pmr (o : option A) (x : A) (k : A -> M bus B) a t :
  o = Some x -> emits pmr (k x) a t -> emits pmr (of_opt o ≫= k) a t.
Proof. intros -> Hk. apply (emits_seq pmr _ _ x a [] t); [|done]. exact (emits_ret pmr x). Qed.

(** A wait polls at most its bound and writes nothing. *)
Lemma spin_ok rounds reg busy b :
  regs b !! reg = None ->
  exists n, spin rounds reg busy b = Some (tt, mkBus (regs b) (nreads b + n) (trace b)) /\ (n <= rounds)%nat.
Proof.
  revert b. induction rounds as [|rounds IH]; intros b Hb; cbn [spin].
  - exists 0%nat. rewrite Nat.add_0_r. by destruct b.
  - rewrite (bind_eq _ _ _ _ _ (mmio_read_dev reg b Hb)). case_match.
    + destruct (IH (mkBus (regs b) (S (nreads b)) (trace b)) Hb) as (n & -> & Hn). exists (S n). split; [|lia].
      cbn [regs nreads trace]. by rewrite Nat.add_succ_r.
    + exists 1%nat. split; [|lia]. unfold mret, M_ret. by rewrite Nat.add_1_r.
Qed.
Lemma emits_putc pmr c : pmr <= GIC_PRIO_KERNEL -> emits pmr (dbg_putc c) tt [u8 c].
Proof.
  intros Hp b (Hw & Hr & Hd). rewrite !Forall_cons in Hd. destruct Hd as (H1 & H2 & H3 & H4 & _). unfold dbg_putc.
  assert (Z.of_nat (Z.to_nat DBG_SPIN_MAX) = DBG_SPIN_MAX) as Hmax by (apply Z2Nat.id; done).
  generalize dependent (Z.to_nat DBG_SPIN_MAX). intros m Hmax.
  destruct (spin_ok m UART0_FR (fun v => negb (Z.land v UART0_FR_TXFF =? 0)) b H2) as (n1 & E1 & Hn1).
  rewrite (bind_eq _ _ _ _ _ E1). cbn beta. erewrite bind_eq by (by apply mmio_write_dev). cbn [regs nreads trace].
  edestruct (spin_ok m AUX_MU_LSR) as (n2 & E2 & Hn2); [|rewrite (bind_eq _ _ _ _ _ E2)]; [done|]. cbn [regs nreads trace].
  rewrite mmio_write_dev by done. cbn [regs nreads trace].
  eexists _, [(UART0_DR, u8 c); (AUX_MU_IO, u8 c)]. split; [done|]. cbn [regs nreads trace].
  rewrite <- app_assoc. cbn [masked_run]. rewrite (proj2 (Z.leb_le _ _) Hp). repeat split; cbn [length]; lia.
Qed.

(** Printing between the lock and the unlock is printing under the mask. *)
Lemma emits_locked pmr (c : M bus unit) t :
  emits (Z.min pmr GIC_PRIO_KERNEL) c tt t -> emits pmr (daif ← uart_lock; c;; uart_unlock daif) tt t.
Proof.
  intros Hc b (Hw & Hr & Hd). unfold uart_lock.
  assert (forall b1 w1, regs b1 = <[GICC_PMR_REG := Z.min pmr GIC_PRIO_KERNEL]> (regs b) -> nreads b1 = nreads b ->
    trace b1 = trace b ++ w1 -> sent UART0_DR w1 = [] -> sent AUX_MU_IO w1 = [] ->
    masked_run pmr w1 = Some (Z.min pmr GIC_PRIO_KERNEL) -> exists b' w,
    (c;; uart_unlock pmr) b1 = Some (tt, b') /\ regs b' = regs b /\ trace b' = trace b ++ w /\
    sent UART0_DR w = t /\ sent AUX_MU_IO w = t /\ masked_run pmr w = Some pmr /\
    Z.of_nat (nreads b) <= Z.of_nat (nreads b') <= Z.of_nat (nreads b) + 2 * DBG_SPIN_MAX * Z.of_nat (length t)) as Hrest.
  { intros b1 w1 R1 N1 T1 S1 U1 M1. destruct (Hc b1) as (b2 & w2 & E2 & R2 & T2 & S2 & U2 & M2 & N2).
    { split; [unfold in_u in *; change (2 ^ 32) with 4294967296 in *; unfold GIC_PRIO_KERNEL in *; lia|].
      split; [by rewrite R1, lookup_insert_eq|]. rewrite R1. rewrite !Forall_cons in *.
      by destruct Hd as (? & ? & ? & ? & _); rewrite !lookup_insert_ne. }
    rewrite (bind_eq _ _ _ _ _ E2). unfold uart_unlock. rewrite mmio_write_reg by (rewrite R2, R1, lookup_insert_eq; eauto).
    rewrite (wrapu_small 32 pmr Hw). eexists _, (w1 ++ w2 ++ [(GICC_PMR_REG, pmr)]). split; [done|]. cbn [regs nreads trace].
    rewrite R2, R1, insert_insert_eq, insert_id by done. rewrite !sent_app, S1, U1, S2, U2, !masked_run_app, M1.
    cbn [mbind option_bind]. rewrite masked_run_app, M2. cbn [mbind option_bind masked_run].
    rewrite T2, T1, <- !app_assoc. repeat split; rewrite ?app_nil_r; try done; lia. }
  rewrite (bind_eq (mmio_read32 GICC_PMR_REG ≫= _) _ b pmr
    (mkBus (<[GICC_PMR_REG := Z.min pmr GIC_PRIO_KERNEL]> (regs b)) (nreads b)
      (trace b ++ if GIC_PRIO_KERNEL <? pmr then [(GICC_PMR_REG, GIC_PRIO_KERNEL)] else []))).
  - apply Hrest with (if GIC_PRIO_KERNEL <? pmr then [(GICC_PMR_REG, GIC_PRIO_KERNEL)] else []); try done.
    + by case_match.
    + by case_match.
    + destruct (Z.ltb_spec GIC_PRIO_KERNEL pmr); cbn; f_equal; lia.
  - rewrite (bind_eq _ _ _ _ _ (mmio_read_reg _ _ b Hr)). destruct (Z.ltb_spec GIC_PRIO_KERNEL pmr).
    + rewrite (bind_eq _ _ _ _ _ (mmio_write_reg _ _ b ltac:(by rewrite Hr))). by rewrite Z.min_r by lia.
    + rewrite Z.min_l, insert_id, app_nil_r by (done || lia). by destruct b.
Qed.

Lemma text_u8 t : bytes t -> u8 <$> t = t.
Proof. intros Ht. induction Ht as [|c t Hc _ IH]; [done|]. cbn. rewrite IH. f_equal. by apply wrapu_small. Qed.

Section masked.
Context (pmr : Z) (Hpmr : pmr <= GIC_PRIO_KERNEL).

Lemma emits_char c : is_byte c -> emits pmr (uart_putc c) tt [c].
Proof. intros Hc. pose proof (emits_putc pmr c Hpmr) as H. by rewrite (wrapu_small 8 c Hc) in H. Qed.
Lemma emits_crlf c : is_byte c -> emits pmr ((if c =? 10 then uart_putc 13 else mret tt);; uart_putc c) tt (crlf c).
Proof.
  intros Hc. unfold crlf. destruct (Z.eqb_spec c 10) as [->|].
  - apply (emits_seq pmr _ _ tt tt [13] [10]); by apply emits_char.
  - apply (emits_seq pmr _ _ tt tt [] [c]); [apply emits_ret|by apply emits_char].
Qed.
(** A character before the rest of a message. *)
Lemma emits_crlf_then {A} c (k : M bus A) a t :
  is_byte c -> emits pmr k a t ->
  emits pmr ((if c =? 10 then uart_putc 13 else mret tt);; uart_putc c;; k) a (crlf c ++ t).
Proof.
  intros Hc Hk b Hb. destruct (emits_seq pmr _ (fun _ => k) tt a _ t (emits_crlf c Hc) Hk b Hb) as (b' & w & E & H).
  exists b', w. split; [|done]. by rewrite <- E, bind_assoc.
Qed.
Lemma emits_string s : bytes s -> 0 ∈ s -> emits pmr (puts_loop uart_putc s) tt (upto0 s ≫= crlf).
Proof.
  induction s as [|c s IH]; intros Hs H0; [set_solver|]. apply Forall_cons in Hs as [Hc Hs]. cbn [puts_loop upto0].
  destruct (Z.eqb_spec c 0) as [->|Hn]; cbn [negb]; [apply emits_ret|]. cbn [mbind list_bind].
  apply emits_crlf_then; [done|]. apply IH; [done|]. set_solver.
Qed.
Lemma emits_all l : bytes l -> emits pmr (put_all l) tt l.
Proof.
  induction 1 as [|c l Hc _ IH]; [apply emits_ret|]. cbn [put_all].
  by apply (emits_seq pmr _ _ tt tt [c] l); [apply emits_char|].
Qed.

Lemma uint_digits_num fuel buf v base :
  uint_digits fuel buf v base (lit "0123456789abcdef") = num_digits fuel buf v base.
Proof. revert buf v. induction fuel as [|fuel IH]; intros buf v; [done|]. cbn [uint_digits num_digits]. case_match; [|done]. by destruct (rdb _ _); cbn. Qed.
Lemma numeral_bytes base v : 1 < base <= 16 -> bytes (numeral base v).
Proof. intros Hb. eapply Forall_impl; [by apply numeral_chars|]. cbn. unfold is_byte, in_u. intros x Hx. change (2 ^ 8) with 256. lia. Qed.
Lemma emits_uint v base : base = 10 \/ base = 16 -> in_u 64 v -> emits pmr (uart_put_uint v base false) tt (numeral base v).
Proof.
  intros Hb Hv. unfold uart_put_uint. destruct (Z.eqb_spec v 0) as [->|Hz].
  - replace (numeral base 0) with [48] by (destruct Hb as [-> | ->]; by vm_compute). by apply emits_char.
  - apply emits_opt with (reverse (numeral base v)); [by rewrite uint_digits_num, num_digits_numeral|].
    rewrite reverse_involutive. apply emits_all, numeral_bytes. lia.
Qed.
Lemma emits_int v : in_s 64 v -> emits pmr (uart_put_int v) tt (signed_numeral v).
Proof.
  unfold in_s. change (2 ^ (64 - 1)) with 9223372036854775808. intros Hv. unfold uart_put_int, signed_numeral.
  destruct (Z.ltb_spec v 0).
  - apply (emits_seq pmr _ _ tt tt [45]); [by apply emits_char|].
    apply emits_opt with (v + 1); [apply s64_ok; lia|]. apply emits_opt with (- (v + 1)); [apply s64_ok; lia|].
    rewrite u64_ok by lia. replace (- (v + 1) + 1) with (- v) by lia.
    apply emits_uint; [by left|]. unfold in_u. change (2 ^ 64) with 18446744073709551616. lia.
  - rewrite u64_ok by lia. apply emits_uint; [by left|]. unfold in_u. change (2 ^ 64) with 18446744073709551616. lia.
Qed.
End masked.

(** A whole string, at any priority mask. *)
Lemma emits_puts pmr s : bytes s -> 0 ∈ s -> emits pmr (uart_puts s) tt (upto0 s ≫= crlf).
Proof. intros Hs H0. apply emits_locked. apply emits_string; [lia|done|done]. Qed.

Lemma in_u_32_64 v : in_u 32 v -> in_u 64 v.
Proof. unfold in_u. change (2 ^ 32) with 4294967296. change (2 ^ 64) with 18446744073709551616. lia. Qed.
Lemma in_s_32_64 v : in_s 32 v -> in_s 64 v.
Proof. unfold in_s. change (2 ^ (32 - 1)) with 2147483648. change (2 ^ (64 - 1)) with 9223372036854775808. lia. Qed.

(** Prints, then hands the remaining arguments on. *)
Lemma emits_then_ret {A} pmr (c : M bus unit) (a : A) t : emits pmr c tt t -> emits pmr (c;; mret a) a t.
Proof. intros Hc. rewrite <- (app_nil_r t). apply (emits_seq pmr _ _ tt); [done|]. apply emits_ret. Qed.

Lemma emits_convert pmr c ap s ap' :
  pmr <= GIC_PRIO_KERNEL -> is_byte c -> Forall uart_arg_ok ap -> uart_text c ap = Some (s, ap') ->
  emits pmr (uart_convert c ap) ap' s /\ Forall uart_arg_ok ap'.
Proof.
  intros Hp Hc Hok Ht. unfold uart_text in Ht. unfold uart_convert. repeat (case_match; try done); simplify_eq.
  all: try (apply Forall_cons in Hok as [Ha Hok]; cbn in Ha); split; [|done].
  - apply emits_then_ret, emits_char; [done|]. by apply wrapu_range.
  - by apply emits_then_ret, emits_puts; destruct Ha.
  - by apply emits_then_ret, emits_int, in_s_32_64.
  - apply emits_then_ret, emits_uint; auto using in_u_32_64.
  - apply emits_then_ret, emits_uint; auto using in_u_32_64.
  - apply (emits_seq pmr _ _ tt _ (chars "0x")); [apply (emits_puts pmr (lit "0x")); [compute_done|set_solver]|].
    apply emits_then_ret, emits_uint; auto.
  - by apply emits_then_ret, emits_char.
  - apply (emits_seq pmr _ _ tt _ [37]); [by apply emits_char|]. by apply emits_then_ret, emits_char.
Qed.

Lemma emits_printf_loop pmr fmt rest spec ap t :
  pmr <= GIC_PRIO_KERNEL -> is_text fmt -> Forall uart_arg_ok ap -> uart_render spec fmt ap = Some t ->
  emits pmr (printf_loop (fmt ++ 0 :: rest) spec ap) tt t.
Proof.
  intros Hp. revert spec ap t. induction fmt as [|c fmt IH]; intros spec ap t Hf Hok Ht.
  - injection Ht as <-. apply emits_ret.
  - apply is_text_cons in Hf as [Hc Hf]. cbn [app printf_loop uart_render] in *.
    rewrite (proj2 (Z.eqb_neq c 0)) by lia. assert (is_byte c) by (unfold is_byte, in_u; change (2 ^ 8) with 256; lia).
    destruct spec.
    + destruct (uart_text c ap) as [[s ap']|] eqn:Es; [|done]. cbn in Ht.
      destruct (uart_render false fmt ap') as [t'|] eqn:Er; [|done]. injection Ht as <-.
      destruct (emits_convert pmr c ap s ap' Hp) as [Hs Hok']; try done.
      apply (emits_seq pmr _ _ ap' tt); [done|by apply IH].
    + destruct (Z.eqb_spec c 37); cbn [negb]; [by apply IH|].
      destruct (uart_render false fmt ap) as [t'|] eqn:Er; [|done]. injection Ht as <-.
      apply emits_crlf_then; [done|done|]. by apply IH.
Qed.

Lemma emits_printf pmr fmt rest ap t :
  is_text fmt -> Forall uart_arg_ok ap -> uart_render false fmt ap = Some t -> emits pmr (uart_printf (fmt ++ 0 :: rest) ap) tt t.
Proof. intros Hf Hok Ht. apply emits_locked, emits_printf_loop; [lia|done..]. Qed.

(** C31: Console messages are whole and the console never hangs: for a format and
    arguments of the matching types, uart_printf returns, sends exactly the
    formatted text (line feeds as carriage return and line feed) to both UARTs
    with the priority mask at or below the kernel's from the first byte to the
    last, restores the mask it found, and polls each status register at most
    DBG_SPIN_MAX times per byte, whatever the registers return. *)
Theorem uart_printf_prints (pmr : Z) (fmt rest t : list Z) (ap : list uart_arg) (b : bus) :
  console pmr b -> is_text fmt -> Forall uart_arg_ok ap -> uart_render false fmt ap = Some t ->
  exists b' w, uart_printf (fmt ++ 0 :: rest) ap b = Some (tt, b') /\ regs b' = regs b /\ trace b' = trace b ++ w /\
    sent UART0_DR w = t /\ sent AUX_MU_IO w = t /\ masked_run pmr w = Some pmr /\
    Z.of_nat (nreads b) <= Z.of_nat (nreads b') <= Z.of_nat (nreads b) + 2 * DBG_SPIN_MAX * Z.of_nat (length t).
Proof.
  intros Hb Hf Hok Ht. by apply (emits_printf pmr).
Qed.
End uart_props.

(** A board whose PL011 is always busy and whose mini-UART is absent. *)
#[local] Instance dead_uarts : Device := fun _ _ a => if a =? UART0_FR then UART0_FR_TXFF else 0.

Lemma uart_printf_prints_witness :
  exists b' w, uart_printf (chars "t=%d %s" ++ 0 :: []) [UaInt (-5); UaStr [104; 10; 0]] (mkBus {[GICC_PMR_REG := 240]} 0 []) = Some (tt, b') /\
    trace b' = w /\ sent UART0_DR w = chars "t=-5 h" ++ [13; 10] /\ masked_run 240 w = Some 240.
Proof.
  destruct (uart_printf_prints 240 (chars "t=%d %s") [] (chars "t=-5 h" ++ [13; 10]) [UaInt (-5); UaStr [104; 10; 0]]
    (mkBus {[GICC_PMR_REG := 240]} 0 [])) as (b' & w & E & _ & T & S & _ & W & _).
  - split; [done|]. split; [done|]. repeat constructor; done.
  - compute_done.
  - compute_done.
  - vm_compute. reflexivity.
  - exists b', w. split; [exact E|]. split; [exact T|]. split; [exact S|exact W].
Defined.
