(* ===== verification/Mailbox.v ===== *)
(** * The VideoCore property mailbox (src/bsp/rpi4/mailbox.c)

    The request buffer [s_mbox] is volatile memory the GPU writes, so its words
    are locations of the bus like the mailbox registers; its address is a
    parameter.  An output parameter of a function is the value it stored, if
    any. *)

From S2P Require Import Prelude CInt Mmio.

Definition MBOX_READ : Z := 0xFE00B880.
Definition MBOX_STATUS : Z := 0xFE00B898.
Definition MBOX_WRITE : Z := 0xFE00B8A0.
Definition MBOX_FULL : Z := 0x80000000.
Definition MBOX_EMPTY : Z := 0x40000000.
Definition MBOX_CH_PROP : Z := 8.
Definition MBOX_REQUEST : Z := 0.
Definition MBOX_RESPONSE_OK : Z := 0x80000000.
Definition MBOX_SPIN : Z := 2000000.
Definition TAG_GET_MAC : Z := 0x00010003.
Definition TAG_GET_SERIAL : Z := 0x00010004.
Definition TAG_END : Z := 0.

Section mailbox.
Context {D : Device} (s_mbox : Z).

(** [s_mbox[i]]; undefined outside its 16 words. *)
Definition mbox_ld (i : Z) : M bus Z := if (0 <=? i) && (i <? 16) then mmio_read32 (s_mbox + 4 * i) else fails.
Definition mbox_st (i v : Z) : M bus unit := if (0 <=? i) && (i <? 16) then mmio_write32 (s_mbox + 4 * i) v else fails.

(** The wait for a free slot, with the rounds to go; whether [i < MBOX_SPIN] after it. *)
Fixpoint wait_room (rounds : nat) : M bus bool :=
  match rounds with
  | O => mret false
  | S rounds => v ← mmio_read32 MBOX_STATUS; if negb (Z.land v MBOX_FULL =? 0) then wait_room rounds else mret true
  end.
Fixpoint wait_reply (rounds : nat) (msg : Z) : M bus bool :=
  match rounds with
  | O => mret false
  | S rounds =>
      v ← mmio_read32 MBOX_STATUS;
      if Z.land v MBOX_EMPTY =? 0 then
        r ← mmio_read32 MBOX_READ;
        if r =? msg then w ← mbox_ld 1; mret (w =? MBOX_RESPONSE_OK) else wait_reply rounds msg
      else wait_reply rounds msg
  end.
Definition mbox_call_at (bus_addr : Z) : M bus bool :=
  let msg := Z.lor (Z.land bus_addr (notu 32 15)) MBOX_CH_PROP in
  room ← wait_room (Z.to_nat MBOX_SPIN);
  if negb room then mret false
  else mmio_write32 MBOX_WRITE msg;; wait_reply (Z.to_nat MBOX_SPIN) msg.

(** [for (k = 0U; k < vwords; k++) s_mbox[5U + k] = 0U], with the words to go. *)
Fixpoint clear_words (k : Z) (n : nat) : M bus unit :=
  match n with O => mret tt | S n => mbox_st (u32 (5 + k)) 0;; clear_words (k + 1) n end.
(** A round of the loop of [mbox_query]. *)
Definition query_pass (tag vwords bus_addr : Z) : M bus bool :=
  mbox_st 0 (u32 (u32 (5 + vwords + 1) * 4));;
  mbox_st 1 MBOX_REQUEST;;
  mbox_st 2 tag;;
  mbox_st 3 (u32 (vwords * 4));;
  mbox_st 4 0;;
  clear_words 0 (Z.to_nat vwords);;
  mbox_st (u32 (5 + vwords)) TAG_END;;
  ok ← mbox_call_at bus_addr;
  if (ok : bool) then w ← mbox_ld 4; mret (negb (Z.land w 0x80000000 =? 0)) else mret false.
Definition mbox_query (tag vwords : Z) : M bus bool :=
  let base := u32 s_mbox in
  done ← query_pass tag vwords (Z.lor base 0xC0000000);
  if (done : bool) then mret true else query_pass tag vwords base.

Definition mac_rejected (m : list Z) : bool :=
  (foldr Z.lor 0 m =? 0) || (foldr Z.land 255 m =? 255) || negb (Z.land (nth 0 m 0) 1 =? 0).
Definition mbox_get_mac : M bus (option (list Z)) :=
  done ← mbox_query TAG_GET_MAC 2;
  if negb done then mret None
  else
    m0 ← mbox_ld 5; m1 ← mbox_ld 5; m2 ← mbox_ld 5; m3 ← mbox_ld 5; m4 ← mbox_ld 6; m5 ← mbox_ld 6;
    let m := [u8 m0; u8 (Z.shiftr m1 8); u8 (Z.shiftr m2 16); u8 (Z.shiftr m3 24); u8 m4; u8 (Z.shiftr m5 8)] in
    if mac_rejected m then mret None else mret (Some m).

(** The value stored in [*serial], if any, and the result. *)
Definition mbox_get_serial : M bus (option Z * bool) :=
  done ← mbox_query TAG_GET_SERIAL 2;
  if negb done then mret (None, false)
  else
    hi ← mbox_ld 6; lo ← mbox_ld 5;
    let serial := Z.lor (u64 (Z.shiftl hi 32)) lo in
    mret (Some serial, negb (serial =? 0)).
End mailbox.
