(* ===== verification/MailboxProps.v ===== *)
(** * The mailbox against any GPU, and against a firmware that answers *)

From S2P Require Import Prelude CInt Mmio Mailbox.

(** A unicast hardware address of six bytes, not all zero. *)
Definition unicast_mac (m : list Z) : Prop :=
  length m = 6%nat /\ bytes m /\ m <> replicate 6 0 /\ m <> replicate 6 255 /\ exists m0, m !! 0%nat = Some m0 /\ Z.odd m0 = false.

(** The registers and the buffer are the device's. *)
Definition mbox_free (s_mbox : Z) (b : bus) : Prop :=
  regs b !! MBOX_READ = None /\ regs b !! MBOX_STATUS = None /\ regs b !! MBOX_WRITE = None /\
  forall i, 0 <= i < 16 -> regs b !! (s_mbox + 4 * i) = None.

(** ** Any GPU *)

Section any_gpu.
Context {D : Device} (s_mbox : Z).

(** [c] returns, reads at most [n] times and its result satisfies [Q]. *)
Definition polls {A} (c : M bus A) (n : Z) (Q : A -> Prop) : Prop :=
  forall b, mbox_free s_mbox b -> exists a b',
    c b = Some (a, b') /\ regs b' = regs b /\ Z.of_nat (nreads b') <= Z.of_nat (nreads b) + n /\ Q a.

Lemma polls_ret {A} (a : A) (Q : A -> Prop) : Q a -> polls (mret a) 0 Q.
Proof. intros HQ b _. exists a, b. repeat split; [lia|done]. Qed.
Lemma polls_bind {A B} (c : M bus A) (k : A -> M bus B) n m (P : A -> Prop) (Q : B -> Prop) :
  polls c n P -> (forall a, P a -> polls (k a) m Q) -> polls (c ≫= k) (n + m) Q.
Proof.
  intros Hc Hk b Hb. destruct (Hc b Hb) as (a & b1 & E1 & R1 & N1 & Ha).
  destruct (Hk a Ha b1) as (a2 & b2 & E2 & R2 & N2 & HQ); [by unfold mbox_free; rewrite R1|].
  exists a2, b2. rewrite (bind_eq _ _ _ _ _ E1). repeat split; [done|congruence|lia|done].
Qed.
Lemma polls_weaken {A} (c : M bus A) n m Q : polls c n Q -> n <= m -> polls c m Q.
Proof. intros Hc Hn b Hb. destruct (Hc b Hb) as (a & b' & ? & ? & ? & ?). exists a, b'. repeat split; [done|done|lia|done]. Qed.
Lemma polls_read a : (forall b, mbox_free s_mbox b -> regs b !! a = None) -> polls (mmio_read32 a) 1 (in_u 32).
Proof.
  intros Ha b Hb. eexists _, _. rewrite mmio_read_dev by auto. repeat split; cbn [nreads]; [lia| |].
  all: by apply wrapu_range.
Qed.
Lemma polls_write a v : (forall b, mbox_free s_mbox b -> regs b !! a = None) -> polls (mmio_write32 a v) 0 (fun _ => True).
Proof. intros Ha b Hb. eexists _, _. rewrite mmio_write_dev by auto. repeat split; cbn [nreads]; lia. Qed.
Lemma polls_status : polls (mmio_read32 MBOX_STATUS) 1 (in_u 32).
Proof. apply polls_read. by intros b (? & ? & ? & ?). Qed.
Lemma polls_ld i : 0 <= i < 16 -> polls (mbox_ld s_mbox i) 1 (in_u 32).
Proof.
  intros Hi. unfold mbox_ld. rewrite (proj2 (Z.leb_le 0 i)), (proj2 (Z.ltb_lt i 16)) by lia.
  apply polls_read. intros b (? & ? & ? & Hb). by apply Hb.
Qed.
Lemma polls_st i v : 0 <= i < 16 -> polls (mbox_st s_mbox i v) 0 (fun _ => True).
Proof.
  intros Hi. unfold mbox_st. rewrite (proj2 (Z.leb_le 0 i)), (proj2 (Z.ltb_lt i 16)) by lia.
  apply polls_write. intros b (? & ? & ? & Hb). by apply Hb.
Qed.

Lemma polls_room rounds : polls (wait_room rounds) (Z.of_nat rounds) (fun _ => True).
Proof.
  induction rounds as [|rounds IH]; cbn [wait_room]; [by apply polls_ret|]. rewrite Nat2Z.inj_succ, <- Z.add_1_l.
  apply (polls_bind _ _ _ _ (in_u 32)); [apply polls_status|]. intros v _. case_match; [done|].
  apply polls_weaken with 0; [by apply polls_ret|lia].
Qed.
Lemma polls_reply rounds msg : polls (wait_reply s_mbox rounds msg) (2 * Z.of_nat rounds + 1) (fun _ => True).
Proof.
  induction rounds as [|rounds IH]; cbn [wait_reply]; [by apply polls_weaken with 0; [apply polls_ret|]|].
  replace (2 * Z.of_nat (S rounds) + 1) with (1 + (1 + (2 * Z.of_nat rounds + 1))) by lia.
  apply (polls_bind _ _ _ _ (in_u 32)); [apply polls_status|]. intros v _. case_match; [|apply polls_weaken with (2 * Z.of_nat rounds + 1); [done|lia]].
  apply (polls_bind _ _ _ _ (in_u 32)); [apply polls_read; by intros b (? & ? & ? & ?)|]. intros r _. case_match; [|done].
  apply polls_weaken with (1 + 0); [|lia]. apply (polls_bind _ _ _ _ (in_u 32)); [by apply polls_ld|]. intros w _. by apply polls_ret.
Qed.
Lemma polls_call addr : polls (mbox_call_at s_mbox addr) (3 * MBOX_SPIN + 1) (fun _ => True).
Proof.
  unfold mbox_call_at. assert (Z.of_nat (Z.to_nat MBOX_SPIN) = MBOX_SPIN) as Hmax by (apply Z2Nat.id; done).
  generalize dependent (Z.to_nat MBOX_SPIN). intros n Hmax.
  apply polls_weaken with (Z.of_nat n + (0 + (2 * Z.of_nat n + 1))); [|lia].
  apply (polls_bind _ _ _ _ (fun _ => True)); [apply polls_room|]. intros room _.
  destruct room; cbn [negb].
  - apply (polls_bind _ _ _ _ (fun _ => True)); [|intros _ _; apply polls_reply]. apply polls_write. by intros b (? & ? & ? & ?).
  - apply polls_weaken with 0; [by apply polls_ret|lia].
Qed.

Ltac polls_do tac := eapply polls_bind; [solve [tac]|intros ? ?].
Lemma polls_pass tag addr : polls (query_pass s_mbox tag 2 addr) (3 * MBOX_SPIN + 2) (fun _ => True).
Proof.
  apply polls_weaken with (0 + (0 + (0 + (0 + (0 + ((0 + (0 + 0)) + (0 + ((3 * MBOX_SPIN + 1) + (1 + 0))))))))); [|lia].
  unfold query_pass. do 5 (polls_do ltac:(by apply polls_st)).
  eapply polls_bind; [change (Z.to_nat 2) with 2%nat; cbn [clear_words];
    do 2 (polls_do ltac:(by apply polls_st)); by apply polls_ret with (Q := fun _ => True)|]. intros _ _.
  polls_do ltac:(by apply polls_st). polls_do ltac:(apply polls_call).
  case_match; [|apply polls_weaken with 0; [by apply polls_ret|lia]].
  polls_do ltac:(by apply polls_ld). by apply polls_ret.
Qed.
Lemma polls_query tag : polls (mbox_query s_mbox tag 2) (6 * MBOX_SPIN + 4) (fun _ => True).
Proof.
  apply polls_weaken with ((3 * MBOX_SPIN + 2) + (3 * MBOX_SPIN + 2)); [|lia]. unfold mbox_query.
  polls_do ltac:(apply polls_pass). case_match; [|apply polls_pass].
  apply polls_weaken with 0; [by apply polls_ret|unfold MBOX_SPIN; lia].
Qed.

(** The address check accepts unicast addresses only. *)
Lemma mac_accepted m0 m1 m2 m3 m4 m5 (m := [m0; m1; m2; m3; m4; m5]) :
  bytes m -> mac_rejected m = false -> unicast_mac m.
Proof.
  intros Hm Hr. unfold mac_rejected in Hr. apply orb_false_iff in Hr as [Hr Hodd]. apply orb_false_iff in Hr as [Hz Hf].
  split; [done|]. split; [done|]. split; [intros E; injection E; intros; subst m; by subst|].
  split; [intros E; injection E; intros; subst m; by subst|]. exists m0. split; [done|].
  subst m. cbn [nth] in Hodd. apply negb_false_iff, Z.eqb_eq in Hodd.
  rewrite (land_mask 1 m0 1) in Hodd by done. change (2 ^ 1) with 2 in Hodd. rewrite Zmod_odd in Hodd. by destruct (Z.odd m0).
Qed.

Lemma polls_get_mac : polls (mbox_get_mac s_mbox) (6 * MBOX_SPIN + 10) (fun r => forall m, r = Some m -> unicast_mac m).
Proof.
  apply polls_weaken with ((6 * MBOX_SPIN + 4) + (1 + (1 + (1 + (1 + (1 + (1 + 0))))))); [|lia]. unfold mbox_get_mac. polls_do ltac:(apply polls_query).
  case_match; [apply polls_weaken with 0; [by apply polls_ret|lia]|].
  do 6 (polls_do ltac:(by apply polls_ld)). destruct (mac_rejected _) eqn:Er; apply polls_ret; intros m Hm; [done|]. injection Hm as <-.
  apply mac_accepted; [|done]. repeat constructor; by apply wrapu_range.
Qed.
(** The mailbox never hangs and never yields an unusable address: whatever
    the GPU answers (or fails to), mbox_get_mac returns within a fixed number of
    polls, and an address it accepts has six bytes, is unicast, and is neither
    all zero nor all ones. *)
Theorem mbox_get_mac_sound (b : bus) :
  mbox_free s_mbox b ->
  exists r b', mbox_get_mac s_mbox b = Some (r, b') /\ Z.of_nat (nreads b') <= Z.of_nat (nreads b) + (6 * MBOX_SPIN + 10) /\
    forall m, r = Some m -> unicast_mac m.
Proof. intros Hb. destruct (polls_get_mac b Hb) as (r & b' & E & _ & N & HQ). by exists r, b'. Qed.
Lemma mbox_get_mac_regs (b : bus) :
  mbox_free s_mbox b ->
  exists r b', mbox_get_mac s_mbox b = Some (r, b') /\ regs b' = regs b /\ forall m, r = Some m -> unicast_mac m.
Proof. intros Hb. destruct (polls_get_mac b Hb) as (r & b' & E & R & _ & HQ). by exists r, b'. Qed.
End any_gpu.

(** ** A firmware that answers *)

(** The last value written to a location. *)
Definition last_write (a : Z) (tr : list (Z * Z)) : Z := foldl (fun v x => if x.1 =? a then x.2 else v) 0 tr.
(** The first eight words of the buffer, as the GPU finds them. *)
Definition request (s_mbox : Z) (tr : list (Z * Z)) : list Z :=
  (fun i => last_write (s_mbox + 4 * i) tr) <$> [0; 1; 2; 3; 4; 5; 6; 7].

(** The firmware answers messages posted at the address [alias] of the buffer
    with [gpu] of the request; it accepts other messages and leaves their
    buffer alone. *)
Record firmware (s_mbox alias : Z) (gpu : list Z -> Z * Z) (D : Device) : Prop := {
  fw_status tr n : dev_read tr n MBOX_STATUS = 0;
  fw_read tr n : dev_read tr n MBOX_READ = last_write MBOX_WRITE tr;
  fw_buffer tr n i :
    0 <= i < 16 ->
    dev_read tr n (s_mbox + 4 * i) =
      if last_write MBOX_WRITE tr =? Z.lor alias MBOX_CH_PROP then
        if i =? 1 then MBOX_RESPONSE_OK else if i =? 4 then 0x80000008
        else if i =? 5 then (gpu (request s_mbox tr)).1 else if i =? 6 then (gpu (request s_mbox tr)).2
        else last_write (s_mbox + 4 * i) tr
      else last_write (s_mbox + 4 * i) tr }.

(** The buffer is aligned RAM the bus aliases reach. *)
Definition mbox_placed (s_mbox : Z) : Prop := 0 <= s_mbox < 0x40000000 /\ s_mbox mod 16 = 0.
Definition mac_of (w : Z * Z) : list Z :=
  [u8 w.1; u8 (Z.shiftr w.1 8); u8 (Z.shiftr w.1 16); u8 (Z.shiftr w.1 24); u8 w.2; u8 (Z.shiftr w.2 8)].

Section firmware.
Context {D : Device} (s_mbox alias : Z) (gpu : list Z -> Z * Z) (FW : firmware s_mbox alias gpu D).
Context (Hplaced : mbox_placed s_mbox) (Halias : alias = s_mbox + 0xC0000000 \/ alias = s_mbox).

(** What a pass writes. *)
Definition posted (tag msg : Z) : list (Z * Z) :=
  ((fun iv => (s_mbox + 4 * iv.1, iv.2)) <$> [(0, 32); (1, 0); (2, tag); (3, 8); (4, 0); (5, 0); (6, 0); (7, 0)])
  ++ [(MBOX_WRITE, msg)].

Lemma st_run i v b :
  0 <= i < 16 -> mbox_free s_mbox b -> mbox_st s_mbox i v b = Some (tt, mkBus (regs b) (nreads b) (trace b ++ [(s_mbox + 4 * i, v)])).
Proof.
  intros Hi (_ & _ & _ & Hb). unfold mbox_st. rewrite (proj2 (Z.leb_le 0 i)), (proj2 (Z.ltb_lt i 16)) by lia.
  apply mmio_write_dev. by apply Hb.
Qed.
Lemma ld_run i b :
  0 <= i < 16 -> mbox_free s_mbox b ->
  mbox_ld s_mbox i b = Some (u32 (dev_read (trace b) (nreads b) (s_mbox + 4 * i)), mkBus (regs b) (S (nreads b)) (trace b)).
Proof.
  intros Hi (_ & _ & _ & Hb). unfold mbox_ld. rewrite (proj2 (Z.leb_le 0 i)), (proj2 (Z.ltb_lt i 16)) by lia.
  apply mmio_read_dev. by apply Hb.
Qed.

Lemma aligned_shift a : a mod 16 = 0 -> Z.shiftl (a / 16) 4 = a.
Proof. intros Hm. rewrite Z.shiftl_mul_pow2 by lia. pose proof (Z.div_mod a 16 ltac:(lia)). change (2 ^ 4) with 16. lia. Qed.
Lemma channel_of a : a mod 16 = 0 -> Z.lor a MBOX_CH_PROP = a + 8.
Proof.
  intros Hm. rewrite Z.lor_comm. rewrite <- (aligned_shift a Hm) at 1. rewrite lor_shiftl_add by done.
  rewrite <- Z.shiftl_mul_pow2, aligned_shift by (done || lia). unfold MBOX_CH_PROP. lia.
Qed.
Lemma msg_of a : in_u 32 a -> a mod 16 = 0 -> Z.lor (Z.land a (notu 32 15)) MBOX_CH_PROP = a + 8.
Proof.
  intros Ha Hm. rewrite <- (channel_of a Hm). f_equal.
  apply Z.bits_inj'. intros i Hi. rewrite Z.land_spec, testbit_notu by lia. destruct (Z.ltb_spec i 32) as [H|H].
  - destruct (Z.lt_ge_cases i 4).
    + rewrite <- (aligned_shift a Hm), Z.shiftl_spec, Z.testbit_neg_r by lia. done.
    + rewrite (testbit_high 4 15) by (done || lia). by rewrite andb_true_r.
  - by rewrite (testbit_high 32 a) by (done || lia).
Qed.
Lemma alias_of : Z.lor (u32 s_mbox) 0xC0000000 = s_mbox + 0xC0000000.
Proof.
  destruct Hplaced as [H _]. rewrite u32_ok by lia. change 0xC0000000 with (Z.shiftl 3 30).
  rewrite lor_shiftl_add; [done|done|]. unfold in_u. change (2 ^ 30) with 1073741824. lia.
Qed.

Lemma last_write_app a tr tr' : last_write a (tr ++ tr') = foldl (fun v x => if x.1 =? a then x.2 else v) (last_write a tr) tr'.
Proof. unfold last_write. by rewrite foldl_app. Qed.
(** What the GPU and the processor see after a request is posted. *)
Ltac last_writes :=
  unfold posted; rewrite last_write_app; cbn [fmap list_fmap app foldl fst snd];
  repeat first [rewrite Z.eqb_refl | rewrite (proj2 (Z.eqb_neq _ _)) by (unfold MBOX_WRITE; lia)].
Lemma posted_msg tr tag msg : last_write MBOX_WRITE (tr ++ posted tag msg) = msg.
Proof. destruct Hplaced as [H _]. last_writes. done. Qed.
Lemma posted_code tr tag msg : last_write (s_mbox + 4 * 1) (tr ++ posted tag msg) = 0.
Proof. destruct Hplaced as [H _]. by last_writes. Qed.
Lemma posted_request tr tag msg : request s_mbox (tr ++ posted tag msg) = [32; 0; tag; 8; 0; 0; 0; 0].
Proof. destruct Hplaced as [H _]. unfold request. cbn [fmap list_fmap].
  repeat match goal with |- _ :: _ = _ :: _ => f_equal end; by last_writes. Qed.

Lemma spin_pos : exists n, Z.to_nat MBOX_SPIN = S n.
Proof. exists (Z.to_nat (MBOX_SPIN - 1)). rewrite <- Z2Nat.inj_succ by done. done. Qed.
Lemma free_same b n tr : mbox_free s_mbox b -> mbox_free s_mbox (mkBus (regs b) n tr).
Proof. done. Qed.
Lemma reg_run a b : mbox_free s_mbox b -> a = MBOX_READ \/ a = MBOX_STATUS ->
  mmio_read32 a b = Some (u32 (dev_read (trace b) (nreads b) a), mkBus (regs b) (S (nreads b)) (trace b)).
Proof. intros (H1 & H2 & _) [-> | ->]; by apply mmio_read_dev. Qed.

(** The posted message comes back at once; it is answered at the alias only. *)
Lemma call_run addr b tag (tr := trace b ++ removelast (posted tag (addr + 8))) :
  in_u 32 addr -> addr mod 16 = 0 -> mbox_free s_mbox b -> in_u 32 (addr + 8) -> alias mod 16 = 0 -> in_u 32 alias ->
  exists n, mbox_call_at s_mbox addr (mkBus (regs b) (nreads b) tr) =
    Some (addr =? alias, mkBus (regs b) n (trace b ++ posted tag (addr + 8))).
Proof.
  intros Ha Hm Hb Hw Hma Hia. unfold mbox_call_at. rewrite msg_of by done. destruct spin_pos as [k ->]. cbn [wait_room wait_reply].
  assert (tr ++ [(MBOX_WRITE, addr + 8)] = trace b ++ posted tag (addr + 8)) as Htr by (by unfold tr; rewrite <- app_assoc).
  erewrite bind_eq; [|erewrite bind_eq by (by apply reg_run; auto); by rewrite (fw_status _ _ _ _ FW)]. cbn [negb].
  destruct Hb as (H1 & H2 & H3 & H4). erewrite bind_eq by (by apply mmio_write_dev). cbn [regs nreads trace]. rewrite Htr.
  erewrite bind_eq by (by apply reg_run; auto). rewrite (fw_status _ _ _ _ FW). cbn [regs nreads trace].
  change (Z.land (u32 0) MBOX_EMPTY =? 0) with true. cbv iota.
  erewrite bind_eq by (by apply reg_run; auto). rewrite (fw_read _ _ _ _ FW). cbn [regs nreads trace].
  rewrite posted_msg, (wrapu_small 32), Z.eqb_refl by done. cbv iota.
  erewrite bind_eq by (by apply ld_run). rewrite (fw_buffer _ _ _ _ FW) by done. cbn [regs nreads trace].
  rewrite posted_msg. eexists. unfold mret, M_ret. do 2 f_equal. rewrite channel_of by done.
  destruct (Z.eqb_spec addr alias) as [-> | Hn]; [by rewrite Z.eqb_refl|].
  rewrite (proj2 (Z.eqb_neq (addr + 8) (alias + 8))), posted_code by lia. done.
Qed.
Lemma pass_run tag addr b :
  in_u 32 addr -> addr mod 16 = 0 -> mbox_free s_mbox b -> in_u 32 (addr + 8) -> alias mod 16 = 0 -> in_u 32 alias ->
  exists n, query_pass s_mbox tag 2 addr b = Some (addr =? alias, mkBus (regs b) n (trace b ++ posted tag (addr + 8))).
Proof.
  intros Ha Hm Hb Hw Hma Hia. unfold query_pass. change (Z.to_nat 2) with 2%nat. cbn [clear_words].
  do 5 (erewrite bind_eq by (by apply st_run); cbn [regs nreads trace]).
  erewrite bind_eq by (erewrite bind_eq by (by apply st_run); cbn [regs nreads trace]; erewrite bind_eq by (by apply st_run); done).
  cbn [regs nreads trace]. erewrite bind_eq by (by apply st_run). cbn [regs nreads trace]. rewrite <- !app_assoc. cbn [app].
  destruct (call_run addr b tag) as [n E]; [done..|]. unfold posted at 1 in E. cbn [fmap list_fmap app removelast fst snd] in E.
  erewrite bind_eq by exact E. destruct (Z.eqb_spec addr alias) as [-> | Hn]; [|by exists n].
  erewrite bind_eq by (by apply ld_run). cbn [regs nreads trace]. rewrite (fw_buffer _ _ _ _ FW), posted_msg, channel_of, Z.eqb_refl by done.
  by eexists.
Qed.

Lemma alias_aligned : alias mod 16 = 0 /\ in_u 32 alias.
Proof.
  destruct Hplaced as [H Hm]. unfold in_u. change (2 ^ 32) with 4294967296. destruct Halias as [-> | ->]; [|split; [done|lia]].
  split; [|lia]. rewrite Z.add_mod, Hm by lia. done.
Qed.
(** One of the two passes is answered. *)
Lemma query_run tag b :
  mbox_free s_mbox b -> exists n tr, mbox_query s_mbox tag 2 b = Some (true, mkBus (regs b) n (tr ++ posted tag (alias + 8))).
Proof.
  intros Hb. destruct Hplaced as [H Hm]. pose proof (Z.div_mod s_mbox 16 ltac:(lia)). destruct alias_aligned as [Ham Hai]. unfold mbox_query. rewrite alias_of, u32_ok by lia.
  destruct (pass_run tag (s_mbox + 0xC0000000) b) as [n E]; try done.
  1,3: unfold in_u; change (2 ^ 32) with 4294967296; lia.
  { by rewrite Z.add_mod, Hm by lia. }
  erewrite bind_eq by exact E. destruct (Z.eqb_spec (s_mbox + 0xC0000000) alias) as [Ea|Ea].
  { exists n, (trace b). by rewrite Ea. }
  destruct Halias as [|Ea']; [lia|]. destruct (pass_run tag s_mbox _ ltac:(unfold in_u; change (2 ^ 32) with 4294967296; lia) Hm
    (free_same b n (trace b ++ posted tag (s_mbox + 0xC0000000 + 8)) Hb)) as [n' E']; try done.
  { unfold in_u. change (2 ^ 32) with 4294967296. lia. }
  exists n', (trace b ++ posted tag (s_mbox + 0xC0000000 + 8)). rewrite E', Ea', Z.eqb_refl. done.
Qed.

(** The words of the answer. *)
Lemma ld_answer tag tr b n i (w := gpu [32; 0; tag; 8; 0; 0; 0; 0]) :
  mbox_free s_mbox b -> in_u 32 w.1 -> in_u 32 w.2 -> i = 5 \/ i = 6 ->
  mbox_ld s_mbox i (mkBus (regs b) n (tr ++ posted tag (alias + 8))) =
    Some (if i =? 5 then w.1 else w.2, mkBus (regs b) (S n) (tr ++ posted tag (alias + 8))).
Proof.
  intros Hb H1 H2 Hi. destruct alias_aligned as [Ham Hai]. rewrite ld_run by (by destruct Hi as [-> | ->]). cbn [trace nreads regs].
  rewrite (fw_buffer _ _ _ _ FW), posted_msg, channel_of, Z.eqb_refl, posted_request by (done || lia).
  fold w. by destruct Hi as [-> | ->]; cbn [Z.eqb Pos.eqb]; rewrite (wrapu_small 32).
Qed.

(** The board's address is found under either bus address: when the firmware
    answers property messages posted at the uncached alias or at the plain
    address of the buffer, mbox_get_mac returns the six bytes of its answer to
    the well-formed one-tag request for the MAC address, unless they are no
    unicast address. *)
Theorem mbox_get_mac_answer (b : bus) (w := gpu [32; 0; TAG_GET_MAC; 8; 0; 0; 0; 0]) :
  mbox_free s_mbox b -> in_u 32 w.1 -> in_u 32 w.2 ->
  exists b', mbox_get_mac s_mbox b = Some (if mac_rejected (mac_of w) then None else Some (mac_of w), b').
Proof.
  intros Hb H1 H2. unfold mbox_get_mac. destruct (query_run TAG_GET_MAC b Hb) as (n & tr & E). erewrite bind_eq by exact E. cbn [negb].
  do 4 (erewrite bind_eq by (by apply ld_answer; auto); cbv iota).
  do 2 (erewrite bind_eq by (by apply ld_answer; auto); cbv iota).
  cbn [Z.eqb Pos.eqb].
  fold w. change [u8 w.1; _; _; _; _; _] with (mac_of w). destruct (mac_rejected (mac_of w)); by eexists.
Qed.
(** The serial number is the answer's two words; zero is refused. *)
Lemma mbox_get_serial_answer b (w := gpu [32; 0; TAG_GET_SERIAL; 8; 0; 0; 0; 0]) :
  mbox_free s_mbox b -> in_u 32 w.1 -> in_u 32 w.2 ->
  exists b', mbox_get_serial s_mbox b = Some ((Some (w.1 + w.2 * 2 ^ 32), negb (w.1 + w.2 * 2 ^ 32 =? 0)), b').
Proof.
  intros Hb H1 H2. unfold mbox_get_serial. destruct (query_run TAG_GET_SERIAL b Hb) as (n & tr & E). erewrite bind_eq by exact E. cbn [negb].
  do 2 (erewrite bind_eq by (by apply ld_answer; auto); cbv iota). cbn [Z.eqb Pos.eqb]. fold w.
  rewrite u64_ok by (rewrite Z.shiftl_mul_pow2 by lia; unfold in_u in *; change (2 ^ 32) with 4294967296 in *; lia).
  rewrite Z.lor_comm, lor_shiftl_add by done. by eexists.
Qed.
End firmware.

(** ** A Raspberry Pi whose firmware answers at the plain address only *)

Definition demo_mbox : Z := 0x80000.
Definition demo_gpu (req : list Z) : Z * Z := if nth 2 req 0 =? TAG_GET_MAC then (0x32A6DC, 0x5501) else (0, 0).
#[local] Instance demo_device : Device := fun tr n a =>
  if a =? MBOX_STATUS then 0
  else if a =? MBOX_READ then last_write MBOX_WRITE tr
  else if last_write MBOX_WRITE tr =? Z.lor demo_mbox MBOX_CH_PROP then
    if a =? demo_mbox + 4 then MBOX_RESPONSE_OK else if a =? demo_mbox + 16 then 0x80000008
    else if a =? demo_mbox + 20 then (demo_gpu (request demo_mbox tr)).1
    else if a =? demo_mbox + 24 then (demo_gpu (request demo_mbox tr)).2 else last_write a tr
  else last_write a tr.
Lemma demo_firmware : firmware demo_mbox demo_mbox demo_gpu demo_device.
Proof.
  split; [done..|]. intros tr n i Hi. unfold dev_read, demo_device.
  rewrite (proj2 (Z.eqb_neq _ MBOX_STATUS)), (proj2 (Z.eqb_neq _ MBOX_READ)) by (unfold demo_mbox, MBOX_STATUS, MBOX_READ; lia).
  case_match; [|done]. repeat match goal with |- context [demo_mbox + 4 * i =? ?a] =>
    replace (demo_mbox + 4 * i =? a) with (4 * i =? a - demo_mbox) by (destruct (Z.eqb_spec (4 * i) (a - demo_mbox)), (Z.eqb_spec (demo_mbox + 4 * i) a); lia) end.
  unfold demo_mbox in *. repeat (case_match; try lia); done.
Qed.
Definition idle_bus : bus := mkBus ∅ 0 [].
Lemma idle_free : mbox_free demo_mbox idle_bus.
Proof. done. Qed.

Lemma mbox_get_mac_sound_witness :
  exists r b', mbox_get_mac demo_mbox idle_bus = Some (r, b') /\ forall m, r = Some m -> unicast_mac m.
Proof. destruct (mbox_get_mac_sound demo_mbox idle_bus idle_free) as (r & b' & E & _ & H). exists r, b'. exact (conj E H). Defined.
Lemma mbox_get_mac_answer_witness :
  exists b', mbox_get_mac demo_mbox idle_bus = Some (Some [0xDC; 0xA6; 0x32; 0x00; 0x01; 0x55], b').
Proof.
  destruct (mbox_get_mac_answer demo_mbox demo_mbox demo_gpu demo_firmware) with (b := idle_bus) as [b' E]; [done|by right|done..|].
  exists b'. exact E.
Defined.
