(* ===== verification/PortIrq.v ===== *)
(** * Interrupts and the tick (src/portable/LLVM_AArch64/port.c)

    The interrupt table, the GIC and the generic timer of the port, over the
    kernel of Tasks and the bus of Mmio.  An interrupt handler installed by a
    driver is a parameter: the handlers of the timestamp band neither call the
    kernel nor print (src/bsp/rpi4/rpi4.h), so it acts on the bus and on the
    drivers' own state only.  The counter frequency is a parameter. *)

From S2P Require Import Prelude Config CInt CStr Lists ListSpec ListRefine Alloc Tasks Mmio Uart.

Definition PORT_MAX_IRQS : Z := 4.
Definition GICD_BASE : Z := 0xFF841000.
Definition GICC_BASE : Z := 0xFF842000.
Definition TIMER_IRQ_INTID : Z := 30.
Definition GICC_PMR_OPEN : Z := 240.

(** The code behind a handler's address, over the bus and the static state [DS]
    of the drivers. *)
Class IrqHandlers (DS : Type) := irq_handler : Z -> M (bus * DS) unit.

Record PortIrqSlot_t := IrqSlot { intid : Z; handler : Z; count : Z }.

Section port.
Context {LS HS DS : Type} `{!ListOps item lst LS} `{!HeapOps HS} {D : Device} {IH : IrqHandlers DS}.

Record port := Port {
  p_kernel : kernel LS HS; p_bus : bus; p_driver : DS;
  xIrqTable : list PortIrqSlot_t; uxIrqSlots : Z;
  ullTimerReloadTicks : Z; ulFirstIrq : Z;
  cntp_tval_el0 : Z; cntp_ctl_el0 : Z }.

Definition onK {A} (c : M (kernel LS HS) A) : M port A := zoom p_kernel (fun k p =>
  Port k (p_bus p) (p_driver p) (xIrqTable p) (uxIrqSlots p) (ullTimerReloadTicks p) (ulFirstIrq p) (cntp_tval_el0 p) (cntp_ctl_el0 p)) c.
Definition onB {A} (c : M bus A) : M port A := zoom p_bus (fun b p =>
  Port (p_kernel p) b (p_driver p) (xIrqTable p) (uxIrqSlots p) (ullTimerReloadTicks p) (ulFirstIrq p) (cntp_tval_el0 p) (cntp_ctl_el0 p)) c.
Definition onD {A} (c : M (bus * DS) A) : M port A := zoom (fun p => (p_bus p, p_driver p)) (fun x p =>
  Port (p_kernel p) x.1 x.2 (xIrqTable p) (uxIrqSlots p) (ullTimerReloadTicks p) (ulFirstIrq p) (cntp_tval_el0 p) (cntp_ctl_el0 p)) c.
Definition set_table t n (p : port) := Port (p_kernel p) (p_bus p) (p_driver p) t n (ullTimerReloadTicks p) (ulFirstIrq p) (cntp_tval_el0 p) (cntp_ctl_el0 p).
Definition set_reload v (p : port) := Port (p_kernel p) (p_bus p) (p_driver p) (xIrqTable p) (uxIrqSlots p) v (ulFirstIrq p) (cntp_tval_el0 p) (cntp_ctl_el0 p).
Definition set_first v (p : port) := Port (p_kernel p) (p_bus p) (p_driver p) (xIrqTable p) (uxIrqSlots p) (ullTimerReloadTicks p) v (cntp_tval_el0 p) (cntp_ctl_el0 p).
Definition set_timer v c (p : port) := Port (p_kernel p) (p_bus p) (p_driver p) (xIrqTable p) (uxIrqSlots p) (ullTimerReloadTicks p) (ulFirstIrq p) v c.

Definition flint_trap_report (esr elr far spsr : Z) : M bus unit :=
  uart_printf ([10] ++ chars "*** FLINT TRAP: unhandled exception ***" ++ [10; 0]) [];;
  uart_printf (chars "  ESR_EL1 =%p  EC=%p" ++ [10; 0]) [UaPtr esr; UaPtr (Z.land (Z.shiftr esr 26) 63)];;
  uart_printf (chars "  ELR_EL1 =%p  (faulting PC)" ++ [10; 0]) [UaPtr elr];;
  uart_printf (chars "  FAR_EL1 =%p  (faulting addr)" ++ [10; 0]) [UaPtr far];;
  uart_printf (chars "  SPSR_EL1=%p" ++ [10; 0]) [UaPtr spsr];;
  uart_printf (chars "  system halted." ++ [10; 0]) [].

Definition arm_timer (ticks : Z) : M port unit := modify (set_timer ticks 1).

(** Read-modify-write of one byte lane of a distributor register bank. *)
Definition gicd_set_byte (bank id val : Z) : M bus unit :=
  let reg := GICD_BASE + bank + Z.land id (notu 32 3) in
  let shift := id mod 4 * 8 in
  v ← mmio_read32 reg;
  mmio_write32 reg (Z.lor (Z.land v (notu 32 (Z.shiftl 255 shift))) (u32 (Z.shiftl val shift))).

Definition vPortSetupTimerInterrupt (cntfrq : Z) : M port unit :=
  modify (set_reload (cntfrq / configTICK_RATE_HZ));;
  onK (modify (fun k => set_critical (uxCriticalNesting k) true k));;
  reload ← gets ullTimerReloadTicks;
  onB (uart_printf (chars "[port] timer setup: cntfrq=%u Hz, reload=%u ticks/tick" ++ [10; 0]) [UaUint (u32 cntfrq); UaUint (u32 reload)]);;
  onB (uart_printf (chars "[port] GIC init (GICD=%p GICC=%p), enabling PPI %u" ++ [10; 0])
         [UaPtr GICD_BASE; UaPtr GICC_BASE; UaUint TIMER_IRQ_INTID]);;
  onB (mmio_write32 GICD_BASE 1);;
  onB (mmio_write32 (GICD_BASE + 0x100) (bitu 32 TIMER_IRQ_INTID));;
  onB (gicd_set_byte 0x400 TIMER_IRQ_INTID GIC_PRIO_KERNEL);;
  onB (mmio_write32 (GICC_BASE + 0x4) GICC_PMR_OPEN);;
  onB (mmio_write32 GICC_BASE 1);;
  reload ← gets ullTimerReloadTicks;
  arm_timer reload;;
  onB (uart_printf (chars "[port] generic timer armed; waiting for first tick IRQ..." ++ [10; 0]) []).

Definition xPortInstallIrq (id priority h : Z) : M port Z :=
  onK vPortEnterCritical;;
  n ← gets uxIrqSlots;
  result ←
    (if (n <? PORT_MAX_IRQS) && negb (h =? 0) && (32 <=? id) && (id <? 1020) then
       t ← gets xIrqTable;
       t ← of_opt (wrb t n (IrqSlot id h 0));
       modify (set_table t (u32 (n + 1)));;
       onB (gicd_set_byte 0x400 id priority);;
       onB (gicd_set_byte 0x800 id 1);;
       (let reg := GICD_BASE + 0xC00 + u32 (id / 16 * 4) in
        v ← onB (mmio_read32 reg);
        onB (mmio_write32 reg (Z.land v (notu 32 (u32 (Z.shiftl 2 (id mod 16 * 2)))))));;
       onB (mmio_write32 (GICD_BASE + 0x100 + u32 (id / 32 * 4)) (bitu 32 (id mod 32)));;
       mret 0
     else mret (-1));
  onK vPortExitCritical;;
  mret result.

(** [for (i = 0; i < uxIrqSlots; i++) if (xIrqTable[i].intid == intid) ...]: the index found. *)
Fixpoint find_slot (t : list PortIrqSlot_t) (id i : Z) (n : nat) : option (option Z) :=
  match n with
  | O => Some None
  | S n => s ← rdb t i; if intid s =? id then Some (Some i) else find_slot t id (i + 1) n
  end.
Definition ulPortIrqCount (id : Z) : M port Z :=
  t ← gets xIrqTable; n ← gets uxIrqSlots;
  r ← of_opt (find_slot t id 0 (Z.to_nat n));
  match r with
  | Some i => s ← of_opt (rdb t i); mret (count s)
  | None => mret 0
  end.

Definition vPortIrqHandlerC : M port unit :=
  iar ← onB (mmio_read32 (GICC_BASE + 0xC));
  let id := Z.land iar 0x3FF in
  if 1020 <=? id then mret tt
  else
    first ← gets ulFirstIrq;
    (if (first =? 0) && (id =? TIMER_IRQ_INTID) then
       modify (set_first 1);;
       onB (uart_printf (chars "[port] first IRQ taken: INTID=%u (timer=%u) - IRQ path is live" ++ [10; 0]) [UaUint id; UaUint TIMER_IRQ_INTID])
     else mret tt);;
    (if id =? TIMER_IRQ_INTID then
       reload ← gets ullTimerReloadTicks;
       arm_timer reload;;
       onK xTaskIncrementTick;;
       onK vTaskSwitchContext
     else
       t ← gets xIrqTable; n ← gets uxIrqSlots;
       r ← of_opt (find_slot t id 0 (Z.to_nat n));
       match r with
       | Some i =>
           s ← of_opt (rdb t i);
           t ← of_opt (wrb t i (IrqSlot (intid s) (handler s) (u32 (count s + 1))));
           modify (set_table t n);;
           onD (irq_handler (handler s))
       | None => mret tt
       end);;
    onB (mmio_write32 (GICC_BASE + 0x10) iar).

(** The interrupt entry of portASM.S, with the stack pointer of the frame it saved. *)
Definition flint_irq_entry (sp : Z) : M port unit :=
  onK (cur ← gets pxCurrentTCB; st_tcb cur (with_sp sp));;
  vPortIrqHandlerC.
End port.
Arguments port : clear implicits.
