(* ===== verification/PortIrqProps.v ===== *)
(** * The interrupt path ticks and reschedules (properties of PortIrq)

    The timer interrupt against the scheduler's invariant, the dispatch of
    device interrupts, and the installation of a handler. *)

From S2P Require Import Prelude Config CInt CStr Lists ListSpec ListRefine Heap4 Heap4Spec Alloc Heap4Props Tasks TasksInv TasksSpec TasksCreate TasksSafe TasksFrame TasksDemo TasksWitness Decimal Mmio Uart UartProps PortIrq.

Section port_props.
Context `{Qs : Queues} {LS HS DS : Type} `{!ListOps item lst LS} `{!ListLaws item lst LS} `{!HeapOps HS} `{!HeapLaws HS}.
Context {D : Device} {IH : IrqHandlers DS} (idle : Z).
Implicit Types (p : port LS HS DS) (s : kernel LS HS) (A : amem item lst) (live : gmap Z Z).

(** The current task is ready and no ready task has a higher priority. *)
Definition runs_highest s : Prop :=
  exists A live U I, kinv None s A live /\ is_ready s A (pxCurrentTCB s) U /\ is_ready s A idle I /\
    0 <= uxCriticalNesting s < 2 ^ 64 - 1 /\ forall v V, is_ready s A v V -> uxPriority V <= uxPriority U.

Lemma switch_highest s A live I :
  kinv None s A live -> is_ready s A idle I -> 0 <= uxCriticalNesting s < 2 ^ 64 - 1 -> current_ok s ->
  exists s', vTaskSwitchContext s = Some (tt, s') /\ runs_highest s' /\ xTickCount s' = xTickCount s.
Proof.
  intros Hk HI Hn Hst. pose proof (to_prio _ _ _ _ (ki_tcb _ _ _ _ Hk _ _ (proj1 HI))).
  destruct (wp_vTaskSwitchContext s A live Hk Hst) as ([] & s' & Hrun & A' & Hsw & Hk').
  { exists (uxPriority I). split; [lia|by eapply ready_occupies]. }
  destruct (switched_next _ _ _ _ _ Hk Hsw) as (u & U & Hu & HU & Hcu & Hmax & Hit & Hocc).
  assert (k_tcbs s' = k_tcbs s /\ uxCriticalNesting s' = uxCriticalNesting s /\ xTickCount s' = xTickCount s) as (Ht & Hc & Hx)
    by by destruct Hsw as (? & ? & ? & ? & ? & ? & -> & _).
  exists s'. split; [done|]. split; [|done]. exists A', live, U, I. rewrite Hu. split_and!; try done; try lia.
  - eapply ready_keep; [split; [exact HU|exact Hcu]|..]; rewrite ?Ht, ?Hit; done.
  - eapply ready_keep; [exact HI|..]; rewrite ?Ht, ?Hit; try done. apply HI.
  - intros v V HV. destruct (Z.le_gt_cases (uxPriority V) (uxPriority U)) as [|Hgt]; [done|].
    exfalso. eapply Hmax; [exact (Z.gt_lt _ _ (Z.lt_gt _ _ Hgt))|]. apply Hocc. by eapply ready_occupies.
Qed.

(** What an interrupt needs: the kernel's invariant, a current task, ready or
    about to yield, and a ready idle task. *)
Definition interruptible s : Prop :=
  exists A live T I, kinv None s A live /\ k_tcbs s !! pxCurrentTCB s = Some T /\ is_ready s A idle I /\ 0 <= uxCriticalNesting s < 2 ^ 64 - 1.
Lemma sched_interruptible s : sched_inv idle s -> interruptible s.
Proof. intros (A & live & T & I & ? & [? _] & ? & ?). by exists A, live, T, I. Qed.

(** Saving the frame, the tick and the switch, on the kernel. *)
Lemma tick_and_switch sp s :
  interruptible s -> yields_ok sp s ->
  exists s1 s2, xTaskIncrementTick (saved sp s) = Some (tt, s1) /\ vTaskSwitchContext s1 = Some (tt, s2) /\
    runs_highest s2 /\ xTickCount s2 = u32 (xTickCount s + 1).
Proof.
  intros (A & live & T & I & Hk & HT & HI & Hn) Hy. destruct (saved_ready sp _ _ _ _ HI) as (I' & HI').
  destruct (tick_effect (saved sp s) A live (kinv_saved sp _ _ _ Hk)) as (s1 & A1 & Hrun & Hk1 & Htick & Htc & Hcu & Hcn & _ & Hkeep).
  assert (is_ready s1 A1 idle I') as HI1.
  { eapply ready_keep; [exact HI'|rewrite Htc; apply HI'|done|]. apply Hkeep. intros v Hd.
    by destruct (ready_not_delayed _ _ _ _ _ v (kinv_saved sp _ _ _ Hk) HI'). }
  destruct (switch_highest s1 A1 live I' Hk1 HI1) as (s2 & Hs2 & Hr & Hx); [by rewrite Hcn| |].
  { intros T'. rewrite Htc, Hcu, (proj1 (keeps_tick (with_sp 0) _ _ _ Hrun)). by apply saved_current_ok. }
  exists s1, s2. split_and!; try done. by rewrite Hx, Htick.
Qed.

(** Sequencing on the parts of the port. *)
Ltac port_simpl :=
  cbn [set_table set_timer p_kernel p_bus p_driver xIrqTable uxIrqSlots ullTimerReloadTicks ulFirstIrq cntp_tval_el0 cntp_ctl_el0].
Lemma port_onB {X Y} (c : M bus X) (k : X -> M (port LS HS DS) Y) p x b :
  c (p_bus p) = Some (x, b) ->
  (onB c ≫= k) p = k x (Port (p_kernel p) b (p_driver p) (xIrqTable p) (uxIrqSlots p) (ullTimerReloadTicks p) (ulFirstIrq p) (cntp_tval_el0 p) (cntp_ctl_el0 p)).
Proof. intros H. apply bind_eq. unfold onB, zoom. by rewrite H. Qed.
Lemma port_onK {X Y} (c : M (kernel LS HS) X) (k : X -> M (port LS HS DS) Y) p x s :
  c (p_kernel p) = Some (x, s) ->
  (onK c ≫= k) p = k x (Port s (p_bus p) (p_driver p) (xIrqTable p) (uxIrqSlots p) (ullTimerReloadTicks p) (ulFirstIrq p) (cntp_tval_el0 p) (cntp_ctl_el0 p)).
Proof. intros H. apply bind_eq. unfold onK, zoom. by rewrite H. Qed.

Definition GICC_IAR : Z := GICC_BASE + 0xC.
Definition GICC_EOIR : Z := GICC_BASE + 0x10.
(** The console and the interrupt registers of a board. *)
Definition gic_ready (pmr : Z) (b : bus) : Prop :=
  console pmr b /\ regs b !! GICC_IAR = None /\ regs b !! GICC_EOIR = None.
(** What the next read of the acknowledge register returns. *)
Definition pending (b : bus) : Z := u32 (dev_read (trace b) (nreads b) GICC_IAR).

(** The message of the first tick prints, or nothing does. *)
Lemma first_message pmr p id :
  gic_ready pmr (p_bus p) -> in_u 10 id ->
  exists b' w, ((if (ulFirstIrq p =? 0) && (id =? TIMER_IRQ_INTID) then
       modify (set_first 1);;
       onB (uart_printf (chars "[port] first IRQ taken: INTID=%u (timer=%u) - IRQ path is live" ++ [10; 0]) [UaUint id; UaUint TIMER_IRQ_INTID])
     else mret tt) : M (port LS HS DS) unit) p =
    Some (tt, Port (p_kernel p) b' (p_driver p) (xIrqTable p) (uxIrqSlots p) (ullTimerReloadTicks p)
                (if (ulFirstIrq p =? 0) && (id =? TIMER_IRQ_INTID) then 1 else ulFirstIrq p) (cntp_tval_el0 p) (cntp_ctl_el0 p)) /\
    regs b' = regs (p_bus p) /\ trace b' = trace (p_bus p) ++ w /\ masked_run pmr w = Some pmr.
Proof.
  intros [Hc _] Hid. destruct (_ && _); [|exists (p_bus p), []; rewrite app_nil_r; split; [by destruct p|done]].
  destruct (emits_printf pmr (chars "[port] first IRQ taken: INTID=%u (timer=%u) - IRQ path is live" ++ [10]) [] [UaUint id; UaUint TIMER_IRQ_INTID]
    (chars "[port] first IRQ taken: INTID=" ++ numeral 10 id ++ chars " (timer=" ++ numeral 10 TIMER_IRQ_INTID ++ chars ") - IRQ path is live" ++ [13; 10]))
    with (b := p_bus p) as (b' & w & E & R & T & _ & _ & W & _); [compute_done| |done|done|].
  { rewrite !Forall_cons, Forall_nil. cbn. unfold TIMER_IRQ_INTID, in_u in *; change (2 ^ 10) with 1024 in *; change (2 ^ 32) with 4294967296; lia. }
  exists b', w. split_and!; try done. unfold mbind, M_bind, modify, onB, zoom. cbn [p_bus set_first].
  change (chars _ ++ [10; 0]) with ((chars "[port] first IRQ taken: INTID=%u (timer=%u) - IRQ path is live" ++ [10]) ++ 0 :: []). by rewrite E.
Qed.

Lemma save_frame sp s : interruptible s -> (cur ← gets pxCurrentTCB; st_tcb cur (with_sp sp)) s = Some (tt, saved sp s).
Proof.
  intros (A & live & T & I & _ & HT & _). rewrite gets_run. unfold st_tcb, ld_tcb.
  erewrite bind_eq by (unfold get_opt; by rewrite HT). done.
Qed.

(** C10: The tick interrupt: when the timer's interrupt is pending, the
    scheduler's invariant holds (the interrupted task may be on a waiting list
    already, about to yield) and the interrupted task has not overrun its stack
    with the frame the entry pushed, the interrupt entry returns with the tick count
    advanced by one, a ready task of the highest priority current and the
    invariant kept, the timer armed for another period, the mask as it was, and
    the acknowledged identifier written to the end-of-interrupt register last;
    the console is only written under the mask. *)
Theorem timer_interrupt_ticks (pmr sp : Z) p :
  interruptible (p_kernel p) -> yields_ok sp (p_kernel p) -> gic_ready pmr (p_bus p) -> Z.land (pending (p_bus p)) 0x3FF = TIMER_IRQ_INTID ->
  exists p' w, flint_irq_entry sp p = Some (tt, p') /\ runs_highest (p_kernel p') /\
    xTickCount (p_kernel p') = u32 (xTickCount (p_kernel p) + 1) /\
    cntp_tval_el0 p' = ullTimerReloadTicks p /\ cntp_ctl_el0 p' = 1 /\ ulFirstIrq p' <> 0 /\
    xIrqTable p' = xIrqTable p /\ uxIrqSlots p' = uxIrqSlots p /\
    trace (p_bus p') = trace (p_bus p) ++ w ++ [(GICC_EOIR, pending (p_bus p))] /\ masked_run pmr w = Some pmr.
Proof.
  intros Hs Hy Hg Hid. pose proof Hg as (Hc & Hi & He). unfold flint_irq_entry, vPortIrqHandlerC.
  rewrite (port_onK _ _ _ _ _ (save_frame sp _ Hs)). cbn beta. erewrite port_onB by exact (mmio_read_dev GICC_IAR (p_bus p) Hi).
  port_simpl. fold (pending (p_bus p)).
  rewrite Hid. change (1020 <=? TIMER_IRQ_INTID) with false. cbv iota. rewrite gets_run.
  set (p1 := Port _ _ _ _ _ _ _ _ _). destruct (first_message pmr p1 TIMER_IRQ_INTID) as (b' & w & E & R & T & W); [done|done|].
  erewrite bind_eq by exact E. rewrite Z.eqb_refl, andb_true_r. 
  destruct (tick_and_switch sp _ Hs Hy) as (s1 & s2 & E1 & E2 & Hr & Hx).
  erewrite bind_eq.
  2:{ rewrite gets_run. unfold arm_timer. erewrite bind_eq by done. 
      erewrite port_onK by exact E1. unfold onK, zoom. cbn [p_kernel set_timer]. rewrite E2. done. }
  unfold onB, zoom. port_simpl.
  rewrite mmio_write_dev by (by rewrite R).
  eexists _, w. split; [done|]. cbn. rewrite T, <- app_assoc. split_and!; try done. by destruct (Z.eqb_spec (ulFirstIrq p) 0).
Qed.

(** ** Device interrupts *)

Definition table_ok p : Prop := length (xIrqTable p) = 4%nat /\ 0 <= uxIrqSlots p <= 4.
(** Slot [j] is the first of the [n] slots for [id]. *)
Definition first_slot (t : list PortIrqSlot_t) (n : nat) (id : Z) (j : nat) (sl : PortIrqSlot_t) : Prop :=
  (j < n)%nat /\ t !! j = Some sl /\ intid sl = id /\ forall k sl', (k < j)%nat -> t !! k = Some sl' -> intid sl' <> id.

Lemma find_slot_first t id i n j sl :
  (i + n <= length t)%nat -> first_slot (drop i t) n id j sl -> find_slot t id (Z.of_nat i) n = Some (Some (Z.of_nat (i + j))).
Proof.
  revert i j. induction n as [|n IHn]; intros i j Hl (Hj & Ht & Hid & Hmin); [lia|]. cbn [find_slot].
  destruct (lookup_lt_is_Some_2 t i ltac:(lia)) as [s0 Hs0]. unfold rdb. rewrite (proj2 (Z.ltb_ge _ 0)), Nat2Z.id, Hs0, obind_some by lia.
  assert (drop i t = s0 :: drop (S i) t) as Hd by by apply drop_S. rewrite Hd in *. destruct j as [|j].
  - injection Ht as ->. rewrite Hid, Z.eqb_refl. do 3 f_equal. lia.
  - rewrite (proj2 (Z.eqb_neq _ _)) by (apply (Hmin 0%nat); [lia|done]).
    replace (Z.of_nat i + 1) with (Z.of_nat (S i)) by lia. rewrite (IHn (S i) j); [do 3 f_equal; lia|lia|].
    split_and!; [lia|done|done|]. intros k sl' Hk Hk'. apply (Hmin (S k)); [lia|done].
Qed.

(** An installed interrupt: its handler runs once, its count goes up, the
    kernel is left alone and the interrupt is ended after the handler. *)
Lemma device_dispatch p j sl (b1 := mkBus (regs (p_bus p)) (S (nreads (p_bus p))) (trace (p_bus p))) b2 d2 :
  table_ok p -> regs (p_bus p) !! GICC_IAR = None -> intid sl = Z.land (pending (p_bus p)) 0x3FF -> 32 <= intid sl < 1020 ->
  first_slot (xIrqTable p) (Z.to_nat (uxIrqSlots p)) (intid sl) j sl ->
  irq_handler (handler sl) (b1, p_driver p) = Some (tt, (b2, d2)) -> regs b2 !! GICC_EOIR = None ->
  vPortIrqHandlerC p = Some (tt, Port (p_kernel p) (mkBus (regs b2) (nreads b2) (trace b2 ++ [(GICC_EOIR, pending (p_bus p))])) d2
    (<[j := IrqSlot (intid sl) (handler sl) (u32 (count sl + 1))]> (xIrqTable p)) (uxIrqSlots p)
    (ullTimerReloadTicks p) (ulFirstIrq p) (cntp_tval_el0 p) (cntp_ctl_el0 p)).
Proof.
  intros [Hl Hn] Hi Hid Hr Hf Hh He. unfold vPortIrqHandlerC. erewrite port_onB by exact (mmio_read_dev GICC_IAR (p_bus p) Hi).
  fold (pending (p_bus p)). rewrite <- Hid. rewrite (proj2 (Z.leb_gt 1020 _)) by lia. rewrite gets_run.
  rewrite (proj2 (Z.eqb_neq (intid sl) TIMER_IRQ_INTID)), andb_false_r by (unfold TIMER_IRQ_INTID; lia).
  erewrite bind_eq by done. erewrite bind_eq.
  2:{ rewrite !gets_run. port_simpl.
      erewrite opt_run by (apply (find_slot_first (xIrqTable p) (intid sl) 0 (Z.to_nat (uxIrqSlots p)) j sl); [lia|exact Hf]). cbn [Nat.add].
      destruct Hf as (Hj & Ht & _).
      erewrite opt_run by (unfold rdb; rewrite (proj2 (Z.ltb_ge _ 0)), Nat2Z.id by lia; exact Ht).
      pose proof (lookup_lt_Some _ _ _ Ht).
      erewrite opt_run by (unfold wrb; rewrite bool_decide_true by lia; rewrite Nat2Z.id; done).
      erewrite bind_eq by done. unfold onD, zoom. cbn [set_table p_bus p_driver]. fold b1. rewrite Hh. done. }
  unfold onB, zoom. port_simpl.
  by rewrite mmio_write_dev.
Qed.
(** A spurious interrupt is not ended and changes nothing. *)
Lemma spurious_ignored p :
  regs (p_bus p) !! GICC_IAR = None -> 1020 <= Z.land (pending (p_bus p)) 0x3FF ->
  exists p', vPortIrqHandlerC p = Some (tt, p') /\ p_kernel p' = p_kernel p /\ xIrqTable p' = xIrqTable p /\ trace (p_bus p') = trace (p_bus p).
Proof.
  intros Hi Hid. unfold vPortIrqHandlerC. erewrite port_onB by exact (mmio_read_dev GICC_IAR (p_bus p) Hi).
  fold (pending (p_bus p)). rewrite (proj2 (Z.leb_le 1020 _)) by lia. by eexists.
Qed.

(** ** Installing a handler *)

(** Byte lane [i] of a distributor register. *)
Definition lane (v i : Z) : Z := Z.land (Z.shiftr v (i * 8)) 255.
Lemma testbit_255 k : 0 <= k -> Z.testbit 255 k = (k <? 8).
Proof.
  intros Hk. change 255 with (Z.ones 8). destruct (Z.ltb_spec k 8).
  - by rewrite Z.ones_spec_low by lia.
  - by rewrite Z.ones_spec_high by lia.
Qed.
(** The read-modify-write sets its lane and keeps the other three. *)
Lemma set_lane v i val j (v' := Z.lor (Z.land v (notu 32 (Z.shiftl 255 (i * 8)))) (u32 (Z.shiftl val (i * 8)))) :
  0 <= i < 4 -> 0 <= j < 4 -> in_u 8 val -> lane v' j = if j =? i then val else lane v j.
Proof.
  intros Hi Hj Hv. apply Z.bits_inj'. intros k Hk. unfold lane, v'.
  assert (Z.testbit val k = Z.testbit val k && (k <? 8)) as Hval.
  { destruct (Z.ltb_spec k 8); [by rewrite andb_true_r|]. by rewrite (testbit_high 8 val) by (done || lia). }
  rewrite Z.land_spec, Z.shiftr_spec, Z.lor_spec, Z.land_spec, testbit_notu, testbit_wrapu, !Z.shiftl_spec, (testbit_255 k) by lia.
  destruct (Z.ltb_spec k 8) as [Hk8|Hk8].
  2:{ rewrite andb_false_r. destruct (Z.eqb_spec j i); [by rewrite Hval, andb_false_r|].
      rewrite Z.land_spec, testbit_255 by lia. rewrite (proj2 (Z.ltb_ge k 8)) by lia. by rewrite andb_false_r. }
  rewrite (proj2 (Z.ltb_lt (k + j * 8) 32)) by lia. cbn [andb]. rewrite andb_true_r.
  destruct (Z.eqb_spec j i) as [->|Hne].
  - replace (k + i * 8 - i * 8) with k by lia. rewrite testbit_255, (proj2 (Z.ltb_lt k 8)) by lia. by rewrite andb_false_r.
  - assert (Z.testbit 255 (k + j * 8 - i * 8) = false /\ Z.testbit val (k + j * 8 - i * 8) = false) as [-> ->].
    { destruct (Z.lt_ge_cases (k + j * 8 - i * 8) 0); [by rewrite !Z.testbit_neg_r by lia|].
      rewrite (testbit_high 8 val), (testbit_high 8 255) by (done || lia). done. }
    rewrite Z.land_spec, Z.shiftr_spec, testbit_255, (proj2 (Z.ltb_lt k 8)) by lia. by rewrite orb_false_r, !andb_true_r.
Qed.
Lemma gicd_set_byte_lane b bank id val v (reg := GICD_BASE + bank + Z.land id (notu 32 3)) :
  regs b !! reg = Some v -> 0 <= id -> in_u 8 val ->
  exists v' b', gicd_set_byte bank id val b = Some (tt, b') /\ regs b' = <[reg := v']> (regs b) /\
    forall j, 0 <= j < 4 -> lane v' j = if j =? id mod 4 then val else lane v j.
Proof.
  intros Hr Hid Hv. unfold gicd_set_byte. fold reg. rewrite (bind_eq _ _ _ _ _ (mmio_read_reg _ _ _ Hr)), mmio_write_reg by (by rewrite Hr).
  eexists _, _. split; [done|]. split; [done|]. intros j Hj. apply set_lane; [|done|done]. apply Z.mod_pos_bound. lia.
Qed.

(** The distributor's registers are the device's. *)
Definition gicd_free (b : bus) : Prop := forall a, GICD_BASE <= a < GICD_BASE + 0x1000 -> regs b !! a = None.
(** No further register is used, and only history is added when the distributor
    is the device's. *)
Definition bus_grows (b b' : bus) : Prop :=
  (forall a, regs b !! a = None -> regs b' !! a = None) /\
  (gicd_free b -> regs b' = regs b /\ trace b `prefix_of` trace b' /\ (nreads b <= nreads b')%nat).
#[local] Instance bus_grows_trans : Transitive bus_grows.
Proof.
  intros b b1 b2 (N1 & F1) (N2 & F2). split; [auto|]. intros Hf.
  destruct (F1 Hf) as (R1 & T1 & M1). destruct F2 as (R2 & T2 & M2); [unfold gicd_free; by rewrite R1|].
  split_and!; [congruence|by etrans|lia].
Qed.
Definition bus_step {X} (c : M bus X) (b b' : bus) (x : X) : Prop := c b = Some (x, b') /\ bus_grows b b'.
Lemma write_step a v b : GICD_BASE <= a < GICD_BASE + 0x1000 -> exists b', bus_step (mmio_write32 a v) b b' tt.
Proof.
  intros Hr. destruct (regs b !! a) eqn:E.
  - eexists. split; [apply mmio_write_reg; by rewrite E|]. split; [|intros Hf; rewrite (Hf a Hr) in E; done].
    cbn [regs]. intros a' Ha. rewrite lookup_insert_ne; [done|]. congruence.
  - eexists. split; [by apply mmio_write_dev|]. split; [done|]. intros _. split_and!; [done|by apply prefix_app_r|done].
Qed.
Lemma read_step a b : exists x b', bus_step (mmio_read32 a) b b' x.
Proof.
  destruct (regs b !! a) as [v|] eqn:E.
  - exists v, b. split; [by apply mmio_read_reg|]. done.
  - eexists _, _. split; [by apply mmio_read_dev|]. split; [done|]. intros _. split_and!; [done|done|cbn; lia].
Qed.
Lemma set_byte_step bank id val b :
  0 <= bank <= 0x800 -> 32 <= id < 1020 -> exists b', bus_step (gicd_set_byte bank id val) b b' tt.
Proof.
  intros Hb Hid. assert (in_u 10 (Z.land id (notu 32 3))) as Hl by (apply in_u_land_l; [done|unfold in_u; change (2 ^ 10) with 1024; lia]).
  unfold in_u in Hl. change (2 ^ 10) with 1024 in Hl. unfold gicd_set_byte.
  destruct (read_step (GICD_BASE + bank + Z.land id (notu 32 3)) b) as (v & b1 & E1 & G1).
  edestruct write_step as (b2 & E2 & G2); [|exists b2; split; [rewrite (bind_eq _ _ _ _ _ E1); exact E2|by etrans] ]. lia.
Qed.

Lemma exit_masked (k : kernel LS HS) : 0 <= uxCriticalNesting k < 2 ^ 64 - 1 ->
  exists m, vPortExitCritical (set_critical (u64 (uxCriticalNesting k + 1)) true k) = Some (tt, set_critical (uxCriticalNesting k) m k).
Proof.
  intros Hn. destruct (exit_critical _ Hn) as [H1 H2]. unfold vPortExitCritical, modify. cbn. rewrite H1, H2.
  destruct (_ =? 0); by eexists.
Qed.

Lemma install_ok p id priority h :
  table_ok p -> uxIrqSlots p < 4 -> h <> 0 -> 32 <= id < 1020 -> 0 <= uxCriticalNesting (p_kernel p) < 2 ^ 64 - 1 ->
  exists m b', xPortInstallIrq id priority h p =
    Some (0, Port (set_critical (uxCriticalNesting (p_kernel p)) m (p_kernel p)) b' (p_driver p)
      (<[Z.to_nat (uxIrqSlots p) := IrqSlot id h 0]> (xIrqTable p)) (uxIrqSlots p + 1)
      (ullTimerReloadTicks p) (ulFirstIrq p) (cntp_tval_el0 p) (cntp_ctl_el0 p)) /\
    (forall a, regs (p_bus p) !! a = None -> regs b' !! a = None) /\
    (gicd_free (p_bus p) -> regs b' = regs (p_bus p) /\ trace (p_bus p) `prefix_of` trace b' /\ (nreads (p_bus p) <= nreads b')%nat).
Proof.
  intros [Hl Hn] Hs Hh Hid Hc. destruct (exit_masked _ Hc) as [m Hm].
  assert (u32 (id / 16 * 4) = id / 16 * 4 /\ u32 (id / 32 * 4) = id / 32 * 4 /\ 0 <= id / 16 <= 63 /\ 0 <= id / 32 <= 31) as (W1 & W2 & ? & ?).
  { pose proof (Z.div_mod id 16 ltac:(lia)). pose proof (Z.mod_pos_bound id 16 ltac:(lia)).
    pose proof (Z.div_mod id 32 ltac:(lia)). pose proof (Z.mod_pos_bound id 32 ltac:(lia)). rewrite !u32_ok; lia. }
  destruct (set_byte_step 0x400 id priority (p_bus p)) as (b1 & E1 & G1); [lia|done|].
  destruct (set_byte_step 0x800 id 1 b1) as (b2 & E2 & G2); [lia|done|].
  destruct (read_step (GICD_BASE + 0xC00 + u32 (id / 16 * 4)) b2) as (v & b3 & E3 & G3).
  destruct (write_step (GICD_BASE + 0xC00 + u32 (id / 16 * 4)) (Z.land v (notu 32 (u32 (Z.shiftl 2 (id mod 16 * 2))))) b3) as (b4 & E4 & G4); [rewrite W1; lia|].
  destruct (write_step (GICD_BASE + 0x100 + u32 (id / 32 * 4)) (bitu 32 (id mod 32)) b4) as (b5 & E5 & G5); [rewrite W2; lia|].
  exists m, b5. split; [|change (bus_grows (p_bus p) b5); do 4 (etrans; [eassumption|]); done]. unfold xPortInstallIrq.
  erewrite port_onK by done. rewrite gets_run. port_simpl.
  rewrite (proj2 (Z.ltb_lt _ PORT_MAX_IRQS)), (proj2 (Z.eqb_neq h 0)), (proj2 (Z.leb_le 32 id)), (proj2 (Z.ltb_lt id 1020)) by (unfold PORT_MAX_IRQS; lia).
  cbn [andb negb]. erewrite bind_eq.
  2:{ rewrite gets_run. cbn [xIrqTable]. erewrite opt_run by (unfold wrb; rewrite bool_decide_true by lia; done).
      erewrite bind_eq by done. port_simpl. erewrite port_onB by exact E1. port_simpl. erewrite port_onB by exact E2. port_simpl.
      erewrite bind_eq by (erewrite port_onB by exact E3; unfold onB, zoom; port_simpl; rewrite E4; done).
      port_simpl. erewrite port_onB by exact E5. port_simpl. done. }
  port_simpl. erewrite port_onK by exact Hm. port_simpl. by rewrite u32_ok by lia.
Qed.

Lemma irq_count p j sl :
  table_ok p -> first_slot (xIrqTable p) (Z.to_nat (uxIrqSlots p)) (intid sl) j sl -> ulPortIrqCount (intid sl) p = Some (count sl, p).
Proof.
  intros [Hl Hn] Hf. unfold ulPortIrqCount. rewrite !gets_run.
  erewrite opt_run by (apply (find_slot_first (xIrqTable p) (intid sl) 0 (Z.to_nat (uxIrqSlots p)) j sl); [lia|exact Hf]). cbn [Nat.add].
  destruct Hf as (Hj & Ht & _). erewrite opt_run by (unfold rdb; rewrite (proj2 (Z.ltb_ge _ 0)), Nat2Z.id by lia; exact Ht). done.
Qed.
(** The slot just past those in use becomes the first for a new identifier. *)
Lemma new_slot t n sl sl' id :
  (n < length t)%nat -> intid sl = id -> intid sl' = id -> (forall k x, (k < n)%nat -> t !! k = Some x -> intid x <> id) ->
  first_slot (<[n := sl]> (<[n := sl']> t)) (S n) id n sl /\ first_slot (<[n := sl']> t) (S n) id n sl'.
Proof.
  intros Hn H1 H2 Hk. rewrite list_insert_insert_eq.
  split; (split_and!; [lia|by apply list_lookup_insert_eq|done|]; intros k s Hlt; rewrite list_lookup_insert_ne by lia; by apply Hk).
Qed.

(** A handler that was installed is served: xPortInstallIrq of a shared
    interrupt that is not in the table accepts it with a count of zero while
    there is a free slot, and when that interrupt is then pending the interrupt
    handler runs the installed code once, counts it, ends the interrupt
    afterwards and leaves the kernel alone. *)
Theorem installed_irq_served p (id priority h : Z) :
  table_ok p -> uxIrqSlots p < PORT_MAX_IRQS -> h <> 0 -> 32 <= id < 1020 -> 0 <= uxCriticalNesting (p_kernel p) < 2 ^ 64 - 1 ->
  (forall k sl, (k < Z.to_nat (uxIrqSlots p))%nat -> xIrqTable p !! k = Some sl -> intid sl <> id) ->
  regs (p_bus p) !! GICC_IAR = None ->
  exists p1, xPortInstallIrq id priority h p = Some (0, p1) /\ table_ok p1 /\ ulPortIrqCount id p1 = Some (0, p1) /\
    forall b2 d2, let b := p_bus p1 in
    Z.land (pending b) 0x3FF = id -> irq_handler h (mkBus (regs b) (S (nreads b)) (trace b), p_driver p) = Some (tt, (b2, d2)) ->
    regs b2 !! GICC_EOIR = None ->
    exists p2, vPortIrqHandlerC p1 = Some (tt, p2) /\ p_kernel p2 = p_kernel p1 /\ ulPortIrqCount id p2 = Some (1, p2) /\
      trace (p_bus p2) = trace b2 ++ [(GICC_EOIR, pending b)] /\ p_driver p2 = d2.
Proof.
  intros Hok Hs Hh Hid Hc Hnew Hi. pose proof Hok as [Hl Hn]. unfold PORT_MAX_IRQS in Hs.
  destruct (install_ok p id priority h Hok Hs Hh Hid Hc) as (m & b1 & E & Hfree & _).
  set (p1 := Port _ _ _ _ _ _ _ _ _) in E. exists p1. split; [done|].
  assert (table_ok p1) as Hok1 by (split; cbn; [by rewrite length_insert|lia]). split; [done|].
  destruct (new_slot (xIrqTable p) (Z.to_nat (uxIrqSlots p)) (IrqSlot id h 1) (IrqSlot id h 0) id) as [Hf2 Hf1]; [lia|done|done|done|].
  rewrite <- Z2Nat.inj_succ, <- Z.add_1_r in Hf1, Hf2 by lia.
  split; [exact (irq_count p1 _ (IrqSlot id h 0) Hok1 Hf1)|]. intros b2 d2 b Hp Hrun He.
  eexists. split; [apply (device_dispatch p1 (Z.to_nat (uxIrqSlots p)) (IrqSlot id h 0) b2 d2 Hok1); [by apply Hfree|done|done|exact Hf1|exact Hrun|done]|].
  split; [done|]. split; [|by split]. apply (irq_count (Port _ _ _ _ _ _ _ _ _) (Z.to_nat (uxIrqSlots p)) (IrqSlot id h 1)); [|exact Hf2].
  split; cbn; [by rewrite !length_insert|lia].
Qed.
End port_props.

(** ** A board with the demonstration kernel *)

#[local] Existing Instance no_queues.
Definition GENET_INTID : Z := 189.
(** The pending interrupt is the Ethernet controller's once it is enabled, the timer's before. *)
#[local] Instance demo_gic : Device := fun tr _ a =>
  if a =? GICC_IAR then if bool_decide ((GICD_BASE + 0x114, bitu 32 29) ∈ tr) then GENET_INTID else TIMER_IRQ_INTID else 32.
#[local] Instance demo_handlers : IrqHandlers unit := fun _ => zoom fst (fun b x => (b, x.2)) (mmio_write32 0xFD580210 1).
Definition demo_port : port (lmem item lst) heap unit := Port demo (mkBus {[GICC_PMR_REG := 240]} 0 []) tt (replicate 4 (IrqSlot 0 0 0)) 0 54000 0 0 0.

Lemma timer_interrupt_ticks_witness :
  exists p', flint_irq_entry demo_sp demo_port = Some (tt, p') /\ xTickCount (p_kernel p') = 1 /\ cntp_tval_el0 p' = 54000.
Proof.
  destruct (timer_interrupt_ticks demo_idle 240 demo_sp demo_port (sched_interruptible _ _ demo_sched_inv) demo_yields) as (p' & w & E & _ & Ht & Hv & _).
  - split; [|split; vm_compute; reflexivity]. split; [vm_compute; intuition congruence|]. split; [vm_compute; reflexivity|].
    repeat constructor; vm_compute; reflexivity.
  - vm_compute. reflexivity.
  - exists p'. split_and!; [exact E|rewrite Ht; vm_compute; reflexivity|exact Hv].
Defined.
Definition demo_bus : bus := default (mkBus ∅ 0 []) (p_bus ∘ snd <$> xPortInstallIrq GENET_INTID 128 0x90000 demo_port).
Lemma demo_installed p1 : xPortInstallIrq GENET_INTID 128 0x90000 demo_port = Some (0, p1) -> p_bus p1 = demo_bus.
Proof. intros E. unfold demo_bus. by rewrite E. Qed.
Lemma demo_served : Z.land (pending demo_bus) 0x3FF = GENET_INTID.
Proof. vm_compute. reflexivity. Qed.
Definition demo_bus2 : bus := mkBus (regs demo_bus) (S (nreads demo_bus)) (trace demo_bus ++ [(0xFD580210, 1)]).
Lemma demo_handled : irq_handler 0x90000 (mkBus (regs demo_bus) (S (nreads demo_bus)) (trace demo_bus), tt) = Some (tt, (demo_bus2, tt)).
Proof. vm_compute. reflexivity. Qed.

Lemma installed_irq_served_witness :
  exists p1 p2, xPortInstallIrq GENET_INTID 128 0x90000 demo_port = Some (0, p1) /\
    vPortIrqHandlerC p1 = Some (tt, p2) /\ ulPortIrqCount GENET_INTID p2 = Some (1, p2).
Proof.
  destruct (installed_irq_served demo_port GENET_INTID 128 0x90000) as (p1 & E & _ & _ & H).
  - split; vm_compute; intuition congruence.
  - vm_compute. reflexivity.
  - done.
  - unfold GENET_INTID. lia.
  - exact demo_nesting.
  - intros k sl Hk. vm_compute in Hk. lia.
  - vm_compute. reflexivity.
  - rewrite (demo_installed p1 E) in H.
    destruct (H demo_bus2 tt demo_served demo_handled) as (p2 & E2 & _ & Ec & _); [vm_compute; reflexivity|].
    exists p1, p2. exact (conj E (conj E2 Ec)).
Defined.
