(* ===== verification/GenetRegs.v ===== *)
(** * Registers of the GENET Ethernet controller (src/bsp/rpi4/genet.c)

    Offsets from the base of the block, and the bits and sizes the driver
    uses, under the names of the source. *)

From S2P Require Import Prelude.

Definition GENET_BASE : Z := 0xfd580000.
Definition SYS_REV_CTRL : Z := 0.
Definition SYS_PORT_CTRL : Z := 4.
Definition PORT_MODE_EXT_GPHY : Z := 3.
Definition LED_ACT_SOURCE_MAC : Z := 0x200.
Definition SYS_RBUF_FLUSH_CTRL : Z := 8.
Definition SYS_TBUF_FLUSH_CTRL : Z := 0xc.
Definition EXT_RGMII_OOB_CTRL : Z := 0x8c.
Definition RGMII_LINK : Z := 0x10.
Definition OOB_DISABLE : Z := 0x20.
Definition RGMII_MODE_EN : Z := 0x40.
Definition ID_MODE_DIS : Z := 0x10000.
Definition RBUF_CTRL : Z := 0x300.
Definition RBUF_ALIGN_2B : Z := 2.
Definition RBUF_CHK_CTRL : Z := 0x314.
Definition RBUF_TBUF_SIZE_CTRL : Z := 0x3b4.
Definition HFB_CTRL : Z := 0xfc00.
Definition HFB_FLT_ENABLE_V3PLUS : Z := 0xfc10.
Definition INTRL2_0 : Z := 0x200.
Definition INTRL2_CPU_STAT : Z := 0.
Definition INTRL2_CPU_CLEAR : Z := 8.
Definition INTRL2_CPU_MASK_STATUS : Z := 0xc.
Definition INTRL2_CPU_MASK_SET : Z := 0x10.
Definition INTRL2_CPU_MASK_CLEAR : Z := 0x14.
Definition UMAC_IRQ_RXDMA_MBDONE : Z := 0x2000.
Definition UMAC_CMD : Z := 0x808.
Definition CMD_TX_EN : Z := 1.
Definition CMD_RX_EN : Z := 2.
Definition CMD_SPEED_SHIFT : Z := 2.
Definition CMD_SPEED_1000 : Z := 8.
Definition CMD_SPEED_100 : Z := 4.
Definition CMD_SPEED_MASK : Z := 0xc.
Definition CMD_PROMISC : Z := 0x10.
Definition CMD_SW_RESET : Z := 0x2000.
Definition CMD_LCL_LOOP_EN : Z := 0x8000.
Definition UMAC_MAC0 : Z := 0x80c.
Definition UMAC_MAC1 : Z := 0x810.
Definition UMAC_MAX_FRAME_LEN : Z := 0x814.
Definition UMAC_TX_FLUSH : Z := 0xb34.
Definition UMAC_MIB_CTRL : Z := 0xd80.
Definition UMAC_MDF_CTRL : Z := 0xe50.
Definition MIB_RESET_RX : Z := 1.
Definition MIB_RESET_RUNT : Z := 2.
Definition MIB_RESET_TX : Z := 4.
Definition UMAC_MDIO_CMD : Z := 0xe14.
Definition MDIO_START_BUSY : Z := 0x20000000.
Definition MDIO_READ_OP : Z := 0x8000000.
Definition MDIO_WRITE_OP : Z := 0x4000000.
Definition MDIO_PMD_SHIFT : Z := 0x15.
Definition MDIO_REG_SHIFT : Z := 0x10.
Definition RDMA_OFFSET : Z := 0x2000.
Definition TDMA_OFFSET : Z := 0x4000.
Definition DMA_DESC_SIZE : Z := 0xc.
Definition DMA_RING_REG_BASE : Z := 0xc00.
Definition DMA_RING_CFG : Z := 0x1040.
Definition DMA_CTRL : Z := 0x1044.
Definition DMA_STATUS_REG : Z := 0x1048.
Definition DMA_SCB_BURST_SIZE : Z := 0x104c.
Definition DMA_MAX_BURST_LENGTH : Z := 8.
Definition DMA_EN : Z := 1.
Definition DMA_RING_BUF_EN_SHIFT : Z := 1.
Definition RDMA_WRITE_PTR : Z := 0.
Definition RDMA_PROD_INDEX : Z := 8.
Definition RDMA_CONS_INDEX : Z := 0xc.
Definition TDMA_READ_PTR : Z := 0.
Definition TDMA_CONS_INDEX : Z := 8.
Definition TDMA_PROD_INDEX : Z := 0xc.
Definition DMA_RING_BUF_SIZE : Z := 0x10.
Definition DMA_START_ADDR : Z := 0x14.
Definition DMA_END_ADDR : Z := 0x1c.
Definition DMA_MBUF_DONE_THRESH : Z := 0x24.
Definition DMA_FLOW_PERIOD : Z := 0x28.
Definition RDMA_XON_XOFF_THRESH : Z := 0x28.
Definition RDMA_READ_PTR : Z := 0x2c.
Definition DMA_RING_SIZE_SHIFT : Z := 0x10.
Definition DMA_FC_THRESH_LO : Z := 5.
Definition DMA_FC_THRESH_HI : Z := 0x10.
Definition DMA_XOFF_THRESHOLD_SHIFT : Z := 0x10.
Definition MII_BCM54XX_AUX_CTL : Z := 0x18.
Definition AUXCTL_SHDWSEL_MISC : Z := 7.
Definition AUXCTL_MISC_WREN : Z := 0x8000.
Definition AUXCTL_MISC_RGMII_SKEW_EN : Z := 0x100.
Definition MII_BCM54XX_SHD : Z := 0x1c.
Definition SHD_WRITE : Z := 0x8000.
Definition BCM54810_SHD_CLK_CTL : Z := 3.
Definition BCM54810_SHD_CLK_CTL_GTXCLK_EN : Z := 0x200.
Definition DMA_BD_LENGTH_SHIFT : Z := 0x10.
Definition DMA_BD_LENGTH_MASK : Z := 0xfff.
Definition DMA_TX_APPEND_CRC : Z := 0x40.
Definition DMA_TX_QTAG_SHIFT : Z := 7.
Definition DMA_TX_QTAG : Z := 0x1f80.
Definition DMA_SOP : Z := 0x2000.
Definition DMA_EOP : Z := 0x4000.
Definition DMA_RX_ERR_MASK : Z := 0x1f.
Definition RX_BUF_OFFSET : Z := 2.
Definition DMA_OWN : Z := 0x8000.
Definition DEFAULT_Q : Z := 0x10.
Definition TOTAL_DESC : Z := 0x100.
Definition RX_DESCS : Z := 0x100.
Definition TX_DESCS : Z := 0x100.
Definition RX_BUF_LENGTH : Z := 0x800.
Definition ENET_MAX_MTU_SIZE : Z := 0x600.
Definition GENET_IRQ0_INTID : Z := 189.
Definition GIC_PRIO_TIMESTAMP : Z := 128.
