(* ===== verification/Genet.v ===== *)
(** * The GENET Ethernet driver (src/bsp/rpi4/genet.c)

    The driver's static state [genet] over the bus: MDIO and PHY, reset and ring
    set-up, transmission, reception and the timestamps taken by the receive
    interrupt.  The receive buffers are memory the DMA engine writes and belong
    to the hardware parameter; barriers and fixed delays have no effect here.
    Where C leaves the order of the arguments' evaluation open, it is left to
    right.  The model lets the hardware change at every access; the theorems
    about reception assume that no frame arrives while a call runs ([rx_hw] of
    GenetRx).  The installation of the interrupt runs on the port of PortIrq, with
    the driver's state as the port's driver state. *)

From S2P Require Import Prelude CInt CStr Lists ListSpec ListRefine Alloc Tasks Mmio Uart PortIrq GenetRegs.

Record genet := mkGenet {
  s_rx_ts : list Z; s_rx_ts_seen : Z; s_rx_ts_late : Z; s_tx_ts : Z;
  s_irq_ok : bool; s_rx_dbg : Z; s_rx_drop : Z; s_rx_cons : Z; s_tx_prod : Z;
  s_link : bool; s_phy_addr : Z; s_tx_buf : list (list Z); cnt_reads : nat }.
Definition set_rx_ts v g := mkGenet v (s_rx_ts_seen g) (s_rx_ts_late g) (s_tx_ts g) (s_irq_ok g) (s_rx_dbg g) (s_rx_drop g) (s_rx_cons g) (s_tx_prod g) (s_link g) (s_phy_addr g) (s_tx_buf g) (cnt_reads g).
Definition set_seen v g := mkGenet (s_rx_ts g) v (s_rx_ts_late g) (s_tx_ts g) (s_irq_ok g) (s_rx_dbg g) (s_rx_drop g) (s_rx_cons g) (s_tx_prod g) (s_link g) (s_phy_addr g) (s_tx_buf g) (cnt_reads g).
Definition set_late v g := mkGenet (s_rx_ts g) (s_rx_ts_seen g) v (s_tx_ts g) (s_irq_ok g) (s_rx_dbg g) (s_rx_drop g) (s_rx_cons g) (s_tx_prod g) (s_link g) (s_phy_addr g) (s_tx_buf g) (cnt_reads g).
Definition set_tx_ts v g := mkGenet (s_rx_ts g) (s_rx_ts_seen g) (s_rx_ts_late g) v (s_irq_ok g) (s_rx_dbg g) (s_rx_drop g) (s_rx_cons g) (s_tx_prod g) (s_link g) (s_phy_addr g) (s_tx_buf g) (cnt_reads g).
Definition set_irq_ok v g := mkGenet (s_rx_ts g) (s_rx_ts_seen g) (s_rx_ts_late g) (s_tx_ts g) v (s_rx_dbg g) (s_rx_drop g) (s_rx_cons g) (s_tx_prod g) (s_link g) (s_phy_addr g) (s_tx_buf g) (cnt_reads g).
Definition set_dbg v g := mkGenet (s_rx_ts g) (s_rx_ts_seen g) (s_rx_ts_late g) (s_tx_ts g) (s_irq_ok g) v (s_rx_drop g) (s_rx_cons g) (s_tx_prod g) (s_link g) (s_phy_addr g) (s_tx_buf g) (cnt_reads g).
Definition set_drop v g := mkGenet (s_rx_ts g) (s_rx_ts_seen g) (s_rx_ts_late g) (s_tx_ts g) (s_irq_ok g) (s_rx_dbg g) v (s_rx_cons g) (s_tx_prod g) (s_link g) (s_phy_addr g) (s_tx_buf g) (cnt_reads g).
Definition set_cons v g := mkGenet (s_rx_ts g) (s_rx_ts_seen g) (s_rx_ts_late g) (s_tx_ts g) (s_irq_ok g) (s_rx_dbg g) (s_rx_drop g) v (s_tx_prod g) (s_link g) (s_phy_addr g) (s_tx_buf g) (cnt_reads g).
Definition set_prod v g := mkGenet (s_rx_ts g) (s_rx_ts_seen g) (s_rx_ts_late g) (s_tx_ts g) (s_irq_ok g) (s_rx_dbg g) (s_rx_drop g) (s_rx_cons g) v (s_link g) (s_phy_addr g) (s_tx_buf g) (cnt_reads g).
Definition set_link v g := mkGenet (s_rx_ts g) (s_rx_ts_seen g) (s_rx_ts_late g) (s_tx_ts g) (s_irq_ok g) (s_rx_dbg g) (s_rx_drop g) (s_rx_cons g) (s_tx_prod g) v (s_phy_addr g) (s_tx_buf g) (cnt_reads g).
Definition set_phy v g := mkGenet (s_rx_ts g) (s_rx_ts_seen g) (s_rx_ts_late g) (s_tx_ts g) (s_irq_ok g) (s_rx_dbg g) (s_rx_drop g) (s_rx_cons g) (s_tx_prod g) (s_link g) v (s_tx_buf g) (cnt_reads g).
Definition set_tx_buf v g := mkGenet (s_rx_ts g) (s_rx_ts_seen g) (s_rx_ts_late g) (s_tx_ts g) (s_irq_ok g) (s_rx_dbg g) (s_rx_drop g) (s_rx_cons g) (s_tx_prod g) (s_link g) (s_phy_addr g) v (cnt_reads g).
Definition set_cnt v g := mkGenet (s_rx_ts g) (s_rx_ts_seen g) (s_rx_ts_late g) (s_tx_ts g) (s_irq_ok g) (s_rx_dbg g) (s_rx_drop g) (s_rx_cons g) (s_tx_prod g) (s_link g) (s_phy_addr g) (s_tx_buf g) v.

(** The hardware behind the driver: the bytes the DMA engine has put in receive
    buffer [i] after the writes and the reads so far, the addresses of the
    buffers, and the value of the n-th read of the counter. *)
Class GenetHw := {
  rx_frame : list (Z * Z) -> nat -> Z -> list Z;
  rx_buf_pa : Z -> Z;
  tx_buf_pa : Z -> Z;
  cntpct_at : nat -> Z }.

Declare Scope reg_scope.
Delimit Scope reg_scope with reg.
Infix ".|" := Z.lor (at level 50, left associativity) : reg_scope.
Infix ".&" := Z.land (at level 40, left associativity) : reg_scope.
Infix ".<<" := (fun x n => wrapu 32 (Z.shiftl x n)) (at level 30, no associativity) : reg_scope.
#[local] Open Scope reg_scope.

Section genet.
Context {D : Device} {HW : GenetHw}.
Abbreviation G := (M (bus * genet)).

Definition onBus {A} (c : M bus A) : G A := zoom fst (fun b x => (b, x.2)) c.
Definition gst {A} (f : genet -> A) : G A := gets (fun x => f x.2).
Definition upd (f : genet -> genet) : G unit := modify (fun x => (x.1, f x.2)).

Definition rd (off : Z) : G Z := onBus (mmio_read32 (GENET_BASE + off)).
Definition wr (off v : Z) : G unit := onBus (mmio_write32 (GENET_BASE + off) v).
Definition gprintf (fmt : list Z) (ap : list uart_arg) : G unit := onBus (uart_printf fmt ap).

(** ** MDIO *)

(** The wait for the end of a transaction, with the rounds to go. *)
Fixpoint mdio_wait (rounds : nat) : G unit :=
  match rounds with
  | O => mret tt
  | S rounds => v ← rd UMAC_MDIO_CMD; if v .& MDIO_START_BUSY =? 0 then mret tt else mdio_wait rounds
  end.
Definition mdio_read (phy reg : Z) : G Z :=
  wr UMAC_MDIO_CMD (MDIO_START_BUSY .| MDIO_READ_OP .| (phy .<< MDIO_PMD_SHIFT) .| (reg .<< MDIO_REG_SHIFT));;
  mdio_wait (Z.to_nat 100000);;
  v ← rd UMAC_MDIO_CMD;
  mret (u16 (v .& 0xFFFF)).
Definition mdio_write (phy reg val : Z) : G unit :=
  wr UMAC_MDIO_CMD (MDIO_START_BUSY .| MDIO_WRITE_OP .| (phy .<< MDIO_PMD_SHIFT) .| (reg .<< MDIO_REG_SHIFT) .| val);;
  mdio_wait (Z.to_nat 100000).

(** [for (a = 0; a < 32; a++)], with the addresses to go. *)
Fixpoint scan_from (a : Z) (n : nat) : G Z :=
  match n with
  | O => mret (-1)
  | S n =>
      id1 ← mdio_read a 2;
      if negb (id1 =? 0) && negb (id1 =? 0xFFFF) then mret a else scan_from (a + 1) n
  end.
Definition mdio_scan : G Z := scan_from 0 32.

Definition phy_read_shadow (phy shd : Z) : G Z :=
  mdio_write phy MII_BCM54XX_SHD (u16 ((shd .& 0x1F) .<< 10));;
  v ← mdio_read phy MII_BCM54XX_SHD;
  mret (u16 (v .& 0x3FF)).
Definition phy_write_shadow (phy shd val : Z) : G unit :=
  mdio_write phy MII_BCM54XX_SHD (u16 (SHD_WRITE .| ((shd .& 0x1F) .<< 10) .| (val .& 0x3FF))).

Definition phy_config_rgmii_delays (phy : Z) : G unit :=
  mdio_write phy MII_BCM54XX_AUX_CTL (u16 (AUXCTL_SHDWSEL_MISC .| (AUXCTL_SHDWSEL_MISC .<< 12)));;
  misc ← mdio_read phy MII_BCM54XX_AUX_CTL;
  (let misc := u16 (misc .| (AUXCTL_MISC_WREN .| AUXCTL_MISC_RGMII_SKEW_EN)) in
   mdio_write phy MII_BCM54XX_AUX_CTL (u16 (AUXCTL_SHDWSEL_MISC .| misc)));;
  clk ← phy_read_shadow phy BCM54810_SHD_CLK_CTL;
  phy_write_shadow phy BCM54810_SHD_CLK_CTL (clk .& u16 (notu 32 BCM54810_SHD_CLK_CTL_GTXCLK_EN));;
  clk_after ← phy_read_shadow phy BCM54810_SHD_CLK_CTL;
  mdio_write phy MII_BCM54XX_AUX_CTL (u16 (AUXCTL_SHDWSEL_MISC .| (AUXCTL_SHDWSEL_MISC .<< 12)));;
  m1 ← mdio_read phy MII_BCM54XX_AUX_CTL;
  m2 ← mdio_read phy MII_BCM54XX_AUX_CTL;
  gprintf (chars "[genet] PHY delays: MISC=0x%x (skew bit8 %s) | CLK_CTL 0x%x -> 0x%x (GTXCLK %s)" ++ [10; 0])
    [UaUint m1; UaStr (if negb (m2 .& AUXCTL_MISC_RGMII_SKEW_EN =? 0) then lit "ON" else lit "off"); UaUint clk; UaUint clk_after;
     UaStr (if negb (clk_after .& BCM54810_SHD_CLK_CTL_GTXCLK_EN =? 0) then lit "STILL ON" else lit "off")].

(** ** Ring registers *)

Definition rdma_ring (reg : Z) : Z := u32 (RDMA_OFFSET + DMA_RING_REG_BASE + DEFAULT_Q * 0x40 + reg).
Definition tdma_ring (reg : Z) : Z := u32 (TDMA_OFFSET + DMA_RING_REG_BASE + DEFAULT_Q * 0x40 + reg).
Definition rx_desc (i word : Z) : Z := u32 (RDMA_OFFSET + i * DMA_DESC_SIZE + word * 4).
Definition tx_desc (i word : Z) : Z := u32 (TDMA_OFFSET + i * DMA_DESC_SIZE + word * 4).

(** ** Diagnostics *)

Definition genet_diag : G unit :=
  rev ← rd SYS_REV_CTRL;
  gprintf (chars "[genet] SYS_REV_CTRL = %p  (major nibble=%u, expect 6)" ++ [10; 0]) [UaPtr rev; UaUint (Z.shiftr rev 24 .& 0xF)];;
  a ← mdio_scan;
  if a <? 0 then gprintf (chars "[genet] *** no PHY answered MDIO ***" ++ [10; 0]) []
  else
    upd (set_phy (u32 a));;
    phy ← gst s_phy_addr;
    bmsr ← mdio_read phy 1;
    id2 ← mdio_read phy 2;
    id3 ← mdio_read phy 3;
    gprintf (chars "[genet] PHY @ %u: ID=0x%x:0x%x BMSR=0x%x link=%s" ++ [10; 0])
      [UaUint phy; UaUint id2; UaUint id3; UaUint bmsr; UaStr (if negb (bmsr .& 4 =? 0) then lit "UP" else lit "down")].

Definition genet_probe : G unit :=
  a ← rd (TDMA_OFFSET + DMA_CTRL); b ← rd (TDMA_OFFSET + DMA_STATUS_REG);
  c ← rd (RDMA_OFFSET + DMA_CTRL); d ← rd (RDMA_OFFSET + DMA_STATUS_REG);
  gprintf (chars "[probe] TDMA CTRL=%p STATUS=%p | RDMA CTRL=%p STATUS=%p" ++ [10; 0]) [UaPtr a; UaPtr b; UaPtr c; UaPtr d];;
  a ← rd UMAC_CMD; b ← rd RBUF_CTRL;
  gprintf (chars "[probe] UMAC_CMD=%p RBUF_CTRL=%p" ++ [10; 0]) [UaPtr a; UaPtr b];;
  a ← rd (rx_desc 0 0); b ← rd (rx_desc 0 1); c ← rd (rdma_ring DMA_RING_BUF_SIZE); d ← rd (rdma_ring DMA_END_ADDR);
  gprintf (chars "[probe] RX desc0: sts=%p addr_lo=%p | RX ringbufsz=%p end=%p" ++ [10; 0]) [UaPtr a; UaPtr b; UaPtr c; UaPtr d].

(** ** Timestamps *)

Definition cntpct : G Z :=
  n ← gst cnt_reads; upd (set_cnt (S n));; mret (u64 (cntpct_at n)).

(** The loop of [rx_stamp_new], with the descriptors it may still stamp. *)
Fixpoint stamp_loop (rounds : nat) (now prod : Z) (from_isr : bool) : G unit :=
  match rounds with
  | O => mret tt
  | S rounds =>
      seen ← gst s_rx_ts_seen;
      if negb (seen .& 0xFFFF =? prod) then
        ts ← gst s_rx_ts;
        ts ← of_opt (wrb ts (seen mod RX_DESCS) now);
        upd (set_rx_ts ts);;
        upd (set_seen (u32 (seen + 1)));;
        (if negb from_isr then upd (fun g => set_late (u32 (s_rx_ts_late g + 1)) g) else mret tt);;
        stamp_loop rounds now prod from_isr
      else mret tt
  end.
Definition rx_stamp_new (from_isr : bool) : G unit :=
  now ← cntpct;
  prod ← rd (rdma_ring RDMA_PROD_INDEX);
  stamp_loop (Z.to_nat RX_DESCS) now (prod .& 0xFFFF) from_isr.

Definition genet_isr : G unit :=
  st ← rd (INTRL2_0 + INTRL2_CPU_STAT);
  mask ← rd (INTRL2_0 + INTRL2_CPU_MASK_STATUS);
  let stat := st .& notu 32 mask in
  wr (INTRL2_0 + INTRL2_CPU_CLEAR) stat;;
  if negb (stat .& UMAC_IRQ_RXDMA_MBDONE =? 0) then rx_stamp_new true else mret tt.

Definition genet_last_tx_stamp : G Z := gst s_tx_ts.

(** ** Reset and rings *)

Definition umac_reset : G unit :=
  reg ← rd SYS_RBUF_FLUSH_CTRL;
  wr SYS_RBUF_FLUSH_CTRL (reg .| 2);;
  wr SYS_RBUF_FLUSH_CTRL ((reg .| 2) .& notu 32 2);;
  wr SYS_RBUF_FLUSH_CTRL 0;;
  wr UMAC_CMD 0;;
  wr UMAC_CMD (CMD_SW_RESET .| CMD_LCL_LOOP_EN);;
  wr UMAC_CMD 0;;
  wr UMAC_MIB_CTRL (MIB_RESET_RX .| MIB_RESET_TX .| MIB_RESET_RUNT);;
  wr UMAC_MIB_CTRL 0;;
  wr UMAC_MAX_FRAME_LEN ENET_MAX_MTU_SIZE;;
  reg ← rd RBUF_CTRL;
  wr RBUF_CTRL (reg .| RBUF_ALIGN_2B);;
  wr RBUF_TBUF_SIZE_CTRL 1;;
  wr RBUF_CHK_CTRL 0;;
  wr UMAC_MDF_CTRL 0;;
  wr HFB_CTRL 0;;
  wr HFB_FLT_ENABLE_V3PLUS 0;;
  wr (HFB_FLT_ENABLE_V3PLUS + 4) 0.

Definition set_mac_address (mac : list Z) : G unit :=
  m0 ← of_opt (rdb mac 0); m1 ← of_opt (rdb mac 1); m2 ← of_opt (rdb mac 2);
  m3 ← of_opt (rdb mac 3); m4 ← of_opt (rdb mac 4); m5 ← of_opt (rdb mac 5);
  wr UMAC_MAC0 ((m0 .<< 24) .| (m1 .<< 16) .| (m2 .<< 8) .| m3);;
  wr UMAC_MAC1 ((m4 .<< 8) .| m5).

Definition disable_dma : G unit :=
  reg ← rd (TDMA_OFFSET + DMA_CTRL);
  wr (TDMA_OFFSET + DMA_CTRL) (reg .& notu 32 DMA_EN);;
  reg ← rd (RDMA_OFFSET + DMA_CTRL);
  wr (RDMA_OFFSET + DMA_CTRL) (reg .& notu 32 DMA_EN);;
  wr UMAC_TX_FLUSH 1;;
  wr UMAC_TX_FLUSH 0.
Definition enable_dma : G unit :=
  let dma_ctrl := (1 .<< (DEFAULT_Q + DMA_RING_BUF_EN_SHIFT)) .| DMA_EN in
  wr (TDMA_OFFSET + DMA_CTRL) dma_ctrl;;
  wr (RDMA_OFFSET + DMA_CTRL) dma_ctrl.

(** [for (i = 0; i < RX_DESCS; i++)], with the descriptors to go. *)
Fixpoint point_descs (i : Z) (n : nat) : G unit :=
  match n with
  | O => mret tt
  | S n =>
      wr (rx_desc i 1) (rx_buf_pa i .& 0xFFFFFFFF);;
      wr (rx_desc i 2) (u32 (Z.shiftr (rx_buf_pa i) 32));;
      point_descs (i + 1) n
  end.
Definition rx_ring_init : G unit :=
  upd (set_cons 0);;
  wr (RDMA_OFFSET + DMA_SCB_BURST_SIZE) DMA_MAX_BURST_LENGTH;;
  point_descs 0 (Z.to_nat RX_DESCS);;
  wr (rdma_ring RDMA_PROD_INDEX) 0;;
  wr (rdma_ring RDMA_CONS_INDEX) 0;;
  wr (rdma_ring DMA_RING_BUF_SIZE) ((RX_DESCS .<< DMA_RING_SIZE_SHIFT) .| RX_BUF_LENGTH);;
  wr (rdma_ring RDMA_XON_XOFF_THRESH) ((DMA_FC_THRESH_LO .<< DMA_XOFF_THRESHOLD_SHIFT) .| DMA_FC_THRESH_HI);;
  wr (rdma_ring DMA_START_ADDR) 0;;
  wr (rdma_ring (DMA_START_ADDR + 4)) 0;;
  wr (rdma_ring RDMA_READ_PTR) 0;;
  wr (rdma_ring RDMA_WRITE_PTR) 0;;
  wr (rdma_ring (RDMA_WRITE_PTR + 4)) 0;;
  wr (rdma_ring DMA_END_ADDR) (RX_DESCS * DMA_DESC_SIZE / 4 - 1);;
  wr (rdma_ring (DMA_END_ADDR + 4)) 0;;
  wr (rdma_ring DMA_MBUF_DONE_THRESH) 1;;
  wr (RDMA_OFFSET + DMA_RING_CFG) (1 .<< DEFAULT_Q).
Definition tx_ring_init : G unit :=
  upd (set_prod 0);;
  wr (TDMA_OFFSET + DMA_SCB_BURST_SIZE) DMA_MAX_BURST_LENGTH;;
  wr (tdma_ring TDMA_READ_PTR) 0;;
  wr (tdma_ring (TDMA_READ_PTR + 4)) 0;;
  wr (tdma_ring TDMA_PROD_INDEX) 0;;
  wr (tdma_ring TDMA_CONS_INDEX) 0;;
  wr (tdma_ring DMA_RING_BUF_SIZE) ((TX_DESCS .<< DMA_RING_SIZE_SHIFT) .| RX_BUF_LENGTH);;
  wr (tdma_ring DMA_START_ADDR) 0;;
  wr (tdma_ring (DMA_START_ADDR + 4)) 0;;
  wr (tdma_ring DMA_END_ADDR) (TX_DESCS * DMA_DESC_SIZE / 4 - 1);;
  wr (tdma_ring (DMA_END_ADDR + 4)) 0;;
  wr (tdma_ring DMA_MBUF_DONE_THRESH) 1;;
  wr (tdma_ring DMA_FLOW_PERIOD) 0;;
  wr (TDMA_OFFSET + DMA_RING_CFG) (1 .<< DEFAULT_Q).

(** ** Link *)

Definition genet_link_up : G bool :=
  phy ← gst s_phy_addr;
  _ ← mdio_read phy 1;
  bmsr ← mdio_read phy 1;
  upd (set_link (negb (bmsr .& 4 =? 0)));;
  gst s_link.

(** The speed bits and the rate of the highest common denominator. *)
Definition link_speed (hcd : Z) : Z * Z :=
  if (hcd =? 7) || (hcd =? 6) then (CMD_SPEED_1000, 1000)
  else if (hcd =? 5) || (hcd =? 3) then (CMD_SPEED_100, 100)
  else (0, 10).
Definition genet_adjust_link : G unit :=
  phy ← gst s_phy_addr;
  aux ← mdio_read phy 0x19;
  let speed := link_speed (Z.shiftr aux 8 .& 7) in
  cmd ← rd UMAC_CMD;
  wr UMAC_CMD ((cmd .& notu 32 CMD_SPEED_MASK) .| (speed.1 .| CMD_TX_EN .| CMD_RX_EN));;
  reg ← rd EXT_RGMII_OOB_CTRL;
  wr EXT_RGMII_OOB_CTRL ((reg .& notu 32 OOB_DISABLE .& notu 32 ID_MODE_DIS) .| (RGMII_LINK .| RGMII_MODE_EN));;
  cmd ← rd UMAC_CMD; oob ← rd EXT_RGMII_OOB_CTRL;
  gprintf (chars "[genet] link up: aux=0x%x -> %u Mbps, UMAC_CMD=0x%x OOB=0x%x" ++ [10; 0]) [UaUint aux; UaUint speed.2; UaUint cmd; UaUint oob].

(** ** Frames *)

(** [frame] is the array at the argument. *)
Definition genet_send (frame : list Z) (len : Z) : G bool :=
  if RX_BUF_LENGTH <? len then mret false
  else
    prod ← gst s_tx_prod;
    let di := prod mod TX_DESCS in
    let bi := prod mod 32 in
    let pa := tx_buf_pa bi in
    bufs ← gst s_tx_buf;
    b ← of_opt (rdb bufs bi);
    b ← of_opt (if bool_decide (len <= Z.of_nat (length frame)) then Some (blit b 0 (take (Z.to_nat len) frame)) else None);
    bufs ← of_opt (wrb bufs bi b);
    upd (set_tx_buf bufs);;
    wr (tx_desc di 1) (pa .& 0xFFFFFFFF);;
    wr (tx_desc di 2) (u32 (Z.shiftr pa 32));;
    wr (tx_desc di 0) ((len .<< DMA_BD_LENGTH_SHIFT) .| DMA_TX_QTAG .| DMA_SOP .| DMA_EOP .| DMA_TX_APPEND_CRC);;
    upd (set_prod (u32 (prod + 1)));;
    now ← cntpct;
    upd (set_tx_ts now);;
    prod ← gst s_tx_prod;
    wr (tdma_ring TDMA_PROD_INDEX) (prod .& 0xFFFF);;
    mret true.

(** A frame the receiver drops. *)
Definition rx_bad (status rlen : Z) : bool :=
  negb (status .& (DMA_SOP .| DMA_EOP) =? DMA_SOP .| DMA_EOP) || negb (status .& DMA_RX_ERR_MASK =? 0) || (rlen <=? RX_BUF_OFFSET).

(** Stamping in [genet_recv]: the stamp of descriptor [i], which is taken now if
    the interrupt has not taken it; interrupts are masked. *)
Definition recv_stamp (i : Z) : G Z :=
  seen ← gst s_rx_ts_seen; cons ← gst s_rx_cons;
  (if u32 (seen - cons) =? 0 then rx_stamp_new false else mret tt);;
  ts ← gst s_rx_ts;
  of_opt (rdb ts i).
(** The copy to the caller and the message about the first frames. *)
Definition recv_copy (buf : list Z) (len i status rlen : Z) : G (list Z * Z) :=
  frame ← gets (fun x => rx_frame (trace x.1) (nreads x.1) i);
  let rlen := u16 (rlen - RX_BUF_OFFSET) in
  let rlen := if len <? rlen then len else rlen in
  buf ← of_opt (if bool_decide (RX_BUF_OFFSET + rlen <= Z.of_nat (length frame) /\ rlen <= Z.of_nat (length buf))
                then Some (blit buf 0 (take (Z.to_nat rlen) (drop (Z.to_nat RX_BUF_OFFSET) frame))) else None);
  dbg ← gst s_rx_dbg;
  (if dbg <? 8 then
     upd (set_dbg (u32 (dbg + 1)));;
     b0 ← of_opt (rdb buf 0); b1 ← of_opt (rdb buf 1); b2 ← of_opt (rdb buf 2); b3 ← of_opt (rdb buf 3);
     b4 ← of_opt (rdb buf 4); b5 ← of_opt (rdb buf 5); b12 ← of_opt (rdb buf 12); b13 ← of_opt (rdb buf 13);
     gprintf (chars "[rx] #%u len=%u sts=0x%x dst=%x:%x:%x:%x:%x:%x type=0x%x%x" ++ [10; 0])
       [UaUint (u32 (dbg + 1)); UaUint rlen; UaUint status; UaUint b0; UaUint b1; UaUint b2; UaUint b3; UaUint b4; UaUint b5; UaUint b12; UaUint b13]
   else mret tt);;
  mret (buf, rlen).

(** The result, and what [buf], [*len] and [*ts] hold afterwards; [ts] is [None]
    for a null pointer.  The fuel bounds the descriptors looked at. *)
Fixpoint genet_recv (fuel : nat) (buf : list Z) (len : Z) (ts : option Z) : G (bool * list Z * Z * option Z) :=
  match fuel with
  | O => fails
  | S fuel =>
      prod ← rd (rdma_ring RDMA_PROD_INDEX);
      cons ← gst s_rx_cons;
      if cons .& 0xFFFF =? prod .& 0xFFFF then mret (false, buf, len, ts)
      else
        let i := cons mod RX_DESCS in
        status ← rd (rx_desc i 0);
        stamp ← recv_stamp i;
        let ts := match ts with Some _ => Some stamp | None => None end in
        let rlen := u16 (Z.shiftr status DMA_BD_LENGTH_SHIFT .& DMA_BD_LENGTH_MASK) in
        upd (set_cons (u32 (cons + 1)));;
        cons ← gst s_rx_cons;
        wr (rdma_ring RDMA_CONS_INDEX) (cons .& 0xFFFF);;
        if rx_bad status rlen then
          upd (fun g => set_drop (u32 (s_rx_drop g + 1)) g);;
          drop ← gst s_rx_drop;
          (if drop <=? 4 then gprintf (chars "[rx] DROP sts=0x%x len=%u" ++ [10; 0]) [UaUint status; UaUint rlen] else mret tt);;
          genet_recv fuel buf len ts
        else
          r ← recv_copy buf len i status rlen;
          mret (true, r.1, r.2, ts)
  end.
End genet.

(** ** Bring-up *)

Section init.
Context {LS HS : Type} `{!ListOps item lst LS} `{!HeapOps HS} {D : Device} {HW : GenetHw}.
(** The address of [genet_isr]. *)
Context (genet_isr_addr : Z).

Definition genet_diag_rings : M (port LS HS genet) unit :=
  n ← ulPortIrqCount GENET_IRQ0_INTID;
  g ← gets p_driver;
  onB (uart_printf (chars "[genet] irq=%u (%s) rx stamped late=%u" ++ [10; 0])
         [UaUint n; UaStr (if s_irq_ok g then lit "installed" else lit "NOT installed"); UaUint (s_rx_ts_late g)]);;
  a ← onD (rd (rdma_ring RDMA_PROD_INDEX)); b ← onD (rd (rdma_ring RDMA_CONS_INDEX));
  c ← onD (rd (tdma_ring TDMA_PROD_INDEX)); d ← onD (rd (tdma_ring TDMA_CONS_INDEX));
  onB (uart_printf (chars "[genet] RX prod=%u cons=%u (ours=%u) | TX prod=%u cons=%u (ours=%u)" ++ [10; 0])
         [UaUint (a .& 0xFFFF); UaUint (b .& 0xFFFF); UaUint (s_rx_cons g .& 0xFFFF);
          UaUint (c .& 0xFFFF); UaUint (d .& 0xFFFF); UaUint (s_tx_prod g .& 0xFFFF)]).

(** The part of [genet_init] before the interrupt is installed. *)
Definition init_mac (mac : list Z) : M (bus * genet) unit :=
  umac_reset;;
  wr SYS_PORT_CTRL PORT_MODE_EXT_GPHY;;
  set_mac_address mac;;
  cmd ← rd UMAC_CMD;
  wr UMAC_CMD (cmd .| CMD_PROMISC);;
  a ← mdio_scan;
  (if 0 <=? a then
     upd (set_phy (u32 a));;
     phy ← gst s_phy_addr;
     phy_config_rgmii_delays phy;;
     mdio_write phy 0 0x1200
   else upd (set_link false));;
  disable_dma;;
  rx_ring_init;;
  tx_ring_init;;
  enable_dma;;
  reg ← rd EXT_RGMII_OOB_CTRL;
  wr EXT_RGMII_OOB_CTRL ((reg .& notu 32 OOB_DISABLE .& notu 32 ID_MODE_DIS) .| RGMII_MODE_EN);;
  cmd ← rd UMAC_CMD;
  wr UMAC_CMD (cmd .| CMD_TX_EN .| CMD_RX_EN .| CMD_SPEED_1000);;
  wr (INTRL2_0 + INTRL2_CPU_MASK_SET) 0xFFFFFFFF;;
  wr (INTRL2_0 + INTRL2_CPU_CLEAR) 0xFFFFFFFF;;
  prod ← rd (rdma_ring RDMA_PROD_INDEX);
  upd (set_seen (prod .& 0xFFFF)).
Definition genet_init (mac : list Z) : M (port LS HS genet) bool :=
  onD (init_mac mac);;
  r ← xPortInstallIrq GENET_IRQ0_INTID GIC_PRIO_TIMESTAMP genet_isr_addr;
  onD (upd (set_irq_ok (r =? 0)));;
  onD (wr (INTRL2_0 + INTRL2_CPU_MASK_CLEAR) UMAC_IRQ_RXDMA_MBDONE);;
  ok ← gets (fun p => s_irq_ok (p_driver p));
  onB (uart_printf (chars "[genet] RX timestamp IRQ: INTID %u prio 0x%x -> %s" ++ [10; 0])
         [UaUint GENET_IRQ0_INTID; UaUint GIC_PRIO_TIMESTAMP; UaStr (if (ok : bool) then lit "installed" else lit "FAILED (poll-time stamps only)")]);;
  mret true.
End init.
