(* ===== verification/GenetRx.v ===== *)
(** * Reception in the Ethernet driver (lemmas about Genet)

    How the driver's operations act on the bus, what a run of the stamping loop
    leaves in the ring of timestamps, and what a call of genet_recv returns when
    a number of descriptors is complete. *)

From S2P Require Import Prelude CInt CStr Decimal Mmio Uart UartProps Lists ListSpec ListRefine Alloc Tasks PortIrq GenetRegs Genet.

(** A later moment of the same bus. *)
Definition later (b b' : bus) : Prop := regs b' = regs b /\ trace b `prefix_of` trace b' /\ (nreads b <= nreads b')%nat.
#[global] Instance later_preorder : PreOrder later.
Proof.
  split; [by intros b|]. intros b1 b2 b3 (R1 & T1 & N1) (R2 & T2 & N2). split_and!; [congruence|by etrans|lia].
Qed.
Lemma later_regs b b' : later b b' -> regs b' = regs b.
Proof. by intros [? _]. Qed.

(** The registers of the controller are the device's, the console is usable. *)
Definition eth_bus (pmr : Z) (b : bus) : Prop :=
  console pmr b /\ forall off, 0 <= off < 0x10000 -> regs b !! (GENET_BASE + off) = None.
Lemma eth_bus_later pmr b b' : later b b' -> eth_bus pmr b -> eth_bus pmr b'.
Proof. intros (R & _) [H1 H2]. unfold eth_bus, console. by rewrite R. Qed.
Lemma eth_free pmr b off : eth_bus pmr b -> 0 <= off < 0x10000 -> regs b !! (GENET_BASE + off) = None.
Proof. intros [_ H]. apply H. Qed.

Section genet_props.
Context {D : Device} {HW : GenetHw} (pmr : Z).
Abbreviation G := (M (bus * genet)).
Implicit Types (b : bus) (g : genet).

(** What a read of a controller register returns at a moment. *)
Definition reg_at b off : Z := u32 (dev_read (trace b) (nreads b) (GENET_BASE + off)).
Definition read_bus b : bus := mkBus (regs b) (S (nreads b)) (trace b).
Definition write_bus off v b : bus := mkBus (regs b) (nreads b) (trace b ++ [(GENET_BASE + off, v)]).
Lemma read_later b : later b (read_bus b).
Proof. split_and!; cbn; [done|done|lia]. Qed.
Lemma write_later off v b : later b (write_bus off v b).
Proof. split_and!; cbn; [done|by apply prefix_app_r|lia]. Qed.

Lemma eth_read b : eth_bus pmr b -> eth_bus pmr (read_bus b).
Proof. apply eth_bus_later, read_later. Qed.
Lemma eth_write off v b : eth_bus pmr b -> eth_bus pmr (write_bus off v b).
Proof. apply eth_bus_later, write_later. Qed.

Lemma rd_run {A} off (k : Z -> G A) b g :
  eth_bus pmr b -> 0 <= off < 0x10000 -> (rd off ≫= k) (b, g) = k (reg_at b off) (read_bus b, g).
Proof.
  intros Hb Ho. apply bind_eq. unfold rd, onBus, zoom. cbn [fst].
  by rewrite mmio_read_dev by (by eapply eth_free).
Qed.
Lemma wr_run {A} off v (k : unit -> G A) b g :
  eth_bus pmr b -> 0 <= off < 0x10000 -> (wr off v ≫= k) (b, g) = k tt (write_bus off v b, g).
Proof.
  intros Hb Ho. apply bind_eq. unfold wr, onBus, zoom. cbn [fst].
  by rewrite mmio_write_dev by (by eapply eth_free).
Qed.
Lemma gst_run {A B} (f : genet -> A) (k : A -> G B) b g : (gst f ≫= k) (b, g) = k (f g) (b, g).
Proof. done. Qed.
Lemma upd_run {B} f (k : unit -> G B) b g : (upd f ≫= k) (b, g) = k tt (b, f g).
Proof. done. Qed.
Lemma printf_ok fmt ap t b g :
  eth_bus pmr b -> is_text fmt -> Forall uart_arg_ok ap -> uart_render false fmt ap = Some t ->
  exists b', later b b' /\ gprintf (fmt ++ [0]) ap (b, g) = Some (tt, (b', g)).
Proof.
  intros [Hc _] Hf Hok Ht. destruct (emits_printf pmr fmt [] ap t Hf Hok Ht b Hc) as (b' & w & E & R & T & _ & _ & _ & N).
  exists b'. split; [split_and!; [done|rewrite T; by apply prefix_app_r|lia]|].
  unfold gprintf, onBus, zoom. cbn [fst]. by rewrite E.
Qed.

(** ** Timestamps *)

(** The stamps after [e] descriptors from [seen] on got the stamp [now]. *)
Fixpoint fill (ts : list Z) (seen : Z) (e : nat) (now : Z) : list Z :=
  match e with
  | O => ts
  | S e => fill (<[Z.to_nat (seen mod RX_DESCS) := now]> ts) (seen + 1) e now
  end.
Lemma fill_length ts seen e now : length (fill ts seen e now) = length ts.
Proof. revert ts seen. induction e as [|e IH]; intros ts seen; cbn [fill]; [done|]. by rewrite IH, length_insert. Qed.
(** Indices of the ring are equal when their difference is a multiple of its size. *)
Lemma ring_index_ne j k : 0 < k - j < 256 -> Z.to_nat (j mod RX_DESCS) <> Z.to_nat (k mod RX_DESCS).
Proof.
  unfold RX_DESCS. intros H E. apply Z2Nat.inj in E; [|apply Z.mod_pos_bound; lia..].
  pose proof (Z.div_mod j 256 ltac:(lia)). pose proof (Z.div_mod k 256 ltac:(lia)).
  assert (256 * (k / 256 - j / 256) = k - j) by lia. lia.
Qed.
Lemma fill_other ts seen e now j :
  (e <= 256)%nat -> seen + Z.of_nat e - 256 <= j < seen ->
  fill ts seen e now !! Z.to_nat (j mod RX_DESCS) = ts !! Z.to_nat (j mod RX_DESCS).
Proof.
  revert ts seen. induction e as [|e IH]; intros ts seen He Hj; cbn [fill]; [done|].
  rewrite IH by lia. apply list_lookup_insert_ne. apply not_eq_sym, ring_index_ne. lia.
Qed.
Lemma fill_stamped ts seen e now j :
  length ts = 256%nat -> (e <= 256)%nat -> seen <= j < seen + Z.of_nat e ->
  fill ts seen e now !! Z.to_nat (j mod RX_DESCS) = Some now.
Proof.
  revert ts seen. induction e as [|e IH]; intros ts seen Hl He Hj; [lia|]. cbn [fill].
  destruct (decide (j = seen)) as [->|Hne].
  - rewrite fill_other by lia. apply list_lookup_insert_eq. unfold RX_DESCS. pose proof (Z.mod_pos_bound seen 256 ltac:(lia)). lia.
  - apply IH; rewrite ?length_insert; lia.
Qed.

Definition genet_wf g : Prop := length (s_rx_ts g) = 256%nat /\ in_u 32 (s_rx_ts_seen g) /\ in_u 32 (s_rx_cons g) /\
  length (s_tx_buf g) = 32%nat /\ Forall (fun t => length t = 2048%nat) (s_tx_buf g) /\ in_u 32 (s_tx_prod g).

(** Counters are compared and indexed by their low bits. *)
Lemma ring_u32 x : u32 x mod RX_DESCS = x mod RX_DESCS.
Proof. apply Z.mod_mod_divide. by exists (2 ^ 24). Qed.
Lemma low_u32 x : u32 x mod 65536 = x mod 65536.
Proof. apply Z.mod_mod_divide. by exists (2 ^ 16). Qed.
Lemma low_bits x : Z.land x 0xFFFF = x mod 65536.
Proof. by apply (land_mask 16). Qed.
Lemma fill_u32 ts seen e now : fill ts (u32 seen) e now = fill ts seen e now.
Proof.
  revert ts seen. induction e as [|e IH]; intros ts seen; cbn [fill]; [done|]. rewrite ring_u32.
  rewrite <- (IH _ (u32 seen + 1)), <- (IH _ (seen + 1)). f_equal. unfold wrapu. by rewrite Zplus_mod_idemp_l.
Qed.

Lemma low_add x k : (u32 x + k) mod 65536 = (x + k) mod 65536.
Proof. by rewrite <- Zplus_mod_idemp_l, low_u32, Zplus_mod_idemp_l. Qed.
Lemma u32_add x k : u32 (u32 x + k) = u32 (x + k).
Proof. apply Zplus_mod_idemp_l. Qed.

(** The driver's state after [e] descriptors were stamped, [l] of them late. *)
Definition stamped (e : nat) (now l : Z) g : genet :=
  set_rx_ts (fill (s_rx_ts g) (s_rx_ts_seen g) e now) (set_seen (u32 (s_rx_ts_seen g + Z.of_nat e)) (set_late l g)).
Lemma stamped_step e now l l1 g :
  stamped e now l (set_late l1 (set_seen (u32 (s_rx_ts_seen g + 1)) (set_rx_ts (<[Z.to_nat (s_rx_ts_seen g mod RX_DESCS) := now]> (s_rx_ts g)) g))) =
    stamped (S e) now l g.
Proof.
  destruct g. unfold stamped. cbn. rewrite fill_u32, u32_add.
  by replace (s_rx_ts_seen + 1 + Z.of_nat e) with (s_rx_ts_seen + Z.of_nat (S e)) by lia.
Qed.
Lemma stamp_loop_run rounds now P isr b g e :
  length (s_rx_ts g) = 256%nat -> in_u 32 (s_rx_ts_seen g) -> (e <= rounds)%nat -> (rounds <= 256)%nat ->
  (s_rx_ts_seen g + Z.of_nat e) mod 65536 = P ->
  exists l, stamp_loop rounds now P isr (b, g) = Some (tt, (b, stamped e now l g)).
Proof.
  revert rounds g. induction e as [|e IH]; intros rounds g Hl Hs He Hr HP.
  - exists (s_rx_ts_late g). assert (stamped 0 now (s_rx_ts_late g) g = g) as ->.
    { unfold stamped. cbn [fill]. rewrite (wrapu_small 32), Z.add_0_r by (by rewrite Z.add_0_r). by destruct g. }
    rewrite Z.add_0_r in HP. destruct rounds as [|rounds]; [done|]. cbn [stamp_loop]. rewrite gst_run.
    by rewrite low_bits, HP, Z.eqb_refl.
  - destruct rounds as [|rounds]; [lia|]. cbn [stamp_loop]. rewrite gst_run, low_bits.
    assert ((s_rx_ts_seen g mod 65536 =? P) = false) as ->.
    { apply Z.eqb_neq. intros E. pose proof (Z.div_mod (s_rx_ts_seen g) 65536 ltac:(lia)).
      pose proof (Z.div_mod (s_rx_ts_seen g + Z.of_nat (S e)) 65536 ltac:(lia)).
      assert (65536 * ((s_rx_ts_seen g + Z.of_nat (S e)) / 65536 - s_rx_ts_seen g / 65536) = Z.of_nat (S e)) by lia. lia. }
    cbn [negb]. rewrite gst_run. pose proof (Z.mod_pos_bound (s_rx_ts_seen g) 256 ltac:(lia)).
    rewrite (opt_run _ (<[Z.to_nat (s_rx_ts_seen g mod RX_DESCS) := now]> (s_rx_ts g)))
      by (unfold wrb; rewrite bool_decide_true; [done|]; unfold RX_DESCS; lia).
    rewrite !upd_run. set (g1 := set_seen _ _).
    assert (exists l1, ((if negb isr then upd (fun g => set_late (u32 (s_rx_ts_late g + 1)) g) else mret tt) : G unit) (b, g1) =
      Some (tt, (b, set_late l1 g1))) as [l1 E1] by (destruct isr; cbn; [exists (s_rx_ts_late g1); done|by eexists]).
    rewrite (bind_eq _ _ _ _ _ E1).
    destruct (IH rounds (set_late l1 g1)) as [l El].
    + cbn. by rewrite length_insert.
    + by apply wrapu_range.
    + lia.
    + lia.
    + cbn [s_rx_ts_seen set_late g1 set_seen]. rewrite low_add, <- HP. f_equal. lia.
    + exists l. rewrite El. by unfold g1; rewrite stamped_step.
Qed.

(** ** Reception *)

(** The receive side of the hardware from a moment on: the producer index, the
    status words of the descriptors and the buffers.  They do not change during
    the calls it is assumed for: no frame arrives while the driver runs.  A
    theorem that spans more than one call assumes it anew for each. *)
Record rx_hw b (P : Z) (st : Z -> Z) (fr : Z -> list Z) : Prop := {
  hw_prod b' : later b b' -> Z.land (reg_at b' (rdma_ring RDMA_PROD_INDEX)) 0xFFFF = P;
  hw_status b' i : later b b' -> 0 <= i < 256 -> reg_at b' (rx_desc i 0) = st i;
  hw_frame b' i : later b b' -> 0 <= i < 256 -> rx_frame (trace b') (nreads b') i = fr i;
  hw_size i : 0 <= i < 256 -> length (fr i) = 2048%nat /\ bytes (fr i) }.
Lemma rx_hw_later b b' P st fr : later b b' -> rx_hw b P st fr -> rx_hw b' P st fr.
Proof. 
  intros Hl [H1 H2 H3 H4]. split; [intros b2 ?; apply H1|intros b2 i ? ?; apply H2|intros b2 i ? ?; apply H3|done]; try done; by etrans.
Qed.

Lemma rdma_off reg : 0 <= reg < 0x40 -> 0 <= rdma_ring reg < 0x10000.
Proof. intros. unfold rdma_ring, RDMA_OFFSET, DMA_RING_REG_BASE, DEFAULT_Q. rewrite u32_ok; lia. Qed.
Lemma rx_desc_off i w : 0 <= i < 256 -> 0 <= w < 3 -> 0 <= rx_desc i w < 0x10000.
Proof. intros. unfold rx_desc, RDMA_OFFSET, DMA_DESC_SIZE. rewrite u32_ok; lia. Qed.

(** The length field of a status word, and what of a frame a buffer of [len] bytes gets. *)
Definition rlen_of (status : Z) : Z := u16 (Z.land (Z.shiftr status DMA_BD_LENGTH_SHIFT) DMA_BD_LENGTH_MASK).
Definition delivered (len status : Z) (frame : list Z) : list Z :=
  take (Z.to_nat (Z.min (rlen_of status - RX_BUF_OFFSET) len)) (drop (Z.to_nat RX_BUF_OFFSET) frame).
Lemma rlen_range status : 0 <= rlen_of status < 4096.
Proof.
  unfold rlen_of. assert (0 <= Z.land (Z.shiftr status DMA_BD_LENGTH_SHIFT) DMA_BD_LENGTH_MASK < 4096) as H.
  - unfold DMA_BD_LENGTH_MASK. rewrite (land_mask 12) by done. apply Z.mod_pos_bound. lia.
  - rewrite u16_ok; lia.
Qed.

Lemma bytes_u32 buf i : bytes buf -> 0 <= i < Z.of_nat (length buf) -> exists c, rdb buf i = Some c /\ in_u 32 c.
Proof.
  intros Hb Hi. destruct (lookup_lt_is_Some_2 buf (Z.to_nat i) ltac:(lia)) as [c Hc]. exists c. unfold rdb.
  rewrite (proj2 (Z.ltb_ge i 0)) by lia. split; [done|]. pose proof (Forall_lookup_1 _ _ _ _ Hb Hc) as H.
  unfold is_byte, in_u in *. change (2 ^ 8) with 256 in H. change (2 ^ 32) with 4294967296. lia.
Qed.
Lemma bytes_blit buf l : bytes buf -> bytes l -> bytes (blit buf 0 l).
Proof. intros Hb Hl. unfold blit, bytes. rewrite !Forall_app. split_and!; [by apply Forall_take|done|by apply Forall_drop]. Qed.

Lemma recv_copy_run buf len i status b g P st fr :
  eth_bus pmr b -> rx_hw b P st fr -> 0 <= i < 256 -> status = st i -> in_u 32 status -> RX_BUF_OFFSET < rlen_of status ->
  0 <= len <= 2046 -> (Z.to_nat len <= length buf)%nat -> (14 <= length buf)%nat -> bytes buf -> in_u 32 (s_rx_dbg g) ->
  exists b' v, recv_copy buf len i status (rlen_of status) (b, g) =
    Some ((blit buf 0 (delivered len status (fr i)), Z.min (rlen_of status - RX_BUF_OFFSET) len), (b', set_dbg v g)) /\ later b b' /\ in_u 32 v.
Proof.
  intros Hb Hw Hi Est Hst Hr Hlen Hbuf H14 Hbytes Hdbg. pose proof (rlen_range status). unfold RX_BUF_OFFSET in *.
  destruct (hw_size _ _ _ _ Hw i Hi) as [Hfl Hfb]. unfold recv_copy. unfold RX_BUF_OFFSET.
  rewrite gets_run. cbn [fst]. rewrite (hw_frame _ _ _ _ Hw b i (reflexivity b) Hi), u16_ok by lia.
  assert ((if len <? rlen_of status - 2 then len else rlen_of status - 2) = Z.min (rlen_of status - 2) len) as ->
    by (destruct (Z.ltb_spec len (rlen_of status - 2)); lia).
  assert (length (delivered len status (fr i)) = Z.to_nat (Z.min (rlen_of status - 2) len)) as Hdl
    by (unfold delivered, RX_BUF_OFFSET; rewrite length_take, length_drop; lia).
  rewrite (opt_run _ (blit buf 0 (delivered len status (fr i)))) by (rewrite bool_decide_true; [done|lia]).
  rewrite gst_run. set (B := blit buf 0 _).
  assert (bytes B) as HB by (apply bytes_blit; [done|]; apply Forall_take, Forall_drop; done).
  assert (length B = length buf) as HlB by (apply blit_length; rewrite Hdl; lia).
  destruct (Z.ltb_spec (s_rx_dbg g) 8) as [Hd|Hd].
  - destruct (bytes_u32 B 0 HB) as (c0 & E0 & R0), (bytes_u32 B 1 HB) as (c1 & E1 & R1), (bytes_u32 B 2 HB) as (c2 & E2 & R2),
      (bytes_u32 B 3 HB) as (c3 & E3 & R3), (bytes_u32 B 4 HB) as (c4 & E4 & R4), (bytes_u32 B 5 HB) as (c5 & E5 & R5),
      (bytes_u32 B 12 HB) as (c12 & E12 & R12), (bytes_u32 B 13 HB) as (c13 & E13 & R13); try lia.
    edestruct (printf_ok (chars "[rx] #%u len=%u sts=0x%x dst=%x:%x:%x:%x:%x:%x type=0x%x%x" ++ [10])
      [UaUint (u32 (s_rx_dbg g + 1)); UaUint (Z.min (rlen_of status - 2) len); UaUint status; UaUint c0; UaUint c1; UaUint c2; UaUint c3; UaUint c4; UaUint c5; UaUint c12; UaUint c13])
      as (b' & Hl & Hp); [done|compute_done| |reflexivity|].
    { rewrite !Forall_cons, Forall_nil. split_and!; cbn; try done; [by apply wrapu_range|].
      unfold in_u. change (2 ^ 32) with 4294967296. lia. }
    exists b', (u32 (s_rx_dbg g + 1)). split; [|split; [done|by apply wrapu_range]].
    erewrite bind_eq; [|rewrite upd_run, (opt_run _ _ _ _ E0), (opt_run _ _ _ _ E1), (opt_run _ _ _ _ E2), (opt_run _ _ _ _ E3),
      (opt_run _ _ _ _ E4), (opt_run _ _ _ _ E5), (opt_run _ _ _ _ E12), (opt_run _ _ _ _ E13); exact Hp]. done.
  - exists b, (s_rx_dbg g). split; [|split; [done|done]]. cbn. do 4 f_equal. by destruct g.
Qed.

(** The driver between two calls: [m] descriptors are complete, the first [d] of
    them stamped. *)
Definition rx_ready b g (P : Z) (d m : nat) : Prop :=
  eth_bus pmr b /\ length (s_rx_ts g) = 256%nat /\ in_u 32 (s_rx_cons g) /\ in_u 32 (s_rx_dbg g) /\ in_u 32 (s_rx_drop g) /\
  s_rx_ts_seen g = u32 (s_rx_cons g + Z.of_nat d) /\ (s_rx_cons g + Z.of_nat m) mod 65536 = P /\ (d <= m <= 256)%nat.
(** The stamp the k-th of them has, or will get from the next call. *)
Definition stamp_view g (d k : nat) : option Z :=
  if (k <? d)%nat then s_rx_ts g !! Z.to_nat ((s_rx_cons g + Z.of_nat k) mod RX_DESCS) else Some (u64 (cntpct_at (cnt_reads g))).

Lemma stamp_new_run b g P st fr isr (m : nat) :
  eth_bus pmr b -> rx_hw b P st fr -> length (s_rx_ts g) = 256%nat -> in_u 32 (s_rx_ts_seen g) -> (m <= 256)%nat ->
  (s_rx_ts_seen g + Z.of_nat m) mod 65536 = P ->
  exists l, rx_stamp_new isr (b, g) =
    Some (tt, (read_bus b, stamped m (u64 (cntpct_at (cnt_reads g))) l (set_cnt (S (cnt_reads g)) g))).
Proof.
  intros Hb Hw Hl Hs Hm HP. unfold rx_stamp_new.
  erewrite bind_eq by (unfold cntpct; rewrite gst_run, upd_run; done). rewrite rd_run by (done || by apply rdma_off).
  rewrite (hw_prod _ _ _ _ Hw b (reflexivity b)). by apply stamp_loop_run.
Qed.

Lemma recv_stamp_run b g P st fr d m :
  rx_hw b P st fr -> rx_ready b g P d m -> (0 < m)%nat ->
  exists b1 g1 w d1, recv_stamp (s_rx_cons g mod RX_DESCS) (b, g) = Some (w, (b1, g1)) /\ later b b1 /\ (0 < d1)%nat /\
    stamp_view g d 0 = Some w /\ rx_ready b1 g1 P d1 m /\ s_rx_cons g1 = s_rx_cons g /\ s_rx_drop g1 = s_rx_drop g /\
    ((0 < d /\ d1 = d /\ cnt_reads g1 = cnt_reads g) \/ (d <= d1 /\ cnt_reads g < cnt_reads g1))%nat /\
    forall k, (k < m)%nat -> stamp_view g1 d1 k = stamp_view g d k.
Proof.
  intros Hw (Hb & Hl & Hc & Hd & Hdr & Hs & HP & Hm) Hpos. unfold recv_stamp. rewrite !gst_run.
  pose proof (Z.mod_pos_bound (s_rx_cons g) 256 ltac:(lia)).
  assert (u32 (s_rx_ts_seen g - s_rx_cons g) = Z.of_nat d) as ->.
  { rewrite Hs. unfold wrapu. rewrite Zminus_mod_idemp_l. rewrite Z.mod_small; [lia|]. change (2 ^ 32) with 4294967296. lia. }
  destruct (Z.eqb_spec (Z.of_nat d) 0) as [E|E].
  - assert (d = 0)%nat as -> by lia. clear E. rewrite Z.add_0_r, (wrapu_small 32) in Hs by done.
    destruct (stamp_new_run b g P st fr false m Hb Hw Hl) as [l E]; [by rewrite Hs|lia|by rewrite Hs|].
    rewrite (bind_eq _ _ _ _ _ E), gst_run. set (now := u64 _) in *.
    assert (forall k, (k < m)%nat -> s_rx_ts (stamped m now l (set_cnt (S (cnt_reads g)) g)) !! Z.to_nat ((s_rx_cons g + Z.of_nat k) mod RX_DESCS) = Some now) as Hst.
    { intros k Hk. apply fill_stamped; cbn; [done|lia|rewrite Hs; lia]. }
    eexists _, _, now, m. split.
    { unfold of_opt, get_opt, rdb. rewrite (proj2 (Z.ltb_ge _ 0)) by (unfold RX_DESCS; lia).
      specialize (Hst 0%nat Hpos). rewrite Z.add_0_r in Hst. rewrite Hst. done. }
    split; [apply read_later|]. split; [done|]. split; [done|]. split; [|split; [done|split; [done|split; [right; cbn; lia|]]]].
    + split; [by apply eth_read|]. cbn. rewrite fill_length, Hs. split_and!; done || lia.
    + intros k Hk. unfold stamp_view. rewrite (proj2 (Nat.ltb_lt k m)) by done. by apply Hst.
  - destruct (lookup_lt_is_Some_2 (s_rx_ts g) (Z.to_nat (s_rx_cons g mod RX_DESCS))) as [w Hwv]; [unfold RX_DESCS; lia|].
    rewrite (bind_eq _ _ _ tt (b, g) eq_refl), gst_run. exists b, g, w, d. split_and!; try done; [|lia| |left; lia].
    + unfold of_opt, get_opt, rdb. rewrite (proj2 (Z.ltb_ge _ 0)) by (unfold RX_DESCS; lia). by rewrite Hwv.
    + unfold stamp_view. rewrite (proj2 (Nat.ltb_lt 0 d)) by lia. by rewrite Z.add_0_r.
Qed.

(** The first of [m] descriptors from [cons] on whose frame is good. *)
Fixpoint first_good (st : Z -> Z) (cons : Z) (m : nat) : option nat :=
  match m with
  | O => None
  | S m =>
      let status := st (cons mod RX_DESCS) in
      if rx_bad status (rlen_of status) then S <$> first_good st (cons + 1) m else Some 0%nat
  end.
Lemma first_good_u32 st cons m : first_good st (u32 cons) m = first_good st cons m.
Proof.
  revert cons. induction m as [|m IH]; intros cons; cbn [first_good]; [done|]. rewrite ring_u32.
  rewrite <- (IH (u32 cons + 1)), <- (IH (cons + 1)), u32_add. done.
Qed.
Lemma first_good_lt st cons m k : first_good st cons m = Some k -> (k < m)%nat.
Proof.
  revert cons k. induction m as [|m IH]; intros cons k E; cbn [first_good] in E; [done|]. case_match; [|by simplify_eq; lia].
  destruct (first_good st (cons + 1) m) as [j|] eqn:Ej; [|done]. apply IH in Ej. cbn in E. simplify_eq. lia.
Qed.
Lemma next_index c k : (u32 (c + 1) + Z.of_nat k) mod RX_DESCS = (c + Z.of_nat (S k)) mod RX_DESCS.
Proof. rewrite <- (ring_u32 (u32 _ + _)), u32_add, ring_u32. f_equal. lia. Qed.
Lemma view_cons g d k : (0 < d)%nat -> stamp_view (set_cons (u32 (s_rx_cons g + 1)) g) (d - 1) k = stamp_view g d (S k).
Proof.
  intros Hd. unfold stamp_view. cbn [s_rx_ts s_rx_cons cnt_reads set_cons].
  assert ((k <? d - 1)%nat = (S k <? d)%nat) as -> by (destruct (Nat.ltb_spec k (d - 1)), (Nat.ltb_spec (S k) d); lia).
  by rewrite next_index.
Qed.

(** One descriptor is taken, stamped and handed back. *)
Lemma recv_step fuel b g P st fr d m buf len ts (status := st (s_rx_cons g mod RX_DESCS)) :
  rx_hw b P st fr -> rx_ready b g P d (S m) ->
  exists b1 g1 w d1, genet_recv (S fuel) buf len ts (b, g) =
    (if rx_bad status (rlen_of status) then
       upd (fun g => set_drop (u32 (s_rx_drop g + 1)) g);;
       dr ← gst s_rx_drop;
       (if dr <=? 4 then gprintf (chars "[rx] DROP sts=0x%x len=%u" ++ [10; 0]) [UaUint status; UaUint (rlen_of status)] else mret tt);;
       genet_recv fuel buf len ((fun _ => w) <$> ts)
     else r ← recv_copy buf len (s_rx_cons g mod RX_DESCS) status (rlen_of status); mret (true, r.1, r.2, (fun _ => w) <$> ts)) (b1, g1) /\
    later b b1 /\ stamp_view g d 0 = Some w /\ rx_ready b1 g1 P d1 m /\ s_rx_cons g1 = u32 (s_rx_cons g + 1) /\ s_rx_drop g1 = s_rx_drop g /\
    (cnt_reads g <= cnt_reads g1 /\ d - 1 <= d1)%nat /\ ((0 < d /\ d1 = d - 1) \/ cnt_reads g < cnt_reads g1)%nat /\ in_u 32 status /\ forall k, (k < m)%nat -> stamp_view g1 d1 k = stamp_view g d (S k).
Proof.
  intros Hw Hr. pose proof Hr as (Hb & _ & _ & _ & _ & _ & HP & Hm).
  pose proof (Z.mod_pos_bound (s_rx_cons g) RX_DESCS ltac:(done)) as Hi. change RX_DESCS with 256 in Hi at 2.
  assert (later b (read_bus (read_bus b))) as Hl2 by (etrans; apply read_later).
  destruct (recv_stamp_run (read_bus (read_bus b)) g P st fr d (S m)) as (b1 & g1 & w & d1 & E & Hl1 & Hd1 & Hv & Hr1 & Hc1 & Hdr1 & Hcn1 & Hview); [by eapply rx_hw_later| |lia|].
  { split; [by eapply eth_bus_later|apply Hr]. }
  exists (write_bus (rdma_ring RDMA_CONS_INDEX) (Z.land (u32 (s_rx_cons g + 1)) 0xFFFF) b1), (set_cons (u32 (s_rx_cons g + 1)) g1), w, (d1 - 1)%nat.
  pose proof (eth_read b Hb) as Hb1.
  split.
  - cbn [genet_recv]. rewrite rd_run by (done || by apply rdma_off). rewrite gst_run, (hw_prod _ _ _ _ Hw b (reflexivity b)), low_bits.
    rewrite (proj2 (Z.eqb_neq (s_rx_cons g mod 65536) P)).
    2:{ intros E'. pose proof (Z.div_mod (s_rx_cons g) 65536 ltac:(lia)). pose proof (Z.div_mod (s_rx_cons g + Z.of_nat (S m)) 65536 ltac:(lia)).
        assert (65536 * ((s_rx_cons g + Z.of_nat (S m)) / 65536 - s_rx_cons g / 65536) = Z.of_nat (S m)) by lia. lia. }
    rewrite rd_run by (done || by apply rx_desc_off). rewrite (hw_status _ _ _ _ Hw (read_bus b) _ (read_later b) Hi). fold status.
    rewrite (bind_eq _ _ _ _ _ E), upd_run, gst_run. cbn [s_rx_cons set_cons].
    rewrite wr_run by (apply Hr1 || by apply rdma_off). destruct ts; reflexivity.
  - split; [etrans; [exact Hl2|]; etrans; [exact Hl1|apply write_later]|]. split; [done|].
    destruct Hr1 as (Hb2 & Hts & Hcu & Hdb & Hdu & Hse & HP1 & Hm1). split.
    { split; [by apply eth_write|]. cbn [s_rx_ts s_rx_cons s_rx_dbg s_rx_drop s_rx_ts_seen set_cons].
      split_and!; try done; try lia; [by apply wrapu_range| |].
      - rewrite u32_add, Hse, Hc1. f_equal. lia.
      - rewrite low_add, <- HP. f_equal. lia. }
    split; [done|]. split; [done|]. split; [cbn; lia|]. split; [cbn; lia|]. split.
    { unfold status. rewrite <- (hw_status _ _ _ _ Hw b _ (reflexivity b) Hi). by apply wrapu_range. }
    intros k Hk. rewrite <- Hc1, view_cons by done. apply Hview. lia.
Qed.

(** The caller's buffer: [len] bytes of it may be written. *)
Definition rx_buffer (buf : list Z) (len : Z) : Prop :=
  0 <= len <= 2046 /\ (Z.to_nat len <= length buf)%nat /\ (14 <= length buf)%nat /\ bytes buf.
(** What a call returns and leaves when [k] frames are dropped before a good one. *)
Definition received b g (P : Z) st fr d m buf len (ts : option Z) (k : nat) (r : option (bool * list Z * Z * option Z * (bus * genet))) : Prop :=
  let status := st ((s_rx_cons g + Z.of_nat k) mod RX_DESCS) in
  exists b' g' w d', r = Some (true, blit buf 0 (delivered len status (fr ((s_rx_cons g + Z.of_nat k) mod RX_DESCS))),
      Z.min (rlen_of status - RX_BUF_OFFSET) len, (fun _ => w) <$> ts, (b', g')) /\
    stamp_view g d k = Some w /\ later b b' /\ rx_ready b' g' P d' (m - S k) /\
    s_rx_cons g' = u32 (s_rx_cons g + Z.of_nat (S k)) /\ s_rx_drop g' = u32 (s_rx_drop g + Z.of_nat k) /\
    (cnt_reads g <= cnt_reads g' /\ d - S k <= d')%nat /\ ((S k <= d /\ d' = d - S k) \/ cnt_reads g < cnt_reads g')%nat /\
    forall j, (j < m - S k)%nat -> stamp_view g' d' j = stamp_view g d (S k + j).
(** ... and when all [m] frames are dropped. *)
Definition drained b g (P : Z) m (buf : list Z) len (r : option (bool * list Z * Z * option Z * (bus * genet))) : Prop :=
  exists b' g' ts', r = Some (false, buf, len, ts', (b', g')) /\ later b b' /\ rx_ready b' g' P 0 0 /\
    s_rx_cons g' = u32 (s_rx_cons g + Z.of_nat m) /\ s_rx_drop g' = u32 (s_rx_drop g + Z.of_nat m) /\
    (cnt_reads g <= cnt_reads g')%nat.

Lemma drop_message b g status :
  eth_bus pmr b -> in_u 32 status ->
  exists b', later b b' /\ ((if s_rx_drop g <=? 4 then gprintf (chars "[rx] DROP sts=0x%x len=%u" ++ [10; 0]) [UaUint status; UaUint (rlen_of status)] else mret tt) : G unit)
    (b, g) = Some (tt, (b', g)).
Proof.
  intros Hb Hs. case_match; [|by exists b].
  edestruct (printf_ok (chars "[rx] DROP sts=0x%x len=%u" ++ [10]) [UaUint status; UaUint (rlen_of status)]) as (b' & Hl & Hp); [done|compute_done| |reflexivity|by exists b'].
  rewrite !Forall_cons, Forall_nil. split_and!; cbn; try done. pose proof (rlen_range status). unfold in_u. change (2 ^ 32) with 4294967296. lia.
Qed.
Lemma rx_ready_drop b g P d m : rx_ready b g P d m -> rx_ready b (set_drop (u32 (s_rx_drop g + 1)) g) P d m.
Proof. intros (? & ? & ? & ? & ? & ? & ? & ? & ?). split_and!; try done; by apply wrapu_range. Qed.
Lemma rx_ready_later b b' g P d m : later b b' -> rx_ready b g P d m -> rx_ready b' g P d m.
Proof. intros Hl (? & ?). split; [by eapply eth_bus_later|done]. Qed.

Lemma recv_run fuel b g P st fr d m buf len ts :
  rx_hw b P st fr -> rx_ready b g P d m -> rx_buffer buf len -> (m < fuel)%nat ->
  match first_good st (s_rx_cons g) m with
  | Some k => received b g P st fr d m buf len ts k (genet_recv fuel buf len ts (b, g))
  | None => drained b g P m buf len (genet_recv fuel buf len ts (b, g))
  end.
Proof.
  revert fuel b g d ts. induction m as [|m IH]; intros fuel b g d ts Hw Hr Hbuf Hf; (destruct fuel as [|fuel]; [lia|]).
  - pose proof Hr as (Hb & ? & Hc & ? & Hdr & Hs & HP & Hm). assert (d = 0)%nat as -> by lia.
    exists (read_bus b), g, ts. split_and!; [|apply read_later|by eapply rx_ready_later, Hr; apply read_later|by rewrite Z.add_0_r, wrapu_small..|done].
    cbn [genet_recv]. rewrite rd_run by (done || by apply rdma_off). rewrite gst_run, (hw_prod _ _ _ _ Hw b (reflexivity b)), low_bits.
    rewrite Z.add_0_r in HP. by rewrite HP, Z.eqb_refl.
  - destruct (recv_step fuel b g P st fr d m buf len ts Hw Hr) as (b1 & g1 & w & d1 & E & Hl & Hv & Hr1 & Hc1 & Hd1 & Hcn & Hcs & Hst & Hview).
    rewrite E. clear E. cbn [first_good]. set (status := st (s_rx_cons g mod RX_DESCS)) in *.
    destruct (rx_bad status (rlen_of status)) eqn:Hbad.
    + rewrite upd_run, gst_run. set (g2 := set_drop _ g1).
      destruct (drop_message b1 g2 status) as (b2 & Hl2 & E2); [apply Hr1|done|]. rewrite (bind_eq _ _ _ _ _ E2).
      assert (s_rx_cons g2 = u32 (s_rx_cons g + 1) /\ s_rx_drop g2 = u32 (s_rx_drop g + 1)) as [Hc2 Hd2] by (split; cbn; congruence).
      specialize (IH fuel b2 g2 d1 ((fun _ => w) <$> ts)). rewrite Hc2 in IH.
      assert (later b b2) as Hlb by by etrans. 
      specialize (IH ltac:(by eapply rx_hw_later) ltac:(eapply rx_ready_later, rx_ready_drop, Hr1; done) Hbuf ltac:(lia)).
      rewrite first_good_u32 in IH. destruct (first_good st (s_rx_cons g + 1) m) as [k|] eqn:Ek; cbn [fmap option_fmap option_map].
      * destruct IH as (b' & g' & w' & d' & E & Hv' & Hl' & Hr' & Hc' & Hdr' & Hcn' & Hcs' & Hview').
        rewrite Hc2, next_index in E. rewrite Hc2 in Hc'. pose proof (first_good_lt _ _ _ _ Ek).
        exists b', g', w', d'. split; [by rewrite E; destruct ts|]. split; [by rewrite <- Hview by done|]. split; [by etrans|]. split; [done|].
        rewrite Hc', Hdr', Hd2, !u32_add. split; [f_equal; lia|]. split; [f_equal; lia|]. cbn in Hcn', Hcs'. split; [lia|]. split; [lia|].
        intros j Hj. rewrite Hview' by lia. exact (Hview (S k + j)%nat ltac:(lia)).
      * destruct IH as (b' & g' & ts' & E & Hl' & Hr' & Hc' & Hdr' & Hcn').
        exists b', g', ts'. split; [done|]. split; [by etrans|]. split; [done|].
        rewrite Hc', Hdr', Hc2, Hd2, !u32_add. split; [f_equal; lia|]. split; [f_equal; lia|]. cbn in Hcn'. lia.
    + pose proof Hr1 as (Hb1 & _ & _ & Hdb & Hdr & _). destruct Hbuf as (Hlen & Hbl & H14 & Hby).
      assert (RX_BUF_OFFSET < rlen_of status) as Hrl by (unfold rx_bad in Hbad; apply orb_false_iff in Hbad as [_ Hbad]; by apply Z.leb_gt).
      destruct (recv_copy_run buf len (s_rx_cons g mod RX_DESCS) status b1 g1 P st fr) as (b2 & v & E2 & Hl2 & Hv2); try done; [by eapply rx_hw_later|by apply Z.mod_pos_bound|].
      rewrite (bind_eq _ _ _ _ _ E2). exists b2, (set_dbg v g1), w, d1. rewrite !Z.add_0_r. split; [done|]. split; [done|]. split; [by etrans|].
      split; [|split; [done|split; [rewrite Hd1 in Hdr; cbn [s_rx_drop set_dbg]; by rewrite Hd1, wrapu_small|split; [cbn; lia|split; [cbn; lia|]]]]];
        [|intros j Hj; exact (Hview j ltac:(lia))].
      replace (S m - 1)%nat with m by lia. eapply rx_ready_later; [exact Hl2|]. destruct Hr1 as (? & ? & ? & ? & ? & ? & ? & ? & ?). by split_and!.
Qed.

(** ** The receive interrupt *)

(** The receive-done interrupt is raised and not masked, from a moment on. *)
Definition rx_irq_raised b : Prop := forall b' b'', later b b' -> later b b'' ->
  Z.land (Z.land (reg_at b' (INTRL2_0 + INTRL2_CPU_STAT)) (notu 32 (reg_at b'' (INTRL2_0 + INTRL2_CPU_MASK_STATUS)))) UMAC_IRQ_RXDMA_MBDONE <> 0.

(** It stamps every complete descriptor that has no stamp, and no other. *)
Lemma isr_run b g P st fr d m :
  rx_hw b P st fr -> rx_ready b g P d m -> rx_irq_raised b ->
  exists b1 g1, genet_isr (b, g) = Some (tt, (b1, g1)) /\ later b b1 /\ rx_ready b1 g1 P m m /\ s_rx_cons g1 = s_rx_cons g /\ s_rx_drop g1 = s_rx_drop g /\
    forall k, (k < m)%nat -> stamp_view g1 m k = stamp_view g d k.
Proof.
  intros Hw Hr Hirq. pose proof Hr as (Hb & Hl & Hc & Hdb & Hdr & Hs & HP & Hm). unfold genet_isr.
  pose proof (eth_read b Hb) as Hb1. pose proof (eth_read _ Hb1) as Hb2.
  rewrite rd_run by done. rewrite rd_run by done. rewrite wr_run by done.
  rewrite (proj2 (Z.eqb_neq _ 0)) by (apply Hirq; [done|apply read_later]). cbn [negb].
  set (b3 := write_bus _ _ _). assert (later b b3) as Hl3 by (etrans; [|apply write_later]; etrans; apply read_later).
  destruct (stamp_new_run b3 g P st fr true (m - d)) as [l E];
    [by eapply eth_bus_later|by eapply rx_hw_later|done|rewrite Hs; by apply wrapu_range|lia|rewrite Hs, low_add, <- HP; f_equal; lia|].
  rewrite E. set (now := u64 _). exists (read_bus b3). eexists. split; [done|].
  assert (later b (read_bus b3)) as Hl4 by (etrans; [exact Hl3|apply read_later]). split; [done|].
  split; [|split; [done|split; [done|]]].
  - split; [by eapply eth_bus_later|]. cbn. rewrite fill_length, Hs, u32_add. split_and!; try done; try lia. f_equal. lia.
  - intros k Hk. unfold stamp_view at 1. rewrite (proj2 (Nat.ltb_lt k m)) by done. cbn [stamped set_rx_ts s_rx_ts s_rx_cons set_seen set_late set_cnt s_rx_ts_seen].
    rewrite Hs, fill_u32. unfold stamp_view. destruct (Nat.ltb_spec k d).
    + apply fill_other; lia.
    + apply fill_stamped; [done|lia|lia].
Qed.
End genet_props.
