(* ===== verification/GenetInit.v ===== *)
(** * Bring-up of the Ethernet controller, for any hardware

    Every operation of the driver's start-up returns whatever the registers
    read, and leaves the rings at their first descriptors. *)

From S2P Require Import Prelude CInt CStr Decimal Mmio Uart UartProps Lists ListSpec ListRefine Alloc Tasks TasksInv PortIrq PortIrqProps GenetRegs Genet GenetRx GenetProps.

(** What the start-up may do to the driver's variables. *)
Record reset_only (g g' : genet) : Prop := {
  ro_ts : s_rx_ts g' = s_rx_ts g;
  ro_dbg : s_rx_dbg g' = s_rx_dbg g;
  ro_drop : s_rx_drop g' = s_rx_drop g;
  ro_buf : s_tx_buf g' = s_tx_buf g;
  ro_cons : s_rx_cons g' = s_rx_cons g \/ s_rx_cons g' = 0;
  ro_prod : s_tx_prod g' = s_tx_prod g \/ s_tx_prod g' = 0 }.
#[global] Instance reset_only_preorder : PreOrder reset_only.
Proof.
  split; [intros g; split; auto|]. intros g1 g2 g3 [A1 B1 C1 D1 [E1|E1] [F1|F1] ] [A2 B2 C2 D2 [E2|E2] [F2|F2] ];
    split; (congruence || (left; congruence) || (right; congruence)).
Qed.

Section init_props.
Context {D : Device} {HW : GenetHw} (pmr : Z).
Abbreviation G := (M (bus * genet)).

(** [c] returns for any hardware, with a value in [V]; it adds to the history of
    the bus and resets at most the ring positions. *)
Definition runs {A} (c : G A) (V : A -> Prop) : Prop := forall b g, eth_bus pmr b ->
  exists a b' g', c (b, g) = Some (a, (b', g')) /\ later b b' /\ reset_only g g' /\ V a.

Lemma runs_ret {A} (a : A) (V : A -> Prop) : V a -> runs (mret a) V.
Proof. intros Ha b g _. by exists a, b, g. Qed.
Lemma runs_bind {A B} (c : G A) (k : A -> G B) V W : runs c V -> (forall a, V a -> runs (k a) W) -> runs (c ≫= k) W.
Proof.
  intros Hc Hk b g Hb. destruct (Hc b g Hb) as (a & b1 & g1 & E1 & L1 & K1 & Ha).
  destruct (Hk a Ha b1 g1) as (x & b2 & g2 & E2 & L2 & K2 & Hx); [by eapply eth_bus_later|].
  exists x, b2, g2. rewrite (bind_eq _ _ _ _ _ E1). split; [done|]. split; [by etrans|]. split; [by etrans|done].
Qed.
Lemma runs_rd off : 0 <= off < 0x10000 -> runs (rd off) (in_u 32).
Proof.
  intros Ho b g Hb. pose proof (rd_run pmr off (fun v => mret v) b g Hb Ho) as E. unfold mbind, M_bind in E.
  exists (reg_at b off), (read_bus b), g. split; [|split; [apply read_later|split; [done|by apply wrapu_range] ] ].
  destruct (rd off (b, g)) as [ [v [b' g'] ]|]; [|done]. exact E.
Qed.
Lemma wr_eq off v b g : eth_bus pmr b -> 0 <= off < 0x10000 -> wr off v (b, g) = Some (tt, (write_bus off v b, g)).
Proof.
  intros Hb Ho. pose proof (wr_run pmr off v (fun u => mret u) b g Hb Ho) as E. unfold mbind, M_bind in E.
  destruct (wr off v (b, g)) as [ [ [] x]|]; [exact E|done].
Qed.
Lemma runs_wr off v : 0 <= off < 0x10000 -> runs (wr off v) (fun _ => True).
Proof.
  intros Ho b g Hb. exists tt, (write_bus off v b), g. split; [by apply wr_eq|split; [apply write_later|done] ].
Qed.
Lemma runs_gst {A} (f : genet -> A) : runs (gst f) (fun _ => True).
Proof. intros b g _. by exists (f g), b, g. Qed.
Lemma runs_upd f : (forall g, reset_only g (f g)) -> runs (upd f) (fun _ => True).
Proof. intros Hf b g _. exists tt, b, (f g). split_and!; [done|done|apply Hf|done]. Qed.
Lemma runs_printf fmt ap t :
  is_text fmt -> Forall uart_arg_ok ap -> uart_render false fmt ap = Some t -> runs (gprintf (fmt ++ [0]) ap) (fun _ => True).
Proof. intros Hf Ha Ht b g Hb. destruct (printf_ok pmr fmt ap t b g Hb Hf Ha Ht) as (b' & L & E). by exists tt, b', g. Qed.
Lemma runs_if {A} (x : bool) (c1 c2 : G A) V : (x = true -> runs c1 V) -> (x = false -> runs c2 V) -> runs (if x then c1 else c2) V.
Proof. destruct x; auto. Qed.
Lemma runs_any {A} (c : G A) V : runs c V -> runs c (fun _ => True).
Proof. intros H b g Hb. destruct (H b g Hb) as (a & b' & g' & ? & ? & ? & _). by exists a, b', g'. Qed.

Create HintDb runs.
Hint Resolve runs_gst : runs.
Hint Extern 1 (runs (wr _ _) _) => apply runs_wr; done : runs.
Hint Extern 1 (runs (rd _) _) => apply runs_rd; done : runs.
Hint Extern 1 (runs (mret _) _) => apply runs_ret; done : runs.
Hint Extern 1 (runs (upd _) _) => apply runs_upd; intros; split; auto : runs.
(** Steps through straight-line driver code. *)
Ltac runs_step :=
  lazymatch goal with
  | |- runs (mbind _ _) _ => eapply runs_bind; [solve [eauto with runs]|intros ? ?]
  | |- _ => solve [eauto with runs]
  end.

Lemma runs_mdio_wait n : runs (mdio_wait n) (fun _ => True).
Proof.
  induction n as [|n IH]; cbn [mdio_wait]; [by apply runs_ret|]. runs_step. apply runs_if; intros _; [by apply runs_ret|done].
Qed.
Lemma runs_mdio_read phy reg : runs (mdio_read phy reg) (in_u 16).
Proof.
  unfold mdio_read. runs_step. eapply runs_bind; [apply runs_mdio_wait|intros _ _]. runs_step. apply runs_ret. by apply wrapu_range.
Qed.
Lemma runs_mdio_write phy reg v : runs (mdio_write phy reg v) (fun _ => True).
Proof. unfold mdio_write. runs_step. apply runs_mdio_wait. Qed.
Hint Resolve runs_mdio_read runs_mdio_write : runs.
Lemma runs_scan a n : runs (scan_from a n) (fun _ => True).
Proof.
  revert a. induction n as [|n IH]; intros a; cbn [scan_from]; [by apply runs_ret|]. runs_step. apply runs_if; intros _; [by apply runs_ret|apply IH].
Qed.
Lemma runs_shadow phy shd : runs (phy_read_shadow phy shd) (in_u 16).
Proof. unfold phy_read_shadow. do 2 runs_step. apply runs_ret. by apply wrapu_range. Qed.
Lemma runs_write_shadow phy shd v : runs (phy_write_shadow phy shd v) (fun _ => True).
Proof. unfold phy_write_shadow. runs_step. Qed.
Hint Resolve runs_shadow runs_write_shadow : runs.
Lemma in_u_16_32 v : in_u 16 v -> in_u 32 v.
Proof. unfold in_u. change (2 ^ 16) with 65536. change (2 ^ 32) with 4294967296. lia. Qed.
Lemma lit_ok (x : bool) s1 s2 : uart_arg_ok (UaStr (lit s1)) -> uart_arg_ok (UaStr (lit s2)) -> uart_arg_ok (UaStr (if x then lit s1 else lit s2)).
Proof. by destruct x. Qed.
Lemma runs_delays phy : runs (phy_config_rgmii_delays phy) (fun _ => True).
Proof.
  unfold phy_config_rgmii_delays. do 9 runs_step.
  eapply (runs_printf (chars "[genet] PHY delays: MISC=0x%x (skew bit8 %s) | CLK_CTL 0x%x -> 0x%x (GTXCLK %s)" ++ [10])); [compute_done| |reflexivity].
  rewrite !Forall_cons, Forall_nil. split_and!; try (by apply in_u_16_32); (apply lit_ok; compute_done) || done.
Qed.
Lemma runs_point i n : 0 <= i -> i + Z.of_nat n <= 256 -> runs (point_descs i n) (fun _ => True).
Proof.
  revert i. induction n as [|n IH]; intros i Hi Hn; cbn [point_descs]; [by apply runs_ret|].
  eapply runs_bind; [apply runs_wr, rx_desc_off; lia|intros _ _]. eapply runs_bind; [apply runs_wr, rx_desc_off; lia|intros _ _]. apply IH; lia.
Qed.
Lemma runs_umac_reset : runs umac_reset (fun _ => True).
Proof. unfold umac_reset. repeat runs_step. Qed.
Lemma runs_disable : runs disable_dma (fun _ => True).
Proof. unfold disable_dma. repeat runs_step. Qed.
Lemma runs_enable : runs enable_dma (fun _ => True).
Proof. unfold enable_dma. repeat runs_step. Qed.
Lemma runs_rx_ring : runs rx_ring_init (fun _ => True).
Proof. unfold rx_ring_init. do 2 runs_step. eapply runs_bind; [by apply runs_point|intros _ _]. repeat runs_step. Qed.
Lemma runs_tx_ring : runs tx_ring_init (fun _ => True).
Proof. unfold tx_ring_init. repeat runs_step. Qed.

(** The registers of the station address. *)
Definition mac_writes (m0 m1 m2 m3 m4 m5 : Z) : list (Z * Z) :=
  [(GENET_BASE + UMAC_MAC0, Z.lor (Z.lor (Z.lor (u32 (Z.shiftl m0 24)) (u32 (Z.shiftl m1 16))) (u32 (Z.shiftl m2 8))) m3);
   (GENET_BASE + UMAC_MAC1, Z.lor (u32 (Z.shiftl m4 8)) m5)].
(** The ring positions after the rings were set up, and later. *)
Definition at_start (g : genet) : Prop := s_rx_cons g = 0 /\ s_tx_prod g = 0.
Lemma at_start_kept g g' : reset_only g g' -> at_start g -> at_start g'.
Proof. intros [_ _ _ _ [E|E] [F|F] ] [? ?]; split; congruence. Qed.

(** An assignment followed by code that runs. *)
Lemma upd_then {A} f (c : G A) V b g :
  runs c V -> eth_bus pmr b -> exists a b' g', (upd f;; c) (b, g) = Some (a, (b', g')) /\ later b b' /\ reset_only (f g) g' /\ V a.
Proof. intros Hc Hb. rewrite upd_run. by apply Hc. Qed.
Lemma rx_ring_start b g :
  eth_bus pmr b -> exists a b' g', rx_ring_init (b, g) = Some (a, (b', g')) /\ later b b' /\ reset_only (set_cons 0 g) g' /\ True.
Proof.
  intros Hb. unfold rx_ring_init. apply (upd_then (set_cons 0) _ (fun _ => True)); [|done]. runs_step.
  eapply runs_bind; [by apply runs_point|intros _ _]. repeat runs_step.
Qed.
Lemma tx_ring_start b g :
  eth_bus pmr b -> exists a b' g', tx_ring_init (b, g) = Some (a, (b', g')) /\ later b b' /\ reset_only (set_prod 0 g) g' /\ True.
Proof. intros Hb. unfold tx_ring_init. apply (upd_then (set_prod 0) _ (fun _ => True)); [|done]. repeat runs_step. Qed.
Lemma rings_at_start b g :
  eth_bus pmr b -> exists b1 g1 b2 g2, rx_ring_init (b, g) = Some (tt, (b1, g1)) /\ tx_ring_init (b1, g1) = Some (tt, (b2, g2)) /\
    later b b2 /\ reset_only g g2 /\ at_start g2.
Proof.
  intros Hb. destruct (rx_ring_start b g Hb) as ([] & b1 & g1 & E1 & L1 & K1 & _).
  destruct (tx_ring_start b1 g1) as ([] & b2 & g2 & E2 & L2 & K2 & _); [by eapply eth_bus_later|].
  exists b1, g1, b2, g2. split; [done|]. split; [done|]. split; [by etrans|].
  clear E1 E2. destruct K1 as [A1 B1 C1 D1 F1 H1], K2 as [A2 B2 C2 D2 F2 H2]. cbn [s_rx_ts s_rx_dbg s_rx_drop s_tx_buf s_rx_cons s_tx_prod set_cons set_prod] in *.
  assert (s_rx_cons g1 = 0) as Hc by (destruct F1 as [F1|F1]; exact F1). rewrite Hc in F2. assert (s_rx_cons g2 = 0) as Hc2 by (destruct F2 as [F2|F2]; exact F2).
  assert (s_tx_prod g2 = 0) as Hp2 by (destruct H2 as [H2|H2]; exact H2). split; [|done]. split; try congruence; by right.
Qed.

Lemma set_mac_run m0 m1 m2 m3 m4 m5 b g (w := mac_writes m0 m1 m2 m3 m4 m5) :
  eth_bus pmr b -> exists b', set_mac_address [m0; m1; m2; m3; m4; m5] (b, g) = Some (tt, (b', g)) /\ later b b' /\ trace b' = trace b ++ w.
Proof.
  intros Hb. unfold set_mac_address. do 6 (erewrite opt_run by reflexivity). rewrite (wr_run pmr) by done.
  exists (write_bus UMAC_MAC1 (Z.lor (u32 (Z.shiftl m4 8)) m5) (write_bus UMAC_MAC0 (Z.lor (Z.lor (Z.lor (u32 (Z.shiftl m0 24)) (u32 (Z.shiftl m1 16))) (u32 (Z.shiftl m2 8))) m3) b)).
  split; [apply wr_eq; [by apply eth_write|done]|split; [etrans; apply write_later|cbn; by rewrite <- app_assoc] ].
Qed.

(** The part of the start-up before the rings. *)
Lemma phy_runs a :
  runs (if 0 <=? a then upd (set_phy (u32 a));; phy ← gst s_phy_addr; phy_config_rgmii_delays phy;; mdio_write phy 0 0x1200 else upd (set_link false)) (fun _ => True).
Proof.
  apply runs_if; intros _; [|runs_step]. do 2 runs_step. eapply runs_bind; [apply runs_delays|intros _ _]. runs_step.
Qed.
(** [c] runs and ends with the stamp counter at the producer index. *)
Definition syncs (c : G unit) : Prop := forall b g, eth_bus pmr b ->
  exists b' g' b0, c (b, g) = Some (tt, (b', g')) /\ later b b' /\ reset_only g g' /\ later b b0 /\
    s_rx_ts_seen g' = Z.land (reg_at b0 (rdma_ring RDMA_PROD_INDEX)) 0xFFFF.
Lemma syncs_bind {A} (c : G A) (k : A -> G unit) V : runs c V -> (forall a, V a -> syncs (k a)) -> syncs (c ≫= k).
Proof.
  intros Hc Hk b g Hb. destruct (Hc b g Hb) as (a & b1 & g1 & E1 & L1 & K1 & Ha).
  destruct (Hk a Ha b1 g1) as (b2 & g2 & b0 & E2 & L2 & K2 & L0 & S0); [by eapply eth_bus_later|].
  exists b2, g2, b0. rewrite (bind_eq _ _ _ _ _ E1). split; [done|]. split; [by etrans|]. split; [by etrans|]. split; [by etrans|done].
Qed.
Lemma syncs_end : syncs (prod ← rd (rdma_ring RDMA_PROD_INDEX); upd (set_seen (Z.land prod 0xFFFF))).
Proof.
  intros b g Hb. rewrite (rd_run pmr) by (done || by apply rdma_off). eexists _, _, b. split; [done|]. split; [apply read_later|].
  split; [by split; auto|]. done.
Qed.

Lemma init_mac_run m0 m1 m2 m3 m4 m5 b g (w := mac_writes m0 m1 m2 m3 m4 m5) :
  eth_bus pmr b -> exists b' g' b0 b1, init_mac [m0; m1; m2; m3; m4; m5] (b, g) = Some (tt, (b', g')) /\ later b b' /\ reset_only g g' /\ at_start g' /\
    (trace b0 ++ w) `prefix_of` trace b' /\ later b b1 /\ s_rx_ts_seen g' = Z.land (reg_at b1 (rdma_ring RDMA_PROD_INDEX)) 0xFFFF.
Proof.
  intros Hb. unfold init_mac. destruct (runs_umac_reset b g Hb) as (u & b1 & g1 & E1 & L1 & K1 & _). rewrite (bind_eq _ _ _ _ _ E1). clear E1.
  pose proof (eth_bus_later _ _ _ L1 Hb) as Hb1. rewrite (wr_run pmr) by done.
  destruct (set_mac_run m0 m1 m2 m3 m4 m5 (write_bus SYS_PORT_CTRL PORT_MODE_EXT_GPHY b1) g1) as (b2 & E2 & L2 & T2); [by apply eth_write|].
  rewrite (bind_eq _ _ _ _ _ E2). clear E2. fold w in T2. assert (later b1 b2) as L12 by (etrans; [apply write_later|exact L2]).
  pose proof (eth_bus_later _ _ _ L12 Hb1) as Hb2. rewrite (rd_run pmr) by done. rewrite (wr_run pmr) by solve [auto using eth_read|done].
  set (b3 := write_bus UMAC_CMD _ _). assert (later b2 b3) as L23 by (etrans; [apply read_later|apply write_later]).
  pose proof (eth_bus_later _ _ _ L23 Hb2) as Hb3. destruct (runs_scan 0 32 b3 g1 Hb3) as (a & b4 & g4 & E4 & L4 & K4 & _). rewrite (bind_eq _ _ _ _ _ E4). clear E4.
  pose proof (eth_bus_later _ _ _ L4 Hb3) as Hb4. destruct (phy_runs a b4 g4 Hb4) as (u5 & b5 & g5 & E5 & L5 & K5 & _). rewrite (bind_eq _ _ _ _ _ E5). clear E5.
  pose proof (eth_bus_later _ _ _ L5 Hb4) as Hb5. destruct (runs_disable b5 g5 Hb5) as (u6 & b6 & g6 & E6 & L6 & K6 & _). rewrite (bind_eq _ _ _ _ _ E6). clear E6.
  pose proof (eth_bus_later _ _ _ L6 Hb5) as Hb6. destruct (rings_at_start b6 g6 Hb6) as (b7 & g7 & b8 & g8 & E7 & E8 & L8 & K8 & S8).
  rewrite (bind_eq _ _ _ _ _ E7), (bind_eq _ _ _ _ _ E8). clear E7 E8. pose proof (eth_bus_later _ _ _ L8 Hb6) as Hb8.
  match goal with |- context [?c (b8, g8) = _] => assert (syncs c) as Hsync end.
  { eapply syncs_bind; [apply runs_enable|intros _ _]. do 6 (eapply syncs_bind; [solve [eauto with runs]|intros ? ?]). apply syncs_end. }
  destruct (Hsync b8 g8 Hb8) as (b' & g' & b0 & E & L & K & L0 & Hs). clear Hsync.
  assert (later b2 b8) as L28 by (do 4 (etrans; [eassumption|]); exact L8). assert (later b b2) as L02 by by etrans.
  exists b', g', (write_bus SYS_PORT_CTRL PORT_MODE_EXT_GPHY b1), b0. split; [exact E|]. split; [etrans; [exact L02|]; by etrans|].
  split; [do 5 (etrans; [eassumption|]); exact K|]. split; [by eapply at_start_kept|]. split; [|split; [by do 2 (etrans; [eassumption|])|done] ].
  rewrite <- T2. assert (later b2 b') as (_ & HT & _) by by etrans. exact HT.
Qed.
End init_props.

(** ** On the port *)

Ltac port_cbn :=
  cbn [p_kernel p_bus p_driver xIrqTable uxIrqSlots ullTimerReloadTicks ulFirstIrq cntp_tval_el0 cntp_ctl_el0].

Section port_init.
Context {LS HS : Type} `{!ListOps item lst LS} `{!HeapOps HS} {D : Device} {HW : GenetHw}.
Context (pmr genet_isr_addr : Z).
Implicit Types p : port LS HS genet.

(** The state the driver is started in: the registers of the controller, the
    console and the distributor are the device's, there is a free interrupt slot
    and the driver's arrays have their sizes. *)
Record boot_ready p : Prop := {
  br_eth : eth_bus pmr (p_bus p);
  br_gicd : gicd_free (p_bus p);
  br_table : table_ok p;
  br_slot : uxIrqSlots p < PORT_MAX_IRQS;
  br_new k sl : (k < Z.to_nat (uxIrqSlots p))%nat -> xIrqTable p !! k = Some sl -> intid sl <> GENET_IRQ0_INTID;
  br_nest : 0 <= uxCriticalNesting (p_kernel p) < 2 ^ 64 - 1;
  br_wf : genet_wf (p_driver p);
  br_dbg : in_u 32 (s_rx_dbg (p_driver p));
  br_drop : in_u 32 (s_rx_drop (p_driver p)) }.
Record driver_up p p' (mac : list Z) : Prop := {
  du_tx : tx_ready pmr (p_bus p') (p_driver p');
  du_irq : s_irq_ok (p_driver p') = true;
  du_slot : first_slot (xIrqTable p') (Z.to_nat (uxIrqSlots p')) GENET_IRQ0_INTID (Z.to_nat (uxIrqSlots p)) (IrqSlot GENET_IRQ0_INTID genet_isr_addr 0);
  du_mac m0 m1 m2 m3 m4 m5 : mac = [m0; m1; m2; m3; m4; m5] -> exists b0, (trace b0 ++ mac_writes m0 m1 m2 m3 m4 m5) `prefix_of` trace (p_bus p');
  du_rx : (forall b', later (p_bus p) b' -> Z.land (reg_at b' (rdma_ring RDMA_PROD_INDEX)) 0xFFFF = 0) -> rx_ready pmr (p_bus p') (p_driver p') 0 0 0 }.

Lemma port_onD {X Y} (c : M (bus * genet) X) (k : X -> M (port LS HS genet) Y) p x b g :
  c (p_bus p, p_driver p) = Some (x, (b, g)) ->
  (onD c ≫= k) p = k x (Port (p_kernel p) b g (xIrqTable p) (uxIrqSlots p) (ullTimerReloadTicks p) (ulFirstIrq p) (cntp_tval_el0 p) (cntp_ctl_el0 p)).
Proof. intros E. apply bind_eq. unfold onD, zoom. by rewrite E. Qed.
Lemma genet_init_run p m0 m1 m2 m3 m4 m5 (mac := [m0; m1; m2; m3; m4; m5]) :
  genet_isr_addr <> 0 -> boot_ready p -> exists p', genet_init genet_isr_addr mac p = Some (true, p') /\ driver_up p p' mac.
Proof.
  subst mac. intros Hisr [He Hgf Ht Hs Hnew Hn (W1 & W2 & W3 & W4 & W5 & W6) Hdb Hdr].
  destruct (init_mac_run pmr m0 m1 m2 m3 m4 m5 (p_bus p) (p_driver p) He) as (b1 & g1 & b0 & bp & E1 & L1 & [A1 B1 C1 D1 _ _] & [S1 S2] & T1 & Lp & Hp).
  pose proof (later_regs _ _ L1) as R1. pose proof (eth_bus_later _ _ _ L1 He) as He1.
  set (p1 := Port (p_kernel p) b1 g1 (xIrqTable p) (uxIrqSlots p) (ullTimerReloadTicks p) (ulFirstIrq p) (cntp_tval_el0 p) (cntp_ctl_el0 p)).
  destruct (install_ok p1 GENET_IRQ0_INTID GIC_PRIO_TIMESTAMP genet_isr_addr) as (m & b2 & E2 & _ & H2); [done|exact Hs|done|done|exact Hn|].
  destruct H2 as (R2 & T2 & N2); [intros a Ha; cbn [p1 p_bus]; rewrite R1; by apply Hgf|]. cbn [p1 p_bus] in R2, T2, N2.
  assert (later b1 b2) as L2 by (split_and!; done). pose proof (eth_bus_later _ _ _ L2 He1) as He2.
  set (g2 := set_irq_ok true g1). set (b3 := write_bus (INTRL2_0 + INTRL2_CPU_MASK_CLEAR) UMAC_IRQ_RXDMA_MBDONE b2).
  assert (eth_bus pmr b3) as He3 by by apply eth_write.
  destruct (emits_printf pmr (chars "[genet] RX timestamp IRQ: INTID %u prio 0x%x -> %s" ++ [10]) []
    [UaUint GENET_IRQ0_INTID; UaUint GIC_PRIO_TIMESTAMP; UaStr (lit "installed")] _ ltac:(compute_done) ltac:(compute_done) eq_refl b3 (proj1 He3))
    as (b4 & wr4 & E4 & R4 & T4 & _ & _ & _ & N4).
  assert (later b3 b4) as L4 by (split_and!; [done|rewrite T4; by apply prefix_app_r|lia]).
  pose proof (eth_bus_later _ _ _ L4 He3) as He4. assert (later b1 b4) as L14 by (etrans; [exact L2|]; etrans; [apply write_later|exact L4]).
  eexists. split.
  - unfold genet_init. rewrite (port_onD _ _ _ _ _ _ E1). fold p1. rewrite (bind_eq _ _ _ _ _ E2).
    rewrite (port_onD _ _ _ tt b2 g2) by done. port_cbn. rewrite (port_onD _ _ _ tt b3 g2) by (by apply (wr_eq pmr)). port_cbn.
    rewrite gets_run. port_cbn. cbn [g2 s_irq_ok set_irq_ok]. erewrite port_onB by exact E4. port_cbn. reflexivity.
  - constructor; cbn [p_bus p_driver xIrqTable uxIrqSlots p1].
    + split; [done|]. change (s_tx_buf g2) with (s_tx_buf g1). change (s_tx_prod g2) with (s_tx_prod g1). rewrite D1, S2. split_and!; done.
    + done.
    + destruct Ht as [Ht1 Ht2]. destruct (new_slot (xIrqTable p) (Z.to_nat (uxIrqSlots p)) (IrqSlot GENET_IRQ0_INTID genet_isr_addr 0) (IrqSlot GENET_IRQ0_INTID genet_isr_addr 0) GENET_IRQ0_INTID) as [_ Hf]; [unfold PORT_MAX_IRQS in Hs; lia|done|done|exact Hnew|].
      replace (Z.to_nat (uxIrqSlots p + 1)) with (S (Z.to_nat (uxIrqSlots p))) by lia. exact Hf.
    + intros ? ? ? ? ? ? [= <- <- <- <- <- <-]. exists b0. etrans; [exact T1|]. apply L14.
    + intros Hz. rewrite (Hz _ Lp) in Hp. split; [done|]. cbn [g2 s_rx_ts s_rx_cons s_rx_dbg s_rx_drop s_rx_ts_seen set_irq_ok].
      rewrite A1, B1, C1, S1, Hp. split_and!; done || lia.
Qed.
End port_init.
