(* ===== verification/NetIf.v ===== *)
(** * The Ethernet interface of lwIP (src/port/lwip/netif/flint_netif.c)

    The netif between the GENET driver and lwIP: transmission of a gathered
    pbuf chain, the poll loop that wraps received frames in pbufs, and the
    initialisation with the board's MAC address.  The two pbuf functions it
    calls are translated from src/third_party/lwip/src/core/pbuf.c; the pbuf
    pool and the stack's input function are a parameter [Stack].  The stack may
    call back into the driver, so its input function runs on the whole state.
    The theorems about the poll assume that no frame arrives while it runs
    ([rx_hw] of GenetRx). *)

From S2P Require Import Prelude CInt CStr Lists ListSpec ListRefine Alloc Tasks Mmio Uart PortIrq Mailbox GenetRegs Genet.

Definition GENET_MAX_FRAME : Z := 1536.
Definition FLINT_NETIF_MTU : Z := 1500.
Definition ETH_HWADDR_LEN : Z := 6.
Definition k_mac : list Z := [0x02; 0x00; 0x5E; 0x00; 0x00; 0x01].
Definition ERR_OK : Z := 0.
Definition ERR_MEM : Z := -1.
Definition ERR_BUF : Z := -2.
Definition ERR_IF : Z := -12.
Definition NETIF_FLAG_UP : Z := 0x01.
Definition NETIF_FLAG_BROADCAST : Z := 0x02.
Definition NETIF_FLAG_LINK_UP : Z := 0x04.
Definition NETIF_FLAG_ETHARP : Z := 0x08.
Definition NETIF_FLAG_ETHERNET : Z := 0x10.
Definition NETIF_FLAG_IGMP : Z := 0x20.

(** ** Packet buffers *)

(** The payloads of a chain of pbufs, first to last. *)
Definition chain : Type := list (list Z).
Definition tot_len (c : chain) : Z := Z.of_nat (length (concat c)).

(** [pbuf_copy_partial]'s loop: the destination, its fill [left] and what is to
    be skipped and copied. *)
Fixpoint copy_chain (c : chain) (dataptr : list Z) (left len offset : Z) : option (list Z * Z) :=
  match c with
  | [] => Some (dataptr, left)
  | p :: c =>
      if len =? 0 then Some (dataptr, left)
      else if negb (offset =? 0) && (Z.of_nat (length p) <=? offset)
      then copy_chain c dataptr left len (u16 (offset - Z.of_nat (length p)))
      else
        let n := u16 (Z.of_nat (length p) - offset) in
        let n := if len <? n then len else n in
        if bool_decide (left + n <= Z.of_nat (length dataptr) /\ offset + n <= Z.of_nat (length p)) then
          copy_chain c (blit dataptr (Z.to_nat left) (take (Z.to_nat n) (drop (Z.to_nat offset) p))) (u16 (left + n)) (u16 (len - n)) 0
        else None
  end.
Definition pbuf_copy_partial (c : chain) (dataptr : list Z) (len offset : Z) : option (list Z * Z) :=
  copy_chain c dataptr 0 len offset.

(** [pbuf_take]'s loop; no pbuf left with data to go is the failed assertion. *)
Fixpoint fill_chain (c : chain) (data : list Z) : option chain :=
  match data with
  | [] => Some c
  | _ =>
      match c with
      | [] => None
      | p :: c => c' ← fill_chain c (drop (length p) data); Some (blit p 0 (take (length p) data) :: c')
      end
  end.
(** The result and the chain afterwards; [data] is what [dataptr] points to. *)
Definition pbuf_take (c : chain) (data : list Z) (len : Z) : option (Z * chain) :=
  if tot_len c <? len then Some (ERR_MEM, c)
  else if bool_decide (0 <= len <= Z.of_nat (length data)) then
    c' ← fill_chain c (take (Z.to_nat len) data); Some (ERR_OK, c')
  else None.

(** ** The interface *)

(** The driver with its bus, the static variables and lwIP's state. *)
Record nsys (LW : Type) := NSys { n_hw : bus * genet; s_rx_stamp : Z; s_tx_gather : list Z; n_lw : LW }.
Arguments NSys {LW}.
Arguments n_hw {LW}.
Arguments s_rx_stamp {LW}.
Arguments s_tx_gather {LW}.
Arguments n_lw {LW}.

(** lwIP's pbuf pool and [netif->input]; pbufs are handles, 0 is NULL. *)
Class Stack (LW : Type) := {
  pbuf_alloc : Z -> M LW Z;
  pbuf_get : LW -> Z -> option chain;
  pbuf_put : Z -> chain -> LW -> LW;
  pbuf_free : Z -> M LW unit;
  netif_input : Z -> M (nsys LW) Z }.

Section netif.
Context {D : Device} {HW : GenetHw} {LW : Type} {ST : Stack LW}.
Abbreviation N := (M (nsys LW)).

Definition onHw {A} (c : M (bus * genet) A) : N A := zoom n_hw (fun h s => NSys h (s_rx_stamp s) (s_tx_gather s) (n_lw s)) c.
Definition onLw {A} (c : M LW A) : N A := zoom n_lw (fun l s => NSys (n_hw s) (s_rx_stamp s) (s_tx_gather s) l) c.
Definition set_stamp (v : Z) (s : nsys LW) : nsys LW := NSys (n_hw s) v (s_tx_gather s) (n_lw s).
Definition set_gather (v : list Z) (s : nsys LW) : nsys LW := NSys (n_hw s) (s_rx_stamp s) v (n_lw s).

Definition flint_netif_rx_stamp : N Z := gets s_rx_stamp.
Definition flint_netif_tx_stamp : N Z := onHw genet_last_tx_stamp.

Definition flint_low_level_output (p : Z) : N Z :=
  c ← get_opt (fun s => pbuf_get (n_lw s) p);
  gather ← gets s_tx_gather;
  if GENET_MAX_FRAME <? tot_len c then mret ERR_BUF
  else
    r ← of_opt (pbuf_copy_partial c gather (tot_len c) 0);
    modify (set_gather r.1);;
    sent ← onHw (genet_send r.1 (tot_len c));
    if negb sent then mret ERR_IF else mret ERR_OK.

(** The handling of one received frame. *)
Definition frame_in (frame : list Z) (len : Z) : N unit :=
  p ← onLw (pbuf_alloc len);
  if negb (p =? 0) then
    c ← get_opt (fun s => pbuf_get (n_lw s) p);
    r ← of_opt (pbuf_take c frame len);
    onLw (modify (pbuf_put p r.2));;
    e ← netif_input p;
    if negb (e =? ERR_OK) then onLw (pbuf_free p) else mret tt
  else mret tt.
(** The loop; [frame] is the local array, the fuel bounds the frames and the
    descriptors each call of [genet_recv] looks at. *)
Fixpoint poll_loop (fuel : nat) (frame : list Z) : N unit :=
  match fuel with
  | O => fails
  | S fuel' =>
      ts ← gets s_rx_stamp;
      r ← onHw (genet_recv fuel frame GENET_MAX_FRAME (Some ts));
      let '(ok, frame, len, ts) := r in
      modify (fun s => match ts with Some v => set_stamp v s | None => s end);;
      if negb ok then mret tt else frame_in frame len;; poll_loop fuel' frame
  end.
Definition flint_netif_poll (fuel : nat) (frame : list Z) : N unit := poll_loop fuel frame.
End netif.

(** ** Initialisation *)

(** The fields of [struct netif] that are set; functions are addresses. *)
Record netif := Netif {
  name : list Z; output : Z; output_ip6 : Z; linkoutput : Z;
  mtu : Z; hwaddr_len : Z; hwaddr : list Z; flags : Z }.

Section init.
Context {LS HS : Type} `{!ListOps item lst LS} `{!HeapOps HS} {D : Device} {HW : GenetHw}.
Context (s_mbox genet_isr_addr etharp_output ethip6_output low_level_output : Z).

Definition flint_netif_init : M (port LS HS genet) (netif * Z) :=
  fw ← onB (mbox_get_mac s_mbox);
  let mac := match fw with Some mac => mac | None => k_mac end in
  m0 ← of_opt (rdb mac 0); m1 ← of_opt (rdb mac 1); m2 ← of_opt (rdb mac 2);
  m3 ← of_opt (rdb mac 3); m4 ← of_opt (rdb mac 4); m5 ← of_opt (rdb mac 5);
  onB (uart_printf (chars "[netif] MAC %x:%x:%x:%x:%x:%x (%s)" ++ [10; 0])
         [UaUint m0; UaUint m1; UaUint m2; UaUint m3; UaUint m4; UaUint m5;
          UaStr (if fw is Some _ then lit "board MAC from firmware" else lit "fallback - mailbox did not answer")]);;
  let n := Netif (chars "en") etharp_output ethip6_output low_level_output FLINT_NETIF_MTU ETH_HWADDR_LEN [m0; m1; m2; m3; m4; m5]
             (Z.lor (Z.lor (Z.lor (Z.lor (Z.lor NETIF_FLAG_BROADCAST NETIF_FLAG_ETHARP) NETIF_FLAG_ETHERNET) NETIF_FLAG_LINK_UP) NETIF_FLAG_UP) NETIF_FLAG_IGMP) in
  genet_init genet_isr_addr (hwaddr n);;
  mret (n, ERR_OK).
End init.
