(* ===== verification/NetIfProps.v ===== *)
(** * Frames between the driver and lwIP

    The chain functions of pbuf.c against the concatenated payload, and the
    properties of flint_netif.c: what goes out, what a poll hands to lwIP, and
    the address the controller is brought up with. *)

From S2P Require Import Prelude CInt CStr Decimal Mmio Uart UartProps Lists ListSpec ListRefine Heap4 Alloc Heap4Props Tasks TasksInv TasksDemo PortIrq PortIrqProps Mailbox MailboxProps GenetRegs Genet GenetRx GenetProps GenetInit NetIf.

(** ** Chains *)

Lemma sublist_map {A B} (f : A -> B) l l' : l `sublist_of` l' -> (f <$> l) `sublist_of` (f <$> l').
Proof. induction 1; [constructor|by apply sublist_skip|by apply sublist_cons]. Qed.

Lemma blit_nil p o : blit p o [] = p.
Proof. unfold blit. cbn. rewrite Nat.add_0_r. apply take_drop. Qed.
Lemma length_slice {A} n k (l : list A) : length (take n (drop k l)) = (n `min` (length l - k))%nat.
Proof. by rewrite length_take, length_drop. Qed.

Lemma copy_chain_slice c dst left len off :
  0 <= left -> 0 <= len -> 0 <= off -> tot_len c < 65536 -> len < 65536 -> off < 65536 -> Z.of_nat (length dst) < 65536 ->
  let x := take (Z.to_nat len) (drop (Z.to_nat off) (concat c)) in
  left + Z.of_nat (length x) <= Z.of_nat (length dst) ->
  copy_chain c dst left len off = Some (blit dst (Z.to_nat left) x, left + Z.of_nat (length x)).
Proof.
  revert dst left len off. induction c as [|p c IH]; intros dst left len off Hl Hn Ho Ht Hn' Ho' Hd x Hx; cbn [copy_chain].
  { subst x. cbn [concat]. rewrite drop_nil, take_nil, blit_nil. f_equal. f_equal. cbn. lia. }
  assert (tot_len (p :: c) = Z.of_nat (length p) + tot_len c) as Htl by (unfold tot_len; cbn [concat]; rewrite length_app; lia).
  assert (0 <= tot_len c) by (unfold tot_len; lia).
  case_match eqn:E0; [apply Z.eqb_eq in E0; subst len x; cbn [Z.to_nat take]; by rewrite blit_nil, Z.add_0_r|].
  destruct (negb (off =? 0) && (Z.of_nat (length p) <=? off)) eqn:Es.
  - apply andb_true_iff in Es as [_ Es]. apply Z.leb_le in Es. rewrite u16_ok by lia.
    assert (x = take (Z.to_nat len) (drop (Z.to_nat (off - Z.of_nat (length p))) (concat c))) as Ex.
    { subst x. cbn [concat]. rewrite drop_app_ge by lia. f_equal. f_equal. lia. }
    rewrite Ex in *. apply IH; (done || lia).
  - assert (off = 0 \/ off < Z.of_nat (length p)) as Hoff.
    { apply andb_false_iff in Es as [Es|Es]; [left|right; by apply Z.leb_gt]. apply negb_false_iff in Es. by apply Z.eqb_eq. }
    rewrite u16_ok by lia. set (n := if len <? _ then len else _).
    assert (0 <= n /\ n <= len /\ off + n <= Z.of_nat (length p) /\ (n = len \/ n = Z.of_nat (length p) - off)) as (N0 & N1 & N2 & N3)
      by (unfold n; destruct (Z.ltb_spec len (Z.of_nat (length p) - off)); lia).
    assert (x = take (Z.to_nat n) (drop (Z.to_nat off) p) ++ take (Z.to_nat (len - n)) (drop 0 (concat c))) as Ex.
    { subst x. cbn [concat]. rewrite drop_app_le, take_app, length_drop, drop_0 by lia. f_equal; [|f_equal; lia].
      destruct N3 as [->| ->]; [done|]. rewrite !take_ge; [done|rewrite length_drop; lia..]. }
    rewrite Ex in *. rewrite length_app, length_slice in Hx.
    assert ((Z.to_nat n `min` (length p - Z.to_nat off))%nat = Z.to_nat n) as Hmin by lia. rewrite Hmin in Hx.
    rewrite bool_decide_true by lia. rewrite !u16_ok by lia.
    pose proof (length_slice (Z.to_nat n) (Z.to_nat off) p) as Hls. rewrite Hmin in Hls.
    set (y := take (Z.to_nat n) _) in *. assert (length (blit dst (Z.to_nat left) y) = length dst) as Hb by (apply blit_length; lia).
    rewrite IH by (change (Z.to_nat 0) with 0%nat; lia).
    change (Z.to_nat 0) with 0%nat. rewrite length_app, Hls. f_equal. f_equal; [|lia].
    rewrite <- (blit_after dst (Z.to_nat left)) by (rewrite Hls; lia). rewrite Hls. f_equal. lia.
Qed.

(** pbuf_copy_partial reads a chain of pbufs as the concatenation of their
    payloads: whatever the boundaries of the pbufs, the destination gets the
    bytes [offset, offset + len) of the packet, or as many of them as it has,
    and the number of bytes copied is returned. *)
Lemma pbuf_copy_partial_slice c dst len off (x := take (Z.to_nat len) (drop (Z.to_nat off) (concat c))) :
  in_u 16 len -> in_u 16 off -> in_u 16 (tot_len c) -> in_u 16 (Z.of_nat (length dst)) -> (length x <= length dst)%nat ->
  pbuf_copy_partial c dst len off = Some (blit dst 0 x, Z.of_nat (length x)).
Proof.
  unfold in_u. change (2 ^ 16) with 65536. intros. unfold pbuf_copy_partial. by rewrite copy_chain_slice by (fold x; lia).
Qed.

(** A filled chain holds the data first and keeps the lengths of its pbufs. *)
Lemma fill_chain_ok c data :
  (length data <= length (concat c))%nat ->
  exists c', fill_chain c data = Some c' /\ concat c' = blit (concat c) 0 data /\ length <$> c' = length <$> c.
Proof.
  revert data. induction c as [|p c IH]; intros data Hd.
  - destruct data; [|cbn in Hd; lia]. by exists [].
  - destruct data as [|x data]; [exists (p :: c); by rewrite blit_nil|]. set (l := x :: data) in *. cbn [concat] in Hd. rewrite length_app in Hd.
    destruct (IH (drop (length p) l)) as (c' & E & Hc & Hs); [rewrite length_drop; lia|].
    exists (blit p 0 (take (length p) l) :: c'). subst l. cbn [fill_chain]. rewrite E. split; [done|].
    set (l := x :: data) in *. assert (length (take (length p) l) <= length p)%nat by (rewrite length_take; lia). split.
    + cbn [concat]. rewrite Hc. unfold blit. rewrite !take_0. cbn [app Nat.add]. rewrite length_take, length_drop.
      rewrite drop_app, <- !app_assoc. destruct (Nat.le_gt_cases (length l) (length p)).
      * rewrite !(drop_ge l) by lia. rewrite take_ge by done. replace (length l - length p)%nat with 0%nat by lia.
        rewrite Nat.min_r by lia. by rewrite !drop_0.
      * rewrite Nat.min_l by lia. rewrite !(drop_ge p) by lia. cbn [app]. by rewrite (app_assoc (take _ _)), take_drop.
    + cbn. f_equal; [|done]. rewrite blit_length; [done|lia].
Qed.
Lemma pbuf_take_all c data len :
  0 <= len <= Z.of_nat (length data) -> tot_len c = len ->
  exists c', pbuf_take c data len = Some (ERR_OK, c') /\ concat c' = take (Z.to_nat len) data.
Proof.
  intros Hl Ht. unfold pbuf_take. rewrite (proj2 (Z.ltb_ge _ _)), bool_decide_true by lia. unfold tot_len in Ht.
  destruct (fill_chain_ok c (take (Z.to_nat len) data)) as (c' & E & Hc & _); [rewrite length_take; lia|].
  exists c'. rewrite E. split; [done|]. rewrite Hc. unfold blit. rewrite take_0, drop_ge, app_nil_r; [done|]. rewrite length_take. lia.
Qed.

(** ** lwIP's side *)

(** What a call into lwIP may do to the driver: it transmits, so that the
    receive side of the driver keeps its state. *)
Record rx_kept (h h' : bus * genet) : Prop := {
  rk_bus : later h.1 h'.1;
  rk_ts : s_rx_ts h'.2 = s_rx_ts h.2;
  rk_seen : s_rx_ts_seen h'.2 = s_rx_ts_seen h.2;
  rk_cons : s_rx_cons h'.2 = s_rx_cons h.2;
  rk_dbg : s_rx_dbg h'.2 = s_rx_dbg h.2;
  rk_drop : s_rx_drop h'.2 = s_rx_drop h.2;
  rk_cnt : (cnt_reads h.2 <= cnt_reads h'.2)%nat }.

(** The documented contract of the pbuf pool and of [netif->input]: [owned] are
    the pbufs the driver has to free, [offered] the frames input was called with,
    each with the receive stamp at that time. *)
Class StackLaws {LW} (ST : Stack LW) := {
  owned : LW -> gset Z;
  offered : LW -> list (Z * list Z);
  alloc_law n l : 0 <= n < 65536 -> wp (pbuf_alloc n) (fun p l' => offered l' = offered l /\
    (p = 0 /\ owned l' = owned l \/
     p <> 0 /\ (p ∉ owned l) /\ owned l' = {[p]} ∪ owned l /\ (exists c, pbuf_get l' p = Some c /\ tot_len c = n))) l;
  put_law p c l : is_Some (pbuf_get l p) -> pbuf_get (pbuf_put p c l) p = Some c /\
    owned (pbuf_put p c l) = owned l /\ offered (pbuf_put p c l) = offered l;
  free_law p l : p ∈ owned l -> wp (pbuf_free p) (fun _ l' => offered l' = offered l /\ owned l' = owned l ∖ {[p]}) l;
  input_law p c s : p ∈ owned (n_lw s) -> pbuf_get (n_lw s) p = Some c ->
    wp (netif_input p) (fun e s' => rx_kept (n_hw s) (n_hw s') /\
      offered (n_lw s') = offered (n_lw s) ++ [(s_rx_stamp s, concat c)] /\
      owned (n_lw s') = if e =? ERR_OK then owned (n_lw s) ∖ {[p]} else owned (n_lw s)) s }.

Section props.
Context {D : Device} {HW : GenetHw} (pmr : Z) {LW : Type} {ST : Stack LW} {SL : StackLaws ST}.
Implicit Types (b : bus) (g : genet) (s : nsys LW) (l : LW).

(** ** Transmission *)

(** Transmission through the interface: a packet of at most 1536 bytes, in
    however many pbufs, is queued on the controller as one frame with the bytes
    of the packet in order, and ERR_OK is returned; a longer one is refused with
    ERR_BUF and nothing is sent. *)
Theorem low_level_output_sends b g w gather l p c :
  tx_ready pmr b g -> length gather = 1536%nat -> pbuf_get l p = Some c ->
  if tot_len c <=? 1536 then
    exists b' g' gather', flint_low_level_output p (NSys (b, g) w gather l) = Some (ERR_OK, NSys (b', g') w gather' l) /\
      trace b' = trace b ++ tx_writes (s_tx_prod g) (tot_len c) /\ tx_holds (s_tx_buf g') (s_tx_prod g) (concat c) /\
      s_tx_ts g' = u64 (cntpct_at (cnt_reads g))
  else flint_low_level_output p (NSys (b, g) w gather l) = Some (ERR_BUF, NSys (b, g) w gather l).
Proof.
  intros Hr Hg Hp.
  assert (forall A (f : chain -> M (nsys LW) A), (get_opt (fun s => pbuf_get (n_lw s) p) ≫= f) (NSys (b, g) w gather l) = f c (NSys (b, g) w gather l)) as Hget
    by (intros A f; unfold get_opt, mbind, M_bind; cbn [n_lw]; by rewrite Hp).
  unfold flint_low_level_output, GENET_MAX_FRAME. destruct (Z.leb_spec (tot_len c) 1536) as [Hl|Hl]; setoid_rewrite Hget; setoid_rewrite gets_run; cbn [s_tx_gather].
  - rewrite (proj2 (Z.ltb_ge 1536 _)) by lia. assert (0 <= tot_len c) by (unfold tot_len; lia).
    assert (take (Z.to_nat (tot_len c)) (drop (Z.to_nat 0) (concat c)) = concat c) as Hx by (unfold tot_len; by rewrite Nat2Z.id, drop_0, firstn_all).
    erewrite opt_run by (apply pbuf_copy_partial_slice; unfold in_u; change (2 ^ 16) with 65536; rewrite ?Hx; unfold tot_len in *; lia).
    rewrite Hx. cbn [fst]. set (buf := blit gather 0 (concat c)).
    destruct (send_run pmr b g (concat c)) as (b' & g' & E & _ & T & _ & S & H' & _); [done|unfold tot_len in *; lia|].
    exists b', g', buf. split; [|done]. unfold mbind, M_bind, modify, onHw, zoom, set_gather. cbn [n_hw s_rx_stamp s_tx_gather n_lw].
    assert (genet_send buf (tot_len c) (b, g) = genet_send (concat c) (Z.of_nat (length (concat c))) (b, g)) as ->; [|by rewrite E].
    assert (take (length (concat c)) buf = concat c) as Hb by (unfold buf, blit; rewrite take_0, app_nil_l; apply take_app_length).
    unfold genet_send, tot_len. rewrite Nat2Z.id, Hb, firstn_all, !bool_decide_true; [done|lia|].
    unfold buf. rewrite blit_length; unfold tot_len in *; lia.
  - by rewrite (proj2 (Z.ltb_lt 1536 _)) by lia.
Qed.

(** ** Reception *)

(** The good frames among [m] descriptors from [cons] on. *)
Fixpoint goods (st : Z -> Z) (cons : Z) (m : nat) : list nat :=
  match m with
  | O => []
  | S m =>
      let status := st (cons mod RX_DESCS) in
      (if rx_bad status (rlen_of status) then [] else [0%nat]) ++ (S <$> goods st (cons + 1) m)
  end.
Lemma goods_first st cons m :
  match first_good st cons m with
  | Some k => goods st cons m = k :: (Nat.add (S k) <$> goods st (cons + Z.of_nat (S k)) (m - S k))
  | None => goods st cons m = []
  end.
Proof.
  revert cons. induction m as [|m IH]; intros cons; cbn [first_good goods]; [done|]. specialize (IH (cons + 1)).
  destruct (rx_bad _ _); cbn [app].
  - destruct (first_good st (cons + 1) m) as [k|]; cbn; rewrite IH; [|done]. cbn [fmap list_fmap]. f_equal. rewrite <- list_fmap_compose.
    replace (cons + 1 + Z.of_nat (S k)) with (cons + Z.of_nat (S (S k))) by lia. done.
  - cbn. f_equal. replace (m - 0)%nat with m by lia. replace (cons + Z.of_nat 1) with (cons + 1) by lia. done.
Qed.
Lemma goods_u32 st cons m : goods st (u32 cons) m = goods st cons m.
Proof.
  revert cons. induction m as [|m IH]; intros cons; cbn [goods]; [done|]. rewrite ring_u32. do 2 f_equal.
  rewrite <- (IH (u32 cons + 1)), u32_add. apply IH.
Qed.

(** The k-th frame from [cons] on, cut to the interface's buffer. *)
Definition frame_at (st : Z -> Z) (fr : Z -> list Z) (cons : Z) (k : nat) : list Z :=
  let i := (cons + Z.of_nat k) mod RX_DESCS in delivered GENET_MAX_FRAME (st i) (fr i).
(** Its stamp is the interrupt's if it had one, otherwise one of the readings of
    the counter from now up to the [hi]-th. *)
Definition stamp_ok g (hi d k : nat) (w : Z) : Prop :=
  if (k <? d)%nat then s_rx_ts g !! Z.to_nat ((s_rx_cons g + Z.of_nat k) mod RX_DESCS) = Some w
  else exists n, (cnt_reads g <= n < hi)%nat /\ w = u64 (cntpct_at n).

Lemma view_ok g (hi d k : nat) w : (d <= k -> cnt_reads g < hi)%nat -> stamp_view g d k = Some w -> stamp_ok g hi d k w.
Proof.
  intros Hh. unfold stamp_view, stamp_ok. destruct (Nat.ltb_spec k d); [done|]. intros [= <-]. exists (cnt_reads g). split; [lia|done].
Qed.
Lemma stamp_ok_kept h h' hi d k w : rx_kept h h' -> stamp_ok h'.2 hi d k w -> stamp_ok h.2 hi d k w.
Proof.
  intros []. unfold stamp_ok. rewrite rk_ts0, rk_cons0. case_match; [done|]. intros (n & ? & ->). exists n. split; [lia|done].
Qed.
Lemma stamp_ok_up g (hi hi' d k : nat) w : (hi <= hi')%nat -> stamp_ok g hi d k w -> stamp_ok g hi' d k w.
Proof. intros Hh. unfold stamp_ok. case_match; [done|]. intros (n & ? & ->). exists n. split; [lia|done]. Qed.
(** A stamp after some frames were taken is the stamp before. *)
Lemma stamp_ok_shift g g' (hi d d' k j : nat) w :
  s_rx_cons g' = u32 (s_rx_cons g + Z.of_nat (S k)) -> (cnt_reads g <= cnt_reads g' <= hi)%nat ->
  ((S k <= d /\ d' = d - S k) \/ (d - S k <= d' /\ cnt_reads g < cnt_reads g'))%nat ->
  stamp_view g' d' j = stamp_view g d (S k + j) -> stamp_ok g' hi d' j w -> stamp_ok g hi d (S k + j) w.
Proof.
  intros Hc Hn Hd Hv. unfold stamp_ok, stamp_view in *. destruct (Nat.ltb_spec j d'), (Nat.ltb_spec (S k + j) d); try lia.
  - by rewrite Hv.
  - rewrite Hv. intros [= <-]. exists (cnt_reads g). split; [lia|done].
  - intros (n & ? & ->). exists n. split; [lia|done].
Qed.

Lemma delivered_length len status frame :
  0 <= len <= 2046 -> length frame = 2048%nat -> 2 < rlen_of status -> Z.of_nat (length (delivered len status frame)) = Z.min (rlen_of status - RX_BUF_OFFSET) len.
Proof. intros Hl Hf Hr. unfold delivered, RX_BUF_OFFSET. rewrite length_slice, Hf. lia. Qed.
Lemma first_good_len st cons m k :
  first_good st cons m = Some k -> 2 < rlen_of (st ((cons + Z.of_nat k) mod RX_DESCS)).
Proof.
  revert cons k. induction m as [|m IH]; intros cons k; cbn [first_good]; [done|]. case_match eqn:E.
  - destruct (first_good st (cons + 1) m) as [j|] eqn:Ej; [|done]. intros [= <-]. apply IH in Ej.
    by replace (cons + Z.of_nat (S j)) with (cons + 1 + Z.of_nat j) by lia.
  - intros [= <-]. rewrite Z.add_0_r. unfold rx_bad in E. apply orb_false_iff in E as [_ E]. by apply Z.leb_gt in E.
Qed.

(** A frame is offered to lwIP with the stamp in place, unless lwIP has no pbuf
    for it at that moment, and the driver owns no more pbufs than before. *)
Lemma frame_in_run frame data len s :
  take (Z.to_nat len) frame = data -> Z.of_nat (length data) = len -> 0 <= len < 65536 ->
  wp (frame_in frame len) (fun _ s' => rx_kept (n_hw s) (n_hw s') /\ owned (n_lw s') = owned (n_lw s) /\
    exists p l1, pbuf_alloc len (n_lw s) = Some (p, l1) /\
      if p =? 0 then n_lw s' = l1 /\ offered l1 = offered (n_lw s)
      else offered (n_lw s') = offered (n_lw s) ++ [(s_rx_stamp s, data)]) s.
Proof.
  intros Hd Hlen Hr. unfold frame_in. apply wp_bind, wp_zoom. destruct (alloc_law len (n_lw s) Hr) as (p & l1 & E1 & Ho1 & H1).
  exists p, l1. split; [done|]. cbn beta. destruct H1 as [(-> & Hw)|(Hp & Hn & Hw & c & Hc & Ht)].
  { apply wp_ret. cbn. split; [by split|]. split; [done|]. by exists 0, l1. }
  pose proof (proj2 (Z.eqb_neq p 0) Hp) as Hp0. rewrite Hp0. cbn [negb]. apply wp_bind. eapply wp_get_opt; [exact Hc|].
  assert (length frame >= length data)%nat as Hfl by (rewrite <- Hd, length_take; lia).
  destruct (pbuf_take_all c frame len) as (c' & Et & Hcc); [lia|done|]. rewrite Et. apply wp_bind, wp_of_opt. cbn [snd].
  apply wp_bind, wp_zoom, wp_modify. cbn [n_lw n_hw s_rx_stamp s_tx_gather]. destruct (put_law p c' l1) as (Hg & Hw2 & Ho2); [by eexists|].
  apply wp_bind. eapply wp_mono; [apply (input_law p c'); cbn [n_lw]; [rewrite Hw2, Hw; set_solver|done]|].
  cbn beta. cbn [n_lw n_hw s_rx_stamp]. intros e s2 (Hk & Ho3 & Hw3). rewrite Hw2, Hw in Hw3. rewrite Ho2, Ho1, Hcc, Hd in Ho3.
  destruct (e =? ERR_OK); cbn [negb].
  - apply wp_ret. split; [done|]. split; [rewrite Hw3; set_solver|]. exists p, l1. by rewrite Hp0.
  - apply wp_zoom. eapply wp_mono; [apply (free_law p); rewrite Hw3; set_solver|]. cbn beta. intros _ l3 (Ho4 & Hw4). cbn.
    split; [done|]. split; [rewrite Hw4, Hw3; set_solver|]. exists p, l1. rewrite Hp0. split; [done|congruence].
Qed.

(** How lwIP goes through the frames [ks], from its state [l] to its state [l'],
    while [xs] is offered to it: in the very state it is in when a frame comes,
    pbuf_alloc has no pbuf for the frame, and the frame is lost, or it has one,
    and the frame is offered with a stamp that fits. *)
Inductive handled (F : nat -> list Z) (W : nat -> Z -> Prop) : list nat -> LW -> list (Z * list Z) -> LW -> Prop :=
| h_end l : handled F W [] l [] l
| h_lost k ks l l1 xs l' :
    pbuf_alloc (Z.of_nat (length (F k))) l = Some (0, l1) -> offered l1 = offered l ->
    handled F W ks l1 xs l' -> handled F W (k :: ks) l xs l'
| h_offered k ks p w l l1 l2 xs l' :
    pbuf_alloc (Z.of_nat (length (F k))) l = Some (p, l1) -> p <> 0 -> W k w -> offered l2 = offered l ++ [(w, F k)] ->
    handled F W ks l2 xs l' -> handled F W (k :: ks) l ((w, F k) :: xs) l'.

Lemma handled_offered F W ks l xs l' : handled F W ks l xs l' -> offered l' = offered l ++ xs.
Proof.
  induction 1 as [l|k ks l l1 xs l' _ Ho _ IH|k ks p w l l1 l2 xs l' _ _ _ Ho _ IH]; [by rewrite app_nil_r|congruence|].
  by rewrite IH, Ho, <- app_assoc.
Qed.
Lemma handled_map F W F' W' f ks l xs l' :
  (forall k, k ∈ ks -> F' k = F (f k) /\ forall w, W' k w -> W (f k) w) ->
  handled F' W' ks l xs l' -> handled F W (f <$> ks) l xs l'.
Proof.
  intros Hf H. revert Hf. induction H as [l|k ks l l1 xs l' Ha Ho _ IH|k ks p w l l1 l2 xs l' Ha Hp Hw Ho _ IH]; intros Hf; cbn [fmap list_fmap].
  - constructor.
  - destruct (Hf k) as [E _]; [left|]. rewrite E in Ha. econstructor; [done|done|]. apply IH. intros j Hj. apply Hf. by right.
  - destruct (Hf k) as [E HW']; [left|]. rewrite E in *. econstructor; [done|done|by apply HW'|done|]. apply IH. intros j Hj. apply Hf. by right.
Qed.
(** When every allocation finds a pbuf, every frame is offered. *)
Lemma handled_all F W ks l xs l' :
  (forall n l l1, pbuf_alloc n l <> Some (0, l1)) -> handled F W ks l xs l' -> Forall2 (fun k x => W k x.1 /\ x.2 = F k) ks xs.
Proof. intros Ha. induction 1; [constructor|by edestruct Ha|by constructor]. Qed.
Lemma rx_ready_kept h h' P d m : rx_kept h h' -> rx_ready pmr h.1 h.2 P d m -> rx_ready pmr h'.1 h'.2 P d m.
Proof.
  intros [Hb Ht Hs Hc Hd Hr _] (H1 & ?). split; [by eapply eth_bus_later|]. by rewrite Ht, Hs, Hc, Hd, Hr.
Qed.
(** The frames after the k-th was taken, seen from before. *)
Lemma handled_shift g g1 g2 b1 b2 (d d1 k n hi : nat) st fr ks l xs l' :
  s_rx_cons g1 = u32 (s_rx_cons g + Z.of_nat (S k)) -> (cnt_reads g <= cnt_reads g1 <= hi)%nat ->
  ((S k <= d /\ d1 = d - S k) \/ (d - S k <= d1 /\ cnt_reads g < cnt_reads g1))%nat ->
  (forall j, (j < n)%nat -> stamp_view g1 d1 j = stamp_view g d (S k + j)) -> rx_kept (b1, g1) (b2, g2) ->
  (forall j, j ∈ ks -> (j < n)%nat) -> handled (frame_at st fr (s_rx_cons g2)) (stamp_ok g2 hi d1) ks l xs l' ->
  handled (frame_at st fr (s_rx_cons g)) (stamp_ok g hi d) (Nat.add (S k) <$> ks) l xs l'.
Proof.
  intros Hc Hn Hd Hv Hk Hlt. apply handled_map. intros j Hj. pose proof (rk_cons _ _ Hk) as Hcc. cbn [snd] in Hcc. split.
  - unfold frame_at. cbn zeta. assert ((s_rx_cons g2 + Z.of_nat j) mod RX_DESCS = (s_rx_cons g + Z.of_nat (S k + j)) mod RX_DESCS) as ->; [|done].
    rewrite Hcc, Hc, <- ring_u32, u32_add, ring_u32. f_equal. lia.
  - intros w Hw. eapply (stamp_ok_shift g g1); [done..|by apply Hv, Hlt|]. by eapply (stamp_ok_kept (b1, g1) (b2, g2)).
Qed.
Lemma goods_lt st cons m k : k ∈ goods st cons m -> (k < m)%nat.
Proof.
  revert cons k. induction m as [|m IH]; intros cons k; cbn [goods]; [by intros ?%elem_of_nil|]. rewrite elem_of_app, list_elem_of_fmap.
  intros [H|(j & -> & Hj)]; [|apply IH in Hj; lia]. case_match; [by apply elem_of_nil in H|]. apply list_elem_of_singleton in H. lia.
Qed.

(** What a poll did with [m] complete descriptors, [d] of them stamped: [xs] was
    offered to lwIP. *)
Record polled s s' (P : Z) st fr (d m : nat) (xs : list (Z * list Z)) : Prop := {
  po_offered : offered (n_lw s') = offered (n_lw s) ++ xs;
  po_owned : owned (n_lw s') = owned (n_lw s);
  po_frames : handled (frame_at st fr (s_rx_cons (n_hw s).2)) (stamp_ok (n_hw s).2 (cnt_reads (n_hw s').2) d)
                (goods st (s_rx_cons (n_hw s).2) m) (n_lw s) xs (n_lw s');
  po_ring : s_rx_cons (n_hw s').2 = u32 (s_rx_cons (n_hw s).2 + Z.of_nat m);
  po_cnt : (cnt_reads (n_hw s).2 <= cnt_reads (n_hw s').2)%nat;
  po_ready : rx_ready pmr (n_hw s').1 (n_hw s').2 P 0 0 }.

(** The driver has taken the k-th frame, with the stamp [w1], and is in state
    [g1] with [d1] stamps left when lwIP is called. *)
Record taken b g b1 g1 (P : Z) (d d1 m k : nat) (w1 : Z) : Prop := {
  tk_cons : s_rx_cons g1 = u32 (s_rx_cons g + Z.of_nat (S k));
  tk_cnt : (cnt_reads g <= cnt_reads g1)%nat;
  tk_left : ((S k <= d /\ d1 = d - S k) \/ (d - S k <= d1 /\ cnt_reads g < cnt_reads g1))%nat;
  tk_view j : (j < m - S k)%nat -> stamp_view g1 d1 j = stamp_view g d (S k + j);
  tk_later : later b b1;
  tk_ready : rx_ready pmr b1 g1 P d1 (m - S k);
  tk_stamp : stamp_view g d k = Some w1 }.
Lemma taken_stamp b g b1 g1 P d d1 m k w1 : taken b g b1 g1 P d d1 m k w1 -> stamp_ok g (cnt_reads g1) d k w1.
Proof. intros [? ? Hl ? ? ? Hv]. apply view_ok; [lia|done]. Qed.

Lemma poll_recv fuel b g w gather l P st fr d m frame k (data := frame_at st fr (s_rx_cons g) k) :
  rx_hw b P st fr -> rx_ready pmr b g P d m -> length frame = 1536%nat -> bytes frame -> (m < S fuel)%nat ->
  first_good st (s_rx_cons g) m = Some k ->
  exists b1 g1 d1 w1 frame2, poll_loop (S fuel) frame (NSys (b, g) w gather l) =
      (frame_in frame2 (Z.of_nat (length data));; poll_loop fuel frame2) (NSys (b1, g1) w1 gather l) /\
    length frame2 = 1536%nat /\ bytes frame2 /\ take (length data) frame2 = data /\ (length data <= 1536)%nat /\ taken b g b1 g1 P d d1 m k w1.
Proof.
  intros Hw Hr Hfl Hfb Hf Ek.
  assert (rx_buffer frame GENET_MAX_FRAME) as Hbuf by (unfold rx_buffer, GENET_MAX_FRAME; split_and!; (done || lia)).
  pose proof (recv_run pmr (S fuel) b g P st fr d m frame GENET_MAX_FRAME (Some w) Hw Hr Hbuf Hf) as Hrecv. rewrite Ek in Hrecv.
  destruct Hrecv as (b1 & g1 & w1 & d1 & E & Hv & Hl & Hr1 & Hc1 & _ & [Hn1 Hd1] & Hcs1 & Hview). pose proof (first_good_len _ _ _ _ Ek) as Hrl.
  pose proof (Z.mod_pos_bound (s_rx_cons g + Z.of_nat k) RX_DESCS ltac:(done)) as Hi. change RX_DESCS with 256 in Hi at 2.
  destruct (hw_size _ _ _ _ Hw _ Hi) as [Hsz Hby]. unfold frame_at in data. set (i := (s_rx_cons g + Z.of_nat k) mod RX_DESCS) in *. cbn zeta in data.
  assert (Z.of_nat (length data) = Z.min (rlen_of (st i) - RX_BUF_OFFSET) GENET_MAX_FRAME) as Hdl by (apply delivered_length; unfold GENET_MAX_FRAME; (done || lia)).
  fold data in E. rewrite <- Hdl in E. unfold GENET_MAX_FRAME, RX_BUF_OFFSET in Hdl.
  exists b1, g1, d1, w1, (blit frame 0 data). split; [|split; [rewrite blit_length; lia|split; [|split; [|split; [lia|] ] ] ] ].
  - cbn [poll_loop]. erewrite bind_eq by done. cbn [s_rx_stamp].
    erewrite bind_eq by (unfold onHw, zoom; cbn [n_hw]; rewrite E; done).
    cbn [fmap option_fmap option_map negb]. by erewrite bind_eq by done.
  - apply bytes_blit; [done|]. unfold data, delivered. by apply Forall_take, Forall_drop.
  - unfold blit. rewrite take_0, app_nil_l. apply take_app_length.
  - constructor; try done. lia.
Qed.

(** A round that takes the k-th frame. *)
Record round_done s s2 b1 g1 (P : Z) st fr (d d1 m k : nat) (w1 : Z) : Prop := {
  rd_taken : taken (n_hw s).1 (n_hw s).2 b1 g1 P d d1 m k w1;
  rd_kept : rx_kept (b1, g1) (n_hw s2);
  rd_owned : owned (n_lw s2) = owned (n_lw s);
  rd_offered (F := frame_at st fr (s_rx_cons (n_hw s).2) k) : exists p l1, pbuf_alloc (Z.of_nat (length F)) (n_lw s) = Some (p, l1) /\
    if p =? 0 then n_lw s2 = l1 /\ offered l1 = offered (n_lw s) else offered (n_lw s2) = offered (n_lw s) ++ [(w1, F)] }.
Lemma poll_round fuel b g w gather l P st fr d m frame k (s := NSys (b, g) w gather l) :
  rx_hw b P st fr -> rx_ready pmr b g P d m -> length frame = 1536%nat -> bytes frame -> (m < S fuel)%nat ->
  first_good st (s_rx_cons g) m = Some k ->
  exists s2 b1 g1 d1 w1 frame2, poll_loop (S fuel) frame s = poll_loop fuel frame2 s2 /\ length frame2 = 1536%nat /\ bytes frame2 /\
    round_done s s2 b1 g1 P st fr d d1 m k w1.
Proof.
  intros Hw Hr Hfl Hfb Hf Ek. subst s.
  destruct (poll_recv fuel b g w gather l P st fr d m frame k) as (b1 & g1 & d1 & w1 & frame2 & E & Hl2 & Hb2 & Ht & Hlen & Htk); try done.
  set (data := frame_at _ _ _ _) in *.
  destruct (frame_in_run frame2 data (Z.of_nat (length data)) (NSys (b1, g1) w1 gather l)) as ([] & s2 & Efi & Hk & How & Hoff); [by rewrite Nat2Z.id|done|lia|].
  exists s2, b1, g1, d1, w1, frame2. split; [by rewrite E; erewrite bind_eq by exact Efi|]. split; [done|]. split; [done|]. by constructor.
Qed.

Lemma poll_run m fuel b g w gather l P st fr d frame :
  rx_hw b P st fr -> rx_ready pmr b g P d m -> length frame = 1536%nat -> bytes frame -> (m < fuel)%nat ->
  exists s' xs, poll_loop fuel frame (NSys (b, g) w gather l) = Some (tt, s') /\ polled (NSys (b, g) w gather l) s' P st fr d m xs.
Proof.
  revert fuel b g w gather l d frame. induction m as [m IH] using lt_wf_ind. intros [|fuel] b g w gather l d frame Hw Hr Hfl Hfb Hf; [lia|].
  pose proof (goods_first st (s_rx_cons g) m) as Hgoods. destruct (first_good st (s_rx_cons g) m) as [k|] eqn:Ek.
  - destruct (poll_round fuel b g w gather l P st fr d m frame k) as ([ [b2 g2] w2 gather2 l2] & b1 & g1 & d1 & w1 & frame2 & -> & Hfl2 & Hfb2 & [Htk Hkp How Hoff]); try done.
    pose proof (first_good_lt _ _ _ _ Ek) as Hkm. cbn [n_hw n_lw fst snd] in *. pose proof (rk_cons _ _ Hkp) as Hc2.
    pose proof (rk_cnt _ _ Hkp) as Hn2. cbn [snd] in Hc2, Hn2. pose proof (taken_stamp _ _ _ _ _ _ _ _ _ _ Htk) as Hst.
    destruct Htk as [Hc1 Hn1 Hd1 Hv1 Hl1 Hr1 _]. assert (later b b2) as Hl2 by (etrans; [exact Hl1|exact (rk_bus _ _ Hkp)]).
    assert (rx_ready pmr b2 g2 P d1 (m - S k)) as Hr2 by exact (rx_ready_kept (b1, g1) (b2, g2) _ _ _ Hkp Hr1).
    destruct (IH (m - S k)%nat ltac:(lia) fuel b2 g2 w2 gather2 l2 d1 frame2) as (s' & xs & -> & [R1 R2 R3 R4 R5 R6]);
      [by eapply rx_hw_later|done..|lia|]. cbn [n_hw n_lw snd] in *.
    assert (handled (frame_at st fr (s_rx_cons g)) (stamp_ok g (cnt_reads (n_hw s').2) d)
      (Nat.add (S k) <$> goods st (s_rx_cons g + Z.of_nat (S k)) (m - S k)) l2 xs (n_lw s')) as Hh.
    { eapply (handled_shift g g1 g2 b1 b2 d d1 k (m - S k)); try done; [lia|intros j; apply goods_lt|].
      by rewrite Hc2, Hc1, goods_u32, <- Hc1, <- Hc2 in R3. }
    assert (s_rx_cons (n_hw s').2 = u32 (s_rx_cons g + Z.of_nat m)) as Hring
      by (rewrite R4, Hc2, Hc1, u32_add; f_equal; lia).
    destruct Hoff as (p & l1 & Ha & Hp).
    exists s'. destruct (Z.eqb_spec p 0) as [->|Hne]; [destruct Hp as [-> Ho]; exists xs|exists ((w1, frame_at st fr (s_rx_cons g) k) :: xs)];
      (split; [done|]); constructor; cbn [n_lw n_hw snd]; try done; try lia; try congruence.
    + rewrite Hgoods. by eapply h_lost.
    + by rewrite R1, Hp, <- app_assoc.
    + rewrite Hgoods. eapply h_offered; [exact Ha|done|eapply stamp_ok_up; [|exact Hst]; lia|exact Hp|exact Hh].
  - assert (rx_buffer frame GENET_MAX_FRAME) as Hbuf by (unfold rx_buffer, GENET_MAX_FRAME; split_and!; (done || lia)).
    pose proof (recv_run pmr (S fuel) b g P st fr d m frame GENET_MAX_FRAME (Some w) Hw Hr Hbuf Hf) as Hrecv. rewrite Ek in Hrecv.
    destruct Hrecv as (b1 & g1 & ts1 & E & Hl & Hr1 & Hc1 & _ & Hn1). exists (NSys (b1, g1) (default w ts1) gather l), []. split.
    { cbn [poll_loop]. erewrite bind_eq by done. cbn [s_rx_stamp]. erewrite bind_eq by (unfold onHw, zoom; cbn [n_hw]; rewrite E; done). by destruct ts1. }
    constructor; cbn [n_lw n_hw snd]; try done; [by rewrite app_nil_r|]. rewrite Hgoods. constructor.
Qed.

(** C33: Polling the interface drains the receive ring.  With [m] complete
    descriptors and no frame arriving while the poll runs, the good frames are
    taken in the order of the ring.  A frame is lost when, and only when,
    pbuf_alloc for its length returns NULL in the state lwIP is in at that
    frame; every other frame is offered to lwIP with its bytes and, while input
    runs, its receive stamp: the one the interrupt took, or, if it had none, a
    reading of the counter made between the start and the end of the poll.
    Nothing else is offered.  The driver keeps no pbuf: those lwIP refuses are
    freed.  At the end the ring is empty. *)
Theorem netif_poll_drains fuel b g w gather l P st fr d m frame (s := NSys (b, g) w gather l) :
  rx_hw b P st fr -> rx_ready pmr b g P d m -> length frame = 1536%nat -> bytes frame -> (m < fuel)%nat ->
  exists s' xs, flint_netif_poll fuel frame s = Some (tt, s') /\ polled s s' P st fr d m xs.
Proof. apply poll_run. Qed.
End props.

(** ** Initialisation *)

Section start.
Context {LS HS : Type} `{!ListOps item lst LS} `{!HeapOps HS} {D : Device} {HW : GenetHw}.
Context (pmr s_mbox genet_isr_addr etharp_output ethip6_output low_level_output : Z).
Implicit Types p : port LS HS genet.

Definition with_bus (b : bus) p : port LS HS genet :=
  Port (p_kernel p) b (p_driver p) (xIrqTable p) (uxIrqSlots p) (ullTimerReloadTicks p) (ulFirstIrq p) (cntp_tval_el0 p) (cntp_ctl_el0 p).
Lemma boot_ready_bus p b : regs b = regs (p_bus p) -> boot_ready pmr p -> boot_ready pmr (with_bus b p).
Proof.
  intros R [ [H1 H2] Hg]. constructor; try done; cbn [with_bus p_bus].
  - unfold eth_bus, console. by rewrite R.
  - unfold gicd_free. by rewrite R.
Qed.
Lemma k_mac_unicast : unicast_mac k_mac.
Proof. split; [done|]. split; [by repeat constructor|]. split; [done|]. split; [done|]. by exists 2. Qed.

(** C34: Start of the interface: whatever the GPU and the Ethernet controller
    answer, flint_netif_init returns ERR_OK within bounded waits.  The hardware
    address is the one mbox_get_mac got from the firmware, or the built-in
    fallback 02:00:5E:00:00:01 when it got none; with a firmware that answers
    the property request (at either bus address of the buffer) it is the six
    bytes of the answer, or the fallback when those are all zero, all ones or a
    group address.  It is unicast in every case, and is the one written to the
    controller's address registers; the transmit side is ready for frames and
    the receive interrupt is installed. *)
Theorem netif_init_up p :
  genet_isr_addr <> 0 -> boot_ready pmr p -> mbox_free s_mbox (p_bus p) ->
  exists n p' m0 m1 m2 m3 m4 m5 b0, flint_netif_init s_mbox genet_isr_addr etharp_output ethip6_output low_level_output p = Some ((n, ERR_OK), p') /\
    (exists fw b1, mbox_get_mac s_mbox (p_bus p) = Some (fw, b1) /\
       hwaddr n = if fw is Some mac then mac else [0x02; 0x00; 0x5E; 0x00; 0x00; 0x01]) /\
    (forall alias gpu (w := gpu [32; 0; TAG_GET_MAC; 8; 0; 0; 0; 0]),
       firmware s_mbox alias gpu D -> mbox_placed s_mbox -> alias = s_mbox + 0xC0000000 \/ alias = s_mbox -> in_u 32 w.1 -> in_u 32 w.2 ->
       hwaddr n = if mac_rejected (mac_of w) then [0x02; 0x00; 0x5E; 0x00; 0x00; 0x01] else mac_of w) /\
    hwaddr n = [m0; m1; m2; m3; m4; m5] /\ unicast_mac (hwaddr n) /\ mtu n = 1500 /\ linkoutput n = low_level_output /\ flags n = 0x3F /\
    (trace b0 ++ mac_writes m0 m1 m2 m3 m4 m5) `prefix_of` trace (p_bus p') /\ tx_ready pmr (p_bus p') (p_driver p') /\
    first_slot (xIrqTable p') (Z.to_nat (uxIrqSlots p')) GENET_IRQ0_INTID (Z.to_nat (uxIrqSlots p)) (IrqSlot GENET_IRQ0_INTID genet_isr_addr 0).
Proof.
  intros Hisr Hbr Hm. destruct (mbox_get_mac_regs s_mbox (p_bus p) Hm) as (fw & b1 & E1 & R1 & Hfw).
  set (mac := match fw with Some mac => mac | None => k_mac end).
  assert (unicast_mac mac) as Hu by (destruct fw; [by apply Hfw|apply k_mac_unicast]).
  pose proof Hu as (Hl & Hby & _). destruct mac as [|m0 [|m1 [|m2 [|m3 [|m4 [|m5 [|] ] ] ] ] ] ] eqn:Emac; try done.
  pose proof (boot_ready_bus p b1 R1 Hbr) as Hbr1. unfold bytes in Hby; rewrite !Forall_cons in Hby.
  set (ap := [UaUint m0; UaUint m1; UaUint m2; UaUint m3; UaUint m4; UaUint m5;
     UaStr (if fw is Some _ then lit "board MAC from firmware" else lit "fallback - mailbox did not answer")]).
  assert (Forall uart_arg_ok ap) as Hap.
  { unfold ap. rewrite !Forall_cons, Forall_nil. unfold uart_arg_ok, is_byte, in_u in *. change (2 ^ 8) with 256 in Hby. change (2 ^ 32) with 4294967296.
    split_and!; try lia; destruct fw; compute_done. }
  edestruct (emits_printf pmr (chars "[netif] MAC %x:%x:%x:%x:%x:%x (%s)" ++ [10]) [] ap) as (b2 & w & E2 & R2 & _);
    [compute_done|exact Hap|reflexivity|exact (proj1 (br_eth _ _ Hbr1))|]. cbn [with_bus p_bus] in R2.
  destruct (genet_init_run pmr genet_isr_addr (with_bus b2 p) m0 m1 m2 m3 m4 m5) as (p' & E3 & [Htx _ Hsl Hmac _]);
    [done|apply boot_ready_bus; [congruence|done]|]. destruct (Hmac _ _ _ _ _ _ eq_refl) as [b0 Hb0].
  eexists _, p', m0, m1, m2, m3, m4, m5, b0. split.
  - unfold flint_netif_init. rewrite (port_onB _ _ _ _ _ E1). change (match fw with Some mac0 => mac0 | None => k_mac end) with mac.
    rewrite Emac. do 6 (erewrite opt_run by reflexivity). erewrite port_onB by exact E2. port_cbn. rewrite (bind_eq _ _ _ _ _ E3). reflexivity.
  - split; [by exists fw, b1|]. split; [|split_and!; done]. intros alias gpu w0 HF Hpl Hal Hw1 Hw2. cbn [hwaddr].
    destruct (mbox_get_mac_answer s_mbox alias gpu HF Hpl Hal (p_bus p) Hm Hw1 Hw2) as [b3 E4].
    rewrite E1 in E4. injection E4 as E4 _. fold w0 in E4. rewrite <- Emac. unfold mac. rewrite E4. by destruct (mac_rejected _).
Qed.
End start.

(** ** A stack that logs what it is offered *)

Record demo_lw := DemoLw { dl_bufs : gmap Z chain; dl_log : list (Z * list Z) }.
Definition dl_fresh (l : demo_lw) : Z := fresh ({[0]} ∪ dom (dl_bufs l)).
Definition demo_input (p : Z) (s : nsys demo_lw) : option (Z * nsys demo_lw) :=
  match dl_bufs (n_lw s) !! p with
  | Some c => Some (ERR_OK, NSys (n_hw s) (s_rx_stamp s) (s_tx_gather s)
      (DemoLw (delete p (dl_bufs (n_lw s))) (dl_log (n_lw s) ++ [(s_rx_stamp s, concat c)])))
  | None => None
  end.
#[local] Instance demo_stack : Stack demo_lw := {|
  pbuf_alloc n l := Some (dl_fresh l, DemoLw (<[dl_fresh l := [replicate (Z.to_nat n) 0]]> (dl_bufs l)) (dl_log l));
  pbuf_get l p := dl_bufs l !! p;
  pbuf_put p c l := DemoLw (<[p := c]> (dl_bufs l)) (dl_log l);
  pbuf_free p l := Some (tt, DemoLw (delete p (dl_bufs l)) (dl_log l));
  netif_input := demo_input |}.
Lemma dl_fresh_ok l : dl_fresh l <> 0 /\ dl_fresh l ∉ dom (dl_bufs l).
Proof. pose proof (is_fresh ({[0]} ∪ dom (dl_bufs l))) as H. fold (dl_fresh l) in H. split; [intros E; rewrite E in H|]; set_solver. Qed.
#[local] Instance demo_laws : StackLaws demo_stack.
Proof.
  refine {| owned l := dom (dl_bufs l); offered := dl_log |}.
  - intros n l Hn. destruct (dl_fresh_ok l). eexists _, _. split; [done|]. split; [done|]. right. split; [done|]. split; [done|].
    cbn. split; [apply dom_insert_L|]. exists [replicate (Z.to_nat n) 0]. rewrite lookup_insert_eq. split; [done|].
    unfold tot_len. cbn. rewrite app_nil_r, length_replicate. lia.
  - intros p c l Hp. cbn. rewrite lookup_insert_eq. split; [done|]. split; [|done]. by apply dom_insert_lookup_L.
  - intros p l Hp. eexists _, _. split; [done|]. split; [done|]. cbn. apply dom_delete_L.
  - intros p c s Hp Hc. change (wp (demo_input p) (fun e s' => rx_kept (n_hw s) (n_hw s') /\ dl_log (n_lw s') = dl_log (n_lw s) ++ [(s_rx_stamp s, concat c)] /\
      dom (dl_bufs (n_lw s')) = if e =? ERR_OK then dom (dl_bufs (n_lw s)) ∖ {[p]} else dom (dl_bufs (n_lw s))) s).
    unfold wp, demo_input. destruct (dl_bufs (n_lw s) !! p) as [c'|] eqn:E; [|by assert (None = Some c) by exact (eq_trans (eq_sym E) Hc)].
    assert (Some c' = Some c) as [= ->] by exact (eq_trans (eq_sym E) Hc). eexists _, _. split; [done|]. split; [by split|]. split; [done|]. apply dom_delete_L.
Defined.

Definition demo_netif : nsys demo_lw := NSys (demo_nic_bus, demo_genet) 0 (replicate 1536 0) (DemoLw {[5 := [[1; 2]; [3]]]} []).
Lemma low_level_output_sends_witness :
  exists s', flint_low_level_output (HW := demo_dma) 5 demo_netif = Some (ERR_OK, s') /\ tx_holds (s_tx_buf (n_hw s').2) 0 [1; 2; 3].
Proof.
  destruct (low_level_output_sends (HW := demo_dma) 240 demo_nic_bus demo_genet 0 (replicate 1536 0) (DemoLw {[5 := [[1; 2]; [3]]]} []) 5 [[1; 2]; [3]])
    as (b' & g' & gather & E & _ & H & _); [|done|done|].
  - split; [exact demo_eth|]. split; [done|]. split; [by apply Forall_replicate|done].
  - exists (NSys (b', g') 0 gather (DemoLw {[5 := [[1; 2]; [3]]]} [])). split; [exact E|exact H].
Defined.
Lemma netif_poll_drains_witness :
  exists s' w, flint_netif_poll (D := demo_nic) (HW := demo_dma) 257 (replicate 1536 0) demo_netif = Some (tt, s') /\
    dl_log (n_lw s') = [(w, replicate 64 7)] /\ dom (dl_bufs (n_lw s')) = ({[5]} : gset Z).
Proof.
  destruct (netif_poll_drains (D := demo_nic) (HW := demo_dma) 240 257 demo_nic_bus demo_genet 0 (replicate 1536 0) (DemoLw {[5 := [[1; 2]; [3]]]} []) 2
    demo_status (fun _ => replicate 2048 7) 0 2 (replicate 1536 0)) as (s' & xs & E & [H1 H2 H3 _ _ _]);
    [exact demo_rx_hw|exact demo_rx_ready|done|by apply Forall_replicate|lia|].
  apply handled_all in H3.
  2:{ intros n l l' Hn. assert (dl_fresh l = 0) as Hf by exact (f_equal (fun o => match o with Some x => x.1 | None => 0 end) Hn).
      exact (proj1 (dl_fresh_ok l) Hf). }
  change (goods demo_status _ 2) with [1%nat] in H3.
  apply Forall2_cons_inv_l in H3 as ([w x] & xs' & [_ Hx] & H4 & ->). apply Forall2_nil_inv_l in H4 as ->.
  cbn [snd] in Hx. subst x. exists s', w. split; [exact E|]. split; [exact H1|]. etrans; [exact H2|]. vm_compute. reflexivity.
Defined.

Definition demo_boot_port : port (lmem item lst) heap genet :=
  Port demo demo_nic_bus demo_genet (replicate 4 (IrqSlot 0 0 0)) 1 54000 1 0 0.
Lemma demo_boot_ready : boot_ready 240 demo_boot_port.
Proof.
  constructor; cbn [demo_boot_port p_bus p_driver p_kernel xIrqTable uxIrqSlots].
  - exact demo_eth.
  - intros a Ha. cbn [demo_nic_bus regs]. rewrite lookup_singleton_ne; [done|]. unfold GICC_PMR_REG, GICD_BASE in *. lia.
  - split; [done|]. change (0 <= 1 <= 4). lia.
  - unfold PORT_MAX_IRQS. lia.
  - intros [|k] sl Hk; [|cbn in Hk; lia]. intros [= <-]. done.
  - vm_compute. split; [intros H; discriminate H|reflexivity].
  - split_and!; [done..|by apply Forall_replicate|done].
  - done.
  - done.
Qed.
Lemma netif_init_up_witness :
  exists n p', flint_netif_init (D := demo_device) (HW := demo_dma) demo_mbox 0x90000 1 2 3 demo_boot_port = Some ((n, ERR_OK), p') /\
    hwaddr n = [0xDC; 0xA6; 0x32; 0x00; 0x01; 0x55] /\ unicast_mac (hwaddr n).
Proof.
  destruct (netif_init_up (D := demo_device) (HW := demo_dma) 240 demo_mbox 0x90000 1 2 3 demo_boot_port)
    as (n & p' & m0 & m1 & m2 & m3 & m4 & m5 & b0 & E & _ & Hfw & _ & Hu & _); [done|exact demo_boot_ready| |].
  - split; [done|]. split; [done|]. split; [done|]. intros i Hi. cbn [demo_boot_port demo_nic_bus p_bus regs]. rewrite lookup_singleton_ne; [done|]. unfold GICC_PMR_REG, demo_mbox. lia.
  - exists n, p'. split; [exact E|]. split; [|exact Hu]. clear E. specialize (Hfw demo_mbox demo_gpu demo_firmware). rewrite Hfw; [vm_compute; reflexivity|done|by right|done..].
Defined.
