(* ===== verification/SysArch.v ===== *)
(** * The operating-system layer of lwIP (src/port/lwip/sys_arch.c)

    lwIP's semaphores, mutexes, mailboxes, threads, protection and random
    numbers over the kernel.  [sys_sem_t], [sys_mutex_t] and [sys_mbox_t] are
    their only field, the queue handle; a call that stores one returns it.  A
    blocking call is a machine whose steps are the steps of the kernel call, so
    that other tasks run in between; the address of a local variable that is
    passed to the kernel, [slot], is a parameter. *)

From S2P Require Import Prelude Config Lists ListSpec ListRefine Alloc Tasks Libc Queue.

Definition ERR_OK : Z := 0.
Definition ERR_MEM : Z := -1.
Definition SYS_ARCH_TIMEOUT : Z := 0xFFFFFFFF.
Definition SYS_MBOX_EMPTY : Z := SYS_ARCH_TIMEOUT.
(** The interrupt mask bit of DAIF. *)
Definition DAIF_I : Z := 0x80.

(** ** Random numbers *)

Definition xorshift (x : Z) : Z :=
  let x := Z.lxor x (u32 (Z.shiftl x 13)) in
  let x := Z.lxor x (Z.shiftr x 17) in
  Z.lxor x (u32 (Z.shiftl x 5)).
(** The result and [s_rng] afterwards. *)
Definition lwip_port_rand (s_rng : Z) : Z * Z := let x := xorshift s_rng in (x, x).
Definition s_rng_init : Z := 0x2545F491.
(** The C library's generator (lwip_libc.c), on the same state. *)
Definition rand (s_rng : Z) : Z * Z := let r := lwip_port_rand s_rng in (i32 (Z.land r.1 0x7FFFFFFF), r.2).
Definition srand (seed s_rng : Z) : Z := s_rng.

(** ** Pointers in memory *)

Definition le64 (v : Z) : list Z := (fun i => u8 (Z.shiftr v (8 * Z.of_nat i))) <$> seq 0 8.
Definition from_le (b : list Z) : Z := foldr (fun x r => x + 256 * r) 0 b.

(** Where a wait has got to: before it looked at the clock, in the kernel call,
    or returned; [A] is what it hands over. *)
Inductive wait_pc (A : Type) := WStart | WRun (start : Z) (ph : phase) | WDone (r : A).
Arguments WStart {A}.
Arguments WRun {A}.
Arguments WDone {A}.

Section sys_arch.
Context {LS HS : Type} `{!ListOps item lst LS} `{!HeapOps HS}.
Context (sym : symbols).
Abbreviation Q := (M (qsys LS HS)).

Definition sys_now : Q Z := t ← onK xTaskGetTickCount; mret (u32 t).

(** The other bits of DAIF are in [rest]. *)
Definition sys_arch_protect (rest : Z) : Q Z :=
  m ← gets (fun s => irq_masked (q_kernel s));
  onK (modify (fun k => set_critical (uxCriticalNesting k) true k));;
  mret (u32 (Z.lor rest (if (m : bool) then DAIF_I else 0))).
Definition sys_arch_unprotect (pval : Z) : Q unit :=
  onK (modify (fun k => set_critical (uxCriticalNesting k) (negb (Z.land pval DAIF_I =? 0)) k)).

(** ** Semaphores *)

(** The field [q] and the result. *)
Definition sys_sem_new (count : Z) : Q (Z * Z) :=
  q ← xSemaphoreCreateCounting 0xFFFF count;
  mret (q, if negb (q =? 0) then ERR_OK else ERR_MEM).
Definition sys_sem_free (q : Z) : Q Z :=
  if negb (q =? 0) then vSemaphoreDelete q;; mret 0 else mret q.
Definition sys_sem_signal (q sp : Z) (pc : phase) : Q phase := xSemaphoreGive q sp pc.
Definition sys_sem_valid (q : Z) : bool := negb (q =? 0).

(** The ticks of a timeout in milliseconds; 0 waits for ever. *)
Definition wait_ticks (timeout_ms : Z) : Z := if timeout_ms =? 0 then portMAX_DELAY else timeout_ms.
Definition sys_arch_sem_wait (q timeout_ms sp : Z) (pc : wait_pc Z) : Q (wait_pc Z) :=
  match pc with
  | WStart => start ← sys_now; mret (WRun start PTry)
  | WRun start (PDone r) =>
      if r =? pdTRUE then now ← sys_now; mret (WDone (u32 (now - start))) else mret (WDone SYS_ARCH_TIMEOUT)
  | WRun start ph => ph ← xSemaphoreTake q (wait_ticks timeout_ms) sp ph; mret (WRun start ph)
  | WDone r => mret (WDone r)
  end.

(** ** Mutexes *)

Definition sys_mutex_new (sp : Z) : Q (Z * Z) :=
  q ← xSemaphoreCreateMutex sp; mret (q, if negb (q =? 0) then ERR_OK else ERR_MEM).
Definition sys_mutex_free (q : Z) : Q Z :=
  if negb (q =? 0) then vSemaphoreDelete q;; mret 0 else mret q.
Definition sys_mutex_lock (q sp : Z) (pc : phase) : Q phase := xSemaphoreTake q portMAX_DELAY sp pc.
Definition sys_mutex_unlock (q sp : Z) (pc : phase) : Q phase := xSemaphoreGive q sp pc.
Definition sys_mutex_valid (q : Z) : bool := negb (q =? 0).

(** ** Mailboxes *)

Definition st64 (a v : Z) : Q unit := onB (modify (write_bytes a (le64 v))).
Definition ld64 (a : Z) : Q Z :=
  b ← get_opt (fun s => mapM (fun i => q_mem s !! (a + Z.of_nat i)) (seq 0 8)); mret (from_le b).

Definition sys_mbox_new (size : Z) : Q (Z * Z) :=
  q ← xQueueCreate (u64 size) 8; mret (q, if negb (q =? 0) then ERR_OK else ERR_MEM).
Definition sys_mbox_free (q : Z) : Q Z :=
  if negb (q =? 0) then vQueueDelete q;; mret 0 else mret q.
Definition sys_mbox_post (q slot msg sp : Z) (pc : phase) : Q phase :=
  (if decide (pc = PTry) then st64 slot msg else mret tt);;
  xQueueSendToBack q slot portMAX_DELAY sp pc.
Definition sys_mbox_trypost (q slot msg sp : Z) : Q Z :=
  st64 slot msg;;
  ph ← no_wait (xQueueSendToBack q slot 0 sp);
  mret (if decide (ph = PDone pdPASS) then ERR_OK else ERR_MEM).
Definition sys_mbox_trypost_fromisr (q slot msg sp : Z) : Q Z := sys_mbox_trypost q slot msg sp.
Definition sys_mbox_valid (q : Z) : bool := negb (q =? 0).

(** The value stored in [*msg], and the result; [rx] lives at [slot]. *)
Definition sys_arch_mbox_fetch (q slot timeout_ms sp : Z) (pc : wait_pc (Z * Z)) : Q (wait_pc (Z * Z)) :=
  match pc with
  | WStart => start ← sys_now; st64 slot 0;; mret (WRun start PTry)
  | WRun start (PDone r) =>
      if r =? pdPASS then rx ← ld64 slot; now ← sys_now; mret (WDone (rx, u32 (now - start)))
      else mret (WDone (0, SYS_ARCH_TIMEOUT))
  | WRun start ph => ph ← xQueueReceive q slot (wait_ticks timeout_ms) sp ph; mret (WRun start ph)
  | WDone r => mret (WDone r)
  end.
(** The value stored in [*msg], if any, and the result. *)
Definition sys_arch_mbox_tryfetch (q slot sp : Z) : Q (option Z * Z) :=
  st64 slot 0;;
  ph ← no_wait (xQueueReceive q slot 0 sp);
  if decide (ph = PDone pdPASS) then rx ← ld64 slot; mret (Some rx, 0) else mret (None, SYS_MBOX_EMPTY).

(** ** Threads *)

Definition sys_thread_new (name : option (list Z)) (thread arg stacksize prio : Z) : Q Z :=
  r ← onK (xTaskCreate sym thread name (u32 (if 0 <? stacksize then stacksize else configMINIMAL_STACK_SIZE)) arg (u64 prio));
  mret (match r.2 with Some h => h | None => 0 end).
End sys_arch.

(** The field after a handle was marked invalid. *)
Definition sys_sem_set_invalid (q : Z) : Z := 0.
Definition sys_mutex_set_invalid (q : Z) : Z := 0.
Definition sys_mbox_set_invalid (q : Z) : Z := 0.
