(* ===== verification/SysArchProps.v ===== *)
(** * lwIP's primitives on the kernel

    The random generator is a permutation, a mailbox is a bounded FIFO of
    pointers, and the wrappers that drop the kernel's result can return without
    having done their work. *)

From S2P Require Import Prelude Config CInt Lists ListSpec ListRefine Heap4 Alloc Heap4Props Tasks TasksInv TasksSpec TasksCreate TasksSafe TasksFrame TasksDemo TasksProps TasksWitness Libc Queue QueueSpec QueueSafe QueueProps QueueWitness SysArch.

(** ** Random numbers *)

(** Equal results of [x ^ (x << a)] at 32 bits come from equal words: the bits
    agree from the lowest up. *)
Lemma xor_shl_inj a x y :
  0 < a -> in_u 32 x -> in_u 32 y -> Z.lxor x (u32 (Z.shiftl x a)) = Z.lxor y (u32 (Z.shiftl y a)) -> x = y.
Proof.
  intros Ha Hx Hy E. assert (forall n, 0 <= n -> forall i, 0 <= i < n -> Z.testbit x i = Z.testbit y i) as H.
  { apply (natlike_ind (fun n => forall i, 0 <= i < n -> Z.testbit x i = Z.testbit y i)); [lia|]. intros n Hn IH i Hi.
    destruct (Z.le_gt_cases 32 i); [by rewrite !(testbit_high 32) by (done || lia)|].
    pose proof (f_equal (fun z => Z.testbit z i) E) as Ei. cbn beta in Ei. rewrite !Z.lxor_spec in Ei.
    assert (forall z, Z.testbit (u32 (Z.shiftl z a)) i = Z.testbit z (i - a)) as Hs.
    { intros z. rewrite testbit_wrapu, Z.shiftl_spec by lia. by rewrite (proj2 (Z.ltb_lt i 32)) by lia. }
    rewrite !Hs in Ei. assert (Z.testbit x (i - a) = Z.testbit y (i - a)) as Hd.
    { destruct (Z.lt_ge_cases (i - a) 0); [by rewrite !Z.testbit_neg_r by lia|]. apply IH. lia. }
    rewrite Hd in Ei. by destruct (Z.testbit x i), (Z.testbit y i), (Z.testbit y (i - a)). }
  apply Z.bits_inj'. intros i Hi. apply (H (i + 1)); lia.
Qed.
(** ... and those of [x ^ (x >> a)] from the highest down. *)
Lemma xor_shr_inj a x y :
  0 < a -> in_u 32 x -> in_u 32 y -> Z.lxor x (Z.shiftr x a) = Z.lxor y (Z.shiftr y a) -> x = y.
Proof.
  intros Ha Hx Hy E. assert (forall n, 0 <= n -> forall i, 0 <= i -> 32 - n <= i -> Z.testbit x i = Z.testbit y i) as H.
  { apply (natlike_ind (fun n => forall i, 0 <= i -> 32 - n <= i -> Z.testbit x i = Z.testbit y i)).
    - intros i Hi H32. by rewrite !(testbit_high 32) by (done || lia).
    - intros n Hn IH i Hi H32. pose proof (f_equal (fun z => Z.testbit z i) E) as Ei. cbn beta in Ei.
      rewrite !Z.lxor_spec, !Z.shiftr_spec in Ei by lia. rewrite (IH (i + a)) in Ei by lia.
      by destruct (Z.testbit x i), (Z.testbit y i), (Z.testbit y (i + a)). }
  apply Z.bits_inj'. intros i Hi. apply (H 32); lia.
Qed.
Lemma in_u_lxor w x y : 0 <= w -> in_u w x -> in_u w y -> in_u w (Z.lxor x y).
Proof.
  intros Hw Hx Hy. apply in_u_testbit; [done|apply Z.lxor_nonneg; unfold in_u in *; lia|]. intros i Hi.
  by rewrite Z.lxor_spec, !(testbit_high w) by (done || lia).
Qed.

Lemma xor_shl_range a x : in_u 32 x -> in_u 32 (Z.lxor x (u32 (Z.shiftl x a))).
Proof. intros. apply in_u_lxor; [done|done|by apply wrapu_range]. Qed.
Lemma xor_shr_range x : in_u 32 x -> in_u 32 (Z.lxor x (Z.shiftr x 17)).
Proof.
  intros Hz. apply in_u_lxor; [done|done|]. unfold in_u in *. rewrite Z.shiftr_div_pow2 by done.
  split; [apply Z.div_pos; lia|]. apply Z.div_lt_upper_bound; [done|]. change (2 ^ 17) with 131072. lia.
Qed.
Lemma xorshift_range x : in_u 32 x -> in_u 32 (xorshift x).
Proof. intros Hx. by apply xor_shl_range, xor_shr_range, xor_shl_range. Qed.
Lemma xorshift_inj x y : in_u 32 x -> in_u 32 y -> xorshift x = xorshift y -> x = y.
Proof.
  intros Hx Hy E. apply (xor_shl_inj 13); [lia|done|done|]. apply (xor_shr_inj 17); [lia|by apply xor_shl_range..|].
  apply (xor_shl_inj 5); [lia|by apply xor_shr_range, xor_shl_range..|exact E].
Qed.

(** lwip_port_rand walks through the non-zero 32-bit states without ever
    merging two of them: from a non-zero seed it never returns zero, and
    different states give different numbers and different states. *)
Theorem rand_permutes x y :
  in_u 32 x -> in_u 32 y -> x <> 0 ->
  let r := lwip_port_rand x in in_u 32 r.1 /\ r.1 <> 0 /\ r.2 = r.1 /\ (lwip_port_rand y = r -> y = x).
Proof.
  intros Hx Hy Hne. cbn. split; [by apply xorshift_range|]. split; [|split; [done|intros [= E]; by apply xorshift_inj] ].
  intros E. apply Hne. apply xorshift_inj; [done|done|]. rewrite E. done.
Qed.

(** rand is never negative: the sign bit is cleared before the conversion. *)
Lemma rand_range x : 0 <= (rand x).1 <= 0x7FFFFFFF.
Proof.
  unfold rand. cbn [fst]. rewrite (land_mask 31 _ 0x7FFFFFFF) by done. pose proof (Z.mod_pos_bound (lwip_port_rand x).1 (2 ^ 31) ltac:(lia)).
  rewrite i32_ok by lia. lia.
Qed.

(** ** Pointers *)

Lemma le64_length v : length (le64 v) = 8%nat.
Proof. done. Qed.
Lemma from_le_le64 v : in_u 64 v -> from_le (le64 v) = v.
Proof.
  unfold in_u. change (2 ^ 64) with 18446744073709551616. intros Hv.
  assert (forall k j, 0 <= k -> j = k + 8 -> Z.shiftr v k = u8 (Z.shiftr v k) + 256 * Z.shiftr v j) as Hs.
  { intros k j Hk ->. rewrite <- (Z.shiftr_shiftr v k 8) by lia. rewrite (Z.shiftr_div_pow2 _ 8) by lia. unfold wrapu. change (2 ^ 8) with 256.
    rewrite (Z.div_mod (Z.shiftr v k) 256) at 1; lia. }
  assert (Z.shiftr v 64 = 0) as H64 by (rewrite Z.shiftr_div_pow2 by lia; apply Z.div_small; lia).
  change (from_le (le64 v)) with (u8 (Z.shiftr v 0) + 256 * (u8 (Z.shiftr v 8) + 256 * (u8 (Z.shiftr v 16) + 256 * (u8 (Z.shiftr v 24) +
    256 * (u8 (Z.shiftr v 32) + 256 * (u8 (Z.shiftr v 40) + 256 * (u8 (Z.shiftr v 48) + 256 * (u8 (Z.shiftr v 56) + 256 * 0)))))))).
  replace (256 * 0) with (256 * Z.shiftr v 64) by (by rewrite H64).
  rewrite <- (Hs 56 64), <- (Hs 48 56), <- (Hs 40 48), <- (Hs 32 40), <- (Hs 24 32), <- (Hs 16 24), <- (Hs 8 16), <- (Hs 0 8) by lia. apply Z.shiftr_0_r.
Qed.

Section mbox.
Context `{Qs : Queues} {LS HS : Type} `{!ListOps item lst LS} `{!ListLaws item lst LS} `{!HeapOps HS} `{!HeapLaws HS}.
Implicit Types (s : qsys LS HS) (A : amem item lst) (live : gmap Z Z) (I : gmap Z (list (list Z))) (Q : Queue_t).

(** A write outside the storage of every queue. *)
Lemma qinv_mem s A live I m' :
  qinv s A live I -> (forall q Q b, q_queues s !! q = Some Q -> pcHead Q <= b < pcTail Q -> m' !! b = q_mem s !! b) -> qinv (set_mem m' s) A live I.
Proof.
  intros [Hk Hd Hq] Hm. constructor; [done|done|]. intros q Q HQ. destruct (Hq q Q HQ) as (items & HI & [Hsh Hl Hh Ho]).
  exists items. split; [done|]. constructor; try done. eapply shape_frame; [done|]. intros b Hb. by eapply Hm.
Qed.

(** The mailbox [q] holds the pointers [msgs], and the caller's variable at
    [slot] is its own. *)
Record mbox (idle : Z) s (q cap : Z) (msgs : list Z) (slot : Z) : Prop := {
  mb_sys : exists A live I Q, qinv s A live I /\ ready2 idle (q_kernel s) A /\ q_queues s !! q = Some Q /\
    I !! q = Some (le64 <$> msgs) /\ uxItemSize Q = 8 /\ uxLength Q = cap /\ buffer_ok s Q slot;
  mb_msgs : Forall (in_u 64) msgs;
  mb_slot : slot <> 0 }.

Lemma st64_run s A live I q Q slot v :
  qinv s A live I -> q_queues s !! q = Some Q -> uxItemSize Q = 8 -> slot <> 0 -> buffer_ok s Q slot ->
  let s' := set_mem (write_bytes slot (le64 v) (q_mem s)) s in
  st64 slot v s = Some (tt, s') /\ qinv s' A live I /\ buffer_ok s' Q slot /\ item_at (q_mem s') Q slot (le64 v).
Proof.
  intros Hq HQ H8 Hs0 Hb s'. destruct (Hb ltac:(lia)) as [Ho Hd]. rewrite H8 in Ho, Hd. split; [done|]. split; [|split].
  - apply qinv_mem; [done|]. intros q2 Q2 b HQ2 Hb2. apply write_bytes_out. rewrite le64_length. destruct (Hd q2 Q2 HQ2); lia.
  - intros _. rewrite H8. split; [by apply owned_write|exact Hd].
  - split; [by rewrite H8|]. intros _. split; [done|]. rewrite H8. split; [apply bytes_at_write|by eapply Hd].
Qed.
Lemma ld64_run s a x : bytes_at (q_mem s) a x -> length x = 8%nat -> ld64 (LS := LS) (HS := HS) a s = Some (from_le x, s).
Proof.
  intros Hb Hl. destruct x as [|x0 [|x1 [|x2 [|x3 [|x4 [|x5 [|x6 [|x7 [|] ] ] ] ] ] ] ] ]; try done.
  unfold ld64, get_opt, mbind, M_bind. cbn [seq mapM mbind option_bind].
  rewrite (Hb 0%nat x0), (Hb 1%nat x1), (Hb 2%nat x2), (Hb 3%nat x3), (Hb 4%nat x4), (Hb 5%nat x5), (Hb 6%nat x6), (Hb 7%nat x7) by done. done.
Qed.

Lemma trypost_run idle s q cap msgs slot m (sp : Z -> Z) :
  mbox idle s q cap msgs slot -> stacks_hold sp (q_kernel s) -> in_u 64 m ->
  exists s', at_current sp (sys_mbox_trypost q slot m) s = Some (if Z.of_nat (length msgs) <? cap then ERR_OK else ERR_MEM, s') /\
    mbox idle s' q cap (if Z.of_nat (length msgs) <? cap then msgs ++ [m] else msgs) slot /\ stacks_hold sp (q_kernel s').
Proof.
  intros [(A & live & I & Q & Hq & Hr & HQ & HI & H8 & Hl & Hb) Hm Hs] Hst Hv.
  destruct (st64_run s A live I q Q slot m Hq HQ H8 Hs Hb) as (E0 & Hq0 & Hb0 & Hit). set (s0 := set_mem _ s) in *.
  unfold at_current. rewrite gets_run. unfold sys_mbox_trypost. rewrite (bind_eq _ _ _ _ _ E0).
  destruct (Z.ltb_spec (Z.of_nat (length msgs)) cap) as [Hroom|Hfull].
  - destruct (send_now idle sp s0 A live I q Q (le64 <$> msgs) slot (le64 m) Hq0 Hr Hst HQ HI Hit) as (s1 & A1 & Q1 & E1 & Hq1 & Hr1 & Hst1 & HQ1 & Hctl & Hmem);
      [by rewrite length_fmap, Hl|]. exists s1. unfold at_current in E1. rewrite gets_run in E1. change (q_kernel s0) with (q_kernel s) in E1.
    rewrite (bind_eq _ _ _ _ _ E1), decide_True by done. split; [done|]. split; [|done].
    pose proof Hctl as (_ & _ & E3 & E4 & _). split; [|by apply Forall_app; split; [|by constructor]|done].
    exists A1, live, (<[q := (le64 <$> msgs) ++ [le64 m] ]> I), Q1. rewrite HQ1, !lookup_insert_eq, fmap_app.
    split_and!; try done; [congruence|congruence|]. eapply buffer_frame; try done. by eapply send_mem_kept.
  - destruct (send_try_effect idle s0 A live I q Q (le64 <$> msgs) slot 0 pdFALSE (sp (pxCurrentTCB (q_kernel s))) (le64 m) PTry Hq0 Hr HQ HI Hit ltac:(by left))
      as (ph & s1 & A1 & E1 & Hr1 & Hpost). rewrite length_fmap, Hl, (proj2 (Z.ltb_ge _ _)) in Hpost by lia. destruct Hpost as (-> & -> & Hq1 & HQ1 & Hm1).
    exists s1. erewrite bind_eq by (unfold no_wait, xQueueSendToBack; rewrite (bind_eq _ _ _ _ _ E1); reflexivity). split; [done|].
    split; [|exact (qkeeps_hold _ _ _ _ sp (qkeeps_send _ _ _ _ _ _) E1 Hst)]. split; [|done|done]. exists A, live, I, Q. rewrite HQ1.
    split_and!; try done. intros Hpos. rewrite HQ1, Hm1. by apply Hb0.
Qed.
Lemma tryfetch_run idle s q cap msgs slot (sp : Z -> Z) :
  mbox idle s q cap msgs slot -> stacks_hold sp (q_kernel s) ->
  exists s', at_current sp (sys_arch_mbox_tryfetch q slot) s = Some (match msgs with m :: _ => (Some m, 0) | [] => (None, SYS_MBOX_EMPTY) end, s') /\
    mbox idle s' q cap (tail msgs) slot /\ stacks_hold sp (q_kernel s').
Proof.
  intros [(A & live & I & Q & Hq & Hr & HQ & HI & H8 & Hl & Hb) Hm Hs] Hst.
  destruct (st64_run s A live I q Q slot 0 Hq HQ H8 Hs Hb) as (E0 & Hq0 & Hb0 & _). set (s0 := set_mem _ s) in *.
  unfold at_current. rewrite gets_run. unfold sys_arch_mbox_tryfetch. rewrite (bind_eq _ _ _ _ _ E0). destruct msgs as [|m msgs]; cbn [fmap list_fmap tail] in *.
  - destruct (recv_try_effect idle s0 A live I q Q [] slot 0 (sp (pxCurrentTCB (q_kernel s))) PTry Hq0 Hr HQ HI Hb0 ltac:(by left))
      as (ph & s1 & A1 & E1 & Hr1 & -> & -> & Hq1 & HQ1 & Hm1).
    exists s1. erewrite bind_eq by (unfold no_wait; rewrite (bind_eq _ _ _ _ _ E1); reflexivity). split; [done|].
    split; [|exact (qkeeps_hold _ _ _ _ sp (qkeeps_receive _ _ _ _ _) E1 Hst)]. split; [|done|done]. exists A, live, I, Q. rewrite HQ1.
    split_and!; try done. intros Hpos. rewrite HQ1, Hm1. by apply Hb0.
  - destruct (receive_now idle sp s0 A live I q Q (le64 m) (le64 <$> msgs) slot Hq0 Hr Hst HQ HI Hb0) as (s1 & A1 & Q1 & E1 & Hq1 & Hr1 & Hst1 & Hx & HQ1 & Hctl & Hmem).
    exists s1. unfold at_current in E1. rewrite gets_run in E1. change (q_kernel s0) with (q_kernel s) in E1.
    rewrite (bind_eq _ _ _ _ _ E1), decide_True by done.
    apply Forall_cons in Hm as [Hm0 Hm]. rewrite (bind_eq _ _ _ _ _ (ld64_run _ _ _ Hx eq_refl)), from_le_le64 by done. split; [done|]. split; [|done].
    pose proof Hctl as (_ & _ & E3 & E4 & _). split; [|done|done]. exists A1, live, (<[q := le64 <$> msgs]> I), Q1. rewrite HQ1, !lookup_insert_eq.
    split_and!; try done; [congruence|congruence|]. eapply buffer_frame; try done. eapply (recv_mem_kept s0 s1 slot (le64 m) 8); [done|done|by rewrite <- H8].
Qed.

(** *** The mailbox as a bounded FIFO *)

Inductive mbox_op := MPost (m : Z) | MFetch.
Definition op_ok (o : mbox_op) : Prop := match o with MPost m => in_u 64 m | MFetch => True end.
(** What the caller sees: the pointer handed over, if any, and the code. *)
Definition mbox_step (q slot : Z) (sp : Z -> Z) (o : mbox_op) : M (qsys LS HS) (option Z * Z) :=
  match o with
  | MPost m => r ← at_current sp (sys_mbox_trypost q slot m); mret (None, r)
  | MFetch => at_current sp (sys_arch_mbox_tryfetch q slot)
  end.
Fixpoint mbox_run (q slot : Z) (sp : Z -> Z) (ops : list mbox_op) : M (qsys LS HS) (list (option Z * Z)) :=
  match ops with
  | [] => mret []
  | o :: ops => r ← mbox_step q slot sp o; rs ← mbox_run q slot sp ops; mret (r :: rs)
  end.
(** The specification. *)
Definition fifo_step (cap : Z) (msgs : list Z) (o : mbox_op) : list Z * (option Z * Z) :=
  match o, msgs with
  | MPost m, _ => if Z.of_nat (length msgs) <? cap then (msgs ++ [m], (None, ERR_OK)) else (msgs, (None, ERR_MEM))
  | MFetch, m :: msgs => (msgs, (Some m, 0))
  | MFetch, [] => ([], (None, SYS_MBOX_EMPTY))
  end.
Fixpoint fifo_run (cap : Z) (msgs : list Z) (ops : list mbox_op) : list Z * list (option Z * Z) :=
  match ops with
  | [] => (msgs, [])
  | o :: ops => let x := fifo_step cap msgs o in let y := fifo_run cap x.1 ops in (y.1, x.2 :: y.2)
  end.

Lemma mbox_step_run idle s q cap msgs slot sp o :
  mbox idle s q cap msgs slot -> stacks_hold sp (q_kernel s) -> op_ok o ->
  exists s', mbox_step q slot sp o s = Some ((fifo_step cap msgs o).2, s') /\ mbox idle s' q cap (fifo_step cap msgs o).1 slot /\ stacks_hold sp (q_kernel s').
Proof.
  intros Hm Hst Ho. destruct o as [m|]; cbn [mbox_step fifo_step].
  - destruct (trypost_run idle s q cap msgs slot m sp Hm Hst Ho) as (s' & E & Hm'). exists s'. rewrite (bind_eq _ _ _ _ _ E).
    destruct (Z.of_nat (length msgs) <? cap); by split.
  - destruct (tryfetch_run idle s q cap msgs slot sp Hm Hst) as (s' & E & Hm'). exists s'. by destruct msgs.
Qed.

(** C35: A mailbox of lwIP is a bounded FIFO of pointers: any sequence of
    non-blocking posts and fetches returns what a queue of the mailbox's size
    would return (the pointers in the order they were posted, ERR_MEM when full,
    SYS_MBOX_EMPTY when empty), although the pointers travel as bytes through a
    local variable and the kernel queue's storage.  The calls are complete, with
    the yield to a task one of them wakes; no task has overrun its stack. *)
Theorem mbox_refines_fifo idle s q cap msgs slot sp ops :
  mbox idle s q cap msgs slot -> stacks_hold sp (q_kernel s) -> Forall op_ok ops ->
  exists s', mbox_run q slot sp ops s = Some ((fifo_run cap msgs ops).2, s') /\ mbox idle s' q cap (fifo_run cap msgs ops).1 slot.
Proof.
  intros Hm Hst Ho. revert s msgs Hm Hst. induction Ho as [|o ops Ho _ IH]; intros s msgs Hm Hst; [by exists s|]. cbn [mbox_run fifo_run].
  destruct (mbox_step_run idle s q cap msgs slot sp o Hm Hst Ho) as (s1 & E1 & Hm1 & Hst1). rewrite (bind_eq _ _ _ _ _ E1).
  destruct (IH s1 _ Hm1 Hst1) as (s2 & E2 & Hm2). exists s2. by rewrite (bind_eq _ _ _ _ _ E2).
Qed.

(** ** Waiting with a timeout *)

Lemma ready_undelayed (k : kernel LS HS) A t T v : is_ready k A t T -> ~ is_delayed A t v.
Proof. intros [_ Hc] (it & Hi & Hd & _). unfold cont in Hc. rewrite Hi in Hc. cbn in Hc. congruence. Qed.
(** A tick keeps the ready tasks ready. *)
Lemma tick_kept_ready (k k' : kernel LS HS) A A' t T :
  k_tcbs k' = k_tcbs k -> (forall i, (forall v, is_delayed A (task_of i) v -> xTickCount k' < v) -> am_items A' !! i = am_items A !! i) ->
  is_ready k A t T -> is_ready k' A' t T.
Proof.
  intros Hk Hi Hr. eapply ready_keep; [exact Hr|rewrite Hk; apply Hr|done|]. apply Hi. cbn [task_of]. intros v Hd. by apply (ready_undelayed _ _ _ _ v Hr) in Hd.
Qed.
Lemma tick_ready2 idle (k k' : kernel LS HS) A A' :
  k_tcbs k' = k_tcbs k -> pxCurrentTCB k' = pxCurrentTCB k -> uxCriticalNesting k' = uxCriticalNesting k ->
  (forall i, (forall v, is_delayed A (task_of i) v -> xTickCount k' < v) -> am_items A' !! i = am_items A !! i) ->
  ready2 idle k A -> ready2 idle k' A'.
Proof.
  intros Hk Hc Hn Hi [ [T HT] [U HU] Hb]. constructor; [exists T; rewrite Hc|exists U|by rewrite Hn]; by eapply tick_kept_ready.
Qed.
(** Up to the tick before its time a task stays blocked; then it is ready. *)
Lemma ticks_wait idle n (k : kernel LS HS) A live t v :
  kinv None k A live -> ready2 idle k A -> is_delayed A t v -> v < 2 ^ 32 -> xTickCount k + Z.of_nat (S n) = v ->
  exists k' A' T, ticks (S n) k = Some (tt, k') /\ kinv None k' A' live /\ ready2 idle k' A' /\ is_ready k' A' t T /\
    (forall u, is_Some (k_tcbs k !! u) -> is_Some (k_tcbs k' !! u)).
Proof.
  revert k A. induction n as [|n IH]; intros k A Hk Hr Hd Hv Ht; pose proof (ki_tick _ _ _ _ Hk) as Htk; unfold in_u in Htk;
    destruct (tick_effect k A live Hk) as (k1 & A1 & E1 & Hk1 & Ht1 & Hc1 & Hp1 & Hn1 & Hwake & Hoth);
    rewrite (wrapu_small 32) in Ht1 by (unfold in_u; lia); pose proof (tick_ready2 idle k k1 A A1 Hc1 Hp1 Hn1 Hoth Hr) as Hr1.
  - destruct (Hwake t v Hd ltac:(lia)) as (T & HT & _). exists k1, A1, T. split; [cbn [ticks]; by erewrite bind_eq by done|].
    split_and!; try done. intros u. by rewrite Hc1.
  - assert (is_delayed A1 t v) as Hd1.
    { destruct Hd as (it & Hi & Hdd & Hval). exists it. split; [|done]. rewrite Hoth; [done|]. intros w (it' & Hi' & _ & <-). cbn [task_of] in Hi'. simplify_eq. lia. }
    destruct (IH k1 A1 Hk1 Hr1 Hd1 Hv ltac:(lia)) as (k' & A' & T & E & Hk' & Hr' & HT & Hu).
    exists k', A', T. split; [cbn [ticks]; rewrite (bind_eq _ _ _ _ _ E1); exact E|]. split_and!; try done. intros u Hs. apply Hu. by rewrite Hc1.
Qed.

(** [n] steps of a fetch. *)
Fixpoint fetch_steps (n : nat) (q slot timeout_ms sp : Z) (pc : wait_pc (Z * Z)) : M (qsys LS HS) (wait_pc (Z * Z)) :=
  match n with
  | O => mret pc
  | S n => pc ← sys_arch_mbox_fetch q slot timeout_ms sp pc; fetch_steps n q slot timeout_ms sp pc
  end.
Lemma fetch_retry_empty idle s q cap slot ms sp start :
  mbox idle s q cap [] slot ->
  exists s', fetch_steps 2 q slot ms sp (WRun start PRetry) s = Some (WDone (0, SYS_ARCH_TIMEOUT), s') /\ mbox idle s' q cap [] slot.
Proof.
  intros [(A & live & I & Q & Hq & Hr & HQ & HI & H8 & Hl & Hb) Hm Hs].
  destruct (recv_try_effect idle s A live I q Q [] slot (wait_ticks ms) sp PRetry Hq Hr HQ HI Hb ltac:(by right))
    as (ph & s1 & A1 & E1 & Hr1 & -> & -> & Hq1 & HQ1 & Hm1). exists s1. split.
  - cbn [fetch_steps sys_arch_mbox_fetch]. unfold mbind, M_bind. rewrite E1. done.
  - split; [|done|done]. exists A, live, I, Q. rewrite HQ1. split_and!; try done. intros Hp. rewrite HQ1, Hm1. by apply Hb.
Qed.
(** A receive that finds nothing changes only the interrupt mask. *)
Lemma recv_try_empty idle s A live I q Q a ms sp :
  qinv s A live I -> ready2 idle (q_kernel s) A -> q_queues s !! q = Some Q -> I !! q = Some [] -> buffer_ok s Q a -> ms <> 0 ->
  exists b, xQueueReceive q a ms sp PTry s = Some (PBlock, set_kernel (set_critical (uxCriticalNesting (q_kernel s)) b (q_kernel s)) s).
Proof.
  intros Hq Hr HQ HI Hb Hms. destruct (wp_xQueueReceive_try s A live I q Q [] a Hq HQ HI (ready2_cur _ _ _ Hr) (r2_nest _ _ _ Hr) Hb) as (res & s1 & E & -> & b & ->).
  exists b. cbn [xQueueReceive]. rewrite (bind_eq _ _ _ _ _ E). by rewrite (proj2 (Z.eqb_neq ms 0) Hms).
Qed.
Lemma sys_now_run s : sys_now s = Some (u32 (xTickCount (q_kernel s)), s).
Proof. by destruct s. Qed.
Lemma parked_delayed (k : kernel LS HS) A t l ms tick :
  parked k A t l ms tick -> 0 < ms < 2 ^ 32 - 1 -> tick + ms < 2 ^ 32 -> in_u 32 (xTickCount k) -> is_delayed A t (tick + ms).
Proof.
  intros [_ Hst Hwk Htk] Hms Htick Hin. assert ((ms =? portMAX_DELAY) = false) as Hnm by (apply Z.eqb_neq; unfold portMAX_DELAY; lia).
  rewrite Hnm in Hst. unfold cont in Hst. destruct (am_items A !! StateItem t) as [it|] eqn:Hit; [|done]. exists it. split; [done|]. split; [by injection Hst|].
  specialize (Hwk ltac:(by apply Z.eqb_neq)). unfold a_val in Hwk. rewrite Hit in Hwk. cbn in Hwk. rewrite Hwk.
  rewrite Htk in Hin. apply wrapu_small. unfold in_u in *. lia.
Qed.

(** A yield elects a task that no other ready task equals in priority. *)
Lemma yield_elects idle sp (k : kernel LS HS) A live t T :
  kinv None k A live -> ready2 idle k A -> yields_ok sp k -> is_ready k A t T ->
  exists k' A', taskYIELD sp k = Some (tt, k') /\ kinv None k' A' live /\ ready2 idle k' A' /\
    (forall u, is_Some (k_tcbs k !! u) -> is_Some (k_tcbs k' !! u)) /\
    ((forall v V, v <> t -> is_ready k A v V -> uxPriority V < uxPriority T) -> pxCurrentTCB k' = t).
Proof.
  intros Hk [ [C HC] [U HU] Hn] Hy HT. pose proof (to_prio _ _ _ _ (ki_tcb _ _ _ _ Hk _ _ (proj1 HT))) as Hp.
  destruct (yield_safe idle sp k A live C U Hk (proj1 HC) HU Hn Hy) as (k' & A' & C' & U' & Hrun & Hk' & HC' & HU' & Hc & [_ Hg] & Hit & _).
  exists k', A'. split_and!; try done; [constructor; [by exists C'|by exists U'|lia]|]. intros Hmax.
  destruct (wp_taskYIELD sp k A live C Hk (proj1 HC) Hy) as ([] & k2 & Hrun2 & A2 & Hsw & _); [exists (uxPriority T); split; [lia|by eapply ready_occupies]|].
  rewrite Hrun in Hrun2. injection Hrun2 as <-.
  destruct (switched_next _ _ _ _ _ (kinv_saved sp _ _ _ Hk) Hsw) as (u & V & <- & HV & Hcv & Hhi & _).
  destruct (decide (pxCurrentTCB k' = t)) as [|Hne]; [done|]. exfalso. cbn in HV. rewrite lookup_alter in HV.
  assert (exists V0, is_ready k A (pxCurrentTCB k') V0 /\ uxPriority V0 = uxPriority V) as (V0 & HV0 & E).
  { case_decide as Ec; [apply fmap_Some in HV as (V0 & HV0 & ->); exists V0|exists V]; (split; [split; [congruence|exact Hcv]|done]). }
  specialize (Hmax _ _ Hne HV0). apply (Hhi (uxPriority T)); [lia|]. by eapply ready_occupies.
Qed.

Lemma fetch_blocks idle s q cap slot ms sp :
  mbox idle s q cap [] slot -> pxCurrentTCB (q_kernel s) <> idle -> 0 < ms < 2 ^ 32 - 1 -> yields_ok sp (q_kernel s) ->
  exists start s' A live I Q, fetch_steps 4 q slot ms sp WStart s = Some (WRun start PRetry, s') /\ qinv s' A live I /\ ready2 idle (q_kernel s') A /\
    q_queues s' !! q = Some Q /\ I !! q = Some [] /\ uxItemSize Q = 8 /\ uxLength Q = cap /\ buffer_ok s' Q slot /\
    pxCurrentTCB (q_kernel s') <> pxCurrentTCB (q_kernel s) /\
    parked (q_kernel s') A (pxCurrentTCB (q_kernel s)) (WaitRecv q) ms (xTickCount (q_kernel s)) .
Proof.
  intros [(A & live & I & Q & Hq & Hr & HQ & HI & H8 & Hl & Hb) Hm Hs] Hne Hms Hy.
  destruct (st64_run s A live I q Q slot 0 Hq HQ H8 Hs Hb) as (E0 & Hq0 & Hb0 & _). set (s0 := set_mem _ s) in *.
  destruct (recv_try_empty idle s0 A live I q Q slot ms sp Hq0 Hr HQ HI Hb0 ltac:(lia)) as [b E1]. set (s1 := set_kernel _ s0) in E1.
  assert (qinv s1 A live I) as Hq1 by (eapply qinv_kernel; [done|by apply kinv_critical, Hq0|done]).
  assert (ready2 idle (q_kernel s1) A) as Hr1 by (apply ready2_critical; [done|apply Hr]).
  destruct (blocked_caller_is_parked idle s1 A live I q Q slot ms sp Hq1 Hr1 HQ Hne) as (s2 & s' & A' & E2 & E3 & Hq2 & Hr2 & HQ2 & Hm2 & Hoff & Hpk); [unfold in_u; lia|exact Hy|].
  exists (u32 (xTickCount (q_kernel s))), s', A', live, I, Q. split.
  - unfold fetch_steps, sys_arch_mbox_fetch, wait_ticks. rewrite (proj2 (Z.eqb_neq ms 0)) by lia.
    rewrite (bind_eq _ _ s (WRun (u32 (xTickCount (q_kernel s))) PTry) s0) by (unfold mbind, M_bind; by rewrite sys_now_run, E0).
    rewrite (bind_eq _ _ s0 (WRun (u32 (xTickCount (q_kernel s))) PBlock) s1) by (unfold mbind, M_bind; by rewrite E1).
    rewrite (bind_eq _ _ s1 (WRun (u32 (xTickCount (q_kernel s))) PWait) s2) by (unfold mbind, M_bind; by rewrite E2).
    by rewrite (bind_eq _ _ s2 (WRun (u32 (xTickCount (q_kernel s))) PRetry) s') by (unfold mbind, M_bind; by rewrite E3).
  - rewrite HQ2. split_and!; try done. intros Hp. rewrite HQ2, Hm2. by apply Hb0.
Qed.


(** ** Results that are dropped *)

(** A post that was woken and finds the mailbox full again returns; the message
    is nowhere. *)
Lemma mbox_post_drops idle s q cap msgs slot m sp :
  mbox idle s q cap msgs slot -> cap <= Z.of_nat (length msgs) -> bytes_at (q_mem s) slot (le64 m) ->
  exists s', sys_mbox_post q slot m sp PRetry s = Some (PDone errQUEUE_FULL, s') /\ mbox idle s' q cap msgs slot.
Proof.
  intros [(A & live & I & Q & Hq & Hr & HQ & HI & H8 & Hl & Hb) Hm Hs] Hf Hit.
  destruct (send_try_effect idle s A live I q Q (le64 <$> msgs) slot portMAX_DELAY pdFALSE sp (le64 m) PRetry Hq Hr HQ HI)
    as (ph & s1 & A1 & E1 & Hr1 & Hpost); [|by right|].
  { split; [by rewrite H8|]. intros Hp. split; [done|]. split; [done|]. by eapply (Hb Hp). }
  rewrite length_fmap, Hl, (proj2 (Z.ltb_ge _ _)) in Hpost by lia. destruct Hpost as (-> & -> & Hq1 & HQ1 & Hm1).
  exists s1. split; [exact E1|]. split; [|done|done]. exists A, live, I, Q. rewrite HQ1. split_and!; try done. intros Hp. rewrite HQ1, Hm1. by apply Hb.
Qed.
(** A lock that was woken and finds the mutex taken again returns; the mutex is
    as it was. *)
Lemma mutex_lock_drops idle s A live I q Q sp :
  qinv s A live I -> ready2 idle (q_kernel s) A -> q_queues s !! q = Some Q -> I !! q = Some [] -> mutex_ok Q [] ->
  exists s', sys_mutex_lock q sp PRetry s = Some (PDone errQUEUE_EMPTY, s') /\ q_queues s' !! q = Some Q /\ qinv s' A live I.
Proof.
  intros Hq Hr HQ HI (Hm & Hl & Hz & _). unfold sys_mutex_lock, xSemaphoreTake.
  destruct (recv_try_effect idle s A live I q Q [] 0 portMAX_DELAY sp PRetry Hq Hr HQ HI) as (ph & s' & A' & E & Hr' & -> & -> & Hq' & HQ' & _);
    [intros Hp; lia|by right|]. exists s'. split; [exact E|]. by rewrite HQ'.
Qed.
End mbox.

(** Two tasks of equal priority, A running: A locks, B tries to lock and blocks,
    A unlocks, which readies B, and locks again before it gives the processor to
    B; B's call then returns. *)
Definition passed (ph : phase) : M DQ unit := if decide (ph = PDone pdPASS) then mret tt else fails.
Definition lock_race (m : Z) (sp : Z -> Z) : M DQ phase :=
  let lock pc := at_current sp (fun sp => sys_mutex_lock m sp pc) in
  let unlock pc := at_current sp (fun sp => sys_mutex_unlock m sp pc) in
  let yield := at_current sp (fun sp => onK (taskYIELD sp)) in
  ph ← lock PTry; passed ph;;
  yield;; yield;;
  ph ← lock PTry; ph ← lock ph; pcB ← lock ph;
  ph ← unlock PTry; passed ph;;
  ph ← lock PTry; passed ph;;
  yield;;
  lock pcB.

Lemma race_summary (o : option (phase * DQ)) (m : Z) ph c h :
  (fun x => (x.1, pxCurrentTCB (q_kernel x.2), pxMutexHolder <$> (q_queues x.2 !! m))) <$> o = Some (ph, c, h) ->
  exists s, o = Some (ph, s) /\ pxCurrentTCB (q_kernel s) = c /\ pxMutexHolder <$> (q_queues s !! m) = h.
Proof. destruct o as [ [ph' s]|]; [|done]. cbn. intros [= -> <- <-]. by exists s. Qed.

(** sys_mutex_lock does not exclude: there is a run of two tasks in which A
    has locked the mutex and not unlocked it, and B's sys_mutex_lock returns
    too, because the kernel call tries only once more after the wake-up and the
    wrapper drops its result. *)
Theorem mutex_lock_admits_two :
  exists s, lock_race demo_m demo_sps mdemo = Some (PDone errQUEUE_EMPTY, s) /\ pxCurrentTCB (q_kernel s) = demo_B /\
    pxMutexHolder <$> (q_queues s !! demo_m) = Some demo_A /\ demo_A <> demo_B.
Proof.
  destruct (race_summary (lock_race demo_m demo_sps mdemo) demo_m (PDone errQUEUE_EMPTY) demo_B (Some demo_A)) as (s & E & H1 & H2);
    [vm_compute; reflexivity|]. exists s. repeat (split; [assumption|]). vm_compute. discriminate.
Qed.

(** ** A mailbox of two pointers *)

Definition demo_mb : Z := (result (0, 0) (sys_mbox_new 2) qdemo0).1.
Definition mbdemo : DQ := run_q (sys_mbox_new 2) qdemo0.
Definition mb_set : Queues := ({[demo_mb]} : gset Z) ∪ (no_queues : gset Z).
#[local] Existing Instance mb_set.

Lemma mbdemo_queue : q_queues mbdemo !! demo_mb = Some (queue_of mbdemo demo_mb).
Proof. vm_compute. reflexivity. Qed.
Lemma mbdemo_only q : is_Some (q_queues mbdemo !! q) -> q = demo_mb.
Proof.
  assert (dom (q_queues mbdemo) = ({[demo_mb]} : gset Z)) as Hd by (vm_compute; reflexivity).
  intros HQ%elem_of_dom. rewrite Hd in HQ. by apply elem_of_singleton in HQ.
Qed.
Lemma mbdemo_isz : uxItemSize (queue_of mbdemo demo_mb) = 8.
Proof. vm_compute. reflexivity. Qed.
Lemma mbdemo_buffer : buffer_ok mbdemo (queue_of mbdemo demo_mb) 100.
Proof.
  unfold buffer_ok. rewrite mbdemo_isz. intros _. split.
  - intros i Hi. exists (i + 1). assert (i = 0 \/ i = 1 \/ i = 2 \/ i = 3 \/ i = 4 \/ i = 5 \/ i = 6 \/ i = 7) as Hc by lia.
    repeat (destruct Hc as [Hc|Hc]; [subst i; vm_compute; reflexivity|]). subst i. vm_compute. reflexivity.
  - intros q2 Q2 HQ2. left. pose proof (mbdemo_only q2 (ex_intro _ Q2 HQ2)) as ->.
    assert (Q2 = queue_of mbdemo demo_mb) as -> by (unfold queue_of; rewrite HQ2; reflexivity). vm_compute. congruence.
Qed.
Lemma mbdemo_ok : mbox demo_idle mbdemo demo_mb 2 [] 100.
Proof.
  destruct qdemo0_ok as (A & live & Hq & Hr).
  destruct (wp_xQueueCreate no_queues qdemo0 A live ∅ 2 8 Hq ltac:(lia) ltac:(lia) ltac:(unfold sizeof_Queue_t; lia) ltac:(lia)) as (q & s' & Hrun & Hpost).
  assert (Hnew : sys_mbox_new 2 qdemo0 = Some ((q, if negb (q =? 0) then ERR_OK else ERR_MEM), s')) by (unfold sys_mbox_new; by erewrite bind_eq by exact Hrun).
  assert (Hdq : demo_mb = q) by (unfold demo_mb, result; by rewrite Hnew). assert (Hds : mbdemo = s') by (unfold mbdemo, run_q; by rewrite Hnew).
  assert (Hdn : demo_mb <> 0) by (vm_compute; congruence).
  destruct Hpost as [ [Hz _]|(_ & A' & Hc)]; [destruct (Hdn (eq_trans Hdq Hz))|]. split; [|constructor|done].
  exists A', (<[q := sizeof_Queue_t + 2 * 8]> live), (<[q := []]> ∅), (queue_of mbdemo demo_mb).
  split; [rewrite Hds; unfold mb_set; rewrite Hdq; exact (qc_inv _ _ _ _ _ _ _ _ _ _ Hc)|]. split; [rewrite Hds; by eapply created_ready|].
  split; [exact mbdemo_queue|]. split; [rewrite Hdq; apply lookup_insert_eq|]. split; [vm_compute; reflexivity|]. split; [vm_compute; reflexivity|exact mbdemo_buffer].
Qed.
Lemma mbdemo_tasks : map_Forall (fun _ T => stack_ok (k_stack (q_kernel mbdemo)) T) (map_imap (fun t T => Some (with_sp (demo_sps t) T)) (k_tcbs (q_kernel mbdemo))).
Proof. unfold stack_ok. refine (bool_decide_unpack _ _). vm_compute. exact Logic.I. Qed.
Lemma mbdemo_stacks : stacks_hold demo_sps (q_kernel mbdemo).
Proof. intros t T HT. apply (map_Forall_lookup_1 _ _ t _ mbdemo_tasks). by rewrite map_lookup_imap, HT. Qed.
Lemma mbox_refines_fifo_witness :
  exists s', mbox_run demo_mb 100 demo_sps [MFetch; MPost 0x80000; MPost 5; MPost 6; MFetch; MFetch] mbdemo =
    Some ([(None, SYS_MBOX_EMPTY); (None, ERR_OK); (None, ERR_OK); (None, ERR_MEM); (Some 0x80000, 0); (Some 5, 0)], s').
Proof.
  destruct (mbox_refines_fifo demo_idle mbdemo demo_mb 2 [] 100 demo_sps [MFetch; MPost 0x80000; MPost 5; MPost 6; MFetch; MFetch] mbdemo_ok mbdemo_stacks) as (s' & E & _);
    [repeat constructor; done|]. exists s'. exact E.
Defined.

(** Task A fetches with a timeout of five milliseconds; when they are over, B
    yields, A is elected and its fetch times out. *)
Definition waited : option DQ := (fun x : wait_pc (Z * Z) * DQ => x.2) <$> fetch_steps 4 demo_mb 100 5 (demo_sps demo_A) WStart mbdemo.
Definition woken : option DK := s ← waited; x ← ticks 5 (q_kernel s); Some x.2.
Definition next_sp : Z := default 0 (k ← woken; Some (demo_sps (pxCurrentTCB k))).
Lemma woken_is (s : DQ) k : ticks 5 (q_kernel s) = Some (tt, k) -> (s ← Some s; x ← ticks 5 (q_kernel s); Some x.2) = Some k.
Proof. intros E. unfold mbind, option_bind. by rewrite E. Qed.
Lemma woken_yields k : woken = Some k -> yields_ok next_sp k.
Proof.
  intros Hk. apply (yields_of _ _ (tcb_of k (pxCurrentTCB k))).
  - assert (E : (k ← woken; k_tcbs k !! pxCurrentTCB k) = (k ← woken; Some (tcb_of k (pxCurrentTCB k)))) by (vm_compute; reflexivity). by rewrite Hk in E.
  - assert (E : from_option (fun k => stack_ok (k_stack k) (with_sp next_sp (tcb_of k (pxCurrentTCB k)))) False woken) by (vm_compute; split_and!; congruence).
    by rewrite Hk in E.
Qed.
Lemma woken_elects k k3 : woken = Some k -> taskYIELD next_sp k = Some (tt, k3) -> pxCurrentTCB k3 = demo_A.
Proof.
  intros Hk H3. assert (E : (k ← woken; x ← taskYIELD next_sp k; Some (pxCurrentTCB x.2)) = Some demo_A) by (vm_compute; reflexivity).
  rewrite Hk in E. unfold mbind, option_bind in E. rewrite H3 in E. exact (inj Some _ _ E).
Qed.
Lemma mbdemo_yields : yields_ok (demo_sps demo_A) (q_kernel mbdemo).
Proof. apply (yields_of _ _ (tcb_of demo demo_A)); [vm_compute; reflexivity|stack_demo]. Qed.
