(* ===== verification/Boot.v ===== *)
(** * The C entry of the board (src/boot/rpi4/boot.c)

    The translation table and the system registers of [mmu_init], the boot log
    and the hand-over to main.  What the processor makes of the registers is
    the reference [translate]: bit 55 of the address selects TTBR0 or TTBR1,
    the walk-disable bits of TCR decide whether there is a walk at all, and a
    walk through TTBR0 is one level-1 lookup with a 4 KB granule, as the
    architecture defines it for a 32-bit input address.  A walk it does not
    follow (through TTBR1, with another granule or start level, or through a
    table descriptor) is its own outcome, not a fault.  Barriers and TLB
    maintenance have no effect on this state. *)

From S2P Require Import Prelude CInt CStr Mmio Uart.

(** ** The processor *)

Record cpu := Cpu { mair_el1 : Z; tcr_el1 : Z; ttbr0_el1 : Z; sctlr_el1 : Z; CurrentEL : Z }.
Record board := Board { b_bus : bus; b_cpu : cpu; g_l1_table : list Z }.

Inductive mem_type := Device_nGnRnE | Normal_NC | OtherType (attr : Z).
(** The memory type of MAIR attribute [i]. *)
Definition mair_type (mair i : Z) : mem_type :=
  let a := Z.land (Z.shiftr mair (8 * i)) 255 in
  if a =? 0 then Device_nGnRnE else if a =? 0x44 then Normal_NC else OtherType a.

(** Where an address goes at EL1, and what may be done there. *)
Record mapping := Mapping { pa : Z; mtype : mem_type; writable : bool; executable : bool }.
Definition field (x lo n : Z) : Z := Z.land (Z.shiftr x lo) (Z.ones n).
(** The physical addresses [TCR_EL1.IPS] allows. *)
Definition pa_bits (ips : Z) : Z := if ips =? 0 then 32 else if ips =? 1 then 36 else if ips =? 2 then 40 else if ips =? 3 then 42 else if ips =? 4 then 44 else 48.

(** What an access meets: a translation fault, a mapping, or a walk that is not
    followed here. *)
Inductive walk := Fault | Maps (m : mapping) | Unfollowed.

(** A descriptor of a level-1 table: a block maps if it is accessed and within
    the physical address size. *)
Definition block_map (c : cpu) (desc va : Z) : walk :=
  let pa := Z.lor (Z.shiftl (field desc 30 18) 30) (va mod 2 ^ 30) in
  let w := negb (Z.testbit desc 7) in
  if field desc 0 2 =? 3 then Unfollowed
  else if (field desc 0 2 =? 1) && Z.testbit desc 10 && (pa <? 2 ^ pa_bits (field (tcr_el1 c) 32 3)) then
    Maps (Mapping pa (mair_type (mair_el1 c) (field desc 2 3)) w
            (negb (Z.testbit desc 53) && negb (Z.testbit desc 6 && w) && negb (Z.testbit (sctlr_el1 c) 19 && w)))
  else Fault.

(** [mem64 a] is the doubleword at physical address [a].  The bits of TCR_EL1:
    T0SZ [5:0], EPD0 [7], TG0 [15:14], EPD1 [23], IPS [34:32], TBI0 [37]. *)
Definition translate (c : cpu) (mem64 : Z -> option Z) (va : Z) : walk :=
  if (va <? 0) || (2 ^ 64 <=? va) then Fault
  else if negb (Z.testbit (sctlr_el1 c) 0) then Maps (Mapping va Device_nGnRnE true true)
  else if Z.testbit va 55 then if Z.testbit (tcr_el1 c) 23 then Fault else Unfollowed
  else if Z.testbit (tcr_el1 c) 7 then Fault
  else
    let t0sz := field (tcr_el1 c) 0 6 in
    if (25 <=? t0sz) && (t0sz <=? 33) && (field (tcr_el1 c) 14 2 =? 0) && negb (Z.testbit (tcr_el1 c) 37) then
      if va <? 2 ^ (64 - t0sz) then
        match mem64 (Z.shiftl (field (ttbr0_el1 c) 12 36) 12 + 8 * Z.shiftr va 30) with
        | Some desc => block_map c desc va
        | None => Unfollowed
        end
      else Fault
    else Unfollowed.

(** A data access of [n] bytes at [va] goes through: both ends are mapped, and
    it is aligned, unless the memory is Normal and SCTLR_EL1.A is clear. *)
Definition access_ok (c : cpu) (mem64 : Z -> option Z) (va n : Z) : bool :=
  match translate c mem64 va, translate c mem64 (va + n - 1) with
  | Maps m1, Maps m2 =>
      (va mod n =? 0) || (negb (Z.testbit (sctlr_el1 c) 1) &&
        match mtype m1, mtype m2 with Normal_NC, Normal_NC => true | _, _ => false end)
  | _, _ => false
  end.

Section boot.
Context {D : Device} (l1_addr : Z) (main : M board Z).

Definition onBus {A} (c : M bus A) : M board A := zoom b_bus (fun b s => Board b (b_cpu s) (g_l1_table s)) c.
Definition setCpu (f : cpu -> cpu) : M board unit := modify (fun s => Board (b_bus s) (f (b_cpu s)) (g_l1_table s)).
Definition setL1 (i v : Z) : M board unit :=
  t ← gets g_l1_table; t' ← of_opt (wrb t i v); modify (fun s => Board (b_bus s) (b_cpu s) t').

(** The table in memory. *)
Definition mem64 (s : board) (a : Z) : option Z :=
  if (l1_addr <=? a) && ((a - l1_addr) mod 8 =? 0) then rdb (g_l1_table s) ((a - l1_addr) / 8) else None.

Definition DESC_BLOCK_NORMAL_NC (base : Z) : Z := Z.lor (Z.lor (Z.lor (u64 base) (bitu 64 10)) (bitu 64 2)) 1.
Definition DESC_BLOCK_DEVICE (base : Z) : Z := Z.lor (Z.lor (Z.lor (u64 base) (bitu 64 10)) (u64 (Z.shiftl 0 2))) 1.

Definition mmu_init : M board unit :=
  setL1 0 (DESC_BLOCK_NORMAL_NC 0x00000000);;
  setL1 1 (DESC_BLOCK_NORMAL_NC 0x40000000);;
  setL1 2 (DESC_BLOCK_NORMAL_NC 0x80000000);;
  setL1 3 (DESC_BLOCK_DEVICE 0xC0000000);;
  let mair := Z.lor (u64 (Z.shiftl 0x00 0)) (u64 (Z.shiftl 0x44 8)) in
  setCpu (fun c => Cpu mair (tcr_el1 c) (ttbr0_el1 c) (sctlr_el1 c) (CurrentEL c));;
  let tcr := Z.lor (Z.lor 32 (u64 (Z.shiftl 2 32))) (bitu 64 23) in
  setCpu (fun c => Cpu (mair_el1 c) tcr (ttbr0_el1 c) (sctlr_el1 c) (CurrentEL c));;
  setCpu (fun c => Cpu (mair_el1 c) (tcr_el1 c) l1_addr (sctlr_el1 c) (CurrentEL c));;
  sctlr ← gets (fun s => sctlr_el1 (b_cpu s));
  let sctlr := Z.lor sctlr (bitu 64 0) in
  let sctlr := Z.lor sctlr (bitu 64 12) in
  setCpu (fun c => Cpu (mair_el1 c) (tcr_el1 c) (ttbr0_el1 c) sctlr (CurrentEL c)).

Definition current_el : M board Z := v ← gets (fun s => CurrentEL (b_cpu s)); mret (Z.land (Z.shiftr v 2) 3).

(** [flint_boot] up to [mmu_init], and from there to the call of main. *)
Definition boot_pre : M board unit :=
  onBus (dbg_puts ([10] ++ chars "[boot] flint_boot() entered (pre-uart_init)" ++ [10; 0]));;
  onBus (dbg_puts (lit "[boot]   CurrentEL=EL"));; el ← current_el; onBus (dbg_hex el);; onBus (dbg_puts [10; 0]);;
  onBus uart_init;;
  onBus (dbg_puts (chars "[boot] enabling MMU (identity map, RAM=Normal-NC)..." ++ [10; 0])).
Definition boot_post : M board unit :=
  onBus (dbg_puts (chars "[boot] MMU on" ++ [10; 0]));;
  onBus (uart_puts [10; 0]);;
  onBus (uart_puts (chars "========================================" ++ [10; 0]));;
  onBus (uart_puts (chars "  FlintRTOS  -  Raspberry Pi 4 (AArch64)" ++ [10; 0]));;
  onBus (uart_puts (chars "  lean . secure . safe" ++ [10; 0]));;
  onBus (uart_puts (chars "========================================" ++ [10; 0]));;
  onBus (uart_puts (chars "[boot] board init complete; calling main()" ++ [10; 0])).
(** Returning is reaching the final wait-for-event loop. *)
Definition flint_boot : M board unit :=
  boot_pre;; mmu_init;; boot_post;;
  _ ← main;
  onBus (uart_puts (chars "[boot] main() returned; halting." ++ [10; 0])).
End boot.
