(* ===== verification/BootProps.v ===== *)
(** * The board after boot

    The address space main starts in: the identity, with RAM as Normal memory
    and the peripherals as Device memory, and a boot that reaches main with any
    console hardware. *)

From S2P Require Import Prelude CInt CStr Decimal LwipLibc Mmio Uart UartProps Boot.

(** ** The address space *)

(** The address space of the board: 3 GB of RAM as Normal memory, 1 GB of
    peripherals as Device memory, nothing above. *)
Definition flat_map (wxn : bool) (va : Z) : walk :=
  if va <? 0 then Fault
  else if va <? 0xC0000000 then Maps (Mapping va Normal_NC true (negb wxn))
  else if va <? 0x100000000 then Maps (Mapping va Device_nGnRnE true (negb wxn))
  else Fault.

Lemma shiftr_range x n k : 0 <= n -> k * 2 ^ n <= x < (k + 1) * 2 ^ n -> Z.shiftr x n = k.
Proof. intros Hn Hx. rewrite Z.shiftr_div_pow2 by done. symmetry. apply (Z.div_unique _ _ _ (x - k * 2 ^ n)); lia. Qed.
Lemma block_addr k va : 0 <= k -> k * 2 ^ 30 <= va < (k + 1) * 2 ^ 30 -> Z.lor (Z.shiftl k 30) (va mod 2 ^ 30) = va.
Proof.
  intros Hk Hv. rewrite Z.lor_comm, lor_shiftl_add by (lia || apply Z.mod_pos_bound; lia).
  rewrite <- (shiftr_range va 30 k) by lia. rewrite Z.shiftr_div_pow2 by lia. pose proof (Z.div_mod va (2 ^ 30)). lia.
Qed.

Section boot_props.
Context {D : Device} (l1_addr : Z).

(** The registers and the table that [mmu_init] leaves. *)
Record mmu_on (sctlr0 : Z) (s : board) : Prop := {
  mo_mair : mair_el1 (b_cpu s) = 0x4400;
  mo_tcr : tcr_el1 (b_cpu s) = 0x200800020;
  mo_ttbr : ttbr0_el1 (b_cpu s) = l1_addr;
  mo_sctlr : sctlr_el1 (b_cpu s) = Z.lor (Z.lor sctlr0 1) 0x1000;
  mo_table : take 4 (g_l1_table s) = [0x405; 0x40000405; 0x80000405; 0xC0000401] }.

Lemma setL1_run i v t k s {A} (f : unit -> M board A) :
  g_l1_table s = t -> 0 <= i < Z.of_nat (length t) -> Z.to_nat i = k ->
  (setL1 i v ≫= f) s = f tt (Board (b_bus s) (b_cpu s) (<[k := v]> t)).
Proof. intros <- Hi <-. unfold setL1, wrb, mbind, M_bind, gets, of_opt, get_opt, modify. by rewrite bool_decide_true. Qed.

Lemma mmu_init_run s :
  length (g_l1_table s) = 512%nat ->
  exists s', mmu_init l1_addr s = Some (tt, s') /\ b_bus s' = b_bus s /\ length (g_l1_table s') = 512%nat /\ mmu_on (sctlr_el1 (b_cpu s)) s'.
Proof.
  intros Hl. destruct s as [b [m t tt0 sc el] l]. cbn [g_l1_table] in Hl. do 4 (destruct l as [|? l]; [done|]).
  unfold mmu_init. do 4 (erewrite setL1_run; [|reflexivity|cbn [g_l1_table] in *; rewrite ?length_insert; cbn [length] in *; lia|reflexivity]).
  cbn [b_bus b_cpu g_l1_table]. repeat match goal with |- context [DESC_BLOCK_NORMAL_NC ?a] => let v := eval vm_compute in (DESC_BLOCK_NORMAL_NC a) in
    change (DESC_BLOCK_NORMAL_NC a) with v end.
  change (DESC_BLOCK_DEVICE 0xC0000000) with 0xC0000401. cbn [list_insert insert].
  cbv zeta. set (m1 := Z.lor (u64 _) _). set (t1 := Z.lor (Z.lor 32 _) _). change (bitu 64 0) with 1. change (bitu 64 12) with 0x1000.
  assert (m1 = 0x4400) as Em by (vm_compute; reflexivity). assert (t1 = 0x200800020) as Et by (vm_compute; reflexivity). clearbody m1 t1. subst m1 t1.
  eexists. split; [reflexivity|]. cbn [b_bus b_cpu g_l1_table mair_el1 tcr_el1 ttbr0_el1 sctlr_el1 CurrentEL] in *. split; [reflexivity|]. split; [exact Hl|]. constructor; reflexivity.
Qed.

Lemma mmu_on_translate sctlr0 s va :
  0 <= l1_addr < 2 ^ 48 -> l1_addr mod 4096 = 0 -> mmu_on sctlr0 s ->
  translate (b_cpu s) (mem64 l1_addr s) va = flat_map (Z.testbit sctlr0 19) va.
Proof.
  intros Ha Hal [Hm Ht Hb Hs Htab]. unfold translate, flat_map. rewrite Hs, Ht, Hb.
  assert (Z.testbit (Z.lor (Z.lor sctlr0 1) 0x1000) 0 = true) as -> by (rewrite !Z.lor_spec; by rewrite orb_true_r).
  change (negb true) with false. change (field 0x200800020 0 6) with 32. change (field 0x200800020 14 2) with 0.
  change (Z.testbit 0x200800020 23) with true. change (Z.testbit 0x200800020 7) with false. change (Z.testbit 0x200800020 37) with false.
  change (2 ^ (64 - 32)) with 0x100000000. cbn [negb andb Z.leb Z.eqb Z.compare Pos.compare Pos.compare_cont].
  destruct (Z.ltb_spec va 0) as [|H0]; [done|]. cbn [orb].
  destruct (Z.lt_ge_cases va 0x100000000) as [H4|H4]; cycle 1.
  { rewrite !(proj2 (Z.ltb_ge va _)) by lia. by destruct (2 ^ 64 <=? va), (Z.testbit va 55). }
  rewrite (proj2 (Z.leb_gt _ va)), (testbit_high 32 va 55), (proj2 (Z.ltb_lt va 0x100000000)) by (unfold in_u; lia).
  assert (Z.shiftl (field l1_addr 12 36) 12 = l1_addr) as ->.
  { unfold field. rewrite Z.land_ones, Z.shiftr_div_pow2, Z.shiftl_mul_pow2 by lia. change (2 ^ 12) with 4096.
    rewrite Z.mod_small; [pose proof (Z.div_mod l1_addr 4096); lia|]. split; [apply Z.div_pos; lia|apply Z.div_lt_upper_bound; lia]. }
  assert (forall k desc m, (k < 4)%nat -> Z.of_nat k * 2 ^ 30 <= va < (Z.of_nat k + 1) * 2 ^ 30 ->
    take 4 (g_l1_table s) !! k = Some desc -> block_map (b_cpu s) desc va = m ->
    match mem64 l1_addr s (l1_addr + 8 * Z.shiftr va 30) with Some desc => block_map (b_cpu s) desc va | None => Unfollowed end = m) as Hrow.
  { intros k desc m Hk Hv Hd Hm'. rewrite (shiftr_range va 30 (Z.of_nat k)) by lia. unfold mem64, rdb.
    replace (l1_addr + 8 * Z.of_nat k - l1_addr) with (Z.of_nat k * 8) by lia. rewrite Z.mod_mul, Z.div_mul by done.
    rewrite (proj2 (Z.leb_le _ _)), (proj2 (Z.ltb_ge _ _)), Nat2Z.id by lia. rewrite lookup_take_lt in Hd by done. cbn [andb Z.eqb]. by rewrite Hd. }
  assert (forall k desc, 0 <= k < 4 -> k * 2 ^ 30 <= va < (k + 1) * 2 ^ 30 -> field desc 30 18 = k -> field desc 0 2 = 1 -> Z.testbit desc 10 = true ->
    Z.testbit desc 7 = false -> Z.testbit desc 53 = false -> Z.testbit desc 6 = false ->
    block_map (b_cpu s) desc va = Maps (Mapping va (mair_type 0x4400 (field desc 2 3)) true (negb (Z.testbit sctlr0 19)))) as Hblock.
  { intros k desc Hk Hv B1 B2 B3 B4 B5 B6. unfold block_map. rewrite B1, block_addr, B2, B3, B4, B5, B6, Hm, Ht, Hs by lia.
    change (pa_bits (field 0x200800020 32 3)) with 40. rewrite (proj2 (Z.ltb_lt va (2 ^ 40))) by lia.
    cbn [andb negb Z.eqb Pos.eqb]. by rewrite !Z.lor_spec, !orb_false_r, andb_true_r. }
  destruct (Z.ltb_spec va 0xC0000000) as [H3|H3].
  - destruct (Z.ltb_spec va 0x40000000); [|destruct (Z.ltb_spec va 0x80000000)].
    + eapply (Hrow 0%nat); [lia|lia|by rewrite Htab|]. by apply (Hblock 0); try lia.
    + eapply (Hrow 1%nat); [lia|lia|by rewrite Htab|]. by apply (Hblock 1); try lia.
    + eapply (Hrow 2%nat); [lia|lia|by rewrite Htab|]. by apply (Hblock 2); try lia.
  - eapply (Hrow 3%nat); [lia|lia|by rewrite Htab|]. by apply (Hblock 3); try lia.
Qed.

(** RAM after [mmu_init], unless alignment checks are on. *)
Lemma mmu_on_access sctlr0 s va n :
  0 <= l1_addr < 2 ^ 48 -> l1_addr mod 4096 = 0 -> mmu_on sctlr0 s -> Z.testbit sctlr0 1 = false ->
  0 <= va -> 0 < n -> va + n <= 0xC0000000 -> access_ok (b_cpu s) (mem64 l1_addr s) va n = true.
Proof.
  intros Ha Hal Hon HA Hv Hn Hr. unfold access_ok. rewrite !(mmu_on_translate sctlr0 s) by done. unfold flat_map.
  rewrite !(proj2 (Z.ltb_ge _ 0)), !(proj2 (Z.ltb_lt _ 0xC0000000)) by lia. cbn [mtype]. rewrite (mo_sctlr _ _ Hon).
  assert (Z.testbit (Z.lor (Z.lor sctlr0 1) 0x1000) 1 = false) as -> by (by rewrite !Z.lor_spec, HA). apply orb_true_r.
Qed.
(** Before it, an unaligned access faults. *)
Lemma mmu_off_unaligned c mem va n : 0 <= va -> 0 < n -> va + n <= 2 ^ 64 -> Z.testbit (sctlr_el1 c) 0 = false -> va mod n <> 0 -> access_ok c mem va n = false.
Proof.
  intros H0 Hn Hr Hm Hv. unfold access_ok, translate.
  rewrite !(proj2 (Z.ltb_ge _ 0)), !(proj2 (Z.leb_gt (2 ^ 64) _)) by lia. rewrite Hm. cbn [orb negb mtype]. rewrite (proj2 (Z.eqb_neq _ _)) by done.
  cbn [orb]. apply andb_false_r.
Qed.

(** C39: The address space of the board: after mmu_init every address below 4 GB
    maps to itself and every other 64-bit address faults, those that TTBR1 would
    translate included, because its walks are disabled; the low 3 GB are Normal
    non-cacheable memory and the top GB, with the peripherals and the interrupt
    controller, is Device memory, both writable at EL1.  Unless alignment checks
    were on, every access within RAM goes through, aligned or not. *)
Theorem mmu_identity_map s :
  0 <= l1_addr < 2 ^ 48 -> l1_addr mod 4096 = 0 -> length (g_l1_table s) = 512%nat ->
  exists s', mmu_init l1_addr s = Some (tt, s') /\ b_bus s' = b_bus s /\
    (forall va, translate (b_cpu s') (mem64 l1_addr s') va = flat_map (Z.testbit (sctlr_el1 (b_cpu s)) 19) va) /\
    (Z.testbit (sctlr_el1 (b_cpu s)) 1 = false -> forall va n, 0 <= va -> 0 < n -> va + n <= 0xC0000000 ->
       access_ok (b_cpu s') (mem64 l1_addr s') va n = true).
Proof.
  intros Ha Hal Hl. destruct (mmu_init_run s Hl) as (s' & E & Hb & _ & Hon). exists s'. split; [done|]. split; [done|].
  split; [intros va; by apply mmu_on_translate|]. intros. by eapply mmu_on_access.
Qed.

(** ** The way to main *)

(** The console, with the registers of [uart_init] the device's. *)
Definition boot_console (pmr : Z) (b : bus) : Prop :=
  console pmr b /\ Forall (fun a => regs b !! a = None) [UART0_IBRD; UART0_FBRD; UART0_LCRH; UART0_CR; UART0_ICR].

(** [c] returns for any hardware; both UARTs got the same text, under the mask. *)
Definition talks {A} (pmr : Z) (c : M bus A) : Prop := forall b, boot_console pmr b -> exists a b' w,
  c b = Some (a, b') /\ regs b' = regs b /\ trace b' = trace b ++ w /\
  sent UART0_DR w = sent AUX_MU_IO w /\ masked_run pmr w = Some pmr.

Lemma boot_console_regs pmr b b' : regs b' = regs b -> boot_console pmr b -> boot_console pmr b'.
Proof. unfold boot_console, console. by intros ->. Qed.
Lemma talks_ret {A} pmr (a : A) : talks pmr (mret a).
Proof. intros b _. exists a, b, []. by rewrite app_nil_r. Qed.
Lemma talks_bind {A B} pmr (c : M bus A) (k : A -> M bus B) : talks pmr c -> (forall a, talks pmr (k a)) -> talks pmr (c ≫= k).
Proof.
  intros Hc Hk b Hb. destruct (Hc b Hb) as (a & b1 & w1 & E1 & R1 & T1 & S1 & M1).
  destruct (Hk a b1) as (x & b2 & w2 & E2 & R2 & T2 & S2 & M2); [by eapply boot_console_regs|].
  exists x, b2, (w1 ++ w2). rewrite (bind_eq _ _ _ _ _ E1), T2, T1, !sent_app, masked_run_app, M1, app_assoc.
  split_and!; [done|congruence|done|congruence|done].
Qed.
Lemma talks_emits {A} pmr (c : M bus A) a t : emits pmr c a t -> talks pmr c.
Proof. intros H b [Hb _]. destruct (H b Hb) as (b' & w & E & R & T & S1 & S2 & Hm & _). exists a, b', w. split_and!; congruence. Qed.
#[local] Strategy 100 [dbg_putc].
Lemma emits_dbg_puts pmr s : bytes s -> 0 ∈ s -> emits pmr (dbg_puts s) tt (upto0 s ≫= crlf).
Proof. exact (emits_puts pmr s). Qed.
Lemma talks_puts pmr s : bytes s -> 0 ∈ s -> talks pmr (dbg_puts s).
Proof. intros Hs H0. eapply talks_emits. by apply emits_dbg_puts. Qed.
Lemma talks_read pmr a : talks pmr (mmio_read32 a).
Proof. intros b _. destruct (mmio_read_ok a b) as (v & b' & E & R & T). exists v, b', []. by rewrite app_nil_r. Qed.
Lemma talks_write pmr a v : a ∈ [UART0_IBRD; UART0_FBRD; UART0_LCRH; UART0_CR; UART0_ICR] -> talks pmr (mmio_write32 a v).
Proof.
  intros Ha b [_ Hb]. rewrite Forall_forall in Hb. eexists tt, _, [(a, v)]. split; [by apply mmio_write_dev, Hb|].
  cbn [regs trace]. split_and!; [done|done|..]; repeat (apply elem_of_cons in Ha as [-> | Ha]; [reflexivity|]); by apply elem_of_nil in Ha.
Qed.
Lemma talks_hex pmr v : pmr <= GIC_PRIO_KERNEL -> talks pmr (dbg_hex v).
Proof.
  intros Hp. assert (forall c, talks pmr (dbg_putc c)) as Hc by (intros c; eapply talks_emits; by apply emits_putc).
  unfold dbg_hex. apply talks_bind; [apply Hc|intros _]. apply talks_bind; [apply Hc|intros _].
  generalize 16%nat. induction n as [|n IH]; cbn [hex_digits]; [apply talks_ret|].
  destruct (lookup_lt_is_Some_2 (lit "0123456789abcdef") (Z.to_nat (Z.land (Z.shiftr v (4 * Z.of_nat n)) 15))) as [c Ec].
  { rewrite (land_mask 4 _ 15) by done. pose proof (Z.mod_pos_bound (Z.shiftr v (4 * Z.of_nat n)) (2 ^ 4) ltac:(done)). change (length _) with 17%nat. lia. }
  assert (rdb (lit "0123456789abcdef") (Z.land (Z.shiftr v (4 * Z.of_nat n)) 15) = Some c) as ->.
  { unfold rdb. rewrite (proj2 (Z.ltb_ge _ 0)); [done|]. apply Z.land_nonneg. by right. }
  apply talks_bind; [exact (talks_ret pmr c)|intros x]. apply talks_bind; [apply Hc|intros _]. exact IH.
Qed.

Create HintDb talks.
#[local] Hint Resolve talks_read talks_hex : talks.
#[local] Hint Extern 1 (talks _ (dbg_puts _)) => apply talks_puts; compute_done : talks.
#[local] Hint Extern 1 (talks _ (mmio_write32 _ _)) => apply talks_write; compute_done : talks.

Lemma talks_uart_init pmr : pmr <= GIC_PRIO_KERNEL -> talks pmr uart_init.
Proof. intros Hp. unfold uart_init. repeat (apply talks_bind; [solve [eauto with talks]|intros ?]). eauto with talks. Qed.

(** Code of the board that only talks. *)
Definition talks_only {A} (pmr : Z) (c : M board A) : Prop := forall s, boot_console pmr (b_bus s) -> exists a b' w,
  c s = Some (a, Board b' (b_cpu s) (g_l1_table s)) /\ regs b' = regs (b_bus s) /\ trace b' = trace (b_bus s) ++ w /\
  sent UART0_DR w = sent AUX_MU_IO w /\ masked_run pmr w = Some pmr.
Lemma talks_onBus {A} pmr (c : M bus A) : talks pmr c -> talks_only pmr (onBus c).
Proof.
  intros H [b cp l] Hb. destruct (H b Hb) as (a & b' & w & E & Hr). exists a, b', w. split; [|done]. unfold onBus, zoom. cbn. by rewrite E.
Qed.
Lemma talks_only_bind {A B} pmr (c : M board A) (k : A -> M board B) : talks_only pmr c -> (forall a, talks_only pmr (k a)) -> talks_only pmr (c ≫= k).
Proof.
  intros Hc Hk s Hb. destruct (Hc s Hb) as (a & b1 & w1 & E1 & R1 & T1 & S1 & M1).
  destruct (Hk a (Board b1 (b_cpu s) (g_l1_table s))) as (x & b2 & w2 & E2 & R2 & T2 & S2 & M2); [by eapply boot_console_regs|].
  cbn [b_bus b_cpu g_l1_table] in *. exists x, b2, (w1 ++ w2). rewrite (bind_eq _ _ _ _ _ E1), T2, T1, !sent_app, masked_run_app, M1, app_assoc.
  split_and!; [done|congruence|done|congruence|done].
Qed.
Lemma boot_pre_talks pmr : pmr <= GIC_PRIO_KERNEL -> talks_only pmr boot_pre.
Proof.
  intros Hp. unfold boot_pre. do 2 (apply talks_only_bind; [apply talks_onBus; solve [eauto with talks]|intros ?]).
  apply talks_only_bind; [|intros el].
  { intros s _. eexists _, (b_bus s), []. rewrite app_nil_r. split; [by destruct s|done]. }
  do 2 (apply talks_only_bind; [apply talks_onBus; solve [eauto with talks]|intros ?]).
  apply talks_only_bind; [by apply talks_onBus, talks_uart_init|intros _]. apply talks_onBus. eauto with talks.
Qed.

(** The messages after the MMU is on. *)
Definition banner : list Z :=
  ((chars "[boot] MMU on" ++ [10]) ≫= crlf) ++ ([10] ≫= crlf) ++ ((chars "========================================" ++ [10]) ≫= crlf) ++
  ((chars "  FlintRTOS  -  Raspberry Pi 4 (AArch64)" ++ [10]) ≫= crlf) ++ ((chars "  lean . secure . safe" ++ [10]) ≫= crlf) ++
  ((chars "========================================" ++ [10]) ≫= crlf) ++ ((chars "[boot] board init complete; calling main()" ++ [10]) ≫= crlf).
(** Code of the board that prints [t]. *)
Definition says (pmr : Z) (c : M board unit) (t : list Z) : Prop := forall s, console pmr (b_bus s) -> exists b' w,
  c s = Some (tt, Board b' (b_cpu s) (g_l1_table s)) /\ regs b' = regs (b_bus s) /\ trace b' = trace (b_bus s) ++ w /\
  sent UART0_DR w = t /\ sent AUX_MU_IO w = t /\ masked_run pmr w = Some pmr.
Lemma says_emits pmr (c : M bus unit) t : emits pmr c tt t -> says pmr (onBus c) t.
Proof.
  intros H s Hb. destruct (H _ Hb) as (b' & w & E & R & T & S & U & Hm & _). exists b', w. split; [|done]. unfold onBus, zoom. by rewrite E.
Qed.
Lemma says_then pmr (c d : M board unit) t t' : says pmr c t -> says pmr d t' -> says pmr (c;; d) (t ++ t').
Proof.
  intros Hc Hk s Hb. destruct (Hc _ Hb) as (b1 & w1 & E1 & R1 & T1 & S1 & U1 & M1).
  destruct (Hk (Board b1 (b_cpu s) (g_l1_table s))) as (b2 & w2 & E2 & R2 & T2 & S2 & U2 & M2); [cbn; unfold console in *; by rewrite R1|].
  cbn [b_bus b_cpu g_l1_table] in *. exists b2, (w1 ++ w2).
  rewrite (bind_eq _ _ _ _ _ E1), T2, T1, !sent_app, masked_run_app, M1, app_assoc. split_and!; [done|congruence|done|congruence..|done].
Qed.
Lemma boot_post_says pmr : says pmr boot_post banner.
Proof.
  unfold boot_post, banner. apply says_then; [apply says_emits; apply emits_dbg_puts; compute_done|].
  repeat (apply says_then; [apply says_emits; apply emits_puts; compute_done|]). apply says_emits, emits_puts; compute_done.
Qed.

(** The boot reaches main on any hardware: whatever the UARTs answer, the
    messages before the call of main are printed whole on both, the last of them
    the banner, and main starts in the address space of [flat_map]. *)
Theorem boot_reaches_main (main : M board Z) pmr s :
  0 <= l1_addr < 2 ^ 48 -> l1_addr mod 4096 = 0 -> length (g_l1_table s) = 512%nat ->
  boot_console pmr (b_bus s) -> pmr <= GIC_PRIO_KERNEL ->
  exists s1 t w, flint_boot l1_addr main s = (_ ← main; onBus (uart_puts (chars "[boot] main() returned; halting." ++ [10; 0]))) s1 /\
    trace (b_bus s1) = trace (b_bus s) ++ w /\ sent UART0_DR w = t ++ banner /\ sent AUX_MU_IO w = t ++ banner /\ masked_run pmr w = Some pmr /\
    forall va, translate (b_cpu s1) (mem64 l1_addr s1) va = flat_map (Z.testbit (sctlr_el1 (b_cpu s)) 19) va.
Proof.
  intros Ha Hal Hl Hb Hp. destruct (boot_pre_talks pmr Hp s Hb) as ([] & b1 & w1 & E1 & R1 & T1 & S1 & M1).
  destruct (mmu_init_run (Board b1 (b_cpu s) (g_l1_table s)) Hl) as (s2 & E2 & B2 & _ & Hon). cbn [b_bus b_cpu] in *.
  destruct (boot_post_says pmr s2) as (b3 & w3 & E3 & R3 & T3 & S3 & U3 & M3);
    [rewrite B2; eapply (boot_console_regs pmr (b_bus s)); done|]. rewrite B2 in *.
  exists (Board b3 (b_cpu s2) (g_l1_table s2)), (sent UART0_DR w1), (w1 ++ w3). cbn [b_bus b_cpu]. split.
  - unfold flint_boot. rewrite (bind_eq _ _ _ _ _ E1), (bind_eq _ _ _ _ _ E2), (bind_eq _ _ _ _ _ E3). done.
  - rewrite T3, T1, !sent_app, masked_run_app, M1, S3, U3, <- S1, <- app_assoc. split_and!; try done.
    intros va. by apply (mmu_on_translate (sctlr_el1 (b_cpu s)) s2).
Qed.
End boot_props.

(** Every register block the drivers use is in the Device part of the address
    space. *)
Lemma peripherals_are_device wxn a : 0xFC000000 <= a < 0x100000000 -> flat_map wxn a = Maps (Mapping a Device_nGnRnE true (negb wxn)).
Proof. intros Ha. unfold flat_map. repeat case_match; (done || lia). Qed.

Definition demo_board : board := Board (mkBus {[GICC_PMR_REG := 0]} 0 []) (Cpu 0 0 0 0x30d00800 4) (replicate 512 0).
Lemma mmu_identity_map_witness :
  exists s', mmu_init 0x80000 demo_board = Some (tt, s') /\
    translate (b_cpu s') (mem64 0x80000 s') 0xFE201000 = Maps (Mapping 0xFE201000 Device_nGnRnE true true) /\
    translate (b_cpu s') (mem64 0x80000 s') 0xFFFFFFFFFFFFF000 = Fault /\ access_ok (b_cpu s') (mem64 0x80000 s') 0x80001 4 = true.
Proof.
  destruct (mmu_identity_map 0x80000 demo_board) as (s' & E & _ & Ht & Hac); [done|done|done|].
  exists s'. split; [exact E|]. split; [rewrite Ht; reflexivity|]. split; [rewrite Ht; reflexivity|]. apply Hac; [reflexivity|done..].
Defined.
