(* ===== verification/PtpRaw.v ===== *)
(** * The PTP slave over lwIP's raw UDP (src/port/ptp/ptp_lwip_raw.c)

    The receive callback, the transmit callback, the start and the poll of the
    NO_SYS binding, over the engine of PtpCore, the interface of NetIf and the
    GENET driver.  lwIP's UDP layer is a parameter [Udp]: sending runs down to
    the driver before it returns, so it acts on the whole state; the module's
    static variables and the engine live in lwIP's task, in [app]. *)

From S2P Require Import Prelude CInt CStr Mmio Uart GenetRegs Genet NetIf PtpTime PtpMsg PtpClock PtpServo PtpUtil PtpCore.

Definition PTP_MAX_MSG : Z := 128.
Definition PTP_MCAST_ADDR : list Z := lit "224.0.1.129".

(** The static variables, with those of ptp_core.c. *)
Record praw := PRaw { s_ev : Z; s_gen : Z; s_mcast : Z; s_started : bool; engine : ptp }.
Definition set_engine (e : ptp) (a : praw) : praw := PRaw (s_ev a) (s_gen a) (s_mcast a) (s_started a) e.

(** A transmit callback that always answers [o]. *)
Definition answer (o : option Z) : PtpTx := fun _ => o.

(** lwIP's UDP and IGMP; a pcb is a handle, 0 is NULL, an address a number. *)
Class Udp (LW : Type) := {
  app : LW -> praw;
  set_app : praw -> LW -> LW;
  pbuf_alloc_ram : Z -> M LW Z;
  udp_new : M LW Z;
  udp_bind : Z -> Z -> M LW Z;
  udp_remove : Z -> M LW unit;
  udp_set_multicast_ttl : Z -> Z -> M LW unit;
  udp_recv : Z -> Z -> Z -> M LW unit;
  udp_sendto : Z -> Z -> Z -> Z -> M (nsys LW) Z;
  igmp_joingroup_netif : Z -> M (nsys LW) Z;
  ipaddr_aton : list Z -> Z }.

Section raw.
Context {D : Device} {GH : GenetHw} {LW : Type} {ST : Stack LW} {UD : Udp LW} {HW : PtpHw}.
Abbreviation N := (M (nsys LW)).

Definition onApp {A} (c : M praw A) : N A := onLw (zoom app set_app c).
Definition getApp {A} (f : praw -> A) : N A := gets (fun s => f (app (n_lw s))).
Definition onEngine {A} (c : M ptp A) : N A := onApp (zoom engine set_engine c).
Definition printf (fmt : list Z) (ap : list uart_arg) : N unit :=
  onHw (zoom fst (fun b h => (b, h.2)) (uart_printf fmt ap)).

(** [buf] is the uninitialised local array. *)
Definition rx_cb (buf : list Z) (arg p : Z) : N unit :=
  if p =? 0 then mret tt
  else
    c ← get_opt (fun s => pbuf_get (n_lw s) p);
    r ← of_opt (pbuf_copy_partial c buf PTP_MAX_MSG 0);
    stamp ← flint_netif_rx_stamp;
    onEngine (ptp_core_rx r.1 r.2 (u16 arg) stamp);;
    onLw (pbuf_free p).

(** The result, and what is stored in [*tx_cnt]. *)
Definition tx_fn (port : Z) (buf : list Z) (len : Z) : N (bool * option Z) :=
  p ← onLw (pbuf_alloc_ram len);
  if p =? 0 then mret (false, None)
  else
    c ← get_opt (fun s => pbuf_get (n_lw s) p);
    r ← of_opt (pbuf_take c buf len);
    onLw (modify (pbuf_put p r.2));;
    pcb ← (if port =? PTP_EVENT_PORT then getApp s_ev else getApp s_gen);
    ip ← getApp s_mcast;
    err ← udp_sendto pcb p ip port;
    cnt ← flint_netif_tx_stamp;
    onLw (pbuf_free p);;
    mret (err =? ERR_OK, Some cnt).

Context (rx_cb_addr : Z).

Definition open_port (port : Z) : N Z :=
  pcb ← onLw udp_new;
  if pcb =? 0 then mret 0
  else
    e ← onLw (udp_bind pcb port);
    if negb (e =? ERR_OK) then onLw (udp_remove pcb);; mret 0
    else
      onLw (udp_set_multicast_ttl pcb 1);;
      onLw (udp_recv pcb rx_cb_addr port);;
      mret pcb.

(** [hwaddr] is the interface's hardware address. *)
Definition ptp_raw_start (hwaddr : list Z) : N bool :=
  started ← getApp s_started;
  if (started : bool) then mret true
  else
    onApp (modify (fun a => PRaw (s_ev a) (s_gen a) (ipaddr_aton PTP_MCAST_ADDR) (s_started a) (engine a)));;
    ev ← open_port PTP_EVENT_PORT;
    onApp (modify (fun a => PRaw ev (s_gen a) (s_mcast a) (s_started a) (engine a)));;
    gen ← open_port PTP_GENERAL_PORT;
    onApp (modify (fun a => PRaw (s_ev a) gen (s_mcast a) (s_started a) (engine a)));;
    if (ev =? 0) || (gen =? 0) then
      printf (chars "[ptp] UDP 319/320 bind failed" ++ [10; 0]) [];;
      mret false
    else
      ip ← getApp s_mcast;
      ig ← igmp_joingroup_netif ip;
      printf (chars "[ptp] UDP 319/320 open, IGMP join %s -> %s" ++ [10; 0])
        [UaStr PTP_MCAST_ADDR; UaStr (if ig =? ERR_OK then lit "ok" else lit "FAILED")];;
      onEngine (ptp_core_init hwaddr 0 true);;
      printf (chars "[ptp] listening for a master (Announce)... start ptp4l on the LAN" ++ [10; 0]) [];;
      onApp (modify (fun a => PRaw (s_ev a) (s_gen a) (s_mcast a) true (engine a)));;
      mret true.

(** The engine's poll with [tx_fn] as its transmit callback.  It transmits at
    most once, and what it transmits does not depend on the callback's answer,
    so the message is found by a run whose callback fails, sent, and the poll
    run with the answer. *)
Definition engine_poll (now : Z) : N unit :=
  e ← getApp engine;
  match ptp_core_poll (TX := answer None) now e with
  | None => fails
  | Some (_, e0) =>
      match drop (length (sent e)) (sent e0) with
      | [] => onEngine (ptp_core_poll (TX := answer None) now)
      | (port, buf) :: _ =>
          r ← tx_fn port buf (Z.of_nat (length buf));
          let '(ok, tx_cnt) := r : bool * option Z in
          onEngine (ptp_core_poll (TX := answer (if ok then tx_cnt else None)) now)
      end
  end.
Definition ptp_raw_poll (now_ms : Z) : N unit :=
  started ← getApp s_started;
  if (started : bool) then engine_poll now_ms else mret tt.

Definition ptp_raw_running : N bool := getApp s_started.
End raw.
