(* ===== verification/PtpRawProps.v ===== *)
(** * PTP messages carry the driver's timestamps

    The NO_SYS binding of the slave: a received message reaches the engine, from
    the receive ring, with the driver's stamp of its own frame, and the Delay_Req's send time is the stamp of
    the frame that carried it. *)

From S2P Require Import Prelude CInt CStr Decimal Mmio Uart UartProps GenetRegs Genet GenetRx GenetProps NetIf NetIfProps PtpTime PtpMsg PtpClock PtpServo PtpUtil PtpCore PtpBmc PtpInv PtpRaw.

(** ** The engine's poll and its transmit callback *)

(** The engine after a Delay_Req that the callback stamped [cnt]. *)
Definition stamped (e : ptp) (t3 : Z) : ptp :=
  mkPtp (clk e) (set_dreq (mkDreq (dreq_due (dreq (g e))) true (dreq_seq (dreq (g e))) t3 (ptp_clock_epoch (clk e)) (last_dreq_ms (dreq (g e)))) (g e))
    (sent e) (logs e).

Section engine.
Context {HW : PtpHw}.

Lemma send_delay_req_answers e e0 :
  tx (g e) = true -> send_delay_req (TX := answer None) e = Some (tt, e0) ->
  (exists buf, sent e0 = sent e ++ [(PTP_EVENT_PORT, buf)]) /\
  forall cnt t3, ptp_clock_from_cnt (clk e0) cnt = Some t3 -> send_delay_req (TX := answer (Some cnt)) e = Some (tt, stamped e0 t3).
Proof.
  intros Htx. unfold send_delay_req, onC, zoom, mbind, M_bind.
  destruct (ptp_clock_now (clk e)) as [ [t c1]|] eqn:Ec; [|done]. unfold onG, getG, gets, modify. cbn [g clk sent logs set_dreq self dreq tx].
  unfold of_opt, get_opt. destruct (ptp_pack_delay_req _ _ _ _) as [pk|]; [|done]. cbn [fmap option_fmap option_map snd g tx set_dreq]. rewrite Htx.
  unfold call_tx, gets, modify, mbind, M_bind, mret, M_ret. cbn [g clk sent logs tx_result answer set_dreq dreq mret].
  intros [= <-]. cbn [sent clk g]. split; [by eexists|]. intros cnt t3 Ht3. rewrite Ht3. cbn. reflexivity.
Qed.

(** A poll sends nothing or ends in [send_delay_req]. *)
Lemma poll_cases now e :
  (exists e0, sent e0 = sent e /\ forall TX, ptp_core_poll (TX := TX) now e = Some (tt, e0)) \/
  (exists e1, tx (g e1) = tx (g e) /\ sent e1 = sent e /\ forall TX, ptp_core_poll (TX := TX) now e = send_delay_req (TX := TX) e1).
Proof.
  unfold ptp_core_poll, getG, onG, gets, modify, mbind, M_bind. cbn [g clk sent logs].
  destruct (have_master _ && _); [left; eexists; split; [|intros TX; cbn; reflexivity]; reflexivity|].
  destruct (dreq_due _ && _ && _); [right; eexists; split; [|split; [|intros TX; reflexivity] ]; reflexivity|].
  left. eexists. split; [|intros TX; reflexivity]. reflexivity.
Qed.

(** A poll transmits at most one message, whatever the callback answers, and a
    stamp it answers becomes the time of the request. *)
Lemma poll_answers now e e0 :
  tx (g e) = true -> ptp_core_poll (TX := answer None) now e = Some (tt, e0) ->
  sent e0 = sent e \/
  (exists buf, sent e0 = sent e ++ [(PTP_EVENT_PORT, buf)]) /\
  forall cnt t3, ptp_clock_from_cnt (clk e0) cnt = Some t3 -> ptp_core_poll (TX := answer (Some cnt)) now e = Some (tt, stamped e0 t3).
Proof.
  intros Htx. destruct (poll_cases now e) as [(e1 & Hs & Hp)|(e1 & Ht & Hs & Hp)]; rewrite !Hp; [intros [= <-]; by left|].
  intros E. right. rewrite <- Hs. setoid_rewrite Hp. apply send_delay_req_answers; [congruence|done].
Qed.
End engine.

(** ** Messages in a longer buffer *)

Lemma rdb_more {A} (m r : list A) i v : rdb m i = Some v -> rdb (m ++ r) i = Some v.
Proof. unfold rdb. case_match; [done|]. apply lookup_app_l_Some. Qed.
Lemma rd16_more m r o v : rd16 m o = Some v -> rd16 (m ++ r) o = Some v.
Proof.
  unfold rd16. destruct (rdb m o) eqn:E1; [|done]. destruct (rdb m (o + 1)) eqn:E2; [|done]. by rewrite !(rdb_more m r _ _) by done.
Qed.
Lemma cmp_loop_more m r o b ob n v : cmp_loop m o b ob n = Some v -> cmp_loop (m ++ r) o b ob n = Some v.
Proof.
  revert o ob. induction n as [|n IH]; intros o ob; cbn [cmp_loop]; [done|]. destruct (rdb m o) eqn:E; [|done]. rewrite (rdb_more m r _ _ E).
  rewrite !obind_some. destruct (rdb b ob); [|done]. rewrite !obind_some. case_match; [done|apply IH].
Qed.
Lemma be_loop_more m r o n acc v : be_loop m o n acc = Some v -> be_loop (m ++ r) o n acc = Some v.
Proof.
  revert o acc. induction n as [|n IH]; intros o acc; cbn [be_loop]; [done|]. destruct (rdb m o) eqn:E; [|done]. rewrite (rdb_more m r _ _ E).
  rewrite !obind_some. apply IH.
Qed.
Lemma rd_corr_more m r v : rd_corr_ns m = Some v -> rd_corr_ns (m ++ r) = Some v.
Proof. unfold rd_corr_ns. destruct (be_loop m 8 8 0) eqn:E; [|done]. by rewrite (be_loop_more m r _ _ _ _ E). Qed.

(** A two-step Sync of the selected master for this engine. *)
Record two_step_sync (e : ptp) (msg : list Z) (seq corr : Z) : Prop := {
  ts_len : 44 <= Z.of_nat (length msg) <= 128;
  ts_ver : exists b, rdb msg 1 = Some b /\ Z.land b 15 = 2;
  ts_dom : rdb msg 4 = Some (domainNumber (self (g e)));
  ts_own : exists c, cmp_bytes msg 20 (self_id (g e)) 0 10 = Some c /\ c <> 0;
  ts_type : exists b, rdb msg 0 = Some b /\ Z.land b 15 = PTP_SYNC;
  ts_have : have_master (mst (g e)) = true;
  ts_from : cmp_bytes msg 20 (port_id (master (mst (g e)))) 0 10 = Some 0;
  ts_seq : rd16 msg 30 = Some seq;
  ts_corr : rd_corr_ns msg = Some corr;
  ts_flag : exists b, rdb msg 6 = Some b /\ Z.land b 2 <> 0 }.

Section sync.
Context {HW : PtpHw}.

(** The engine keeps the stamp and the clock's time at the stamp, and waits for
    the Follow_Up. *)
Lemma rx_two_step e msg rest cnt t2 seq corr :
  two_step_sync e msg seq corr -> ptp_clock_from_cnt (clk e) cnt = Some t2 ->
  ptp_core_rx (msg ++ rest) (Z.of_nat (length msg)) PTP_EVENT_PORT cnt e =
  Some (tt, mkPtp (clk e) (set_syn (mkSync true seq cnt t2 corr (ptp_clock_epoch (clk e))) (g e)) (sent e) (logs e)).
Proof.
  intros [Hl (b1 & V1 & V2) Hd (c & O1 & O2) (b0 & T1 & T2) Hh Hf Hs Hc (b6 & F1 & F2)] Ht2. unfold ptp_core_rx, PTP_HEADER_LENGTH.
  rewrite (proj2 (Z.ltb_ge _ 34)) by lia. erewrite opt_run by (by apply rdb_more). rewrite V2. cbn [Z.eqb Pos.eqb negb].
  erewrite opt_run by (by apply rdb_more). unfold getG. rewrite gets_run, Z.eqb_refl. cbn [negb]. rewrite gets_run.
  erewrite opt_run by (by apply cmp_loop_more). rewrite (proj2 (Z.eqb_neq c 0) O2). erewrite opt_run by (by apply rdb_more).
  rewrite T2. rewrite Z.eqb_refl. change (PTP_SYNC =? PTP_SYNC) with true. cbv match.
  erewrite bind_eq; [|unfold from_master, getG; rewrite gets_run, Hh; erewrite opt_run by (by apply cmp_loop_more); reflexivity].
  change (0 =? 0) with true. cbv match. unfold handle_sync, SYNC_LEN. rewrite (proj2 (Z.ltb_ge _ 44)) by lia.
  erewrite opt_run by (by apply rd16_more). erewrite bind_eq by (unfold get_opt; rewrite Ht2; reflexivity). rewrite gets_run.
  erewrite opt_run by (by apply rd_corr_more). erewrite bind_eq by reflexivity. erewrite opt_run by (by apply rdb_more).
  rewrite (proj2 (Z.eqb_neq _ 0) F2). reflexivity.
Qed.
End sync.

(** ** lwIP's side *)

(** The documented contract of lwIP's UDP in NO_SYS mode.  [datagram] is the
    port and the payload of a frame that carries a datagram for this host. *)
Class UdpLaws {LW} {ST : Stack LW} (SL : StackLaws ST) (UD : Udp LW) {D : Device} {GH : GenetHw} {HW : PtpHw} := {
  datagram : list Z -> option (Z * list Z);
  listening : LW -> Z -> Prop;
  app_set a l : app (set_app a l) = a;
  get_set a l p : pbuf_get (set_app a l) p = pbuf_get l p;
  owned_set a l : owned (set_app a l) = owned l;
  put_app p c l : app (pbuf_put p c l) = app l /\ (forall port, listening (pbuf_put p c l) port <-> listening l port);
  alloc_app n l p l' : pbuf_alloc n l = Some (p, l') -> app l' = app l /\ (forall port, listening l' port <-> listening l port);
  free_app p l l' : pbuf_free p l = Some (tt, l') -> app l' = app l;
  alloc_ram_law n l : 0 <= n < 65536 -> wp (pbuf_alloc_ram n) (fun p l' => app l' = app l /\
    (p = 0 \/ p ∈ owned l' /\ exists c, pbuf_get l' p = Some c /\ tot_len c = n)) l;
  (** A datagram for a port that is listened on is handed to the callback, in a
      pbuf the callback owns, before input returns. *)
  deliver_law p c s port msg :
    p ∈ owned (n_lw s) -> pbuf_get (n_lw s) p = Some c -> datagram (concat c) = Some (port, msg) -> listening (n_lw s) port ->
    exists buf q c1 s1, length buf = 128%nat /\ q <> 0 /\ q ∈ owned (n_lw s1) /\ pbuf_get (n_lw s1) q = Some c1 /\ concat c1 = msg /\
      s_rx_stamp s1 = s_rx_stamp s /\ app (n_lw s1) = app (n_lw s) /\
      forall s2, rx_cb buf port q s1 = Some (tt, s2) ->
        exists s', netif_input p s = Some (ERR_OK, s') /\ app (n_lw s') = app (n_lw s2);
  (** A datagram that is sent goes out as one frame, headers first, before
      udp_sendto returns. *)
  sendto_law pcb p ip port c s :
    p ∈ owned (n_lw s) -> pbuf_get (n_lw s) p = Some c ->
    wp (udp_sendto pcb p ip port) (fun e s' => app (n_lw s') = app (n_lw s) /\ p ∈ owned (n_lw s') /\
      (e = ERR_OK -> exists hdr q c1 s1 s2, n_hw s1 = n_hw s /\ s_tx_gather s1 = s_tx_gather s /\ pbuf_get (n_lw s1) q = Some c1 /\
         concat c1 = hdr ++ concat c /\ flint_low_level_output q s1 = Some (ERR_OK, s2) /\ n_hw s' = n_hw s2)) s }.

Section raw_props.
Context {D : Device} {GH : GenetHw} {HW : PtpHw} (pmr : Z) {LW : Type} {ST : Stack LW} {SL : StackLaws ST} {UD : Udp LW} {UL : UdpLaws SL UD}.
Implicit Types (s : nsys LW) (e : ptp).

(** ** Reception *)

(** The callback: the engine gets the first 128 bytes of the datagram with the
    stamp in place, and the pbuf is freed. *)
Lemma rx_cb_run buf port q c s e' :
  q <> 0 -> q ∈ owned (n_lw s) -> pbuf_get (n_lw s) q = Some c -> length buf = 128%nat -> in_u 16 (tot_len c) -> in_u 16 port ->
  let msg := take 128 (concat c) in
  ptp_core_rx (blit buf 0 msg) (Z.of_nat (length msg)) port (s_rx_stamp s) (engine (app (n_lw s))) = Some (tt, e') ->
  exists s', rx_cb buf port q s = Some (tt, s') /\ app (n_lw s') = set_engine e' (app (n_lw s)).
Proof.
  intros Hq Ho Hc Hb Ht Hp msg E. unfold rx_cb. rewrite (proj2 (Z.eqb_neq q 0) Hq).
  erewrite bind_eq by (unfold get_opt; rewrite Hc; reflexivity).
  erewrite opt_run; [|apply pbuf_copy_partial_slice; unfold PTP_MAX_MSG, in_u in *; rewrite ?length_slice; try done; rewrite ?Hb; lia].
  change (Z.to_nat 0) with 0%nat. change (Z.to_nat PTP_MAX_MSG) with 128%nat. rewrite drop_0. fold msg. cbn [fst snd].
  unfold flint_netif_rx_stamp. rewrite gets_run, wrapu_small by done.
  set (a := app (n_lw s)) in *. set (s1 := NSys (n_hw s) (s_rx_stamp s) (s_tx_gather s) (set_app (set_engine e' a) (n_lw s))).
  assert (onEngine (ptp_core_rx (blit buf 0 msg) (Z.of_nat (length msg)) port (s_rx_stamp s)) s = Some (tt, s1)) as E1
    by (unfold onEngine, onApp, onLw, zoom; fold a; by rewrite E).
  rewrite (bind_eq _ _ _ _ _ E1). destruct (free_law q (n_lw s1)) as ([] & l2 & E2 & _); [cbn [s1 n_lw]; by rewrite owned_set|].
  eexists. split; [unfold onLw, zoom; rewrite E2; reflexivity|]. cbn [n_lw]. rewrite (free_app _ _ _ E2). cbn [s1 n_lw]. apply app_set.
Qed.

(** A frame with a datagram for the binding: unless lwIP has no pbuf for it, the
    engine has handled its message, whatever the bytes beyond it in the
    callback's buffer, with the frame's stamp. *)
Lemma frame_in_engine frame data len s port msg (P : ptp -> Prop) :
  take (Z.to_nat len) frame = data -> Z.of_nat (length data) = len -> 0 <= len < 65536 ->
  datagram data = Some (port, msg) -> listening (n_lw s) port -> in_u 16 (Z.of_nat (length msg)) -> in_u 16 port ->
  (forall buf, length buf = 128%nat -> exists e',
     ptp_core_rx (blit buf 0 (take 128 msg)) (Z.of_nat (length (take 128 msg))) port (s_rx_stamp s) (engine (app (n_lw s))) = Some (tt, e') /\ P e') ->
  wp (frame_in frame len) (fun _ s' => exists p l1, pbuf_alloc len (n_lw s) = Some (p, l1) /\
    if p =? 0 then app (n_lw s') = app (n_lw s) else P (engine (app (n_lw s')))) s.
Proof.
  intros Hd Hlen Hr Hdg Hli Hm Hp HP. unfold frame_in. apply wp_bind, wp_zoom. destruct (alloc_law len (n_lw s) Hr) as (p & l1 & E1 & _ & H1).
  destruct (alloc_app _ _ _ _ E1) as [Ha1 Hl1]. exists p, l1. split; [done|]. cbn beta. destruct H1 as [(-> & _)|(Hp0 & _ & Hw & c & Hc & Ht)].
  { apply wp_ret. by exists 0, l1. }
  pose proof (proj2 (Z.eqb_neq p 0) Hp0) as Hpb. rewrite Hpb. cbn [negb]. apply wp_bind. eapply wp_get_opt; [exact Hc|].
  assert (length frame >= length data)%nat as Hfl by (rewrite <- Hd, length_take; lia).
  destruct (pbuf_take_all c frame len) as (c' & Et & Hcc); [lia|done|]. rewrite Et. apply wp_bind, wp_of_opt. cbn [snd].
  apply wp_bind, wp_zoom, wp_modify. cbn [n_lw n_hw s_rx_stamp s_tx_gather]. destruct (put_law p c' l1) as (Hg & Hw2 & _); [by eexists|].
  destruct (put_app p c' l1) as [Ha2 Hl2]. set (s1 := NSys _ _ _ _).
  destruct (deliver_law p c' s1 port msg) as (buf & q & c1 & s2 & Hb & Hq & Hqo & Hqc & Hc1 & Hst & Ha & Hrun).
  { cbn [s1 n_lw]. rewrite Hw2, Hw. set_solver. }
  { exact Hg. }
  { by rewrite Hcc, Hd. }
  { cbn [s1 n_lw]. by rewrite Hl2, Hl1. }
  destruct (HP buf Hb) as (e' & Ee & HPe). cbn [s1 n_lw s_rx_stamp] in Hst, Ha. rewrite Ha2, Ha1 in Ha. rewrite <- Hc1, <- Hst, <- Ha in Ee.
  destruct (rx_cb_run buf port q c1 s2 e') as (s3 & E3 & Ha3); [done..| |done|exact Ee|]; [unfold tot_len; by rewrite Hc1|].
  destruct (Hrun s3 E3) as (s4 & E4 & Ha4). apply wp_bind. exists ERR_OK, s4. split; [exact E4|]. cbn [Z.eqb negb ERR_OK]. apply wp_ret.
  exists p, l1. rewrite Hpb. split; [done|]. by rewrite Ha4, Ha3.
Qed.

(** C37: Receive timestamps, from the descriptor ring to the engine.  The poll
    of the interface finds one good frame among [m] complete descriptors, the
    [k]-th, and it carries a two-step Sync of the selected master; no frame
    arrives while the poll runs.  Its stamp [w] is the driver's own for that
    descriptor: the one the interrupt stored, or, when the interrupt had not
    run for it, the next reading of the counter.  After the poll the engine
    holds exactly [w] as the counter value of t2, t2 itself as the clock's time
    at [w], and the message's sequence number and correction, waiting for the
    Follow_Up; the frame is lost, and the engine as it was, exactly when
    pbuf_alloc, called for the frame's length in the state lwIP is in, returns
    NULL. *)
Theorem sync_frame_stamped fuel b g w0 gather l P st fr d m k w frame msg seq corr
    (s := NSys (b, g) w0 gather l) (e := engine (app l)) (data := frame_at st fr (s_rx_cons g) k) :
  rx_hw b P st fr -> rx_ready pmr b g P d m -> length frame = 1536%nat -> bytes frame -> (m < fuel)%nat ->
  goods st (s_rx_cons g) m = [k] -> stamp_view g d k = Some w ->
  datagram data = Some (PTP_EVENT_PORT, msg) -> listening l PTP_EVENT_PORT -> two_step_sync e msg seq corr ->
  hw_ok -> clock_ok (clk e) -> in_span (clk e) w ->
  exists p l1 s', pbuf_alloc (Z.of_nat (length data)) l = Some (p, l1) /\ flint_netif_poll fuel frame s = Some (tt, s') /\
    engine (app (n_lw s')) =
      if p =? 0 then e
      else mkPtp (clk e) (set_syn (mkSync true seq w (model_ns (clk e) w) corr (ptp_clock_epoch (clk e))) (PtpCore.g e)) (sent e) (logs e).
Proof.
  intros Hw Hr Hfl Hfb Hf Hgs Hst Hdg Hli Hts Hhw Hck Hsp. pose proof (ts_len _ _ _ _ Hts) as Hm. destruct fuel as [|fuel]; [lia|].
  pose proof (goods_first st (s_rx_cons g) m) as Hgf. destruct (first_good st (s_rx_cons g) m) as [k'|] eqn:Ek; [|congruence].
  rewrite Hgs in Hgf. injection Hgf as <- Hrest.
  destruct (poll_recv pmr fuel b g w0 gather l P st fr d m frame k) as (b1 & g1 & d1 & w1 & frame2 & E & Hl2 & Hb2 & Ht & Hlen & Htk); try done.
  fold data in E, Ht, Hlen. pose proof (tk_stamp _ _ _ _ _ _ _ _ _ _ _ Htk) as Hw1. rewrite Hst in Hw1. injection Hw1 as <-.
  set (s1 := NSys (b1, g1) w gather l) in *.
  destruct (frame_in_run frame2 data (Z.of_nat (length data)) s1) as ([] & s2 & E2 & Hk & _ & _); [by rewrite Nat2Z.id|done|lia|].
  destruct (frame_in_engine frame2 data (Z.of_nat (length data)) s1 PTP_EVENT_PORT msg
    (fun e' => e' = mkPtp (clk e) (set_syn (mkSync true seq w (model_ns (clk e) w) corr (ptp_clock_epoch (clk e))) (PtpCore.g e)) (sent e) (logs e)))
    as ([] & s2' & E2' & p & l1 & Ha & Hp); try done; [by rewrite Nat2Z.id|lia|unfold in_u; change (2 ^ 16) with 65536; lia| |].
  { intros buf Hb. eexists. split; [|reflexivity]. rewrite take_ge by lia. unfold blit. rewrite take_0, app_nil_l.
    apply rx_two_step; [done|]. by apply from_cnt_exact. }
  rewrite E2 in E2'. injection E2' as <-. destruct s2 as [ [b2 g2] w2 gather2 l2]. cbn [n_hw n_lw s1] in *.
  destruct (poll_run pmr (m - S k) fuel b2 g2 w2 gather2 l2 P st fr d1 frame2) as (s' & xs & E3 & Hpol);
    [eapply rx_hw_later, Hw; etrans; [apply Htk|apply Hk]|exact (rx_ready_kept pmr (b1, g1) (b2, g2) _ _ _ Hk (tk_ready _ _ _ _ _ _ _ _ _ _ _ Htk))|done|done|pose proof (first_good_lt _ _ _ _ Ek); lia|].
  pose proof (po_frames _ _ _ _ _ _ _ _ _ Hpol) as Hh. cbn [n_hw n_lw snd] in Hh. pose proof (rk_cons _ _ Hk) as Hc2. cbn [snd] in Hc2.
  assert (goods st (s_rx_cons g2) (m - S k) = []) as Hnil.
  { rewrite Hc2, (tk_cons _ _ _ _ _ _ _ _ _ _ _ Htk), goods_u32. by apply eq_sym, fmap_nil_inv in Hrest. }
  rewrite Hnil in Hh. assert (n_lw s' = l2) as Hl' by (by inversion Hh).
  exists p, l1, s'. split; [exact Ha|]. split; [etransitivity; [exact E|]; erewrite bind_eq by exact E2; exact E3|].
  rewrite Hl'. destruct (p =? 0); [|exact Hp]. by rewrite Hp.
Qed.

(** ** Transmission *)

(** What became of a message [buf] given to the transmit callback in state [s],
    with [ok] and the rest as the outcome of a successful transmission, [bad] of
    a failed one: lwIP has no pbuf for it, or the pbuf [p] is filled with the
    message and udp_sendto is called on the port's pcb with the group's address
    (state [s1]), fails, or succeeds. *)
Definition transmission port buf s (hw' : bus * genet) (bad : Prop) (ok : list Z -> Prop) : Prop :=
  let a := app (n_lw s) in
  exists p l1, pbuf_alloc_ram (Z.of_nat (length buf)) (n_lw s) = Some (p, l1) /\
    if p =? 0 then bad /\ hw' = n_hw s
    else exists c err s2 (s1 := NSys (n_hw s) (s_rx_stamp s) (s_tx_gather s) (pbuf_put p c l1)),
      concat c = buf /\
      udp_sendto (if port =? PTP_EVENT_PORT then s_ev a else s_gen a) p (s_mcast a) port s1 = Some (err, s2) /\ hw' = n_hw s2 /\
      if err =? ERR_OK then exists hdr, ok (hdr ++ buf) else bad.

(** The transmit callback: on success the payload went out in one frame and the
    answer is the reading of the counter the driver took for that frame. *)
Lemma tx_fn_run port buf s b g :
  n_hw s = (b, g) -> tx_ready pmr b g -> length (s_tx_gather s) = 1536%nat -> Z.of_nat (length buf) < 65536 ->
  wp (tx_fn port buf (Z.of_nat (length buf))) (fun r s' => app (n_lw s') = app (n_lw s) /\
    transmission port buf s (n_hw s') (r.1 = false) (fun f =>
      r = (true, Some (u64 (cntpct_at (cnt_reads g)))) /\
      trace (n_hw s').1 = trace b ++ tx_writes (s_tx_prod g) (Z.of_nat (length f)) /\ tx_holds (s_tx_buf (n_hw s').2) (s_tx_prod g) f)) s.
Proof.
  intros Hhw Htx Hga Hlen. unfold tx_fn, transmission. cbn zeta. apply wp_bind, wp_zoom.
  destruct (alloc_ram_law (Z.of_nat (length buf)) (n_lw s) ltac:(lia)) as (p & l1 & E1 & Ha1 & Hp). exists p, l1. split; [exact E1|]. cbn beta.
  destruct (Z.eqb_spec p 0) as [->|Hne]; [apply wp_ret; split; [done|]; exists 0, l1; done|]. destruct Hp as [?|(Ho & c & Hc & Ht)]; [done|].
  apply wp_bind. eapply wp_get_opt; [exact Hc|]. destruct (pbuf_take_all c buf (Z.of_nat (length buf))) as (c' & Et & Hcc); [lia|done|].
  rewrite Nat2Z.id, firstn_all in Hcc. rewrite Et. apply wp_bind, wp_of_opt. cbn [snd]. apply wp_bind, wp_zoom, wp_modify. cbn [n_lw n_hw s_rx_stamp s_tx_gather].
  destruct (put_law p c' l1) as (Hg & Hw2 & _); [by eexists|]. destruct (put_app p c' l1) as [Ha2 _]. set (s1 := NSys _ _ _ _).
  assert (app (n_lw s1) = app (n_lw s)) as Has by (cbn [s1 n_lw]; congruence).
  apply wp_bind. apply (wp_mono _ (fun pcb s' => s' = s1 /\ pcb = if port =? PTP_EVENT_PORT then s_ev (app (n_lw s)) else s_gen (app (n_lw s))));
    [case_match; apply wp_gets; by rewrite Has|]. intros pcb ? [-> Hpcb]. apply wp_bind, wp_gets.
  destruct (sendto_law pcb p (s_mcast (app (n_lw s1))) port c' s1) as (err & s2 & E2 & Ha3 & Ho3 & Hsent); [cbn [s1 n_lw]; by rewrite Hw2|exact Hg|].
  apply wp_bind. exists err, s2. split; [exact E2|]. rewrite Has in Ha3, E2. rewrite Hpcb in E2.
  apply wp_bind, wp_zoom. exists (s_tx_ts (n_hw s2).2), (n_hw s2). split; [by destruct (n_hw s2)|]. cbn beta. apply wp_bind, wp_zoom.
  destruct (free_law p (n_lw s2) Ho3) as ([] & l4 & E4 & _). exists tt, l4. split; [exact E4|]. apply wp_ret. cbn [n_lw n_hw fst snd].
  split; [rewrite (free_app _ _ _ E4), Ha3; done|]. exists p, l1. split; [done|]. rewrite (proj2 (Z.eqb_neq p 0) Hne).
  exists c', err, s2. split; [done|]. split; [exact E2|]. split; [by destruct (n_hw s2)|]. destruct (Z.eqb_spec err ERR_OK) as [He|]; [|done].
  destruct (Hsent He) as (hdr & q & c1 & [hw3 w3 ga3 l3] & s5 & Hh3 & Hg3 & Hq & Hcat & Eout & Hh5). cbn [s1 n_hw s_tx_gather n_lw] in Hh3, Hg3, Hq.
  subst hw3 ga3. rewrite Hhw in Eout. pose proof (low_level_output_sends pmr b g w3 (s_tx_gather s) l3 q c1 Htx Hga Hq) as Hll.
  destruct (tot_len c1 <=? 1536); [|by rewrite Hll in Eout]. destruct Hll as (b6 & g6 & ga6 & E6 & T6 & H6 & S6).
  rewrite E6 in Eout. injection Eout as <-. cbn [n_hw] in Hh5. exists hdr. rewrite Hh5. cbn [fst snd]. rewrite <- Hcc, <- Hcat, S6. split_and!; done.
Qed.

End raw_props.

(** ** A small UDP layer *)

(** The controller has received a runt and a frame of 86 bytes, a two-step Sync
    in a datagram for port 319; the counter stands at half a second. *)
Definition demo_two_step : list Z := demo_header 0 44 2 7 ++ replicate 10 0.
Definition demo_sync_frame : list Z := replicate 36 0 ++ [1; 63] ++ replicate 4 0 ++ demo_two_step.
Definition demo_rx_bytes : list Z := [0; 0] ++ demo_sync_frame ++ replicate 1960 0.
#[local] Instance ptp_nic : Device := nic 2 0x586000.
#[local] Instance ptp_dma : GenetHw := dma demo_rx_bytes 27000000.
Lemma ptp_rx_hw : rx_hw demo_nic_bus 2 (nic_status 0x586000) (fun _ => demo_rx_bytes).
Proof. apply nic_rx_hw; [lia|done|done|]. vm_compute. repeat constructor; by compute. Qed.

(** Datagrams are the bytes after a 42-byte header whose last bytes but four are
    the port. *)
Record demo_ulw := DemoUlw { du_bufs : gmap Z chain; du_log : list (Z * list Z); du_app : praw; du_ports : list Z }.
Definition du_fresh (l : demo_ulw) : Z := fresh ({[0]} ∪ dom (du_bufs l)).
Definition du_set (bufs : gmap Z chain) (l : demo_ulw) : demo_ulw := DemoUlw bufs (du_log l) (du_app l) (du_ports l).
Definition du_get (l : demo_ulw) (p : Z) : option chain := du_bufs l !! p.
Definition du_alloc (n : Z) : M demo_ulw Z := fun l => Some (du_fresh l, du_set (<[du_fresh l := [replicate (Z.to_nat n) 0]]> (du_bufs l)) l).
Definition du_free (p : Z) : M demo_ulw unit := fun l => Some (tt, du_set (delete p (du_bufs l)) l).
Definition demo_datagram (data : list Z) : option (Z * list Z) := port ← rd16 data 36; Some (port, drop 42 data).
(** The pool alone, for the callback to work on. *)
Definition demo_pool : Stack demo_ulw := {|
  pbuf_alloc := du_alloc; pbuf_get := du_get; pbuf_put p c l := du_set (<[p := c]> (du_bufs l)) l; pbuf_free := du_free;
  netif_input _ := mret ERR_OK |}.
Definition demo_out (p : Z) (s : nsys demo_ulw) : option (Z * nsys demo_ulw) :=
  match du_get (n_lw s) p with
  | Some c =>
      let q := du_fresh (n_lw s) in
      let s1 := NSys (n_hw s) (s_rx_stamp s) (s_tx_gather s) (du_set (<[q := replicate 42 0 :: c]> (du_bufs (n_lw s))) (n_lw s)) in
      match flint_low_level_output (HW := ptp_dma) (ST := demo_pool) q s1 with
      | Some (e, s2) => Some (e, NSys (n_hw s2) (s_rx_stamp s2) (s_tx_gather s2) (n_lw s))
      | None => Some (ERR_MEM, s)
      end
  | None => None
  end.
#[local] Instance demo_udp : Udp demo_ulw := {|
  app := du_app; set_app a l := DemoUlw (du_bufs l) (du_log l) a (du_ports l); pbuf_alloc_ram := du_alloc;
  udp_new := mret 1; udp_bind _ port := modify (fun l => DemoUlw (du_bufs l) (du_log l) (du_app l) (port :: du_ports l));; mret ERR_OK;
  udp_remove _ := mret tt; udp_set_multicast_ttl _ _ := mret tt; udp_recv _ _ _ := mret tt;
  udp_sendto _ p _ _ := demo_out p;
  igmp_joingroup_netif _ := mret ERR_OK; ipaddr_aton _ := 0xE0000181 |}.
(** Input: a datagram for an open port goes to the callback in a fresh pbuf. *)
Definition demo_dispatch (p : Z) (c : chain) (s : nsys demo_ulw) : praw :=
  match demo_datagram (concat c) with
  | Some (port, msg) =>
      if bool_decide (port ∈ du_ports (n_lw s)) then
        let q := du_fresh (n_lw s) in
        let s1 := NSys (n_hw s) (s_rx_stamp s) (s_tx_gather s) (du_set (<[q := [msg]]> (du_bufs (n_lw s))) (n_lw s)) in
        match rx_cb (ST := demo_pool) (HW := demo_hw) (replicate 128 0) port q s1 with
        | Some (_, s2) => du_app (n_lw s2)
        | None => du_app (n_lw s)
        end
      else du_app (n_lw s)
  | None => du_app (n_lw s)
  end.
Definition demo_udp_input (p : Z) (s : nsys demo_ulw) : option (Z * nsys demo_ulw) :=
  match du_get (n_lw s) p with
  | Some c => Some (ERR_OK, NSys (n_hw s) (s_rx_stamp s) (s_tx_gather s)
      (DemoUlw (delete p (du_bufs (n_lw s))) (du_log (n_lw s) ++ [(s_rx_stamp s, concat c)]) (demo_dispatch p c s) (du_ports (n_lw s))))
  | None => None
  end.
#[local] Instance demo_ustack : Stack demo_ulw := {|
  pbuf_alloc := du_alloc; pbuf_get := du_get; pbuf_put p c l := du_set (<[p := c]> (du_bufs l)) l; pbuf_free := du_free;
  netif_input := demo_udp_input |}.

Lemma du_fresh_ok l : du_fresh l <> 0 /\ du_fresh l ∉ dom (du_bufs l).
Proof. pose proof (is_fresh ({[0]} ∪ dom (du_bufs l))) as H. fold (du_fresh l) in H. split; [intros E; rewrite E in H|]; set_solver. Qed.
Lemma du_alloc_ok n l :
  0 <= n -> exists c, du_bufs (du_set (<[du_fresh l := [replicate (Z.to_nat n) 0]]> (du_bufs l)) l) !! du_fresh l = Some c /\ tot_len c = n.
Proof.
  intros Hn. exists [replicate (Z.to_nat n) 0]. cbn [du_bufs du_set]. rewrite lookup_insert_eq. split; [done|].
  unfold tot_len. cbn. rewrite app_nil_r, length_replicate. lia.
Qed.
#[local] Instance demo_ulaws : StackLaws demo_ustack.
Proof.
  refine {| owned l := dom (du_bufs l); offered := du_log |}.
  - intros n l Hn. destruct (du_fresh_ok l). eexists _, _. split; [reflexivity|]. split; [done|]. right. split; [done|]. split; [done|].
    split; [apply dom_insert_L|]. exact (du_alloc_ok n l (proj1 Hn)).
  - intros p c l Hp. split; [exact (lookup_insert_eq (du_bufs l) p c)|]. split; [|done]. by apply dom_insert_lookup_L.
  - intros p l Hp. eexists _, _. split; [reflexivity|]. split; [done|]. cbn. apply dom_delete_L.
  - intros p c s Hp Hc. change (wp (demo_udp_input p) (fun e s' => rx_kept (n_hw s) (n_hw s') /\ du_log (n_lw s') = du_log (n_lw s) ++ [(s_rx_stamp s, concat c)] /\
      dom (du_bufs (n_lw s')) = if e =? ERR_OK then dom (du_bufs (n_lw s)) ∖ {[p]} else dom (du_bufs (n_lw s))) s).
    unfold wp, demo_udp_input. change (du_get (n_lw s) p = Some c) in Hc. rewrite Hc. eexists _, _. split; [reflexivity|]. split; [by split|]. split; [done|]. apply dom_delete_L.
Defined.
#[local] Instance demo_udp_laws : UdpLaws demo_ulaws demo_udp (D := ptp_nic) (GH := ptp_dma) (HW := demo_hw).
Proof.
  refine {| datagram := demo_datagram; listening l port := port ∈ du_ports l |}; try done.
  - intros n l p l' E. assert (l' = du_set (<[du_fresh l := [replicate (Z.to_nat n) 0]]> (du_bufs l)) l) as ->; [|done].
    exact (f_equal (fun o => match o with Some x => x.2 | None => l' end) (eq_sym E)).
  - intros p l l' E. assert (l' = du_set (delete p (du_bufs l)) l) as ->; [|done].
    exact (f_equal (fun o => match o with Some x => x.2 | None => l' end) (eq_sym E)).
  - intros n l Hn. eexists _, _. split; [reflexivity|]. split; [done|]. right. split; [|exact (du_alloc_ok n l (proj1 Hn))].
    change (du_fresh l ∈ dom (<[du_fresh l := [replicate (Z.to_nat n) 0]]> (du_bufs l))). rewrite dom_insert_L. set_solver.
  - intros p c s port msg _ Hc Hdg Hli. change (du_get (n_lw s) p = Some c) in Hc. destruct (du_fresh_ok (n_lw s)) as [Hq0 Hq].
    set (q := du_fresh (n_lw s)) in *.
    set (s1 := NSys (n_hw s) (s_rx_stamp s) (s_tx_gather s) (du_set (<[q := [msg]]> (du_bufs (n_lw s))) (n_lw s))).
    exists (replicate 128 0), q, [msg], s1. split; [done|]. split; [done|]. split; [change (q ∈ dom (<[q := [msg]]> (du_bufs (n_lw s)))); rewrite dom_insert_L; set_solver|].
    split; [exact (lookup_insert_eq (du_bufs (n_lw s)) q [msg])|]. split; [cbn; apply app_nil_r|]. split; [done|]. split; [done|].
    intros s2 E. eexists. split; [change (netif_input p s) with (demo_udp_input p s); unfold demo_udp_input; rewrite Hc; reflexivity|].
    change (demo_dispatch p c s = du_app (n_lw s2)). unfold demo_dispatch. rewrite Hdg, bool_decide_true by exact Hli. fold q s1.
    change (rx_cb (ST := demo_pool) (HW := demo_hw) (replicate 128 0) port q s1) with (rx_cb (ST := demo_ustack) (HW := demo_hw) (replicate 128 0) port q s1). by rewrite E.
  - intros pcb p ip port c s Hp Hc. change (du_get (n_lw s) p = Some c) in Hc. unfold wp. change (udp_sendto pcb p ip port s) with (demo_out p s). unfold demo_out. rewrite Hc.
    set (q := du_fresh (n_lw s)). set (s1 := NSys _ _ _ _). destruct (flint_low_level_output q s1) as [ [e s2]|] eqn:E.
    + eexists _, _. split; [reflexivity|]. split; [done|]. split; [exact Hp|]. intros ->. exists (replicate 42 0), q, (replicate 42 0 :: c), s1, s2.
      split; [done|]. split; [done|]. split; [exact (lookup_insert_eq (du_bufs (n_lw s)) q _)|]. split; [done|]. split; [exact E|done].
    + eexists _, _. split; [reflexivity|]. split; [done|]. split; [exact Hp|]. by intros.
Defined.

(** The engine after some of the inputs of the session. *)
Definition demo_after (n : nat) : ptp :=
  match ptp_core_init [2; 0; 0; 0; 0; 1] 0 true ptp_boot with
  | Some (_, p0) => match ptp_run (HW := demo_hw) (TX := demo_tx) (take n demo_session) p0 with Some (_, p) => p | None => p0 end
  | None => ptp_boot
  end.
Definition demo_raw (e : ptp) : nsys demo_ulw :=
  NSys (demo_nic_bus, demo_genet) 0 (replicate 1536 0) (DemoUlw ∅ [] (PRaw 1 1 0xE0000181 true e) [319; 320]).
Lemma demo_two_step_ok : two_step_sync (demo_after 1) demo_two_step 7 0.
Proof.
  constructor; try (vm_compute; reflexivity).
  - split; vm_compute; intros H; discriminate H.
  - eexists. split; vm_compute; reflexivity.
  - eexists. split; [vm_compute; reflexivity|]. discriminate.
  - eexists. split; vm_compute; reflexivity.
  - eexists. split; [vm_compute; reflexivity|]. discriminate.
Qed.
Lemma sync_frame_stamped_witness :
  exists s', flint_netif_poll (ST := demo_ustack) 3 (replicate 1536 0) (demo_raw (demo_after 1)) = Some (tt, s') /\
    t2_cnt (syn (g (engine (du_app (n_lw s'))))) = 27000000.
Proof.
  destruct (sync_frame_stamped (UL := demo_udp_laws) 240 3 demo_nic_bus demo_genet 0 (replicate 1536 0) (n_lw (demo_raw (demo_after 1)))
    2 (nic_status 0x586000) (fun _ => demo_rx_bytes) 0 2 1 27000000 (replicate 1536 0) demo_two_step 7 0)
    as (p & l1 & s' & Ha & E & H);
    [exact ptp_rx_hw|exact demo_rx_ready|done|by apply Forall_replicate|lia|vm_compute; reflexivity|vm_compute; reflexivity
    |vm_compute; reflexivity|apply list_elem_of_here|exact demo_two_step_ok|exact demo_hw_ok|..].
  - split; vm_compute; intros Hx; discriminate Hx.
  - vm_compute. intros Hx. discriminate Hx.
  - exists s'. split; [exact E|]. assert (p <> 0) as Hp.
    { intros ->. exact (proj1 (du_fresh_ok _) (f_equal (fun o => match o with Some x => x.1 | None => 0 end) Ha)). }
    rewrite (proj2 (Z.eqb_neq p 0) Hp) in H. exact (f_equal (fun e => t2_cnt (syn (g e))) H).
Defined.
(** An observation of the state a call ends in. *)
Lemma yields_obs {S A B : Type} (f : S -> B) (v : B) (o : option (A * S)) (x : A * S) :
  o = Some x -> (f ∘ snd <$> o) = Some v -> f x.2 = v.
Proof. intros -> H. cbn in H. congruence. Qed.

(** ** A start that fails half way *)

(** A UDP layer in which port 320 is taken. *)
Definition busy_udp : Udp demo_ulw := {|
  app := du_app; set_app := set_app; pbuf_alloc_ram := du_alloc; udp_new := mret 1;
  udp_bind _ port := fun l => if port =? 320 then Some (-8, l) else Some (ERR_OK, DemoUlw (du_bufs l) (du_log l) (du_app l) (port :: du_ports l));
  udp_remove _ := mret tt; udp_set_multicast_ttl _ _ := mret tt; udp_recv _ _ _ := mret tt;
  udp_sendto := udp_sendto; igmp_joingroup_netif := igmp_joingroup_netif; ipaddr_aton := ipaddr_aton |}.
Definition ready_uarts : Device := fun _ _ a => if a =? AUX_MU_LSR then AUX_MU_LSR_TXRDY else 0.
Definition demo_start_bus : bus := mkBus {[GICC_PMR_REG := 0]} 0 [].

(** When the general port cannot be bound, [ptp_raw_start] fails but leaves the
    event port open with the callback registered: messages reach an engine that
    was never initialised. *)
Example start_failure_leaves_port :
  match ptp_raw_start (D := ready_uarts) (UD := busy_udp) 0x90000 [2; 0; 0; 0; 0; 1]
          (NSys (demo_start_bus, demo_genet) 0 [] (DemoUlw ∅ [] (PRaw 0 0 0 false ptp_boot) [])) with
  | Some (ok, s') => ok = false /\ du_ports (n_lw s') = [319] /\ s_started (du_app (n_lw s')) = false /\ engine (du_app (n_lw s')) = ptp_boot
  | None => False
  end.
Proof. vm_compute. repeat split. Qed.
