(* ===== verification/Sockets.v ===== *)
(** * Bindings over lwIP sockets (src/port/mqtt/transport_lwip.c, src/port/ptp/ptp_slave.c)

    The coreMQTT transport and the PTP slave of the OS-mode build.  lwIP's
    socket layer is a parameter [Sockets] on its own state; a socket is its
    number, a socket address its port and IPv4 address. *)

From S2P Require Import Prelude CInt CStr PtpTime PtpMsg PtpClock PtpServo PtpUtil PtpCore PtpBmc PtpInv PtpRaw.

Definition EAGAIN : Z := 11.
Definition EWOULDBLOCK : Z := EAGAIN.

(** The calls of lwip_socket and the options that are set. *)
Inductive sock_type := SOCK_STREAM | SOCK_DGRAM.
Inductive sock_opt :=
| SO_RCVTIMEO (sec usec : Z) | SO_REUSEADDR (one : Z) | IP_ADD_MEMBERSHIP (multiaddr interface : Z).
Record sockaddr_in := SockAddr { sin_port : Z; s_addr : Z }.

Class Sockets (T : Type) := {
  lwip_socket : sock_type -> M T Z;
  lwip_setsockopt : Z -> sock_opt -> M T Z;
  lwip_bind : Z -> sockaddr_in -> M T Z;
  lwip_connect : Z -> sockaddr_in -> M T Z;
  lwip_close : Z -> M T Z;
  lwip_send : Z -> list Z -> M T Z;
  lwip_sendto : Z -> list Z -> sockaddr_in -> M T Z;
  (** The result and the bytes stored. *)
  lwip_recv : Z -> Z -> M T (Z * list Z);
  errno : T -> Z;
  ipaddr_addr : list Z -> Z;
  tick_count : M T Z;
  console_out : list Z -> M T unit }.

(** [lwip_htons] on a little-endian machine. *)
Definition lwip_htons (x : Z) : Z := u16 (Z.lor (Z.shiftl (Z.land x 0xFF) 8) (Z.shiftr (Z.land x 0xFF00) 8)).

(** ** The MQTT transport *)

Section transport.
Context {T : Type} {SK : Sockets T}.

(** lwIP's state and [ctx->socket]. *)
Record tctx := TCtx { sk : T; socket : Z }.
Definition onSk {A} (c : M T A) : M tctx A := zoom sk (fun t s => TCtx t (socket s)) c.

Definition transport_connect (host : list Z) (port : Z) : M tctx Z :=
  s ← onSk (lwip_socket SOCK_STREAM);
  if s <? 0 then mret (-1)
  else
    onSk (lwip_setsockopt s (SO_RCVTIMEO 0 20000));;
    let addr := SockAddr (lwip_htons port) (ipaddr_addr host) in
    r ← onSk (lwip_connect s addr);
    if r <? 0 then onSk (lwip_close s);; mret (-2)
    else modify (fun x => TCtx (sk x) s);; mret 0.

Definition transport_disconnect : M tctx unit :=
  s ← gets socket;
  if 0 <=? s then onSk (lwip_close s);; modify (fun x => TCtx (sk x) (-1)) else mret tt.

Definition transport_send (buf : list Z) : M tctx Z :=
  s ← gets socket; n ← onSk (lwip_send s buf); mret (i32 n).

(** The result and the bytes stored in [buf]. *)
Definition transport_recv (len : Z) : M tctx (Z * list Z) :=
  s ← gets socket;
  r ← onSk (lwip_recv s len);
  let '(n, data) := r : Z * list Z in
  if n <? 0 then
    e ← gets (fun x => errno (sk x));
    if (e =? EWOULDBLOCK) || (e =? EAGAIN) || (e =? 0) then mret (0, data) else mret (-1, data)
  else mret (i32 n, data).
End transport.
Arguments tctx : clear implicits.

(** ** The PTP slave *)

Section slave.
Context {T : Type} {SK : Sockets T} {HW : PtpHw}.

(** lwIP's state, the two sockets and the engine. *)
Record slave := Slave { sl_sk : T; sl_ev : Z; sl_gen : Z; sl_core : ptp }.
Definition onSock {A} (c : M T A) : M slave A := zoom sl_sk (fun t s => Slave t (sl_ev s) (sl_gen s) (sl_core s)) c.
Definition onCore {A} (c : M ptp A) : M slave A := zoom sl_core (fun p s => Slave (sl_sk s) (sl_ev s) (sl_gen s) p) c.

Definition make_socket (port : Z) : M slave Z :=
  s ← onSock (lwip_socket SOCK_DGRAM);
  if s <? 0 then mret (-1)
  else
    onSock (lwip_setsockopt s (SO_REUSEADDR 1));;
    r ← onSock (lwip_bind s (SockAddr (lwip_htons port) 0));
    if r <? 0 then onSock (lwip_close s);; mret (-1)
    else
      onSock (lwip_setsockopt s (IP_ADD_MEMBERSHIP (ipaddr_addr PTP_MCAST_ADDR) 0));;
      onSock (lwip_setsockopt s (SO_RCVTIMEO 0 2000));;
      mret s.

(** The transmit callback: the result and [*tx_cnt]. *)
Definition slave_tx_fn (port : Z) (buf : list Z) : M slave (bool * Z) :=
  cnt ← onCore (onC ptp_clock_read_cnt);
  s ← (if port =? PTP_EVENT_PORT then gets sl_ev else gets sl_gen);
  r ← onSock (lwip_sendto s buf (SockAddr (lwip_htons port) (ipaddr_addr PTP_MCAST_ADDR)));
  mret (0 <=? r, cnt).

(** What precedes the loop: false is the early return. *)
Definition slave_start (mac : list Z) : M slave bool :=
  ev ← make_socket PTP_EVENT_PORT;
  modify (fun s => Slave (sl_sk s) ev (sl_gen s) (sl_core s));;
  gen ← make_socket PTP_GENERAL_PORT;
  modify (fun s => Slave (sl_sk s) (sl_ev s) gen (sl_core s));;
  if (ev <? 0) || (gen <? 0) then onSock (console_out (chars "[ptp] socket setup failed" ++ [10]));; mret false
  else onCore (ptp_core_init mac 0 true);; mret true.

(** Reading one socket; [buf] is the local array, which keeps its last bytes. *)
Definition slave_read (sock port : Z) (buf : list Z) : M slave (list Z) :=
  r ← onSock (lwip_recv sock 128);
  let '(n, data) := r : Z * list Z in
  let buf := blit buf 0 data in
  (if 0 <? n then cnt ← onCore (onC ptp_clock_read_cnt); onCore (ptp_core_rx buf (u16 n) port cnt) else mret tt);;
  mret buf.

(** The engine's poll with [slave_tx_fn] as its callback, which runs on the
    engine as the callback finds it: the message is found by a run whose
    callback fails, sent, and the poll run with the answer and the counter read
    by the callback. *)
Definition set_core (p : ptp) : M slave unit := modify (fun s => Slave (sl_sk s) (sl_ev s) (sl_gen s) p).
Definition slave_poll (now : Z) : M slave unit :=
  e ← gets sl_core;
  match ptp_core_poll (TX := answer None) now e with
  | None => fails
  | Some (_, e0) =>
      match drop (length (sent e)) (sent e0) with
      | [] => set_core e0
      | (port, buf) :: _ =>
          set_core e0;;
          r ← slave_tx_fn port buf;
          let '(ok, tx_cnt) := r : bool * Z in
          n ← gets (fun s => reads (clk (sl_core s)));
          set_core e;;
          onCore (ptp_core_poll (TX := answer (if ok then Some tx_cnt else None)) now);;
          onCore (onC (modify (fun c => mkClock (s_base_cnt c) (s_base_ns c) (s_ppb c) (s_epoch c) n)))
      end
  end.

(** One round of the loop, and any number of them. *)
Definition slave_round (buf : list Z) : M slave (list Z) :=
  ev ← gets sl_ev; buf ← slave_read ev PTP_EVENT_PORT buf;
  gen ← gets sl_gen; buf ← slave_read gen PTP_GENERAL_PORT buf;
  now ← onSock tick_count; slave_poll (u32 now);; mret buf.
Fixpoint slave_rounds (n : nat) (buf : list Z) : M slave (list Z) :=
  match n with O => mret buf | S n => buf ← slave_round buf; slave_rounds n buf end.
(** [n] rounds of ptp_slave_run. *)
Definition ptp_slave_run (n : nat) (mac buf : list Z) : M slave (list Z) :=
  ok ← slave_start mac; if (ok : bool) then slave_rounds n buf else mret buf.
Definition vPtpTask (n : nat) (buf : list Z) : M slave (list Z) :=
  ptp_slave_run n [0x02; 0x00; 0x5E; 0x00; 0x00; 0x01] buf.
End slave.
Arguments slave : clear implicits.

(** ** Properties *)

(** The documented contract of the socket calls on the set of open sockets. *)
Class SocketLaws {T} (SK : Sockets T) := {
  opened : T -> gset Z;
  socket_law ty t : wp (lwip_socket ty) (fun s t' => s < 0 /\ opened t' = opened t \/ 0 <= s /\ (s ∉ opened t) /\ opened t' = {[s]} ∪ opened t) t;
  setsockopt_law s o t : wp (lwip_setsockopt s o) (fun _ t' => opened t' = opened t) t;
  bind_law s a t : wp (lwip_bind s a) (fun _ t' => opened t' = opened t) t;
  connect_law s a t : wp (lwip_connect s a) (fun _ t' => opened t' = opened t) t;
  close_law s t : s ∈ opened t -> wp (lwip_close s) (fun _ t' => opened t' = opened t ∖ {[s]}) t;
  console_law l t : wp (console_out l) (fun _ t' => opened t' = opened t) t }.

Section props.
Context {T : Type} {SK : Sockets T} {SL : SocketLaws SK}.

(** What a connect left: a failure leaves every socket as it was; success opened
    exactly the socket of the context. *)
Definition connected (s : tctx T) (r : Z) (s' : tctx T) : Prop :=
  (r = -1 \/ r = -2) /\ opened (sk s') = opened (sk s) /\ socket s' = socket s \/
  r = 0 /\ 0 <= socket s' /\ (socket s' ∉ opened (sk s)) /\ opened (sk s') = {[socket s']} ∪ opened (sk s).
Lemma transport_connect_run host port s : wp (transport_connect host port) (connected s) s.
Proof.
  destruct s as [t so]. unfold transport_connect. apply wp_bind, wp_zoom. cbn [sk socket]. eapply wp_mono; [apply socket_law|]. cbn beta. intros x t1 [ [Hx Ho]|(Hx & Hn & Ho)].
  { rewrite (proj2 (Z.ltb_lt x 0) Hx). apply wp_ret. left. auto. }
  rewrite (proj2 (Z.ltb_ge x 0) Hx). apply wp_bind, wp_zoom. eapply wp_mono; [apply setsockopt_law|]. cbn beta. intros _ t2 Ho2. cbn [sk socket] in *.
  apply wp_bind, wp_zoom. eapply wp_mono; [apply connect_law|]. cbn beta. intros r t3 Ho3. cbn [sk socket] in *. destruct (r <? 0).
  - apply wp_bind, wp_zoom. eapply wp_mono; [apply close_law; cbn [sk]; rewrite Ho3, Ho2, Ho; set_solver|]. cbn beta. intros _ t4 Ho4. cbn [sk] in *.
    apply wp_ret. left. cbn [sk socket]. split; [by right|]. split; [|done]. rewrite Ho4, Ho3, Ho2, Ho. set_solver.
  - apply wp_bind, wp_modify, wp_ret. right. cbn [sk socket]. split_and!; [done|done|done|congruence].
Qed.

(** The sockets of the MQTT transport: whatever the network does,
    transport_connect followed by transport_disconnect leaves exactly the sockets
    open that were open before, and a failed connect leaves none behind. *)
Theorem transport_leaks_no_socket host port t :
  wp (transport_connect host port) (fun r s' =>
    (r <> 0 -> opened (sk s') = opened t /\ socket s' = -1) /\
    wp transport_disconnect (fun _ s'' => opened (sk s'') = opened t /\ socket s'' = -1) s') (TCtx t (-1)).
Proof.
  eapply wp_mono; [apply transport_connect_run|]. intros r [t1 so] H. unfold transport_disconnect, connected in *. cbn [sk socket] in *.
  destruct H as [(Hr & Ho & ->)|(-> & H0 & Hn & Ho)].
  - split; [done|]. apply wp_bind, wp_gets. cbn [socket]. change (0 <=? -1) with false. cbv match. apply wp_ret. cbn. done.
  - split; [done|]. apply wp_bind, wp_gets. cbn [socket]. rewrite (proj2 (Z.leb_le 0 so) H0). apply wp_bind, wp_zoom. cbn [sk socket].
    eapply wp_mono; [apply close_law; rewrite Ho; set_solver|]. cbn beta. intros _ t2 Ho2. apply wp_modify. cbn [sk socket]. split; [|done].
    rewrite Ho2, Ho. set_solver.
Qed.

(** An orderly close by the peer ([lwip_recv] returns 0) reads as "no data". *)
Lemma transport_recv_hides_close len t t' so :
  lwip_recv so len t = Some ((0, []), t') -> transport_recv len (TCtx t so) = Some ((0, []), TCtx t' so).
Proof. intros E. unfold transport_recv. rewrite gets_run. cbn [socket]. erewrite bind_eq by (unfold onSk, zoom; cbn [sk]; rewrite E; reflexivity). reflexivity. Qed.
End props.

(** ** The slave keeps the engine's invariant *)

Section slave_props.
Context {T : Type} {SK : Sockets T} {HW : PtpHw}.

Definition slave_inv (s : slave T) : Prop := ptp_inv (sl_core s).
Lemma keeps_onSock {A} (c : M T A) : keeps slave_inv (onSock c) (fun _ => slave_inv).
Proof. eapply (keeps_zoom _ _ _ (fun _ => True) (fun _ _ => True)); [by intros ? ? ? ? ?|done|done]. Qed.
Lemma keeps_onCore {A} (c : M ptp A) : keeps ptp_inv c (fun _ => ptp_inv) -> keeps slave_inv (onCore c) (fun _ => slave_inv).
Proof. intros Hc. eapply keeps_zoom; [exact Hc|done|done]. Qed.
Lemma keeps_read_cnt : keeps slave_inv (onCore (onC ptp_clock_read_cnt)) (fun _ => slave_inv).
Proof. apply keeps_onCore, keeps_onC, keeps_read. Qed.
Lemma keeps_set_core p : ptp_inv p -> keeps slave_inv (set_core p) (fun _ => slave_inv).
Proof. intros Hp. by apply keeps_modify. Qed.

Ltac slave_step :=
  lazymatch goal with
  | |- keeps _ (onSock _) _ => apply keeps_onSock
  | |- keeps _ (onCore (onC ptp_clock_read_cnt)) _ => apply keeps_read_cnt
  | |- keeps _ (onCore (ptp_core_rx _ _ _ _)) _ => apply keeps_onCore, keeps_rx
  | |- keeps _ (onCore (ptp_core_poll _)) _ => apply keeps_onCore, keeps_poll
  | |- keeps _ (onCore (ptp_core_init _ _ _)) _ => apply keeps_onCore, keeps_init
  | |- keeps _ (modify _) _ => apply keeps_modify; intros ? ?; assumption
  | _ => keeps_step slave_inv
  end.
Ltac slave_steps := repeat (slave_step; cbn beta zeta).

Lemma keeps_slave_read sock port buf : keeps slave_inv (slave_read sock port buf) (fun _ => slave_inv).
Proof. unfold slave_read. slave_steps. Qed.
Lemma keeps_slave_tx port buf : keeps slave_inv (slave_tx_fn port buf) (fun _ => slave_inv).
Proof. unfold slave_tx_fn. slave_steps. Qed.
Lemma keeps_slave_poll now : keeps slave_inv (slave_poll now) (fun _ => slave_inv).
Proof.
  unfold slave_poll. apply (keeps_bind _ _ _ (fun e s => ptp_inv e /\ slave_inv s)); [by apply keeps_gets|]. intros e s a s' [He Hs]. revert s a s' Hs.
  match goal with |- forall s a s', slave_inv s -> ?c s = Some (a, s') -> _ => change (keeps slave_inv c (fun _ => slave_inv)) end.
  destruct (ptp_core_poll now e) as [ [u e0]|] eqn:E; [|by intros ? ? ? ? ?]. assert (ptp_inv e0) as He0 by (by eapply keeps_poll).
  destruct (drop _ _) as [|[port buf] l]; [by apply keeps_set_core|].
  apply (keeps_bind _ _ _ (fun _ => slave_inv)); [by apply keeps_set_core|intros _].
  apply (keeps_bind _ _ _ (fun _ => slave_inv)); [apply keeps_slave_tx|intros [ok cnt] ]. slave_step; [slave_step|]. cbn beta.
  apply (keeps_bind _ _ _ (fun _ => slave_inv)); [by apply keeps_set_core|intros _]. slave_step; [slave_step|]. apply keeps_onCore, keeps_onC, keeps_modify. done.
Qed.
Lemma keeps_slave_rounds n buf : keeps slave_inv (slave_rounds n buf) (fun _ => slave_inv).
Proof.
  revert buf. induction n as [|n IH]; intros buf; cbn [slave_rounds]; [by apply keeps_ret|].
  apply (keeps_bind _ _ _ (fun _ => slave_inv)); [|intros b; apply IH]. unfold slave_round. slave_steps; apply keeps_slave_read || apply keeps_slave_poll.
Qed.

(** Whatever arrives on the sockets and however often the loop has run, the
    engine of the slave stays within the bounds of its invariant. *)
Theorem slave_stays_bounded n mac buf t ev gen buf' s' :
  ptp_slave_run n mac buf (Slave t ev gen ptp_boot) = Some (buf', s') -> ptp_inv (sl_core s').
Proof.
  assert (keeps slave_inv (ptp_slave_run n mac buf) (fun _ => slave_inv)) as H.
  { unfold ptp_slave_run. apply (keeps_bind _ _ _ (fun _ => slave_inv)); [unfold slave_start, make_socket; slave_steps|].
    intros ok. apply keeps_if; [apply keeps_slave_rounds|by apply keeps_ret]. }
  apply H. split; [done|exact core_ok_zero].
Qed.
End slave_props.

(** ** A socket layer *)

(** Open sockets and bound ports; connections are refused unless [up], port 320
    is taken. *)
Record demo_sk := DemoSk { ds_open : gset Z; ds_up : bool }.
Definition ds_new (l : demo_sk) : Z := Z.of_nat (fresh (set_map Z.to_nat (ds_open l) : gset nat)).
Lemma ds_new_fresh l : ds_new l ∉ ds_open l.
Proof.
  intros H. apply (is_fresh (set_map Z.to_nat (ds_open l) : gset nat)). apply elem_of_map. exists (ds_new l). split; [|done]. unfold ds_new. by rewrite Nat2Z.id.
Qed.
#[local] Instance demo_sockets : Sockets demo_sk := {|
  lwip_socket _ := fun l => Some (ds_new l, DemoSk ({[ds_new l]} ∪ ds_open l) (ds_up l));
  lwip_setsockopt _ _ := mret 0;
  lwip_bind _ a := mret (if sin_port a =? lwip_htons 320 then -1 else 0);
  lwip_connect _ _ := gets (fun l => if ds_up l then 0 else -1);
  lwip_close s := fun l => Some (0, DemoSk (ds_open l ∖ {[s]}) (ds_up l));
  lwip_send _ b := mret (Z.of_nat (length b)); lwip_sendto _ b _ := mret (Z.of_nat (length b)); lwip_recv _ _ := mret (0, []);
  errno _ := 0; ipaddr_addr _ := 0x810100E0; tick_count := mret 0; console_out _ := mret tt |}.
#[local] Instance demo_socket_laws : SocketLaws demo_sockets.
Proof.
  refine {| opened := ds_open |}.
  - intros ty l. eexists _, _. split; [reflexivity|]. right. split; [unfold ds_new; lia|]. split; [apply ds_new_fresh|done].
  - intros s o l. by eexists _, _.
  - intros s a l. by eexists _, _.
  - intros s a l. by eexists _, _.
  - intros s l Hs. by eexists _, _.
  - intros s l. by eexists _, _.
Defined.
Lemma transport_leaks_no_socket_witness :
  exists r s', transport_connect (lit "10.0.0.1") 1883 (TCtx (DemoSk {[3]} true) (-1)) = Some (r, s') /\
    exists s'', transport_disconnect s' = Some (tt, s'') /\ ds_open (sk s'') = {[3]}.
Proof.
  destruct (transport_leaks_no_socket (lit "10.0.0.1") 1883 (DemoSk {[3]} true)) as (r & s' & E & _ & [] & s'' & E' & H & _).
  exists r, s'. split; [exact E|]. exists s''. split; [exact E'|exact H].
Defined.

(** When the second socket cannot be bound the slave returns and leaves the
    first one open. *)
Example slave_start_leaks_socket :
  match ptp_slave_run (HW := demo_hw) 5 [2; 0; 0; 0; 0; 1] (replicate 128 0) (Slave (DemoSk ∅ true) (-1) (-1) ptp_boot) with
  | Some (_, s') => ds_open (sl_sk s') = {[0]} /\ sl_ev s' = 0 /\ sl_gen s' = -1
  | None => False
  end.
Proof. vm_compute. repeat split. Qed.
