(* ===== verification/MqttPlat.v ===== *)
(** * MQTT platform services (src/demo/rpi4/mqtt_platform.c)

    The activity LED on GPIO 42 and the two JSON documents the device
    publishes: the state of the PTP slave and the state of the kernel.  The
    documents are written by the writer of Jsonw from the status of PtpCore and
    from the kernel, the heap and the interrupt table of the port. *)

From S2P Require Import Prelude CInt Decimal CStr LwipLibc Mmio Uart Lists ListSpec ListRefine Heap4 Alloc Tasks PortIrq GenetRegs PtpTime PtpMsg PtpClock PtpServo PtpUtil PtpCore PtpBmc PtpInv Jsonw.

(** ** The LED *)

Definition GPIO_BASE : Z := 0xFE200000.
Definition LED_GPIO : Z := 42.
Definition GPFSEL4 : Z := GPIO_BASE + 0x10.
Definition GPSET1 : Z := GPIO_BASE + 0x20.
Definition GPCLR1 : Z := GPIO_BASE + 0x2C.

(** The bus and [s_led]. *)
Record led := Led { l_bus : bus; s_led : Z }.

Section led.
Context {D : Device}.

Definition onLed {A} (c : M bus A) : M led A := zoom l_bus (fun b s => Led b (s_led s)) c.
Definition set_led (v : Z) : M led unit := modify (fun s => Led (l_bus s) v).

Definition fm_plat_led (on : Z) : M led Z :=
  l ← gets s_led;
  (if l <? 0 then
     v ← onLed (mmio_read32 GPFSEL4);
     let v := Z.land v (notu 32 (u32 (Z.shiftl 7 (u32 (u32 (LED_GPIO - 40) * 3))))) in
     let v := Z.lor v (u32 (Z.shiftl 1 (u32 (u32 (LED_GPIO - 40) * 3)))) in
     onLed (mmio_write32 GPFSEL4 v);;
     set_led 0
   else mret tt);;
  l ← gets s_led;
  set_led (if on <? 0 then (if negb (l =? 0) then 0 else 1) else (if negb (on =? 0) then 1 else 0));;
  l ← gets s_led;
  onLed (mmio_write32 (if negb (l =? 0) then GPSET1 else GPCLR1) (bitu 32 (LED_GPIO - 32)));;
  mret l.

Definition fm_plat_log (line : list Z) : M bus unit := uart_printf (chars "%s" ++ [10; 0]) [UaStr line].
End led.

(** ** The PTP document *)

Section ptp_json.
Context {HW : PtpHw}.

(** [for (i = 0; i < 8; i++) { id = (id << 8) | gm_id[i]; }]. *)
Fixpoint gm_loop (gm : list Z) (i : Z) (id : Z) (rounds : nat) : option Z :=
  match rounds with
  | O => Some id
  | S rounds => b ← rdb gm i; gm_loop gm (i + 1) (Z.lor (u64 (Z.shiftl id 8)) b) rounds
  end.

Definition jkey (s : string) : option (list Z) := Some (lit s).
(** [running] is the result of ptp_raw_running.  The result and the buffer. *)
Definition fm_plat_ptp_json (running : bool) (buf : list Z) (cap : Z) : M ptp (Z * list Z) :=
  if negb running then mret (0, buf)
  else
    st ← get_opt ptp_core_get_status;
    w ← of_opt (jw_init buf cap);
    w ← of_opt (jw_obj_open w);
    w ← of_opt (jw_str w (jkey "state") (lit (sta_state st)));
    w ← of_opt (jw_bool w (jkey "locked") (locked st));
    w ← of_opt (
      if sta_have_master st then
        id ← gm_loop (sta_gm_id st) 0 0 8;
        gm ← fm_hex64 id (replicate 17 0) 16;
        w ← jw_str w (jkey "gm") gm;
        w ← jw_i64 w (jkey "offset_ns") (offset_ns st);
        w ← jw_i64 w (jkey "delay_ns") (sta_delay_ns st);
        w ← jw_i64 w (jkey "freq_ppb") (freq_ppb st);
        jw_u32 w (jkey "syncs") (sta_n_sync st)
      else Some w);
    w ← (if locked st then
           t ← ptp_core_utc_now_ns;
           when ← of_opt (ptp_format_utc t (replicate 28 0));
           of_opt (jw_str w (jkey "utc") when)
         else mret w);
    w ← of_opt (jw_obj_close w);
    mret (if jw_ok w then jw_len w else 0, jbuf w).
End ptp_json.

(** ** The statistics document *)

Section stats_json.
Context {LS DS : Type} `{!ListOps item lst LS} `{!HeapOps heap} {D : Device} (lay : layout).

(** A C string in memory that may be partly uninitialised. *)
Fixpoint name_bytes (l : list (option Z)) : option (list Z) :=
  match l with
  | Some c :: l => if c =? 0 then Some [0] else r ← name_bytes l; Some (c :: r)
  | _ => None
  end.

(** The loop over the snapshot. *)
Fixpoint task_objs (w : JsonW) (ts : list TaskSnapshot_t) : option JsonW :=
  match ts with
  | [] => Some w
  | t :: ts =>
      w ← jw_obj_open w;
      nm ← name_bytes (sn_pcName t);
      w ← jw_str w (jkey "name") nm;
      w ← jw_u32 w (jkey "prio") (u32 (sn_uxPriority t));
      w ← jw_u32 w (jkey "stack") (u32 (sn_ulStackDepth t * sizeof_StackType_t));
      w ← jw_u32 w (jkey "stack_free") (u32 (sn_ulStackFree t * sizeof_StackType_t));
      w ← jw_obj_close w;
      task_objs w ts
  end.

Definition fm_plat_ms : M (port LS heap DS) Z := t ← onK xTaskGetTickCount; mret (u32 t).
Definition onHeap {A} (c : M heap A) : M (port LS heap DS) A := onK (zoom k_heap set_heap c).

Definition fm_plat_stats_json (buf : list Z) (cap : Z) : M (port LS heap DS) (Z * list Z) :=
  ts ← onK (uxTaskGetSnapshot 12);
  w ← of_opt (jw_init buf cap);
  w ← of_opt (jw_obj_open w);
  ms ← fm_plat_ms;
  w ← of_opt (jw_u32 w (jkey "uptime_s") (ms / 1000));
  free ← onHeap (xPortGetFreeHeapSize lay);
  w ← of_opt (jw_u32 w (jkey "heap_free") (u32 free));
  least ← onHeap (xPortGetMinimumEverFreeHeapSize lay);
  w ← of_opt (jw_u32 w (jkey "heap_min") (u32 least));
  irqs ← ulPortIrqCount GENET_IRQ0_INTID;
  w ← of_opt (jw_u32 w (jkey "genet_irqs") irqs);
  w ← of_opt (jw_arr_open w (jkey "tasks"));
  w ← of_opt (task_objs w ts);
  w ← of_opt (jw_arr_close w);
  w ← of_opt (jw_obj_close w);
  mret (if jw_ok w then jw_len w else 0, jbuf w).
End stats_json.
