(* ===== verification/MqttPlatProps.v ===== *)
(** * The documents are whole and the LED follows its commands

    The properties of mqtt_platform.c: the pin is configured once and then only
    set or cleared as commanded; a published document is the whole JSON text of
    the state it reports, or nothing. *)

From S2P Require Import Prelude CInt Decimal CStr LwipLibc Mmio Uart UartProps Lists ListSpec ListRefine Heap4 Heap4List Heap4Spec Alloc Heap4Props Tasks TasksInv TasksCreate TasksDemo PortIrq PortIrqProps GenetRegs PtpTime PtpMsg PtpClock PtpServo PtpUtil PtpCore PtpBmc PtpInv Jsonw MqttPlat.

(** ** The LED *)

Section led_props.
Context {D : Device}.

Fixpoint led_all (cmds : list Z) : M led (list Z) :=
  match cmds with [] => mret [] | on :: cmds => l ← fm_plat_led on; ls ← led_all cmds; mret (l :: ls) end.

(** The state after a command: on, off, or toggled. *)
Definition led_next (l on : Z) : Z := if on <? 0 then (if l =? 0 then 1 else 0) else if on =? 0 then 0 else 1.
Fixpoint led_states (l : Z) (cmds : list Z) : list Z :=
  match cmds with [] => [] | on :: cmds => let l := led_next l on in l :: led_states l cmds end.
(** What shows it: bit 10 of the set or of the clear register. *)
Definition led_write (l : Z) : Z * Z := (if l =? 0 then 0xFE20002C else 0xFE200020, 0x400).
(** Pin 42 as an output, the other pins as they were. *)
Definition pin_output (v v' : Z) : Prop :=
  forall i, 0 <= i < 32 -> Z.testbit v' i = if (6 <=? i) && (i <=? 8) then i =? 6 else Z.testbit v i.

Lemma led_ready on b l :
  0 <= l -> exists b', fm_plat_led on (Led b l) = Some (led_next l on, Led b' (led_next l on)) /\
    trace b' = trace b ++ [led_write (led_next l on)].
Proof.
  intros Hl. unfold fm_plat_led. rewrite gets_run. cbn [s_led]. rewrite (proj2 (Z.ltb_ge l 0) Hl).
  unfold mbind, M_bind, mret, M_ret, gets, set_led, modify, onLed, zoom, mmio_write32. cbn [s_led l_bus].
  assert ((if on <? 0 then if negb (l =? 0) then 0 else 1 else if negb (on =? 0) then 1 else 0) = led_next l on) as ->
    by (unfold led_next; destruct (on <? 0), (l =? 0), (on =? 0); reflexivity).
  eexists. split; [reflexivity|]. cbn [trace]. unfold led_write. by destruct (led_next l on =? 0).
Qed.
Lemma led_next_nonneg l on : 0 <= led_next l on.
Proof. unfold led_next. repeat case_match; lia. Qed.
Lemma led_all_run cmds b l :
  0 <= l -> exists b', led_all cmds (Led b l) = Some (led_states l cmds, Led b' (default l (last (led_states l cmds)))) /\
    trace b' = trace b ++ (led_write <$> led_states l cmds).
Proof.
  revert b l. induction cmds as [|on cmds IH]; intros b l Hl; cbn [led_all led_states].
  { exists b. cbn. by rewrite app_nil_r. }
  destruct (led_ready on b l Hl) as (b1 & E1 & T1). destruct (IH b1 (led_next l on) (led_next_nonneg l on)) as (b2 & E2 & T2).
  exists b2. rewrite (bind_eq _ _ _ _ _ E1), (bind_eq _ _ _ _ _ E2). split.
  - cbn zeta. rewrite last_cons. by destruct (last (led_states (led_next l on) cmds)).
  - rewrite T2, T1, <- app_assoc. done.
Qed.

(** The first command configures the pin. *)
Lemma led_first on b :
  exists v v' b0 b1, mmio_read32 GPFSEL4 b = Some (v, b0) /\ pin_output v v' /\
    fm_plat_led on (Led b (-1)) = fm_plat_led on (Led b1 0) /\ trace b1 = trace b ++ [(GPFSEL4, v')].
Proof.
  destruct (mmio_read_ok GPFSEL4 b) as (v & b0 & E & _ & T0). set (v' := Z.lor (Z.land v (notu 32 448)) 64).
  eexists v, v', b0, _. split; [exact E|]. split; [|split; [unfold fm_plat_led, mbind, M_bind, gets, onLed, zoom; cbn [s_led l_bus]; change (-1 <? 0) with true;
    cbv match beta; cbn [l_bus s_led]; rewrite E; reflexivity|] ].
  - intros i Hi. subst v'. change 64 with (2 ^ 6). rewrite Z.lor_spec, Z.land_spec, Z.pow2_bits_eqb, testbit_notu, (proj2 (Z.ltb_lt i 32)) by lia.
    change 448 with (Z.shiftl 7 6). rewrite Z.shiftl_spec by lia. destruct (Z.leb_spec 6 i); cbn [andb].
    + destruct (Z.leb_spec i 8).
      * assert (i = 6 \/ i = 7 \/ i = 8) as [->|[->| ->] ] by lia; cbn; by rewrite ?andb_false_r, ?orb_true_r.
      * rewrite (testbit_high 3 7) by (unfold in_u; change (2 ^ 3) with 8; lia). rewrite (proj2 (Z.eqb_neq 6 i)) by lia. by rewrite orb_false_r, andb_true_r.
    + rewrite (Z.testbit_neg_r 7), (proj2 (Z.eqb_neq 6 i)) by lia. by rewrite orb_false_r, andb_true_r.
  - cbn beta. cbn [trace l_bus]. by rewrite T0.
Qed.

(** The LED: for any sequence of commands (on, off, toggle) since boot, pin 42 is
    made an output exactly once, before anything else and without touching the
    other pins, and then every command makes exactly one write, of the LED's bit
    to the set or to the clear register, as the command and the state before it
    say; the state is returned. *)
Theorem led_follows_commands on cmds b :
  exists v v' b0 b', led_all (on :: cmds) (Led b (-1)) = Some (led_states 0 (on :: cmds), b') /\
    mmio_read32 GPFSEL4 b = Some (v, b0) /\ pin_output v v' /\
    trace (l_bus b') = trace b ++ [(GPFSEL4, v')] ++ (led_write <$> led_states 0 (on :: cmds)).
Proof.
  destruct (led_first on b) as (v & v' & b0 & b1 & E0 & Hp & E1 & T1). destruct (led_all_run (on :: cmds) b1 0 ltac:(lia)) as (b2 & E2 & T2).
  exists v, v', b0. eexists. split; [|split; [exact E0|split; [exact Hp|] ] ].
  - rewrite <- E2. cbn [led_all]. unfold mbind, M_bind. by rewrite E1.
  - cbn [l_bus]. by rewrite T2, T1, <- app_assoc.
Qed.

(** A line of the client's log reaches the console whole, with its end of line. *)
Lemma log_line_printed pmr line rest : is_text line -> bytes (line ++ 0 :: rest) -> UartProps.emits pmr (fm_plat_log (line ++ 0 :: rest)) tt ((line ≫= crlf) ++ [13; 10]).
Proof.
  intros Hl Hb. unfold fm_plat_log. change (chars "%s" ++ [10; 0]) with ((chars "%s" ++ [10]) ++ 0 :: []). apply emits_printf; [compute_done| |].
  - apply Forall_cons. split; [|constructor]. split; [done|]. apply elem_of_app. right. by left.
  - pose proof (upto0_text line rest Hl) as E. set (s := line ++ 0 :: rest) in *. clearbody s. rewrite <- E. reflexivity.
Qed.
End led_props.

Lemma led_follows_commands_run :
  exists b', led_all (D := fun _ _ _ => 0) [1; -1; -1; 0] (Led (mkBus ∅ 0 []) (-1)) = Some ([1; 0; 1; 0], b') /\
    trace (l_bus b') = [(0xFE200010, 0x40); (0xFE200020, 0x400); (0xFE20002C, 0x400); (0xFE200020, 0x400); (0xFE20002C, 0x400)].
Proof. eexists. split; vm_compute; reflexivity. Qed.

(** ** Documents *)

Lemma jw_all_app l l' w : jw_all (l ++ l') w = w ← jw_all l w; jw_all l' w.
Proof. revert w. induction l as [|n l IH]; intros w; [done|]. cbn [app jw_all]. destruct (jw_write n w); [|done]. apply IH. Qed.

(** The result of a document: its whole text, or nothing. *)
Definition published (buf : list Z) (cap : nat) (doc : jnode) : Z * list Z :=
  (if bool_decide (length (text doc) < cap)%nat then Z.of_nat (length (text doc)) else 0, kept buf cap (text doc)).
Lemma document_published l buf cap :
  nodes_ok l -> (0 < cap <= length buf)%nat -> Z.of_nat cap < 2 ^ 64 ->
  exists w0 w1 w2 w3, jw_init buf (Z.of_nat cap) = Some w0 /\ jw_obj_open w0 = Some w1 /\ jw_all l w1 = Some w2 /\ jw_obj_close w2 = Some w3 /\
    (if jw_ok w3 then jw_len w3 else 0, jbuf w3) = published buf cap (JObj l).
Proof.
  intros Hl Hc Hm. destruct (jw_doc_text (JObj l) buf cap) as (w & E & Hb & Hn & Ho); [by apply node_ok_obj|done|done|].
  destruct (jw_init buf (Z.of_nat cap)) as [w0|] eqn:E0; [|done]. rewrite obind_some, jw_write_obj in E.
  destruct (jw_obj_open w0) as [w1|] eqn:E1; [|done]. rewrite obind_some in E. destruct (jw_all l w1) as [w2|] eqn:E2; [|done]. rewrite obind_some in E.
  exists w0, w1, w2, w. split_and!; try done. unfold published, kept. rewrite Ho, Hn, Hb. f_equal. destruct (bool_decide _) eqn:Ec; [|done].
  apply bool_decide_eq_true in Ec. f_equal. lia.
Qed.

(** Reading a string argument stops at its terminator. *)
Lemma escape_loop_stop w t rest : is_text t -> escape_loop w (t ++ 0 :: rest) = escape_loop w (t ++ [0]).
Proof.
  revert w. induction t as [|c t IH]; intros w Ht; [done|]. apply is_text_cons in Ht as [Hc Ht]. cbn [app escape_loop]. case_match; [|done].
  match goal with |- (?o ≫= _) = _ => destruct o; [|done] end. rewrite !obind_some. by apply IH.
Qed.
Lemma jw_str_stop w k t rest : is_text t -> jw_str w k (t ++ 0 :: rest) = jw_str w k (cstr t).
Proof.
  intros Ht. unfold jw_str, put_escaped. destruct (key w k) as [w1|]; [|done]. rewrite !obind_some. destruct (put_c w1 34) as [w2|]; [|done].
  rewrite !obind_some. unfold cstr. by rewrite escape_loop_stop.
Qed.

(** ** The calendar's text *)

Lemma wrb_ok (p : list Z) o v n : length p = n -> 0 <= o < Z.of_nat n -> bytes p -> is_byte v -> exists p', wrb p o v = Some p' /\ length p' = n /\ bytes p'.
Proof.
  intros <- Ho Hp Hv. unfold wrb. rewrite bool_decide_true by done. eexists. split; [done|]. split; [apply length_insert|]. by apply Forall_insert.
Qed.
Lemma put_num_ok w p o v n :
  length p = n -> 0 <= o -> o + Z.of_nat w <= Z.of_nat n -> bytes p -> exists p', put_num p o v w = Some p' /\ length p' = n /\ bytes p'.
Proof.
  revert p v. induction w as [|w IH]; intros p v Hl Ho Hw Hp; cbn [put_num]; [by exists p|].
  destruct (wrb_ok p (o + Z.of_nat w) (48 + v mod 10) n) as (p1 & -> & Hl1 & Hp1); [done|lia|done| |].
  { pose proof (Z.mod_pos_bound v 10 ltac:(lia)). unfold is_byte, in_u. change (2 ^ 8) with 256. lia. }
  rewrite obind_some. apply IH; (done || lia).
Qed.
(** The date of any time is a string. *)
Lemma format_utc_string t : exists b, ptp_format_utc t (replicate 28 0) = Some b /\ cstring b.
Proof.
  unfold ptp_format_utc. destruct (split_utc t) as [ [z sod] ns]. destruct (civil_from_days z) as [ [y m] d].
  assert (length (replicate 28 0) = 28%nat) as Hl by done. assert (bytes (replicate 28 0)) as Hb by (apply Forall_replicate; compute_done).
  revert Hl Hb. generalize (replicate 28 0). intros p Hl Hb.
  repeat match goal with
  | |- context [put_num ?p ?o ?v ?w] =>
      let p1 := fresh "p" in let H := fresh in let L := fresh in let B := fresh in
      destruct (put_num_ok w p o v 28 ltac:(assumption) ltac:(lia) ltac:(cbn; lia) ltac:(assumption)) as (p1 & H & L & B); rewrite H, obind_some; clear H
  | |- context [wrb ?p ?o ?v ≫= _] =>
      let p1 := fresh "p" in let H := fresh in let L := fresh in let B := fresh in
      destruct (wrb_ok p o v 28 ltac:(assumption) ltac:(lia) ltac:(assumption) ltac:(compute_done)) as (p1 & H & L & B); rewrite H, obind_some; clear H
  end.
  match goal with |- exists b, wrb ?p 26 0 = _ /\ _ => assert (length p = 28%nat) as Hlen by assumption; assert (bytes p) as Hby by assumption; generalize dependent p end.
  intros q Hq Hqb. unfold wrb. rewrite bool_decide_true by lia. eexists. split; [done|]. apply cstring_bytes.
  - apply Forall_insert; [done|compute_done].
  - apply list_elem_of_lookup. exists 26%nat. apply list_lookup_insert_eq. lia.
Qed.

(** ** The PTP document *)

(** Eight bytes as a big-endian number. *)
Definition be_value (l : list Z) : Z := foldl (fun id b => id * 256 + b) 0 l.
Lemma gm_loop_value l pre rest id i :
  bytes l -> i = Z.of_nat (length pre) -> 0 <= id < 256 ^ i -> i + Z.of_nat (length l) <= 8 ->
  gm_loop (pre ++ l ++ rest) i id (length l) = Some (foldl (fun id b => id * 256 + b) id l).
Proof.
  revert pre id i. induction l as [|b l IH]; intros pre id i Hb Hi Hid Hl; [done|]. apply Forall_cons in Hb as [Hb Hbs]. cbn [length gm_loop foldl] in *.
  assert (rdb (pre ++ (b :: l) ++ rest) i = Some b) as ->.
  { unfold rdb. rewrite (proj2 (Z.ltb_ge i 0)) by lia. rewrite lookup_app_r by lia. by replace (Z.to_nat i - length pre)%nat with 0%nat by lia. }
  rewrite obind_some. unfold is_byte, in_u in Hb. change (2 ^ 8) with 256 in Hb.
  assert (256 ^ (i + 1) = 256 * 256 ^ i) as Hp by (rewrite Z.pow_add_r by lia; lia).
  assert (256 ^ (i + 1) <= 256 ^ 8) as Hm by (apply Z.pow_le_mono_r; lia). change (256 ^ 8) with 18446744073709551616 in Hm.
  assert (Z.lor (u64 (Z.shiftl id 8)) b = id * 256 + b) as ->.
  { rewrite u64_ok, Z.lor_comm, lor_shiftl_add by (rewrite ?Z.shiftl_mul_pow2; unfold in_u; lia). lia. }
  replace (pre ++ (b :: l) ++ rest) with ((pre ++ [b]) ++ l ++ rest) by (by rewrite <- app_assoc). apply IH; [done|rewrite length_app; cbn; lia|lia|lia].
Qed.

(** A status within the ranges of its fields. *)
Record status_ok (st : PtpStatus) : Prop := {
  so_state : is_text (chars (sta_state st));
  so_gm : bytes (sta_gm_id st) /\ length (sta_gm_id st) = 8%nat;
  so_offset : in_s 64 (offset_ns st); so_delay : in_s 64 (sta_delay_ns st); so_freq : in_s 64 (freq_ppb st);
  so_syncs : in_u 32 (sta_n_sync st) }.
Definition jk (s : string) : option (list Z) := Some (chars s).
(** The members of the document. *)
Definition ptp_nodes (st : PtpStatus) (when : list Z) : list jnode :=
  [JStr (jk "state") (chars (sta_state st)); JBool (jk "locked") (locked st)] ++
  (if sta_have_master st then
     [JStr (jk "gm") (hex_text (be_value (sta_gm_id st)) 16); JI64 (jk "offset_ns") (offset_ns st); JI64 (jk "delay_ns") (sta_delay_ns st);
      JI64 (jk "freq_ppb") (freq_ppb st); JU32 (jk "syncs") (sta_n_sync st)] else []) ++
  (if locked st then [JStr (jk "utc") when] else []).
Lemma ptp_nodes_ok st when : status_ok st -> is_text when -> nodes_ok (ptp_nodes st when).
Proof.
  intros [Hs [Hg _] Ho Hd Hf Hn] Hw. unfold ptp_nodes, nodes_ok. rewrite !Forall_app. split; [|split].
  - apply Forall_cons. split; [split; [compute_done|exact Hs]|]. apply Forall_cons. split; [compute_done|constructor].
  - destruct (sta_have_master st); [|constructor]. apply Forall_cons. split; [split; [compute_done|apply hex_text_ok]|].
    do 4 (apply Forall_cons; split; [split; [compute_done|assumption]|]). constructor.
  - destruct (locked st); constructor; [split; [compute_done|exact Hw]|constructor].
Qed.

(** The calls of the document are those of the code. *)
Lemma ptp_members st when w :
  (w ← jw_str w (jkey "state") (lit (sta_state st)); w ← jw_bool w (jkey "locked") (locked st);
   w ← (if sta_have_master st then
          w ← jw_str w (jkey "gm") (cstr (hex_text (be_value (sta_gm_id st)) 16)); w ← jw_i64 w (jkey "offset_ns") (offset_ns st);
          w ← jw_i64 w (jkey "delay_ns") (sta_delay_ns st); w ← jw_i64 w (jkey "freq_ppb") (freq_ppb st); jw_u32 w (jkey "syncs") (sta_n_sync st)
        else Some w);
   if locked st then jw_str w (jkey "utc") (cstr when) else Some w) = jw_all (ptp_nodes st when) w.
Proof.
  unfold ptp_nodes. destruct (sta_have_master st), (locked st); cbn [app jw_all jw_write]; unfold jk, jkey, lit, cstr; cbn [fmap option_fmap option_map];
    repeat (match goal with |- (?o ≫= _) = _ => destruct o; [|reflexivity]; rewrite ?obind_some | |- (?o ≫= _) ≫= _ = _ => destruct o; [|reflexivity]; rewrite ?obind_some end);
    try reflexivity; match goal with |- ?o = _ => by destruct o end.
Qed.

Section ptp_doc.
Context {HW : PtpHw}.

(** The PTP document is whole: with a status in range and, when locked, a time
    the clock can express, the call returns the length of exactly the JSON text
    of the status (identity of the grandmaster in hexadecimal, offset, delay,
    frequency and count when there is a master, the date when locked), stored
    with its terminator; a text that does not fit is reported as nothing. *)
Theorem ptp_json_whole e st t e' buf cap :
  ptp_core_get_status e = Some st -> status_ok st ->
  (if locked st then ptp_core_utc_now_ns e = Some (t, e') else e' = e) -> (0 < cap <= length buf)%nat -> Z.of_nat cap < 2 ^ 64 ->
  exists when rest, ptp_format_utc t (replicate 28 0) = Some (when ++ 0 :: rest) /\ is_text when /\
    fm_plat_ptp_json true buf (Z.of_nat cap) e = Some (published buf cap (JObj (ptp_nodes st when)), e').
Proof.
  intros Hst Hok Ht Hc Hm. destruct (format_utc_string t) as (b & Ef & when & rest & Hw & ->). exists when, rest. split; [exact Ef|]. split; [exact Hw|].
  destruct (document_published (ptp_nodes st when) buf cap (ptp_nodes_ok st when Hok Hw) Hc Hm) as (w0 & w1 & w2 & w3 & E0 & E1 & E2 & E3 & Hpub).
  rewrite <- ptp_members in E2.
  unfold fm_plat_ptp_json. cbn [negb]. erewrite bind_eq by (unfold get_opt; rewrite Hst; reflexivity).
  rewrite (opt_run _ _ _ _ E0), (opt_run _ _ _ _ E1).
  destruct (jw_str w1 _ _) as [wa|] eqn:Ea; [|done]. rewrite obind_some in E2. rewrite (opt_run _ wa) by done.
  destruct (jw_bool wa _ _) as [wb|] eqn:Eb; [|done]. rewrite obind_some in E2. rewrite (opt_run _ wb) by done.
  destruct (if sta_have_master st then _ else Some wb) as [wc|] eqn:Ec; [|done]. rewrite obind_some in E2.
  assert (gm_loop (sta_gm_id st) 0 0 8 = Some (be_value (sta_gm_id st))) as Eid.
  { destruct (so_gm _ Hok) as [Hb Hl]. pose proof (gm_loop_value (sta_gm_id st) [] [] 0 0 Hb eq_refl ltac:(lia) ltac:(lia)) as H. rewrite app_nil_r, Hl in H. exact H. }
  pose proof (fm_hex64_text (be_value (sta_gm_id st)) (replicate 17 0) 16 ltac:(cbn; lia)) as Ex. change (Z.of_nat 16) with 16 in Ex.
  rewrite (opt_run _ wc); [|destruct (sta_have_master st); [by rewrite Eid, obind_some, Ex|done] ].
  assert ((if locked st then t ← ptp_core_utc_now_ns; when ← of_opt (ptp_format_utc t (replicate 28 0)); of_opt (jw_str wc (jkey "utc") when) else mret wc) e = Some (w2, e')) as Eu.
  { destruct (locked st); [|subst e'; by injection E2 as <-]. rewrite (bind_eq _ _ _ _ _ Ht), (opt_run _ _ _ _ Ef).
    rewrite jw_str_stop by done. unfold of_opt, get_opt. by rewrite E2. }
  rewrite (bind_eq _ _ _ _ _ Eu), (opt_run _ _ _ _ E3). by rewrite <- Hpub.
Qed.
End ptp_doc.

(** ** The statistics document *)

(** The name of a snapshot entry. *)
Definition tname (e : TaskSnapshot_t) : list Z := removelast (default [] (name_bytes (sn_pcName e))).
(** A task's name is a terminated text. *)
Definition named (l : list (option Z)) : Prop := exists t, name_bytes l = Some (cstr t) /\ is_text t.
Definition task_members (e : TaskSnapshot_t) : list jnode :=
  [JStr (jk "name") (tname e); JU32 (jk "prio") (u32 (sn_uxPriority e)); JU32 (jk "stack") (u32 (8 * sn_ulStackDepth e));
   JU32 (jk "stack_free") (u32 (8 * sn_ulStackFree e))].
Definition task_node (e : TaskSnapshot_t) : jnode := JObj (task_members e).
Definition stats_nodes (ticks free least irqs : Z) (ts : list TaskSnapshot_t) : list jnode :=
  [JU32 (jk "uptime_s") (u32 ticks / 1000); JU32 (jk "heap_free") (u32 free); JU32 (jk "heap_min") (u32 least);
   JU32 (jk "genet_irqs") irqs; JArr (jk "tasks") (task_node <$> ts)].

Lemma named_tname e t : name_bytes (sn_pcName e) = Some (cstr t) -> tname e = t.
Proof. intros E. unfold tname. rewrite E. cbn. unfold cstr. apply removelast_last. Qed.
Lemma task_objs_all ts w : Forall (fun e => named (sn_pcName e)) ts -> task_objs w ts = jw_all (task_node <$> ts) w.
Proof.
  intros H. revert w. induction H as [|e ts (t & E & Ht) _ IH]; intros w; [done|]. cbn [task_objs fmap list_fmap jw_all].
  change (jw_write (task_node e) w) with (jw_write (JObj (task_members e)) w). rewrite jw_write_obj. unfold task_members. rewrite (named_tname e t E), E. cbn [jw_all jw_write]. rewrite !(Z.mul_comm 8). unfold sizeof_StackType_t, jk, jkey, lit, cstr. cbn [fmap option_fmap option_map].
  destruct (jw_obj_open w) as [w1|]; [|done]. rewrite !obind_some.
  do 4 (match goal with |- (?o ≫= _) = _ => destruct o; [|done] end; rewrite !obind_some). destruct (jw_obj_close _); [|done]. rewrite !obind_some. apply IH.
Qed.
Lemma u32_in x : in_u 32 (u32 x).
Proof. by apply wrapu_range. Qed.
Lemma stats_nodes_ok ticks free least irqs ts :
  in_u 32 irqs -> Forall (fun e => named (sn_pcName e)) ts -> nodes_ok (stats_nodes ticks free least irqs ts).
Proof.
  intros Hi Hn. assert (in_u 32 (u32 ticks / 1000)) as Hu.
  { pose proof (u32_in ticks) as Hu. unfold in_u in *. split; [apply Z.div_pos; lia|]. apply Z.div_lt_upper_bound; lia. }
  unfold stats_nodes, nodes_ok. apply Forall_cons. split; [split; [compute_done|exact Hu]|]. do 2 (apply Forall_cons; split; [split; [compute_done|apply u32_in]|]).
  apply Forall_cons. split; [split; [compute_done|exact Hi]|]. apply Forall_cons. split; [|constructor]. apply node_ok_arr. split; [compute_done|].
  unfold nodes_ok. apply Forall_fmap. eapply Forall_impl; [exact Hn|]. intros e (t & E & Ht). unfold compose, task_node. apply node_ok_obj. unfold task_members.
  rewrite (named_tname e t E). apply Forall_cons. split; [split; [compute_done|exact Ht]|]. do 3 (apply Forall_cons; split; [split; [compute_done|apply u32_in]|]). constructor.
Qed.

(** One number of the document, in the code and in [jw_all]. *)
Ltac number_step E2 :=
  match type of E2 with (jw_write (JU32 (jk ?s) ?v) ?w ≫= _) = _ =>
    change (jw_write (JU32 (jk s) v) w) with (jw_u32 w (jkey s) v) in E2; let w' := fresh "w" in let E := fresh "E" in
    destruct (jw_u32 w (jkey s) v) as [w'|] eqn:E; [|done]; rewrite obind_some in E2; rewrite (opt_run (Some w') w') by done end.

Section stats_doc.
Context `{Qs : Queues} {LS DS : Type} `{!ListOps item lst LS} `{!ListLaws item lst LS} `{!HeapOps heap} `{!HeapLaws heap} {D : Device} (lay : layout).
Implicit Types p : port LS heap DS.

(** The statistics document is whole: with the kernel's invariant, the call
    changes nothing and returns the length of exactly the JSON text that reports
    the uptime in seconds, the free heap now and at its least, the Ethernet
    interrupts, and for each of the first twelve tasks its name, priority, stack
    size and untouched stack in bytes; a text that does not fit is reported as
    nothing. *)
Theorem stats_json_whole p A live irqs buf cap (k := p_kernel p) :
  kinv None k A live -> pxEnd (k_heap k) <> NULL -> (forall t T, k_tcbs k !! t = Some T -> named (pcTaskName T)) ->
  ulPortIrqCount GENET_IRQ0_INTID p = Some (irqs, p) -> in_u 32 irqs -> (0 < cap <= length buf)%nat -> Z.of_nat cap < 2 ^ 64 ->
  exists ts, length ts = Z.to_nat (Z.min 12 (uxRegisteredTasks k)) /\ (forall j e, ts !! j = Some e -> describes k j e) /\
    fm_plat_stats_json lay buf (Z.of_nat cap) p =
      Some (published buf cap (JObj (stats_nodes (xTickCount k) (xFreeBytesRemaining (k_heap k)) (xMinimumEverFreeBytes (k_heap k)) irqs ts)), p).
Proof.
  intros Hk Hend Hnm Hirq Hi Hc Hm. destruct (wp_uxTaskGetSnapshot k A live 12 Hk) as (ts & k' & Ets & -> & Hl & Hd). exists ts. split; [exact Hl|]. split; [exact Hd|].
  assert (Forall (fun e => named (sn_pcName e)) ts) as Hts.
  { apply Forall_lookup. intros j e Hj. destruct (Hd j e Hj) as (t & T & _ & HT & -> & _). by eapply Hnm. }
  set (nodes := stats_nodes _ _ _ _ _). destruct (document_published nodes buf cap) as (w0 & w1 & w2 & w3 & E0 & E1 & E2 & E3 & Hpub); [by apply stats_nodes_ok|done|done|].
  assert (forall B (c : M (kernel LS heap) B) a, c k = Some (a, k) -> onK c p = Some (a, p)) as HonK
    by (intros B c a E; unfold onK, zoom; fold k; rewrite E; by destruct p).
  assert (forall (f : heap -> Z), onHeap (init_if_needed lay;; gets f) p = Some (f (k_heap k), p)) as Hheap.
  { intros f. apply HonK. unfold zoom, init_if_needed. rewrite bind_eq with (a := tt) (s' := k_heap k).
    - cbn. by destruct k.
    - rewrite gets_run, (proj2 (Z.eqb_neq _ _) Hend). done. }
  unfold fm_plat_stats_json. rewrite (bind_eq _ _ _ _ _ (HonK _ _ _ Ets)), (opt_run _ _ _ _ E0), (opt_run _ _ _ _ E1).
  assert (fm_plat_ms p = Some (u32 (xTickCount k), p)) as Ems by (unfold fm_plat_ms; by rewrite (bind_eq _ _ _ _ _ (HonK _ xTaskGetTickCount _ eq_refl))).
  rewrite (bind_eq _ _ _ _ _ Ems). subst nodes. unfold stats_nodes in E2. cbn [jw_all] in E2.
  number_step E2. unfold xPortGetFreeHeapSize. rewrite (bind_eq _ _ _ _ _ (Hheap _)). number_step E2.
  unfold xPortGetMinimumEverFreeHeapSize. rewrite (bind_eq _ _ _ _ _ (Hheap _)). number_step E2. rewrite (bind_eq _ _ _ _ _ Hirq). number_step E2.
  rewrite jw_write_arr in E2. change (cstr <$> jk "tasks") with (jkey "tasks") in E2.
  destruct (jw_arr_open _ _) as [wa|] eqn:Ea; [|done]. rewrite obind_some in E2. rewrite (opt_run (Some wa) wa) by done. rewrite <- task_objs_all in E2 by done.
  destruct (task_objs wa ts) as [wb|] eqn:Eb; [|done]. rewrite obind_some in E2. rewrite (opt_run (Some wb) wb) by done.
  destruct (jw_arr_close wb) as [wc|] eqn:Ec; [|done]. injection E2 as <-. rewrite (opt_run (Some wc) wc), (opt_run _ _ _ _ E3) by done. by rewrite <- Hpub.
Qed.
End stats_doc.

(** ** Concrete documents *)

Definition named_b (l : list (option Z)) : bool :=
  match name_bytes l with Some b => bool_decide (is_text (removelast b) /\ b = cstr (removelast b)) | None => false end.
Lemma named_b_ok l : named_b l = true -> named l.
Proof. unfold named_b. destruct (name_bytes l) as [b|] eqn:E; [|done]. rewrite bool_decide_eq_true. intros [Ht Hb]. exists (removelast b). split; [by rewrite E, <- Hb|done]. Qed.
Definition demo_stats_port : port (lmem item lst) heap unit :=
  Port demo (mkBus ∅ 0 []) tt (replicate 4 (IrqSlot 0 0 0)) 0 54000 1 0 0.
Lemma forallb_map {A} (f : A -> bool) (m : gmap Z A) k x : forallb (fun y => f y.2) (map_to_list m) = true -> m !! k = Some x -> f x = true.
Proof. intros H Hk. rewrite forallb_forall in H. apply (H (k, x)). by apply list_elem_of_In, elem_of_map_to_list. Qed.
Lemma demo_names : forallb (fun x => named_b (pcTaskName x.2)) (map_to_list (k_tcbs demo)) = true.
Proof. vm_compute. reflexivity. Qed.
Lemma demo_named t T : k_tcbs demo !! t = Some T -> named (pcTaskName T).
Proof. intros HT. apply named_b_ok. exact (forallb_map (fun x => named_b (pcTaskName x)) _ t T demo_names HT). Qed.
Lemma stats_json_whole_witness :
  exists ts, length ts = 4%nat /\
    fm_plat_stats_json demo_layout (replicate 512 0) (Z.of_nat 512) demo_stats_port =
      Some (published (replicate 512 0) 512 (JObj (stats_nodes (xTickCount (p_kernel demo_stats_port)) (xFreeBytesRemaining (k_heap (p_kernel demo_stats_port)))
        (xMinimumEverFreeBytes (k_heap (p_kernel demo_stats_port))) 0 ts)), demo_stats_port).
Proof.
  destruct demo_ok as (A & live & Hk).
  destruct (stats_json_whole (Qs := no_queues) demo_layout demo_stats_port A live 0 (replicate 512 0) 512) as (ts & Hl & _ & E);
    [exact Hk|vm_compute; discriminate|exact demo_named|reflexivity|done|cbn; lia|done|].
  exists ts. split; [etrans; [exact Hl|vm_compute; reflexivity]|]. exact E.
Defined.
