(* ===== verification/NetDemo.v ===== *)
(** * The network task of the demonstration (src/demo/rpi4/net_demo.c)

    One task owns the network stack.  Its own state are four static variables;
    everything else it does is a call of another component, kept in order in a
    log, whose result is what the interface [NetWorld] answers after the calls so
    far.  The MQTT client pumps the network while it waits, so a call of it runs
    any number of pumps.  Console messages are structured. *)

From S2P Require Import Prelude CInt Decimal CStr Jsonw.

Definition configMQTT_BROKER_HOST : list Z := lit "test.mosquitto.org".
Definition configMQTT_BROKER_PORT : Z := 1883.
Definition FALLBACK_DNS0 : Z := 0x01010101.
Definition FALLBACK_DNS1 : Z := 0x08080808.

(** A message on the console. *)
Inductive net_msg :=
| MBringUp | MStackUp | MEcho (bytes : Z) | MLease | MIp (a : Z) | MGw (a : Z) | MMask (a : Z) | MDnsNone | MDns (a : Z) | MPing
| MLink (up : bool) | MReport (ip dhcp_state : Z) | MBroker (id : list Z).

(** A call of another component, with the result the code looks at. *)
Inductive net_call :=
| Cprintf (m : net_msg)
| Clwip_init | Cnetif_add (ip mask gw : Z) | Cnetif_set_default | Cnetif_set_up | Cdhcp_start
| Cudp_new (pcb : Z) | Cudp_bind (pcb port : Z) | Cudp_recv (pcb : Z) | Cudp_sendto (pcb p addr port : Z) | Cpbuf_free (p : Z)
| Cgenet_diag | Cgenet_probe | Cnetif_poll | Ccheck_timeouts | Ctick (now : Z)
| Cptp_raw_poll (now : Z) | Cptp_raw_start | Cdns_setserver (i a : Z)
| Cmbox_get_serial (serial : option Z) | Cflint_mqtt_init (id host : list Z) (port : Z) | Cflint_mqtt_service
| Cgenet_link_up (up : bool) | Cgenet_adjust_link | Cgenet_diag_rings | CvTaskDelay (ticks : Z).

(** The results, by the number of calls so far.  [nw_pumps] are the pumps the
    MQTT client runs during a call, with their [idle] arguments. *)
Class NetWorld := {
  nw_tick : nat -> Z; nw_ip : nat -> Z; nw_gw : nat -> Z; nw_mask : nat -> Z; nw_dns0 : nat -> option Z;
  nw_pcb : nat -> Z; nw_serial : nat -> option Z; nw_link : nat -> bool; nw_dhcp : nat -> option Z;
  nw_hwaddr : list Z; nw_pumps : nat -> list bool }.

Record netd := Netd { s_bound : bool; s_link_up : bool; s_last_link_ms : Z; s_last_report_ms : Z; ncalls : list net_call }.

Section net_demo.
Context {W : NetWorld}.

Definition call (c : net_call) : M netd unit :=
  modify (fun s => Netd (s_bound s) (s_link_up s) (s_last_link_ms s) (s_last_report_ms s) (ncalls s ++ [c])).
Definition ask {A} (f : nat -> A) : M netd A := gets (fun s => f (length (ncalls s))).
Definition printf (m : net_msg) : M netd unit := call (Cprintf m).

Definition net_demo_bound : M netd bool := gets s_bound.

Definition udp_echo_recv (tot_len pcb p addr port : Z) : M netd unit :=
  if negb (p =? 0) then printf (MEcho tot_len);; call (Cudp_sendto pcb p addr port);; call (Cpbuf_free p) else mret tt.

Definition flint_net_init : M netd unit :=
  call Clwip_init;;
  call (Cnetif_add 0 0 0);;
  call Cnetif_set_default;;
  call Cnetif_set_up;;
  call Cdhcp_start;;
  pcb ← ask nw_pcb; call (Cudp_new pcb);;
  (if negb (pcb =? 0) then call (Cudp_bind pcb 7);; call (Cudp_recv pcb) else mret tt);;
  printf MStackUp.

Definition dns_setup : M netd unit :=
  d0 ← ask nw_dns0;
  match d0 with
  | Some a =>
      if a =? 0 then call (Cdns_setserver 0 FALLBACK_DNS0);; call (Cdns_setserver 1 FALLBACK_DNS1);; printf MDnsNone
      else printf (MDns a)
  | None => call (Cdns_setserver 0 FALLBACK_DNS0);; call (Cdns_setserver 1 FALLBACK_DNS1);; printf MDnsNone
  end.

(** [for (i = 0; i < 6; i++) { m = (m << 8) | s_netif.hwaddr[i]; }]. *)
Fixpoint mac_loop (hw : list Z) (i m : Z) (rounds : nat) : option Z :=
  match rounds with
  | O => Some m
  | S rounds => b ← rdb hw i; mac_loop hw (i + 1) (Z.lor (u64 (Z.shiftl m 8)) b) rounds
  end.
(** [id] and [hex] are the uninitialised arrays. *)
Definition mqtt_start (id hex : list Z) : M netd unit :=
  id ← of_opt (fm_strlcpy id 0 (lit "flint-") 32);
  serial ← ask nw_serial; call (Cmbox_get_serial serial);;
  id ← of_opt (match serial with
               | Some serial => h ← fm_hex64 serial hex 16; fm_strlcat id h 32
               | None => m ← mac_loop nw_hwaddr 0 0 6; h ← fm_hex64 m hex 12; fm_strlcat id h 32
               end);
  call (Cflint_mqtt_init id configMQTT_BROKER_HOST (u16 configMQTT_BROKER_PORT));;
  printf (MBroker id).

Definition set_bound (v : bool) : M netd unit := modify (fun s => Netd v (s_link_up s) (s_last_link_ms s) (s_last_report_ms s) (ncalls s)).
Definition set_link (v : bool) : M netd unit := modify (fun s => Netd (s_bound s) v (s_last_link_ms s) (s_last_report_ms s) (ncalls s)).
Definition set_link_ms (v : Z) : M netd unit := modify (fun s => Netd (s_bound s) (s_link_up s) v (s_last_report_ms s) (ncalls s)).
Definition set_report_ms (v : Z) : M netd unit := modify (fun s => Netd (s_bound s) (s_link_up s) (s_last_link_ms s) v (ncalls s)).

(** The parts of [net_pump]: the lease, the link, the report. *)
Definition pump_lease (id hex : list Z) : M netd unit :=
  bound ← gets s_bound; ip ← ask nw_ip;
  if negb bound && negb (ip =? 0) then
    set_bound true;;
    printf MLease;;
    ip ← ask nw_ip; printf (MIp ip);;
    gw ← ask nw_gw; printf (MGw gw);;
    mask ← ask nw_mask; printf (MMask mask);;
    dns_setup;;
    printf MPing;;
    call Cptp_raw_start;;
    mqtt_start id hex
  else mret tt.
Definition pump_link (now : Z) : M netd unit :=
  last ← gets s_last_link_ms;
  if 1000 <=? u32 (now - last) then
    up ← ask nw_link; call (Cgenet_link_up up);;
    set_link_ms now;;
    l ← gets s_link_up;
    if negb (Bool.eqb up l) then
      printf (MLink up);;
      set_link up;;
      (if up : bool then call Cgenet_adjust_link else mret tt)
    else mret tt
  else mret tt.
Definition pump_report (now : Z) : M netd unit :=
  last ← gets s_last_report_ms;
  if 30000 <=? u32 (now - last) then
    d ← ask nw_dhcp;
    set_report_ms now;;
    call Cgenet_diag_rings;;
    ip ← ask nw_ip;
    printf (MReport ip (match d with Some st => st | None => 0 end))
  else mret tt.
Definition net_pump (id hex : list Z) (idle : bool) : M netd unit :=
  call Cnetif_poll;;
  call Ccheck_timeouts;;
  t ← ask nw_tick; let now := u32 t in call (Ctick now);;
  call (Cptp_raw_poll now);;
  pump_lease id hex;;
  pump_link now;;
  pump_report now;;
  if idle then call (CvTaskDelay 1) else mret tt.

(** The services of mqtt_platform.c that belong to the task; lwIP's formatter is
    an argument. *)
Definition fm_plat_pump (id hex : list Z) (idle : bool) : M netd unit := net_pump id hex idle.
Definition fm_plat_ip (ip4addr_ntoa : Z -> list Z) : M netd (list Z) := ip ← ask nw_ip; mret (ip4addr_ntoa ip).

Fixpoint pumps (id hex : list Z) (idles : list bool) : M netd unit :=
  match idles with [] => mret tt | idle :: idles => fm_plat_pump id hex idle;; pumps id hex idles end.
(** A call of the MQTT client, with the pumps it runs while it waits. *)
Definition mqtt_service (id hex : list Z) : M netd unit :=
  ps ← ask nw_pumps; call Cflint_mqtt_service;; pumps id hex ps.

(** One round of the task's loop, and any number of them. *)
Definition task_round (id hex : list Z) : M netd unit :=
  net_pump id hex false;;
  bound ← gets s_bound;
  (if (bound : bool) then mqtt_service id hex else mret tt);;
  call (CvTaskDelay 1).
Fixpoint task_rounds (id hex : list Z) (n : nat) : M netd unit :=
  match n with O => mret tt | S n => task_round id hex;; task_rounds id hex n end.
Definition vNetworkTask (id hex : list Z) (n : nat) : M netd unit :=
  printf MBringUp;;
  flint_net_init;;
  call Cgenet_diag;;
  call Cgenet_probe;;
  t ← ask nw_tick; call (Ctick (u32 t));; set_report_ms (u32 t);;
  task_rounds id hex n.

(** The static variables at boot. *)
Definition netd_boot : netd := Netd false false 0 0 [].
End net_demo.
