(* ===== verification/NetDemoProps.v ===== *)
(** * The network task keeps the order of its calls

    The log of the calls the task makes is checked by an automaton: the services
    are started once, under the right name, before they are used; the link is
    looked at no more than once a second, and the controller is adjusted exactly
    when it comes up. *)

From S2P Require Import Prelude CInt Decimal CStr Jsonw MqttPlat MqttPlatProps NetDemo.

(** ** The protocol *)

(** What the calls so far have done: the last time read, the time of the last
    link check, the state it found, whether an adjustment is due, the serial
    number the firmware gave, and whether the PTP slave and the MQTT client were
    started. *)
Record watch := Watch { w_now : Z; w_checked : Z; w_link : bool; w_due : bool; w_serial : option Z; w_ptp : bool; w_mqtt : bool }.
Definition watch0 : watch := Watch 0 0 false false None false false.

Section protocol.
Context {W : NetWorld} (id hex : list Z).
Implicit Types (s : netd) (w : watch).

(** The client's name: the board's serial number, or the hardware address. *)
Definition client_id (serial : option Z) : list Z :=
  chars "flint-" ++ match serial with Some n => hex_text n 16 | None => hex_text (be_value nw_hwaddr) 12 end.

(** One call; None is a call that is out of order. *)
Definition watch_step w (c : net_call) : option watch :=
  match c with
  | Ctick now => Some (Watch now (w_checked w) (w_link w) (w_due w) (w_serial w) (w_ptp w) (w_mqtt w))
  | Cgenet_link_up up =>
      if (1000 <=? u32 (w_now w - w_checked w)) && negb (w_due w)
      then Some (Watch (w_now w) (w_now w) up (up && negb (w_link w)) (w_serial w) (w_ptp w) (w_mqtt w)) else None
  | Cgenet_adjust_link => if w_due w then Some (Watch (w_now w) (w_checked w) (w_link w) false (w_serial w) (w_ptp w) (w_mqtt w)) else None
  | Cmbox_get_serial n => Some (Watch (w_now w) (w_checked w) (w_link w) (w_due w) n (w_ptp w) (w_mqtt w))
  | Cptp_raw_start => if w_ptp w then None else Some (Watch (w_now w) (w_checked w) (w_link w) (w_due w) (w_serial w) true (w_mqtt w))
  | Cflint_mqtt_init i _ _ =>
      if negb (w_mqtt w) && bool_decide (i = kept id 32 (client_id (w_serial w)))
      then Some (Watch (w_now w) (w_checked w) (w_link w) (w_due w) (w_serial w) (w_ptp w) true) else None
  | Cflint_mqtt_service => if w_mqtt w && negb (w_due w) then Some w else None
  | Cnetif_poll | CvTaskDelay _ => if w_due w then None else Some w
  | _ => Some w
  end.
Definition watch_run (l : list net_call) : option watch := foldl (fun o c => w ← o; watch_step w c) (Some watch0) l.
Lemma watch_run_snoc l c : watch_run (l ++ [c]) = w ← watch_run l; watch_step w c.
Proof. unfold watch_run. by rewrite foldl_app. Qed.

(** The calls so far are in order, nothing is due, and the variables say what
    the calls found; [p] and [m]: the services that were started. *)
Record ordered (now : Z) (p m : bool) s : Prop := {
  or_ex : exists w, watch_run (ncalls s) = Some w /\ w_now w = now /\ w_checked w = s_last_link_ms s /\ w_link w = s_link_up s /\
    w_due w = false /\ w_ptp w = p /\ w_mqtt w = m }.

Definition grown s s' : Prop := (length (ncalls s) <= length (ncalls s'))%nat.
(** Code that keeps all that, and the lease. *)
Definition quiet_at {A} (now : Z) (c : M netd A) : Prop := forall p m s, ordered now p m s ->
  wp c (fun _ s' => ordered now p m s' /\ s_bound s' = s_bound s /\ grown s s') s.
Ltac grows := split; [done|]; unfold grown; cbn [ncalls]; rewrite ?length_app; lia.
Lemma quiet_ret {A} now (a : A) : quiet_at now (mret a).
Proof. intros p m s Hs. apply wp_ret. split; [done|by grows]. Qed.
Lemma quiet_bind {A B} now (c : M netd A) (k : A -> M netd B) : quiet_at now c -> (forall a, quiet_at now (k a)) -> quiet_at now (c ≫= k).
Proof.
  intros Hc Hk p m s Hs. apply wp_bind. eapply wp_mono; [by apply Hc|]. cbn beta. intros a s1 (H1 & B1 & G1).
  eapply wp_mono; [by apply Hk|]. cbn beta. intros b s2 (H2 & B2 & G2). split; [done|]. split; [congruence|]. unfold grown in *. lia.
Qed.
Lemma quiet_gets {A} now (f : netd -> A) : quiet_at now (gets f).
Proof. intros p m s Hs. apply wp_gets. split; [done|by grows]. Qed.
Lemma quiet_if {A} now (b : bool) (c d : M netd A) : quiet_at now c -> quiet_at now d -> quiet_at now (if b then c else d).
Proof. by destruct b. Qed.
Lemma quiet_report now v : quiet_at now (set_report_ms v).
Proof. intros p m s [(w & Hw)]. apply wp_modify. split; [|by grows]. constructor. by exists w. Qed.

(** Calls the protocol says nothing about. *)
Definition plain (c : net_call) : bool :=
  match c with Ctick _ | Cgenet_link_up _ | Cgenet_adjust_link | Cptp_raw_start | Cmbox_get_serial _ | Cflint_mqtt_init _ _ _ | Cflint_mqtt_service => false | _ => true end.
Lemma quiet_call now c : plain c = true -> quiet_at now (call c).
Proof.
  intros Hp p m s [(w & Hw & Hn & Hc & Hl & Hd & H1 & H2)]. apply wp_modify. split; [|by grows]. constructor. exists w. cbn [ncalls s_last_link_ms s_link_up].
  assert (watch_step w c = Some w) as E by (destruct c; try discriminate Hp; cbn; by rewrite ?Hd). rewrite watch_run_snoc, Hw, obind_some. by repeat split.
Qed.

Create HintDb quiet.
#[local] Hint Resolve quiet_ret quiet_gets quiet_report : quiet.
#[local] Hint Extern 1 (quiet_at _ (call _)) => apply quiet_call; reflexivity : quiet.
#[local] Hint Extern 1 (quiet_at _ (printf _)) => apply quiet_call; reflexivity : quiet.
#[local] Hint Extern 1 (quiet_at _ (ask _)) => apply quiet_gets : quiet.
Ltac quiet_steps :=
  repeat first [solve [eauto with quiet] | apply quiet_if | apply quiet_bind; [|intros ?] | case_match].

Lemma quiet_dns now : quiet_at now dns_setup.
Proof. unfold dns_setup. quiet_steps. Qed.
Lemma quiet_pump_report now v : quiet_at now (pump_report v).
Proof. unfold pump_report. quiet_steps. Qed.
Lemma quiet_echo now tl pcb p a port : quiet_at now (udp_echo_recv tl pcb p a port).
Proof. unfold udp_echo_recv. quiet_steps. Qed.

Lemma quiet_pump_link now : quiet_at now (pump_link now).
Proof.
  intros p m s [(w & Hw & Hn & Hc & Hl & Hd & H1 & H2)]. unfold pump_link. apply wp_bind, wp_gets. destruct (1000 <=? u32 (now - s_last_link_ms s)) eqn:Et.
  2:{ apply wp_ret. split; [|by grows]. constructor. by exists w. }
  apply wp_bind, wp_gets. set (up := nw_link _). apply wp_bind, wp_modify, wp_bind, wp_modify, wp_bind, wp_gets. cbn [s_bound s_link_up s_last_link_ms s_last_report_ms ncalls].
  set (w1 := Watch now now up (up && negb (w_link w)) (w_serial w) p m).
  assert (watch_run (ncalls s ++ [Cgenet_link_up up]) = Some w1) as R1.
  { rewrite watch_run_snoc, Hw, obind_some. cbn. by rewrite Hn, Hc, Et, Hd, H1, H2. }
  destruct (Bool.eqb up (s_link_up s)) eqn:Eu; cbn [negb].
  - apply Bool.eqb_prop in Eu. apply wp_ret. split; [|by grows]. constructor. exists w1. cbn [w_now w_checked w_link w_due w_ptp w_mqtt s_last_link_ms s_link_up ncalls w1].
    split; [exact R1|]. rewrite Hl, <- Eu. split_and!; try done. by destruct up.
  - apply Bool.eqb_false_iff in Eu. apply wp_bind, wp_modify, wp_bind, wp_modify. cbn [s_bound s_link_up s_last_link_ms s_last_report_ms ncalls].
    assert (watch_run ((ncalls s ++ [Cgenet_link_up up]) ++ [Cprintf (MLink up)]) = Some w1) as R2 by (by rewrite watch_run_snoc, R1).
    destruct up eqn:Eup.
    + apply wp_modify. split; [|by grows]. constructor. exists (Watch now now true false (w_serial w) p m). cbn [s_last_link_ms s_link_up ncalls].
      rewrite watch_run_snoc, R2, obind_some. cbn. assert (w_link w = false) as -> by (rewrite Hl; by destruct (s_link_up s)). by repeat split.
    + apply wp_ret. split; [|by grows]. constructor. exists w1. cbn [s_last_link_ms s_link_up ncalls]. split; [exact R2|]. by repeat split.
Qed.

#[local] Hint Resolve quiet_dns quiet_pump_link quiet_pump_report : quiet.

(** ** The name of the client *)

Context (Hid : length id = 32%nat) (Hhex : length hex = 17%nat) (Hhw : bytes nw_hwaddr /\ length nw_hwaddr = 6%nat).

(** The six bytes are read as the eight of a clock identity are. *)
Lemma mac_loop_value : mac_loop nw_hwaddr 0 0 6 = Some (be_value nw_hwaddr).
Proof.
  destruct Hhw as [Hb Hl]. change mac_loop with gm_loop. pose proof (gm_loop_value nw_hwaddr [] [] 0 0 Hb eq_refl ltac:(lia) ltac:(lia)) as E.
  by rewrite app_nil_r, Hl in E.
Qed.
Lemma start_name serial :
  exists id1, fm_strlcpy id 0 (lit "flint-") 32 = Some id1 /\
    match serial with
    | Some n => h ← fm_hex64 n hex 16; fm_strlcat id1 h 32
    | None => m ← mac_loop nw_hwaddr 0 0 6; h ← fm_hex64 m hex 12; fm_strlcat id1 h 32
    end = Some (kept id 32 (client_id serial)).
Proof.
  exists (kept id 32 (chars "flint-")). split; [apply (fm_strlcpy_kept (chars "flint-") [] id 32); [compute_done|lia]|]. unfold client_id. destruct serial as [n|].
  - change 16 with (Z.of_nat 16). rewrite (fm_hex64_text n hex 16 ltac:(lia)), obind_some. apply (fm_strlcat_kept _ _ _ id 32); [compute_done|apply hex_text_ok|lia].
  - rewrite mac_loop_value, obind_some. change 12 with (Z.of_nat 12). rewrite (fm_hex64_text _ hex 12 ltac:(lia)), obind_some. apply (fm_strlcat_kept _ _ _ id 32); [compute_done|apply hex_text_ok|lia].
Qed.

(** ** The pump and the task *)

Lemma wp_mqtt_start now p s : ordered now p false s -> wp (mqtt_start id hex) (fun _ s' => ordered now p true s' /\ s_bound s' = s_bound s /\ grown s s') s.
Proof.
  intros [(w & Hw & Hn & Hc & Hl & Hd & H1 & H2)]. unfold mqtt_start. destruct (start_name (nw_serial (length (ncalls s)))) as (id1 & E1 & E2). rewrite E1.
  apply wp_bind, wp_of_opt, wp_bind, wp_gets, wp_bind, wp_modify. set (n := nw_serial _) in *. rewrite E2. apply wp_bind, wp_of_opt, wp_bind, wp_modify.
  cbn [s_bound s_link_up s_last_link_ms s_last_report_ms ncalls]. apply wp_modify. split; [|by grows]. constructor.
  exists (Watch now (w_checked w) (w_link w) false n p true). cbn [s_last_link_ms s_link_up ncalls].
  rewrite !watch_run_snoc, Hw, obind_some. cbn [watch_step]. rewrite obind_some. cbn [w_mqtt w_serial].
  rewrite H2, bool_decide_true by done. cbn [negb andb]. rewrite obind_some. cbn [watch_step w_now w_checked w_link w_due w_ptp]. rewrite Hn, Hd, H1. by repeat split.
Qed.

Lemma quiet_step {A B} now (c : M netd A) (k : A -> M netd B) p m Q s0 s :
  ordered now p m s -> s_bound s = true -> grown s0 s -> quiet_at now c ->
  (forall a s', ordered now p m s' -> s_bound s' = true -> grown s0 s' -> wp (k a) Q s') -> wp (c ≫= k) Q s.
Proof.
  intros Hs Hb Hg Hq Hk. apply wp_bind. eapply wp_mono; [by apply Hq|]. cbn beta. intros a s' (Ho & Hb' & Hg'). apply Hk; [done|congruence|]. unfold grown in *. lia.
Qed.

(** The services are up exactly when a lease was seen; a pump keeps that, and
    sees a lease that is there. *)
Definition settled now s : Prop := ordered now (s_bound s) (s_bound s) s.
Definition progress s s' : Prop := grown s s' /\ (s_bound s = true -> s_bound s' = true).
Lemma progress_trans s1 s2 s3 : progress s1 s2 -> progress s2 s3 -> progress s1 s3.
Proof. intros [G1 B1] [G2 B2]. split; [unfold grown in *; lia|auto]. Qed.

Lemma wp_pump_lease now s :
  settled now s -> wp (pump_lease id hex) (fun _ s' => settled now s' /\ progress s s' /\ (nw_ip (length (ncalls s)) <> 0 -> s_bound s' = true)) s.
Proof.
  intros Hs. unfold settled in *. unfold pump_lease. apply wp_bind, wp_gets, wp_bind, wp_gets. destruct (s_bound s) eqn:Eb; cbn [negb andb].
  { apply wp_ret. rewrite Eb. split; [done|]. split; [|done]. split; [unfold grown; lia|done]. }
  destruct (nw_ip _ =? 0) eqn:Ei; cbn [negb].
  { apply wp_ret. rewrite Eb. split; [done|]. split; [split; [unfold grown; lia|by rewrite Eb]|]. apply Z.eqb_eq in Ei. by rewrite Ei. }
  apply wp_bind, wp_modify. set (s1 := Netd true _ _ _ _). assert (ordered now false false s1) as H1 by (destruct Hs as [(w & Hw)]; constructor; by exists w).
  assert (s_bound s1 = true) as B1 by done. assert (grown s s1) as G1 by (unfold grown; cbn; lia). clearbody s1. clear Hs.
  repeat (eapply quiet_step; [eassumption|eassumption|eassumption|solve [eauto with quiet]|]; clear s1 H1 B1 G1; intros ? s1 H1 B1 G1).
  apply wp_bind, wp_modify. destruct H1 as [(w & Hw & Hn & Hc & Hl & Hd & Hp & Hm)].
  eapply wp_mono; [apply (wp_mqtt_start now true)|].
  - constructor. exists (Watch now (w_checked w) (w_link w) false (w_serial w) true false). cbn [s_last_link_ms s_link_up ncalls].
    rewrite watch_run_snoc, Hw, obind_some. cbn [watch_step]. rewrite Hp, Hn, Hd, Hm. by repeat split.
  - cbn beta. intros _ s2 (H2 & B2 & G2). cbn [s_bound] in B2. rewrite B2, B1. split; [done|]. split; [|done]. split; [|by rewrite Eb].
    revert G1 G2. unfold grown. cbn [ncalls]. rewrite length_app. lia.
Qed.

Definition steady s : Prop := exists now, settled now s.
(** What a pump, a call of the client and a round of the loop do. *)
Definition pumping (c : M netd unit) : Prop := forall s, steady s -> wp c (fun _ s' => steady s' /\ progress s s') s.
Lemma pumping_bind c k : pumping c -> (forall u : unit, pumping (k u)) -> pumping (c ≫= k).
Proof.
  intros Hc Hk s Hs. apply wp_bind. eapply wp_mono; [by apply Hc|]. cbn beta. intros u s1 [H1 P1].
  eapply wp_mono; [by apply Hk|]. cbn beta. intros v s2 [H2 P2]. split; [done|by eapply progress_trans].
Qed.
Lemma pumping_quiet c : (forall now, quiet_at now c) -> pumping c.
Proof.
  intros Hq s [now Hs]. eapply wp_mono; [by apply (Hq now)|]. cbn beta. intros u s' (H1 & B1 & G1). split; [exists now; unfold settled; by rewrite B1|]. split; [done|congruence].
Qed.

Lemma wp_net_pump idle s : steady s ->
  wp (net_pump id hex idle) (fun _ s' => steady s' /\ progress s s' /\ ((forall k, (length (ncalls s) <= k)%nat -> nw_ip k <> 0) -> s_bound s' = true) /\
    (length (ncalls s) < length (ncalls s'))%nat) s.
Proof.
  intros [now0 [(w & Hw & Hn & Hc & Hl & Hd & Hp & Hm)]]. unfold net_pump. do 2 apply wp_bind, wp_modify. apply wp_bind, wp_gets. set (now := u32 _). do 2 apply wp_bind, wp_modify.
  cbn [s_bound s_link_up s_last_link_ms s_last_report_ms ncalls]. set (s1 := Netd _ _ _ _ _).
  assert (settled now s1) as H1.
  { constructor. exists (Watch now (w_checked w) (w_link w) false (w_serial w) (s_bound s) (s_bound s)). cbn [s1 s_bound s_last_link_ms s_link_up ncalls].
    rewrite !watch_run_snoc, Hw, obind_some. cbn [watch_step]. rewrite Hd.
    repeat (rewrite obind_some; cbn [watch_step]). rewrite Hd, Hp, Hm. by repeat split. }
  assert (length (ncalls s) < length (ncalls s1))%nat as L1 by (cbn [s1 ncalls]; rewrite !length_app; cbn [length]; lia).
  assert (s_bound s1 = s_bound s) as B1 by done. clearbody s1. apply wp_bind. eapply wp_mono; [by apply wp_pump_lease|]. cbn beta. intros _ s2 (H2 & [G2 P2] & I2).
  assert (quiet_at now (pump_link now;; pump_report now;; if idle then call (CvTaskDelay 1) else mret tt)) as Hq.
  { quiet_steps. }
  eapply wp_mono; [by apply Hq|]. cbn beta. intros _ s3 (H3 & B3 & G3). unfold grown in *. split; [exists now; unfold settled; by rewrite B3|].
  split; [split; [unfold grown; lia|rewrite B3, <- B1; exact P2]|]. split; [|lia]. intros Hip. rewrite B3. apply I2, Hip. lia.
Qed.
Lemma pumping_net_pump idle : pumping (net_pump id hex idle).
Proof. intros s Hs. eapply wp_mono; [by apply wp_net_pump|]. cbn beta. intros _ s' (H1 & H2 & _). done. Qed.
Lemma pumping_pumps ps : pumping (pumps id hex ps).
Proof.
  induction ps as [|i ps IH]; cbn [pumps]; [apply pumping_quiet; eauto with quiet|]. apply pumping_bind; [apply pumping_net_pump|intros _; exact IH].
Qed.
Lemma wp_mqtt_service s : steady s -> s_bound s = true -> wp (mqtt_service id hex) (fun _ s' => steady s' /\ progress s s') s.
Proof.
  intros [now [(w & Hw & Hn & Hc & Hl & Hd & Hp & Hm)]] Hb. unfold mqtt_service. apply wp_bind, wp_gets, wp_bind, wp_modify.
  eapply wp_mono; [apply pumping_pumps|].
  - exists now. constructor. exists w. cbn [s_bound s_last_link_ms s_link_up ncalls]. rewrite watch_run_snoc, Hw, obind_some. cbn [watch_step]. rewrite Hm, Hb, Hd. cbn [negb andb].
    rewrite Hp, Hb. by repeat split.
  - cbn beta. intros _ s' [H1 [G1 P1]]. split; [done|]. split; [|done]. revert G1. unfold grown. cbn [ncalls]. rewrite length_app. lia.
Qed.
Lemma wp_task_round s : steady s ->
  wp (task_round id hex) (fun _ s' => steady s' /\ progress s s' /\ ((forall k, (length (ncalls s) <= k)%nat -> nw_ip k <> 0) -> s_bound s' = true) /\
    (length (ncalls s) < length (ncalls s'))%nat) s.
Proof.
  intros Hs. unfold task_round. apply wp_bind. eapply wp_mono; [by apply wp_net_pump|]. cbn beta. intros _ s1 (H1 & P1 & I1 & L1). apply wp_bind, wp_gets, wp_bind.
  assert (forall s2, steady s2 -> progress s1 s2 -> wp (call (CvTaskDelay 1)) (fun _ s' => steady s' /\ progress s s' /\
    ((forall k, (length (ncalls s) <= k)%nat -> nw_ip k <> 0) -> s_bound s' = true) /\ (length (ncalls s) < length (ncalls s'))%nat) s2) as Hd.
  { intros s2 H2 P2. eapply wp_mono; [eapply pumping_quiet; [eauto with quiet|exact H2]|]. cbn beta. intros _ s3 [H3 P3].
    pose proof (progress_trans _ _ _ P2 P3) as P13. split; [done|]. split; [by eapply progress_trans|]. destruct P13 as [G B]. unfold grown in G. split; [auto|lia]. }
  destruct (s_bound s1) eqn:Eb.
  - eapply wp_mono; [by apply wp_mqtt_service|]. cbn beta. intros _ s2 [H2 P2]. by apply Hd.
  - apply wp_ret, Hd; [done|]. split; [unfold grown; lia|done].
Qed.
(** A lease that is there from the [N]-th call on. *)
Definition leased_from (N : nat) : Prop := forall k, (N <= k)%nat -> nw_ip k <> 0.
Lemma wp_task_rounds n s : steady s ->
  wp (task_rounds id hex n) (fun _ s' => steady s' /\ progress s s' /\
    forall N, leased_from N -> (N < n + length (ncalls s))%nat -> (0 < n)%nat -> s_bound s' = true) s.
Proof.
  revert s. induction n as [|n IH]; intros s Hs; cbn [task_rounds].
  { apply wp_ret. split; [done|]. split; [split; [unfold grown; lia|done]|lia]. }
  apply wp_bind. eapply wp_mono; [by apply wp_task_round|]. cbn beta. intros _ s1 (H1 & P1 & I1 & L1). eapply wp_mono; [by apply IH|]. cbn beta. intros _ s2 (H2 & P2 & I2).
  split; [done|]. split; [by eapply progress_trans|]. intros N Hip Hn _. destruct (decide (N <= length (ncalls s))%nat) as [Hle|Hgt].
  - apply P2, I1. intros k Hk. apply Hip. lia.
  - apply (I2 N); [done|lia|lia].
Qed.

(** The calls before the loop. *)
Lemma quiet_net_init now : quiet_at now flint_net_init.
Proof. unfold flint_net_init. quiet_steps. Qed.
Lemma steady_boot : steady netd_boot.
Proof. exists 0. constructor. exists watch0. by repeat split. Qed.
Lemma wp_tick_report {B} t (k : M netd B) Q s : steady s -> (forall s', steady s' -> wp k Q s') -> wp (call (Ctick t);; set_report_ms t;; k) Q s.
Proof.
  intros [now [(w & Hw & Hn & Hc & Hl & Hd & Hp & Hm)]]. intros Hk. apply wp_bind, wp_modify, wp_bind, wp_modify, Hk. exists t. constructor.
  exists (Watch t (w_checked w) (w_link w) (w_due w) (w_serial w) (w_ptp w) (w_mqtt w)). cbn [s_bound s_last_link_ms s_link_up ncalls].
  rewrite watch_run_snoc, Hw, obind_some. by repeat split.
Qed.
Lemma steady_bind {B} (c : M netd unit) (k : unit -> M netd B) Q s :
  steady s -> (forall now, quiet_at now c) -> (forall s', steady s' -> wp (k tt) Q s') -> wp (c ≫= k) Q s.
Proof. intros Hs Hc Hk. apply wp_bind. eapply wp_mono; [by apply (pumping_quiet _ Hc)|]. cbn beta. intros [] s' [H1 _]. by apply Hk. Qed.

End protocol.

(** A board whose lease comes after the twentieth call, with a link that comes
    and goes; the client pumps once with and once without a delay. *)
Definition net_example : NetWorld := {|
  nw_tick k := 400 * Z.of_nat k; nw_ip k := if (k <? 20)%nat then 0 else 0x0A0000C0; nw_gw _ := 0x0A000001; nw_mask _ := 0xFFFFFF00; nw_dns0 _ := None;
  nw_pcb _ := 1; nw_serial _ := Some 0x100000003; nw_link k := Nat.even (k / 16); nw_dhcp _ := Some 10; nw_hwaddr := [1; 2; 3; 4; 5; 6]; nw_pumps _ := [true; false] |}.

