(* ===== verification/NetDemoOs.v ===== *)
(** * The OS-mode network task (src/demo/rpi4/net_demo_os.c)

    The task of the build with lwIP's threads: it brings the stack up under the
    core lock, starts the PTP task and runs one MQTT session over the socket
    transport of Sockets.v.  coreMQTT is a parameter [CoreMqtt] on the transport
    and its own state; the calls of the task are kept in a log. *)

From S2P Require Import Prelude Config CInt CStr Sockets.

Definition BROKER_HOST : list Z := lit "192.168.1.10".
Definition BROKER_PORT : Z := 1883.

Inductive os_msg := PTcpFailed | PInitFailed | PConnectFailed | PConnected | PPtpStarted | PStackUp.
(** [MQTTConnectInfo_t] and [MQTTPublishInfo_t], as far as the task sets them. *)
Record MQTTConnectInfo_t := ConnectInfo { cleanSession : bool; pClientIdentifier : list Z; clientIdentifierLength : Z; keepAliveSeconds : Z;
  pUserName : option (list Z); userNameLength : Z; pPassword : option (list Z); passwordLength : Z }.
Record MQTTPublishInfo_t := PublishInfo { qos : Z; retain : bool; dup : bool; pTopicName : list Z; topicNameLength : Z; pPayload : list Z; payloadLength : Z }.

Inductive os_call :=
| Otcpip_init | OLOCK_TCPIP_CORE | Onetif_add (ip mask gw : Z) | Onetif_set_default | Onetif_set_up | Odhcp_start | OUNLOCK_TCPIP_CORE
| OxTaskCreate (depth prio : Z) | Ouart_printf (m : os_msg) | OvTaskDelay (ticks : Z)
| Otransport_connect (host : list Z) (port : Z) | Otransport_disconnect
| OMQTT_Init (size : Z) | OMQTT_Connect (info : MQTTConnectInfo_t) (timeout : Z) | OMQTT_Publish (info : MQTTPublishInfo_t) (id : Z) | OMQTT_ProcessLoop.

(** The client of coreMQTT, which uses the transport it was given. *)
Class CoreMqtt (T C : Type) := {
  MQTTSuccess : Z;
  MQTT_Init : Z -> M (tctx T * C) Z;
  MQTT_Connect : MQTTConnectInfo_t -> Z -> M (tctx T * C) Z;
  MQTT_Publish : MQTTPublishInfo_t -> Z -> M (tctx T * C) Z;
  MQTT_ProcessLoop : M (tctx T * C) Z }.

Section os_task.
Context {T C : Type} {SK : Sockets T} {MQ : CoreMqtt T C}.

(** The transport, the client's state and the log. *)
Record os := Os { os_net : tctx T; os_mqtt : C; os_log : list os_call }.
Definition note (c : os_call) : M os unit := modify (fun s => Os (os_net s) (os_mqtt s) (os_log s ++ [c])).
Definition onNet {A} (c : M (tctx T) A) : M os A := zoom os_net (fun n s => Os n (os_mqtt s) (os_log s)) c.
Definition onMq {A} (c : M (tctx T * C) A) : M os A := zoom (fun s => (os_net s, os_mqtt s)) (fun x s => Os x.1 x.2 (os_log s)) c.
Definition say (m : os_msg) : M os unit := note (Ouart_printf m).

Definition connectInfo : MQTTConnectInfo_t := ConnectInfo true (lit "flintrtos") 9 60 None 0 None 0.
Definition publishInfo : MQTTPublishInfo_t := PublishInfo 0 false false (lit "flint/status") 12 (lit "up") 2.

(** The loop after the publication. *)
Fixpoint process_rounds (n : nat) : M os unit :=
  match n with O => mret tt | S n => note OMQTT_ProcessLoop;; onMq MQTT_ProcessLoop;; note (OvTaskDelay 100);; process_rounds n end.
(** [n] rounds of its loop; the result tells whether it got there. *)
Definition mqtt_demo (n : nat) : M os bool :=
  modify (fun s => Os (TCtx (sk (os_net s)) (-1)) (os_mqtt s) (os_log s));;
  note (Otransport_connect BROKER_HOST BROKER_PORT);; r ← onNet (transport_connect BROKER_HOST BROKER_PORT);
  if negb (r =? 0) then say PTcpFailed;; mret false
  else
    note (OMQTT_Init 1024);; r ← onMq (MQTT_Init 1024);
    if negb (r =? MQTTSuccess) then say PInitFailed;; note Otransport_disconnect;; onNet transport_disconnect;; mret false
    else
      note (OMQTT_Connect connectInfo 5000);; r ← onMq (MQTT_Connect connectInfo 5000);
      if negb (r =? MQTTSuccess) then say PConnectFailed;; note Otransport_disconnect;; onNet transport_disconnect;; mret false
      else
        say PConnected;;
        note (OMQTT_Publish publishInfo 0);; onMq (MQTT_Publish publishInfo 0);;
        process_rounds n;;
        mret true.

Fixpoint idle_rounds (n : nat) : M os unit :=
  match n with O => mret tt | S n => note (OvTaskDelay 1000);; idle_rounds n end.
(** [n] rounds of whichever loop it ends in. *)
Definition vNetworkTaskOS (n : nat) : M os unit :=
  note Otcpip_init;;
  note OLOCK_TCPIP_CORE;;
  note (Onetif_add 0 0 0);;
  note Onetif_set_default;;
  note Onetif_set_up;;
  note Odhcp_start;;
  note OUNLOCK_TCPIP_CORE;;
  note (OxTaskCreate (u32 (configMINIMAL_STACK_SIZE * 4)) 6);;
  say PPtpStarted;;
  say PStackUp;;
  online ← mqtt_demo n;
  if (online : bool) then mret tt else idle_rounds n.
End os_task.
Arguments os : clear implicits.

(** ** One session, no socket left behind *)

(** coreMQTT documents that it reaches the network only through the transport
    interface: it neither opens nor closes sockets, nor does it touch the
    context. *)
Class CoreMqttLaws {T C} {SK : Sockets T} (SL : SocketLaws SK) (MQ : CoreMqtt T C) := {
  through_transport (c : M (tctx T * C) Z) x :
    (exists n, c = MQTT_Init n) \/ (exists i t, c = MQTT_Connect i t) \/ (exists i p, c = MQTT_Publish i p) \/ c = MQTT_ProcessLoop ->
    wp c (fun _ x' => socket x'.1 = socket x.1 /\ opened (sk x'.1) = opened (sk x.1)) x }.

(** How the session went. *)
Inductive outcome := NoTcp | NoInit | NoConnect | Online.
#[global] Instance outcome_eq_dec : EqDecision outcome.
Proof. solve_decision. Defined.

Section os_props.
Context {T C : Type} {SK : Sockets T} {SL : SocketLaws SK} {MQ : CoreMqtt T C} {ML : CoreMqttLaws SL MQ}.
Implicit Types (s : os T C).

Definition bring_up : list os_call :=
  [Otcpip_init; OLOCK_TCPIP_CORE; Onetif_add 0 0 0; Onetif_set_default; Onetif_set_up; Odhcp_start; OUNLOCK_TCPIP_CORE;
   OxTaskCreate 4096 6; Ouart_printf PPtpStarted; Ouart_printf PStackUp; Otransport_connect BROKER_HOST BROKER_PORT].
Definition session (o : outcome) : list os_call :=
  match o with
  | NoTcp => [Ouart_printf PTcpFailed]
  | NoInit => [OMQTT_Init 1024; Ouart_printf PInitFailed; Otransport_disconnect]
  | NoConnect => [OMQTT_Init 1024; OMQTT_Connect connectInfo 5000; Ouart_printf PConnectFailed; Otransport_disconnect]
  | Online => [OMQTT_Init 1024; OMQTT_Connect connectInfo 5000; Ouart_printf PConnected; OMQTT_Publish publishInfo 0]
  end.
Fixpoint repeated (n : nat) (l : list os_call) : list os_call := match n with O => [] | S n => l ++ repeated n l end.
Definition rounds (o : outcome) (n : nat) : list os_call :=
  match o with Online => repeated n [OMQTT_ProcessLoop; OvTaskDelay 100] | _ => repeated n [OvTaskDelay 1000] end.

(** The sockets of the transport, and the log. *)
Definition at_ s (so : Z) (op : gset Z) (l : list os_call) : Prop := socket (os_net s) = so /\ opened (sk (os_net s)) = op /\ os_log s = l.
Lemma wp_note {A} c (k : M (os T C) A) Q s so op l : at_ s so op l -> (forall s', at_ s' so op (l ++ [c]) -> wp k Q s') -> wp (note c;; k) Q s.
Proof. intros (H1 & H2 & H3) Hk. apply wp_bind, wp_modify, Hk. split_and!; cbn [os_net os_mqtt os_log sk socket fst]; congruence. Qed.
Lemma wp_mq {A} c (k : Z -> M (os T C) A) Q s so op l : at_ s so op l ->
  (exists n, c = MQTT_Init n) \/ (exists i t, c = MQTT_Connect i t) \/ (exists i p, c = MQTT_Publish i p) \/ c = MQTT_ProcessLoop ->
  (forall r s', at_ s' so op l -> wp (k r) Q s') -> wp (onMq c ≫= k) Q s.
Proof.
  intros (H1 & H2 & H3) Hc Hk. apply wp_bind, wp_zoom. eapply wp_mono; [by apply through_transport|]. cbn beta. intros r x [E1 E2]. apply Hk. cbn [fst] in *.
  split_and!; cbn [os_net os_mqtt os_log sk socket fst]; congruence.
Qed.

Lemma wp_rounds {A} n (k : M (os T C) A) Q s so op l : at_ s so op l ->
  (forall s', at_ s' so op (l ++ rounds Online n) -> wp k Q s') -> wp (process_rounds n;; k) Q s.
Proof.
  intros Hs Hk. apply wp_bind. enough (wp (process_rounds n) (fun _ s' => at_ s' so op (l ++ rounds Online n)) s) as H by (eapply wp_mono; [exact H|]; cbn beta; by intros [] s' ?; apply Hk).
  clear Hk k. revert s l Hs. induction n as [|n IH]; intros s l Hs; cbn [process_rounds rounds repeated].
  { apply wp_ret. by rewrite app_nil_r. }
  eapply wp_note; [exact Hs|]. intros s1 H1. eapply wp_mq; [exact H1|by do 3 right|]. intros _ s2 H2. eapply wp_note; [exact H2|]. intros s3 H3.
  eapply wp_mono; [by apply IH|]. cbn beta. intros _ s'. by rewrite <- !app_assoc.
Qed.
Lemma wp_idle n s so op l : at_ s so op l -> wp (idle_rounds n) (fun _ s' => at_ s' so op (l ++ repeated n [OvTaskDelay 1000])) s.
Proof.
  revert s l. induction n as [|n IH]; intros s l Hs; cbn [idle_rounds repeated]; [apply wp_ret; by rewrite app_nil_r|].
  eapply wp_note; [exact Hs|]. intros s1 H1. eapply wp_mono; [by apply IH|]. cbn beta. intros _ s'. by rewrite <- app_assoc.
Qed.
Lemma wp_disconnect {A} (k : M (os T C) A) Q s so op l : at_ s so ({[so]} ∪ op) l -> 0 <= so -> (so ∉ op) ->
  (forall s', at_ s' (-1) op l -> wp k Q s') -> wp (onNet transport_disconnect;; k) Q s.
Proof.
  intros (H1 & H2 & H3) H0 Hn Hk. apply wp_bind, wp_zoom. unfold transport_disconnect. apply wp_bind, wp_gets. rewrite H1, (proj2 (Z.leb_le 0 so) H0).
  apply wp_bind, wp_zoom. eapply wp_mono; [apply close_law; rewrite H2; set_solver|]. cbn beta. intros _ t Ht. apply wp_modify, Hk. split_and!; cbn [os_net sk socket os_log]; [done| |done].
  rewrite Ht, H2. set_solver.
Qed.

(** What is open after the session. *)
Definition left_open (o : outcome) (op : gset Z) s : Prop :=
  match o with
  | Online => 0 <= socket (os_net s) /\ (socket (os_net s) ∉ op) /\ opened (sk (os_net s)) = {[socket (os_net s)]} ∪ op
  | _ => socket (os_net s) = -1 /\ opened (sk (os_net s)) = op
  end.
Definition ended n op l (online : bool) s : Prop :=
  exists o, online = bool_decide (o = Online) /\ left_open o op s /\ os_log s = l ++ [Otransport_connect BROKER_HOST BROKER_PORT] ++ session o ++ (if online then rounds Online n else []).

Lemma wp_mqtt_demo n s so op l : at_ s so op l -> wp (mqtt_demo n) (ended n op l) s.
Proof.
  intros (_ & Hop & Hl). unfold mqtt_demo. apply wp_bind, wp_modify. set (s0 := Os _ _ _). assert (at_ s0 (-1) op l) as H0 by done. clearbody s0. clear Hop Hl s.
  eapply wp_note; [exact H0|]. intros s1 (E1 & E2 & E3). apply wp_bind, wp_zoom. eapply wp_mono; [apply transport_connect_run|]. cbn beta. intros r [t so1] Hc. unfold connected in Hc. cbn [sk socket] in Hc.
  rewrite E1, E2 in Hc. set (s2 := Os _ _ _). destruct Hc as [(Hr & Ho & Hs)|(-> & H1 & Hn & Ho)].
  { rewrite (proj2 (Z.eqb_neq r 0)) by lia. cbn [negb]. eapply (wp_note _ _ _ s2 (-1) op (l ++ [Otransport_connect BROKER_HOST BROKER_PORT])); [subst s2; split_and!; cbn [os_net os_mqtt os_log sk socket]; congruence|]. intros s3 (F1 & F2 & F3). apply wp_ret. exists NoTcp.
    split; [done|]. split; [done|]. by rewrite F3, <- !app_assoc. }
  cbn [Z.eqb negb]. assert (at_ s2 so1 ({[so1]} ∪ op) (l ++ [Otransport_connect BROKER_HOST BROKER_PORT])) as H2 by (subst s2; split_and!; cbn [os_net os_mqtt os_log sk socket]; congruence). clearbody s2. clear E1 E2 E3 s1 s0 H0 Ho.
  eapply wp_note; [exact H2|]. intros s3 H3. eapply wp_mq; [exact H3|left; by eexists|]. intros r s4 H4. destruct (negb (r =? MQTTSuccess)).
  { eapply wp_note; [exact H4|]. intros s5 H5. eapply wp_note; [exact H5|]. intros s6 H6. eapply wp_disconnect; [exact H6|done|done|]. intros s7 (F1 & F2 & F3).
    apply wp_ret. exists NoInit. split; [done|]. split; [done|]. by rewrite F3, <- !app_assoc. }
  eapply wp_note; [exact H4|]. intros s5 H5. eapply wp_mq; [exact H5|right; left; by do 2 eexists|]. intros r' s6 H6. destruct (negb (r' =? MQTTSuccess)).
  { eapply wp_note; [exact H6|]. intros s7 H7. eapply wp_note; [exact H7|]. intros s8 H8. eapply wp_disconnect; [exact H8|done|done|]. intros s9 (F1 & F2 & F3).
    apply wp_ret. exists NoConnect. split; [done|]. split; [done|]. by rewrite F3, <- !app_assoc. }
  eapply wp_note; [exact H6|]. intros s7 H7. eapply wp_note; [exact H7|]. intros s8 H8. eapply wp_mq; [exact H8|do 2 right; left; by do 2 eexists|]. intros _ s9 H9.
  eapply wp_rounds; [exact H9|]. intros s10 (F1 & F2 & F3). apply wp_ret. exists Online. split; [done|]. split; [by rewrite <- F1 in *|]. by rewrite F3, <- !app_assoc.
Qed.

(** The OS-mode task, whatever the network and the broker do and for any
    number of rounds: it brings the stack up under the core lock, makes exactly
    one attempt at a session, right after DHCP was started, and then only
    processes or only sleeps; it publishes once, and only after the broker
    accepted it; a session that does not come up leaves no socket open, one that
    does holds exactly one. *)
Theorem os_task_one_session n s :
  wp (vNetworkTaskOS n) (fun _ s' => exists o, os_log s' = os_log s ++ bring_up ++ session o ++ rounds o n /\ left_open o (opened (sk (os_net s))) s') s.
Proof.
  unfold vNetworkTaskOS. assert (at_ s (socket (os_net s)) (opened (sk (os_net s))) (os_log s)) as H by done. generalize dependent (os_log s). generalize (opened (sk (os_net s))) (socket (os_net s)).
  intros op so l H. do 10 (eapply wp_note; [exact H|]; clear s H; intros s H). rewrite <- !app_assoc in H. apply wp_bind. eapply wp_mono; [by eapply wp_mqtt_demo|]. cbn beta.
  intros b s1 (o & Hb & Hlo & Hlog). destruct b; symmetry in Hb.
  - apply bool_decide_eq_true_1 in Hb as ->. apply wp_ret. exists Online. split; [|done]. rewrite Hlog, <- !app_assoc. done.
  - apply bool_decide_eq_false_1 in Hb. rewrite app_nil_r in Hlog. assert (at_ s1 (-1) op (os_log s1)) as H1 by (destruct o; [..|done]; by destruct Hlo).
    eapply wp_mono; [by apply wp_idle|]. cbn beta. intros _ s2 (F1 & F2 & F3). exists o. split; [rewrite F3, Hlog, <- !app_assoc; by destruct o|by destruct o].
Qed.
End os_props.

(** ** On the socket layer of Sockets.v *)

#[local] Existing Instances demo_sockets demo_socket_laws.
(** A broker that accepts. *)
#[local] Instance demo_client : CoreMqtt demo_sk unit := {|
  MQTTSuccess := 0; MQTT_Init _ := mret 0; MQTT_Connect _ _ := mret 0; MQTT_Publish _ _ := mret 0; MQTT_ProcessLoop := mret 0 |}.
#[local] Instance demo_client_laws : CoreMqttLaws demo_socket_laws demo_client.
Proof. constructor. intros c x [ [n ->]|[(i & t & ->)|[(i & p & ->)| ->] ] ]; by apply wp_ret. Defined.

Lemma os_task_one_session_witness :
  exists s' o, vNetworkTaskOS 2 (Os (TCtx (DemoSk {[3]} true) (-1)) tt []) = Some (tt, s') /\ os_log s' = bring_up ++ session o ++ rounds o 2.
Proof.
  destruct (os_task_one_session 2 (Os (TCtx (DemoSk {[3]} true) (-1)) tt [])) as ([] & s' & Hrun & o & Hlog & _). exists s', o. split; [exact Hrun|exact Hlog].
Defined.

(** Without a route to the broker, as before the lease, the session is given up
    for good. *)
Example os_task_gives_up :
  (fun r => (os_log r.2, socket (os_net r.2))) <$> vNetworkTaskOS 3 (Os (TCtx (DemoSk ∅ false) (-1)) tt []) =
  Some (bring_up ++ [Ouart_printf PTcpFailed; OvTaskDelay 1000; OvTaskDelay 1000; OvTaskDelay 1000], -1).
Proof. vm_compute. reflexivity. Qed.
