(* ===== verification/MainDemo.v ===== *)
(** * The demonstration programs (src/demo/rpi4/main.c)

    Both builds: the heartbeat beside the network task, and the priority
    inversion shown with three tasks, a mutex and a semaphore.  A task body is a
    state machine over the kernel of Tasks.v and Queue.v: one step is the code up
    to the next point where another task can run, so the critical sections and
    the yields of a blocking call or a delay are steps of their own, and the
    timer interrupt can fall between any two of them.  [room] is what a task has
    left of its stack where it yields or is interrupted: these are the runs in
    which no task overruns its stack (one that did would halt the system, see
    [prvCheckStackOverflow]).  [cntpct] is the counter the busy loops read,
    [cntfrq] its frequency; the console output is structured. *)

From S2P Require Import Prelude Config Lists ListSpec ListRefine Alloc Tasks Libc CInt Queue Decimal CStr.

Definition HOLD_MS : Z := 60.
Definition LOW_GAP : Z := 120.
Definition SPIN_MS : Z := 150.
Definition MED_GAP : Z := 50.
Definition PHASE1_CYCLES : Z := 5.

Inductive demo_msg :=
| OutOverflow (name : option (list Z))
| OutNetBuild | OutBeat (tick n : Z) | OutStart (tasks : Z)
| OutFatal | OutDemo | OutPhase1 | OutBlocked (cycle wait : Z) (inheritance : bool) | OutEnabling.

(** Where a task is in its loop; a busy loop holds its target once it is known. *)
Inductive low_pc := LTake (pc : phase) | LHeld (pc : phase) | LHold (target : option Z) | LGive (pc : phase) | LPause | LSleep.
Inductive med_pc := MSpin (target : option Z) | MPause | MSleep.
Inductive high_pc := HWait (pc : phase) | HTake (t0 : Z) (pc : phase) | HGive (wait : Z) (pc : phase) | HReport (wait : Z).

Section demo.
Context {LS HS : Type} `{!ListOps item lst LS} `{!HeapOps HS} (sym : symbols) (cntfrq : Z).
(** The addresses of the task functions. *)
Context (vTaskLow_addr vTaskMed_addr vTaskHigh_addr : Z).

Record demo := Demo {
  d_sys : qsys LS HS; xMutex : Z; xMutexHeld : Z; cntpct : Z;
  d_low : low_pc; d_med : med_pc; d_high : high_pc; h_cycle : Z; d_out : list demo_msg }.

Definition onS {A} (c : M (qsys LS HS) A) : M demo A :=
  zoom d_sys (fun s d => Demo s (xMutex d) (xMutexHeld d) (cntpct d) (d_low d) (d_med d) (d_high d) (h_cycle d) (d_out d)) c.
Definition kern {A} (c : M (kernel LS HS) A) : M demo A := onS (onK c).
Definition print (m : demo_msg) : M demo unit :=
  modify (fun d => Demo (d_sys d) (xMutex d) (xMutexHeld d) (cntpct d) (d_low d) (d_med d) (d_high d) (h_cycle d) (d_out d ++ [m])).
Definition set_sems m h : M demo unit :=
  modify (fun d => Demo (d_sys d) m h (cntpct d) (d_low d) (d_med d) (d_high d) (h_cycle d) (d_out d)).
Definition go_low p : M demo unit :=
  modify (fun d => Demo (d_sys d) (xMutex d) (xMutexHeld d) (cntpct d) p (d_med d) (d_high d) (h_cycle d) (d_out d)).
Definition go_med p : M demo unit :=
  modify (fun d => Demo (d_sys d) (xMutex d) (xMutexHeld d) (cntpct d) (d_low d) p (d_high d) (h_cycle d) (d_out d)).
Definition go_high p : M demo unit :=
  modify (fun d => Demo (d_sys d) (xMutex d) (xMutexHeld d) (cntpct d) (d_low d) (d_med d) p (h_cycle d) (d_out d)).
Definition set_cycle c : M demo unit :=
  modify (fun d => Demo (d_sys d) (xMutex d) (xMutexHeld d) (cntpct d) (d_low d) (d_med d) (d_high d) c (d_out d)).
Definition pass_time dt : M demo unit :=
  modify (fun d => Demo (d_sys d) (xMutex d) (xMutexHeld d) (u64 (cntpct d + dt)) (d_low d) (d_med d) (d_high d) (h_cycle d) (d_out d)).

(** The hook, up to the masking of interrupts; it then waits for ever, so that
    the kernel's call of it has no result ([stack_overflow_halt]). *)
Definition vApplicationStackOverflowHook (pcTaskName : option (list Z)) : M demo unit :=
  print (OutOverflow pcTaskName);; kern (modify (fun s => set_critical (uxCriticalNesting s) true s)).

(** The next step of a busy loop: None when it is over. *)
Definition busy_wait_ms (ms : Z) (target : option Z) : M demo (option Z) :=
  match target with
  | None => start ← gets cntpct; mret (Some (u64 (start + u64 (cntfrq / 1000 * ms))))
  | Some target => now ← gets cntpct; mret (if now <? target then Some target else None)
  end.

(** ** The tasks of the minimal build *)

Definition vTaskLow (sp : Z) : M demo unit :=
  p ← gets d_low; m ← gets xMutex; h ← gets xMutexHeld;
  match p with
  | LTake (PDone _) => go_low (LHeld PTry)
  | LTake pc => pc ← onS (xSemaphoreTake m portMAX_DELAY sp pc); go_low (LTake pc)
  | LHeld (PDone _) => go_low (LHold None)
  | LHeld pc => pc ← onS (xSemaphoreGive h sp pc); go_low (LHeld pc)
  | LHold t => t ← busy_wait_ms HOLD_MS t; go_low (match t with Some t => LHold (Some t) | None => LGive PTry end)
  | LGive (PDone _) => go_low LPause
  | LGive pc => pc ← onS (xSemaphoreGive m sp pc); go_low (LGive pc)
  | LPause => kern (vTaskDelay_park LOW_GAP);; go_low LSleep
  | LSleep => kern (taskYIELD sp);; go_low (LTake PTry)
  end.

Definition vTaskMed (sp : Z) : M demo unit :=
  p ← gets d_med;
  match p with
  | MSpin t => t ← busy_wait_ms SPIN_MS t; go_med (match t with Some t => MSpin (Some t) | None => MPause end)
  | MPause => kern (vTaskDelay_park MED_GAP);; go_med MSleep
  | MSleep => kern (taskYIELD sp);; go_med (MSpin None)
  end.

Definition vTaskHigh (sp : Z) : M demo unit :=
  p ← gets d_high; m ← gets xMutex; h ← gets xMutexHeld;
  match p with
  | HWait (PDone _) => t0 ← kern xTaskGetTickCount; go_high (HTake t0 PTry)
  | HWait pc => pc ← onS (xSemaphoreTake h portMAX_DELAY sp pc); go_high (HWait pc)
  | HTake t0 (PDone _) => t ← kern xTaskGetTickCount; go_high (HGive (u32 (t - t0)) PTry)
  | HTake t0 pc => pc ← onS (xSemaphoreTake m portMAX_DELAY sp pc); go_high (HTake t0 pc)
  | HGive wait (PDone _) => go_high (HReport wait)
  | HGive wait pc => pc ← onS (xSemaphoreGive m sp pc); go_high (HGive wait pc)
  | HReport wait =>
      cycle ← gets h_cycle; inh ← kern xTaskGetMutexInheritance;
      print (OutBlocked cycle wait (negb (inh =? pdFALSE)));;
      let cycle := u32 (cycle + 1) in
      set_cycle cycle;;
      (if cycle =? PHASE1_CYCLES then print OutEnabling;; kern (vTaskSetMutexInheritance pdTRUE) else mret tt);;
      go_high (HWait PTry)
  end.

(** [main] of the minimal build; false: it found no memory and waits for ever. *)
Definition main_minimal (sp : Z) : M demo bool :=
  m ← onS (xSemaphoreCreateMutex sp);
  h ← onS xSemaphoreCreateBinary;
  set_sems m h;;
  if (m =? 0) || (h =? 0) then print OutFatal;; mret false
  else
    kern (vTaskSetMutexInheritance pdFALSE);;
    print OutDemo;; print OutPhase1;;
    kern (xTaskCreate sym vTaskLow_addr (Some (lit "L")) configMINIMAL_STACK_SIZE 0 1);;
    kern (xTaskCreate sym vTaskMed_addr (Some (lit "M")) configMINIMAL_STACK_SIZE 0 2);;
    kern (xTaskCreate sym vTaskHigh_addr (Some (lit "H")) configMINIMAL_STACK_SIZE 0 3);;
    n ← kern uxTaskGetNumberOfTasks; print (OutStart n);;
    kern (vTaskStartScheduler sym);;
    mret true.

(** ** The system *)

(** The application tasks; the body of the idle task only waits for interrupts. *)
Context (low med high : Z).
Definition stack_pointer (room : nat) : M demo Z :=
  kern (cur ← gets pxCurrentTCB; T ← ld_tcb cur; mret (pxStack T + Z.of_nat room)).
Definition run_current (room : nat) : M demo unit :=
  cur ← kern xTaskGetCurrentTaskHandle; sp ← stack_pointer room;
  if cur =? low then vTaskLow sp else if cur =? med then vTaskMed sp else if cur =? high then vTaskHigh sp else mret tt.
(** The timer interrupt: its kernel part, as [flint_irq_entry] runs it. *)
Definition timer_tick (room : nat) : M demo unit :=
  sp ← stack_pointer room;
  kern (cur ← gets pxCurrentTCB; st_tcb cur (with_sp sp));; kern xTaskIncrementTick;; kern vTaskSwitchContext.

Inductive event := ERun (room : nat) | ETick (room : nat) | ETime (dt : Z).
Definition happen (e : event) : M demo unit :=
  match e with ERun room => run_current room | ETick room => timer_tick room | ETime dt => pass_time dt end.
Fixpoint run_events (es : list event) : M demo unit :=
  match es with [] => mret tt | e :: es => happen e;; run_events es end.
End demo.
Arguments demo : clear implicits.

(** ** The networking build *)

Section heartbeat.
Context {LS HS : Type} `{!ListOps item lst LS} `{!HeapOps HS} (sym : symbols) (vHeartbeat_addr vNetworkTask_addr : Z).

(** Where the heartbeat is in its loop. *)
Inductive hb_pc := HbPrint | HbDelay | HbSleep.
Record netmain := NetMain { n_kernel : kernel LS HS; hb_n : Z; hb_at : hb_pc; n_out : list demo_msg }.
Definition onN {A} (c : M (kernel LS HS) A) : M netmain A := zoom n_kernel (fun k d => NetMain k (hb_n d) (hb_at d) (n_out d)) c.
Definition nprint (m : demo_msg) : M netmain unit := modify (fun d => NetMain (n_kernel d) (hb_n d) (hb_at d) (n_out d ++ [m])).
Definition set_hb n b : M netmain unit := modify (fun d => NetMain (n_kernel d) n b (n_out d)).

Definition vHeartbeat (sp : Z) : M netmain unit :=
  n ← gets hb_n; p ← gets hb_at;
  match p with
  | HbPrint => t ← onN xTaskGetTickCount; nprint (OutBeat t n);; set_hb (u32 (n + 1)) HbDelay
  | HbDelay => onN (vTaskDelay_park 3000);; set_hb n HbSleep
  | HbSleep => onN (taskYIELD sp);; set_hb n HbPrint
  end.

(** [main] of the networking build. *)
Definition main_net : M netmain unit :=
  nprint OutNetBuild;;
  onN (xTaskCreate sym vHeartbeat_addr (Some (lit "hb")) configMINIMAL_STACK_SIZE 0 1);;
  onN (xTaskCreate sym vNetworkTask_addr (Some (lit "net")) (u32 (configMINIMAL_STACK_SIZE * 4)) 0 3);;
  n ← onN uxTaskGetNumberOfTasks; nprint (OutStart n);;
  onN (vTaskStartScheduler sym).
End heartbeat.
Arguments netmain : clear implicits.
