(* ===== verification/MainDemoSafe.v ===== *)
(** * The tasks of the demonstration keep the kernel's invariant

    Each step of the three tasks, the timer interrupt and the passing of time,
    in any order, on any state with the two semaphores in place. *)

From stdpp Require Import sorting.
From S2P Require Import Prelude Config Lists ListSpec ListRefine Alloc Tasks TasksInv TasksSpec TasksCreate TasksSafe TasksFrame Libc CInt Queue QueueSpec QueueSafe QueueProps MainDemo.

Section demo_safe.
Context {LS HS : Type} `{!ListOps item lst LS} `{!ListLaws item lst LS} `{!HeapOps HS} `{!HeapLaws HS}.
Context (cntfrq low med high idle : Z).
Implicit Types (d : demo LS HS) (s : qsys LS HS).

(** Queues stay, and keep the size of their items. *)
Definition sized {A} (c : M (qsys LS HS) A) : Prop := forall s r s', c s = Some (r, s') ->
  forall q Q, q_queues s !! q = Some Q -> exists Q', q_queues s' !! q = Some Q' /\ uxItemSize Q' = uxItemSize Q.
Lemma sized_ret {A} (a : A) : sized (mret a).
Proof. intros s r s' [= <- <-] q Q HQ. by exists Q. Qed.
Lemma sized_bind {A B} (c : M (qsys LS HS) A) (k : A -> M (qsys LS HS) B) : sized c -> (forall a, sized (k a)) -> sized (c ≫= k).
Proof.
  intros Hc Hk s r s' Hrun q Q HQ. unfold mbind, M_bind in Hrun. destruct (c s) as [ [a s1]|] eqn:E; [|done].
  destruct (Hc _ _ _ E q Q HQ) as (Q1 & HQ1 & E1). destruct (Hk a _ _ _ Hrun q Q1 HQ1) as (Q2 & HQ2 & E2). exists Q2. split; [done|congruence].
Qed.
Lemma sized_onK {A} (c : M (kernel LS HS) A) : sized (onK c).
Proof. intros s r s' Hrun q Q HQ. unfold onK, zoom in Hrun. destruct (c (q_kernel s)) as [ [a k]|]; [|done]. injection Hrun as <- <-. by exists Q. Qed.
Lemma sized_onB {A} (c : M mem A) : sized (onB c).
Proof. intros s r s' Hrun q Q HQ. unfold onB, zoom in Hrun. destruct (c (q_mem s)) as [ [a k]|]; [|done]. injection Hrun as <- <-. by exists Q. Qed.
Lemma sized_ld q : sized (ld_q q).
Proof. intros s r s' Hrun. unfold ld_q, get_opt in Hrun. destruct (q_queues s !! q); [|done]. injection Hrun as <- <-. intros q' Q HQ. by exists Q. Qed.
Lemma sized_st q f : (forall Q, uxItemSize (f Q) = uxItemSize Q) -> sized (st_q q f).
Proof.
  intros Hf. apply sized_bind; [apply sized_ld|]. intros _ s r s' [= <- <-] q' Q HQ. cbn [q_queues set_queues]. rewrite lookup_alter. case_decide as E; [subst q'|by exists Q].
  rewrite HQ. exists (f Q). by split.
Qed.
Create HintDb sized.
#[local] Hint Resolve sized_ret sized_onK sized_onB sized_ld : sized.
#[local] Hint Extern 1 (sized (st_q _ _)) => apply sized_st; intros []; reflexivity : sized.
Ltac sized_steps := repeat first [solve [auto with sized] | case_match | apply sized_bind; [|intros ?] ].
Lemma sized_send q a ticks front sp pc : sized (prvSend q a ticks front sp pc).
Proof. unfold prvSend, prvSend_try, prvCopyIn. sized_steps. Qed.
Lemma sized_receive q a ticks sp pc : sized (xQueueReceive q a ticks sp pc).
Proof. unfold xQueueReceive, xQueueReceive_try, prvCopyOut. sized_steps. Qed.

(** ** The system between two steps *)

(** A semaphore: a queue of empty items. *)
Definition sem s q : Prop := exists Q, q_queues s !! q = Some Q /\ uxItemSize Q = 0.
(** The guard words of every stack are as they were painted. *)
Definition guards (k : kernel LS HS) : Prop := forall t T, k_tcbs k !! t = Some T ->
  k_stack k !! pxStack T = Some FLINT_STACK_FILL /\ k_stack k !! (pxStack T + sizeof_StackType_t) = Some FLINT_STACK_FILL.
(** The kernel and its queues are consistent, the idle task is ready and, unless
    it waits ([w]) and is about to yield, so is the current task. *)
Definition core (w : bool) s : Prop := exists (W : Queues) A live I, qinv s A live I /\ steady idle (q_kernel s) A /\
  (w = false -> exists T, is_ready (q_kernel s) A (pxCurrentTCB (q_kernel s)) T).
Definition sound (w : bool) m h s : Prop := core w s /\ guards (q_kernel s) /\ sem s m /\ sem s h.

Lemma core_weaken w s : core false s -> core w s.
Proof. intros (W & A & live & I & ? & ? & Hr). exists W, A, live, I. split_and!; try done. intros _. by apply Hr. Qed.
Lemma sound_weaken w m h s : sound false m h s -> sound w m h s.
Proof. intros (? & ?). split; [by apply core_weaken|done]. Qed.
Lemma core_ready2 (W : Queues) A live I s : qinv s A live I -> ready2 idle (q_kernel s) A -> core false s.
Proof. intros Hq Hr. exists W, A, live, I. split_and!; [done|by apply ready2_steady|]. intros _. apply Hr. Qed.
Lemma core_is_ready2 s : core false s -> exists (W : Queues) A live I, qinv s A live I /\ ready2 idle (q_kernel s) A.
Proof. intros (W & A & live & I & Hq & [_ HU Hn] & Hr). exists W, A, live, I. split; [done|]. constructor; [by apply Hr|done|done]. Qed.
Lemma core_inv w s : core w s -> sys_inv idle s.
Proof. intros (W & A & live & I & ? & ? & _). by exists W, A, live, I. Qed.

Lemma guards_keep (k k' : kernel LS HS) : k_stack k' = k_stack k -> pxStack <$> k_tcbs k' = pxStack <$> k_tcbs k -> guards k -> guards k'.
Proof. intros Hst Hf Hg t T HT. symmetry in Hf. destruct (keeps_lookup pxStack _ _ _ _ Hf HT) as (T0 & HT0 & E). rewrite Hst, <- E. by eapply Hg. Qed.
Lemma guards_yields sp (k : kernel LS HS) T : guards k -> k_tcbs k !! pxCurrentTCB k = Some T -> pxStack T <= sp -> yields_ok sp k.
Proof. intros Hg HT Hsp. eapply yields_of; [exact HT|]. split; [done|]. exact (Hg _ _ HT). Qed.
Lemma sem_kept {A} (c : M (qsys LS HS) A) s r s' q : sized c -> c s = Some (r, s') -> sem s q -> sem s' q.
Proof. intros Hk Hrun (Q & HQ & Hz). destruct (Hk _ _ _ Hrun q Q HQ) as (Q' & HQ' & E). exists Q'. split; [done|congruence]. Qed.
Lemma sound_run {A} (c : M (qsys LS HS) A) m h s r s' w w' : sound w m h s -> sized c -> qkeeps c -> c s = Some (r, s') -> core w' s' -> sound w' m h s'.
Proof.
  intros (_ & Hg & Hm & Hh) Hz Hk Hrun Hc. destruct (Hk _ _ _ Hrun) as [F1 F2].
  split; [done|]. split; [by eapply guards_keep|]. split; (eapply sem_kept; [exact Hz|exact Hrun|done]).
Qed.

(** ** Calls *)

Definition waits_pc (pc : phase) : bool := match pc with PWait => true | _ => false end.
(** A step of a call by a task that is not the idle task: it completes, and only
    a step that puts its caller on a wait list leaves it current and not ready. *)
Definition call_ok (c : phase -> M (qsys LS HS) phase) m h sp : Prop := forall pc s,
  sound (waits_pc pc) m h s -> pxCurrentTCB (q_kernel s) <> idle -> yields_ok sp (q_kernel s) ->
  exists ph s', c pc s = Some (ph, s') /\ sound (waits_pc ph) m h s' /\
    (waits_pc ph = true -> pxCurrentTCB (q_kernel s') = pxCurrentTCB (q_kernel s)).

Lemma woke_waits y : waits_pc (woke y) = false.
Proof. unfold woke. by destruct (negb _). Qed.
Lemma yield_core {B} (b : B) w sp s : core w s -> yields_ok sp (q_kernel s) -> exists s', (onK (taskYIELD sp);; mret b) s = Some (b, s') /\ core false s'.
Proof.
  intros (W & A & live & I & Hq & Hs & _) Hy. destruct (yield_effect b idle sp s A live I Hq Hs Hy) as (k' & A' & Hrun & Hq' & Hr' & _).
  exists (set_kernel k' s). split; [done|]. by eapply core_ready2.
Qed.

Lemma take_ok q m h sp : q = m \/ q = h -> call_ok (xSemaphoreTake q portMAX_DELAY sp) m h sp.
Proof.
  intros Hqmh pc s Hs Hne Hy. unfold xSemaphoreTake.
  assert (exists ph s', xQueueReceive q 0 portMAX_DELAY sp pc s = Some (ph, s') /\ core (waits_pc ph) s' /\
    (waits_pc ph = true -> pxCurrentTCB (q_kernel s') = pxCurrentTCB (q_kernel s))) as (ph & s' & Hrun & Hc & Hcur).
  2:{ exists ph, s'. split_and!; try done. eapply sound_run; [exact Hs|apply sized_receive|apply qkeeps_receive|exact Hrun|exact Hc]. }
  destruct Hs as (Hc & _ & Hm & Hh). assert (sem s q) as (Q & HQ & Hz) by (by destruct Hqmh as [->| ->]).
  destruct pc as [|r| | | |r]; cbn [waits_pc] in Hc; try (destruct (yield_core (PDone r) _ sp s Hc Hy) as (s' & Hrun & ?); by exists (PDone r), s');
    try (destruct (yield_core PRetry _ sp s Hc Hy) as (s' & Hrun & ?); by exists PRetry, s'); try (by exists (PDone r), s);
    apply core_is_ready2 in Hc as (W & A & live & I & Hq & Hr2);
    destruct (qi_queue _ _ _ _ Hq _ _ HQ) as (items & HI & _).
  2:{ destruct (recv_block_effect idle s A live I q Q 0 portMAX_DELAY sp Hq Hr2 HQ Hne) as (s' & A' & Hrun & Hq' & Hst & _ & _ & Hcc & _); [by vm_compute; intuition congruence|].
      exists PWait, s'. split_and!; try done. exists W, A', live, I. by split_and!. }
  all: match goal with |- context [xQueueReceive _ _ _ _ ?pc] =>
    destruct (recv_try_effect idle s A live I q Q items 0 portMAX_DELAY sp pc Hq Hr2 HQ HI) as (ph & s' & A' & Hrun & Hr' & Hpost);
      [intros ?; lia|by auto|] end.
  all: exists ph, s'; split; [exact Hrun|].
  all: assert (waits_pc ph = false) as Hw by (destruct items; [destruct Hpost as (-> & _); done|destruct Hpost as (_ & _ & (y & -> & _) & _); apply woke_waits]).
  all: rewrite Hw; split; [|done]; destruct items; [destruct Hpost as (_ & -> & Hq' & _)|destruct Hpost as (Hq' & _)]; by eapply core_ready2.
Qed.
Lemma give_ok q m h sp : q = m \/ q = h -> call_ok (xSemaphoreGive q sp) m h sp.
Proof.
  intros Hqmh pc s Hs Hne Hy. unfold xSemaphoreGive, xQueueSendToBack.
  assert (exists ph s', prvSend q 0 0 pdFALSE sp pc s = Some (ph, s') /\ core (waits_pc ph) s' /\
    (waits_pc ph = true -> pxCurrentTCB (q_kernel s') = pxCurrentTCB (q_kernel s))) as (ph & s' & Hrun & Hc & Hcur).
  2:{ exists ph, s'. split_and!; try done. eapply sound_run; [exact Hs|apply sized_send|apply qkeeps_send|exact Hrun|exact Hc]. }
  destruct Hs as (Hc & _ & Hm & Hh). assert (sem s q) as (Q & HQ & Hz) by (by destruct Hqmh as [->| ->]).
  destruct pc as [|r| | | |r]; cbn [waits_pc] in Hc; try (destruct (yield_core (PDone r) _ sp s Hc Hy) as (s' & Hrun & ?); by exists (PDone r), s');
    try (destruct (yield_core PRetry _ sp s Hc Hy) as (s' & Hrun & ?); by exists PRetry, s'); try (by exists (PDone r), s);
    apply core_is_ready2 in Hc as (W & A & live & I & Hq & Hr2);
    destruct (qi_queue _ _ _ _ Hq _ _ HQ) as (items & HI & _).
  2:{ destruct (send_block_effect idle s A live I q Q 0 0 pdFALSE sp Hq Hr2 HQ Hne) as (s' & A' & Hrun & Hq' & Hst & _ & _ & Hcc & _); [by vm_compute; intuition congruence|].
      exists PWait, s'. split_and!; try done. exists W, A', live, I. by split_and!. }
  all: match goal with |- context [prvSend _ _ _ _ _ ?pc] =>
    destruct (send_try_effect idle s A live I q Q items 0 0 pdFALSE sp [] pc Hq Hr2 HQ HI) as (ph & s' & A' & Hrun & Hr' & Hpost);
      [split; [by rewrite Hz|intros ?; lia]|by auto|] end.
  all: exists ph, s'; split; [exact Hrun|].
  all: assert (waits_pc ph = false) as Hw by (destruct (_ <? _); [destruct Hpost as (_ & (y & -> & _) & _); apply woke_waits|destruct Hpost as (-> & _); by case_bool_decide]).
  all: rewrite Hw; split; [|done]; destruct (_ <? _); [destruct Hpost as (Hq' & _)|destruct Hpost as (_ & -> & Hq' & _)]; by eapply core_ready2.
Qed.

(** The critical section of a delay, and the yield after one. *)
Lemma park_sound n m h s : 0 < n < 2 ^ 32 -> sound false m h s -> pxCurrentTCB (q_kernel s) <> idle ->
  exists s', onK (vTaskDelay_park n) s = Some (tt, s') /\ sound true m h s' /\ pxCurrentTCB (q_kernel s') = pxCurrentTCB (q_kernel s).
Proof.
  intros Hn Hs Hne. pose proof Hs as ((W & A & live & I & Hq & [HT [U HU] Hnest] & Hr) & _). destruct (Hr eq_refl) as [T HTr].
  destruct (wp_vTaskDelay_park _ A live _ T n (qi_kinv _ _ _ _ Hq) (running_ready _ _ _ HTr) Hn Hnest) as ([] & k' & Hrun & A' & [_ Hot (m1 & b & ->) _] & Hk').
  pose proof (onK_run _ s _ _ Hrun) as Hrun'. eexists. split; [exact Hrun'|]. split; [|done].
  eapply sound_run; [exact Hs|apply sized_onK|apply qkeeps_onK, keeps_park|exact Hrun'|]. exists W, A', live, I. split; [by eapply qinv_kernel|]. split; [|done].
  constructor; [done| |done]. exists U. eapply ready_keep; [exact HU|apply HU|done|]. apply Hot. intros [= E]. by apply Hne.
Qed.
Lemma yield_sound w sp m h s : sound w m h s -> yields_ok sp (q_kernel s) -> exists s', onK (taskYIELD sp) s = Some (tt, s') /\ sound false m h s'.
Proof.
  intros Hs Hy. destruct (yield_core tt w sp s (proj1 Hs) Hy) as (s' & Hrun & Hc).
  assert (onK (taskYIELD sp) s = Some (tt, s')) as Hrun' by (revert Hrun; unfold mbind, M_bind; by destruct (onK (taskYIELD sp) s) as [ [ [] ?]|]).
  exists s'. split; [done|]. eapply sound_run; [exact Hs|apply sized_onK|apply qkeeps_onK, keeps_yield; done|exact Hrun'|exact Hc].
Qed.

(** ** The demonstration between two steps *)

Definition low_waits (p : low_pc) : bool := match p with LTake pc | LHeld pc | LGive pc => waits_pc pc | LSleep => true | _ => false end.
Definition med_waits (p : med_pc) : bool := match p with MSleep => true | _ => false end.
Definition high_waits (p : high_pc) : bool := match p with HWait pc | HTake _ pc | HGive _ pc => waits_pc pc | HReport _ => false end.
(** The current task has put itself on a waiting list and not yielded yet. *)
Definition waiting d : bool :=
  let cur := pxCurrentTCB (q_kernel (d_sys d)) in
  if cur =? low then low_waits (d_low d) else if cur =? med then med_waits (d_med d) else if cur =? high then high_waits (d_high d) else false.
Definition demo_inv d : Prop := sound (waiting d) (xMutex d) (xMutexHeld d) (d_sys d).
(** The same when the current task is ready for certain. *)
Definition calm d : Prop := sound false (xMutex d) (xMutexHeld d) (d_sys d).
Definition harmless {A} (c : M (demo LS HS) A) : Prop := forall d, calm d -> wp c (fun _ d' => calm d') d.

Lemma calm_inv d : calm d -> demo_inv d.
Proof. apply sound_weaken. Qed.
Lemma inv_intro w d : sound w (xMutex d) (xMutexHeld d) (d_sys d) -> (w = true -> waiting d = true) -> demo_inv d.
Proof. intros Hs Hw. destruct w; [unfold demo_inv; by rewrite Hw|by apply calm_inv]. Qed.

Lemma harmless_then {A B} (c : M (demo LS HS) A) (k : A -> M (demo LS HS) B) : harmless c -> (forall a, harmless (k a)) -> harmless (c ≫= k).
Proof. intros Hc Hk d Hd. apply wp_bind. eapply wp_mono; [by apply Hc|]. cbn beta. intros a d' Hd'. by apply Hk. Qed.
Lemma harmless_ret {A} (a : A) : harmless (mret a : M (demo LS HS) A).
Proof. intros d Hd. by apply wp_ret. Qed.
Lemma harmless_gets {A} (f : demo LS HS -> A) : harmless (gets f).
Proof. intros d Hd. by apply wp_gets. Qed.
Lemma harmless_modify (f : demo LS HS -> demo LS HS) :
  (forall d, d_sys (f d) = d_sys d /\ xMutex (f d) = xMutex d /\ xMutexHeld (f d) = xMutexHeld d) -> harmless (modify f).
Proof. intros Hf d Hd. apply wp_modify. destruct (Hf d) as (E1 & E2 & E3). unfold calm. by rewrite E1, E2, E3. Qed.
Lemma harmless_kgets {A} (f : kernel LS HS -> A) : harmless (kern (gets f)).
Proof. intros [s m h c l me hi cy o] Hd. eexists _, _. split; [reflexivity|]. unfold calm in *. cbn [d_sys xMutex xMutexHeld] in *. by destruct s. Qed.
Lemma harmless_inherit v : harmless (kern (vTaskSetMutexInheritance v)).
Proof.
  intros d ((W & A & live & I & Hq & [HT HU Hn] & Hr) & Hg & Hm & Hh). eexists _, _. split; [reflexivity|]. split; [|done].
  exists W, A, live, I. split; [|split; [by constructor|done] ]. eapply (qinv_kernel (d_sys d)); [exact Hq| |done]. destruct (qi_kinv _ _ _ _ Hq). by constructor.
Qed.

Create HintDb harmless.
#[local] Hint Resolve harmless_ret harmless_gets harmless_kgets harmless_inherit : harmless.
Ltac elsewhere := apply harmless_modify; intros []; by split_and!.
#[local] Hint Extern 2 (harmless (go_low _)) => elsewhere : harmless.
#[local] Hint Extern 2 (harmless (go_med _)) => elsewhere : harmless.
#[local] Hint Extern 2 (harmless (go_high _)) => elsewhere : harmless.
#[local] Hint Extern 2 (harmless (set_cycle _)) => elsewhere : harmless.
#[local] Hint Extern 2 (harmless (print _)) => elsewhere : harmless.
#[local] Hint Extern 2 (harmless (kern _)) => apply harmless_kgets : harmless.
Ltac harmless_steps := repeat first [solve [auto with harmless] | case_match | apply harmless_then; [|intros ?] ].

Lemma harmless_busy ms t : harmless (busy_wait_ms cntfrq ms t).
Proof. unfold busy_wait_ms. harmless_steps. Qed.
#[local] Hint Resolve harmless_busy : harmless.
Lemma calmly {A} (c : M (demo LS HS) A) d : harmless c -> demo_inv d -> waiting d = false -> wp c (fun _ d' => demo_inv d') d.
Proof. intros Hc Hd Hw. unfold demo_inv in Hd. rewrite Hw in Hd. eapply wp_mono; [by apply Hc|]. cbn beta. intros _ d'. apply calm_inv. Qed.

(** ** The tasks *)

Section task.
Context (d : demo LS HS) (sp : Z).
Context (Hd : demo_inv d) (Hne : pxCurrentTCB (q_kernel (d_sys d)) <> idle) (Hy : yields_ok sp (q_kernel (d_sys d))).
Abbreviation cur := (pxCurrentTCB (q_kernel (d_sys d))).

(** A step of a call, a step of a delay and the yield after it, each followed by
    the move [go] to the next place. *)
Lemma call_step c (go : phase -> M (demo LS HS) unit) (set : phase -> demo LS HS -> demo LS HS) pc :
  call_ok c (xMutex d) (xMutexHeld d) sp -> waiting d = waits_pc pc -> (forall p, go p = modify (set p)) ->
  (forall p d', d_sys (set p d') = d_sys d' /\ xMutex (set p d') = xMutex d' /\ xMutexHeld (set p d') = xMutexHeld d') ->
  (forall p d', pxCurrentTCB (q_kernel (d_sys d')) = cur -> waiting (set p d') = waits_pc p) ->
  wp (pc ← onS (c pc); go pc) (fun _ d' => demo_inv d') d.
Proof.
  intros Hc Hw Hgo Hset Hwait. unfold demo_inv in Hd. rewrite Hw in Hd. destruct (Hc pc (d_sys d) Hd Hne Hy) as (ph & s' & Hrun & Hs' & Hcur).
  apply wp_bind. eexists ph, _. split; [unfold onS, zoom; rewrite Hrun; reflexivity|]. rewrite Hgo. apply wp_modify.
  match goal with |- demo_inv (set ph ?x) => set (d1 := x) end. destruct (Hset ph d1) as (E1 & E2 & E3).
  apply (inv_intro (waits_pc ph)); [by rewrite E1, E2, E3|]. intros Hp. rewrite Hwait; [done|]. by apply Hcur.
Qed.
Lemma park_step n (go : M (demo LS HS) unit) (set : demo LS HS -> demo LS HS) :
  0 < n < 2 ^ 32 -> waiting d = false -> go = modify set ->
  (forall d', d_sys (set d') = d_sys d' /\ xMutex (set d') = xMutex d' /\ xMutexHeld (set d') = xMutexHeld d') ->
  (forall d', pxCurrentTCB (q_kernel (d_sys d')) = cur -> waiting (set d') = true) ->
  wp (kern (vTaskDelay_park n);; go) (fun _ d' => demo_inv d') d.
Proof.
  intros Hn Hw -> Hset Hwait. unfold demo_inv in Hd. rewrite Hw in Hd. destruct (park_sound n _ _ _ Hn Hd Hne) as (s' & Hrun & Hs' & Hcur).
  apply wp_bind. eexists tt, _. split; [unfold kern, onS, zoom; rewrite Hrun; reflexivity|]. apply wp_modify.
  match goal with |- demo_inv (set ?x) => set (d1 := x) end. destruct (Hset d1) as (E1 & E2 & E3).
  apply (inv_intro true); [by rewrite E1, E2, E3|]. intros _. by apply Hwait.
Qed.
Lemma wake_step (go : M (demo LS HS) unit) : harmless go -> wp (kern (taskYIELD sp);; go) (fun _ d' => demo_inv d') d.
Proof.
  intros Hgo. destruct (yield_sound _ sp _ _ _ Hd Hy) as (s' & Hrun & Hs'). apply wp_bind. eexists tt, _. split; [unfold kern, onS, zoom; rewrite Hrun; reflexivity|].
  eapply wp_mono; [apply Hgo; exact Hs'|]. cbn beta. intros _ d'. apply calm_inv.
Qed.

Ltac still := refine (calmly _ d _ Hd _); [harmless_steps|].

Definition at_low p d := Demo (d_sys d) (xMutex d) (xMutexHeld d) (cntpct d) p (d_med d) (d_high d) (h_cycle d) (d_out d).
Definition at_med p d := Demo (d_sys d) (xMutex d) (xMutexHeld d) (cntpct d) (d_low d) p (d_high d) (h_cycle d) (d_out d).
Definition at_high p d := Demo (d_sys d) (xMutex d) (xMutexHeld d) (cntpct d) (d_low d) (d_med d) p (h_cycle d) (d_out d).

Lemma safe_low : cur = low -> wp (vTaskLow cntfrq sp) (fun _ d' => demo_inv d') d.
Proof.
  intros Hc. unfold vTaskLow. do 3 apply wp_bind, wp_gets.
  assert (forall d' p, pxCurrentTCB (q_kernel (d_sys d')) = cur -> waiting (at_low p d') = low_waits p) as Hl.
  { intros d' p E. unfold waiting. cbn [d_sys at_low d_low]. by rewrite E, Hc, Z.eqb_refl. }
  assert (waiting d = low_waits (d_low d)) as Hw by (unfold waiting; by rewrite Hc, Z.eqb_refl).
  destruct (d_low d) as [pc|pc|t|pc| |]; cbn [low_waits] in Hw.
  - destruct pc; try (still; done); (apply (call_step (xSemaphoreTake (xMutex d) portMAX_DELAY sp) (fun p => go_low (LTake p)) (fun p => at_low (LTake p))); try done; [apply take_ok; by left|intros p d' E; by rewrite Hl..]).
  - destruct pc; try (still; done); (apply (call_step (xSemaphoreGive (xMutexHeld d) sp) (fun p => go_low (LHeld p)) (fun p => at_low (LHeld p))); try done; [apply give_ok; by right|intros p d' E; by rewrite Hl..]).
  - still. done.
  - destruct pc; try (still; done); (apply (call_step (xSemaphoreGive (xMutex d) sp) (fun p => go_low (LGive p)) (fun p => at_low (LGive p))); try done; [apply give_ok; by left|intros p d' E; by rewrite Hl..]).
  - apply (park_step LOW_GAP (go_low LSleep) (at_low LSleep)); try done. intros d' E. by rewrite Hl.
  - apply wake_step. harmless_steps.
Qed.
Lemma safe_med : cur <> low -> cur = med -> wp (vTaskMed cntfrq sp) (fun _ d' => demo_inv d') d.
Proof.
  intros Hnl Hc. unfold vTaskMed. apply wp_bind, wp_gets. apply Z.eqb_neq in Hnl.
  assert (forall d' p, pxCurrentTCB (q_kernel (d_sys d')) = cur -> waiting (at_med p d') = med_waits p) as Hl.
  { intros d' p E. unfold waiting. cbn [d_sys at_med d_med]. by rewrite E, Hnl, Hc, Z.eqb_refl. }
  assert (waiting d = med_waits (d_med d)) as Hw by (unfold waiting; by rewrite Hnl, Hc, Z.eqb_refl).
  destruct (d_med d) as [t| |]; cbn [med_waits] in Hw.
  - still. done.
  - apply (park_step MED_GAP (go_med MSleep) (at_med MSleep)); try done. intros d' E. by rewrite Hl.
  - apply wake_step. harmless_steps.
Qed.
Lemma safe_high : cur <> low -> cur <> med -> cur = high -> wp (vTaskHigh sp) (fun _ d' => demo_inv d') d.
Proof.
  intros Hnl Hnm Hc. unfold vTaskHigh. do 3 apply wp_bind, wp_gets. apply Z.eqb_neq in Hnl, Hnm.
  assert (forall d' p, pxCurrentTCB (q_kernel (d_sys d')) = cur -> waiting (at_high p d') = high_waits p) as Hl.
  { intros d' p E. unfold waiting. cbn [d_sys at_high d_high]. by rewrite E, Hnl, Hnm, Hc, Z.eqb_refl. }
  assert (waiting d = high_waits (d_high d)) as Hw by (unfold waiting; by rewrite Hnl, Hnm, Hc, Z.eqb_refl).
  destruct (d_high d) as [pc|t0 pc|w pc|w]; cbn [high_waits] in Hw.
  - destruct pc; try (still; done); (apply (call_step (xSemaphoreTake (xMutexHeld d) portMAX_DELAY sp) (fun p => go_high (HWait p)) (fun p => at_high (HWait p))); try done; [apply take_ok; by right|intros p d' E; by rewrite Hl..]).
  - destruct pc; try (still; done); (apply (call_step (xSemaphoreTake (xMutex d) portMAX_DELAY sp) (fun p => go_high (HTake t0 p)) (fun p => at_high (HTake t0 p))); try done; [apply take_ok; by left|intros p d' E; by rewrite Hl..]).
  - destruct pc; try (still; done); (apply (call_step (xSemaphoreGive (xMutex d) sp) (fun p => go_high (HGive w p)) (fun p => at_high (HGive w p))); try done; [apply give_ok; by left|intros p d' E; by rewrite Hl..]).
  - still. done.
Qed.
End task.

(** ** The interrupt and the system *)

Lemma switch_core w s : core w s -> current_ok (q_kernel s) -> exists s', onK vTaskSwitchContext s = Some (tt, s') /\ core false s'.
Proof.
  intros (W & A & live & I & Hq & [HC [U HU] Hn] & _) Hok. pose proof (qi_kinv _ _ _ _ Hq) as Hk. pose proof (to_prio _ _ _ _ (ki_tcb _ _ _ _ Hk _ _ (proj1 HU))).
  destruct (wp_vTaskSwitchContext (q_kernel s) A live Hk Hok) as ([] & k' & Hrun & A' & Hsw & Hk').
  { exists (uxPriority U). split; [lia|by eapply ready_occupies]. }
  destruct (switched_next _ _ _ _ _ Hk Hsw) as (u & T & Hu & HT & Hcu & _ & Hit & _).
  assert (k_tcbs k' = k_tcbs (q_kernel s) /\ uxCriticalNesting k' = uxCriticalNesting (q_kernel s)) as (Ht & Hc)
    by by destruct Hsw as (? & ? & ? & ? & ? & ? & -> & _).
  exists (set_kernel k' s). split; [by apply onK_run|]. apply (core_ready2 W A' live I); [eapply qinv_kernel; [exact Hq|done|by rewrite Ht]|].
  constructor; [exists T|exists U|cbn; by rewrite Hc].
  - cbn. rewrite Hu. eapply ready_keep; [split; [exact HT|exact Hcu]|..]; rewrite ?Ht, ?Hit; done.
  - eapply ready_keep; [exact HU|..]; cbn; rewrite ?Ht, ?Hit; try done. apply HU.
Qed.
Lemma save_core w sp s : core w s -> onK (cur ← gets pxCurrentTCB; st_tcb cur (with_sp sp)) s = Some (tt, set_kernel (saved sp (q_kernel s)) s) /\
  core true (set_kernel (saved sp (q_kernel s)) s).
Proof.
  intros (W & A & live & I & Hq & [ [T HT] [U HU] Hn] & _). split.
  { apply onK_run. rewrite gets_run. unfold st_tcb, ld_tcb. erewrite bind_eq by (unfold get_opt; by rewrite HT). done. }
  exists W, A, live, I. split; [eapply qinv_kernel; [exact Hq|by apply kinv_saved, Hq|]|].
  - intros t [V HV]. cbn. rewrite lookup_alter. case_decide; subst; [rewrite HV|]; by eexists.
  - split; [|done]. destruct (saved_ready sp _ _ _ _ HU) as (U' & HU'). constructor; [|by exists U'|done]. cbn. rewrite lookup_alter_eq, HT. by eexists.
Qed.
Lemma tick_core w s : core w s -> exists s', onK xTaskIncrementTick s = Some (tt, s') /\ core true s' /\
  k_tcbs (q_kernel s') = k_tcbs (q_kernel s) /\ pxCurrentTCB (q_kernel s') = pxCurrentTCB (q_kernel s).
Proof.
  intros (W & A & live & I & Hq & [HT [U HU] Hn] & _). pose proof (qi_kinv _ _ _ _ Hq) as Hk.
  destruct (tick_effect (q_kernel s) A live Hk) as (k' & A' & Hrun & Hk' & _ & Htc & Hcu & Hcn & _ & Hkeep).
  exists (set_kernel k' s). split; [by apply onK_run|]. split; [|done]. exists W, A', live, I. split; [eapply qinv_kernel; [exact Hq|done|by rewrite Htc]|]. split; [|done].
  constructor; cbn; [by rewrite Htc, Hcu| |by rewrite Hcn]. exists U. eapply ready_keep; [exact HU|rewrite Htc; apply HU|done|].
  apply Hkeep. intros v Hdd. by destruct (ready_not_delayed _ _ _ _ _ v Hk HU).
Qed.
Lemma tick_sound w m h sp s : sound w m h s -> yields_ok sp (q_kernel s) ->
  exists s1 s2 s3, onK (cur ← gets pxCurrentTCB; st_tcb cur (with_sp sp)) s = Some (tt, s1) /\ onK xTaskIncrementTick s1 = Some (tt, s2) /\
    onK vTaskSwitchContext s2 = Some (tt, s3) /\ sound false m h s3.
Proof.
  intros Hs Hy. destruct (save_core w sp s (proj1 Hs)) as [E1 C1]. set (s1 := set_kernel _ s) in *.
  destruct (tick_core true s1 C1) as (s2 & E2 & C2 & Ht & Hc).
  destruct (qkeeps_onK xTaskIncrementTick (keeps_tick pxStack) _ _ _ E2) as [Hst _].
  destruct (switch_core true s2 C2) as (s3 & E3 & C3); [intros T; rewrite Ht, Hc, Hst; by apply saved_current_ok|].
  exists s1, s2, s3. split_and!; try done.
  eapply (sound_run (onK (cur ← gets pxCurrentTCB; st_tcb cur (with_sp sp));; onK xTaskIncrementTick;; onK vTaskSwitchContext)); [exact Hs| | |by rewrite (bind_eq _ _ _ _ _ E1), (bind_eq _ _ _ _ _ E2)|exact C3].
  - apply sized_bind; [apply sized_onK|intros _; apply sized_bind; [apply sized_onK|intros _; apply sized_onK] ].
  - apply qkeeps_bind; [apply qkeeps_onK, frame_bind; [apply frame_gets|intros; by apply keeps_st_tcb]|intros _].
    apply qkeeps_bind; [apply qkeeps_onK, keeps_tick|intros _; apply qkeeps_onK, keeps_switch].
Qed.

(** The stack pointer an event gives. *)
Lemma pointer_run room d : demo_inv d -> exists sp, stack_pointer room d = Some (sp, d) /\ yields_ok sp (q_kernel (d_sys d)).
Proof.
  intros ((W & A & live & I & Hq & [ [T HT] HU Hn] & _) & Hg & _). exists (pxStack T + Z.of_nat room). split.
  - unfold stack_pointer, kern, onS, onK, zoom. rewrite gets_run. unfold ld_tcb. erewrite bind_eq by (unfold get_opt; rewrite HT; reflexivity). by destruct d as [ [] ].
  - eapply guards_yields; [exact Hg|exact HT|lia].
Qed.

Context (Hlow : low <> idle) (Hmed : med <> idle) (Hhigh : high <> idle).
Lemma event_inv e d : demo_inv d -> wp (happen cntfrq low med high e) (fun _ d' => demo_inv d') d.
Proof.
  intros Hd. destruct e as [room|room|dt]; cbn [happen].
  - unfold run_current. apply wp_bind. eexists _, d. split; [by destruct d as [ [] ]|]. destruct (pointer_run room d Hd) as (sp & Hp & Hy).
    apply wp_bind. eexists sp, d. split; [exact Hp|]. destruct (Z.eqb_spec (pxCurrentTCB (q_kernel (d_sys d))) low) as [E|N1]; [apply safe_low; [done|congruence|done|done]|].
    destruct (Z.eqb_spec (pxCurrentTCB (q_kernel (d_sys d))) med) as [E|N2]; [apply safe_med; [done|congruence|done|done|done]|].
    destruct (Z.eqb_spec (pxCurrentTCB (q_kernel (d_sys d))) high) as [E|N3]; [apply safe_high; [done|congruence|done|done|done|done]|]. by apply wp_ret.
  - destruct (pointer_run room d Hd) as (sp & Hp & Hy). apply wp_bind. eexists sp, d. split; [exact Hp|].
    destruct (tick_sound _ _ _ sp _ Hd Hy) as (s1 & s2 & s3 & E1 & E2 & E3 & Hs3). eexists tt, _. unfold kern.
    split; [erewrite bind_eq by (unfold onS, zoom; rewrite E1; reflexivity); erewrite bind_eq by (unfold onS, zoom; cbn [d_sys]; rewrite E2; reflexivity);
      unfold onS, zoom; cbn [d_sys]; rewrite E3; reflexivity|]. by apply calm_inv.
  - apply wp_modify. exact Hd.
Qed.
Lemma events_inv es d : demo_inv d -> wp (run_events cntfrq low med high es) (fun _ d' => demo_inv d') d.
Proof.
  revert d. induction es as [|e es IH]; intros d Hd; cbn [run_events]; [by apply wp_ret|]. apply wp_bind.
  eapply wp_mono; [by apply event_inv|]. cbn beta. intros _ d'. apply IH.
Qed.
End demo_safe.

(** ** Who runs while the highest task waits *)

Section inversion.
Context `{Qs : Queues} {LS HS : Type} `{!ListOps item lst LS} `{!ListLaws item lst LS} `{!HeapOps HS} `{!HeapLaws HS}.
Context (low med high idle : Z).
Implicit Types (d : demo LS HS) (k : kernel LS HS) (A : amem item lst) (live : gmap Z Z) (I : gmap Z (list (list Z))).

(** A task that blocks hands the processor to a ready task of the highest
    priority among the others. *)
Lemma block_hands_over k A live T v0 V0 l n sp m :
  kinv None k A live -> is_ready k A (pxCurrentTCB k) T -> is_ready k A v0 V0 -> v0 <> pxCurrentTCB k ->
  wait_list l -> core_list l -> in_u 32 n -> 0 <= m < 2 ^ 64 - 1 -> uxCriticalNesting k = u64 (m + 1) -> yields_ok sp k ->
  exists k1 k2 k', vTaskPlaceOnEventList l n k = Some (tt, k1) /\ taskEXIT_CRITICAL k1 = Some (tt, k2) /\ pxCurrentTCB k2 = pxCurrentTCB k /\
    taskYIELD sp k2 = Some (tt, k') /\
    exists V, is_ready k A (pxCurrentTCB k') V /\ pxCurrentTCB k' <> pxCurrentTCB k /\
      forall v V', v <> pxCurrentTCB k -> is_ready k A v V' -> uxPriority V' <= uxPriority V.
Proof.
  intros Hk HT H0 Hne Hw Hcl Hn Hm Hnest Hyk. destruct (inv_list _ _ _ _ l Hk Hcl) as (ws & wc & Hl).
  destruct (wp_vTaskPlaceOnEventList k A live _ T l n Hk (running_ready _ _ _ HT) Hw ltac:(by eexists) Hn) as ([] & k1 & Hrun & A1 & [ [m1 ->] _ Hst _ _ Hot] & Hk1).
  destruct (exit_state (set_lists m1 k) m Hm Hnest) as [b Hexit]. pose proof (kinv_critical _ _ _ _ m b Hk1) as Hk2. set (k2 := set_critical m b _) in *.
  assert (forall v V, v <> pxCurrentTCB k -> is_ready k A v V -> is_ready k2 A1 v V) as Hkeep.
  { intros v V Hv HV. eapply ready_keep; [exact HV|exact (proj1 HV)|done|]. by apply Hot. }
  pose proof (to_prio _ _ _ _ (ki_tcb _ _ _ _ Hk _ _ (proj1 H0))).
  destruct (wp_taskYIELD sp k2 A1 live T Hk2 (proj1 HT) Hyk) as ([] & k' & Hy & A' & Hsw & _).
  { exists (uxPriority V0). split; [lia|]. eapply ready_occupies; [exact Hk2|]. by apply Hkeep. }
  destruct (switched_next _ _ _ _ _ (kinv_saved sp _ _ _ Hk2) Hsw) as (u & U & Hu & HU & Hcu & Hmax & _).
  assert (u <> pxCurrentTCB k) as Huc. { intros ->. rewrite Hst in Hcu. by destruct (n =? portMAX_DELAY). }
  exists (set_lists m1 k), k2, k'. split_and!; try done. exists U. rewrite Hu. split_and!; [|done|].
  - split; [|unfold cont in *; by rewrite <- (Hot (StateItem u) Huc)]. cbn in HU. by rewrite lookup_alter_ne in HU by done.
  - intros v V' Hv HV. destruct (Z.le_gt_cases (uxPriority V') (uxPriority U)) as [|Hgt]; [done|]. exfalso.
    eapply Hmax; [exact Hgt|]. eapply ready_occupies; [exact Hk2|]. by apply Hkeep.
Qed.

Lemma ready_unique k A t T T' : is_ready k A t T -> is_ready k A t T' -> T = T'.
Proof. intros [H1 _] [H2 _]. congruence. Qed.

(** The high task about to wait for the mutex the low task holds, the medium
    one ready; no other task is. *)
Record contended d A live I Q H L M : Prop := {
  co_inv : qinv (d_sys d) A live I;
  co_nest : 0 <= uxCriticalNesting (q_kernel (d_sys d)) < 2 ^ 64 - 1;
  co_cur : pxCurrentTCB (q_kernel (d_sys d)) = high;
  co_mutex : q_queues (d_sys d) !! xMutex d = Some Q /\ ucIsMutex Q <> 0 /\ pxMutexHolder Q = low;
  co_high : is_ready (q_kernel (d_sys d)) A high H;
  co_low : is_ready (q_kernel (d_sys d)) A low L;
  co_med : is_ready (q_kernel (d_sys d)) A med M;
  co_prio : uxPriority L < uxPriority M < uxPriority H;
  co_only : forall t T, is_ready (q_kernel (d_sys d)) A t T -> t = low \/ t = med \/ t = high \/ uxPriority T < uxPriority L }.

Lemma inherit_contended k A live L T :
  kinv None k A live -> is_ready k A (pxCurrentTCB k) T -> is_ready k A low L -> low <> pxCurrentTCB k -> uxPriority L < uxPriority T ->
  exists k1 A1, vTaskPriorityInherit low k = Some (tt, k1) /\ kinv None k1 A1 live /\ pxCurrentTCB k1 = pxCurrentTCB k /\ uxCriticalNesting k1 = uxCriticalNesting k /\
    (forall v V, v <> low -> is_ready k1 A1 v V <-> is_ready k A v V) /\
    is_ready k1 A1 low (if xInheritEnabled k =? pdFALSE then L else with_priority (uxPriority T) L).
Proof.
  intros Hk HT HL Hne Hlt. destruct (wp_vTaskPriorityInherit k A live low L T Hk (proj1 HL) (proj1 HT)) as ([] & k1 & Hrun & Hp).
  rewrite (proj2 (Z.ltb_lt _ _) Hlt), andb_true_r in Hp. destruct (xInheritEnabled k =? pdFALSE); cbn [negb] in Hp; [subst k1; by exists k, A|].
  destruct Hp as (A1 & (m & v & -> & Hot & Hc) & Hk1). eexists _, A1. split; [exact Hrun|]. split; [done|]. split; [done|]. split; [done|]. split.
  - intros w V Hw. unfold is_ready, cont. rewrite Hot by congruence. cbn. by rewrite lookup_alter_ne.
  - split; [cbn; by rewrite lookup_alter_eq, (proj1 HL)|]. by rewrite Hc, (proj2 HL).
Qed.

(** C13: what the demonstration shows.  When the high task, about to wait for
    the mutex the low task holds while the medium task is ready (and no other
    task at or above the low one's priority), puts itself on the mutex's wait list
    and then yields, its stack not overrun, the processor goes to the medium task
    as long as inheritance is off, so that the high task waits behind it, and to
    the holder of the mutex once it is on. *)
Theorem inversion_then_inheritance d A live I Q H L M t0 sp :
  contended d A live I Q H L M -> d_high d = HTake t0 PBlock -> yields_ok sp (q_kernel (d_sys d)) ->
  exists d1 d', vTaskHigh sp d = Some (tt, d1) /\ d_high d1 = HTake t0 PWait /\ pxCurrentTCB (q_kernel (d_sys d1)) = high /\
    vTaskHigh sp d1 = Some (tt, d') /\ d_high d' = HTake t0 PRetry /\
    pxCurrentTCB (q_kernel (d_sys d')) = if xInheritEnabled (q_kernel (d_sys d)) =? pdFALSE then med else low.
Proof.
  intros [Hq Hn Hcur (HQ & Hmx & Hho) HH HL HM Hp Honly] Hpc Hy0. set (k := q_kernel (d_sys d)) in *.
  set (k0 := set_critical (u64 (uxCriticalNesting k + 1)) true k).
  assert (low <> high) as Hlh by (intros E; rewrite E in HL; pose proof (ready_unique _ _ _ _ _ HL HH); subst; lia).
  pose proof (kinv_critical _ _ _ _ (u64 (uxCriticalNesting k + 1)) true (qi_kinv _ _ _ _ Hq)) as Hk0. fold k0 in Hk0.
  assert (is_ready k0 A (pxCurrentTCB k0) H) as HH0 by (change (pxCurrentTCB k0) with (pxCurrentTCB k); by rewrite Hcur).
  destruct (inherit_contended k0 A live L H Hk0 HH0 HL) as (k1 & A1 & Hinh & Hk1 & Hc1 & Hn1 & Hrd & HL1);
    [change (pxCurrentTCB k0) with (pxCurrentTCB k); congruence|lia|]. change (pxCurrentTCB k0) with (pxCurrentTCB k) in Hc1. change (xInheritEnabled k0) with (xInheritEnabled k) in HL1.
  assert (yields_ok sp k1) as Hy1.
  { destruct (keeps_inherit pxStack ltac:(done) low _ _ _ Hinh) as [F1 F2]. by eapply yields_keep. }
  destruct (block_hands_over k1 A1 live H low (if xInheritEnabled k =? pdFALSE then L else with_priority (uxPriority H) L) (WaitRecv (xMutex d)) portMAX_DELAY sp (uxCriticalNesting k) Hk1) as (k2 & k3 & k4 & Hpl & Hex & Hcu3 & Hy & V & HV & Hne & Hmax);
    [rewrite Hc1, Hcur; by apply Hrd|exact HL1|congruence|done|by eapply (proj2 (qinv_core _ _ _ _ _ _ Hq HQ))|vm_compute; intuition congruence|done|exact Hn1|done|].
  assert (xQueueReceive (xMutex d) 0 portMAX_DELAY sp PBlock (d_sys d) = Some (PWait, set_kernel k3 (d_sys d))) as Hrun.
  { cbn [xQueueReceive]. erewrite bind_eq by reflexivity. erewrite (bind_eq (ld_q _)) by (unfold ld_q, get_opt; simpl; by rewrite HQ).
    rewrite (proj2 (Z.eqb_neq _ _) Hmx). cbn [negb]. rewrite Hho. erewrite bind_eq by (apply onK_run; exact Hinh).
    erewrite bind_eq by (apply onK_run; exact Hpl). by erewrite bind_eq by (apply onK_run; exact Hex). }
  assert (xQueueReceive (xMutex d) 0 portMAX_DELAY sp PWait (set_kernel k3 (d_sys d)) = Some (PRetry, set_kernel k4 (d_sys d))) as Hrun2.
  { cbn [xQueueReceive]. by erewrite bind_eq by (apply onK_run; exact Hy). }
  eexists _, _. split.
  { unfold vTaskHigh. rewrite !gets_run, Hpc. unfold xSemaphoreTake. erewrite bind_eq by (unfold onS, zoom; rewrite Hrun; reflexivity). reflexivity. }
  split; [reflexivity|]. split; [cbn [d_sys q_kernel set_kernel]; congruence|]. split.
  { unfold vTaskHigh. rewrite !gets_run. cbn [d_high xMutex]. unfold xSemaphoreTake. erewrite bind_eq by (unfold onS, zoom; cbn [d_sys]; rewrite Hrun2; reflexivity). reflexivity. }
  split; [reflexivity|]. cbn [d_sys q_kernel set_kernel]. rewrite Hc1, Hcur in *.
  assert (pxCurrentTCB k4 <> low -> pxCurrentTCB k4 = med /\ V = M \/ uxPriority V < uxPriority L) as Hother.
  { intros Hnl. apply Hrd in HV; [|done]. destruct (Honly _ _ HV) as [?|[E|[?|?] ] ]; [done| |done|by right]. left. split; [done|].
    rewrite E in HV. by eapply ready_unique. }
  destruct (xInheritEnabled k =? pdFALSE).
  - destruct (decide (pxCurrentTCB k4 = low)) as [E|Hnl]; [|destruct (Hother Hnl) as [ [? _]|Hlt]; [done|]].
    + exfalso. rewrite E in HV. rewrite (ready_unique _ _ _ _ _ HV HL1) in Hmax. assert (med <> low) as Hml by (intros ->; pose proof (ready_unique _ _ _ _ _ HL HM); subst; lia).
      assert (med <> high) as Hmh by (intros ->; pose proof (ready_unique _ _ _ _ _ HH HM); subst; lia). pose proof (Hmax med M Hmh (proj2 (Hrd med M Hml) HM)). lia.
    + exfalso. pose proof (Hmax low L Hlh HL1). lia.
  - destruct (decide (pxCurrentTCB k4 = low)) as [|Hnl]; [done|]. exfalso. pose proof (Hmax low _ Hlh HL1) as Hx. cbn in Hx.
    destruct (Hother Hnl) as [ [_ ->]|?]; lia.
Qed.
End inversion.

(** ** The heartbeat *)

Section heartbeat_props.
Context `{Qs : Queues} {LS HS : Type} `{!ListOps item lst LS} `{!ListLaws item lst LS} `{!HeapOps HS} `{!HeapLaws HS}.
Implicit Types (d : netmain LS HS).

(** A round of the heartbeat prints the tick and the number of the beat once and
    sleeps; beats are numbered consecutively modulo 2^32. *)
Lemma heartbeat_beats (sym : symbols) idle d sp :
  sched_inv idle (n_kernel d) -> pxCurrentTCB (n_kernel d) <> idle -> hb_at d = HbPrint -> yields_ok sp (n_kernel d) ->
  exists d', (vHeartbeat sp;; vHeartbeat sp;; vHeartbeat sp) d = Some (tt, d') /\ n_out d' = n_out d ++ [OutBeat (xTickCount (n_kernel d)) (hb_n d)] /\
    hb_n d' = u32 (hb_n d + 1) /\ hb_at d' = HbPrint /\ sched_inv idle (n_kernel d').
Proof.
  intros (A & live & T & I & Hk & HT & HI & Hn) Hne Hb Hy. destruct d as [k n b o]. cbn [n_kernel hb_n hb_at n_out] in *. subst b.
  destruct (op_next sym idle k A live T I Hk HT HI Hn (OpDelay 3000 sp)) as (k' & Hrun & Hnext); [by split; [vm_compute; intuition congruence|]|]. cbn [run_op] in Hrun.
  unfold vTaskDelay in Hrun. change (0 <? 3000) with true in Hrun. cbv iota in Hrun. unfold mbind, M_bind in Hrun.
  destruct (vTaskDelay_park 3000 k) as [ [ [] k1]|] eqn:E1; [|done].
  exists (NetMain k' (u32 (n + 1)) HbPrint (o ++ [OutBeat (xTickCount k) n])). split; [|split_and!; try done; by eapply sched_next_inv].
  erewrite bind_eq by reflexivity. erewrite bind_eq by (unfold vHeartbeat; rewrite !gets_run; cbn [hb_at hb_n]; erewrite bind_eq by (unfold onN, zoom; cbn [n_kernel]; rewrite E1; reflexivity); reflexivity).
  unfold vHeartbeat. rewrite !gets_run. cbn [hb_at hb_n]. erewrite bind_eq by (unfold onN, zoom; cbn [n_kernel]; rewrite Hrun; reflexivity). done.
Qed.
End heartbeat_props.
