(* ===== verification/MainDemoProps.v ===== *)
(** * The priority-inversion demonstration runs as it says

    From the boot state, [main] brings the kernel into its invariant; from there
    no interleaving of task steps, timer interrupts and elapsing time gets stuck
    or breaks it.  On a board whose tick is a millisecond, the console shows what
    the demonstration is about. *)

From stdpp Require Import sorting.
From S2P Require Import Prelude Config Lists ListSpec ListRefine Heap4 Heap4Spec Alloc Heap4Props Tasks TasksInv TasksSpec TasksCreate TasksSafe TasksFrame TasksDemo TasksWitness Libc CInt Queue QueueSpec QueueSafe QueueProps QueueWitness Decimal CStr MainDemo MainDemoSafe.

Abbreviation DD := (demo (lmem item lst) heap).

(** ** The state main leaves *)

Definition demo_boot : DD := Demo (QSys kernel_boot ∅ ∅) 0 0 0 (LTake PTry) (MSpin None) (HWait PTry) 0 [].
Definition main_demo : M DD bool := main_minimal demo_sym 0x1000 0x2000 0x3000 0x80100.
Definition run_d {A} (c : M DD A) (d : DD) : DD := match c d with Some (_, d') => d' | None => d end.
Definition demo_started : DD := run_d main_demo demo_boot.

(** Closed states are compared by computation. *)
#[local] Instance ListItem_eq : EqDecision (ListItem_t item lst).
Proof. solve_decision. Defined.
#[local] Instance MiniListItem_eq : EqDecision (@MiniListItem_t item lst).
Proof. solve_decision. Defined.
#[local] Instance List_eq : EqDecision (List_t item lst).
Proof. solve_decision. Defined.
#[local] Instance lmem_eq : EqDecision (lmem item lst).
Proof. solve_decision. Defined.
#[local] Instance BlockLink_eq : EqDecision BlockLink_t.
Proof. solve_decision. Defined.
#[local] Instance heap_eq : EqDecision heap.
Proof. solve_decision. Defined.
#[local] Instance TCB_eq : EqDecision TCB_t.
Proof. solve_decision. Defined.
#[local] Instance kernel_eq : EqDecision DK.
Proof. solve_decision. Defined.
#[local] Instance Queue_eq : EqDecision Queue_t.
Proof. solve_decision. Defined.
#[local] Instance qsys_eq : EqDecision DQ.
Proof. solve_decision. Defined.
Ltac by_deciding := refine (bool_decide_unpack _ _); vm_compute; exact I.

(** The same kernel, with the lists initialised before the semaphores are made
    rather than by the first task. *)
Definition k0 : DK := run_k (prvInitialiseTaskLists;; modify (set_lists_init pdTRUE)) kernel_boot.
Definition q0 : DQ := QSys k0 ∅ ∅.
Definition q1 : DQ := run_q (xQueueCreate 1 0) q0.
Definition q1m : Z := result 0 (xQueueCreate 1 0) q0.
Definition q2 : DQ := set_queues (<[q1m := with_count 1 (with_mutex 1 (queue_of q1 q1m))]> (q_queues q1)) q1.
Definition q3 : DQ := run_q (xQueueCreate 1 0) q2.
Definition q3h : Z := result 0 (xQueueCreate 1 0) q2.
Definition task_args (addr name prio : Z) : create_args := CreateArgs addr (Some [name; 0]) configMINIMAL_STACK_SIZE 0 prio.
Definition k3 : DK := set_inherit pdFALSE (q_kernel q3).
Definition k4 : DK := run_k (create demo_sym (task_args 0x1000 76 1)) k3.
Definition k5 : DK := run_k (create demo_sym (task_args 0x2000 77 2)) k4.
Definition k6 : DK := run_k (create demo_sym (task_args 0x3000 72 3)) k5.
Definition k7 : DK := run_k (vTaskStartScheduler demo_sym) k6.
Lemma demo_started_state : d_sys demo_started = QSys k7 (q_queues q3) (q_mem q3).
Proof. by_deciding. Qed.
Lemma demo_started_sems : xMutex demo_started = q1m /\ xMutexHeld demo_started = q3h /\ q1m <> 0 /\ q3h <> 0 /\ q1m <> q3h.
Proof. by_deciding. Qed.

(** ** Its invariant *)

Section started.
Context (W : gset Z).
#[local] Instance started_queues : Queues := W.

Lemma create_post_grows a (k k' : DK) A live r : create_post demo_sym a k A live r k' -> kinv None k A live ->
  exists A' live', kinv None k' A' live' /\ grows k k' live live'.
Proof.
  intros [(_ & h & -> & Hk')|(t & T & A' & live' & _ & Hc & Hk')] Hk; [by exists A, live|].
  exists A', live'. split; [done|]. destruct (cr_live _ _ _ _ _ _ _ _ _ _ Hc) as (? & ? & ? & ->). split.
  - transitivity (<[pxStack T := 8 * ca_depth a]> live); apply insert_subseteq; by simplify_map_eq.
  - intros u Hu. rewrite (cr_tcbs _ _ _ _ _ _ _ _ _ _ Hc). apply lookup_insert_is_Some'. by right.
Qed.

(** Tasks made beside the queues keep the invariant, and so does the start. *)
Definition qsound (s : DQ) : Prop := exists A live I, qinv s A live I.
Lemma create_sound a k Qs mem : qsound (QSys k Qs mem) -> args_ok a -> 0 <= uxCriticalNesting k < 2 ^ 64 - 1 ->
  qsound (QSys (run_k (create demo_sym a) k) Qs mem).
Proof.
  intros (A & live & I & Hq) Ha Hn. pose proof (qi_kinv _ _ _ _ Hq) as Hk. destruct (wp_xTaskCreate demo_sym a k A live Hk Ha Hn) as (r & k' & Hrun & Hp).
  destruct (create_post_grows _ _ _ _ _ _ Hp Hk) as (A' & live' & Hk' & Hg). exists A', live', I. unfold run_k. rewrite Hrun.
  exact (qinv_grow (Qs := W) (QSys k Qs mem) A live I k' A' live' Hq Hk' Hg).
Qed.
Lemma start_sound k Qs mem : qsound (QSys k Qs mem) -> 0 <= uxCriticalNesting k < 2 ^ 64 - 1 -> qsound (QSys (run_k (vTaskStartScheduler demo_sym) k) Qs mem).
Proof.
  intros (A & live & I & Hq) Hn. pose proof (qi_kinv _ _ _ _ Hq) as Hk. destruct (wp_vTaskStartScheduler demo_sym k A live Hk Hn) as (r & k' & Hrun & r' & k1 & Hp & ->).
  destruct (create_post_grows _ _ _ _ _ _ Hp Hk) as (A' & live' & Hk' & Hg). exists A', live', I. unfold run_k. rewrite Hrun.
  refine (qinv_grow (Qs := W) (QSys k Qs mem) A live I _ A' live' Hq _ _); [by apply kinv_start|]. destruct Hg. by split.
Qed.
Lemma inherit_sound k Qs mem v : qsound (QSys k Qs mem) -> qsound (QSys (set_inherit v k) Qs mem).
Proof.
  intros (A & live & I & [Hk Hd HQ]). exists A, live, I. constructor; [destruct Hk; by constructor|exact Hd|]. intros q Q Hq. destruct (HQ q Q Hq) as (items & ? & []).
  exists items. split; [done|]. by constructor.
Qed.
End started.

Lemma empty_qinv (k : DK) A live : kinv (Qs := no_queues) None k A live -> qinv (Qs := no_queues) (QSys k ∅ ∅) A live ∅.
Proof. intros Hk. constructor; [done|done|]. cbn [q_queues]. by intros q Q ?%lookup_empty_Some. Qed.
Lemma token_sound W (s : DQ) A live I q Q :
  qinv (Qs := W) s A live I -> q_queues s !! q = Some Q -> I !! q = Some [] -> uxItemSize Q = 0 -> uxLength Q = 1 -> pxMutexHolder Q = 0 ->
  qinv (Qs := W) (set_queues (<[q := with_count 1 (with_mutex 1 Q)]> (q_queues s)) s) A live (<[q := [ [] ] ]> I).
Proof. intros Hq HQ HI Hz Hl Hh. eapply (token_queue W s A live I q Q []); try done; [simpl; lia|by repeat constructor]. Qed.
Lemma q1_sound : exists A live I, qinv (Qs := ({[q1m]} : gset Z) ∪ (no_queues : gset Z)) q1 A live I /\
  q_queues q1 !! q1m = Some (queue_of q1 q1m) /\ I !! q1m = Some [] /\
  uxItemSize (queue_of q1 q1m) = 0 /\ uxLength (queue_of q1 q1m) = 1 /\ pxMutexHolder (queue_of q1 q1m) = 0.
Proof.
  destruct (wp_prvInitialiseTaskLists kernel_boot ∅ kernel_boot_ok) as ([] & k & Hrun & m & A & _ & _ & Hk).
  assert (k0 = k) as E0 by (unfold k0, run_k; by rewrite Hrun). rewrite <- E0 in Hk. pose proof (empty_qinv _ _ _ Hk) as H0. fold q0 in H0.
  destruct (wp_xQueueCreate no_queues q0 A ∅ ∅ 1 0 H0 ltac:(lia) ltac:(lia) ltac:(unfold sizeof_Queue_t; lia) ltac:(lia)) as (q & s' & Hq & Hpost).
  assert (q1m = q) as Em by (unfold q1m, result; by rewrite Hq). assert (q1 = s') as Es by (unfold q1, run_q; by rewrite Hq).
  destruct Hpost as [[Hz _]|(_ & A' & Hc)]; [by destruct (proj1 (proj2 (proj2 demo_started_sems)) (eq_trans Em Hz))|].
  rewrite Em, Es. exists A'. do 2 eexists. split; [exact (qc_inv _ _ _ _ _ _ _ _ _ _ Hc)|]. destruct (qc_queue _ _ _ _ _ _ _ _ _ _ Hc) as (Q & HQ & Hl & Hz & _ & Hh).
  unfold queue_of. rewrite HQ, !lookup_insert_eq. by split_and!.
Qed.
Definition demo_queues : gset Z := {[q3h]} ∪ ({[q1m]} ∪ (no_queues : gset Z)).
Lemma q3_sound : qsound demo_queues q3.
Proof.
  destruct q1_sound as (A & live & I & Hq & HQ & HI & Hz & Hl & Hh).
  pose proof (token_sound _ _ _ _ _ _ _ Hq HQ HI Hz Hl Hh) as H2. fold q2 in H2.
  destruct (wp_xQueueCreate _ q2 A live _ 1 0 H2 ltac:(lia) ltac:(lia) ltac:(unfold sizeof_Queue_t; lia) ltac:(lia)) as (q & s' & Hrun & Hpost).
  assert (q3h = q) as Em by (unfold q3h, result; by rewrite Hrun). assert (q3 = s') as Es by (unfold q3, run_q; by rewrite Hrun).
  destruct Hpost as [[H0 _]|(_ & A' & Hc)]; [by destruct (proj1 (proj2 (proj2 (proj2 demo_started_sems))) (eq_trans Em H0))|].
  unfold demo_queues. rewrite Em, Es. exists A'. do 2 eexists. exact (qc_inv _ _ _ _ _ _ _ _ _ _ Hc).
Qed.
Ltac small_nesting := vm_compute; intuition congruence.
Lemma task_args_ok addr n p : 0 <= p -> args_ok (task_args addr n p).
Proof. intros Hp. constructor; simpl; [left; right; left|unfold configMINIMAL_STACK_SIZE; lia|done]. Qed.
Lemma qsys_eta (s : DQ) : QSys (q_kernel s) (q_queues s) (q_mem s) = s.
Proof. by destruct s. Qed.
Lemma demo_started_sound : qsound demo_queues (d_sys demo_started).
Proof.
  rewrite demo_started_state. pose proof q3_sound as H. rewrite <- (qsys_eta q3) in H.
  pose proof (inherit_sound _ _ _ _ pdFALSE H : qsound _ (QSys k3 _ _)) as H3.
  pose proof (create_sound _ _ _ _ _ H3 (task_args_ok 0x1000 76 1 ltac:(lia)) ltac:(small_nesting) : qsound _ (QSys k4 _ _)) as H4.
  pose proof (create_sound _ _ _ _ _ H4 (task_args_ok 0x2000 77 2 ltac:(lia)) ltac:(small_nesting) : qsound _ (QSys k5 _ _)) as H5.
  pose proof (create_sound _ _ _ _ _ H5 (task_args_ok 0x3000 72 3 ltac:(lia)) ltac:(small_nesting) : qsound _ (QSys k6 _ _)) as H6.
  exact (start_sound _ _ _ _ H6 ltac:(small_nesting)).
Qed.

(** ** The whole program *)

Definition task_at (i : nat) : Z := nth i (pxTaskRegistry (q_kernel (d_sys demo_started))) 0.
Lemma main_runs : main_demo demo_boot = Some (true, demo_started).
Proof.
  assert (fst <$> main_demo demo_boot = Some true) as H by (vm_compute; reflexivity). unfold demo_started, run_d.
  destruct (main_demo demo_boot) as [ [b d]|]; [|done]. by injection H as ->.
Qed.
Lemma ready_computed (W : Queues) (k : DK) A live t T :
  kinv None k A live -> k_tcbs k !! t = Some T -> container_of (k_lists k) (StateItem t) = Some (Some (Ready (uxPriority T))) -> is_ready k A t T.
Proof. intros Hk HT Hc. split; [done|]. unfold cont. by rewrite <- (rep_container _ _ (ki_rep _ _ _ _ Hk)). Qed.
Abbreviation started_inv := (demo_inv (task_at 0) (task_at 1) (task_at 2) (task_at 3)).
Lemma started_guards : guards (q_kernel (d_sys demo_started)).
Proof.
  assert (map_Forall (fun _ T => k_stack (q_kernel (d_sys demo_started)) !! pxStack T = Some FLINT_STACK_FILL /\
    k_stack (q_kernel (d_sys demo_started)) !! (pxStack T + sizeof_StackType_t) = Some FLINT_STACK_FILL) (k_tcbs (q_kernel (d_sys demo_started)))) as H by by_deciding.
  exact H.
Qed.
Lemma demo_started_inv : started_inv demo_started.
Proof.
  destruct demo_started_sound as (A & live & I & Hq). apply calm_inv. split; [|split; [exact started_guards|] ].
  - apply (core_ready2 _ demo_queues A live I _ Hq). pose proof (qi_kinv _ _ _ _ Hq) as Hk. constructor.
    + eexists. eapply (ready_computed demo_queues); [exact Hk|vm_compute; reflexivity|vm_compute; reflexivity].
    + eexists. eapply (ready_computed demo_queues); [exact Hk|vm_compute; reflexivity|vm_compute; reflexivity].
    + small_nesting.
  - split; (eexists; split; [vm_compute; reflexivity|reflexivity]).
Qed.
Lemma started_events cntfrq es : exists d', run_events cntfrq (task_at 0) (task_at 1) (task_at 2) es demo_started = Some (tt, d') /\ started_inv d'.
Proof.
  destruct (events_inv cntfrq (task_at 0) (task_at 1) (task_at 2) (task_at 3)
    ltac:(vm_compute; congruence) ltac:(vm_compute; congruence) ltac:(vm_compute; congruence) es demo_started demo_started_inv) as ([] & d' & Hrun & Hinv).
  by exists d'.
Qed.

(** C12: the demonstration, from the boot state: [main] makes the semaphores and
    the tasks, starts the scheduler and returns no error; from then on, for every
    frequency of the counter and every sequence of task steps (the critical
    sections and yields of each call apart), timer interrupts between any two of
    them and stretches of elapsing time, in which no task overruns its stack, each
    step completes, and the lists, the heap, the tasks and both semaphores stay
    consistent, with the idle task ready. *)
Theorem main_demo_always_safe cntfrq es :
  exists d d', main_demo demo_boot = Some (true, d) /\ run_events cntfrq (task_at 0) (task_at 1) (task_at 2) es d = Some (tt, d') /\
    sys_inv (task_at 3) (d_sys d').
Proof.
  exists demo_started. destruct (started_events cntfrq es) as (d' & Hrun & Hinv). exists d'. split; [apply main_runs|]. split; [done|].
  exact (core_inv _ _ _ (proj1 Hinv)).
Qed.

(** ** What it prints *)

(** A millisecond of a board at 54 MHz: the tasks run, then the timer ticks. *)
Definition millisecond : list event := replicate 24 (ERun 1024) ++ [ETime 54000; ETick 1024].
Fixpoint milliseconds (n : nat) : M DD unit :=
  match n with O => mret tt | S n => run_events 54000000 (task_at 0) (task_at 1) (task_at 2) millisecond;; milliseconds n end.

(** The console after 2.3 seconds: the high task waits 150 or 200 ms behind the
    medium one for five cycles, and then only the 60 ms the low task holds the
    mutex. *)
Example main_demo_console : d_out ∘ snd <$> milliseconds 2300 demo_started =
  Some [OutDemo; OutPhase1; OutStart 3; OutBlocked 0 150 false; OutBlocked 1 200 false; OutBlocked 2 200 false; OutBlocked 3 200 false;
        OutBlocked 4 200 false; OutEnabling; OutBlocked 5 60 true].
Proof. vm_compute. reflexivity. Qed.

(** The state in which the high task first waits for the mutex. *)
Definition to_contention : list event := replicate 8 (ERun 1024) ++ [ETick 1024] ++ replicate 3 (ERun 1024).
Definition contended_state : DD := run_d (run_events 54000000 (task_at 0) (task_at 1) (task_at 2) to_contention) demo_started.
Abbreviation ck := (q_kernel (d_sys contended_state)).
Definition tcb_at (i : nat) : TCB_t := tcb_of ck (task_at i).
Lemma ck_tcbs t T : k_tcbs ck !! t = Some T -> t = task_at 0 \/ t = task_at 1 \/ t = task_at 2 \/ uxPriority T < uxPriority (tcb_at 0).
Proof.
  assert (map_Forall (fun t T => t = task_at 0 \/ t = task_at 1 \/ t = task_at 2 \/ uxPriority T < uxPriority (tcb_at 0)) (k_tcbs ck)) as H by by_deciding.
  apply H.
Qed.
Lemma contended_inv : sys_inv (task_at 3) (d_sys contended_state).
Proof.
  destruct (started_events 54000000 to_contention) as (d' & Hrun & Hinv). unfold contended_state, run_d. rewrite Hrun. exact (core_inv _ _ _ (proj1 Hinv)).
Qed.

Lemma contended_ready W A live i : kinv (Qs := W) None ck A live -> (i < 3)%nat -> is_ready ck A (task_at i) (tcb_at i).
Proof.
  intros Hk Hi. assert (k_tcbs ck !! task_at i = Some (tcb_at i) /\
    container_of (k_lists ck) (StateItem (task_at i)) = Some (Some (Ready (uxPriority (tcb_at i))))) as [H1 H2].
  { clear Hk. do 3 (destruct i as [|i]; [vm_compute; by split|]). lia. }
  exact (ready_computed W ck A live _ _ Hk H1 H2).
Qed.
Definition contended_mutex : Queue_t := queue_of (d_sys contended_state) (xMutex contended_state).
Lemma contended_ok W A live I : qinv (Qs := W) (d_sys contended_state) A live I ->
  contended (Qs := W) (task_at 0) (task_at 1) (task_at 2) contended_state A live I contended_mutex (tcb_at 2) (tcb_at 0) (tcb_at 1).
Proof.
  intros Hq. pose proof (qi_kinv _ _ _ _ Hq) as Hk. constructor.
  - exact Hq.
  - vm_compute. intuition congruence.
  - vm_compute. reflexivity.
  - vm_compute. by split_and!.
  - exact (contended_ready W A live 2 Hk ltac:(lia)).
  - exact (contended_ready W A live 0 Hk ltac:(lia)).
  - exact (contended_ready W A live 1 Hk ltac:(lia)).
  - vm_compute. by split.
  - intros t T HT. exact (ck_tcbs t T (proj1 HT)).
Qed.
Lemma contended_pc : d_high contended_state = HTake 1 PBlock.
Proof. vm_compute. reflexivity. Qed.

Definition contended_sp : Z := pxStack (tcb_at 2) + 1024.
Lemma contended_yields : yields_ok contended_sp ck.
Proof. apply (yields_of _ _ (tcb_at 2)); [vm_compute; reflexivity|]. split_and!; [vm_compute; congruence|vm_compute; reflexivity..]. Qed.

Lemma inversion_then_inheritance_witness :
  exists d1 d', vTaskHigh contended_sp contended_state = Some (tt, d1) /\ vTaskHigh contended_sp d1 = Some (tt, d') /\ d_high d' = HTake 1 PRetry.
Proof.
  destruct contended_inv as (W & A & live & I & Hq & Hr).
  destruct (inversion_then_inheritance (Qs := W) _ _ _ contended_state A live I _ _ _ _ 1 contended_sp (contended_ok W A live I Hq) contended_pc contended_yields)
    as (d1 & d' & Hrun & _ & _ & Hrun' & Hpc & _).
  exists d1, d'. split_and!; [exact Hrun|exact Hrun'|exact Hpc].
Defined.

(** The networking build starts its two tasks. *)
Example main_net_starts : (fun r => (n_out r.2, uxCurrentNumberOfTasks (n_kernel r.2))) <$> main_net demo_sym 0x1000 0x2000 (NetMain kernel_boot 0 HbPrint []) =
  Some ([OutNetBuild; OutStart 2], 3).
Proof. vm_compute. reflexivity. Qed.
